(* ===== verification/_CoqProject ===== *)
-Q . S2P
Prelude.v
GoSlices.v
Interfaces.v
GoStrings.v
AccessList.v
Account.v
StateObject.v
StateObjectSpec.v
Journal.v
StateDB.v
StateDBInv.v
StateDBRevert.v
StateDBUndo.v
StateDBSnapshot.v
StateDBCommit.v
StateDBLogs.v
StateDBExamples.v
EthMsg.v
ChainID.v
Ante.v
Refund.v
EthExamples.v
Transition.v
EvmKeeper.v
TransitionSpec.v
EvmMain.v
EvmBlocked.v
EvmExamples.v
EvmLists.v
EvmGenesis.v
EvmGenesisSpec.v
BloomIndex.v
LogFilter.v
LogSearch.v
EvmChain.v
EvmQuery.v
RpcBackend.v
FilterApi.v
FilterApiSpec.v
LogChain.v
LogExamples.v
Sums.v
Coins.v
StakingTypes.v
Effects.v
StakingKeys.v
StakingState.v
StakingKeeper.v
StakingVals.v
StakingHandler.v
StakingAcct.v
StakingView.v
StakingRefine.v
StakingEnd.v
StakingExamples.v
StakingSet.v
StakingVotes.v
StakingElect.v
StakingBlock.v
StakingReach.v
StakingInvariants.v
StakingGenesis.v
StakingSetExamples.v
Distribution.v
DistrAlloc.v
DistrBooks.v
DistrSpec.v
DistrMain.v
DistrExamples.v
EvmAdminExamples.v
Token.v
TokenSpec.v
TokenTables.v
TokenView.v
TokenMain.v
TokenExamples.v
