(* ===== verification/Prelude.v ===== *)
(** * FaxChain: a model of the chain's state machine

    FaxChain is a blockchain in Go on the Cosmos SDK and Tendermint with an
    Ethereum virtual machine.  This library models the parts that decide
    what happens to accounts, contracts and tokens, translated from the
    sources under src/, and proves what makes them correct.

    ** How the program works, and where it is modelled

    A block begins with [BeginBlock] of every module, runs its
    transactions, and ends with [EndBlock].  A transaction passes the ante
    handler (fee, nonce, signature), then the handler of its module; gas
    that was not used is refunded.  An Ethereum transaction runs the
    virtual machine on a [CommitStateDB], a cache over the stores with a
    journal for reverts.  The staking module keeps delegators, votes and
    validators and tells the distribution module, through hooks, about
    validators that come and go; the distribution module shares out the
    fees of a block when the next one begins.

    Foundations.  [Prelude] has outcomes of Go code ([res]: a value or a
    panic), record update, bytes and 64-bit words; [GoSlices] slices with
    index maps and [sort.Search]; [Interfaces] and [Coins] what the code
    uses of the Cosmos SDK and go-ethereum, as classes of operations with
    their documented laws, and instances over finite maps; [GoStrings] what
    the code uses of the packages strings and unicode; [Effects] keeper
    methods as state with errors and panics; [Sums] and [Coins] totals over
    tables and lists.

    EVM state (src/evm/types).  [AccessList] (access_list.go), [Account]
    (src/app/types/account.go), [StateObject] and [StateObjectSpec]
    (state_object.go, storage.go, key.go), [Journal] (journal.go),
    [StateDB] (statedb.go): the operations as they are written.
    [StateDBInv] has the invariant [wf], the observations and the order
    [sle] on databases; [StateDBRevert] and [StateDBUndo] show that every
    operation can be undone by its journal entries; [StateDBSnapshot] that
    [RevertToSnapshot] restores what the machine observes, whatever ran in
    between; [StateDBCommit] that [Finalise] and [Commit] bring the cache
    to the stores; [StateDBExamples] runs them, with the cases where the
    code breaks its own promise.

    Ethereum transactions (src/evm/types/msg.go, src/app).  [EthMsg]: the
    transaction, [Sign], [VerifySig]; [ChainID]: chain identifiers and
    their parser; [Ante]: the ante handler with every decorator of
    src/app/ante; [Refund]: src/app/refund; [EthExamples] runs them.

    The machine's driver (src/evm).  [Transition]
    (types/state_transition.go, types/chain_config.go) takes the machine as
    a parameter: a program that asks for StateDB operations one after
    another.  [EvmKeeper]: keeper/keeper.go, keeper/abci.go, handler.go.
    [StateDBLogs] shows what operations leave alone and the invariant of
    the logs, [TransitionSpec] lifts that to runs of any program, [EvmMain]
    has the theorems on transactions and blocks, [EvmBlocked] shows which
    operations panic with an address and when a call is refused for the
    blocked list, [EvmExamples] runs a block.

    The machine's administration (src/evm).  [EvmLists]: deployment and
    blocked lists and the governance proposals that change them
    (types/proposal.go, proposal_handler.go, keeper/proposal.go);
    [EvmGenesis]: the genesis file with its code and storage inside the file
    (genesis.go, types/genesis.go, keeper/logs.go) and the registered
    invariants (keeper/invariants.go); [EvmGenesisSpec] what an export keeps
    and loses; [EvmAdminExamples] runs them.

    Reading the chain (src/evm, src/app/rpc).  [EvmQuery]: the queries of
    the machine's module (keeper/querier.go); [BloomIndex]: the index that
    turns the bloom filters of 4096 blocks around (types/bloombits.go,
    types/indexer.go, the index's part of keeper/abci.go); [RpcBackend]:
    what the node answers from Tendermint, the queries and the index
    (src/app/rpc/backend, src/app/rpc/types); [LogFilter]: the search for
    logs over the interface [Backend] (filters.go, utils.go of
    src/app/rpc/namespaces/eth/filters).  [LogSearch] states the contract
    [serves] of a backend and proves the search complete under it;
    [EvmChain] runs whole blocks with the index and restarts and says what
    they leave recorded; [LogChain] discharges the contract for a node whose
    chain was built so.  [FilterApi] has the filters that clients install
    and poll, with their goroutines, and the event loop as a step relation
    (api.go, filter_system.go, subscription.go); [FilterApiSpec] what polls
    deliver and where the loop stops; [LogExamples] a chain of three blocks
    with two logs.

    Staking (src/staking).  [StakingTypes] (types), [StakingKeys]
    (types/keys.go), [StakingState] (the store as a record of finite maps),
    [StakingKeeper] (delegation.go, proxy.go, weight.go,
    min_self_delegation.go), [StakingVals] (the validator set),
    [StakingHandler] (handler.go, handler_shares.go).  [StakingAcct] is the
    abstract specification: accounts with tokens, bindings and
    undelegations, and one operation for each message; [StakingView] maps
    the store to it; [StakingRefine] proves that the handlers implement it
    and [StakingEnd] does the end of a block and the invariant of reachable
    states; [StakingExamples] runs a history.  [StakingSet] says what the
    tables of validators and votes agree on, [StakingVotes] that messages
    keep it; [StakingElect] computes the election of the end of a block in
    closed form and what the consensus engine is told, [StakingBlock] and
    [StakingReach] that the end of a block returns in every reachable state
    and that the engine never loses track; [StakingInvariants] the lists the
    store is read as and the registered invariants, [StakingGenesis] export,
    check and import of the genesis; [StakingSetExamples] runs them.

    Distribution (src/distribution).  [Distribution] (keeper, handler.go,
    abci.go, genesis.go) reads validators through the class
    [StakingReader], which the staking store implements ([StakingAlias]);
    [DistrAlloc] computes the payment loops in amounts, [DistrBooks] has the
    invariant of the books and that every operation keeps it, [DistrSpec]
    the split of the fees and the rounding, [DistrMain] histories and the
    module's theorems, [DistrExamples] a history that starts from the
    staking example.

    Tokens (src/token).  [Token] (keeper.go, handler.go, genesis.go,
    querier.go, types): the tables of tokens, owners, locks and pending
    hand-overs as a record of finite maps, which stands for the store since
    its prefixes differ and addresses have one length.  [TokenSpec] has the
    specification of the messages as a relation, with coins as flows on a
    ledger, and that the handlers meet it; [TokenTables] the
    well-formedness of the tables; [TokenView] genesis and merged coins;
    [TokenMain] histories and the module's theorems; [TokenExamples] a bank
    over maps and a token that changes hands.

    ** What the theorems show

    - EVM state: reverts restore every query, but not the cache of codes;
      committed state is found again by a database opened on the stores; the
      invariant holds in every database reached without an empty transfer to
      the RIPEMD account, which breaks it; access list and journal do what
      their comments say, with the exceptions found.
    - Transactions: an accepted transaction pays exactly its fee and uses
      its nonce once, so it cannot be replayed; what passes the check
      passes delivery; a failed transaction pays for the gas used, when its
      signature names the chain's ID; signatures verify as their signer, and
      also in a second form, for which the refund can fail.
    - The driver: gas adds up and stays below the limit, checks change
      nothing but the counter of account numbers, nonces survive, logs are
      numbered through a block and the stored bloom covers them, block
      hashes are found; a transaction is refused for the blocked list
      exactly when the machine asks for the code of a contract on it, and
      then does not pay for the machine's gas.
    - The administration: the lists are changed by accepted proposals alone
      and hold what these say; the exact content of a genesis export, and
      that the registered invariants can never fail.
    - Reading the chain: after any history of blocks and restarts past
      blocks are found by height and hash and the index holds every full
      section; a request for logs then returns exactly the logs that match,
      whatever part of the range the index covers.  Polls deliver each log
      once; criteria are not kept with a filter, and the event loop stops at
      the first event it has to pass on.
    - Staking: every accepted message refines its abstract operation, the
      pools hold what the delegators are owed in every reachable state, and
      undelegations that are due are paid; keys of the store neither
      collide nor lose their order.  The end of a block returns in every
      reachable state, elects the validators with the most votes and sends
      updates that turn the engine's old set into the new one; the
      registered invariants hold; an exported genesis is restored except for
      the running epoch, and does not always pass its own check.
    - Distribution: the begin of a block case by case, with the exact split
      of the fees when voters can be paid and the panic when none can;
      rounding is bounded, the registered invariants hold
      in every reachable state, withdrawals cannot fail, and genesis files
      lose nothing.
    - Tokens: each message moves exactly the specified coins, a token
      changes hands only as its owner and the next one agreed, the tables
      stay well-formed and supplies bounded, the exported genesis restores
      the tokens, and accounts are reported line by line.

    ** Bounds and conventions

    Addresses and hashes are numbers below 2^160 and 2^256; [sdk.Dec] is
    its mantissa (18 decimals); 64-bit words wrap around where the code
    computes with them.  Tables of the store are finite maps; iterators
    list their entries in the order of the keys.  Loops run over lists or
    are structural, but for five that use fuel.  A binary search
    ([GoSlices]) has as many turns as the slice has elements, trimming
    ([ChainID]) as the string has bytes, and each turn takes one away; the
    printers of numbers have more turns than digits: 20 for 64 bits in
    [GoStrings], one more than the number itself in [ChainID]; the index ([BloomIndex]) has as many turns
    as sections are missing, and each turn that goes on stores one more.  A panic is a value of [res]; a
    message that fails is rolled back by the SDK, so histories keep only
    the successful ones.  Events, logs and metrics are left out.

    Reachable states of staking assume blocks at least 52 weeks after the
    epoch the weights count from ([late]), so that a vote weighs at least
    one, messages whose addresses and amounts pass their basic checks
    ([msg_fine]), and sound parameters.  A chain in [EvmChain] assumes that
    block hashes differ and are not zero; a node in [LogChain] that
    Tendermint has kept its blocks and results.  A section of the index is
    processed before the next block ends.

    ** Not modelled

    The virtual machine's interpreter, the curve and hash functions, RLP
    and Amino, and the SDK's bank, supply and auth modules are third-party
    code: parameters with laws; so are the matcher and the generator of
    bloom bits, and Tendermint's client.  The queries and the simulator of
    staking, the EVM's export into files and databases, legacy genesis
    files and the parameter module are not modelled, nor are JSON, Bech32 and
    other encodings of requests and answers.  The remaining JSON-RPC
    services, command-line and REST clients, the watcher's side database,
    keys, application wiring and monitoring are input and output around the
    state machine. *)

From Stdlib Require Export ZArith Lia.
From stdpp Require Export base gmap strings sets fin_maps fin_map_dom option list_numbers.
From stdpp Require Export list.
From Stdlib Require Strings.Byte.
Abbreviation byte := Corelib.Init.Byte.byte.
Abbreviation x00 := Corelib.Init.Byte.x00.

(** ** Outcomes of Go code

    A Go function either returns or panics.  A panic value is what
    [recover()] would see: a message, an error, an Ethereum address (the
    value [CommitStateDB.GetCode] panics with), or one of the run-time
    panics of the language. *)
Inductive gopanic :=
  | PanicMsg (msg : string)
  | PanicAddr (addr : N)
  | PanicIndex            (* index or slice bounds out of range *)
  | PanicNil              (* nil pointer dereference *)
  | PanicDivide           (* integer division by zero *)
  | PanicOutOfGas (descriptor : string).

Inductive res (A : Type) : Type :=
  | Ret (a : A)
  | Panic (p : gopanic).
Arguments Ret {A} a.
Arguments Panic {A} p.

#[export] Instance res_ret : MRet res := fun A a => Ret a.
#[export] Instance res_bind : MBind res := fun A B k m =>
  match m with Ret a => k a | Panic p => Panic p end.
#[export] Instance res_fmap : FMap res := fun A B f m =>
  match m with Ret a => Ret (f a) | Panic p => Panic p end.

Lemma res_bind_Ret {A B} (a : A) (k : A -> res B) : (Ret a ≫= k) = k a.
Proof. reflexivity. Qed.

Lemma res_bind_inv {A B} (m : res A) (k : A -> res B) b :
  m ≫= k = Ret b -> exists a, m = Ret a /\ k a = Ret b.
Proof. destruct m; simpl; [eauto | discriminate]. Qed.

(** Reading a slice or dereferencing a pointer: [None] is the run-time panic. *)
Definition index_or_panic {A} (o : option A) : res A :=
  match o with Some a => Ret a | None => Panic PanicIndex end.
Definition deref {A} (o : option A) : res A :=
  match o with Some a => Ret a | None => Panic PanicNil end.

Definition is_Ret {A} (m : res A) : bool :=
  match m with Ret _ => true | Panic _ => false end.

(** ** Machine integers *)
Definition u64_modulus : Z := 2 ^ 64.
Definition u64 (x : Z) : Z := x mod u64_modulus.

Lemma u64_id x : (0 <= x < u64_modulus)%Z -> u64 x = x.
Proof. intros. unfold u64. by apply Z.mod_small. Qed.

Lemma u64_range x : (0 <= u64 x < u64_modulus)%Z.
Proof. unfold u64. apply Z.mod_pos_bound. unfold u64_modulus; lia. Qed.

(** ** Record update

    [r <| f := v |>] replaces one field of a record whose constructor
    application is registered as an [Eta] instance. *)
Class Eta (R : Type) := eta : R -> R.
Variant Setter {R T : Type} (proj : R -> T) : Type := mkSetter (s : (T -> T) -> R -> R).
Existing Class Setter.
Arguments mkSetter {R T proj} s.
Definition set {R T : Type} (proj : R -> T) {S : Setter proj} (f : T -> T) (r : R) : R :=
  match S with mkSetter s => s f r end.
Arguments set {R T} proj {_} f r /.
#[global] Typeclasses Opaque Eta.
#[global] Hint Mode Eta ! : typeclass_instances.
#[global] Hint Mode Setter ! ! ! : typeclass_instances.

Ltac solve_setter :=
  lazymatch goal with
  | |- @Setter ?R ?T ?p =>
      let f := fresh "f" in
      let r := fresh "r" in
      refine (mkSetter (fun f r => _));
      let e := constr:(_ : Eta R) in
      let e := eval hnf in e in
      let b := eval cbv beta in (e r) in
      match b with
      | context G [?q r] =>
          unify q p;
          let t := context G [f (p r)] in
          exact t
      end
  end.
#[export] Hint Extern 1 (Setter _) => solve_setter : typeclass_instances.

Declare Scope go_scope.
Delimit Scope go_scope with go.
Open Scope go_scope.
Notation "r <| p := v |>" := (set p (fun _ => v) r)
  (at level 1, left associativity, format "r  <| p  :=  v |>") : go_scope.

(** ** Tactics of the development *)

(** Split a hypothesis [m ≫= k = Ret b] into its two steps. *)
Ltac bind_inv H :=
  let a := fresh "r" in
  let Ha := fresh H in
  apply res_bind_inv in H; destruct H as (a & Ha & H); cbv beta in H.

(** Case split on every [match]/[if] whose scrutinee blocks the goal or [H]. *)
Ltac split_match_in H :=
  match type of H with
  | context [ match ?e with _ => _ end ] =>
      lazymatch e with
      | context [ match _ with _ => _ end ] => fail
      | _ => let E := fresh "E" in destruct e eqn:E
      end
  end.
Ltac split_match :=
  match goal with
  | |- context [ match ?e with _ => _ end ] =>
      lazymatch e with
      | context [ match _ with _ => _ end ] => fail
      | _ => let E := fresh "E" in destruct e eqn:E
      end
  end.
Ltac split_conjs :=
  repeat match goal with
  | H : _ /\ _ |- _ => destruct H
  | H : exists _, _ |- _ => destruct H
  | |- _ /\ _ => split
  end.

Create HintDb go.
#[export] Hint Resolve u64_range : go.

(** ** Bytes *)
#[export] Instance byte_eq_dec : EqDecision byte := Byte.byte_eq_dec.
#[export] Program Instance byte_countable : Countable byte :=
  inj_countable Byte.to_N Byte.of_N _.
Next Obligation. intros x. apply Byte.of_to_N. Qed.

Abbreviation bytes := (list byte).

Definition byte_of_Z (x : Z) : byte :=
  default x00 (Byte.of_N (Z.to_N (x mod 256))).
Definition Z_of_byte (b : byte) : Z := Z.of_N (Byte.to_N b).

Lemma Z_of_byte_range b : (0 <= Z_of_byte b < 256)%Z.
Proof. unfold Z_of_byte. pose proof (Byte.to_N_bounded b). lia. Qed.

Lemma Z_of_byte_inj b c : Z_of_byte b = Z_of_byte c -> b = c.
Proof.
  unfold Z_of_byte. intros H%N2Z.inj.
  apply (f_equal Byte.of_N) in H. rewrite !Byte.of_to_N in H. congruence.
Qed.

Lemma Z_of_byte_of_Z x : Z_of_byte (byte_of_Z x) = (x mod 256)%Z.
Proof.
  unfold Z_of_byte, byte_of_Z.
  pose proof (Z.mod_pos_bound x 256 ltac:(lia)) as Hb.
  destruct (Byte.of_N (Z.to_N (x mod 256))) as [b|] eqn:E.
  - apply Byte.to_of_N in E. simpl. rewrite E. lia.
  - apply Byte.of_N_None_iff in E. lia.
Qed.

(** Big-endian numbers of [n] bytes: [binary.BigEndian.PutUint64],
    [sdk.Uint64ToBigEndian], the byte arrays of [common.Address] and
    [common.Hash]. *)
Fixpoint be_bytes (n : nat) (x : Z) : bytes :=
  match n with
  | O => []
  | S m => byte_of_Z (x / 256 ^ Z.of_nat m) :: be_bytes m x
  end.

Fixpoint be_value (l : bytes) : Z :=
  match l with
  | [] => 0
  | b :: l' => (Z_of_byte b * 256 ^ Z.of_nat (length l') + be_value l')%Z
  end.

Lemma length_be_bytes n x : length (be_bytes n x) = n.
Proof. induction n; simpl; congruence. Qed.

Lemma be_value_range l : (0 <= be_value l < 256 ^ Z.of_nat (length l))%Z.
Proof.
  induction l as [|b l IH]; cbn [be_value length]; [simpl; lia|].
  pose proof (Z_of_byte_range b).
  rewrite Nat2Z.inj_succ, Z.pow_succ_r by lia. nia.
Qed.

Lemma be_value_be_bytes n x : be_value (be_bytes n x) = (x mod 256 ^ Z.of_nat n)%Z.
Proof.
  induction n as [|n IH]; cbn [be_bytes be_value].
  - by rewrite Z.mod_1_r.
  - rewrite IH, length_be_bytes, Z_of_byte_of_Z, Nat2Z.inj_succ, Z.pow_succ_r by lia.
    rewrite (Z.mul_comm 256 (256 ^ Z.of_nat n)).
    rewrite Z.rem_mul_r by lia. lia.
Qed.

Lemma be_value_inj l k : length l = length k -> be_value l = be_value k -> l = k.
Proof.
  revert k; induction l as [|b l IH]; intros [|c k]; cbn [be_value length]; try done.
  intros [= Hlen] Hv. rewrite Hlen in Hv.
  pose proof (be_value_range l) as Hl. pose proof (be_value_range k) as Hk.
  rewrite Hlen in Hl. set (m := (256 ^ Z.of_nat (length k))%Z) in *.
  assert (Z_of_byte b = Z_of_byte c) as Hbc by nia.
  f_equal; [by apply Z_of_byte_inj | apply IH; [done | nia]].
Qed.

Lemma be_bytes_inj n x y :
  (0 <= x < 256 ^ Z.of_nat n)%Z -> (0 <= y < 256 ^ Z.of_nat n)%Z ->
  be_bytes n x = be_bytes n y -> x = y.
Proof.
  intros Hx Hy H. apply (f_equal be_value) in H.
  rewrite !be_value_be_bytes in H. by rewrite !Z.mod_small in H.
Qed.

Lemma be_bytes_be_value n l : length l = n -> be_bytes n (be_value l) = l.
Proof.
  intros <-. apply be_value_inj; [apply length_be_bytes|].
  rewrite be_value_be_bytes. apply Z.mod_small, be_value_range.
Qed.

(** Lexicographic comparison of byte strings, the order of
    [bytes.Compare] and of store iterators. *)
Fixpoint bytes_lt (l k : bytes) : bool :=
  match l, k with
  | _, [] => false
  | [], _ :: _ => true
  | a :: l', b :: k' =>
      (Z_of_byte a <? Z_of_byte b)%Z || ((Z_of_byte a =? Z_of_byte b)%Z && bytes_lt l' k')
  end.

Lemma bytes_lt_be l k :
  length l = length k -> bytes_lt l k = (be_value l <? be_value k)%Z.
Proof.
  revert k; induction l as [|a l IH]; intros [|b k]; cbn [bytes_lt be_value length]; try done.
  intros [= Hlen]. rewrite (IH _ Hlen), Hlen.
  pose proof (be_value_range l) as Hl. pose proof (be_value_range k) as Hk.
  rewrite Hlen in Hl. set (m := (256 ^ Z.of_nat (length k))%Z) in *.
  apply Bool.eq_true_iff_eq.
  rewrite Bool.orb_true_iff, Bool.andb_true_iff, !Z.ltb_lt, Z.eqb_eq. nia.
Qed.
