(* ===== verification/GoSlices.v ===== *)
(** Go slices paired with an index map, and [sort.Search].

    The EVM state keeps several slices together with a map from a key to
    the position of its element (dirty accounts, live state objects,
    storage entries, preimages).  This file has the invariant that ties
    the two together, the operations the code performs on such a pair and
    the lemmas every component shares. *)
From S2P Require Import Prelude.

Section IndexedSlice.
Context {K V : Type} `{Countable K} (key : V -> K).
Implicit Types (l : list V) (m : gmap K nat).

(** The map records exactly the position of every element. *)
Definition idx_wf l m : Prop :=
  forall k i, m !! k = Some i <-> exists v, l !! i = Some v /\ key v = k.

Definition idx_find l m (k : K) : option V := m !! k ≫= fun i => l !! i.

Lemma idx_wf_empty : idx_wf [] ∅.
Proof.
  intros k i. rewrite lookup_empty. split; [done|].
  intros (v & Hv & _). by rewrite lookup_nil in Hv.
Qed.

Lemma idx_wf_unique l m i j v w :
  idx_wf l m -> l !! i = Some v -> l !! j = Some w -> key v = key w -> i = j.
Proof.
  intros Hwf Hv Hw Hk.
  assert (m !! key v = Some i) as H1 by (apply Hwf; eauto).
  assert (m !! key v = Some j) as H2 by (apply Hwf; eauto).
  congruence.
Qed.

Lemma idx_wf_lt l m k i : idx_wf l m -> m !! k = Some i -> i < length l.
Proof. intros Hwf Hi. apply Hwf in Hi as (v & Hv & _). by eapply lookup_lt_Some. Qed.

Lemma idx_wf_lookup l m k i :
  idx_wf l m -> m !! k = Some i -> exists v, l !! i = Some v /\ key v = k.
Proof. intros Hwf Hi. by apply Hwf. Qed.

Lemma idx_find_key l m k v : idx_wf l m -> idx_find l m k = Some v -> key v = k.
Proof.
  unfold idx_find. intros Hwf Hv. destruct (m !! k) as [i|] eqn:Hi; [|done].
  apply (idx_wf_lookup _ _ _ _ Hwf) in Hi as (w & Hw & <-). simpl in Hv. congruence.
Qed.

Lemma idx_find_None l m k : idx_wf l m -> idx_find l m k = None <-> m !! k = None.
Proof.
  unfold idx_find. intros Hwf. destruct (m !! k) as [i|] eqn:Hi; [|done].
  apply (idx_wf_lookup _ _ _ _ Hwf) in Hi as (w & Hw & _). simpl. by rewrite Hw.
Qed.

Lemma idx_find_elem l m k v : idx_wf l m -> idx_find l m k = Some v <-> v ∈ l /\ key v = k.
Proof.
  intros Hwf. split.
  - intros Hv. split; [|by eapply idx_find_key].
    unfold idx_find in Hv. destruct (m !! k) as [i|]; [|done].
    apply list_elem_of_lookup. by exists i.
  - intros [(i & Hi)%list_elem_of_lookup Hk]. unfold idx_find.
    assert (m !! k = Some i) as -> by (apply Hwf; eauto). done.
Qed.

(** *** Appending an element under a fresh key *)
Lemma idx_wf_snoc l m v :
  idx_wf l m -> m !! key v = None -> idx_wf (l ++ [v]) (<[key v := length l]> m).
Proof.
  intros Hwf Hfresh k i. rewrite lookup_insert. case_decide as Hk.
  - subst k. split.
    + intros [= <-]. exists v. split; [|done].
      rewrite lookup_app_r by lia. by rewrite Nat.sub_diag.
    + intros (w & Hw & Hkw). f_equal. apply lookup_app_Some in Hw as [Hw|[Hle Hw]].
      * assert (m !! key v = Some i) by (apply Hwf; eauto). congruence.
      * apply list_lookup_singleton_Some in Hw as [Hz _]. lia.
  - rewrite (Hwf k i). split; intros (w & Hw & Hkw); exists w; split; try done.
    + rewrite lookup_app_l; [done|]. by eapply lookup_lt_Some.
    + apply lookup_app_Some in Hw as [Hw|[Hle Hw]]; [done|].
      apply list_lookup_singleton_Some in Hw as [_ ->]. congruence.
Qed.

Lemma idx_find_snoc l m v k :
  idx_wf l m -> m !! key v = None ->
  idx_find (l ++ [v]) (<[key v := length l]> m) k
  = if decide (key v = k) then Some v else idx_find l m k.
Proof.
  intros Hwf Hfresh. unfold idx_find. rewrite lookup_insert. case_decide; simpl.
  - rewrite lookup_app_r by lia. by rewrite Nat.sub_diag.
  - destruct (m !! k) as [i|] eqn:Hi; [|done]. simpl.
    apply lookup_app_l. by eapply idx_wf_lt.
Qed.

(** *** Overwriting the element of a known key *)
Lemma idx_wf_insert l m i v :
  idx_wf l m -> m !! key v = Some i -> idx_wf (<[i := v]> l) m.
Proof.
  intros Hwf Hi k j. pose proof (idx_wf_lt _ _ _ _ Hwf Hi) as Hlt.
  rewrite (Hwf k j). destruct (decide (i = j)) as [->|Hij].
  - rewrite list_lookup_insert_eq by done. split.
    + intros (w & Hw & <-). exists v. split; [done|].
      apply (idx_wf_lookup _ _ _ _ Hwf) in Hi as (u & Hu & Hku). congruence.
    + intros (w & [= <-] & <-). by apply (idx_wf_lookup _ _ _ _ Hwf).
  - by rewrite list_lookup_insert_ne.
Qed.

Lemma idx_find_insert l m i v k :
  idx_wf l m -> m !! key v = Some i ->
  idx_find (<[i := v]> l) m k = if decide (key v = k) then Some v else idx_find l m k.
Proof.
  intros Hwf Hi. pose proof (idx_wf_lt _ _ _ _ Hwf Hi) as Hlt. unfold idx_find.
  case_decide as Hk.
  - subst k. rewrite Hi. simpl. by rewrite list_lookup_insert_eq.
  - destruct (m !! k) as [j|] eqn:Hj; [|done]. simpl.
    rewrite list_lookup_insert_ne; [done|]. intros ->. apply Hk.
    apply (idx_wf_lookup _ _ _ _ Hwf) in Hi as (u & Hu & <-).
    apply (idx_wf_lookup _ _ _ _ Hwf) in Hj as (u' & Hu' & <-). congruence.
Qed.

(** *** Removal by shifting left

    <<
      delete(m, k)
      for i := idx + 1; i < len(l); i++ { l[i-1] = l[i]; m[key(l[i])] = i - 1 }
      l = l[:len(l)-1]
    >> *)
Fixpoint shift_left (n i : nat) l m : list V * gmap K nat :=
  match n with
  | O => (l, m)
  | S n' =>
      match l !! i with
      | Some v => shift_left n' (S i) (<[i - 1 := v]> l) (<[key v := i - 1]> m)
      | None => (l, m)
      end
  end.

Definition remove_shift (k : K) (idx : nat) l m : list V * gmap K nat :=
  let '(l', m') := shift_left (length l - S idx) (S idx) l (delete k m) in
  (take (length l - 1) l', m').

Lemma shift_left_list n : forall i l m, 0 < i -> i + n = length l ->
  length (shift_left n i l m).1 = length l /\
  forall j, (shift_left n i l m).1 !! j =
            if decide (j < i - 1 ∨ length l <= S j) then l !! j else l !! S j.
Proof.
  induction n as [|n IH]; intros i l m Hi Hn; cbn [shift_left fst].
  - split; [done|]. intros j. case_decide; [done|]. lia.
  - destruct (l !! i) as [v|] eqn:Hv; [|apply lookup_ge_None in Hv; lia].
    destruct (IH (S i) (<[i - 1 := v]> l) (<[key v := i - 1]> m)) as [Hlen Hlook];
      [lia|rewrite length_insert; lia|].
    rewrite length_insert in Hlen, Hlook. split; [done|]. intros j. rewrite Hlook.
    repeat case_decide; try lia.
    + destruct (decide (j = i - 1)) as [->|];
        [lia|by rewrite list_lookup_insert_ne by lia].
    + assert (j = i - 1) as -> by lia. rewrite list_lookup_insert_eq by lia.
      by replace (S (i - 1)) with i by lia.
    + by rewrite list_lookup_insert_ne by lia.
Qed.

Lemma shift_left_map n : forall i l m, 0 < i -> i + n = length l ->
  (forall a b v w, l !! a = Some v -> l !! b = Some w -> key v = key w -> i <= a -> i <= b -> a = b) ->
  (forall j v, i <= j -> l !! j = Some v -> (shift_left n i l m).2 !! key v = Some (j - 1)) /\
  (forall k, (forall j v, i <= j -> l !! j = Some v -> key v ≠ k) ->
             (shift_left n i l m).2 !! k = m !! k).
Proof.
  induction n as [|n IH]; intros i l m Hi Hn Huniq; cbn [shift_left snd].
  - split; [|done]. intros j v Hj Hv. apply lookup_lt_Some in Hv. lia.
  - destruct (l !! i) as [v|] eqn:Hv; [|apply lookup_ge_None in Hv; lia].
    assert (forall j, S i <= j -> <[i - 1 := v]> l !! j = l !! j) as Hsame
      by (intros j Hj; by rewrite list_lookup_insert_ne by lia).
    destruct (IH (S i) (<[i - 1 := v]> l) (<[key v := i - 1]> m)) as [IH1 IH2];
      [lia|rewrite length_insert; lia| |].
    { intros a b x y Ha Hb Hk Hia Hib. rewrite Hsame in Ha, Hb by lia.
      eapply Huniq; eauto with lia. }
    split.
    + intros j w Hj Hw. destruct (decide (j = i)) as [->|Hji].
      * assert (w = v) as -> by congruence. rewrite IH2; [by rewrite lookup_insert_eq|].
        intros a x Ha Hx Hk. rewrite Hsame in Hx by lia.
        assert (a = i) by (eapply Huniq; eauto with lia). lia.
      * apply IH1; [lia|]. by rewrite Hsame by lia.
    + intros k Hk. rewrite IH2.
      * rewrite lookup_insert_ne; [done|]. by apply (Hk i).
      * intros j w Hj Hw. rewrite Hsame in Hw by lia. apply (Hk j w); auto with lia.
Qed.

Lemma remove_shift_list k idx l m :
  idx < length l -> (remove_shift k idx l m).1 = delete idx l.
Proof.
  intros Hlt. unfold remove_shift.
  pose proof (shift_left_list (length l - S idx) (S idx) l (delete k m)) as [Hlen Hlook];
    [lia|lia|].
  destruct (shift_left _ _ _ _) as [l' m'] eqn:E. cbn [fst] in *.
  apply list_eq. intros j. destruct (decide (j < length l - 1)) as [Hj|Hj].
  - rewrite lookup_take, Hlook by lia. repeat case_decide; try lia.
    + by rewrite list_lookup_delete_lt by lia.
    + by rewrite list_lookup_delete_ge by lia.
  - rewrite !lookup_ge_None_2; [done| |].
    + rewrite length_delete by (by apply lookup_lt_is_Some_2). lia.
    + rewrite length_take. lia.
Qed.

Lemma remove_shift_wf k idx l m :
  idx_wf l m -> m !! k = Some idx ->
  idx_wf (remove_shift k idx l m).1 (remove_shift k idx l m).2.
Proof.
  intros Hwf Hk. pose proof (idx_wf_lt _ _ _ _ Hwf Hk) as Hlt.
  rewrite (remove_shift_list _ _ _ _ Hlt). unfold remove_shift.
  pose proof (shift_left_map (length l - S idx) (S idx) l (delete k m)) as [Hin Hout];
    [lia|lia| |].
  { intros a b v w Ha Hb Hkk _ _. by eapply idx_wf_unique. }
  destruct (shift_left _ _ _ _) as [l' m'] eqn:E. cbn [snd fst] in *.
  intros k' i. destruct (decide (Exists (fun v => key v = k') (drop (S idx) l))) as [Hex|Hnex].
  - apply Exists_exists in Hex as (v & Hv & <-).
    apply list_elem_of_lookup in Hv as (j' & Hv). rewrite lookup_drop in Hv. set (j := S idx + j') in *. assert (S idx <= j) as Hj by lia.
    clearbody j.
    rewrite (Hin _ _ Hj Hv). split.
    + intros [= <-]. exists v. split; [|done].
      rewrite list_lookup_delete_ge by lia. by replace (S (j - 1)) with j by lia.
    + intros (w & Hw & Hkw). f_equal. destruct (decide (i < idx)).
      * rewrite list_lookup_delete_lt in Hw by lia.
        assert (j = i) by (by eapply (idx_wf_unique l m j i v w)). lia.
      * rewrite list_lookup_delete_ge in Hw by lia.
        assert (j = S i) by (by eapply (idx_wf_unique l m j (S i) v w)). lia.
  - assert (forall j v, S idx <= j -> l !! j = Some v -> key v ≠ k') as Hno.
    { intros j v Hj Hv Hkv. apply Hnex, Exists_exists. exists v. split; [|done].
      apply list_elem_of_lookup. exists (j - S idx). rewrite lookup_drop.
      by replace (S idx + (j - S idx)) with j by lia. }
    rewrite Hout by done.
    apply (idx_wf_lookup _ _ _ _ Hwf) in Hk as Hk'. destruct Hk' as (u & Hu & Hku).
    split.
    + rewrite lookup_delete_Some. intros [Hne Hi].
      apply (idx_wf_lookup _ _ _ _ Hwf) in Hi as (w & Hw & Hkw). exists w. split; [|done].
      destruct (decide (i < idx)) as [|Hge]; [by rewrite list_lookup_delete_lt by lia|].
      exfalso. destruct (decide (i = idx)) as [->|]; [congruence|].
      apply (Hno i w); auto with lia.
    + intros (w & Hw & Hkw). destruct (decide (i < idx)) as [Hi|Hge].
      * rewrite list_lookup_delete_lt in Hw by lia. apply lookup_delete_Some. split.
        -- intros ->. assert (i = idx) by (eapply (idx_wf_unique l m); eauto; congruence). lia.
        -- apply Hwf; eauto.
      * rewrite list_lookup_delete_ge in Hw by lia. exfalso. apply (Hno (S i) w); auto with lia.
Qed.

Lemma remove_shift_find k idx l m k' :
  idx_wf l m -> m !! k = Some idx ->
  idx_find (remove_shift k idx l m).1 (remove_shift k idx l m).2 k'
  = if decide (k = k') then None else idx_find l m k'.
Proof.
  intros Hwf Hk. pose proof (remove_shift_wf _ _ _ _ Hwf Hk) as Hwf'.
  pose proof (idx_wf_lt _ _ _ _ Hwf Hk) as Hlt.
  apply (idx_wf_lookup _ _ _ _ Hwf) in Hk as (u & Hu & Hku).
  apply option_eq. intros v. rewrite (idx_find_elem _ _ _ _ Hwf').
  rewrite (remove_shift_list _ _ _ _ Hlt).
  assert (v ∈ delete idx l -> v ∈ l /\ key v ≠ k) as Hdel.
  { intros (i & Hi)%list_elem_of_lookup.
    destruct (decide (i < idx)).
    - rewrite list_lookup_delete_lt in Hi by lia. split; [by eapply list_elem_of_lookup_2|].
      intros Hkv. assert (i = idx) by (eapply (idx_wf_unique l m); eauto; congruence). lia.
    - rewrite list_lookup_delete_ge in Hi by lia. split; [by eapply list_elem_of_lookup_2|].
      intros Hkv. assert (S i = idx) by (eapply (idx_wf_unique l m); eauto; congruence). lia. }
  case_decide as Hkk.
  - subst k'. split; [|done]. intros [Hv Hkv]. by apply Hdel in Hv as [_ ?].
  - rewrite (idx_find_elem _ _ _ _ Hwf). split; [intros [Hv ?]; by apply Hdel in Hv as [? _]|].
    clear Hdel. intros [Hv Hkv]. split; [|done].
    apply list_elem_of_lookup in Hv as (i & Hi). apply list_elem_of_lookup.
    destruct (decide (i < idx)); [exists i; by rewrite list_lookup_delete_lt by lia|].
    destruct (decide (i = idx)) as [->|]; [congruence|].
    exists (i - 1). rewrite list_lookup_delete_ge by lia. by replace (S (i - 1)) with i by lia.
Qed.

End IndexedSlice.

(** *** [sort.Search]

    <<
      i, j := 0, n
      for i < j { h := int(uint(i+j) >> 1); if !f(h) { i = h + 1 } else { j = h } }
      return i
    >>
    The distance [j - i] shrinks in every round, so [n] rounds are enough. *)
Fixpoint search_loop (fuel : nat) (f : nat -> bool) (i j : nat) : nat :=
  match fuel with
  | O => i
  | S fuel' =>
      if i <? j then
        let h := Nat.div2 (i + j) in
        if f h then search_loop fuel' f i h else search_loop fuel' f (S h) j
      else i
  end.
Definition sort_Search (n : nat) (f : nat -> bool) : nat := search_loop n f 0 n.

Lemma search_loop_spec f : (forall a b, a <= b -> f a = true -> f b = true) ->
  forall fuel i j, i <= j -> j - i <= fuel ->
  (forall a, a < i -> f a = false) -> (forall a, j <= a -> f a = true \/ a = j) ->
  let r := search_loop fuel f i j in
  i <= r <= j /\ (forall a, a < r -> f a = false) /\ (r < j -> f r = true).
Proof.
  intros Hmono. induction fuel as [|fuel IH]; intros i j Hij Hf Hlo Hhi; cbn [search_loop].
  - split_and!; auto with lia.
  - destruct (Nat.ltb_spec i j) as [Hlt|Hge]; [|split_and!; auto with lia].
    pose proof (Nat.div2_div (i + j)) as Hd.
    assert (i <= Nat.div2 (i + j) < j) as Hh.
    { rewrite Hd. pose proof (Nat.div_mod_eq (i + j) 2).
      pose proof (Nat.mod_upper_bound (i + j) 2). lia. }
    destruct (f (Nat.div2 (i + j))) eqn:E.
    + destruct (IH i (Nat.div2 (i + j))) as (H1 & H2 & H3); try lia; [done| |].
      { intros a Ha. left. by eapply Hmono. }
      split_and!; [lia|lia|done|]. intros Hr.
      destruct (decide (search_loop fuel f i (Nat.div2 (i + j)) < Nat.div2 (i + j))); [auto|].
      by replace (search_loop fuel f i (Nat.div2 (i + j))) with (Nat.div2 (i + j)) by lia.
    + destruct (IH (S (Nat.div2 (i + j))) j) as (H1 & H2 & H3); try lia; [|done|].
      { intros a Ha. destruct (f a) eqn:Ea; [|done].
        rewrite (Hmono a (Nat.div2 (i + j))) in E; [done|lia|done]. }
      split_and!; [lia|lia|done|done].
Qed.

(** [sort.Search] finds the first index at which a monotone predicate holds. *)
Lemma sort_Search_first n f r :
  (forall a b, a <= b -> f a = true -> f b = true) ->
  r < n -> f r = true -> (forall a, a < r -> f a = false) -> sort_Search n f = r.
Proof.
  intros Hmono Hr Hfr Hbefore. unfold sort_Search.
  destruct (search_loop_spec f Hmono n 0 n) as (H1 & H2 & H3); try lia.
  { intros a Ha. left. eapply Hmono; [|exact Hfr]. lia. }
  destruct (decide (search_loop n f 0 n < r)) as [Hl|Hl].
  - rewrite Hbefore in H3 by done. exfalso. discriminate H3. lia.
  - destruct (decide (r < search_loop n f 0 n)) as [Hg|Hg]; [|lia].
    rewrite H2 in Hfr by done. discriminate.
Qed.
