(* ===== verification/Interfaces.v ===== *)
(** What the code relies on from the Cosmos SDK and go-ethereum.

    Stores, coins, account keeper and hash function are third-party code.
    They are parameters here: a class of operations, and a class of the
    documented laws the theorems use.  The concrete instances at the end
    (finite maps) show that every law can hold and let examples run. *)
From S2P Require Import Prelude.
From stdpp Require Import sorting.

(** ** Addresses and hashes

    [common.Address] is a 20-byte and [common.Hash] a 32-byte array; both
    are represented by their big-endian value.  [sdk.AccAddress(addr.Bytes())]
    is the same 20 bytes. *)
Abbreviation Address := N.
Abbreviation Hash := N.

Definition address_ok (a : Address) : Prop := (a < 2 ^ 160)%N.
Definition hash_ok (h : Hash) : Prop := (h < 2 ^ 256)%N.

Definition Address_Bytes (a : Address) : bytes := be_bytes 20 (Z.of_N a).
Definition Hash_Bytes (h : Hash) : bytes := be_bytes 32 (Z.of_N h).
(** [common.BytesToHash] keeps the last 32 bytes and pads on the left. *)
Definition BytesToHash (b : bytes) : Hash := Z.to_N (be_value b mod 2 ^ 256).
Definition BytesToAddress (b : bytes) : Address := Z.to_N (be_value b mod 2 ^ 160).

Lemma length_Address_Bytes a : length (Address_Bytes a) = 20.
Proof. apply length_be_bytes. Qed.
Lemma length_Hash_Bytes h : length (Hash_Bytes h) = 32.
Proof. apply length_be_bytes. Qed.

Lemma Address_Bytes_inj a b :
  address_ok a -> address_ok b -> Address_Bytes a = Address_Bytes b -> a = b.
Proof.
  unfold address_ok, Address_Bytes. intros Ha Hb Heq.
  apply be_bytes_inj in Heq; [lia| |];
    change (256 ^ Z.of_nat 20)%Z with (Z.of_N (2 ^ 160)); lia.
Qed.
Lemma Hash_Bytes_inj a b : hash_ok a -> hash_ok b -> Hash_Bytes a = Hash_Bytes b -> a = b.
Proof.
  unfold hash_ok, Hash_Bytes. intros Ha Hb Heq.
  apply be_bytes_inj in Heq; [lia| |];
    change (256 ^ Z.of_nat 32)%Z with (Z.of_N (2 ^ 256)); lia.
Qed.

Lemma BytesToHash_ok b : hash_ok (BytesToHash b).
Proof.
  unfold hash_ok, BytesToHash. pose proof (Z.mod_pos_bound (be_value b) (2 ^ 256) ltac:(lia)).
  change (2 ^ 256)%N with (Z.to_N (2 ^ 256)). lia.
Qed.

Lemma BytesToHash_Bytes h : hash_ok h -> BytesToHash (Hash_Bytes h) = h.
Proof.
  unfold hash_ok, BytesToHash, Hash_Bytes. intros Hh. rewrite be_value_be_bytes.
  change (256 ^ Z.of_nat 32)%Z with (2 ^ 256)%Z. rewrite Z.mod_mod by lia.
  rewrite Z.mod_small; [lia|]. change (2 ^ 256)%N with (Z.to_N (2 ^ 256)) in Hh. lia.
Qed.

Lemma Hash_Bytes_BytesToHash b : length b = 32 -> Hash_Bytes (BytesToHash b) = b.
Proof.
  intros Hl. unfold Hash_Bytes, BytesToHash.
  pose proof (be_value_range b) as Hr. rewrite Hl in Hr.
  change (256 ^ Z.of_nat 32)%Z with (2 ^ 256)%Z in Hr.
  rewrite Z.mod_small by lia. rewrite Z2N.id by lia. by apply be_bytes_be_value.
Qed.

(** ** Keccak-256 (go-ethereum/crypto) *)
Class Keccak := keccak256 : bytes -> bytes.
Class KeccakLaws `{Keccak} := length_keccak256 b : length (keccak256 b) = 32.
Definition Keccak256Hash `{Keccak} (b : bytes) : Hash := BytesToHash (keccak256 b).

(** ** sdk.KVStore *)
Class KVStore (St : Type) := {
  kv_get : St -> bytes -> option bytes;
  kv_set : St -> bytes -> bytes -> St;
  kv_delete : St -> bytes -> St;
  (** [sdk.KVStorePrefixIterator]: the entries under a prefix, ascending. *)
  kv_iterator : St -> bytes -> list (bytes * bytes);
}.
Definition kv_has `{KVStore St} (s : St) (k : bytes) : bool :=
  match kv_get s k with Some _ => true | None => false end.

Class KVStoreLaws (St : Type) `{KVStore St} := {
  kv_get_set s k v k' :
    kv_get (kv_set s k v) k' = if decide (k = k') then Some v else kv_get s k';
  kv_get_delete s k k' :
    kv_get (kv_delete s k) k' = if decide (k = k') then None else kv_get s k';
  kv_iterator_spec s p k v :
    (k, v) ∈ kv_iterator s p <-> p `prefix_of` k /\ kv_get s k = Some v;
  kv_iterator_sorted s p :
    StronglySorted (fun a b => bytes_lt a b = true) (kv_iterator s p).*1;
}.

(** Two stores with the same content. *)
Definition kv_equiv `{KVStore St} (s1 s2 : St) : Prop :=
  forall k, kv_get s1 k = kv_get s2 k.

(** ** sdk.Dec and sdk.Coins

    An [sdk.Dec] is represented by its mantissa, the number [Dec.BigInt()]
    returns (18 decimals): [NewDecFromBigIntWithPrec(x, sdk.Precision)] and
    [BigInt] are the identity on it, [Add], [Sub], [Neg] and the
    comparisons are those of [Z].  The rounding operations are parameters
    of the components that use them. *)
Abbreviation Dec := Z.
Abbreviation Denom := string.
(** [sdk.DefaultBondDenom], the native denomination of the chain. *)
Class SdkConfig := DefaultBondDenom : Denom.

(** A value of [C] is a valid [sdk.Coins] set (sorted, no negative amount). *)
Class SdkCoins (C : Type) := {
  coins_empty : C;
  AmountOf : C -> Denom -> Dec;
  (** [coins.Add(sdk.NewCoin(d, x))] *)
  coins_add : C -> Denom -> Dec -> C;
  (** [coins.Sub(sdk.NewCoins(sdk.NewCoin(d, x)))]; [None] is its panic *)
  coins_sub : C -> Denom -> Dec -> option C;
}.
Class SdkCoinsLaws (C : Type) `{SdkCoins C} := {
  AmountOf_empty d : AmountOf coins_empty d = 0%Z;
  AmountOf_nonneg c d : (0 <= AmountOf c d)%Z;
  AmountOf_add c d x d' : (0 <= x)%Z ->
    AmountOf (coins_add c d x) d' = if decide (d = d') then (AmountOf c d + x)%Z else AmountOf c d';
  coins_sub_Some c d x : (0 <= x <= AmountOf c d)%Z -> exists c',
    coins_sub c d x = Some c' /\
    forall d', AmountOf c' d' = if decide (d = d') then (AmountOf c d - x)%Z else AmountOf c d';
  coins_sub_None c d x : (AmountOf c d < x)%Z -> coins_sub c d x = None;
}.

(** ** The account type of app/types/account.go and the account keeper

    [EthAccount] embeds [auth.BaseAccount]; a nil [CodeHash] is [None]. *)
Record EthAccount {C : Type} := mkEthAccount {
  acc_Address : Address;
  acc_Coins : C;
  acc_PubKey : option bytes;
  acc_AccountNumber : Z;
  acc_Sequence : Z;
  acc_CodeHash : option bytes;
}.
Arguments EthAccount C : clear implicits.
#[export] Instance EthAccount_eta C : Eta (EthAccount C) := fun r =>
  mkEthAccount C (acc_Address r) (acc_Coins r) (acc_PubKey r) (acc_AccountNumber r)
    (acc_Sequence r) (acc_CodeHash r).

(** An [exported.Account]: an [*EthAccount] or another implementation. *)
Inductive Account (C : Type) :=
  | AEth (acc : EthAccount C)
  | AOther (addr : Address).
Arguments AEth {C} acc.
Arguments AOther {C} addr.

Class AccountKeeper (AK C : Type) := {
  GetAccount : AK -> Address -> option (Account C);
  SetAccount : AK -> EthAccount C -> AK;
  RemoveAccount : AK -> EthAccount C -> AK;
  NewAccountWithAddress : AK -> Address -> EthAccount C * AK;
}.
Class AccountKeeperLaws (AK C : Type) `{AccountKeeper AK C, SdkCoins C, Keccak} := {
  GetAccount_address ak a acc : GetAccount ak a = Some (AEth acc) -> acc_Address acc = a;
  GetAccount_Set ak acc a :
    GetAccount (SetAccount ak acc) a
    = if decide (acc_Address acc = a) then Some (AEth acc) else GetAccount ak a;
  GetAccount_Remove ak acc a :
    GetAccount (RemoveAccount ak acc) a
    = if decide (acc_Address acc = a) then None else GetAccount ak a;
  (** The keeper builds the account from [ProtoAccount] (account.go:40) and
      takes the next account number. *)
  NewAccount_spec ak a :
    let acc := (NewAccountWithAddress ak a).1 in
    acc_Address acc = a /\ acc_Sequence acc = 0%Z /\
    acc_CodeHash acc = Some (keccak256 []) /\ (forall d, AmountOf (acc_Coins acc) d = 0%Z);
  GetAccount_New ak a b : GetAccount (NewAccountWithAddress ak a).2 b = GetAccount ak b;
}.
Definition ak_equiv `{AccountKeeper AK C} (k1 k2 : AK) : Prop :=
  forall a, GetAccount k1 a = GetAccount k2 a.

(** ** Concrete instances

    Finite maps for the store, coins and the account keeper. *)
Module MapInstances.

Definition bytes_leb (a b : bytes * bytes) : Prop := bytes_lt b.1 a.1 = false.
#[export] Instance bytes_leb_dec : RelDecision bytes_leb.
Proof. intros a b. unfold bytes_leb. apply _. Defined.

Lemma bytes_lt_irrefl a : bytes_lt a a = false.
Proof. induction a as [|x a IH]; simpl; [done|]. by rewrite Z.ltb_irrefl, Z.eqb_refl, IH. Qed.

Lemma bytes_lt_trichotomy a b : bytes_lt a b = false -> bytes_lt b a = false -> a = b.
Proof.
  revert b; induction a as [|x a IH]; intros [|y b]; simpl; try done.
  rewrite !Bool.orb_false_iff, !Z.ltb_ge, !Bool.andb_false_iff, !Z.eqb_neq.
  intros [H1 H2] [H3 H4]. assert (Z_of_byte x = Z_of_byte y) as Hxy by lia.
  destruct H2; [lia|]. destruct H4; [lia|].
  f_equal; [by apply Z_of_byte_inj | by apply IH].
Qed.

Lemma bytes_lt_trans a b c : bytes_lt a b = true -> bytes_lt b c = true -> bytes_lt a c = true.
Proof.
  revert b c; induction a as [|x a IH]; intros [|y b] [|z c]; simpl; try done.
  rewrite !Bool.orb_true_iff, !Z.ltb_lt, !Bool.andb_true_iff, !Z.eqb_eq.
  intros [?|[? ?]] [?|[? ?]]; [left; lia..|]. right. split; [lia | eauto].
Qed.

#[export] Instance bytes_leb_total : Total bytes_leb.
Proof.
  intros a b. unfold bytes_leb. destruct (bytes_lt b.1 a.1) eqn:E1; [|by left].
  right. destruct (bytes_lt a.1 b.1) eqn:E2; [|done].
  pose proof (bytes_lt_trans _ _ _ E1 E2) as Ht. by rewrite bytes_lt_irrefl in Ht.
Qed.
#[export] Instance bytes_leb_trans : Transitive bytes_leb.
Proof.
  intros a b c. unfold bytes_leb. intros H1 H2. destruct (bytes_lt c.1 a.1) eqn:E; [|done].
  destruct (bytes_lt a.1 b.1) eqn:E'; [by rewrite (bytes_lt_trans _ _ _ E E') in H2|].
  pose proof (bytes_lt_trichotomy _ _ E' H1) as Heq. congruence.
Qed.

Abbreviation store := (gmap (list byte) (list byte)).

Definition store_iterator (s : store) (p : bytes) : list (bytes * bytes) :=
  merge_sort bytes_leb (filter (fun kv => p `prefix_of` kv.1) (map_to_list s)).

#[export] Instance map_KVStore : KVStore store := {|
  kv_get s k := s !! k;
  kv_set s k v := <[k := v]> s;
  kv_delete s k := delete k s;
  kv_iterator := store_iterator;
|}.

#[local] Lemma sorted_strict (l : list (bytes * bytes)) :
  StronglySorted bytes_leb l -> NoDup l.*1 ->
  StronglySorted (fun a b => bytes_lt a b = true) l.*1.
Proof.
  induction l as [|[k v] l IH]; simpl; [constructor|].
  intros Hs Hnd. apply StronglySorted_inv in Hs as [Hs Hall].
  apply NoDup_cons in Hnd as [Hnin Hnd]. constructor; [auto|].
  apply Forall_forall. intros k' Hk'.
  apply list_elem_of_fmap in Hk' as ([k2 v2] & -> & Hin).
  rewrite Forall_forall in Hall. specialize (Hall (k2, v2) Hin). unfold bytes_leb in Hall. simpl in *.
  destruct (bytes_lt k k2) eqn:E; [done|]. exfalso. apply Hnin.
  rewrite (bytes_lt_trichotomy k k2) by done. apply list_elem_of_fmap. by exists (k2, v2).
Qed.

#[export] Instance map_KVStoreLaws : KVStoreLaws store.
Proof.
  split; simpl; intros.
  - apply lookup_insert.
  - apply lookup_delete.
  - unfold store_iterator. rewrite merge_sort_Permutation, list_elem_of_filter.
    by rewrite elem_of_map_to_list.
  - apply sorted_strict; [apply StronglySorted_merge_sort; apply _|].
    unfold store_iterator. rewrite merge_sort_Permutation.
    apply (sublist_NoDup _ _ (NoDup_fst_map_to_list s)). apply fmap_sublist, sublist_filter.
Qed.

(** Coins: the strictly positive amounts by denomination. *)
Abbreviation coins := (gmap string positive).
Definition coins_amount (c : coins) (d : string) : Z :=
  match c !! d with Some p => Zpos p | None => 0%Z end.
Definition coins_put (c : coins) (d : string) (x : Z) : coins :=
  match x with Zpos p => <[d := p]> c | _ => delete d c end.

#[export] Instance map_SdkCoins : SdkCoins coins := {|
  coins_empty := ∅;
  AmountOf := coins_amount;
  coins_add c d x := coins_put c d (coins_amount c d + x);
  coins_sub c d x :=
    if (x <=? coins_amount c d)%Z then Some (coins_put c d (coins_amount c d - x)) else None;
|}.

Lemma coins_amount_put c d x d' : (0 <= x)%Z ->
  coins_amount (coins_put c d x) d' = if decide (d = d') then x else coins_amount c d'.
Proof.
  intros Hx. unfold coins_amount, coins_put. destruct x; [| |lia].
  - rewrite lookup_delete. by case_decide.
  - rewrite lookup_insert. by case_decide.
Qed.

#[export] Instance map_SdkCoinsLaws : SdkCoinsLaws coins.
Proof.
  assert (forall c d, (0 <= coins_amount c d)%Z) as Hnn
    by (intros c d; unfold coins_amount; destruct (c !! d); lia).
  split; simpl; intros.
  - done.
  - apply Hnn.
  - specialize (Hnn c d). by rewrite coins_amount_put by lia.
  - rewrite (proj2 (Z.leb_le _ _)) by lia. eexists. split; [done|].
    intros d'. by rewrite coins_amount_put by lia.
  - by rewrite (proj2 (Z.leb_gt _ _)) by lia.
Qed.

(** The account keeper: accounts by address and the next account number. *)
Record akeeper := mkAkeeper {
  ak_accounts : gmap Address (Account coins);
  ak_next : Z;
}.

Section Keeper.
Context `{Keccak}.

Definition ak_get (k : akeeper) (a : Address) : option (Account coins) :=
  match ak_accounts k !! a with
  | Some (AEth acc) => Some (AEth (acc <| acc_Address := a |>))
  | o => o
  end.

#[export] Instance map_AccountKeeper : AccountKeeper akeeper coins := {|
  GetAccount := ak_get;
  SetAccount k acc := mkAkeeper (<[acc_Address acc := AEth acc]> (ak_accounts k)) (ak_next k);
  RemoveAccount k acc := mkAkeeper (delete (acc_Address acc) (ak_accounts k)) (ak_next k);
  NewAccountWithAddress k a :=
    (mkEthAccount _ a ∅ None (ak_next k) 0 (Some (keccak256 [])),
     mkAkeeper (ak_accounts k) (ak_next k + 1));
|}.

#[export] Instance map_AccountKeeperLaws : AccountKeeperLaws akeeper coins.
Proof.
  split; simpl; unfold ak_get; simpl; intros.
  - repeat case_match; simplify_eq. done.
  - rewrite lookup_insert. case_decide as Hd; [|done]. subst. by destruct acc.
  - rewrite lookup_delete. by case_decide.
  - done.
  - done.
Qed.
End Keeper.

(** Any 32-byte-valued function is a hash as far as the laws go; the
    examples use one that keeps the last 32 bytes. *)
#[export] Instance fax_SdkConfig : SdkConfig := "fax".
#[export] Instance tail_Keccak : Keccak := fun b => Hash_Bytes (BytesToHash (x00 :: b)).
#[export] Instance tail_KeccakLaws : KeccakLaws.
Proof. intros b. apply length_Hash_Bytes. Qed.

End MapInstances.
