(* ===== verification/GoStrings.v ===== *)
(** What the code uses of Go's [strings], [regexp] and [fmt], on ASCII text. *)
From S2P Require Import Prelude.
From Stdlib Require Import Ascii.
Local Open Scope Z_scope.

Definition ascii_between (lo hi : ascii) (c : ascii) : bool := (nat_of_ascii lo <=? nat_of_ascii c)%nat && (nat_of_ascii c <=? nat_of_ascii hi)%nat.
Definition is_lower_letter : ascii -> bool := ascii_between "a" "z".
Definition is_upper_letter : ascii -> bool := ascii_between "A" "Z".
Definition is_decimal_digit : ascii -> bool := ascii_between "0" "9".
(** [\t\n\v\f\r ] *)
Definition is_space (c : ascii) : bool := ascii_between "009" "013" c || (nat_of_ascii c =? 32)%nat.
Fixpoint string_forallb (f : ascii -> bool) (s : string) : bool :=
  match s with EmptyString => true | String c s' => f c && string_forallb f s' end.
Fixpoint string_map (f : ascii -> ascii) (s : string) : string :=
  match s with EmptyString => EmptyString | String c s' => String (f c) (string_map f s') end.
Definition lower_ascii (c : ascii) : ascii := if is_upper_letter c then ascii_of_nat (nat_of_ascii c + 32) else c.
(** [strings.ToLower] on ASCII text. *)
Definition ToLower : string -> string := string_map lower_ascii.
Definition hex_digit (n : Z) : ascii := ascii_of_nat (Z.to_nat (if n <? 10 then 48 + n else 87 + n)).
(** [fmt.Sprintf] with [%x]. *)
Fixpoint hex_string (b : bytes) : string :=
  match b with
  | [] => EmptyString
  | x :: b' => String (hex_digit (Z_of_byte x / 16)) (String (hex_digit (Z_of_byte x mod 16)) (hex_string b'))
  end.

(** [len(strings.TrimSpace(s)) == 0] *)
Definition is_blank : string -> bool := string_forallb is_space.

(** ** strconv and the verb [%d], on 64-bit integers *)

Definition digit_value (c : ascii) : Z := Z.of_nat (nat_of_ascii c) - 48.
Definition digit_ascii (n : Z) : ascii := ascii_of_nat (Z.to_nat (48 + n)).
(** The value of digits after [acc]; [None] on another character. *)
Fixpoint digits_value (acc : Z) (s : string) : option Z :=
  match s with
  | EmptyString => Some acc
  | String c s' => if is_decimal_digit c then digits_value (acc * 10 + digit_value c) s' else None
  end.
(** [strconv.ParseInt(s, 10, 64)], and [strconv.Atoi]; [None] is an error. *)
Definition ParseInt (s : string) : option Z :=
  let '(neg, digits) := match s with
    | EmptyString => (false, s)
    | String c rest => if Ascii.eqb c "-" then (true, rest) else if Ascii.eqb c "+" then (false, rest) else (false, s)
    end in
  match digits with
  | EmptyString => None
  | _ => v ← digits_value 0 digits;
         if neg then (if 2 ^ 63 <? v then None else Some (- v)) else (if 2 ^ 63 <=? v then None else Some v)
  end.
Definition Atoi : string -> option Z := ParseInt.

Fixpoint format_digits (fuel : nat) (n : Z) (acc : string) : string :=
  match fuel with
  | O => acc
  | S f => let acc := String (digit_ascii (n mod 10)) acc in if n <? 10 then acc else format_digits f (n / 10) acc
  end.
(** 20 digits are enough for 64 bits. *)
Definition FormatInt (n : Z) : string := if n <? 0 then String "-" (format_digits 20 (- n) "") else format_digits 20 n "".

Lemma digit_ascii_spec n : 0 <= n < 10 -> is_decimal_digit (digit_ascii n) = true /\ digit_value (digit_ascii n) = n.
Proof.
  intros Hn. assert (Forall (fun k => is_decimal_digit (digit_ascii (Z.of_nat k)) = true /\ digit_value (digit_ascii (Z.of_nat k)) = Z.of_nat k) (seq 0 10)) as Hall
    by (by repeat constructor).
  rewrite Forall_forall in Hall. rewrite <- (Z2Nat.id n) by lia. apply Hall, elem_of_seq. lia.
Qed.
Lemma format_digits_value f : forall n acc, 0 <= n < 10 ^ Z.of_nat f -> (0 < f)%nat ->
  exists c s (k : nat), format_digits f n acc = String c s /\ is_decimal_digit c = true /\
    forall a, digits_value a (String c s) = digits_value (a * 10 ^ Z.of_nat k + n) acc.
Proof.
  induction f as [|f IH]; intros n acc Hn Hf; [lia|]. cbn [format_digits].
  destruct (digit_ascii_spec (n mod 10)) as [Hd Hv]; [by apply Z.mod_pos_bound|].
  assert (forall a, digits_value a (String (digit_ascii (n mod 10)) acc) = digits_value (a * 10 + n mod 10) acc) as Hone.
  { intros a. cbn [digits_value]. by rewrite Hd, Hv. }
  destruct (Z.ltb_spec n 10) as [Hlt|Hge].
  - exists (digit_ascii (n mod 10)), acc, 1%nat. split_and!; [done..|]. intros a. rewrite Hone, Z.mod_small by lia. f_equal.
  - rewrite Nat2Z.inj_succ, Z.pow_succ_r in Hn by lia. destruct f as [|f]; [cbn in Hn; lia|].
    destruct (IH (n / 10) (String (digit_ascii (n mod 10)) acc)) as (c & s & k & Hs & Hc & Hk); [|lia|].
    { split; [apply Z.div_pos; lia|apply Z.div_lt_upper_bound; lia]. }
    exists c, s, (S k). split_and!; [done..|]. intros a. rewrite Hk, Hone. f_equal.
    rewrite Nat2Z.inj_succ, Z.pow_succ_r by lia. pose proof (Z.div_mod n 10 ltac:(lia)). lia.
Qed.

(** Reading what was printed. *)
Lemma ParseInt_FormatInt n : - 2 ^ 63 <= n < 2 ^ 63 -> ParseInt (FormatInt n) = Some n.
Proof.
  intros Hn. assert (2 ^ 63 < 10 ^ Z.of_nat 20) as Hfuel by done. unfold FormatInt. destruct (Z.ltb_spec n 0) as [Hlt|Hge].
  - destruct (format_digits_value 20 (- n) EmptyString) as (c & s & k & -> & Hc & Hk); [lia|lia|]. cbn [ParseInt].
    unfold ParseInt. change (Ascii.eqb "-" "-") with true. cbv iota beta. rewrite Hk, Z.mul_0_l, Z.add_0_l. cbn [digits_value mbind option_bind].
    destruct (Z.ltb_spec (2 ^ 63) (- n)); [lia|]. f_equal. lia.
  - destruct (format_digits_value 20 n EmptyString) as (c & s & k & -> & Hc & Hk); [lia|lia|]. unfold ParseInt.
    destruct (Ascii.eqb_spec c "-") as [->|_]; [done|]. destruct (Ascii.eqb_spec c "+") as [->|_]; [done|]. cbv iota beta.
    rewrite Hk, Z.mul_0_l, Z.add_0_l. cbn [digits_value mbind option_bind]. destruct (Z.leb_spec (2 ^ 63) n); [lia|done].
Qed.
