(* ===== verification/AccessList.v ===== *)
(** The per-transaction access list (evm/types/access_list.go).

    Addresses map to an index into a slice of slot sets, [-1] for an
    address without slots.  The file has the operations, the invariant
    they preserve, the abstract map (address to set of slots) they
    implement, and the fact the journal depends on: the deletions undo
    the additions exactly. *)
From S2P Require Import Prelude.
From S2P Require Import Interfaces.

Record accessList := mkAccessList {
  addresses : gmap Address Z;
  slots : list (gset Hash);
}.
#[export] Instance accessList_eta : Eta accessList := fun r =>
  mkAccessList (addresses r) (slots r).

Module AccessList.

Definition newAccessList : accessList := mkAccessList ∅ [].

Definition ContainsAddress (al : accessList) (address : Address) : bool :=
  bool_decide (is_Some (addresses al !! address)).

(** [al.slots[idx]]: an index of a Go slice is never negative. *)
Definition slot_at (al : accessList) (idx : Z) : option (gset Hash) :=
  if (0 <=? idx)%Z then slots al !! Z.to_nat idx else None.

Definition Contains (al : accessList) (address : Address) (slot : Hash) : res (bool * bool) :=
  match addresses al !! address with
  | None => Ret (false, false)
  | Some idx =>
      if (idx =? -1)%Z then Ret (true, false)
      else if (idx >=? Z.of_nat (length (slots al)))%Z then Ret (true, false)
      else slotmap ← index_or_panic (slot_at al idx);
           Ret (true, bool_decide (slot ∈ slotmap))
  end.

(** [Copy] rebuilds both the map and every slot set. *)
Definition Copy (al : accessList) : accessList :=
  mkAccessList (map_fold (fun k v cp => <[k := v]> cp) ∅ (addresses al))
               ((fun slotMap => set_fold (fun k acc => {[k]} ∪ acc) ∅ slotMap) <$> slots al).

Definition AddAddress (al : accessList) (address : Address) : bool * accessList :=
  match addresses al !! address with
  | Some _ => (false, al)
  | None => (true, al <| addresses := <[address := (-1)%Z]> (addresses al) |>)
  end.

Definition AddSlot (al : accessList) (address : Address) (slot : Hash) : res (bool * bool * accessList) :=
  let idx := default 0%Z (addresses al !! address) in
  let addrPresent := bool_decide (is_Some (addresses al !! address)) in
  if negb addrPresent || (idx =? -1)%Z then
    Ret (negb addrPresent, true,
         mkAccessList (<[address := Z.of_nat (length (slots al))]> (addresses al))
                      (slots al ++ [{[ slot ]}]))
  else if (idx >=? Z.of_nat (length (slots al)))%Z then Ret (false, false, al)
  else
    slotmap ← index_or_panic (slot_at al idx);
    if bool_decide (slot ∈ slotmap) then Ret (false, false, al)
    else Ret (false, true, al <| slots := <[Z.to_nat idx := {[ slot ]} ∪ slotmap]> (slots al) |>).

Definition DeleteSlot (al : accessList) (address : Address) (slot : Hash) : res accessList :=
  match addresses al !! address with
  | None => Panic (PanicMsg "reverting slot change, address not present in list")
  | Some idx =>
      slotmap ← index_or_panic (slot_at al idx);
      let slotmap' := slotmap ∖ {[ slot ]} in
      if bool_decide (slotmap' = ∅) then
        Ret (mkAccessList (<[address := (-1)%Z]> (addresses al)) (take (Z.to_nat idx) (slots al)))
      else Ret (al <| slots := <[Z.to_nat idx := slotmap']> (slots al) |>)
  end.

Definition DeleteAddress (al : accessList) (address : Address) : accessList :=
  al <| addresses := delete address (addresses al) |>.

(** ** Invariant *)

Record al_wf (al : accessList) : Prop := {
  al_index a i : addresses al !! a = Some i -> i = (-1)%Z \/ (0 <= i < Z.of_nat (length (slots al)))%Z;
  al_owner a b i : (0 <= i)%Z ->
    addresses al !! a = Some i -> addresses al !! b = Some i -> a = b;
  al_nonempty i m : slots al !! i = Some m -> m ≠ ∅;
}.

(** The abstract content: the slots recorded for an address. *)
Definition content (al : accessList) (a : Address) : option (gset Hash) :=
  idx ← addresses al !! a; Some (default ∅ (slot_at al idx)).

Lemma slot_at_Some al i m :
  slot_at al i = Some m <-> (0 <= i)%Z /\ slots al !! Z.to_nat i = Some m.
Proof.
  unfold slot_at. destruct (Z.leb_spec 0 i) as [Hle|Hlt]; split.
  - auto.
  - by intros [_ Hm].
  - done.
  - intros [Hle _]. lia.
Qed.

Lemma al_wf_slot al a i : al_wf al -> addresses al !! a = Some i -> i ≠ (-1)%Z ->
  exists m, slot_at al i = Some m /\ m ≠ ∅ /\ (0 <= i < Z.of_nat (length (slots al)))%Z.
Proof.
  intros Hwf Hi Hne. destruct (al_index al Hwf a i Hi) as [|Hr]; [done|].
  destruct (lookup_lt_is_Some_2 (slots al) (Z.to_nat i)) as [m Hm]; [lia|].
  exists m. rewrite slot_at_Some. split_and!; try done; try lia. by eapply al_nonempty.
Qed.

Lemma new_wf : al_wf newAccessList.
Proof. split; simpl; intros; by rewrite ?lookup_empty in *. Qed.

(** *** Reading *)
Lemma Contains_spec al a slot : al_wf al ->
  Contains al a slot
  = Ret (ContainsAddress al a,
         match content al a with Some m => bool_decide (slot ∈ m) | None => false end).
Proof.
  intros Hwf. unfold Contains, ContainsAddress, content.
  destruct (addresses al !! a) as [i|] eqn:Hi; simpl; [|done].
  destruct (Z.eqb_spec i (-1)) as [->|Hne]; [done|].
  destruct (al_wf_slot al a i Hwf Hi Hne) as (m & Hm & Hm0 & Hr).
  rewrite Z.geb_leb, (proj2 (Z.leb_gt _ _)) by lia. by rewrite Hm.
Qed.

(** *** Additions *)
Lemma AddAddress_spec al a : al_wf al ->
  let '(changed, al') := AddAddress al a in
  al_wf al' /\ changed = negb (ContainsAddress al a) /\
  (forall b, content al' b = if decide (a = b) then Some (default ∅ (content al a)) else content al b) /\
  (changed = true -> DeleteAddress al' a = al).
Proof.
  intros Hwf. unfold AddAddress, ContainsAddress.
  destruct (addresses al !! a) as [i|] eqn:Hi; cbn [fst snd].
  - rewrite (bool_decide_eq_true_2 (is_Some _)) by eauto. split_and!; [done|done| |done].
    intros b. case_decide as Hb; [|done]. subst b. unfold content. by rewrite Hi.
  - rewrite bool_decide_eq_false_2 by (intros [? ?]; congruence).
    split_and!; [|done| |].
    + destruct Hwf as [H1 H2 H3]. split; simpl; [| |done].
      * intros b j. rewrite lookup_insert. case_decide; [intros [= <-]; auto|apply H1].
      * intros b c j Hj. rewrite !lookup_insert. repeat case_decide; subst; try done;
          try (intros [= <-]; lia); try (intros ? [= <-]; lia). by apply H2.
    + intros b. unfold content, slot_at. simpl. rewrite lookup_insert.
      case_decide; [|done]. subst. by rewrite Hi.
    + intros _. unfold DeleteAddress. destruct al; simpl in *. f_equal.
      by apply delete_insert_id.
Qed.

(** *** [AddSlot] for an address that is present *)

(** A new slot set at the end of the slice, owned by [a]. *)
Definition push_slot (al : accessList) (a : Address) (slot : Hash) : accessList :=
  mkAccessList (<[a := Z.of_nat (length (slots al))]> (addresses al)) (slots al ++ [{[ slot ]}]).

Lemma push_slot_wf al a slot : al_wf al -> al_wf (push_slot al a slot).
Proof.
  intros [W1 W2 W3]. split; simpl.
  - intros b j. rewrite length_app, lookup_insert. simpl. case_decide.
    + intros [= <-]. right. lia.
    + intros Hj. destruct (W1 b j Hj); [by left|right; lia].
  - intros b c j Hj. rewrite !lookup_insert. repeat case_decide; subst; try done.
    + intros [= <-] Hc. destruct (W1 _ _ Hc); lia.
    + intros Hb [= <-]. destruct (W1 _ _ Hb); lia.
    + by apply W2.
  - intros j m Hm. apply lookup_app_Some in Hm as [Hm|[_ Hm]]; [by eapply W3|].
    apply list_lookup_singleton_Some in Hm as [_ <-]. set_solver.
Qed.

Lemma push_slot_content al a slot b : al_wf al ->
  content (push_slot al a slot) b = if decide (a = b) then Some {[ slot ]} else content al b.
Proof.
  intros [W1 _ _]. unfold content, slot_at. simpl. rewrite lookup_insert. case_decide.
  - simpl. rewrite (proj2 (Z.leb_le _ _)) by lia. rewrite Nat2Z.id.
    rewrite lookup_app_r by lia. by rewrite Nat.sub_diag.
  - destruct (addresses al !! b) as [j|] eqn:Hb; [|done]. simpl. f_equal.
    destruct (Z.leb_spec 0 j); [|done]. f_equal. apply lookup_app_l.
    destruct (W1 _ _ Hb); lia.
Qed.

Lemma push_slot_delete al a slot : addresses al !! a = Some (-1)%Z ->
  DeleteSlot (push_slot al a slot) a slot = Ret al.
Proof.
  intros Ha. unfold DeleteSlot, slot_at. simpl. rewrite lookup_insert_eq.
  rewrite (proj2 (Z.leb_le _ _)) by lia. rewrite Nat2Z.id.
  rewrite lookup_app_r by lia. rewrite Nat.sub_diag. simpl.
  rewrite bool_decide_eq_true_2 by set_solver. rewrite take_app_length, insert_insert_eq.
  rewrite insert_id by done. by destruct al.
Qed.

(** A slot added to an existing set. *)
Definition extend_slot (al : accessList) (i : Z) (m : gset Hash) (slot : Hash) : accessList :=
  al <| slots := <[Z.to_nat i := {[ slot ]} ∪ m]> (slots al) |>.

Lemma extend_slot_wf al i m slot : al_wf al -> al_wf (extend_slot al i m slot).
Proof.
  intros [W1 W2 W3]. split; simpl; [|done|].
  - intros b j. rewrite length_insert. apply W1.
  - intros j m'. rewrite list_lookup_insert_Some. intros [(<- & <- & _)|[_ Hj]]; [set_solver|eauto].
Qed.

Lemma extend_slot_content al a i m slot b : al_wf al -> addresses al !! a = Some i ->
  slot_at al i = Some m ->
  content (extend_slot al i m slot) b = if decide (a = b) then Some ({[ slot ]} ∪ m) else content al b.
Proof.
  intros Hwf Hi [Hi0 Hm]%slot_at_Some. unfold content, slot_at. simpl.
  destruct (addresses al !! b) as [j|] eqn:Hb; simpl; case_decide as Hab; subst; try done; try congruence.
  - assert (j = i) as -> by congruence. rewrite (proj2 (Z.leb_le _ _)) by lia.
    rewrite list_lookup_insert_eq by (by eapply lookup_lt_Some). done.
  - f_equal. destruct (Z.leb_spec 0 j); [|done].
    rewrite list_lookup_insert_ne; [done|]. intros Hij. apply Hab.
    eapply (al_owner al Hwf a b i); [lia|done|]. rewrite Hb. f_equal. lia.
Qed.

Lemma extend_slot_delete al a i m slot : addresses al !! a = Some i -> slot_at al i = Some m ->
  m ≠ ∅ -> slot ∉ m -> DeleteSlot (extend_slot al i m slot) a slot = Ret al.
Proof.
  intros Hi [Hi0 Hm]%slot_at_Some Hm0 Hnin. unfold DeleteSlot. simpl. rewrite Hi. unfold slot_at. simpl.
  rewrite (proj2 (Z.leb_le _ _)) by lia.
  rewrite list_lookup_insert_eq by (by eapply lookup_lt_Some). simpl.
  replace (({[slot]} ∪ m) ∖ {[slot]}) with m by set_solver.
  rewrite bool_decide_eq_false_2 by done. destruct al; cbn in *. repeat f_equal.
  rewrite list_insert_insert_eq. by apply list_insert_id.
Qed.

Lemma AddSlot_present al a slot : al_wf al -> ContainsAddress al a = true ->
  exists slotMod al', AddSlot al a slot = Ret (false, slotMod, al') /\ al_wf al' /\
  slotMod = negb (match content al a with Some m => bool_decide (slot ∈ m) | None => false end) /\
  (forall b, content al' b
     = if decide (a = b) then Some ({[ slot ]} ∪ default ∅ (content al a)) else content al b) /\
  (if slotMod then DeleteSlot al' a slot = Ret al else al' = al).
Proof.
  intros Hwf Hin. apply bool_decide_eq_true in Hin as [i Hi]. unfold AddSlot. rewrite Hi. simpl.
  destruct (Z.eqb_spec i (-1)) as [->|Hne]; simpl.
  { assert (content al a = Some ∅) as Hca by (unfold content; rewrite Hi; done).
    exists true, (push_slot al a slot). rewrite Hca. split_and!; [done|by apply push_slot_wf|done| |].
    - intros b. rewrite push_slot_content by done. simpl. by rewrite union_empty_r_L.
    - by apply push_slot_delete. }
  destruct (al_wf_slot al a i Hwf Hi Hne) as (m & Hm & Hm0 & Hr).
  assert (content al a = Some m) as Hca by (unfold content; rewrite Hi; simpl; by rewrite Hm).
  rewrite Z.geb_leb, (proj2 (Z.leb_gt _ _)) by lia. rewrite Hm, Hca. simpl.
  destruct (decide (slot ∈ m)) as [Hs|Hs]; [rewrite bool_decide_eq_true_2|rewrite bool_decide_eq_false_2]; try done.
  - exists false, al. split_and!; try done. intros b. case_decide; [|done]. subst b. rewrite Hca.
    f_equal. set_solver.
  - exists true, (extend_slot al i m slot). split_and!; [done|by apply extend_slot_wf|done| |].
    + intros b. by apply (extend_slot_content al a).
    + by apply extend_slot_delete.
Qed.

(** For an absent address it is [AddAddress] and [AddSlot] in one. *)
Lemma AddSlot_absent al a slot : ContainsAddress al a = false ->
  AddSlot al a slot = (fun '(_, slotMod, al') => (true, slotMod, al')) <$> AddSlot (AddAddress al a).2 a slot.
Proof.
  intros Hin. apply bool_decide_eq_false in Hin. apply eq_None_not_Some in Hin.
  unfold AddSlot, AddAddress. rewrite Hin. simpl. rewrite lookup_insert_eq. simpl.
  by rewrite insert_insert_eq.
Qed.

Lemma DeleteAddress_wf al a : al_wf al -> al_wf (DeleteAddress al a).
Proof.
  intros [H1 H2 H3]. split; simpl; [| |done].
  - intros b i. rewrite lookup_delete_Some. intros [_ Hb]. by eapply H1.
  - intros b c i Hi. rewrite !lookup_delete_Some. intros [_ Hb] [_ Hc]. by eapply H2.
Qed.

(** [Copy] yields an equal list. *)
Lemma Copy_eq al : Copy al = al.
Proof.
  destruct al as [ad sl]. unfold Copy. simpl. f_equal.
  - apply (map_fold_weak_ind (fun cp m => cp = m)); [done|]. by intros k v m cp _ ->.
  - transitivity (id <$> sl); [|apply list_fmap_id]. apply list_fmap_ext. intros _ m _.
    apply (set_fold_ind_L (fun acc X => acc = X)); [done|]. by intros x X acc _ ->.
Qed.

(** On a well-formed access list [AddSlot] does not panic, keeps the
    invariant, reports exactly what was missing, and afterwards the list
    contains what it contained before and the slot. *)
Theorem AddSlot_records al a slot : al_wf al ->
  exists addrMod slotMod al', AddSlot al a slot = Ret (addrMod, slotMod, al') /\ al_wf al' /\
  Contains al a slot = Ret (negb addrMod, negb slotMod) /\
  (forall b k, Contains al' b k
     = if decide (a = b /\ slot = k) then Ret (true, true)
       else if decide (a = b) then (fun '(_, p) => (true, p)) <$> Contains al b k
       else Contains al b k).
Proof.
  intros Hwf.
  assert (exists al0, al_wf al0 /\ ContainsAddress al0 a = true /\
    (forall b, content al0 b = if decide (a = b) then Some (default ∅ (content al a)) else content al b) /\
    AddSlot al a slot = (fun '(_, m, r) => (negb (ContainsAddress al a), m, r)) <$> AddSlot al0 a slot)
    as (al0 & Hwf0 & Hin0 & Hc0 & Heq).
  { destruct (ContainsAddress al a) eqn:Hin.
    - exists al. split_and!; try done.
      + intros b. case_decide; [subst b|done]. apply bool_decide_eq_true in Hin as [i Hi].
        unfold content. by rewrite Hi.
      + destruct (AddSlot_present al a slot Hwf Hin) as (m & r & -> & _). done.
    - exists (AddAddress al a).2. pose proof (AddAddress_spec al a Hwf) as Hs.
      pose proof (AddSlot_absent al a slot Hin) as Habs.
      destruct (AddAddress al a) as [ch al1]. destruct Hs as (Hw1 & _ & Hc1 & _).
      split_and!; try done. apply bool_decide_eq_true. specialize (Hc1 a).
      rewrite decide_True in Hc1 by done. unfold content in Hc1. simpl.
      by destruct (addresses al1 !! a). }
  destruct (AddSlot_present al0 a slot Hwf0 Hin0) as (m & r & Hadd & Hwr & Hm & Hcr & _).
  exists (negb (ContainsAddress al a)), m, r. rewrite Heq, Hadd.
  assert (forall b, ContainsAddress r b = if decide (a = b) then true else ContainsAddress al b) as Hca.
  { intros b. specialize (Hcr b). rewrite !Hc0 in Hcr. unfold ContainsAddress, content in *.
    destruct (decide (a = b));
      destruct (addresses r !! b), (addresses al !! b); simpl in *; simplify_eq; done. }
  split_and!; [done|done| |].
  - rewrite Contains_spec, Bool.negb_involutive by done. do 2 f_equal. rewrite Hm, Bool.negb_involutive.
    rewrite Hc0, decide_True by done. destruct (content al a); simpl; [done|].
    symmetry. apply bool_decide_eq_false. set_solver.
  - intros b k. rewrite !Contains_spec, Hca, Hcr, !Hc0 by done. rewrite (decide_True (P := a = a)) by done.
    destruct (decide (a = b)) as [<-|Hab]; [|rewrite decide_False by (by intros [? _]); done].
    simpl. destruct (decide (a = a /\ slot = k)) as [[_ <-]|Hk].
    + do 2 f_equal. apply bool_decide_eq_true. set_solver.
    + assert (slot ≠ k) by (by intros ->; apply Hk). do 2 f_equal.
      destruct (content al a); simpl; [apply bool_decide_ext|apply bool_decide_eq_false]; set_solver.
Qed.

End AccessList.
