(* ===== verification/Account.v ===== *)
(** EthAccount (app/types/account.go): balances of an account. *)
From S2P Require Import Prelude.
From S2P Require Import Interfaces.

Module Account.
Section Account.
Context {C : Type} `{SdkCoins C}.

Definition EthAddress (acc : EthAccount C) : Address := acc_Address acc.

Definition Balance (acc : EthAccount C) (denom : Denom) : Dec :=
  AmountOf (acc_Coins acc) denom.

(** The [default] branch returns without touching the account; the panic
    is the one of [Coins.Sub] when the result would be negative. *)
Definition SetBalance (acc : EthAccount C) (denom : Denom) (amt : Dec) : res (EthAccount C) :=
  let coins := acc_Coins acc in
  let diff := (amt - AmountOf coins denom)%Z in
  if (0 <? diff)%Z then
    Ret (acc <| acc_Coins := coins_add coins denom diff |>)
  else if (diff <? 0)%Z then
    match coins_sub coins denom (- diff) with
    | Some coins' => Ret (acc <| acc_Coins := coins' |>)
    | None => Panic (PanicMsg "negative coin amount")
    end
  else Ret acc.

Context `{!SdkCoinsLaws C}.

Lemma SetBalance_spec acc denom amt : (0 <= amt)%Z -> exists coins',
  SetBalance acc denom amt = Ret (acc <| acc_Coins := coins' |>) /\
  forall d, AmountOf coins' d = if decide (denom = d) then amt else AmountOf (acc_Coins acc) d.
Proof.
  intros Hamt. unfold SetBalance. pose proof (AmountOf_nonneg (acc_Coins acc) denom) as Hnn.
  destruct (Z.ltb_spec 0 (amt - AmountOf (acc_Coins acc) denom)) as [Hpos|Hnp].
  - eexists. split; [done|]. intros d. rewrite AmountOf_add by lia. case_decide; lia.
  - destruct (Z.ltb_spec (amt - AmountOf (acc_Coins acc) denom) 0) as [Hneg|Hz].
    + destruct (coins_sub_Some (acc_Coins acc) denom (- (amt - AmountOf (acc_Coins acc) denom)))
        as (c' & Hc' & Hd); [lia|]. rewrite Hc'. eexists. split; [done|].
      intros d. rewrite Hd. case_decide; lia.
    + exists (acc_Coins acc). split; [by destruct acc|]. intros d. case_decide; subst; lia.
Qed.

Lemma SetBalance_negative acc denom amt : (amt < 0)%Z ->
  SetBalance acc denom amt = Panic (PanicMsg "negative coin amount").
Proof.
  intros Hamt. unfold SetBalance. pose proof (AmountOf_nonneg (acc_Coins acc) denom) as Hnn.
  rewrite (proj2 (Z.ltb_ge _ _)) by lia. rewrite (proj2 (Z.ltb_lt _ _)) by lia.
  by rewrite coins_sub_None by lia.
Qed.

End Account.
End Account.
