(* ===== verification/StateObject.v ===== *)
(** State objects (evm/types/state_object.go, storage.go, key.go).

    A state object caches one account: the account itself, its code, the
    storage slots read so far ([originStorage]) and the slots written in
    the current transaction ([dirtyStorage]), each slice with its index
    map.  The methods that append to the journal are in StateDB.v. *)
From S2P Require Import Prelude.
From S2P Require Import GoSlices.
From S2P Require Import Interfaces.
From S2P Require Import Account.

Record State := NewState { State_Key : Hash; State_Value : Hash }.
#[export] Instance State_eq_dec : EqDecision State.
Proof. solve_decision. Defined.

(** Errors the state database remembers or returns. *)
Inductive dberror :=
  | ErrNoAccount (addr : Address)
  | ErrNoCode (addr : Address)
  | ErrInvalidBalance (amount : Dec)
  | ErrBlacklisted (addr : Address).

Record stateObject {C : Type} := mkStateObject {
  so_code : option bytes;
  originStorage : list State;
  dirtyStorage : list State;
  so_dbErr : option dberror;
  account : EthAccount C;
  keyToOriginStorageIndex : gmap Hash nat;
  keyToDirtyStorageIndex : gmap Hash nat;
  address : Address;
  dirtyCode : bool;
  suicided : bool;
  deleted : bool;
}.
Arguments stateObject C : clear implicits.
#[export] Instance stateObject_eta C : Eta (stateObject C) := fun r =>
  mkStateObject C (so_code r) (originStorage r) (dirtyStorage r) (so_dbErr r) (account r)
    (keyToOriginStorageIndex r) (keyToDirtyStorageIndex r) (address r) (dirtyCode r)
    (suicided r) (deleted r).

Definition KeyPrefixCode : bytes := [Byte.x04].
Definition KeyPrefixStorage : bytes := [Byte.x05].
Definition AddressStoragePrefix (a : Address) : bytes := KeyPrefixStorage ++ Address_Bytes a.

Module StateObject.
Section StateObject.
Context {St C : Type} `{KVStore St, SdkCoins C, Keccak, SdkConfig}.

Definition emptyCodeHash : bytes := keccak256 [].

Definition newStateObject (accProto : Account C) : res (stateObject C) :=
  match accProto with
  | AOther _ => Panic (PanicMsg "invalid account type for state object")
  | AEth acc =>
      let acc := match acc_CodeHash acc with
                 | None => acc <| acc_CodeHash := Some emptyCodeHash |>
                 | Some _ => acc
                 end in
      Ret (mkStateObject C None [] [] None acc ∅ ∅ (Account.EthAddress acc) false false false)
  end.

Definition GetStorageByAddressKey (so : stateObject C) (key : bytes) : Hash :=
  Keccak256Hash (Address_Bytes (address so) ++ key).

(** *** Unexported setters *)

(** [so.dirtyStorage[idx].Value = value] or a new entry. *)
Definition setState (so : stateObject C) (key value : Hash) : res (stateObject C) :=
  match keyToDirtyStorageIndex so !! key with
  | Some idx =>
      st ← index_or_panic (dirtyStorage so !! idx);
      Ret (so <| dirtyStorage := <[idx := NewState (State_Key st) value]> (dirtyStorage so) |>)
  | None =>
      let ds := dirtyStorage so ++ [NewState key value] in
      Ret (so <| dirtyStorage := ds |>
              <| keyToDirtyStorageIndex :=
                   <[key := length ds - 1]> (keyToDirtyStorageIndex so) |>)
  end.

Definition setCode (so : stateObject C) (codeHash : Hash) (code : option bytes) : stateObject C :=
  so <| so_code := code |>
     <| account := (account so) <| acc_CodeHash := Some (Hash_Bytes codeHash) |> |>
     <| dirtyCode := true |>.

Definition setBalance (so : stateObject C) (denom : Denom) (amount : Dec) : res (stateObject C) :=
  acc ← Account.SetBalance (account so) denom amount;
  Ret (so <| account := acc |>).

Definition setNonce (so : stateObject C) (nonce : Z) : stateObject C :=
  so <| account := (account so) <| acc_Sequence := nonce |> |>.

Definition so_setError (so : stateObject C) (err : dberror) : stateObject C :=
  match so_dbErr so with
  | None => so <| so_dbErr := Some err |>
  | Some _ => so
  end.

Definition markSuicided (so : stateObject C) : stateObject C := so <| suicided := true |>.

(** *** Getters *)

Definition so_Balance (so : stateObject C) : Z := Account.Balance (account so) DefaultBondDenom.
Definition Nonce (so : stateObject C) : Z := acc_Sequence (account so).

Definition CodeHash (so : stateObject C) : bytes :=
  match acc_CodeHash (account so) with
  | None | Some [] => emptyCodeHash
  | Some h => h
  end.

(** [len(b)] of a possibly nil slice. *)
Definition go_len (b : option bytes) : nat := length (default [] b).

(** The returned slice and the object, on which a missing code is recorded. *)
Definition Code (kv : St) (so : stateObject C) : option bytes * stateObject C :=
  if 0 <? go_len (so_code so) then (so_code so, so)
  else if bool_decide (CodeHash so = emptyCodeHash) then (None, so)
  else
    let code := kv_get kv (KeyPrefixCode ++ CodeHash so) in
    if go_len code =? 0 then (code, so_setError so (ErrNoCode (address so)))
    else (code, so).

(** The value of a prefixed key in the account's storage. *)
Definition storage_value (kv : St) (a : Address) (prefixKey : Hash) : Hash :=
  let rawValue := kv_get kv (AddressStoragePrefix a ++ Hash_Bytes prefixKey) in
  if 0 <? go_len rawValue then BytesToHash (default [] rawValue) else 0%N.

Definition GetCommittedState (kv : St) (so : stateObject C) (key : Hash) : res (Hash * stateObject C) :=
  let prefixKey := GetStorageByAddressKey so (Hash_Bytes key) in
  match keyToOriginStorageIndex so !! prefixKey with
  | Some idx =>
      st ← index_or_panic (originStorage so !! idx);
      Ret (State_Value st, so)
  | None =>
      let st := NewState prefixKey (storage_value kv (address so) prefixKey) in
      let os := originStorage so ++ [st] in
      Ret (State_Value st,
           so <| originStorage := os |>
              <| keyToOriginStorageIndex :=
                   <[prefixKey := length os - 1]> (keyToOriginStorageIndex so) |>)
  end.

Definition so_GetState (kv : St) (so : stateObject C) (key : Hash) : res (Hash * stateObject C) :=
  let prefixKey := GetStorageByAddressKey so (Hash_Bytes key) in
  match keyToDirtyStorageIndex so !! prefixKey with
  | Some idx =>
      st ← index_or_panic (dirtyStorage so !! idx);
      Ret (State_Value st, so)
  | None => GetCommittedState kv so key
  end.

(** EIP-158 emptiness; the code hash compared is the account's own field. *)
Definition so_empty (so : stateObject C) : bool :=
  (acc_Sequence (account so) =? 0)%Z
  && (Account.Balance (account so) DefaultBondDenom =? 0)%Z
  && bool_decide (default [] (acc_CodeHash (account so)) = emptyCodeHash).

(** *** Persistence *)

(** One round of the loop of [commitState]. *)
Definition commit_entry (kso : St * stateObject C) (state : State) : res (St * stateObject C) :=
  let '(kv, so) := kso in
  let k := AddressStoragePrefix (address so) ++ Hash_Bytes (State_Key state) in
  let kv := if (State_Value state =? 0)%N then kv_delete kv k else kv in
  let so := so <| keyToDirtyStorageIndex :=
                    delete (State_Key state) (keyToDirtyStorageIndex so) |> in
  match keyToOriginStorageIndex so !! State_Key state with
  | None => Ret (kv, so)
  | Some idx =>
      if (State_Value state =? 0)%N then
        Ret (kv, so <| keyToOriginStorageIndex :=
                         delete (State_Key state) (keyToOriginStorageIndex so) |>)
      else
        ost ← index_or_panic (originStorage so !! idx);
        if (State_Value state =? State_Value ost)%N then Ret (kv, so)
        else
          let so := so <| originStorage :=
                <[idx := NewState (State_Key ost) (State_Value state)]> (originStorage so) |> in
          Ret (kv_set kv k (Hash_Bytes (State_Value state)), so)
  end.

Fixpoint commit_loop (kso : St * stateObject C) (l : list State) : res (St * stateObject C) :=
  match l with
  | [] => Ret kso
  | state :: l' => kso ← commit_entry kso state; commit_loop kso l'
  end.

Definition commitState (kv : St) (so : stateObject C) : res (St * stateObject C) :=
  '(kv, so) ← commit_loop (kv, so) (dirtyStorage so);
  Ret (kv, so <| dirtyStorage := [] |>).

Definition commitCode (kv : St) (so : stateObject C) : St :=
  kv_set kv (KeyPrefixCode ++ CodeHash so) (default [] (so_code so)).

End StateObject.
End StateObject.
