(* ===== verification/StateObjectSpec.v ===== *)
(** State objects: invariant, observations and the effect of each method.

    [obj_wf] ties the storage slices of an object to their index maps and
    to the store.  [so_le] compares two objects by what a caller can
    observe; the right one may have more storage slots cached.  The
    lemmas give every method of StateObject.v by its observations. *)
From S2P Require Import Prelude.
From S2P Require Import GoSlices.
From S2P Require Import Interfaces.
From S2P Require Import Account.
From S2P Require Import StateObject.
Import StateObject.

Module StateObjectSpec.
Section Spec.
Context {St C : Type} `{KVStore St, SdkCoins C, Keccak, SdkConfig}.
Context `{!SdkCoinsLaws C, !KeccakLaws}.
Implicit Types (kv : St) (so t : stateObject C).

(** ** Observations *)

Definition dirty_value so (k : Hash) : option Hash :=
  State_Value <$> idx_find (dirtyStorage so) (keyToDirtyStorageIndex so) k.
Definition cached_key so (k : Hash) : Prop := is_Some (keyToOriginStorageIndex so !! k).
(** The value of a prefixed key as the next [GetState] returns it. *)
Definition current_value kv so (k : Hash) : Hash :=
  default (storage_value kv (address so) k) (dirty_value so k).
Definition code_of kv so : option bytes :=
  if 0 <? go_len (so_code so) then so_code so
  else if bool_decide (CodeHash so = emptyCodeHash) then None
  else kv_get kv (KeyPrefixCode ++ CodeHash so).

(** An account as the keeper may hold it. *)
Definition account_ok (acc : EthAccount C) : Prop :=
  address_ok (acc_Address acc) /\
  match acc_CodeHash acc with Some h => length h = 32 | None => True end.

Record obj_wf kv so : Prop := {
  ow_address : acc_Address (account so) = address so /\ address_ok (address so);
  ow_dirty : idx_wf State_Key (dirtyStorage so) (keyToDirtyStorageIndex so);
  ow_origin k i : keyToOriginStorageIndex so !! k = Some i -> hash_ok k /\
    exists st, originStorage so !! i = Some st /\ State_Value st = storage_value kv (address so) k;
  ow_origin_inj k k' i : keyToOriginStorageIndex so !! k = Some i ->
    keyToOriginStorageIndex so !! k' = Some i -> k = k';
  ow_cached k v : dirty_value so k = Some v -> cached_key so k /\ hash_ok v;
  ow_codehash : exists h, acc_CodeHash (account so) = Some h /\ length h = 32;
  ow_code : so_code so = Some [] -> go_len (code_of kv so) = 0;
  ow_stored c : dirtyCode so = false -> so_code so = Some c -> c ≠ [] ->
    kv_get kv (KeyPrefixCode ++ CodeHash so) = Some c;
}.

Record so_le kv so t : Prop := {
  sl_address : address so = address t;
  sl_coins d : AmountOf (acc_Coins (account so)) d = AmountOf (acc_Coins (account t)) d;
  sl_account : account t = (account so) <| acc_Coins := acc_Coins (account t) |>;
  sl_code : code_of kv so = code_of kv t;
  sl_storage k : current_value kv so k = current_value kv t k;
  sl_cached k : cached_key so k -> cached_key t k;
  sl_suicided : suicided so = suicided t;
  sl_deleted : deleted so = deleted t;
}.

#[export] Instance so_le_preorder kv : PreOrder (so_le kv).
Proof.
  split.
  - intros so. split; try done. by destruct so as [? ? ? ? []].
  - intros x y z [] []. split; intros; try congruence; try (etrans; eauto; done); [|auto].
    destruct x as [? ? ? ? []], y as [? ? ? ? []], z as [? ? ? ? []]. simpl in *. congruence.
Qed.

Lemma newStateObject_wf kv acc : account_ok acc -> exists so,
  newStateObject (AEth acc) = Ret so /\ obj_wf kv so /\ address so = acc_Address acc /\
  deleted so = false.
Proof.
  intros [Ha Hc]. eexists. split; [reflexivity|].
  unfold newStateObject, Account.EthAddress. destruct (acc_CodeHash acc) as [h|] eqn:Hh; simpl.
  all: split; [split; simpl; try done; try (by intros; rewrite lookup_empty in *)|done].
  all: try apply idx_wf_empty.
  all: try (intros k v Hv; unfold dirty_value, idx_find in Hv; simpl in Hv;
            rewrite lookup_empty in Hv; done).
  - by exists h.
  - exists emptyCodeHash. split; [done|]. apply length_keccak256.
Qed.

(** ** Code *)

(** [Code] returns the code and at most records an error on the object. *)
Lemma Code_spec kv so : obj_wf kv so -> exists so',
  Code kv so = (code_of kv so, so') /\ obj_wf kv so' /\ so_le kv so so' /\
  exists err, so' = so <| so_dbErr := err |>.
Proof.
  intros Hwf. unfold Code, code_of.
  assert (so = so <| so_dbErr := so_dbErr so |>) as Hso by (by destruct so).
  repeat split_match; eexists; (split; [reflexivity|]); try (split; [done|]; split; [done|]; eauto).
  unfold so_setError. destruct (so_dbErr so); [split; [done|]; split; [done|]; eauto|].
  split; [by destruct Hwf|]. split; [|eauto]. split; try done. simpl. by destruct (account so).
Qed.

(** [setCode] installs the code, and the hash if it is 32 bytes long. *)
Lemma code_of_setCode kv so h c :
  code_of kv (setCode so h c)
  = if 0 <? go_len c then c
    else if bool_decide (Hash_Bytes h = emptyCodeHash) then None
    else kv_get kv (KeyPrefixCode ++ Hash_Bytes h).
Proof. unfold code_of, CodeHash. simpl. by destruct (Hash_Bytes h) eqn:Hh; [apply (f_equal length) in Hh; rewrite length_Hash_Bytes in Hh|]. Qed.

Lemma CodeHash_ok kv so : obj_wf kv so ->
  length (CodeHash so) = 32 /\ acc_CodeHash (account so) = Some (CodeHash so).
Proof.
  intros Hwf. destruct (ow_codehash kv so Hwf) as (h & Hh & Hl). unfold CodeHash. rewrite Hh.
  by destruct h.
Qed.

(** ** Reading storage *)

Lemma origin_value kv so k i st : obj_wf kv so ->
  keyToOriginStorageIndex so !! k = Some i -> originStorage so !! i = Some st ->
  State_Value st = storage_value kv (address so) k.
Proof. intros Hwf Hi Hst. destruct (ow_origin kv so Hwf k i Hi) as (_ & st' & ? & ?). congruence. Qed.

(** [GetCommittedState] returns the value in the store and caches the key. *)
Lemma GetCommittedState_spec kv so key : obj_wf kv so ->
  let k := GetStorageByAddressKey so (Hash_Bytes key) in
  exists so', StateObject.GetCommittedState kv so key = Ret (storage_value kv (address so) k, so') /\
  obj_wf kv so' /\ so_le kv so so' /\ cached_key so' k /\
  exists os m, so' = so <| originStorage := os |> <| keyToOriginStorageIndex := m |>.
Proof.
  intros Hwf k. unfold StateObject.GetCommittedState. fold k.
  destruct (keyToOriginStorageIndex so !! k) as [i|] eqn:Hi.
  - destruct (ow_origin kv so Hwf k i Hi) as (_ & st & Hst & Hv). rewrite Hst. simpl. rewrite Hv.
    exists so. split_and!; [done..|by exists i|]. exists (originStorage so), (keyToOriginStorageIndex so).
    by destruct so.
  - eexists. split; [reflexivity|]. cbn [State_Value]. rewrite length_app. simpl length.
    rewrite Nat.add_sub. split_and!; [|split; try done| |by do 2 eexists].
    + destruct Hwf as [Ha Hd Ho Hinj Hc Hch Hco Hsto]. split; try done; simpl.
      * intros k' i. rewrite lookup_insert. case_decide as Hk.
        -- intros [= <-]. subst k'. split; [apply BytesToHash_ok|]. eexists. rewrite lookup_app_r, Nat.sub_diag by lia. by split.
        -- intros Hk'. destruct (Ho k' i Hk') as (Hok & st & Hst & Hv). split; [done|].
           exists st. split; [|done].
           rewrite lookup_app_l; [done|]. by eapply lookup_lt_Some.
      * intros k1 k2 i. rewrite !lookup_insert. repeat case_decide; subst; try done.
        -- intros [= <-] (_ & st & Hst & _)%Ho. apply lookup_lt_Some in Hst. lia.
        -- intros (_ & st & Hst & _)%Ho [= <-]. apply lookup_lt_Some in Hst. lia.
        -- apply Hinj.
      * intros k' v Hv. apply Hc in Hv as [[i Hv] Hvok]. split; [|done]. unfold cached_key. simpl.
        rewrite lookup_insert. case_decide; eauto.
    + simpl. by destruct (account so).
    + intros k' [i Hk']. unfold cached_key. simpl. rewrite lookup_insert. case_decide; eauto.
    + unfold cached_key. simpl. rewrite lookup_insert_eq. eauto.
Qed.

Lemma dirty_value_index kv so k : obj_wf kv so ->
  (keyToDirtyStorageIndex so !! k = None /\ dirty_value so k = None) \/
  exists i st, keyToDirtyStorageIndex so !! k = Some i /\ dirtyStorage so !! i = Some st /\
    State_Key st = k /\ dirty_value so k = Some (State_Value st).
Proof.
  intros Hwf. unfold dirty_value, idx_find.
  destruct (keyToDirtyStorageIndex so !! k) as [i|] eqn:Hi; [right|by left].
  destruct (idx_wf_lookup _ _ _ _ _ (ow_dirty kv so Hwf) Hi) as (st & Hst & Hk).
  exists i, st. simpl. by rewrite Hst.
Qed.

(** [GetState] prefers the dirty value; either way the key ends up cached. *)
Lemma so_GetState_spec kv so key : obj_wf kv so ->
  let k := GetStorageByAddressKey so (Hash_Bytes key) in
  exists so', so_GetState kv so key = Ret (current_value kv so k, so') /\
  obj_wf kv so' /\ so_le kv so so' /\ cached_key so' k /\
  exists os m, so' = so <| originStorage := os |> <| keyToOriginStorageIndex := m |>.
Proof.
  intros Hwf k. unfold so_GetState, current_value. fold k.
  destruct (dirty_value_index kv so k Hwf) as [[-> ->]|(i & st & -> & Hst & Hk & Hdv)].
  - by apply GetCommittedState_spec.
  - rewrite Hst, Hdv. simpl. exists so. split_and!; [done..| |].
    + by apply (ow_cached kv so Hwf _ _ Hdv).
    + exists (originStorage so), (keyToOriginStorageIndex so). by destruct so.
Qed.

(** ** Writing storage *)

Lemma setState_spec kv so k v : obj_wf kv so -> cached_key so k -> hash_ok v -> exists so',
  setState so k v = Ret so' /\ obj_wf kv so' /\
  (forall k', dirty_value so' k' = if decide (k = k') then Some v else dirty_value so k') /\
  exists ds m, so' = so <| dirtyStorage := ds |> <| keyToDirtyStorageIndex := m |>.
Proof.
  intros Hwf Hcached Hvok. unfold setState.
  assert (forall ds m, idx_wf State_Key ds m ->
    (forall k', State_Value <$> idx_find ds m k' = if decide (k = k') then Some v else dirty_value so k') ->
    obj_wf kv (so <| dirtyStorage := ds |> <| keyToDirtyStorageIndex := m |>)) as Hw.
  { intros ds m Hidx Hdv. destruct Hwf as [Ha Hd Ho Hinj Hc Hch Hco Hsto]. split; try done.
    intros k' v'. unfold dirty_value. simpl. rewrite Hdv. case_decide; [|apply Hc].
    intros [= <-]. by subst. }
  pose proof (ow_dirty kv so Hwf) as Hidx. unfold dirty_value in Hw |- *.
  destruct (dirty_value_index kv so k Hwf) as [[Hi Hdv]|(i & st & Hi & Hst & Hk & Hdv)]; rewrite Hi.
  - rewrite length_app. simpl length. rewrite Nat.add_sub.
    pose proof (idx_wf_snoc State_Key _ _ (NewState k v) Hidx Hi) as Hidx'.
    assert (forall k', State_Value <$> idx_find (dirtyStorage so ++ [NewState k v])
        (<[k := length (dirtyStorage so)]> (keyToDirtyStorageIndex so)) k'
      = if decide (k = k') then Some v
        else State_Value <$> idx_find (dirtyStorage so) (keyToDirtyStorageIndex so) k') as Hf.
    { intros k'. rewrite (idx_find_snoc State_Key _ _ (NewState k v)) by done. simpl. by case_decide. }
    eexists. split; [reflexivity|]. split; [by apply Hw|]. split; [apply Hf|by do 2 eexists].
  - rewrite Hst. cbn [index_or_panic mbind res_bind]. rewrite Hk.
    assert (keyToDirtyStorageIndex so !! State_Key (NewState k v) = Some i) as Hi' by done.
    pose proof (idx_wf_insert State_Key _ _ _ _ Hidx Hi') as Hidx'.
    assert (forall k', State_Value <$> idx_find (<[i := NewState k v]> (dirtyStorage so))
        (keyToDirtyStorageIndex so) k'
      = if decide (k = k') then Some v
        else State_Value <$> idx_find (dirtyStorage so) (keyToDirtyStorageIndex so) k') as Hf.
    { intros k'. rewrite (idx_find_insert State_Key _ _ _ _ k' Hidx Hi'). simpl. by case_decide. }
    exists (so <| dirtyStorage := <[i := NewState k v]> (dirtyStorage so) |>). split; [reflexivity|].
    assert (so <| dirtyStorage := <[i := NewState k v]> (dirtyStorage so) |>
      = so <| dirtyStorage := <[i := NewState k v]> (dirtyStorage so) |>
           <| keyToDirtyStorageIndex := keyToDirtyStorageIndex so |>) as Heq by (by destruct so).
    split; [rewrite Heq; by apply Hw|]. split; [apply Hf|]. by do 2 eexists.
Qed.

(** ** Account fields *)

Definition with_coins so (c : C) : stateObject C :=
  so <| account := (account so) <| acc_Coins := c |> |>.
Definition with_suicided so (b : bool) : stateObject C := so <| suicided := b |>.

Lemma setBalance_ok so d amt : (0 <= amt)%Z -> exists c,
  setBalance so d amt = Ret (with_coins so c) /\
  forall d', AmountOf c d' = if decide (d = d') then amt else AmountOf (acc_Coins (account so)) d'.
Proof.
  intros Hamt. destruct (Account.SetBalance_spec (account so) d amt Hamt) as (c & Hc & Hd).
  exists c. unfold setBalance. by rewrite Hc.
Qed.

Lemma setBalance_Ret so d amt so' : setBalance so d amt = Ret so' ->
  (0 <= amt)%Z /\ exists c, so' = with_coins so c /\
  forall d', AmountOf c d' = if decide (d = d') then amt else AmountOf (acc_Coins (account so)) d'.
Proof.
  intros Hs. destruct (decide (0 <= amt)%Z) as [Hamt|Hneg].
  - split; [done|]. destruct (setBalance_ok so d amt Hamt) as (c & Hc & Hd).
    exists c. split; [congruence|done].
  - unfold setBalance in Hs. by rewrite Account.SetBalance_negative in Hs by lia.
Qed.

Lemma with_coins_wf kv so c : obj_wf kv so -> obj_wf kv (with_coins so c).
Proof. by intros []. Qed.
Lemma setNonce_wf kv so n : obj_wf kv so -> obj_wf kv (setNonce so n).
Proof. by intros []. Qed.
Lemma with_suicided_wf kv so b : obj_wf kv so -> obj_wf kv (with_suicided so b).
Proof. by intros []. Qed.
Lemma setCode_wf kv so h c : obj_wf kv so ->
  (c = Some [] -> Hash_Bytes h = emptyCodeHash \/ go_len (kv_get kv (KeyPrefixCode ++ Hash_Bytes h)) = 0) ->
  obj_wf kv (setCode so h c).
Proof.
  intros [Ha Hd Ho Hinj Hc Hch Hco Hsto] Hempty. split; try done; simpl.
  - eexists. split; [done|]. apply length_Hash_Bytes.
  - intros ->. rewrite code_of_setCode. simpl. case_bool_decide; [done|].
    by destruct Hempty.
Qed.

(** ** The setters respect [so_le] *)

Lemma with_coins_le kv so t c c' : so_le kv so t ->
  (forall d, AmountOf c d = AmountOf c' d) -> so_le kv (with_coins so c) (with_coins t c').
Proof.
  intros [Ha Hc Hacc Hco Hst Hca Hs Hd] Heq.
  split; try done; simpl. by rewrite Hacc.
Qed.

Lemma setNonce_le kv so t n : so_le kv so t -> so_le kv (setNonce so n) (setNonce t n).
Proof. intros [Ha Hc Hacc Hco Hst Hca Hs Hd]. split; try done; simpl. by rewrite Hacc. Qed.

Lemma with_suicided_le kv so t b : so_le kv so t -> so_le kv (with_suicided so b) (with_suicided t b).
Proof. by intros []. Qed.

Lemma setCode_le kv so t h c : so_le kv so t -> so_le kv (setCode so h c) (setCode t h c).
Proof.
  intros [Ha Hc Hacc Hco Hst Hca Hs Hd]. split; try done.
  simpl. by rewrite Hacc.
Qed.

Lemma setState_le kv so t k v so' t' : so_le kv so t ->
  obj_wf kv so -> obj_wf kv t -> cached_key so k -> hash_ok v ->
  setState so k v = Ret so' -> setState t k v = Ret t' -> so_le kv so' t'.
Proof.
  intros Hle Hwf Hwf' Hk Hv Hs Ht. pose proof (sl_cached _ _ _ Hle k Hk) as Hk'.
  destruct (setState_spec kv so k v Hwf Hk Hv) as (so1 & E1 & _ & D1 & ds1 & m1 & R1).
  destruct (setState_spec kv t k v Hwf' Hk' Hv) as (t1 & E2 & _ & D2 & ds2 & m2 & R2).
  assert (so' = so1) as -> by congruence. assert (t' = t1) as -> by congruence.
  clear E1 E2 Hs Ht. destruct Hle as [Ha Hc Hacc Hco Hst Hca Hsu Hd].
  split; try (rewrite R1, R2; done).
  intros k'. specialize (Hst k'). unfold current_value in *. rewrite D1, D2.
  case_decide; [done|]. rewrite R1, R2. done.
Qed.

(** ** Undoing a setter *)

Lemma undo_balance kv so c c' : 
  (forall d, AmountOf (acc_Coins (account so)) d = AmountOf c' d) ->
  so_le kv so (with_coins (with_coins so c) c').
Proof. intros Heq. by split. Qed.

Lemma undo_nonce kv so n : so_le kv so (setNonce (setNonce so n) (acc_Sequence (account so))).
Proof. by split. Qed.

Lemma undo_code kv so h c : obj_wf kv so ->
  so_le kv so (setCode (setCode so h c) (BytesToHash (CodeHash so)) (code_of kv so)).
Proof.
  intros Hwf. destruct (CodeHash_ok kv so Hwf) as [Hl Hh].
  split; try done; simpl.
  - rewrite Hash_Bytes_BytesToHash, <- Hh by done. by destruct (account so).
  - rewrite code_of_setCode, Hash_Bytes_BytesToHash by done. unfold code_of.
    destruct (0 <? go_len (so_code so)) eqn:E; [by rewrite E|].
    case_bool_decide; simpl; [done|]. by case_match.
Qed.

Lemma undo_code_wf kv so : obj_wf kv so ->
  code_of kv so = Some [] -> go_len (kv_get kv (KeyPrefixCode ++ CodeHash so)) = 0.
Proof.
  intros Hwf. unfold code_of.
  destruct (0 <? go_len (so_code so)) eqn:E; [intros Hc; by rewrite Hc in E|].
  case_bool_decide; [done|]. by intros ->.
Qed.

Lemma current_value_ok kv so k : obj_wf kv so -> hash_ok (current_value kv so k).
Proof.
  intros Hwf. unfold current_value. destruct (dirty_value so k) as [v|] eqn:Hv; simpl.
  - by apply (ow_cached kv so Hwf k v).
  - unfold storage_value. case_match; [apply BytesToHash_ok|done].
Qed.

Lemma undo_state kv so k v so1 so2 : obj_wf kv so -> cached_key so k -> hash_ok v ->
  setState so k v = Ret so1 -> setState so1 k (current_value kv so k) = Ret so2 -> so_le kv so so2.
Proof.
  intros Hwf Hk Hv Hs1 Hs2.
  destruct (setState_spec kv so k v Hwf Hk Hv) as (t1 & E1 & W1 & D1 & ds1 & m1 & R1).
  assert (so1 = t1) as -> by congruence.
  assert (cached_key t1 k) as Hk1 by (by rewrite R1).
  destruct (setState_spec kv t1 k (current_value kv so k) W1 Hk1 (current_value_ok kv so k Hwf))
    as (t2 & E2 & W2 & D2 & ds2 & m2 & R2).
  assert (so2 = t2) as -> by congruence. clear E1 E2 Hs1 Hs2 W1 W2 Hk1.
  split; try (rewrite R2, R1; done).
  - rewrite R2, R1. simpl. by destruct (account so).
  - intros k'. unfold current_value at 2. rewrite D2. case_decide as Hkk; [by subst|].
    rewrite D1, decide_False by done. rewrite R2, R1. done.
Qed.

End Spec.
End StateObjectSpec.
