(* ===== verification/Journal.v ===== *)
(** The journal of state changes (evm/types/journal.go).

    Entries are appended by every journalled change; [dirties] counts, per
    account, the entries that touched it, with an index map beside it.
    [deleteDirty] removes an element of [dirties] without moving the later
    indices of the map.  The theorems say when that is sound: undoing the
    entries newest first only ever deletes the last element, unless
    [dirty] was called explicitly (the RIPEMD exception), and then the map
    is left pointing past the slice. *)
From S2P Require Import Prelude.
From S2P Require Import GoSlices.
From S2P Require Import Interfaces.
From S2P Require Import StateObject.

Definition ripemd : Address := 3%N.

Inductive journalEntry {C : Type} :=
  | createObjectChange (account : Address)
  | resetObjectChange (prev : stateObject C)
  | suicideChange (account : Address) (prev : bool) (prevBalance : Dec)
  | balanceChange (account : Address) (prev : Dec)
  | nonceChange (account : Address) (prev : Z)
  | storageChange (account : Address) (key prevValue : Hash)
  | codeChange (account : Address) (prevCode : option bytes) (prevHash : bytes)
  | refundChange (prev : Z)
  | addLogChange (txhash : Hash)
  | addPreimageChange (hash : Hash)
  | touchChange (account : Address)
  | accessListAddAccountChange (address : Address)
  | accessListAddSlotChange (address : Address) (slot : Hash).
Arguments journalEntry C : clear implicits.

Record dirty := mkDirty { dirty_address : Address; changes : Z }.

Record journal {C : Type} := mkJournal {
  entries : list (journalEntry C);
  dirties : list dirty;
  addressToJournalIndex : gmap Address nat;
}.
Arguments journal C : clear implicits.
#[export] Instance journal_eta C : Eta (journal C) := fun r =>
  mkJournal C (entries r) (dirties r) (addressToJournalIndex r).

Module Journal.
Section Journal.
Context {C : Type}.
Implicit Types (j : journal C) (e : journalEntry C).

Definition newJournal : journal C := mkJournal C [] [] ∅.

(** The address an entry modified, nil for changes outside accounts. *)
Definition dirtied e : option Address :=
  match e with
  | createObjectChange a | suicideChange a _ _ | balanceChange a _ | nonceChange a _
  | storageChange a _ _ | codeChange a _ _ | touchChange a => Some a
  | resetObjectChange _ | refundChange _ | addLogChange _ | addPreimageChange _
  | accessListAddAccountChange _ | accessListAddSlotChange _ _ => None
  end.

Definition getDirty j (addr : Address) : res Z :=
  match addressToJournalIndex j !! addr with
  | None => Ret 0%Z
  | Some idx => d ← index_or_panic (dirties j !! idx); Ret (changes d)
  end.

(** [j.dirties[idx].changes += x] *)
Definition bump (idx : nat) (x : Z) j : res (journal C) :=
  d ← index_or_panic (dirties j !! idx);
  Ret (j <| dirties := <[idx := mkDirty (dirty_address d) (changes d + x)]> (dirties j) |>).

Definition addDirty j (addr : Address) : res (journal C) :=
  match addressToJournalIndex j !! addr with
  | Some idx => bump idx 1 j
  | None =>
      let ds := dirties j ++ [mkDirty addr 0] in
      let idx := length ds - 1 in
      bump idx 1 (j <| dirties := ds |>
                    <| addressToJournalIndex := <[addr := idx]> (addressToJournalIndex j) |>)
  end.

Definition substractDirty j (addr : Address) : res (journal C) :=
  match addressToJournalIndex j !! addr with
  | None => Ret j
  | Some idx =>
      d ← index_or_panic (dirties j !! idx);
      if (changes d =? 0)%Z then Ret j else bump idx (-1) j
  end.

(** [append(j.dirties[:idx], j.dirties[idx+1:]...)]: both slice
    expressions need [idx < len]. *)
Definition deleteDirty j (addr : Address) : res (journal C) :=
  match addressToJournalIndex j !! addr with
  | None => Ret j
  | Some idx =>
      if idx <? length (dirties j) then
        Ret (j <| dirties := take idx (dirties j) ++ drop (S idx) (dirties j) |>
               <| addressToJournalIndex := delete addr (addressToJournalIndex j) |>)
      else Panic PanicIndex
  end.

Definition append j e : res (journal C) :=
  let j := j <| entries := entries j ++ [e] |> in
  match dirtied e with
  | Some addr => addDirty j addr
  | None => Ret j
  end.

(** [dirty] marks an address explicitly, for the RIPEMD exception. *)
Definition dirty_explicit j (addr : Address) : res (journal C) := addDirty j addr.

Definition jlength j : nat := length (entries j).

(** The dirty tracking [revert] drops for one undone entry. *)
Definition undirty j e : res (journal C) :=
  match dirtied e with
  | None => Ret j
  | Some addr =>
      j ← substractDirty j addr;
      n ← getDirty j addr;
      if (n =? 0)%Z then deleteDirty j addr else Ret j
  end.

(** ** Invariant *)

(** How often the entries touched an address. *)
Definition touches (a : Address) (es : list (journalEntry C)) : Z :=
  Z.of_nat (length (filter (fun e => dirtied e = Some a) es)).

(** Index map and slice agree, every tracked account has a positive count,
    and the count is the number of entries that touched the account. *)
Record jwf j : Prop := {
  jwf_index : idx_wf dirty_address (dirties j) (addressToJournalIndex j);
  jwf_positive i d : dirties j !! i = Some d -> (0 < changes d)%Z;
  jwf_count a : getDirty j a = Ret (touches a (entries j));
}.

Lemma newJournal_wf : jwf newJournal.
Proof. split; simpl; [apply idx_wf_empty| |done]. intros i d Hd. by rewrite lookup_nil in Hd. Qed.

Lemma touches_snoc a es e :
  touches a (es ++ [e]) = (touches a es + if decide (dirtied e = Some a) then 1 else 0)%Z.
Proof.
  unfold touches. rewrite filter_app, length_app, filter_cons, filter_nil.
  case_decide; simpl; lia.
Qed.

(** [addDirty] appends a fresh element or increments the existing one. *)
Lemma addDirty_cases j a :
  idx_wf dirty_address (dirties j) (addressToJournalIndex j) ->
  (addressToJournalIndex j !! a = None /\
   addDirty j a = Ret (mkJournal C (entries j) (dirties j ++ [mkDirty a 1])
                        (<[a := length (dirties j)]> (addressToJournalIndex j)))) \/
  (exists i d, addressToJournalIndex j !! a = Some i /\ dirties j !! i = Some d /\
   dirty_address d = a /\
   addDirty j a = Ret (mkJournal C (entries j) (<[i := mkDirty a (changes d + 1)]> (dirties j))
                        (addressToJournalIndex j))).
Proof.
  intros Hidx. unfold addDirty, bump.
  destruct (addressToJournalIndex j !! a) as [i|] eqn:Hi; [right|left].
  - destruct (idx_wf_lookup _ _ _ _ _ Hidx Hi) as (d & Hd & Hk).
    exists i, d. split_and!; try done. rewrite Hd. simpl. by rewrite Hk.
  - split; [done|]. simpl. rewrite length_app. simpl. rewrite Nat.add_sub.
    rewrite lookup_app_r by lia. rewrite Nat.sub_diag. simpl.
    rewrite insert_app_r_alt by lia. by rewrite Nat.sub_diag.
Qed.

Lemma append_wf j e : jwf j -> exists j',
  append j e = Ret j' /\ jwf j' /\ entries j' = entries j ++ [e].
Proof.
  intros [Hidx Hpos Hcnt]. unfold append.
  destruct (dirtied e) as [a|] eqn:He.
  2:{ eexists. split; [done|]. split; [|done]. split; simpl; try done.
      intros a. rewrite touches_snoc, decide_False, Z.add_0_r by congruence. apply Hcnt. }
  destruct (addDirty_cases (j <| entries := entries j ++ [e] |>) a) as [[Hn ->]|(i & d & Hi & Hd & Hk & ->)];
    [done| |]; simpl in *; eexists; (split; [done|]); (split; [|done]); split; simpl.
  - by apply (idx_wf_snoc dirty_address (dirties j) _ (mkDirty a 1)).
  - intros i d [Hd|[_ Hd]]%lookup_app_Some; [by eapply Hpos|].
    by apply list_lookup_singleton_Some in Hd as [_ <-].
  - intros b. rewrite touches_snoc. specialize (Hcnt b). unfold getDirty in *. simpl.
    rewrite lookup_insert. destruct (decide (a = b)) as [->|Hab].
    + rewrite Hn in Hcnt. rewrite lookup_app_r, Nat.sub_diag by lia. simpl.
      rewrite decide_True by done. injection Hcnt as <-. done.
    + rewrite decide_False, Z.add_0_r by congruence.
      destruct (addressToJournalIndex j !! b) eqn:Hb; [|done].
      by rewrite lookup_app_l by (by eapply idx_wf_lt).
  - by apply idx_wf_insert.
  - intros i' d'. rewrite list_lookup_insert_Some. intros [(<- & <- & _)|[_ Hd']]; [|by eapply Hpos].
    simpl. specialize (Hpos _ _ Hd). lia.
  - intros b. rewrite touches_snoc. specialize (Hcnt b). unfold getDirty in *. simpl.
    destruct (decide (a = b)) as [->|Hab].
    + rewrite Hi in *. rewrite Hd in Hcnt. rewrite list_lookup_insert_eq by (by eapply lookup_lt_Some).
      rewrite decide_True by done. simpl in *. injection Hcnt as <-. done.
    + rewrite decide_False, Z.add_0_r by congruence.
      destruct (addressToJournalIndex j !! b) as [i'|] eqn:Hb; [|done].
      rewrite list_lookup_insert_ne; [done|]. intros <-.
      destruct (idx_wf_lookup _ _ _ _ _ Hidx Hb) as (d' & Hd' & Hk'). congruence.
Qed.

(** Undoing the newest entry restores the dirty tracking exactly: an
    element that drops to zero is the last of the slice. *)
Lemma undirty_append j e j' : jwf j -> append j e = Ret j' ->
  undirty j' e = Ret (mkJournal C (entries j') (dirties j) (addressToJournalIndex j)).
Proof.
  intros [Hidx Hpos Hcnt] Happ. unfold append in Happ. unfold undirty.
  destruct (dirtied e) as [a|] eqn:He; [|by injection Happ as <-].
  destruct (addDirty_cases (j <| entries := entries j ++ [e] |>) a)
    as [[Hn Hadd]|(i & d & Hi & Hd & Hk & Hadd)]; [done| |];
    rewrite Hadd in Happ; injection Happ as <-; simpl in *.
  - unfold substractDirty, bump, getDirty, deleteDirty. simpl.
    rewrite lookup_insert_eq, lookup_app_r, Nat.sub_diag by lia. simpl.
    rewrite lookup_insert_eq, insert_app_r_alt, lookup_app_r, Nat.sub_diag by lia. simpl.
    rewrite length_app. simpl. rewrite (proj2 (Nat.ltb_lt _ _)) by lia.
    rewrite take_app_length, drop_ge, app_nil_r by (rewrite length_app; simpl; lia).
    by rewrite delete_insert_id.
  - assert (i < length (dirties j)) as Hlt by (by eapply lookup_lt_Some).
    unfold substractDirty, bump, getDirty. simpl.
    rewrite Hi, list_lookup_insert_eq by done. simpl. specialize (Hpos _ _ Hd).
    rewrite (proj2 (Z.eqb_neq _ _)) by lia. simpl.
    rewrite Hi, list_insert_insert_eq, list_lookup_insert_eq by done. simpl.
    rewrite (proj2 (Z.eqb_neq _ _)) by lia. repeat f_equal.
    replace (changes d + 1 + -1)%Z with (changes d) by lia. rewrite <- Hk.
    apply list_insert_id. rewrite Hd. by destruct d.
Qed.

(** ** Sequences of entries *)

Fixpoint append_all j (es : list (journalEntry C)) : res (journal C) :=
  match es with
  | [] => Ret j
  | e :: es' => j ← append j e; append_all j es'
  end.

(** The dirty tracking dropped for entries undone in the given order. *)
Fixpoint undirty_all j (es : list (journalEntry C)) : res (journal C) :=
  match es with
  | [] => Ret j
  | e :: es' => j ← undirty j e; undirty_all j es'
  end.

Definition with_tracking j k : journal C :=
  mkJournal C (entries k) (dirties j) (addressToJournalIndex j).

Lemma undirty_all_app es1 es2 j : undirty_all j (es1 ++ es2) = (j ← undirty_all j es1; undirty_all j es2).
Proof.
  revert j; induction es1 as [|e es1 IH]; intros j; simpl; [done|].
  destruct (undirty j e); [apply IH|done].
Qed.

Lemma undirty_tracking e j k : undirty (with_tracking j k) e
  = (fun j => with_tracking j k) <$> undirty j e.
Proof.
  unfold undirty. destruct (dirtied e) as [a|]; [|done].
  unfold substractDirty, bump, getDirty, deleteDirty, with_tracking. simpl.
  destruct (addressToJournalIndex j !! a) as [i|] eqn:Hi; simpl; [|by rewrite Hi].
  destruct (dirties j !! i) as [d|]; simpl; [|done].
  destruct (changes d =? 0)%Z; simpl; rewrite Hi;
    (destruct (_ !! i); simpl; [|done]); (destruct (changes _ =? 0)%Z; [|done]);
    rewrite ?Hi; simpl; by case_match.
Qed.

Lemma undirty_all_tracking es j k : undirty_all (with_tracking j k) es
  = (fun j => with_tracking j k) <$> undirty_all j es.
Proof.
  revert j; induction es as [|e es IH]; intros j; simpl; [done|].
  rewrite undirty_tracking. destruct (undirty j e); simpl; [apply IH|done].
Qed.

(** Appending entries never panics, counts every touched account once
    per entry, and undoing them newest first restores the tracking of dirty
    accounts exactly, slice, counters and index map. *)
Theorem append_undirty_all j es : jwf j ->
  exists j', append_all j es = Ret j' /\ jwf j' /\ entries j' = entries j ++ es /\
    undirty_all j' (rev es) = Ret (mkJournal C (entries j') (dirties j) (addressToJournalIndex j)).
Proof.
  revert j; induction es as [|e es IH]; intros j Hj; simpl.
  - exists j. rewrite app_nil_r. split_and!; try done. by destruct j.
  - destruct (append_wf j e Hj) as (j1 & He & Hj1 & Hes). rewrite He. simpl.
    destruct (IH j1 Hj1) as (j' & Ha & Hj' & Hes' & Hu). exists j'. split_and!; [done|done| |].
    + by rewrite Hes', Hes, <- app_assoc.
    + rewrite undirty_all_app, Hu. simpl. change (mkJournal C (entries j') (dirties j1)
        (addressToJournalIndex j1)) with (with_tracking j1 j').
      rewrite undirty_tracking, (undirty_append j e j1 Hj He). done.
Qed.

End Journal.
End Journal.
