(* ===== verification/StateDB.v ===== *)
(** CommitStateDB (evm/types/statedb.go), the reverts of the journal
    entries (journal.go) and the journalling methods of a state object
    (state_object.go).

    Every method is a function from the database to its result and the new
    database, in [res]: reading an account loads it into the cache, so
    getters change the state as well.  A Go [*stateObject] obtained from the
    database is the element of [stateObjects] at the index of its address;
    mutating it is modelled by computing the new object and storing it back
    under that index ([setStateObject] on a known address). *)
From S2P Require Import Prelude.
From S2P Require Import GoSlices.
From S2P Require Import Interfaces.
From S2P Require Import Account.
From S2P Require Import AccessList.
From S2P Require Import StateObject.
From S2P Require Import Journal.
Import StateObject Journal.

(** ethtypes.Log *)
Record Log := mkLog {
  log_Address : Address; log_Topics : list Hash; log_Data : bytes; log_BlockNumber : Z;
  log_TxHash : Hash; log_TxIndex : Z; log_BlockHash : Hash; log_Index : Z;
}.
#[export] Instance Log_eta : Eta Log := fun r =>
  mkLog (log_Address r) (log_Topics r) (log_Data r) (log_BlockNumber r) (log_TxHash r)
        (log_TxIndex r) (log_BlockHash r) (log_Index r).

(** evm Params (params.go) *)
Record Params := mkParams {
  EnableCreate : bool; EnableCall : bool; ExtraEIPs : list Z;
  EnableContractDeploymentWhitelist : bool; EnableContractBlockedList : bool;
  MaxGasLimitPerTx : Z;
}.

Record revision := mkRevision { rev_id : Z; journalIndex : nat }.
Record preimageEntry := mkPreimage { pre_hash : Hash; preimage : bytes }.

Record stateEntry {C : Type} := mkStateEntry { se_address : Address; se_object : stateObject C }.
Arguments stateEntry C : clear implicits.

(** [kvstore] is the module's store and [accounts] the account keeper's
    part of the context; [paramSpace] is the stored parameter set. *)
Record CommitStateDB {St AK C : Type} := mkCSDB {
  kvstore : St;
  accounts : AK;
  paramSpace : Params;
  stateObjects : list (stateEntry C);
  addressToObjectIndex : gmap Address nat;
  stateObjectsDirty : gset Address;
  refund : Z;
  thash : Hash;
  bhash : Hash;
  txIndex : Z;
  logSize : Z;
  logs : list Log;
  preimages : list preimageEntry;
  hashToPreimageIndex : gmap Hash nat;
  dbErr : option dberror;
  csdb_journal : journal C;
  validRevisions : list revision;
  nextRevisionID : Z;
  csdb_accessList : accessList;
  params : option Params;
  codeCache : gmap Address (option bytes);
}.
Arguments CommitStateDB St AK C : clear implicits.
#[export] Instance CommitStateDB_eta St AK C : Eta (CommitStateDB St AK C) := fun r =>
  mkCSDB St AK C (kvstore r) (accounts r) (paramSpace r) (stateObjects r) (addressToObjectIndex r)
    (stateObjectsDirty r) (refund r) (thash r) (bhash r) (txIndex r) (logSize r) (logs r)
    (preimages r) (hashToPreimageIndex r) (dbErr r) (csdb_journal r) (validRevisions r)
    (nextRevisionID r) (csdb_accessList r) (params r) (codeCache r).

Definition KeyPrefixHeightHash : bytes := [Byte.x07].
Definition KeyPrefixContractDeploymentWhitelist : bytes := [Byte.x08].
Definition KeyPrefixContractBlockedList : bytes := [Byte.x09].
Definition HeightHashKey (height : Z) : bytes := be_bytes 8 height.
Definition getContractDeploymentWhitelistMemberKey (a : bytes) : bytes :=
  KeyPrefixContractDeploymentWhitelist ++ a.
Definition getContractBlockedListMemberKey (a : bytes) : bytes :=
  KeyPrefixContractBlockedList ++ a.
Definition splitApprovedDeployerAddress (key : bytes) : bytes := drop 1 key.
Definition splitBlockedContractAddress (key : bytes) : bytes := drop 1 key.

(** ** Journalling methods of a state object *)
Module SO.
Section SO.
Context {St C : Type} `{KVStore St, SdkCoins C, Keccak, SdkConfig}.
Implicit Types (j : journal C) (so : stateObject C).

Definition SetState (kv : St) (key value : Hash) j so : res (journal C * stateObject C) :=
  '(prev, so) ← so_GetState kv so key;
  if (prev =? value)%N then Ret (j, so)
  else
    let prefixKey := GetStorageByAddressKey so (Hash_Bytes key) in
    j ← append j (storageChange (address so) prefixKey prev);
    so ← setState so prefixKey value;
    Ret (j, so).

Definition SetCode (kv : St) (codeHash : Hash) (code : option bytes) j so
    : res (journal C * stateObject C) :=
  let '(prevCode, so) := Code kv so in
  j ← append j (codeChange (address so) prevCode (CodeHash so));
  Ret (j, setCode so codeHash code).

Definition SetBalance (amount : Z) j so : res (journal C * stateObject C) :=
  j ← append j (balanceChange (address so) (AmountOf (acc_Coins (account so)) DefaultBondDenom));
  so ← setBalance so DefaultBondDenom amount;
  Ret (j, so).

Definition touch j so : res (journal C) :=
  j ← append j (touchChange (address so));
  if (address so =? ripemd)%N then dirty_explicit j (address so) else Ret j.

Definition AddBalance (amount : Z) j so : res (journal C * stateObject C) :=
  if (amount =? 0)%Z then
    if so_empty so then j ← touch j so; Ret (j, so) else Ret (j, so)
  else SetBalance (AmountOf (acc_Coins (account so)) DefaultBondDenom + amount) j so.

Definition SubBalance (amount : Z) j so : res (journal C * stateObject C) :=
  if (amount =? 0)%Z then Ret (j, so)
  else SetBalance (AmountOf (acc_Coins (account so)) DefaultBondDenom - amount) j so.

Definition SetNonce (nonce : Z) j so : res (journal C * stateObject C) :=
  j ← append j (nonceChange (address so) (acc_Sequence (account so)));
  Ret (j, setNonce so nonce).

End SO.
End SO.

Module StateDB.
Section StateDB.
Context {St AK C : Type} `{KVStore St, SdkCoins C, AccountKeeper AK C, Keccak, SdkConfig}.
(** [bankKeeper.BlacklistedAddr] *)
Context (BlacklistedAddr : Address -> bool).
Abbreviation csdb := (CommitStateDB St AK C).
Implicit Types (s : csdb).

(** [newCommitStateDB] and [CreateEmptyCommitStateDB] over a context. *)
Definition CreateEmptyCommitStateDB (kv : St) (ak : AK) (ps : Params) : csdb :=
  mkCSDB St AK C kv ak ps [] ∅ ∅ 0 0%N 0%N 0 0 [] [] ∅ None newJournal [] 0
    AccessList.newAccessList None ∅.

Definition GetCacheCode s (addr : Address) : option bytes :=
  match codeCache s !! addr with Some code => code | None => None end.

(** ** The cache of state objects *)

Definition setError s (err : dberror) : csdb :=
  match dbErr s with None => s <| dbErr := Some err |> | Some _ => s end.

Definition setStateObject s (so : stateObject C) : res csdb :=
  match addressToObjectIndex s !! address so with
  | Some idx =>
      se ← index_or_panic (stateObjects s !! idx);
      Ret (s <| stateObjects := <[idx := mkStateEntry C (se_address se) so]> (stateObjects s) |>)
  | None =>
      let objs := stateObjects s ++ [mkStateEntry C (address so) so] in
      Ret (s <| stateObjects := objs |>
             <| addressToObjectIndex := <[address so := length objs - 1]> (addressToObjectIndex s) |>)
  end.

Definition getStateObject s (addr : Address) : res (option (stateObject C) * csdb) :=
  match addressToObjectIndex s !! addr with
  | Some idx =>
      se ← index_or_panic (stateObjects s !! idx);
      if deleted (se_object se) then Ret (None, s) else Ret (Some (se_object se), s)
  | None =>
      match GetAccount (accounts s) addr with
      | None => Ret (None, setError s (ErrNoAccount addr))
      | Some acc =>
          so ← newStateObject acc;
          s ← setStateObject s so;
          Ret (Some so, s)
      end
  end.

Definition jappend s (e : journalEntry C) : res csdb :=
  j ← append (csdb_journal s) e; Ret (s <| csdb_journal := j |>).

Definition createObject s (addr : Address) : res (stateObject C * option (stateObject C) * csdb) :=
  '(prevObj, s) ← getStateObject s addr;
  let '(acc, ak) := NewAccountWithAddress (accounts s) addr in
  let s := s <| accounts := ak |> in
  newObj ← newStateObject (AEth acc);
  let newObj := setNonce newObj 0 in
  s ← match prevObj with
      | None => jappend s (createObjectChange addr)
      | Some prev => jappend s (resetObjectChange prev)
      end;
  s ← setStateObject s newObj;
  Ret (newObj, prevObj, s).

Definition GetOrNewStateObject s (addr : Address) : res (stateObject C * csdb) :=
  '(o, s) ← getStateObject s addr;
  match o with
  | Some so => if deleted so then '(so, _, s) ← createObject s addr; Ret (so, s) else Ret (so, s)
  | None => '(so, _, s) ← createObject s addr; Ret (so, s)
  end.

(** Run a journalling method on the object of an address. *)
Definition on_object s (addr : Address)
    (f : journal C -> stateObject C -> res (journal C * stateObject C)) : res csdb :=
  '(so, s) ← GetOrNewStateObject s addr;
  '(j, so) ← f (csdb_journal s) so;
  setStateObject (s <| csdb_journal := j |>) so.

(** ** Setters *)

Definition SetHeightHash s (height : Z) (hash : Hash) : csdb :=
  s <| kvstore := kv_set (kvstore s) (KeyPrefixHeightHash ++ HeightHashKey height) (Hash_Bytes hash) |>.

Definition SetParams s (p : Params) : csdb := s <| params := Some p |> <| paramSpace := p |>.

Definition SetBalance s addr (amount : Z) : res csdb := on_object s addr (SO.SetBalance amount).
Definition AddBalance s addr (amount : Z) : res csdb := on_object s addr (SO.AddBalance amount).
Definition SubBalance s addr (amount : Z) : res csdb := on_object s addr (SO.SubBalance amount).
Definition SetNonce s addr (nonce : Z) : res csdb := on_object s addr (SO.SetNonce nonce).
(** The object reads the store of the database it belongs to. *)
Definition SetState s addr (key value : Hash) : res csdb :=
  on_object s addr (SO.SetState (kvstore s) key value).
Definition SetCode s addr (code : option bytes) : res csdb :=
  s ← on_object s addr (SO.SetCode (kvstore s) (Keccak256Hash (default [] code)) code);
  Ret (s <| codeCache := <[addr := code]> (codeCache s) |>).

Definition SetLogs s (l : list Log) : csdb := s <| logs := l |>.
Definition DeleteLogs s : csdb := s <| logs := [] |>.

Definition AddLog s (log : Log) : res csdb :=
  s ← jappend s (addLogChange (thash s));
  let log := log <| log_TxHash := thash s |> <| log_BlockHash := bhash s |>
                 <| log_TxIndex := u64 (txIndex s) |> <| log_Index := logSize s |> in
  Ret (s <| logSize := u64 (logSize s + 1) |> <| logs := logs s ++ [log] |>).

Definition AddPreimage s (hash : Hash) (pre : bytes) : res csdb :=
  match hashToPreimageIndex s !! hash with
  | Some _ => Ret s
  | None =>
      s ← jappend s (addPreimageChange hash);
      let ps := preimages s ++ [mkPreimage hash pre] in
      Ret (s <| preimages := ps |>
             <| hashToPreimageIndex := <[hash := length ps - 1]> (hashToPreimageIndex s) |>)
  end.

Definition AddRefund s (gas : Z) : res csdb :=
  s ← jappend s (refundChange (refund s));
  Ret (s <| refund := u64 (refund s + gas) |>).

Definition SubRefund s (gas : Z) : res csdb :=
  s ← jappend s (refundChange (refund s));
  if (refund s <? gas)%Z then Panic (PanicMsg "refund counter below zero")
  else Ret (s <| refund := (refund s - gas)%Z |>).

Definition AddAddressToAccessList s (addr : Address) : res csdb :=
  let '(changed, al) := AccessList.AddAddress (csdb_accessList s) addr in
  let s := s <| csdb_accessList := al |> in
  if changed then jappend s (accessListAddAccountChange addr) else Ret s.

Definition AddSlotToAccessList s (addr : Address) (slot : Hash) : res csdb :=
  '(addrMod, slotMod, al) ← AccessList.AddSlot (csdb_accessList s) addr slot;
  let s := s <| csdb_accessList := al |> in
  s ← (if addrMod : bool then jappend s (accessListAddAccountChange addr) else Ret s);
  if slotMod : bool then jappend s (accessListAddSlotChange addr slot) else Ret s.

Definition AddressInAccessList s (addr : Address) : bool :=
  AccessList.ContainsAddress (csdb_accessList s) addr.
Definition SlotInAccessList s (addr : Address) (slot : Hash) : res (bool * bool) :=
  AccessList.Contains (csdb_accessList s) addr slot.

Definition SetLogSize s (n : Z) : csdb := s <| logSize := n |>.
Definition SetBlockHash s (h : Hash) : csdb := s <| bhash := h |>.
Definition Prepare s (th bh : Hash) (txi : Z) : csdb :=
  s <| thash := th |> <| bhash := bh |> <| txIndex := txi |>.

(** ** Getters *)

Definition GetHeightHash s (height : Z) : Hash :=
  let bz := kv_get (kvstore s) (KeyPrefixHeightHash ++ HeightHashKey height) in
  if go_len bz =? 0 then 0%N else BytesToHash (default [] bz).

Definition GetParams s : Params * csdb :=
  match params s with
  | Some p => (p, s)
  | None => (paramSpace s, s <| params := Some (paramSpace s) |>)
  end.

Definition GetBalance s addr : res (Z * csdb) :=
  '(o, s) ← getStateObject s addr;
  Ret (match o with Some so => so_Balance so | None => 0%Z end, s).

Definition GetNonce s addr : res (Z * csdb) :=
  '(o, s) ← getStateObject s addr;
  Ret (match o with Some so => Nonce so | None => 0%Z end, s).

Definition IsContractInBlockedList s (a : bytes) : bool :=
  kv_has (kvstore s) (getContractBlockedListMemberKey a).
Definition IsDeployerInWhitelist s (a : bytes) : bool :=
  kv_has (kvstore s) (getContractDeploymentWhitelistMemberKey a).

(** [so.Code(nil)] records a missing code on the object. *)
Definition object_Code s (so : stateObject C) : res (option bytes * csdb) :=
  let '(code, so) := Code (kvstore s) so in
  s ← setStateObject s so;
  Ret (code, s).

Definition GetCode s (addr : Address) : res (option bytes * csdb) :=
  let '(p, s) := GetParams s in
  if EnableContractBlockedList p && IsContractInBlockedList s (Address_Bytes addr)
  then Panic (PanicAddr addr)
  else
    '(o, s) ← getStateObject s addr;
    match o with
    | Some so => object_Code s so
    | None => Ret (None, s)
    end.

Definition GetCodeSize s (addr : Address) : res (nat * csdb) :=
  '(o, s) ← getStateObject s addr;
  match o with
  | None => Ret (0, s)
  | Some so =>
      match so_code so with
      | Some code => Ret (length code, s)
      | None => '(code, s) ← object_Code s so; Ret (go_len code, s)
      end
  end.

Definition GetCodeHash s (addr : Address) : res (Hash * csdb) :=
  '(o, s) ← getStateObject s addr;
  Ret (match o with Some so => BytesToHash (CodeHash so) | None => 0%N end, s).

Definition GetState s (addr : Address) (hash : Hash) : res (Hash * csdb) :=
  '(o, s) ← getStateObject s addr;
  match o with
  | None => Ret (0%N, s)
  | Some so =>
      '(v, so) ← so_GetState (kvstore s) so hash;
      s ← setStateObject s so;
      Ret (v, s)
  end.

Definition GetCommittedState s (addr : Address) (hash : Hash) : res (Hash * csdb) :=
  '(o, s) ← getStateObject s addr;
  match o with
  | None => Ret (0%N, s)
  | Some so =>
      '(v, so) ← StateObject.GetCommittedState (kvstore s) so hash;
      s ← setStateObject s so;
      Ret (v, s)
  end.

Definition GetLogs s : list Log := logs s.
Definition GetRefund s : Z := refund s.
Definition GetLogSize s : Z := logSize s.
Definition Preimages s : gmap Hash bytes :=
  foldl (fun m pe => <[pre_hash pe := preimage pe]> m) ∅ (preimages s).

Definition HasSuicided s (addr : Address) : res (bool * csdb) :=
  '(o, s) ← getStateObject s addr;
  Ret (match o with Some so => suicided so | None => false end, s).

Definition Empty s (addr : Address) : res (bool * csdb) :=
  '(o, s) ← getStateObject s addr;
  Ret (match o with Some so => so_empty so | None => true end, s).

Definition Exist s (addr : Address) : res (bool * csdb) :=
  '(o, s) ← getStateObject s addr;
  Ret (match o with Some _ => true | None => false end, s).

(** ** Suicide and account creation *)

Definition Suicide s (addr : Address) : res (bool * csdb) :=
  '(o, s) ← getStateObject s addr;
  match o with
  | None => Ret (false, s)
  | Some so =>
      s ← jappend s (suicideChange addr (suicided so) (so_Balance so));
      '(j, so) ← SO.SetBalance 0 (csdb_journal s) (markSuicided so);
      s ← setStateObject (s <| csdb_journal := j |>) so;
      Ret (true, s)
  end.

Definition CreateAccount s (addr : Address) : res csdb :=
  '(newobj, prevobj, s) ← createObject s addr;
  match prevobj with
  | None => Ret s
  | Some prev =>
      newobj ← setBalance newobj DefaultBondDenom (so_Balance prev);
      setStateObject s newobj
  end.

(** ** Reverting *)

Definition revert_entry (ch : journalEntry C) s : res csdb :=
  match ch with
  | createObjectChange a =>
      let s := s <| stateObjectsDirty := stateObjectsDirty s ∖ {[a]} |> in
      match addressToObjectIndex s !! a with
      | None => Ret s
      | Some idx =>
          if length (stateObjects s) =? 1 then
            Ret (s <| addressToObjectIndex := delete a (addressToObjectIndex s) |>
                   <| stateObjects := [] |>)
          else
            let '(objs, m) :=
              remove_shift se_address a idx (stateObjects s) (addressToObjectIndex s) in
            Ret (s <| addressToObjectIndex := m |> <| stateObjects := objs |>)
      end
  | resetObjectChange prev => setStateObject s prev
  | suicideChange a prev prevBalance =>
      '(o, s) ← getStateObject s a;
      match o with
      | None => Ret s
      | Some so =>
          so ← setBalance (so <| suicided := prev |>) DefaultBondDenom prevBalance;
          setStateObject s so
      end
  | touchChange _ => Ret s
  | balanceChange a prev =>
      '(o, s) ← getStateObject s a;
      so ← deref o;
      so ← setBalance so DefaultBondDenom prev;
      setStateObject s so
  | nonceChange a prev =>
      '(o, s) ← getStateObject s a;
      so ← deref o;
      setStateObject s (setNonce so prev)
  | codeChange a prevCode prevHash =>
      '(o, s) ← getStateObject s a;
      so ← deref o;
      setStateObject s (setCode so (BytesToHash prevHash) prevCode)
  | storageChange a key prevValue =>
      '(o, s) ← getStateObject s a;
      so ← deref o;
      so ← setState so key prevValue;
      setStateObject s so
  | refundChange prev => Ret (s <| refund := prev |>)
  | addLogChange _ =>
      let l := GetLogs s in
      let s := if length l <=? 1 then DeleteLogs s else SetLogs s (take (length l - 1) l) in
      Ret (s <| logSize := u64 (logSize s - 1) |>)
  | addPreimageChange h =>
      match hashToPreimageIndex s !! h with
      | None => Ret s
      | Some idx =>
          if length (preimages s) =? 1 then
            Ret (s <| hashToPreimageIndex := delete h (hashToPreimageIndex s) |>
                   <| preimages := [] |>)
          else
            let '(ps, m) := remove_shift pre_hash h idx (preimages s) (hashToPreimageIndex s) in
            Ret (s <| hashToPreimageIndex := m |> <| preimages := ps |>)
      end
  | accessListAddAccountChange a =>
      Ret (s <| csdb_accessList := AccessList.DeleteAddress (csdb_accessList s) a |>)
  | accessListAddSlotChange a slot =>
      al ← AccessList.DeleteSlot (csdb_accessList s) a slot;
      Ret (s <| csdb_accessList := al |>)
  end.

(** [for i := len(j.entries) - 1; i >= snapshot; i--]: [n] rounds remain,
    the current index is [snapshot + n - 1]. *)
Fixpoint revert_loop (n snapshot : nat) s : res csdb :=
  match n with
  | O => Ret s
  | S n' =>
      e ← index_or_panic (entries (csdb_journal s) !! (snapshot + n'));
      s ← revert_entry e s;
      j ← undirty (csdb_journal s) e;
      revert_loop n' snapshot (s <| csdb_journal := j |>)
  end.

Definition journal_revert (snapshot : nat) s : res csdb :=
  s ← revert_loop (jlength (csdb_journal s) - snapshot) snapshot s;
  Ret (s <| csdb_journal :=
             (csdb_journal s) <| entries := take snapshot (entries (csdb_journal s)) |> |>).

Definition Snapshot s : Z * csdb :=
  let id := nextRevisionID s in
  (id, s <| nextRevisionID := (id + 1)%Z |>
         <| validRevisions := validRevisions s ++ [mkRevision id (jlength (csdb_journal s))] |>).

Definition RevertToSnapshot s (revID : Z) : res csdb :=
  let revs := validRevisions s in
  let idx := sort_Search (length revs)
               (fun i => match revs !! i with Some r => (revID <=? rev_id r)%Z | None => true end) in
  match revs !! idx with
  | Some r =>
      if (rev_id r =? revID)%Z then
        s ← journal_revert (journalIndex r) s;
        Ret (s <| validRevisions := take idx (validRevisions s) |>)
      else Panic (PanicMsg "revision ID cannot be reverted")
  | None => Panic (PanicMsg "revision ID cannot be reverted")
  end.

(** ** Persistence *)

Definition clearJournalAndRefund s : csdb :=
  s <| csdb_journal := newJournal |> <| validRevisions := [] |> <| refund := 0%Z |>.

(** [updateStateObject]: the error or the database with the account stored. *)
Definition updateStateObject s (so : stateObject C) : (option dberror * csdb * stateObject C) :=
  let newBalance := so_Balance so in
  if (newBalance <? 0)%Z then (Some (ErrInvalidBalance newBalance), s, so)
  else if BlacklistedAddr (acc_Address (account so))
  then (Some (ErrBlacklisted (acc_Address (account so))), s, so)
  else
    let coins := acc_Coins (account so) in
    let balance := AmountOf coins DefaultBondDenom in
    let coins := if (balance =? 0)%Z || negb (balance =? newBalance)%Z
                 then coins_add coins DefaultBondDenom newBalance else coins in
    let so := so <| account := (account so) <| acc_Coins := coins |> |> in
    (None, s <| accounts := SetAccount (accounts s) (account so) |>, so).

Definition deleteStateObject s (so : stateObject C) : csdb * stateObject C :=
  (s <| accounts := RemoveAccount (accounts s) (account so) |>, so <| deleted := true |>).

Definition put_object s (idx : nat) (so : stateObject C) : csdb :=
  s <| stateObjects := alter (fun se => mkStateEntry C (se_address se) so) idx (stateObjects s) |>.

(** One round of the loop of [Finalise], for one dirty address. *)
Definition finalise_one (deleteEmptyObjects : bool) s (addr : Address) : res (option dberror * csdb) :=
  match addressToObjectIndex s !! addr with
  | None => Ret (None, s)
  | Some idx =>
      se ← index_or_panic (stateObjects s !! idx);
      let so := se_object se in
      let mark s := s <| stateObjectsDirty := {[addr]} ∪ stateObjectsDirty s |> in
      if suicided so || (deleteEmptyObjects && so_empty so) then
        let '(s, so) := deleteStateObject s so in
        Ret (None, mark (put_object s idx so))
      else
        '(kv, so) ← commitState (kvstore s) so;
        let s := put_object (s <| kvstore := kv |>) idx so in
        let '(err, s, so) := updateStateObject s so in
        match err with
        | Some _ => Ret (err, s)
        | None => Ret (None, mark (put_object s idx so))
        end
  end.

Fixpoint finalise_loop (deleteEmptyObjects : bool) (ds : list dirty) s : res (option dberror * csdb) :=
  match ds with
  | [] => Ret (None, s)
  | d :: ds' =>
      '(err, s) ← finalise_one deleteEmptyObjects s (dirty_address d);
      match err with
      | Some _ => Ret (err, s)
      | None => finalise_loop deleteEmptyObjects ds' s
      end
  end.

Definition Finalise (deleteEmptyObjects : bool) s : res (option dberror * csdb) :=
  '(err, s) ← finalise_loop deleteEmptyObjects (dirties (csdb_journal s)) s;
  match err with
  | Some _ => Ret (err, s)
  | None => Ret (None, DeleteLogs (clearJournalAndRefund s))
  end.

Definition IntermediateRoot (deleteEmptyObjects : bool) s : res (Hash * option dberror * csdb) :=
  '(err, s) ← Finalise deleteEmptyObjects s; Ret (0%N, err, s).

(** One round of the second loop of [Commit], for the object at [idx]. *)
Definition commit_one (deleteEmptyObjects : bool) s (idx : nat) : res (option dberror * csdb) :=
  se ← index_or_panic (stateObjects s !! idx);
  let so := se_object se in
  let isDirty := bool_decide (se_address se ∈ stateObjectsDirty s) in
  let unmark s := s <| stateObjectsDirty := stateObjectsDirty s ∖ {[se_address se]} |> in
  if suicided so || (isDirty && deleteEmptyObjects && so_empty so) then
    let '(s, so) := deleteStateObject s so in
    Ret (None, unmark (put_object s idx so))
  else if isDirty then
    let '(s, so) :=
      match so_code so with
      | Some _ =>
          if dirtyCode so
          then (s <| kvstore := commitCode (kvstore s) so |>, so <| dirtyCode := false |>)
          else (s, so)
      | None => (s, so)
      end in
    let '(err, s, so) := updateStateObject s so in
    let s := put_object s idx so in
    match err with
    | Some _ => Ret (err, s)
    | None => Ret (None, unmark s)
    end
  else Ret (None, unmark s).

Fixpoint commit_objects (deleteEmptyObjects : bool) (n idx : nat) s : res (option dberror * csdb) :=
  match n with
  | O => Ret (None, s)
  | S n' =>
      '(err, s) ← commit_one deleteEmptyObjects s idx;
      match err with
      | Some _ => Ret (err, s)
      | None => commit_objects deleteEmptyObjects n' (S idx) s
      end
  end.

(** The deferred [clearJournalAndRefund] runs on the error path too. *)
Definition Commit (deleteEmptyObjects : bool) s : res (Hash * option dberror * csdb) :=
  let s := s <| stateObjectsDirty :=
                  foldl (fun X d => {[dirty_address d]} ∪ X) (stateObjectsDirty s)
                        (dirties (csdb_journal s)) |> in
  '(err, s) ← commit_objects deleteEmptyObjects (length (stateObjects s)) 0 s;
  Ret (0%N, err, clearJournalAndRefund s).

(** ** Auxiliary *)

Definition Reset s : csdb :=
  clearJournalAndRefund
    (s <| stateObjects := [] |> <| addressToObjectIndex := ∅ |> <| stateObjectsDirty := ∅ |>
       <| thash := 0%N |> <| bhash := 0%N |> <| txIndex := 0%Z |> <| logSize := 0%Z |>
       <| preimages := [] |> <| hashToPreimageIndex := ∅ |>
       <| csdb_accessList := AccessList.newAccessList |> <| params := None |>).

Definition ClearStateObjects s : csdb :=
  s <| stateObjects := [] |> <| addressToObjectIndex := ∅ |> <| stateObjectsDirty := ∅ |>.

(** [UpdateAccounts] compares the two [*big.Int] balances by pointer; both
    are fresh copies, so the first test holds for every account with a
    valid balance and the object takes the stored account. *)
Definition UpdateAccounts s : csdb :=
  s <| stateObjects :=
    (fun se =>
       match GetAccount (accounts s) (se_address se) with
       | Some (AEth acc) =>
           let amount := AmountOf (acc_Coins acc) DefaultBondDenom in
           let pointersDiffer := true in
           if (pointersDiffer && (0 <=? amount)%Z)
              || negb (Nonce (se_object se) =? acc_Sequence acc)%Z
           then mkStateEntry C (se_address se) ((se_object se) <| account := acc |>)
           else se
       | _ => se
       end) <$> stateObjects s |>.

(** The loop of [ForEachStorage] over the entries of the iterator. *)
Fixpoint for_each_storage {X} (so : stateObject C) (cb : Hash -> Hash -> X -> bool * X)
    (l : list (bytes * bytes)) (x : X) : res X :=
  match l with
  | [] => Ret x
  | (k, v) :: l' =>
      let key := BytesToHash k in
      value ← (match keyToDirtyStorageIndex so !! key with
               | Some idx => st ← index_or_panic (dirtyStorage so !! idx); Ret (State_Value st)
               | None => Ret (BytesToHash v)
               end);
      let '(stop, x) := cb key value x in
      if stop : bool then Ret x else for_each_storage so cb l' x
  end.

Definition ForEachStorage {X} s (addr : Address) (cb : Hash -> Hash -> X -> bool * X) (x : X)
    : res (X * csdb) :=
  '(o, s) ← getStateObject s addr;
  match o with
  | None => Ret (x, s)
  | Some so =>
      x ← for_each_storage so cb (kv_iterator (kvstore s) (AddressStoragePrefix (address so))) x;
      Ret (x, s)
  end.

(** ** Deployment whitelist and contract blocked list *)

Definition SetContractDeploymentWhitelist s (addrList : list bytes) : csdb :=
  s <| kvstore := foldl (fun kv a => kv_set kv (getContractDeploymentWhitelistMemberKey a) [])
                        (kvstore s) addrList |>.
Definition DeleteContractDeploymentWhitelist s (addrList : list bytes) : csdb :=
  s <| kvstore := foldl (fun kv a => kv_delete kv (getContractDeploymentWhitelistMemberKey a))
                        (kvstore s) addrList |>.
Definition GetContractDeploymentWhitelist s : list bytes :=
  (fun kv => splitApprovedDeployerAddress kv.1)
    <$> kv_iterator (kvstore s) KeyPrefixContractDeploymentWhitelist.

Definition SetContractBlockedList s (addrList : list bytes) : csdb :=
  s <| kvstore := foldl (fun kv a => kv_set kv (getContractBlockedListMemberKey a) [])
                        (kvstore s) addrList |>.
Definition DeleteContractBlockedList s (addrList : list bytes) : csdb :=
  s <| kvstore := foldl (fun kv a => kv_delete kv (getContractBlockedListMemberKey a))
                        (kvstore s) addrList |>.
Definition GetContractBlockedList s : list bytes :=
  (fun kv => splitBlockedContractAddress kv.1)
    <$> kv_iterator (kvstore s) KeyPrefixContractBlockedList.

End StateDB.
End StateDB.
