(* ===== verification/StateDBInv.v ===== *)
(** CommitStateDB: invariant, observations and the object cache.

    [lookup_obj] is what [getStateObject] returns, without its caching
    effect.  [wf] is the invariant of the database; [sle] compares two
    databases by everything a caller can observe through the interface of
    the virtual machine.  The lemmas describe how the cache operations
    act on these. *)
From S2P Require Import Prelude.
From S2P Require Import GoSlices.
From S2P Require Import Interfaces.
From S2P Require Import Account.
From S2P Require Import AccessList.
From S2P Require Import StateObject.
From S2P Require Import Journal.
From S2P Require Import StateDB.
From S2P Require Import StateObjectSpec.
Import StateObject Journal StateDB StateObjectSpec.

Module StateDBInv.
Section Inv.
Context {St AK C : Type} `{KVStore St, SdkCoins C, AccountKeeper AK C, Keccak, SdkConfig}.
Context `{!SdkCoinsLaws C, !KeccakLaws, !AccountKeeperLaws AK C}.
Abbreviation csdb := (CommitStateDB St AK C).
Implicit Types (s t : csdb) (so : stateObject C).

(** ** Observations *)

Definition cache s (a : Address) : option (stateObject C) :=
  se_object <$> idx_find (stateObjects s) (addressToObjectIndex s) a.

Definition load (ak : AK) (a : Address) : res (option (stateObject C)) :=
  match GetAccount ak a with
  | None => Ret None
  | Some acc => so ← newStateObject acc; Ret (Some so)
  end.

Definition lookup_obj s (a : Address) : res (option (stateObject C)) :=
  match cache s a with
  | Some so => Ret (if deleted so then None else Some so)
  | None => load (accounts s) a
  end.

(** Everything outside the accounts; the parameters as [GetParams] returns them. *)
Definition aux s :=
  (kvstore s, paramSpace s, default (paramSpace s) (params s), refund s, thash s, bhash s,
   txIndex s, logSize s, logs s, preimages s, hashToPreimageIndex s, csdb_accessList s).

(** Snapshots are compared apart. *)
Definition revs s := (validRevisions s, nextRevisionID s).

Definition obj_le (kv : St) (x y : res (option (stateObject C))) : Prop :=
  match x, y with
  | Ret o, Ret o' => option_Forall2 (so_le kv) o o'
  | Panic p, Panic p' => p = p'
  | _, _ => False
  end.

Record sle s t : Prop := {
  sle_aux : aux s = aux t;
  sle_journal : csdb_journal s = csdb_journal t;
  sle_accounts : ak_equiv (accounts s) (accounts t);
  sle_obj a : obj_le (kvstore s) (lookup_obj s a) (lookup_obj t a);
}.

(** Databases that differ in what is cached only. *)
Record same s t : Prop := {
  same_aux : aux s = aux t;
  same_journal : csdb_journal s = csdb_journal t;
  same_accounts : accounts s = accounts t;
  same_revs : revs s = revs t;
  same_obj a : lookup_obj s a = lookup_obj t a;
}.

(** ** Invariant *)

Definition entry_ok (kv : St) (e : journalEntry C) : Prop :=
  match e with
  | resetObjectChange prev => obj_wf kv prev /\ deleted prev = false
  | _ => True
  end.

(** The part about accounts and their cache. *)
Record owf s : Prop := {
  wf_index : idx_wf se_address (stateObjects s) (addressToObjectIndex s);
  wf_objs a so : cache s a = Some so ->
    obj_wf (kvstore s) so /\ address so = a /\
    (deleted so = true -> GetAccount (accounts s) a = None);
  wf_accounts a acc : GetAccount (accounts s) a = Some (AEth acc) -> account_ok acc;
}.

(** The rest: it depends on [aux] and the journal only. *)
Record swf s : Prop := {
  wf_entries : Forall (entry_ok (kvstore s)) (entries (csdb_journal s));
  wf_journal : jwf (csdb_journal s);
  wf_al : AccessList.al_wf (csdb_accessList s);
  wf_pre : idx_wf pre_hash (preimages s) (hashToPreimageIndex s);
  wf_logSize : (0 <= logSize s < u64_modulus)%Z;
}.

Definition wf s : Prop := owf s /\ swf s.

Lemma swf_aux s t : aux s = aux t -> csdb_journal s = csdb_journal t -> swf s -> swf t.
Proof.
  unfold aux. intros [= Ekv _ _ _ _ _ _ Els _ Epr Ehp Eal] Hj [He Hw Ha Hp Hl].
  split; rewrite <- ?Hj, <- ?Ekv, <- ?Eal, <- ?Epr, <- ?Ehp, <- ?Els; done.
Qed.

Lemma aux_kv s t : aux s = aux t -> kvstore s = kvstore t.
Proof. by unfold aux; intros [= ->]. Qed.

Lemma obj_le_refl kv x : obj_le kv x x.
Proof. destruct x as [[so|]|p]; simpl; try constructor. reflexivity. Qed.

Lemma obj_le_trans kv x y z : obj_le kv x y -> obj_le kv y z -> obj_le kv x z.
Proof.
  destruct x as [o|p], y as [o'|p'], z as [o''|p'']; simpl; try done; [|congruence].
  intros Hxy Hyz. inversion Hxy; subst; inversion Hyz; subst; constructor. etrans; eauto.
Qed.

#[export] Instance sle_preorder : PreOrder sle.
Proof.
  split.
  - intros s. split; try done. intros a. apply obj_le_refl.
  - intros x y z [A1 J1 K1 O1] [A2 J2 K2 O2]. split; try congruence.
    intros a. eapply obj_le_trans; [done|]. rewrite (aux_kv _ _ A1). apply O2.
Qed.

#[export] Instance same_equivalence : Equivalence same.
Proof.
  split.
  - by intros s.
  - by intros x y [A J K R O].
  - intros x y z [A J K R O] [A' J' K' R' O']. split; congruence.
Qed.

Lemma same_le s t : same s t -> sle s t.
Proof.
  intros [A J K R O]. split; try done; [by intros a; rewrite K|].
  intros a. rewrite O. apply obj_le_refl.
Qed.

(** [sle] may be chained with [same] on either side. *)
Lemma sle_same s s' t t' : sle s t -> same s s' -> same t t' -> sle s' t'.
Proof.
  intros [A J K O] [A1 J1 K1 R1 O1] [A2 J2 K2 R2 O2]. split; try congruence.
  intros a. rewrite <- O1, <- O2, <- (aux_kv _ _ A1). apply O.
Qed.

Lemma load_equiv ak ak' a : ak_equiv ak ak' -> load ak a = load ak' a.
Proof. intros Hak. unfold load. by rewrite (Hak a). Qed.

Lemma load_wf kv ak a so :
  (forall a acc, GetAccount ak a = Some (AEth acc) -> account_ok acc) ->
  load ak a = Ret (Some so) ->
  obj_wf kv so /\ address so = a /\ deleted so = false /\ is_Some (GetAccount ak a) /\
  (forall k, ~ cached_key so k).
Proof.
  intros Hok. unfold load. destruct (GetAccount ak a) as [[acc|b]|] eqn:Hg; try done.
  destruct (newStateObject_wf kv acc) as (so' & Hn & Hw & Ha & Hd); [by eapply Hok|].
  rewrite Hn. intros [= <-]. pose proof (GetAccount_address ak a acc Hg).
  split_and!; try done; [congruence|].
  intros k. unfold newStateObject in Hn. injection Hn as <-. unfold cached_key. simpl.
  rewrite lookup_empty. by intros [? ?].
Qed.

(** What a successful lookup says about the object. *)
Lemma lookup_obj_wf s a so : owf s -> lookup_obj s a = Ret (Some so) ->
  obj_wf (kvstore s) so /\ address so = a /\ deleted so = false.
Proof.
  intros [Hi Ho Ha]. unfold lookup_obj. destruct (cache s a) as [so'|] eqn:Hc.
  - destruct (Ho _ _ Hc) as (Hw & Had & _). destruct (deleted so') eqn:Hd; [done|].
    by intros [= <-].
  - intros Hl. destruct (load_wf (kvstore s) (accounts s) a so Ha Hl) as (? & ? & ? & _). done.
Qed.

Lemma lookup_obj_None s a : owf s -> lookup_obj s a = Ret None -> GetAccount (accounts s) a = None.
Proof.
  intros [Hi Ho Ha]. unfold lookup_obj. destruct (cache s a) as [so'|] eqn:Hc.
  - destruct (Ho _ _ Hc) as (Hw & Had & Hdel). destruct (deleted so'); [|done]. auto.
  - unfold load. destruct (GetAccount (accounts s) a) as [acc|]; [|done].
    by destruct (newStateObject acc).
Qed.

(** ** Storing an object in the cache *)

Definition put_cache s (objs : list (stateEntry C)) (m : gmap Address nat) : csdb :=
  s <| stateObjects := objs |> <| addressToObjectIndex := m |>.

Lemma setStateObject_cache s so : owf s -> exists objs m,
  setStateObject s so = Ret (put_cache s objs m) /\ idx_wf se_address objs m /\
  forall a, cache (put_cache s objs m) a = if decide (address so = a) then Some so else cache s a.
Proof.
  intros [Hidx _ _]. unfold setStateObject, cache, put_cache. simpl.
  destruct (addressToObjectIndex s !! address so) as [i|] eqn:Hi.
  - destruct (idx_wf_lookup _ _ _ _ _ Hidx Hi) as (se & Hse & Hk). rewrite Hse. simpl. rewrite Hk.
    assert (addressToObjectIndex s !! se_address (mkStateEntry C (address so) so) = Some i) as Hi' by done.
    exists (<[i := mkStateEntry C (address so) so]> (stateObjects s)), (addressToObjectIndex s).
    split; [by destruct s|]. split; [by apply idx_wf_insert|].
    intros a. rewrite (idx_find_insert se_address _ _ _ _ a Hidx Hi'). simpl. by case_decide.
  - rewrite length_app. simpl. rewrite Nat.add_sub.
    pose proof (idx_wf_snoc se_address _ _ (mkStateEntry C (address so) so) Hidx Hi) as Hidx'.
    do 2 eexists. split; [done|]. split; [done|].
    intros a. rewrite (idx_find_snoc se_address _ _ (mkStateEntry C (address so) so)) by done.
    simpl. by case_decide.
Qed.

(** Storing a live object, whatever the journal and the rest are. *)
Lemma setStateObject_live s so : owf s -> obj_wf (kvstore s) so -> deleted so = false ->
  exists objs m, setStateObject s so = Ret (put_cache s objs m) /\ owf (put_cache s objs m) /\
  forall a, lookup_obj (put_cache s objs m) a
            = if decide (address so = a) then Ret (Some so) else lookup_obj s a.
Proof.
  intros Hwf Hso Hlive. destruct (setStateObject_cache s so Hwf) as (objs & m & Hset & Hidx & Hc).
  destruct Hwf as [_ Ho Ha]. exists objs, m. split; [done|]. split.
  - split; [done| |done]. intros a so'. rewrite Hc. case_decide as Hd; [|by apply Ho].
    intros [= <-]. split_and!; [done|done|congruence].
  - intros a. unfold lookup_obj. rewrite Hc. case_decide; [by rewrite Hlive|done].
Qed.

(** ** [getStateObject] *)

Lemma setError_lookup s err : lookup_obj (setError s err) = lookup_obj s.
Proof. unfold setError. by destruct (dbErr s). Qed.
Lemma setError_wf s err : wf s -> wf (setError s err).
Proof. unfold setError. destruct (dbErr s); [done|]. by intros [[] []]. Qed.

(** [getStateObject] returns [lookup_obj] and changes nothing observable. *)
Lemma getStateObject_spec s a o s' : wf s -> getStateObject s a = Ret (o, s') ->
  lookup_obj s a = Ret o /\ wf s' /\ same s s'.
Proof.
  intros Hwf Hg. pose proof Hwf as [Ho _]. unfold getStateObject in Hg.
  destruct (addressToObjectIndex s !! a) as [i|] eqn:Hi.
  - destruct (idx_wf_lookup _ _ _ _ _ (wf_index s Ho) Hi) as (se & Hse & Hk).
    rewrite Hse in Hg. simpl in Hg.
    assert (lookup_obj s a = Ret (if deleted (se_object se) then None else Some (se_object se))) as Hl
      by (unfold lookup_obj, cache, idx_find; rewrite Hi; simpl; by rewrite Hse).
    destruct (deleted (se_object se)); injection Hg as <- <-; split_and!; done.
  - assert (cache s a = None) as Hc by (unfold cache, idx_find; by rewrite Hi).
    assert (lookup_obj s a = load (accounts s) a) as Hl by (unfold lookup_obj; by rewrite Hc).
    rewrite Hl. unfold load in *. destruct (GetAccount (accounts s) a) as [acc|] eqn:Hacc.
    2:{ injection Hg as <- <-. split_and!; [done|by apply setError_wf|].
        by split; unfold setError; destruct (dbErr s). }
    bind_inv Hg. bind_inv Hg. injection Hg as <- <-. rewrite Hg0 in *. simpl in *.
    destruct (load_wf (kvstore s) (accounts s) a r (wf_accounts s Ho)) as (Hw & Had & Hd & _ & _);
      [unfold load; by rewrite Hacc, Hg0|].
    destruct (setStateObject_live s r Ho Hw Hd) as (objs & m & Hset & Hwf' & Hl').
    assert (r0 = put_cache s objs m) as -> by congruence.
    split_and!; [done|split; [done|]|].
    + eapply swf_aux; [| |apply Hwf]; done.
    + split; try done. intros b. rewrite Hl'. case_decide; [congruence|done].
Qed.

(** ... and panics exactly when the stored account is not an EthAccount. *)
Lemma getStateObject_total s a o : wf s -> lookup_obj s a = Ret o ->
  exists s', getStateObject s a = Ret (o, s').
Proof.
  intros Hwf Hl. pose proof Hwf as [Ho _]. unfold getStateObject.
  destruct (addressToObjectIndex s !! a) as [i|] eqn:Hi.
  - destruct (idx_wf_lookup _ _ _ _ _ (wf_index s Ho) Hi) as (se & Hse & Hk). rewrite Hse.
    unfold lookup_obj, cache, idx_find in Hl. rewrite Hi in Hl. simpl in *. rewrite Hse in Hl.
    simpl in Hl. injection Hl as <-. destruct (deleted _); eauto.
  - assert (cache s a = None) as Hc by (unfold cache, idx_find; by rewrite Hi).
    unfold lookup_obj in Hl. rewrite Hc in Hl. pose proof Hl as Hl0. unfold load in Hl.
    destruct (GetAccount (accounts s) a) as [acc|] eqn:Hacc.
    2:{ injection Hl as <-. eauto. }
    destruct (newStateObject acc) as [so|] eqn:Hn; [|done]. injection Hl as <-. simpl.
    destruct (load_wf (kvstore s) (accounts s) a so (wf_accounts s Ho) Hl0) as (Hw & Had & Hd & _).
    destruct (setStateObject_live s so Ho Hw Hd) as (objs & m & -> & _). simpl. eauto.
Qed.

End Inv.
End StateDBInv.
