(* ===== verification/StateDBRevert.v ===== *)
(** Snapshots and reverts of CommitStateDB.

    [journal.revert] undoes entries newest first.  [pop] is one round of
    that loop followed by dropping the entry; a database [s'] is
    [undoable] to [s] when some number of pops leads from [s'] to a
    database that shows the same as [s].  Every operation of the virtual
    machine's interface is shown to be undoable, undoability composes,
    and [RevertToSnapshot] performs exactly the pops that are needed. *)
From S2P Require Import Prelude.
From S2P Require Import GoSlices.
From S2P Require Import Interfaces.
From S2P Require Import Account.
From S2P Require Import AccessList.
From S2P Require Import StateObject.
From S2P Require Import Journal.
From S2P Require Import StateDB.
From S2P Require Import StateObjectSpec.
From S2P Require Import StateDBInv.
Import StateObject Journal StateDB StateObjectSpec StateDBInv.

Module StateDBRevert.
Section Revert.
Context {St AK C : Type} `{KVStore St, SdkCoins C, AccountKeeper AK C, Keccak, SdkConfig}.
Abbreviation csdb := (CommitStateDB St AK C).
Implicit Types (s t : csdb) (so : stateObject C) (j : journal C) (e : journalEntry C) (kv : St).

(** ** One undone entry *)

Definition with_journal s j : csdb := s <| csdb_journal := j |>.
Definition with_entries j es : journal C := j <| entries := es |>.

Definition trunc (n : nat) s : csdb :=
  with_journal s (with_entries (csdb_journal s) (take n (entries (csdb_journal s)))).

Definition pop s : res csdb :=
  e ← index_or_panic (last (entries (csdb_journal s)));
  s ← revert_entry e s;
  j ← undirty (csdb_journal s) e;
  Ret (with_journal s (with_entries j (take (jlength j - 1) (entries j)))).

Fixpoint pop_n (n : nat) s : res csdb :=
  match n with O => Ret s | S n' => s ← pop s; pop_n n' s end.

Lemma pop_n_add n m s : pop_n (n + m) s = (s ← pop_n n s; pop_n m s).
Proof. revert s; induction n as [|n IH]; intros s; simpl; [done|]. destruct (pop s); [apply IH|done]. Qed.

(** ** Reverting an entry leaves the journal alone *)

Lemma setStateObject_journal s so j :
  setStateObject (with_journal s j) so = (fun s => with_journal s j) <$> setStateObject s so.
Proof.
  unfold setStateObject. simpl. destruct (addressToObjectIndex s !! address so); [|done].
  by destruct (stateObjects s !! _).
Qed.

Lemma getStateObject_journal s a j :
  getStateObject (with_journal s j) a = (fun '(o, s) => (o, with_journal s j)) <$> getStateObject s a.
Proof.
  unfold getStateObject. simpl. destruct (addressToObjectIndex s !! a).
  - destruct (stateObjects s !! _); [simpl|done]. by case_match.
  - destruct (GetAccount (accounts s) a) as [acc|]; [|unfold setError; simpl; by destruct (dbErr s)].
    destruct (newStateObject acc); [simpl|done]. rewrite setStateObject_journal.
    by destruct (setStateObject s _).
Qed.

Lemma revert_entry_journal e s j :
  revert_entry e (with_journal s j) = (fun s => with_journal s j) <$> revert_entry e s.
Proof.
  destruct e; cbn [revert_entry]; rewrite ?getStateObject_journal, ?setStateObject_journal;
    try (destruct (getStateObject s _) as [[[so|] s1]|]; [simpl..|done];
         rewrite ?setStateObject_journal; try done;
         try (destruct (setBalance _ _ _); [simpl; apply setStateObject_journal|done]);
         try (destruct (setState _ _ _); [simpl; apply setStateObject_journal|done]));
    try done; simpl.
  - destruct (addressToObjectIndex s !! account); [|done]. case_match; [done|].
    by destruct (remove_shift _ _ _ _ _).
  - unfold GetLogs, DeleteLogs, SetLogs. simpl. by destruct (length (logs s) <=? 1).
  - destruct (hashToPreimageIndex s !! hash); [|done]. case_match; [done|].
    by destruct (remove_shift _ _ _ _ _).
  - by destruct (AccessList.DeleteSlot _ _ _).
Qed.

Lemma with_journal_id s : with_journal s (csdb_journal s) = s.
Proof. by destruct s. Qed.

Lemma revert_entry_keeps e s s' : revert_entry e s = Ret s' -> csdb_journal s' = csdb_journal s.
Proof.
  intros Hr. pose proof (revert_entry_journal e s (csdb_journal s)) as Hj.
  rewrite with_journal_id, Hr in Hj. injection Hj as Hj. by rewrite Hj.
Qed.

Lemma undirty_entries j e es :
  undirty (with_entries j es) e = (fun j => with_entries j es) <$> undirty j e.
Proof.
  unfold undirty. destruct (dirtied e) as [a|]; [|done].
  assert (forall j, getDirty (with_entries j es) a = getDirty j a) as Hg by done.
  assert (forall j, deleteDirty (with_entries j es) a = (fun j => with_entries j es) <$> deleteDirty j a) as Hd.
  { intros j'. unfold deleteDirty. simpl. destruct (addressToJournalIndex j' !! a); [|done]. by case_match. }
  assert (substractDirty (with_entries j es) a = (fun j => with_entries j es) <$> substractDirty j a) as ->.
  { unfold substractDirty, bump. simpl. destruct (addressToJournalIndex j !! a) as [i|]; [|done].
    destruct (dirties j !! i); [simpl|done]. by case_match. }
  destruct (substractDirty j a) as [j1|]; [simpl|done]. rewrite Hg, Hd.
  destruct (getDirty j1 a); [simpl|done]. by case_match.
Qed.

Lemma with_entries_id j : with_entries j (entries j) = j.
Proof. by destruct j. Qed.

Lemma undirty_keeps j e j' : undirty j e = Ret j' -> entries j' = entries j.
Proof.
  intros Hu. pose proof (undirty_entries j e (entries j)) as Hj.
  rewrite with_entries_id, Hu in Hj. injection Hj as Hj. by rewrite Hj.
Qed.

(** ** [journal.revert] is a sequence of pops *)

(** The loop looks at the first entries only. *)
Lemma revert_loop_entries n snap s es :
  snap + n <= length es -> take (snap + n) es = take (snap + n) (entries (csdb_journal s)) ->
  revert_loop n snap (with_journal s (with_entries (csdb_journal s) es))
  = (fun s => with_journal s (with_entries (csdb_journal s) es)) <$> revert_loop n snap s.
Proof.
  revert s. induction n as [|n IH]; intros s Hlen Htake; cbn [revert_loop]; [done|].
  assert (es !! (snap + n) = entries (csdb_journal s) !! (snap + n)) as Hat.
  { rewrite <- (lookup_take_lt es (snap + S n) (snap + n)), Htake by lia. apply lookup_take_lt. lia. }
  change (entries (csdb_journal (with_journal s (with_entries (csdb_journal s) es)))) with es. rewrite Hat.
  destruct (entries (csdb_journal s) !! (snap + n)) as [e|]; [|done].
  cbn [index_or_panic mbind res_bind]. rewrite revert_entry_journal.
  destruct (revert_entry e s) as [s1|] eqn:Hr; [|done]. cbn [fmap res_fmap mbind res_bind].
  pose proof (revert_entry_keeps _ _ _ Hr) as Hj.
  change (csdb_journal (with_journal s1 (with_entries (csdb_journal s) es)))
    with (with_entries (csdb_journal s) es).
  rewrite <- Hj, undirty_entries.
  destruct (undirty (csdb_journal s1) e) as [j1|] eqn:Hu; [|done].
  cbn [fmap res_fmap mbind res_bind]. pose proof (undirty_keeps _ _ _ Hu) as He.
  specialize (IH (with_journal s1 j1)). cbn [csdb_journal with_journal set] in IH.
  refine (eq_trans _ (IH _ _)); [done|lia|].
  rewrite He, Hj. assert (snap + n = (snap + n) `min` (snap + S n)) as -> by lia.
  by rewrite <- !firstn_firstn, Htake.
Qed.

Lemma revert_loop_keeps n snap s s' : snap + n <= jlength (csdb_journal s) ->
  revert_loop n snap s = Ret s' -> entries (csdb_journal s') = entries (csdb_journal s).
Proof.
  intros Hlen Hr. pose proof (revert_loop_entries n snap s (entries (csdb_journal s)) Hlen eq_refl) as Hs.
  rewrite with_entries_id, with_journal_id, Hr in Hs. injection Hs as Hs. by rewrite Hs.
Qed.

Lemma journal_revert_pop_n n snap s : snap + n = jlength (csdb_journal s) ->
  journal_revert snap s = pop_n n s.
Proof.
  revert s. induction n as [|n IH]; intros s Hlen; unfold journal_revert; rewrite <- Hlen.
  - rewrite Nat.add_0_r, Nat.sub_diag. simpl. unfold jlength in Hlen.
    rewrite take_ge by lia. rewrite Nat.add_0_r in *. by destruct s as [? ? ? ? ? ? ? ? ? ? ? ? ? ? ? []].
  - replace (snap + S n - snap) with (S n) by lia. cbn [revert_loop pop_n]. unfold pop.
    assert (last (entries (csdb_journal s)) = entries (csdb_journal s) !! (snap + n)) as ->
      by (rewrite last_lookup; f_equal; unfold jlength in Hlen; lia).
    destruct (entries (csdb_journal s) !! (snap + n)) as [e|]; [|done].
    cbn [index_or_panic mbind res_bind].
    destruct (revert_entry e s) as [s1|] eqn:Hr; [|done]. cbn [mbind res_bind].
    destruct (undirty (csdb_journal s1) e) as [j1|] eqn:Hu; [|done]. cbn [mbind res_bind].
    assert (entries j1 = entries (csdb_journal s)) as He
      by (rewrite (undirty_keeps _ _ _ Hu); by rewrite (revert_entry_keeps _ _ _ Hr)).
    unfold jlength in *. rewrite <- He in Hlen. rewrite <- Hlen.
    replace (snap + S n - 1) with (snap + n) by lia.
    set (s2 := with_journal s1 j1). set (es := take (snap + n) (entries j1)).
    assert (length es = snap + n) as Hes by (unfold es; rewrite length_take; lia).
    transitivity (s ← revert_loop n snap s2; Ret (trunc snap s)); [done|].
    transitivity (s ← revert_loop n snap (with_journal s2 (with_entries (csdb_journal s2) es));
                  Ret (trunc snap s)).
    2:{ transitivity (journal_revert snap (with_journal s1 (with_entries j1 es))); [|apply IH; cbn; lia].
        unfold journal_revert, jlength. cbn [csdb_journal entries with_journal with_entries set].
        by replace (length es - snap) with n by lia. }
    rewrite revert_loop_entries; [|lia|unfold es; rewrite take_take; cbn; by rewrite Nat.min_id].
    destruct (revert_loop n snap s2) as [s3|] eqn:Hl; [|done]. cbn [fmap res_fmap mbind res_bind].
    apply revert_loop_keeps in Hl; [|unfold jlength; cbn; lia]. cbn in Hl.
    unfold trunc. cbn [csdb_journal entries with_journal with_entries set]. rewrite Hl.
    unfold es. rewrite take_take. by replace (snap `min` (snap + n)) with snap by lia.
Qed.

(** ** Reverting the entries that belong to one account *)

(** The account an entry belongs to and what its revert does to the object. *)
Definition entry_fun e : option (Address * (stateObject C -> res (stateObject C))) :=
  match e with
  | suicideChange a prev bal =>
      Some (a, fun so => setBalance (with_suicided so prev) DefaultBondDenom bal)
  | balanceChange a prev => Some (a, fun so => setBalance so DefaultBondDenom prev)
  | nonceChange a prev => Some (a, fun so => Ret (setNonce so prev))
  | codeChange a prevCode prevHash => Some (a, fun so => Ret (setCode so (BytesToHash prevHash) prevCode))
  | storageChange a key prev => Some (a, fun so => setState so key prev)
  | _ => None
  end.

Definition revert_obj (a : Address) (f : stateObject C -> res (stateObject C)) s : res csdb :=
  '(o, s) ← getStateObject s a;
  so ← deref o;
  so ← f so;
  setStateObject s so.

Lemma revert_entry_obj e a f s o s0 : entry_fun e = Some (a, f) ->
  getStateObject s a = Ret (Some o, s0) -> revert_entry e s = revert_obj a f s.
Proof.
  intros He Hg. destruct e; simpl in He; simplify_eq; unfold revert_obj; cbn [revert_entry];
    rewrite Hg; done.
Qed.

Context `{!SdkCoinsLaws C, !KeccakLaws, !AccountKeeperLaws AK C}.

Lemma setState_keeps kv so k v so' : obj_wf kv so -> setState so k v = Ret so' ->
  address so' = address so /\ deleted so' = deleted so /\ dirty_value so' k = Some v /\
  keyToOriginStorageIndex so' = keyToOriginStorageIndex so.
Proof.
  intros Hwf. unfold setState, dirty_value, idx_find.
  destruct (dirty_value_index kv so k Hwf) as [[Hi Hdv]|(i & st & Hi & Hst & Hk & Hdv)]; rewrite Hi.
  - intros [= <-]. simpl. rewrite lookup_insert_eq, length_app. simpl. rewrite Nat.add_sub.
    by rewrite lookup_app_r, Nat.sub_diag by lia.
  - rewrite Hst. intros [= <-]. simpl. rewrite Hi. simpl.
    by rewrite list_lookup_insert_eq by (by eapply lookup_lt_Some).
Qed.

Lemma entry_fun_keeps kv e a f so so' : entry_fun e = Some (a, f) -> obj_wf kv so ->
  f so = Ret so' -> address so' = address so /\ deleted so' = deleted so.
Proof.
  intros He Hwf Hf. destruct e; try discriminate He; injection He as <- <-; simpl in Hf.
  all: try (apply setBalance_Ret in Hf as (_ & c & -> & _); done).
  all: try (by injection Hf as <-).
  apply (setState_keeps kv) in Hf as (? & ? & _); done.
Qed.

(** Reverting respects [so_le], and keeps the object well formed as soon
    as it does so for the object with fewer cached slots. *)
Lemma entry_fun_le kv e a f so (t : stateObject C) so' : entry_fun e = Some (a, f) ->
  so_le kv so t -> obj_wf kv so -> obj_wf kv t -> f so = Ret so' -> obj_wf kv so' ->
  exists t' : stateObject C, f t = Ret t' /\ so_le kv so' t' /\ obj_wf kv t'.
Proof.
  intros He Hle Hwf Hwft Hf Hwf'.
  assert (forall so (t : stateObject C) bal so', so_le kv so t -> obj_wf kv t ->
    setBalance so DefaultBondDenom bal = Ret so' ->
    exists t' : stateObject C, setBalance t DefaultBondDenom bal = Ret t' /\ so_le kv so' t' /\ obj_wf kv t') as Hbal.
  { intros x y bal x' Hxy Hy Hx. apply setBalance_Ret in Hx as (Hb & c & -> & Hc).
    destruct (setBalance_ok y DefaultBondDenom bal Hb) as (c' & -> & Hc').
    eexists. split; [done|]. split; [|by apply with_coins_wf].
    apply with_coins_le; [done|]. intros d. rewrite Hc, Hc'. case_decide; [done|].
    apply (sl_coins _ _ _ Hxy). }
  destruct e; try discriminate He; injection He as <- <-; simpl in Hf |- *.
  - eapply Hbal; [|by apply with_suicided_wf|done]. by apply with_suicided_le.
  - by eapply Hbal.
  - injection Hf as <-. eexists. split; [done|]. split; [by apply setNonce_le|by apply setNonce_wf].
  - destruct (setState_keeps kv so key prevValue so' Hwf Hf) as (_ & _ & Hdv & Hor).
    destruct (ow_cached kv so' Hwf' _ _ Hdv) as [Hk Hv].
    unfold cached_key in Hk. rewrite Hor in Hk.
    destruct (setState_spec kv t key prevValue Hwft (sl_cached _ _ _ Hle _ Hk) Hv) as (t' & Ht & Hwt & _).
    exists t'. split; [done|]. split; [|done]. by eapply (setState_le kv so t).
  - injection Hf as <-. eexists. split; [done|]. split; [by apply setCode_le|].
    apply setCode_wf; [done|]. intros ->. pose proof (ow_code kv _ Hwf' eq_refl) as Hl.
    rewrite code_of_setCode in Hl. simpl in Hl. case_bool_decide; auto.
Qed.

Lemma revert_obj_le e a f s t s' : entry_fun e = Some (a, f) -> sle s t -> wf s -> wf t ->
  revert_obj a f s = Ret s' -> owf s' ->
  exists t', revert_obj a f t = Ret t' /\ sle s' t' /\ owf t'.
Proof.
  intros He Hle Hwf Hwft Hr Howf. unfold revert_obj in *.
  bind_inv Hr. destruct r as [o s0]. bind_inv Hr. destruct o as [so|]; [|done].
  injection Hr1 as <-. bind_inv Hr. rename r into so'.
  destruct (getStateObject_spec _ _ _ _ Hwf Hr0) as (Hls & Hwf0 & Hs0).
  pose proof (sle_obj _ _ Hle a) as Ho. rewrite Hls in Ho.
  destruct (lookup_obj t a) as [[to|]|] eqn:Hlt; [|by inversion Ho|done].
  inversion Ho as [x y Hso|]; subst x y.
  destruct (getStateObject_total t a (Some to) Hwft Hlt) as (t0 & Hgt).
  destruct (getStateObject_spec _ _ _ _ Hwft Hgt) as (_ & Hwt0 & Ht0).
  destruct (lookup_obj_wf s a so (proj1 Hwf) Hls) as (Hwso & Haso & Hdso).
  destruct (lookup_obj_wf t a to (proj1 Hwft) Hlt) as (Hwto & Hato & Hdto).
  pose proof (aux_kv _ _ (sle_aux _ _ Hle)) as Hkv.
  pose proof (aux_kv _ _ (same_aux _ _ Hs0)) as Hkv0.
  pose proof (aux_kv _ _ (same_aux _ _ Ht0)) as Hkvt.
  destruct (entry_fun_keeps _ _ _ _ _ _ He Hwso Hr1) as [Ha' Hd'].
  assert (obj_wf (kvstore s) so') as Hwso'.
  { destruct (setStateObject_cache s0 so' (proj1 Hwf0)) as (objs & m & Hset & _ & Hc).
    assert (s' = put_cache s0 objs m) as -> by congruence. rewrite Hkv0.
    apply (wf_objs _ Howf (address so') so'). by rewrite Hc, decide_True. }
  destruct (entry_fun_le (kvstore s) e a f so to so' He Hso Hwso) as (to' & Hft & Hso' & Hwto');
    [by rewrite Hkv|done|done|].
  destruct (entry_fun_keeps _ _ _ _ _ _ He Hwto Hft) as [Hat' Hdt'].
  destruct (setStateObject_live s0 so' (proj1 Hwf0)) as (objs & m & Hset & _ & Hl); [congruence|congruence|].
  destruct (setStateObject_live t0 to' (proj1 Hwt0)) as (objst & mt & Hsett & Howft & Hltt);
    [congruence|congruence|].
  rewrite Hgt. simpl. rewrite Hft. simpl. exists (put_cache t0 objst mt). split; [done|]. split; [|done].
  assert (s' = put_cache s0 objs m) as -> by congruence.
  destruct (sle_same _ _ _ _ Hle Hs0 Ht0) as [A J K O].
  split; try done. intros b. rewrite Hl, Hltt. cbn [kvstore put_cache set].
  replace (address to') with a by congruence. replace (address so') with a by congruence.
  case_decide; [|apply O]. rewrite <- Hkv0. by constructor.
Qed.

(** ** Reverting the creation of an account *)

(** The branch for a one-element slice is an instance of the general one. *)
Lemma remove_single {V} (key : V -> N) (a : N) i (l : list V) (m : gmap N nat) :
  length l = 1 -> i < length l -> remove_shift key a i l m = ([], delete a m).
Proof. by destruct l as [|x [|y l]]. Qed.

Lemma revert_create_eq s a i : owf s -> addressToObjectIndex s !! a = Some i ->
  let r := remove_shift se_address a i (stateObjects s) (addressToObjectIndex s) in
  revert_entry (createObjectChange a) s
  = Ret (put_cache (s <| stateObjectsDirty := stateObjectsDirty s ∖ {[a]} |>) r.1 r.2).
Proof.
  intros Hwf Hi r. pose proof (idx_wf_lt _ _ _ _ _ (wf_index s Hwf) Hi) as Hlt.
  cbn. rewrite Hi. destruct (Nat.eqb_spec (length (stateObjects s)) 1) as [Hone|].
  - unfold r. rewrite remove_single; done.
  - unfold r. by destruct (remove_shift _ _ _ _ _).
Qed.

Lemma revert_create s a : owf s -> exists objs m,
  let s' := put_cache (s <| stateObjectsDirty := stateObjectsDirty s ∖ {[a]} |>) objs m in
  revert_entry (createObjectChange a) s = Ret s' /\ owf s' /\
  forall b, lookup_obj s' b = if decide (a = b) then load (accounts s) a else lookup_obj s b.
Proof.
  intros Hwf. pose proof Hwf as [Hidx Ho Ha].
  destruct (addressToObjectIndex s !! a) as [i|] eqn:Hi.
  - pose proof (remove_shift_wf _ _ _ _ _ Hidx Hi) as Hw.
    pose proof (fun b => remove_shift_find _ _ _ _ _ b Hidx Hi) as Hf.
    do 2 eexists. split; [by apply revert_create_eq|].
    assert (forall b, cache (put_cache (s <| stateObjectsDirty := stateObjectsDirty s ∖ {[a]} |>)
       (remove_shift se_address a i (stateObjects s) (addressToObjectIndex s)).1
       (remove_shift se_address a i (stateObjects s) (addressToObjectIndex s)).2) b
       = if decide (a = b) then None else cache s b) as Hc.
    { intros b. unfold cache. cbn [stateObjects addressToObjectIndex put_cache set]. rewrite Hf.
      by case_decide. }
    split; [split; [done| |done]|].
    + intros b so. rewrite Hc. case_decide; [done|]. apply Ho.
    + intros b. unfold lookup_obj. rewrite Hc. by case_decide; [subst|].
  - exists (stateObjects s), (addressToObjectIndex s). split; [cbn; by rewrite Hi|]. split; [done|].
    intros b. case_decide as Hab; [subst b|done]. unfold lookup_obj, cache, idx_find. simpl.
    by rewrite Hi.
Qed.

(** ** Reverting respects [sle] *)

(** Entries that touch nothing but [aux]. *)
Definition aux_entry e : bool :=
  match e with
  | touchChange _ | refundChange _ | addLogChange _ | addPreimageChange _
  | accessListAddAccountChange _ | accessListAddSlotChange _ _ => true
  | _ => false
  end.

Lemma aux_entry_le e s t s' : aux_entry e = true -> sle s t -> owf t -> revert_entry e s = Ret s' ->
  exists t', revert_entry e t = Ret t' /\ sle s' t' /\ owf t'.
Proof.
  intros He [A J K O] Hwft Hr. pose proof A as A0. unfold aux in A0.
  injection A0 as E1 E2 E3 E4 E5 E6 E7 E8 E9 E10 E11 E12.
  assert (forall s' t', aux s' = aux t' -> csdb_journal s' = csdb_journal s ->
    csdb_journal t' = csdb_journal t -> accounts s' = accounts s -> accounts t' = accounts t ->
    lookup_obj s' = lookup_obj s -> lookup_obj t' = lookup_obj t -> kvstore s' = kvstore s ->
    sle s' t') as Hsle.
  { intros x y HA HJ1 HJ2 HK1 HK2 HL1 HL2 Hkv. split; [done|congruence| |].
    - intros a. rewrite HK1, HK2. apply K.
    - intros a. rewrite HL1, HL2, Hkv. apply O. }
  assert (forall t', stateObjects t' = stateObjects t -> addressToObjectIndex t' = addressToObjectIndex t ->
    accounts t' = accounts t -> kvstore t' = kvstore t -> owf t') as Howf.
  { intros t' Ho Hi Ha Hk. destruct Hwft as [W1 W2 W3]. unfold cache in *.
    split; unfold cache; rewrite ?Ho, ?Hi, ?Ha, ?Hk; done. }
  destruct e; try done; cbn [revert_entry] in Hr |- *.
  all: unfold GetLogs, DeleteLogs, SetLogs in *; rewrite <- ?E9, <- ?E10, <- ?E11, <- ?E12.
  all: repeat first [ progress case_match | bind_inv Hr; rewrite Hr0 ]; injection Hr as <-.
  all: eexists; (split; [reflexivity|]); split; [apply Hsle|apply Howf]; try done.
  all: unfold aux; simpl; congruence.
Qed.

Lemma create_le s t a s' : sle s t -> owf s -> owf t ->
  revert_entry (createObjectChange a) s = Ret s' ->
  exists t', revert_entry (createObjectChange a) t = Ret t' /\ sle s' t' /\ owf t'.
Proof.
  intros [A J K O] Hwf Hwft Hr.
  destruct (revert_create s a Hwf) as (objs & m & Hs & _ & Hl).
  destruct (revert_create t a Hwft) as (objst & mt & Ht & Howt & Hlt).
  rewrite Hs in Hr. injection Hr as <-. eexists. split; [done|]. split; [|done].
  split; try done. intros b. rewrite Hl, Hlt. cbn [kvstore put_cache set].
  case_decide; [|apply O]. rewrite (load_equiv _ _ _ K). apply obj_le_refl.
Qed.

Lemma reset_le s t prev s' : sle s t -> owf s -> owf t -> entry_ok (kvstore s) (resetObjectChange prev) ->
  revert_entry (resetObjectChange prev) s = Ret s' ->
  exists t', revert_entry (resetObjectChange prev) t = Ret t' /\ sle s' t' /\ owf t'.
Proof.
  intros [A J K O] Hwf Hwft [Hw Hd] Hr. pose proof (aux_kv _ _ A) as Hkv. cbn [revert_entry] in *.
  destruct (setStateObject_live s prev Hwf Hw Hd) as (objs & m & Hs & _ & Hl).
  destruct (setStateObject_live t prev Hwft) as (objst & mt & Ht & Howt & Hlt); [by rewrite <- Hkv|done|].
  rewrite Hs in Hr. injection Hr as <-. eexists. split; [done|]. split; [|done].
  split; try done. intros b. rewrite Hl, Hlt. cbn [kvstore put_cache set].
  case_decide; [|apply O]. apply obj_le_refl.
Qed.

(** A revert that succeeds does the same on a database that shows the same. *)
Lemma revert_le e s t s' : sle s t -> wf s -> wf t -> entry_ok (kvstore s) e ->
  revert_entry e s = Ret s' -> owf s' ->
  exists t', revert_entry e t = Ret t' /\ sle s' t' /\ owf t'.
Proof.
  intros Hle Hwf Hwft Hok Hr Howf.
  destruct (entry_fun e) as [[a f]|] eqn:He.
  - destruct (getStateObject s a) as [[[so|] s0]|] eqn:Hg.
    + rewrite (revert_entry_obj _ _ _ _ _ _ He Hg) in Hr.
      destruct (getStateObject_spec _ _ _ _ Hwf Hg) as (Hls & _).
      pose proof (sle_obj _ _ Hle a) as Ho. rewrite Hls in Ho.
      destruct (lookup_obj t a) as [[to|]|] eqn:Hlt; [|by inversion Ho|done].
      destruct (getStateObject_total t a (Some to) Hwft Hlt) as (t0 & Hgt).
      rewrite (revert_entry_obj _ _ _ _ _ _ He Hgt). by eapply revert_obj_le.
    + destruct (getStateObject_spec _ _ _ _ Hwf Hg) as (Hls & _ & Hs0).
      destruct e; try discriminate He; injection He as <- <-; cbn [revert_entry] in *; rewrite Hg in Hr; try done.
      injection Hr as <-. pose proof (sle_obj _ _ Hle account) as Ho. rewrite Hls in Ho.
      destruct (lookup_obj t account) as [[to|]|] eqn:Hlt; [by inversion Ho| |done].
      destruct (getStateObject_total t account None Hwft Hlt) as (t0 & Hgt). rewrite Hgt.
      destruct (getStateObject_spec _ _ _ _ Hwft Hgt) as (_ & [Hwt0 _] & Ht0).
      exists t0. split; [done|]. split; [by eapply sle_same|done].
    + destruct e; try discriminate He; injection He as <- <-; cbn [revert_entry] in *; by rewrite Hg in Hr.
  - destruct Hwf as [Hwf _], Hwft as [Hwft _].
    destruct e; try discriminate He; try (by apply (aux_entry_le _ s)); [by eapply create_le|by eapply reset_le].
Qed.

Lemma with_journal_lookup s j : lookup_obj (with_journal s j) = lookup_obj s.
Proof. done. Qed.
Lemma with_journal_owf s j : owf (with_journal s j) <-> owf s.
Proof. split; by intros []. Qed.
Lemma with_journal_le s t j : sle s t -> sle (with_journal s j) (with_journal t j).
Proof. by intros []. Qed.

Lemma pop_le s t s1 : sle s t -> wf s -> wf t -> pop s = Ret s1 -> wf s1 ->
  exists t1, pop t = Ret t1 /\ sle s1 t1 /\ wf t1.
Proof.
  intros Hle Hwf Hwft Hp [Howf1 Hswf1]. unfold pop in *. rewrite <- (sle_journal _ _ Hle).
  bind_inv Hp. rename r into e. rewrite Hp0. simpl. bind_inv Hp. rename r into s2.
  bind_inv Hp. rename r into j2. injection Hp as <-.
  assert (entry_ok (kvstore s) e) as Hok.
  { destruct (last _) as [e'|] eqn:Hlast; [|done]. injection Hp0 as <-.
    apply last_Some in Hlast as [es Hes]. pose proof (wf_entries _ (proj2 Hwf)) as Hall.
    rewrite Hes in Hall. apply Forall_app in Hall as [_ Hall]. by inversion Hall. }
  apply with_journal_owf in Howf1 as Howf2.
  destruct (revert_le e s t s2 Hle Hwf Hwft Hok Hp1 Howf2) as (t2 & Ht2 & Hle2 & Howt2).
  rewrite Ht2. simpl. rewrite <- (sle_journal _ _ Hle2), Hp2. simpl.
  eexists. split; [done|]. pose proof (with_journal_le s2 t2
    (with_entries j2 (take (jlength j2 - 1) (entries j2))) Hle2) as Hle1.
  split; [done|]. split; [by apply with_journal_owf|]. by eapply swf_aux; [apply Hle1|apply Hle1|].
Qed.

(** A run of pops whose intermediate states are well formed. *)
Fixpoint pops (n : nat) s s' : Prop :=
  match n with
  | O => s' = s
  | S n' => exists s1, pop s = Ret s1 /\ wf s1 /\ pops n' s1 s'
  end.

Lemma pops_pop_n n s s' : pops n s s' -> pop_n n s = Ret s'.
Proof.
  revert s. induction n as [|n IH]; simpl; intros s; [by intros ->|].
  intros (s1 & Hp & _ & Hs). rewrite Hp. simpl. auto.
Qed.

Lemma pops_add n m s s' s'' : pops n s s' -> pops m s' s'' -> pops (n + m) s s''.
Proof.
  revert s. induction n as [|n IH]; simpl; intros s; [by intros ->|].
  intros (s1 & Hp & Hw & Hs) Hm. eauto.
Qed.

Lemma pops_split n m s s'' : pops (n + m) s s'' -> exists s', pops n s s' /\ pops m s' s''.
Proof.
  revert s. induction n as [|n IH]; simpl; intros s; [eauto|].
  intros (s1 & Hp & Hw & (s' & H1' & H2')%IH). eauto 6.
Qed.

Lemma pops_wf n s s' : wf s -> pops n s s' -> wf s'.
Proof. revert s. induction n as [|n IH]; simpl; intros s; [by intros ? ->|]. intros _ (s1 & _ & Hw & Hs). eauto. Qed.

Lemma pops_le n s t s' : sle s t -> wf s -> wf t -> pops n s s' ->
  exists t', pops n t t' /\ sle s' t' /\ wf t'.
Proof.
  revert s t. induction n as [|n IH]; simpl; intros s t Hle Hwf Hwft; [intros ->; by exists t|].
  intros (s1 & Hp & Hw & Hs). destruct (pop_le s t s1 Hle Hwf Hwft Hp Hw) as (t1 & Ht1 & Hle1 & Hwt1).
  destruct (IH s1 t1 Hle1 Hw Hwt1 Hs) as (t' & Ht' & ? & ?).
  exists t'. split_and!; [|done..]. by exists t1.
Qed.

Lemma pop_length s s' : pop s = Ret s' -> jlength (csdb_journal s) = S (jlength (csdb_journal s')).
Proof.
  unfold pop. intros Hp. bind_inv Hp. bind_inv Hp. bind_inv Hp. injection Hp as <-.
  cbn. rewrite length_take. rewrite (undirty_keeps _ _ _ Hp2), (revert_entry_keeps _ _ _ Hp1).
  unfold jlength. rewrite (undirty_keeps _ _ _ Hp2), (revert_entry_keeps _ _ _ Hp1).
  destruct (entries (csdb_journal s)); simpl in *; [done|lia].
Qed.

Lemma pops_length n s s' : pops n s s' -> jlength (csdb_journal s) = n + jlength (csdb_journal s').
Proof.
  revert s. induction n as [|n IH]; simpl; intros s; [by intros ->|].
  intros (s1 & Hp & _ & Hs). rewrite (pop_length _ _ Hp), (IH _ Hs). done.
Qed.

(** ** Undoable changes *)

Definition undoable s s' : Prop := wf s' /\ exists n t, pops n s' t /\ sle s t.

Lemma undoable_le s s' : wf s' -> sle s s' -> undoable s s'.
Proof. intros Hw Hle. split; [done|]. by exists 0, s'. Qed.

Lemma undoable_trans s1 s2 s3 : wf s2 -> undoable s1 s2 -> undoable s2 s3 -> undoable s1 s3.
Proof.
  intros Hw2 (_ & n & t & Hn & Hle) (Hw3 & m & u & Hm & Hle').
  split; [done|]. pose proof (pops_wf _ _ _ Hw3 Hm) as Hwu.
  destruct (pops_le n s2 u t Hle' Hw2 Hwu Hn) as (v & Hv & Hlev & _).
  exists (m + n), v. split; [by eapply pops_add|]. by etrans.
Qed.

End Revert.
End StateDBRevert.
