(* ===== verification/StateDBUndo.v ===== *)
(** Every change of CommitStateDB is undoable.

    The operations of the virtual machine's StateDB interface, one
    constructor of [op] each, are executed by [exec].  Each is shown to
    keep the invariant and to be undoable by reverting the journal
    entries it appended. *)
From S2P Require Import Prelude.
From S2P Require Import GoSlices.
From S2P Require Import Interfaces.
From S2P Require Import Account.
From S2P Require Import AccessList.
From S2P Require Import StateObject.
From S2P Require Import Journal.
From S2P Require Import StateDB.
From S2P Require Import StateObjectSpec.
From S2P Require Import StateDBInv.
From S2P Require Import StateDBRevert.
Import StateObject Journal StateDB StateObjectSpec StateDBInv StateDBRevert.

Module StateDBUndo.
Section Undo.
Context {St AK C : Type} `{KVStore St, SdkCoins C, AccountKeeper AK C, Keccak, SdkConfig}.
Context `{!SdkCoinsLaws C, !KeccakLaws, !AccountKeeperLaws AK C}.
Abbreviation csdb := (CommitStateDB St AK C).
Implicit Types (s t : csdb) (so : stateObject C) (j : journal C) (e : journalEntry C) (kv : St).

(** ** One appended entry *)

Lemma pop_appended s s2 e s3 : jwf (csdb_journal s) ->
  append (csdb_journal s) e = Ret (csdb_journal s2) -> revert_entry e s2 = Ret s3 ->
  pop s2 = Ret (with_journal s3 (csdb_journal s)).
Proof.
  intros Hj Happ Hr. unfold pop. destruct (append_wf _ e Hj) as (j' & Hj' & _ & Hes).
  assert (j' = csdb_journal s2) as -> by congruence.
  rewrite Hes, last_snoc. simpl. rewrite Hr. simpl. rewrite (revert_entry_keeps _ _ _ Hr).
  rewrite (undirty_append _ _ _ Hj Happ). simpl. unfold jlength, with_entries. cbn [entries set].
  rewrite Hes, length_app. simpl. rewrite Nat.add_sub, take_app_length. by destruct (csdb_journal s).
Qed.

(** The general form: reverting the one appended entry shows [s] again. *)
Lemma undo_step s s2 e s3 : wf s -> wf s2 ->
  append (csdb_journal s) e = Ret (csdb_journal s2) ->
  revert_entry e s2 = Ret s3 -> owf s3 -> aux s = aux s3 -> ak_equiv (accounts s) (accounts s3) ->
  (forall a, obj_le (kvstore s) (lookup_obj s a) (lookup_obj s3 a)) -> undoable s s2.
Proof.
  intros Hwf Hwf2 Happ Hr Howf Haux Hak Hobj.
  pose proof (pop_appended s s2 e s3 (wf_journal _ (proj2 Hwf)) Happ Hr) as Hp.
  split; [done|]. exists 1, (with_journal s3 (csdb_journal s)). simpl.
  split; [|by split]. eexists. split_and!; [done| |done].
  split; [by apply with_journal_owf|]. by eapply (swf_aux s); [..|apply Hwf].
Qed.

(** [s2] is [s] with entry [e] appended and the account [a] changed. *)
Record touched s s2 (a : Address) e : Prop := {
  to_wf : wf s2;
  to_append : append (csdb_journal s) e = Ret (csdb_journal s2);
  to_aux : aux s = aux s2;
  to_accounts : ak_equiv (accounts s) (accounts s2);
  to_obj b : a ≠ b -> lookup_obj s2 b = lookup_obj s b;
}.

Lemma undo_create s s2 a : wf s -> touched s s2 a (createObjectChange a) ->
  lookup_obj s a = Ret None -> undoable s s2.
Proof.
  intros Hwf [Hwf2 Happ Haux Hak Hobj] Hnone.
  destruct (revert_create s2 a (proj1 Hwf2)) as (objs & m & Hr & Howf & Hl).
  eapply undo_step; [done|done|done|exact Hr|done|done|done|].
  intros b. rewrite Hl. case_decide; [subst b|rewrite Hobj by done; apply obj_le_refl].
  rewrite Hnone. pose proof (lookup_obj_None s a (proj1 Hwf) Hnone) as Hacc.
  unfold load. rewrite <- (Hak a), Hacc. constructor.
Qed.

Lemma undo_reset s s2 a prev : wf s -> touched s s2 a (resetObjectChange prev) ->
  lookup_obj s a = Ret (Some prev) -> undoable s s2.
Proof.
  intros Hwf [Hwf2 Happ Haux Hak Hobj] Hprev.
  destruct (lookup_obj_wf s a prev (proj1 Hwf) Hprev) as (Hw & Ha & Hd).
  destruct (setStateObject_live s2 prev (proj1 Hwf2)) as (objs & m & Hr & Howf & Hl);
    [by rewrite <- (aux_kv _ _ Haux)|done|].
  eapply undo_step; [done|done|done|exact Hr|done|done|done|].
  intros b. rewrite Hl. rewrite Ha. case_decide; [subst b|rewrite Hobj by done; apply obj_le_refl].
  rewrite Hprev. apply obj_le_refl.
Qed.

Lemma undo_object s s2 a e f so so' so'' : wf s -> touched s s2 a e ->
  entry_fun e = Some (a, f) -> lookup_obj s a = Ret (Some so) -> lookup_obj s2 a = Ret (Some so') ->
  f so' = Ret so'' -> so_le (kvstore s) so so'' -> obj_wf (kvstore s) so'' -> undoable s s2.
Proof.
  intros Hwf [Hwf2 Happ Haux Hak Hobj] He Hso Hso' Hf Hle Hw.
  destruct (getStateObject_total s2 a (Some so') Hwf2 Hso') as (s2' & Hg).
  destruct (getStateObject_spec _ _ _ _ Hwf2 Hg) as (_ & Hwf2' & Hsame).
  pose proof (revert_entry_obj e a f s2 so' s2' He Hg) as Hr. unfold revert_obj in Hr.
  rewrite Hg in Hr. simpl in Hr. rewrite Hf in Hr. simpl in Hr.
  pose proof (aux_kv _ _ Haux) as Hkv. pose proof (aux_kv _ _ (same_aux _ _ Hsame)) as Hkv'.
  destruct (lookup_obj_wf s2 a so' (proj1 Hwf2) Hso') as (Hw' & Ha' & Hd').
  destruct (entry_fun_keeps _ _ _ _ _ _ He Hw' Hf) as [Ha'' Hd''].
  destruct (setStateObject_live s2' so'' (proj1 Hwf2')) as (objs & m & Hset & Howf & Hl);
    [congruence|congruence|]. rewrite Hset in Hr.
  eapply undo_step; [done|done|done|exact Hr|done| | |].
  - rewrite Haux. apply (same_aux _ _ Hsame).
  - cbn. intros b. rewrite <- (same_accounts _ _ Hsame). apply Hak.
  - intros b. rewrite Hl. replace (address so'') with a by congruence.
    case_decide; [subst b; rewrite Hso; by constructor|].
    rewrite <- (same_obj _ _ Hsame), Hobj by done. apply obj_le_refl.
Qed.

(** Appending an entry and storing an object for its account. *)
Lemma swf_append s s2 e : swf s -> aux s2 = aux s -> entry_ok (kvstore s) e ->
  append (csdb_journal s) e = Ret (csdb_journal s2) -> swf s2.
Proof.
  intros [He Hj Ha Hp Hl] Haux Hok Happ. destruct (append_wf _ e Hj) as (j' & Hj' & Hw & Hes).
  assert (j' = csdb_journal s2) as -> by congruence.
  unfold aux in Haux. injection Haux as E1 E2 E3 E4 E5 E6 E7 E8 E9 E10 E11 E12.
  split; rewrite ?E1, ?E8, ?E10, ?E11, ?E12; try done.
  rewrite Hes. apply Forall_app. by split; [|constructor].
Qed.

Lemma swf_journal s e j' : append (csdb_journal s) e = Ret j' -> swf s ->
  entry_ok (kvstore s) e -> swf (with_journal s j').
Proof. intros Happ Hs Hok. by apply (swf_append s _ e). Qed.

Lemma put_touched s ak j' e so' : wf s -> append (csdb_journal s) e = Ret j' ->
  ak_equiv (accounts s) ak -> entry_ok (kvstore s) e -> obj_wf (kvstore s) so' -> deleted so' = false ->
  exists s2, setStateObject (s <| accounts := ak |> <| csdb_journal := j' |>) so' = Ret s2 /\
    touched s s2 (address so') e /\ revs s2 = revs s /\ lookup_obj s2 (address so') = Ret (Some so').
Proof.
  intros Hwf Happ Hak Hok Hw Hd. set (s1 := s <| accounts := ak |> <| csdb_journal := j' |>).
  assert (owf s1) as Howf1.
  { destruct Hwf as [[W1 W2 W3] _]. split; [done| |].
    - intros a so Hc. destruct (W2 a so Hc) as (? & ? & Hdel). split_and!; try done.
      intros Hdt. cbn. rewrite <- (Hak a). auto.
    - intros a acc. cbn. rewrite <- (Hak a). apply W3. }
  assert (forall b, lookup_obj s1 b = lookup_obj s b) as Hl1.
  { intros b. unfold lookup_obj. change (cache s1 b) with (cache s b).
    destruct (cache s b); [done|]. symmetry. by apply load_equiv. }
  destruct (setStateObject_live s1 so' Howf1 Hw Hd) as (objs & m & Hset & Howf2 & Hl).
  exists (put_cache s1 objs m). split; [done|]. split; [|split; [done|by rewrite Hl, decide_True]].
  split; try done.
  - split; [done|]. by eapply (swf_append s); [apply Hwf|..].
  - intros b Hb. by rewrite Hl, decide_False by done.
Qed.

(** ** Journalling methods of an object *)

(** What such a method may do: nothing observable, or one entry whose
    revert restores the object, or a touch. *)
Inductive method_result kv j so j' so' : Prop :=
  | mr_same : j' = j -> so_le kv so so' -> method_result kv j so j' so'
  | mr_entry e f so'' : append j e = Ret j' -> entry_fun e = Some (address so, f) ->
      f so' = Ret so'' -> so_le kv so so'' -> obj_wf kv so'' -> method_result kv j so j' so'
  | mr_touch : append j (touchChange (address so)) = Ret j' -> so' = so ->
      method_result kv j so j' so'.

Definition method_ok kv (a : Address)
    (f : journal C -> stateObject C -> res (journal C * stateObject C)) : Prop :=
  forall j so j' so', jwf j -> obj_wf kv so -> address so = a -> f j so = Ret (j', so') ->
  obj_wf kv so' /\ address so' = address so /\ deleted so' = deleted so /\
  method_result kv j so j' so'.

Lemma append_Ret j e : jwf j -> exists j', append j e = Ret j'.
Proof. intros Hj. destruct (append_wf j e Hj) as (j' & ? & _). eauto. Qed.

Lemma SetBalance_method kv a x : method_ok kv a (SO.SetBalance x).
Proof.
  intros j so j' so' Hj Hw Ha Hf. unfold SO.SetBalance in Hf.
  bind_inv Hf. bind_inv Hf. injection Hf as <- <-.
  apply setBalance_Ret in Hf1 as (Hx & c & -> & Hc).
  split_and!; [by apply with_coins_wf|done|done|].
  destruct (setBalance_ok (with_coins so c) DefaultBondDenom
    (AmountOf (acc_Coins (account so)) DefaultBondDenom)) as (c' & Hc' & Hd); [apply AmountOf_nonneg|].
  eapply mr_entry; [done|done|exact Hc'| |by apply with_coins_wf, with_coins_wf].
  apply undo_balance. intros d. rewrite Hd. cbn. rewrite Hc. case_decide; by subst.
Qed.

Lemma SubBalance_method kv a x : method_ok kv a (SO.SubBalance x).
Proof.
  intros j so j' so' Hj Hw Ha. unfold SO.SubBalance. case_match; [|by apply (SetBalance_method kv a)].
  intros [= <- <-]. split_and!; try done. by apply mr_same.
Qed.

Lemma AddBalance_method kv a x : a ≠ ripemd \/ x ≠ 0%Z -> method_ok kv a (SO.AddBalance x).
Proof.
  intros Hr j so j' so' Hj Hw Ha. unfold SO.AddBalance. case_match eqn:Hx; [|by apply (SetBalance_method kv a)].
  apply Z.eqb_eq in Hx. case_match.
  - unfold SO.touch. intros Hf. bind_inv Hf. injection Hf as <- <-. bind_inv Hf0.
    rewrite (proj2 (N.eqb_neq _ _)) in Hf0 by (rewrite Ha; by destruct Hr).
    injection Hf0 as ->. split_and!; try done. by apply mr_touch.
  - intros [= <- <-]. split_and!; try done. by apply mr_same.
Qed.

Lemma SetNonce_method kv a n : method_ok kv a (SO.SetNonce n).
Proof.
  intros j so j' so' Hj Hw Ha Hf. unfold SO.SetNonce in Hf. bind_inv Hf. injection Hf as <- <-.
  split_and!; [by apply setNonce_wf|done|done|].
  eapply mr_entry; [done|done|reflexivity|apply undo_nonce|by apply setNonce_wf, setNonce_wf].
Qed.

Lemma SetState_method kv a k v : hash_ok v -> method_ok kv a (SO.SetState kv k v).
Proof.
  intros Hv j so j' so' Hj Hw Ha Hf. unfold SO.SetState in Hf.
  destruct (so_GetState_spec kv so k Hw) as (so1 & Hg & Hw1 & Hle1 & Hc1 & os & m & Hso1).
  rewrite Hg in Hf. simpl in Hf. case_match.
  - injection Hf as <- <-. split_and!; try (by rewrite Hso1); [done|]. by apply mr_same.
  - bind_inv Hf. bind_inv Hf. injection Hf as <- <-.
    replace (GetStorageByAddressKey so1 (Hash_Bytes k)) with (GetStorageByAddressKey so (Hash_Bytes k))
      in * by (by rewrite Hso1).
    set (key := GetStorageByAddressKey so (Hash_Bytes k)) in *.
    destruct (setState_spec kv so1 key v Hw1 Hc1 Hv) as (so2 & Hs2 & Hw2 & Hd2 & ds & m' & Hso2).
    assert (r0 = so2) as -> by congruence.
    assert (cached_key so2 key) as Hc2 by (by rewrite Hso2).
    destruct (setState_spec kv so2 key (current_value kv so key) Hw2 Hc2
      (current_value_ok kv so key Hw)) as (so3 & Hs3 & Hw3 & _).
    split_and!; [done|by rewrite Hso2, Hso1|by rewrite Hso2, Hso1|].
    eapply (mr_entry kv j so r so2 (storageChange (address so1) key (current_value kv so key)));
      [done|by rewrite Hso1|exact Hs3| |done].
    etrans; [exact Hle1|]. eapply (undo_state kv so1 key v); [done|done|done|exact Hs2|].
    by rewrite <- (sl_storage _ _ _ Hle1).
Qed.

Lemma SetCode_method kv a code :
  method_ok kv a (SO.SetCode kv (Keccak256Hash (default [] code)) code).
Proof.
  intros j so j' so' Hj Hw Ha Hf. unfold SO.SetCode in Hf.
  destruct (Code_spec kv so Hw) as (so1 & Hc & Hw1 & Hle1 & err & Hso1). rewrite Hc in Hf.
  bind_inv Hf. injection Hf as <- <-.
  destruct (CodeHash_ok kv so1 Hw1) as [Hl Hh].
  split_and!.
  - apply setCode_wf; [done|]. intros ->. left. unfold Keccak256Hash. simpl.
    apply Hash_Bytes_BytesToHash, length_keccak256.
  - by rewrite Hso1.
  - by rewrite Hso1.
  - rewrite (sl_code _ _ _ Hle1) in Hf0.
    assert (address so1 = address so) as Had by (by rewrite Hso1). rewrite Had in Hf0.
    eapply mr_entry; [exact Hf0|reflexivity|reflexivity| |].
    + etrans; [exact Hle1|]. by apply undo_code.
    + apply setCode_wf; [apply setCode_wf; [done|]|].
      * intros ->. left. apply Hash_Bytes_BytesToHash, length_keccak256.
      * intros Hco. right. rewrite Hash_Bytes_BytesToHash by done. by apply undo_code_wf.
Qed.

(** ** Getting or creating the object *)

Definition step s s' : Prop :=
  wf s' /\ undoable s s' /\ revs s' = revs s /\ kvstore s' = kvstore s.

Lemma step_trans s1 s2 s3 : step s1 s2 -> step s2 s3 -> step s1 s3.
Proof.
  intros (W2 & U2 & R2 & K2) (W3 & U3 & R3 & K3). split_and!; [done| |congruence..].
  by apply (undoable_trans s1 s2 s3).
Qed.

Lemma step_same s s' : wf s' -> same s s' -> step s s'.
Proof.
  intros Hw Hs. split_and!; [done|apply undoable_le; [done|by apply same_le]| |]; symmetry.
  - apply (same_revs _ _ Hs).
  - apply aux_kv, (same_aux _ _ Hs).
Qed.

Lemma getStateObject_step s a o s' : wf s -> getStateObject s a = Ret (o, s') ->
  step s s' /\ lookup_obj s a = Ret o /\ lookup_obj s' a = Ret o.
Proof.
  intros Hwf Hg. destruct (getStateObject_spec _ _ _ _ Hwf Hg) as (Hl & Hw & Hs).
  split; [by apply step_same|]. by rewrite <- (same_obj _ _ Hs).
Qed.

(** The new object of an account, and the state it may be stored in. *)
Lemma createObject_step s a newObj prev s' : wf s -> address_ok a ->
  createObject s a = Ret (newObj, prev, s') ->
  exists s0 e, wf s0 /\ step s s0 /\ lookup_obj s0 a = Ret prev /\
    e = match prev with None => createObjectChange a | Some p => resetObjectChange p end /\
    touched s0 s' a e /\ revs s' = revs s0 /\ lookup_obj s' a = Ret (Some newObj) /\
    obj_wf (kvstore s') newObj /\ address newObj = a /\ deleted newObj = false.
Proof.
  intros Hwf Ha Hc. unfold createObject in Hc.
  bind_inv Hc. destruct r as [o s0].
  destruct (getStateObject_step _ _ _ _ Hwf Hc0) as (Hst & _ & Hl0). pose proof Hst as (Hwf0 & _ & _ & _).
  pose proof (NewAccount_spec (accounts s0) a) as (Hna & Hns & Hnh & Hnc).
  pose proof (GetAccount_New (accounts s0) a) as Hak.
  destruct (NewAccountWithAddress (accounts s0) a) as [acc ak]. simpl in Hna, Hns, Hnh, Hnc, Hak.
  bind_inv Hc. bind_inv Hc. bind_inv Hc. injection Hc as <- <- <-.
  destruct (newStateObject_wf (kvstore s0) acc) as (no & Hno & Hwno & Hano & Hdno).
  { split; [by rewrite Hna|]. rewrite Hnh. apply length_keccak256. }
  assert (r = no) as -> by congruence.
  set (e := match o with None => createObjectChange a | Some p => resetObjectChange p end).
  assert (exists j', append (csdb_journal s0) e = Ret j' /\
    r0 = s0 <| accounts := ak |> <| csdb_journal := j' |>) as (j' & Hj' & ->).
  { unfold e. destruct o; bind_inv Hc2; injection Hc2 as <-; eauto. }
  destruct (put_touched s0 ak j' e (setNonce no 0)) as (s2 & Hs2 & Ht & Hrv & Hlk);
    [done|done|by intros b|unfold e|by apply setNonce_wf|done|].
  { destruct o as [p|]; [|done]. destruct (lookup_obj_wf s0 a p (proj1 Hwf0) Hl0) as (? & ? & ?). done. }
  assert (r1 = s2) as -> by congruence. change (address (setNonce no 0)) with (address no) in Ht, Hlk.
  assert (address no = a) as Hnoa by congruence. rewrite Hnoa in Ht, Hlk.
  exists s0, e. split_and!; try done.
  rewrite <- (aux_kv _ _ (to_aux _ _ _ _ Ht)). by apply setNonce_wf.
Qed.

Lemma touched_step s0 s' a prev : wf s0 -> lookup_obj s0 a = Ret prev ->
  touched s0 s' a (match prev with None => createObjectChange a | Some p => resetObjectChange p end) ->
  revs s' = revs s0 -> step s0 s'.
Proof.
  intros Hwf Hl Ht Hr. split_and!; [apply Ht| |done|symmetry; apply aux_kv, Ht].
  destruct prev; [by eapply undo_reset|by eapply undo_create].
Qed.

Lemma GetOrNewStateObject_step s a so s' : wf s -> address_ok a ->
  GetOrNewStateObject s a = Ret (so, s') -> step s s' /\ lookup_obj s' a = Ret (Some so).
Proof.
  intros Hwf Ha Hg. unfold GetOrNewStateObject in Hg. bind_inv Hg. destruct r as [o s0].
  destruct (getStateObject_step _ _ _ _ Hwf Hg0) as (Hst & _ & Hl0). pose proof Hst as (Hwf0 & _ & _ & _).
  assert (forall x p s', createObject s0 a = Ret (x, p, s') -> step s s' /\ lookup_obj s' a = Ret (Some x)) as Hcr.
  { intros x p s1 Hc.
    destruct (createObject_step s0 a x p s1 Hwf0 Ha Hc) as (s2 & e & Hw2 & Hst2 & Hl2 & -> & Ht & Hr & Hl & _).
    split; [|done]. eapply step_trans; [done|]. eapply step_trans; [done|]. by eapply touched_step. }
  destruct o as [x|].
  - destruct (lookup_obj_wf s0 a x (proj1 Hwf0) Hl0) as (_ & _ & Hd). rewrite Hd in Hg.
    by injection Hg as <- <-.
  - bind_inv Hg. destruct r as [[x p] s1]. injection Hg as <- <-. by eapply Hcr.
Qed.

Lemma touch_undo s s2 a : wf s -> touched s s2 a (touchChange a) ->
  lookup_obj s2 a = lookup_obj s a -> undoable s s2.
Proof.
  intros Hwf [Hw Happ Haux Hak Hobj] Hl.
  eapply undo_step; [done|done|done|reflexivity|apply Hw|done|done|].
  intros b. destruct (decide (a = b)) as [<-|]; [rewrite Hl|rewrite Hobj by done]; apply obj_le_refl.
Qed.

(** A method run on the object of an account. *)
Lemma on_object_step s a f s' : wf s -> address_ok a -> method_ok (kvstore s) a f ->
  on_object s a f = Ret s' -> step s s'.
Proof.
  intros Hwf Ha Hf Ho. unfold on_object in Ho. bind_inv Ho. destruct r as [so s1].
  destruct (GetOrNewStateObject_step _ _ _ _ Hwf Ha Ho0) as (Hst & Hl).
  eapply step_trans; [exact Hst|]. destruct Hst as (Hwf1 & _ & _ & Hkv). rewrite <- Hkv in Hf.
  bind_inv Ho. destruct r as [j' so'].
  destruct (lookup_obj_wf s1 a so (proj1 Hwf1) Hl) as (Hwo & Hao & Hdo).
  destruct (Hf _ _ _ _ (wf_journal _ (proj2 Hwf1)) Hwo Hao Ho1) as (Hwo' & Hao' & Hdo' & Hres).
  assert (forall e, append (csdb_journal s1) e = Ret j' -> entry_ok (kvstore s1) e ->
    touched s1 s' a e /\ revs s' = revs s1 /\ lookup_obj s' a = Ret (Some so')) as Hput.
  { intros e Happ Hok. destruct (put_touched s1 (accounts s1) j' e so') as (s2 & Hs2 & Ht & Hr & Hlk);
      [done|done|done|done|done|congruence|].
    replace (address so') with a in * by congruence.
    assert (s' = s2) as -> by (destruct s1; cbn in *; congruence). done. }
  destruct Hres as [-> Hle|e g so'' Happ He Hg Hle Hwo''|Happ ->].
  - destruct (setStateObject_live s1 so' (proj1 Hwf1) Hwo') as (objs & m & Hset & Hw2 & Hl2); [congruence|].
    assert (s' = put_cache s1 objs m) as -> by (destruct s1; cbn in *; congruence).
    assert (wf (put_cache s1 objs m)) as Hwf2
      by (split; [done|eapply (swf_aux s1); [done|done|apply Hwf1]]).
    split_and!; [done| |done|done]. apply undoable_le; [done|]. split; try done.
    intros b. rewrite Hl2. replace (address so') with a by congruence.
    case_decide; [subst b; rewrite Hl; by constructor|apply obj_le_refl].
  - rewrite Hao in He. destruct (Hput e Happ) as (Ht & Hr & Hl2); [by destruct e|].
    split_and!; [apply Ht| |done|symmetry; apply aux_kv, Ht].
    by eapply (undo_object s1 s' a e g so so' so'').
  - rewrite Hao in Happ. destruct (Hput _ Happ I) as (Ht & Hr & Hl2).
    split_and!; [apply Ht| |done|symmetry; apply aux_kv, Ht].
    eapply touch_undo; [done|done|congruence].
Qed.

(** ** Suicide and account creation *)

Lemma touched_rebase s1 s2 s3 a e : csdb_journal s1 = csdb_journal s2 -> aux s1 = aux s2 ->
  ak_equiv (accounts s2) (accounts s1) -> (forall b, a ≠ b -> lookup_obj s1 b = lookup_obj s2 b) ->
  touched s1 s3 a e -> touched s2 s3 a e.
Proof.
  intros Hj Ha Hk Hl [Hw Happ Haux Hak Hobj]. split; try congruence.
  intros b Hb. by rewrite Hobj, Hl.
Qed.

(** The entry and the mark of a suicide. *)
Lemma mark_step s a so j1 s2 : wf s -> lookup_obj s a = Ret (Some so) ->
  append (csdb_journal s) (suicideChange a (suicided so) (so_Balance so)) = Ret j1 ->
  touched s s2 a (suicideChange a (suicided so) (so_Balance so)) ->
  lookup_obj s2 a = Ret (Some (with_suicided so true)) -> undoable s s2.
Proof.
  intros Hwf Hl Happ Ht Hl2. destruct (lookup_obj_wf s a so (proj1 Hwf) Hl) as (Hwo & Hao & Hdo).
  destruct (setBalance_ok (with_suicided (with_suicided so true) (suicided so)) DefaultBondDenom
    (so_Balance so)) as (c & Hc & Hd); [apply AmountOf_nonneg|].
  eapply (undo_object s s2 a _ _ so _ _ Hwf Ht); [done|done|exact Hl2|exact Hc| |].
  - split; try done. intros d. cbn. rewrite Hd. case_decide; [by subst|done].
  - by apply with_coins_wf, with_suicided_wf, with_suicided_wf.
Qed.

Lemma balance_undo s s3 a so x so' : wf s -> lookup_obj s a = Ret (Some so) ->
  touched s s3 a (balanceChange a (AmountOf (acc_Coins (account so)) DefaultBondDenom)) ->
  setBalance so DefaultBondDenom x = Ret so' -> lookup_obj s3 a = Ret (Some so') -> undoable s s3.
Proof.
  intros Hwf Hl Ht Hb Hl3. destruct (lookup_obj_wf s a so (proj1 Hwf) Hl) as (Hwo & _ & _).
  apply setBalance_Ret in Hb as (_ & c & -> & Hc).
  destruct (setBalance_ok (with_coins so c) DefaultBondDenom
    (AmountOf (acc_Coins (account so)) DefaultBondDenom)) as (c' & Hc' & Hd); [apply AmountOf_nonneg|].
  eapply (undo_object s s3 a _ _ so _ _ Hwf Ht); [done|done|exact Hl3|exact Hc'| |].
  - apply undo_balance. intros d. rewrite Hd. cbn. rewrite Hc. case_decide; by subst.
  - by apply with_coins_wf, with_coins_wf.
Qed.

Lemma Suicide_step s a b s' : wf s -> Suicide s a = Ret (b, s') -> step s s'.
Proof.
  intros Hwf Hs. unfold Suicide in Hs. bind_inv Hs. destruct r as [o s1].
  destruct (getStateObject_step _ _ _ _ Hwf Hs0) as (Hst & _ & Hl).
  eapply step_trans; [exact Hst|]. destruct Hst as (Hwf1 & _ & _ & _).
  destruct o as [so|]; [|injection Hs as <- <-; by apply step_same].
  destruct (lookup_obj_wf s1 a so (proj1 Hwf1) Hl) as (Hwo & Hao & Hdo).
  bind_inv Hs. unfold jappend in Hs1. bind_inv Hs1. injection Hs1 as <-. rename r0 into j1.
  bind_inv Hs. destruct r as [j2 so2]. bind_inv Hs. injection Hs as <- <-. rename r into s'.
  set (e1 := suicideChange a (suicided so) (so_Balance so)) in *.
  set (so1 := with_suicided so true). assert (obj_wf (kvstore s1) so1) as Hwo1 by (by apply with_suicided_wf).
  destruct (put_touched s1 (accounts s1) j1 e1 so1) as (s2 & _ & Ht2 & Hr2 & Hl2); [done..|].
  change (address so1) with (address so) in Ht2, Hl2. rewrite Hao in Ht2, Hl2.
  pose proof (to_wf _ _ _ _ Ht2) as Hwf2.
  assert (step s1 s2) as Hst2.
  { split_and!; [done| |done|symmetry; apply aux_kv, Ht2]. by eapply mark_step. }
  eapply step_trans; [exact Hst2|].
  assert (wf (with_journal s1 j1)) as Hwj.
  { split; [apply with_journal_owf, Hwf1|]. by apply (swf_append s1 _ e1); [apply Hwf1|..]. }
  change (SO.SetBalance 0 j1 so1 = Ret (j2, so2)) in Hs1.
  destruct (SetBalance_method (kvstore s1) a 0 j1 so1 j2 so2 (wf_journal _ (proj2 Hwj)) Hwo1 Hao Hs1)
    as (Hwo2 & Hao2 & Hdo2 & _).
  change (address so1) with (address so) in Hao2. change (deleted so1) with (deleted so) in Hdo2.
  rewrite Hao in Hao2. rewrite Hdo in Hdo2.
  unfold SO.SetBalance in Hs1. bind_inv Hs1. bind_inv Hs1. injection Hs1 as <- <-.
  destruct (put_touched (with_journal s1 j1) (accounts s1) r _ r0 Hwj Hs4) as (s3 & Hs3' & Ht3 & Hr3 & Hl3);
    [done|done|done|done|].
  rewrite Hao2 in Ht3, Hl3.
  assert (s' = s3) as -> by (destruct s1; cbn in *; congruence).
  assert (csdb_journal s2 = j1) as Hj2 by (pose proof (to_append _ _ _ _ Ht2); congruence).
  apply (touched_rebase _ s2) in Ht3; [|done|apply (to_aux _ _ _ _ Ht2)| |].
  - split_and!; [apply Ht3| |by rewrite Hr3, Hr2|symmetry; apply aux_kv, Ht3].
    change (address so1) with (address so) in Ht3. rewrite Hao in Ht3.
    by apply (balance_undo s2 s3 a so1 0 r0).
  - intros b. symmetry. apply (to_accounts _ _ _ _ Ht2).
  - intros b Hb. symmetry. by apply (to_obj _ _ _ _ Ht2).
Qed.

Lemma setStateObject_touched s0 s1 s2 a e so : touched s0 s1 a e -> address so = a ->
  obj_wf (kvstore s1) so -> deleted so = false -> setStateObject s1 so = Ret s2 ->
  touched s0 s2 a e /\ revs s2 = revs s1.
Proof.
  intros [[Howf Hswf] Happ Haux Hak Hobj] Ha Hw Hd Hs.
  destruct (setStateObject_live s1 so Howf Hw Hd) as (objs & m & Hset & Howf2 & Hl).
  assert (s2 = put_cache s1 objs m) as -> by congruence. split; [|done].
  split; try done.
  - split; [done|]. by eapply (swf_aux s1).
  - intros b Hb. rewrite Hl, decide_False by congruence. by apply Hobj.
Qed.

Lemma CreateAccount_step s a s' : wf s -> address_ok a -> CreateAccount s a = Ret s' -> step s s'.
Proof.
  intros Hwf Ha Hc. unfold CreateAccount in Hc. bind_inv Hc. destruct r as [[no p] s1].
  destruct (createObject_step s a no p s1 Hwf Ha Hc0)
    as (s0 & e & Hw0 & Hst & Hl0 & -> & Ht & Hr & Hl & Hwno & Hano & Hdno).
  eapply step_trans; [exact Hst|]. destruct p as [prev|]; [|injection Hc as <-; by eapply touched_step].
  bind_inv Hc. apply setBalance_Ret in Hc1 as (_ & c & -> & _).
  destruct (setStateObject_touched s0 s1 s' a _ (with_coins no c) Ht Hano) as [Ht' Hr'];
    [by apply with_coins_wf|done|done|].
  apply (touched_step s0 s' a (Some prev)); [done..|congruence].
Qed.

(** ** Changes outside accounts *)

(** A change of [aux] with one entry that restores it. *)
Lemma aux_step s s2 e s3 : wf s -> swf s2 ->
  append (csdb_journal s) e = Ret (csdb_journal s2) -> revert_entry e s2 = Ret s3 ->
  aux s3 = aux s -> accounts s2 = accounts s -> accounts s3 = accounts s ->
  cache s2 = cache s -> cache s3 = cache s ->
  stateObjects s2 = stateObjects s -> addressToObjectIndex s2 = addressToObjectIndex s ->
  stateObjects s3 = stateObjects s -> addressToObjectIndex s3 = addressToObjectIndex s ->
  kvstore s2 = kvstore s -> revs s2 = revs s -> step s s2.
Proof.
  intros Hwf Hswf Happ Hr Haux A2 A3 C2 C3 O2 I2 O3 I3 Hkv Hrev.
  pose proof (aux_kv _ _ Haux) as Hkv3. destruct Hwf as [[W1 W2 W3] Hs].
  assert (owf s2) as Howf2 by (split; rewrite ?O2, ?I2, ?C2, ?Hkv, ?A2; done).
  assert (owf s3) as Howf3 by (split; rewrite ?O3, ?I3, ?C3, ?Hkv3, ?A3; done).
  split_and!; [done| |done|done].
  eapply undo_step; [done|done|done|exact Hr|done|done|by rewrite A3|].
  intros a. unfold lookup_obj. rewrite C3, A3. apply obj_le_refl.
Qed.

Lemma AddRefund_step s g s' : wf s -> AddRefund s g = Ret s' -> step s s'.
Proof.
  intros Hwf Ha. unfold AddRefund, jappend in Ha. bind_inv Ha. bind_inv Ha0.
  injection Ha0 as <-. injection Ha as <-.
  eapply (aux_step s _ (refundChange (refund s))); [done| |exact Ha1|reflexivity|done..].
  destruct (swf_journal s _ r0 Ha1 (proj2 Hwf) I). by split.
Qed.

Lemma SubRefund_step s g s' : wf s -> SubRefund s g = Ret s' -> step s s'.
Proof.
  intros Hwf Ha. unfold SubRefund, jappend in Ha. bind_inv Ha. bind_inv Ha0.
  injection Ha0 as <-. case_match; [done|]. injection Ha as <-.
  eapply (aux_step s _ (refundChange (refund s))); [done| |exact Ha1|reflexivity|done..].
  destruct (swf_journal s _ r0 Ha1 (proj2 Hwf) I). by split.
Qed.

Lemma AddLog_step s l s' : wf s -> AddLog s l = Ret s' -> step s s'.
Proof.
  intros Hwf Ha. unfold AddLog, jappend in Ha. bind_inv Ha. bind_inv Ha0.
  injection Ha0 as <-. injection Ha as <-.
  pose proof (wf_logSize _ (proj2 Hwf)) as Hls.
  eapply (aux_step s _ (addLogChange (thash s))); [done| |exact Ha1|reflexivity|..]; try done.
  - destruct (swf_journal s _ r0 Ha1 (proj2 Hwf) I). split; try done.
    apply u64_range.
  - unfold aux, GetLogs, SetLogs, DeleteLogs. cbn.
    assert (u64 (u64 (logSize s + 1) - 1) = logSize s) as Hsz.
    { unfold u64. rewrite Zminus_mod_idemp_l. replace (logSize s + 1 - 1)%Z with (logSize s) by lia.
      by apply Z.mod_small. }
    rewrite length_app. simpl. rewrite Nat.add_sub.
    destruct (Nat.leb_spec (length (logs s) + 1) 1) as [Hle|Hgt]; cbn; rewrite Hsz.
    + destruct (logs s); [done|simpl in Hle; lia].
    + by rewrite take_app_length.
  - by unfold GetLogs, SetLogs, DeleteLogs; case_match.
  - by unfold GetLogs, SetLogs, DeleteLogs; case_match.
  - by unfold GetLogs, SetLogs, DeleteLogs; case_match.
  - by unfold GetLogs, SetLogs, DeleteLogs; case_match.
Qed.

Lemma AddPreimage_step s h p s' : wf s -> AddPreimage s h p = Ret s' -> step s s'.
Proof.
  intros Hwf Ha. unfold AddPreimage, jappend in Ha.
  destruct (hashToPreimageIndex s !! h) eqn:Hh; [injection Ha as <-; by apply step_same|].
  bind_inv Ha. bind_inv Ha0. injection Ha0 as <-. injection Ha as <-.
  pose proof (wf_pre _ (proj2 Hwf)) as Hpre.
  pose proof (idx_wf_snoc pre_hash _ _ (mkPreimage h p) Hpre Hh) as Hpre'.
  cbn [preimages hashToPreimageIndex set]. rewrite length_app. simpl length. rewrite Nat.add_sub.
  set (ps := preimages s ++ [mkPreimage h p]) in *.
  set (m := <[h := length (preimages s)]> (hashToPreimageIndex s)).
  assert (m !! h = Some (length (preimages s))) as Hm by apply lookup_insert_eq.
  assert (remove_shift pre_hash h (length (preimages s)) ps m
          = (preimages s, hashToPreimageIndex s)) as Hrem.
  { unfold remove_shift, ps. rewrite length_app. simpl. 
    replace (length (preimages s) + 1 - S (length (preimages s))) with 0 by lia. simpl.
    rewrite Nat.add_sub, take_app_length. f_equal. by apply delete_insert_id. }
  eapply (aux_step _ _ _ ((with_journal s r0))); try done.
  - destruct (swf_journal s _ r0 Ha1 (proj2 Hwf) I). by split.
  - cbn [revert_entry hashToPreimageIndex preimages set]. fold m ps. rewrite Hm.
    destruct (Nat.eqb_spec (length ps) 1) as [Hone|].
    + rewrite remove_single in Hrem; [|done|unfold ps; rewrite length_app; simpl; lia].
      injection Hrem as Hp1 Hp2. rewrite Hp2. cbn. rewrite Hp1. by destruct s.
    + rewrite Hrem. by destruct s.
Qed.

(** ** The access list *)

Lemma accessList_step s al e s2 : wf s -> AccessList.al_wf al -> entry_ok (kvstore s) e ->
  jappend (s <| csdb_accessList := al |>) e = Ret s2 ->
  revert_entry e s2 = Ret (s2 <| csdb_accessList := csdb_accessList s |>) -> step s s2.
Proof.
  intros Hwf Hal Hok Hj Hr. unfold jappend in Hj. bind_inv Hj. injection Hj as <-.
  destruct (swf_journal s e r Hj0 (proj2 Hwf) Hok).
  eapply (aux_step s _ e); [done|by split|exact Hj0|exact Hr|done..].
Qed.

Lemma with_accessList_id s : s <| csdb_accessList := csdb_accessList s |> = s.
Proof. by destruct s. Qed.

Lemma AddAddress_step s a s' : wf s -> AddAddressToAccessList s a = Ret s' -> step s s'.
Proof.
  intros Hwf Ha. pose proof (wf_al _ (proj2 Hwf)) as Hal. unfold AddAddressToAccessList in Ha.
  pose proof (AccessList.AddAddress_spec _ a Hal) as Hs.
  destruct (AccessList.AddAddress (csdb_accessList s) a) as [ch al] eqn:E.
  destruct Hs as (Hal' & -> & _ & Hdel).
  destruct (AccessList.ContainsAddress (csdb_accessList s) a) eqn:Hc; simpl in *.
  - injection Ha as <-. unfold AccessList.AddAddress in E. apply bool_decide_eq_true in Hc as [i Hi].
    rewrite Hi in E. injection E as <-. change (step s (s <| csdb_accessList := csdb_accessList s |>)).
    rewrite with_accessList_id. by apply step_same.
  - eapply (accessList_step s al); [done|done| |exact Ha|]; [done|].
    unfold jappend in Ha. bind_inv Ha. injection Ha as <-.
    cbn [revert_entry csdb_accessList set]. by rewrite Hdel.
Qed.

Lemma AddSlot_present_step s a slot s' : wf s ->
  AccessList.ContainsAddress (csdb_accessList s) a = true ->
  AddSlotToAccessList s a slot = Ret s' -> step s s'.
Proof.
  intros Hwf Hc Ha. pose proof (wf_al _ (proj2 Hwf)) as Hal. unfold AddSlotToAccessList in Ha.
  destruct (AccessList.AddSlot_present _ a slot Hal Hc) as (sm & al & Hs & Hal' & _ & _ & Hdel).
  rewrite Hs in Ha. simpl in Ha. destruct sm.
  - eapply (accessList_step s al); [done|done| |exact Ha|]; [done|].
    unfold jappend in Ha. bind_inv Ha. injection Ha as <-.
    cbn [revert_entry csdb_accessList set]. by rewrite Hdel.
  - injection Ha as <-. subst al. change (step s (s <| csdb_accessList := csdb_accessList s |>)).
    rewrite with_accessList_id. by apply step_same.
Qed.

Lemma AddSlot_step s a slot s' : wf s -> AddSlotToAccessList s a slot = Ret s' -> step s s'.
Proof.
  intros Hwf Ha. pose proof (wf_al _ (proj2 Hwf)) as Hal.
  destruct (AccessList.ContainsAddress (csdb_accessList s) a) eqn:Hc; [by eapply AddSlot_present_step|].
  unfold AddSlotToAccessList in Ha. rewrite AccessList.AddSlot_absent in Ha by done.
  assert (AddAddressToAccessList s a
    = jappend (s <| csdb_accessList := (AccessList.AddAddress (csdb_accessList s) a).2 |>)
              (accessListAddAccountChange a)) as Hadd.
  { apply bool_decide_eq_false, eq_None_not_Some in Hc.
    unfold AddAddressToAccessList, AccessList.AddAddress. by rewrite Hc. }
  pose proof (AccessList.AddAddress_spec _ a Hal) as Hs.
  destruct (AccessList.AddAddress (csdb_accessList s) a) as [ch al] eqn:E. destruct Hs as (Hal' & _ & Hcont & _).
  simpl in Ha, Hadd.
  destruct (append_Ret (csdb_journal s) (accessListAddAccountChange a) (wf_journal _ (proj2 Hwf))) as (j1 & Hj1).
  unfold jappend in Ha, Hadd. cbn [csdb_journal set] in Ha, Hadd. rewrite Hj1 in Ha, Hadd. simpl in Hadd.
  pose proof (AddAddress_step s a _ Hwf Hadd) as Hst. eapply step_trans; [exact Hst|].
  destruct Hst as [Hw1 _]. eapply (AddSlot_present_step _ a slot); [exact Hw1| |].
  - cbn. apply bool_decide_eq_true. specialize (Hcont a). rewrite decide_True in Hcont by done.
    unfold AccessList.content in Hcont. by destruct (addresses al !! a).
  - unfold AddSlotToAccessList. cbn [csdb_accessList set].
    destruct (AccessList.AddSlot_present al a slot Hal') as (sm & al2 & Hs & _).
    { apply bool_decide_eq_true. specialize (Hcont a). rewrite decide_True in Hcont by done.
      unfold AccessList.content in Hcont. by destruct (addresses al !! a). }
    rewrite Hs in Ha |- *. exact Ha.
Qed.

End Undo.
End StateDBUndo.
