(* ===== verification/StateDBSnapshot.v ===== *)
(** Snapshot and RevertToSnapshot: the contract with the virtual machine.

    [query] lists everything the virtual machine can read and [op]
    everything it can do between two snapshots, nested snapshots and
    reverts included.  The main theorem: whatever it did, reverting to a
    snapshot succeeds and every query is answered as it was when the
    snapshot was taken. *)
From stdpp Require Import sorting.
From S2P Require Import Prelude.
From S2P Require Import GoSlices.
From S2P Require Import Interfaces.
From S2P Require Import Account.
From S2P Require Import AccessList.
From S2P Require Import StateObject.
From S2P Require Import Journal.
From S2P Require Import StateDB.
From S2P Require Import StateObjectSpec.
From S2P Require Import StateDBInv.
From S2P Require Import StateDBRevert.
From S2P Require Import StateDBUndo.
Import StateObject Journal StateDB StateObjectSpec StateDBInv StateDBRevert StateDBUndo.

Module StateDBSnapshot.

(** ** Queries and operations *)

Inductive query :=
  | QBalance (a : Address) | QNonce (a : Address) | QCode (a : Address) | QCodeSize (a : Address)
  | QCodeHash (a : Address) | QState (a : Address) (key : Hash)
  | QCommittedState (a : Address) (key : Hash) | QHasSuicided (a : Address) | QEmpty (a : Address)
  | QExist (a : Address) | QRefund | QLogs | QLogSize | QPreimages
  | QAddressInAccessList (a : Address) | QSlotInAccessList (a : Address) (slot : Hash)
  | QHeightHash (height : Z).

Inductive value :=
  | VZ (x : Z) | VHash (h : Hash) | VBytes (b : option bytes) | VNat (n : nat) | VBool (b : bool)
  | VLogs (l : list Log) | VMap (m : gmap Hash bytes) | VBools (b : bool * bool).

Inductive op :=
  | OpRead (q : query)
  | OpCreateAccount (a : Address) | OpSubBalance (a : Address) (x : Z)
  | OpAddBalance (a : Address) (x : Z) | OpSetBalance (a : Address) (x : Z)
  | OpSetNonce (a : Address) (n : Z) | OpSetCode (a : Address) (code : option bytes)
  | OpSetState (a : Address) (key value : Hash) | OpSuicide (a : Address)
  | OpAddRefund (gas : Z) | OpSubRefund (gas : Z) | OpAddLog (l : Log)
  | OpAddPreimage (h : Hash) (p : bytes) | OpAddAddress (a : Address)
  | OpAddSlot (a : Address) (slot : Hash) | OpSnapshot | OpRevert (id : Z).

Section Snapshot.
Context {St AK C : Type} `{KVStore St, SdkCoins C, AccountKeeper AK C, Keccak, SdkConfig}.
Abbreviation csdb := (CommitStateDB St AK C).
Implicit Types (s t : csdb) (so : stateObject C).

Definition answer {X} (mk : X -> value) (r : res (X * csdb)) : res (value * csdb) :=
  '(x, s) ← r; Ret (mk x, s).

Definition read (q : query) s : res (value * csdb) :=
  match q with
  | QBalance a => answer VZ (GetBalance s a)
  | QNonce a => answer VZ (GetNonce s a)
  | QCode a => answer VBytes (GetCode s a)
  | QCodeSize a => answer VNat (GetCodeSize s a)
  | QCodeHash a => answer VHash (GetCodeHash s a)
  | QState a key => answer VHash (GetState s a key)
  | QCommittedState a key => answer VHash (GetCommittedState s a key)
  | QHasSuicided a => answer VBool (HasSuicided s a)
  | QEmpty a => answer VBool (Empty s a)
  | QExist a => answer VBool (Exist s a)
  | QRefund => Ret (VZ (GetRefund s), s)
  | QLogs => Ret (VLogs (GetLogs s), s)
  | QLogSize => Ret (VZ (GetLogSize s), s)
  | QPreimages => Ret (VMap (Preimages s), s)
  | QAddressInAccessList a => Ret (VBool (AddressInAccessList s a), s)
  | QSlotInAccessList a slot => b ← SlotInAccessList s a slot; Ret (VBools b, s)
  | QHeightHash height => Ret (VHash (GetHeightHash s height), s)
  end.

Definition exec (o : op) s : res csdb :=
  match o with
  | OpRead q => '(_, s) ← read q s; Ret s
  | OpCreateAccount a => CreateAccount s a
  | OpSubBalance a x => SubBalance s a x
  | OpAddBalance a x => AddBalance s a x
  | OpSetBalance a x => SetBalance s a x
  | OpSetNonce a n => SetNonce s a n
  | OpSetCode a code => SetCode s a code
  | OpSetState a key value => SetState s a key value
  | OpSuicide a => '(_, s) ← Suicide s a; Ret s
  | OpAddRefund gas => AddRefund s gas
  | OpSubRefund gas => SubRefund s gas
  | OpAddLog l => AddLog s l
  | OpAddPreimage h p => AddPreimage s h p
  | OpAddAddress a => AddAddressToAccessList s a
  | OpAddSlot a slot => AddSlotToAccessList s a slot
  | OpSnapshot => Ret (Snapshot s).2
  | OpRevert id => RevertToSnapshot s id
  end.

Fixpoint exec_all (ops : list op) s : res csdb :=
  match ops with
  | [] => Ret s
  | o :: ops' => s ← exec o s; exec_all ops' s
  end.

(** What the operations after snapshot [id] may be: addresses have 20
    bytes and values 32, no revert reaches back to [id] or further, and the empty
    RIPEMD account is not touched (see [Journal.v]). *)
Definition op_ok (id : Z) (o : op) : Prop :=
  match o with
  | OpCreateAccount a | OpSubBalance a _ | OpSetBalance a _ | OpSetNonce a _ | OpSetCode a _ => address_ok a
  | OpSetState a _ value => address_ok a /\ hash_ok value
  | OpAddBalance a x => address_ok a /\ (a ≠ ripemd \/ x ≠ 0%Z)
  | OpRevert id' => (id < id')%Z
  | _ => True
  end.

Context `{!SdkCoinsLaws C, !KeccakLaws, !AccountKeeperLaws AK C}.

(** ** Queries change nothing *)

Definition quiet s s' : Prop :=
  wf s' /\ sle s s' /\ revs s' = revs s /\ kvstore s' = kvstore s.

Lemma quiet_step s s' : quiet s s' -> step s s'.
Proof. intros (Hw & Hle & Hr & Hk). split_and!; try done. by apply undoable_le. Qed.

Lemma quiet_trans s1 s2 s3 : quiet s1 s2 -> quiet s2 s3 -> quiet s1 s3.
Proof.
  intros (W2 & L2 & R2 & K2) (W3 & L3 & R3 & K3). split_and!; [done|by etrans|congruence..].
Qed.

Lemma quiet_same s s' : wf s' -> same s s' -> quiet s s'.
Proof.
  intros Hw Hs. split_and!; [done|by apply same_le| |]; symmetry;
    [apply (same_revs _ _ Hs)|apply aux_kv, (same_aux _ _ Hs)].
Qed.

Lemma put_le_quiet s a so so' s' : wf s -> lookup_obj s a = Ret (Some so) ->
  obj_wf (kvstore s) so' -> so_le (kvstore s) so so' -> setStateObject s so' = Ret s' -> quiet s s'.
Proof.
  intros Hwf Hl Hw Hle Hs. destruct (lookup_obj_wf s a so (proj1 Hwf) Hl) as (Hwo & Hao & Hdo).
  destruct (setStateObject_live s so' (proj1 Hwf) Hw) as (objs & m & Hset & Howf & Hl');
    [by rewrite <- (sl_deleted _ _ _ Hle)|].
  assert (s' = put_cache s objs m) as -> by congruence.
  assert (wf (put_cache s objs m)) as Hwf' by (split; [done|by eapply (swf_aux s); [..|apply Hwf]]).
  split_and!; try done. split; try done. intros b. rewrite Hl'.
  replace (address so') with a by (rewrite <- (sl_address _ _ _ Hle); done).
  case_decide; [subst b; rewrite Hl; by constructor|apply obj_le_refl].
Qed.

Lemma GetParams_same s p s' : wf s -> GetParams s = (p, s') ->
  wf s' /\ same s s' /\ p = default (paramSpace s) (params s).
Proof.
  intros Hwf. unfold GetParams. destruct (params s) as [q|] eqn:Hp; intros [= <- <-]; [done|].
  split_and!; [by destruct Hwf as [[] []]| |done]. split; try done. unfold aux. cbn. by rewrite Hp.
Qed.

(** The answer of a query in terms of [lookup_obj]. *)
Definition observe_obj {X} (mk : X -> value) (dflt : X) (f : stateObject C -> X)
    (r : res (option (stateObject C))) : res value :=
  o ← r; Ret (mk (from_option f dflt o)).

(** The parameters a database answers by. *)
Definition current_params s : Params := default (paramSpace s) (params s).

Definition observe (q : query) s : res value :=
  let look := lookup_obj s in
  match q with
  | QBalance a => observe_obj VZ 0%Z so_Balance (look a)
  | QNonce a => observe_obj VZ 0%Z Nonce (look a)
  | QCode a =>
      if EnableContractBlockedList (default (paramSpace s) (params s))
         && IsContractInBlockedList s (Address_Bytes a)
      then Panic (PanicAddr a) else observe_obj VBytes None (code_of (kvstore s)) (look a)
  | QCodeSize a => observe_obj VNat 0 (fun so => go_len (code_of (kvstore s) so)) (look a)
  | QCodeHash a => observe_obj VHash 0%N (fun so => BytesToHash (CodeHash so)) (look a)
  | QState a key =>
      observe_obj VHash 0%N (fun so =>
        current_value (kvstore s) so (GetStorageByAddressKey so (Hash_Bytes key))) (look a)
  | QCommittedState a key =>
      observe_obj VHash 0%N (fun so =>
        storage_value (kvstore s) (address so) (GetStorageByAddressKey so (Hash_Bytes key))) (look a)
  | QHasSuicided a => observe_obj VBool false suicided (look a)
  | QEmpty a => observe_obj VBool true so_empty (look a)
  | QExist a => observe_obj VBool false (fun _ => true) (look a)
  | QRefund => Ret (VZ (refund s))
  | QLogs => Ret (VLogs (logs s))
  | QLogSize => Ret (VZ (logSize s))
  | QPreimages => Ret (VMap (Preimages s))
  | QAddressInAccessList a => Ret (VBool (AddressInAccessList s a))
  | QSlotInAccessList a slot => b ← SlotInAccessList s a slot; Ret (VBools b)
  | QHeightHash height => Ret (VHash (GetHeightHash s height))
  end.

(** Reading an object: the value, or the panic of [newStateObject]. *)
Lemma getStateObject_cases s a : wf s ->
  (exists o s', getStateObject s a = Ret (o, s') /\ lookup_obj s a = Ret o /\ quiet s s' /\
     lookup_obj s' a = Ret o /\ same s s') \/
  (exists p, getStateObject s a = Panic p /\ lookup_obj s a = Panic p).
Proof.
  intros Hwf. destruct (lookup_obj s a) as [o|p] eqn:Hl; [left|right].
  - destruct (getStateObject_total s a o Hwf Hl) as (s' & Hg). exists o, s'.
    destruct (getStateObject_spec s a o s' Hwf Hg) as (_ & Hw & Hs).
    split_and!; try done; [by apply quiet_same|]. by rewrite <- (same_obj _ _ Hs).
  - exists p. split; [|done]. unfold getStateObject. unfold lookup_obj, cache, idx_find in Hl.
    destruct (addressToObjectIndex s !! a) as [i|] eqn:Hi.
    + destruct (idx_wf_lookup _ _ _ _ _ (wf_index _ (proj1 Hwf)) Hi) as (se & Hse & _).
      simpl in Hl. by rewrite Hse in Hl.
    + simpl in Hl. unfold load in Hl. destruct (GetAccount (accounts s) a); [|done].
      destruct (newStateObject a0); [done|]. by injection Hl as ->.
Qed.

Definition answers s (q : query) (r : res (value * csdb)) : Prop :=
  match r with
  | Ret (v, s') => observe q s = Ret v /\ quiet s s'
  | Panic p => observe q s = Panic p
  end.

Lemma read_plain s a q {X} (mk : X -> value) dflt (f : stateObject C -> X) : wf s ->
  observe q s = observe_obj mk dflt f (lookup_obj s a) ->
  answers s q (answer mk ('(o, s) ← getStateObject s a; Ret (from_option f dflt o, s))).
Proof.
  intros Hwf Hq. destruct (getStateObject_cases s a Hwf) as [(o & s' & Hg & Hl & Hst & _)|(p & Hg & Hl)];
    rewrite Hg; simpl; rewrite Hq, Hl; done.
Qed.

(** Queries that read the object through a method of its own. *)
Lemma read_method s a q {X} (mk : X -> value) dflt (f : stateObject C -> X)
    (g : csdb -> stateObject C -> res (X * csdb)) : wf s ->
  observe q s = observe_obj mk dflt f (lookup_obj s a) ->
  (forall s1 so, wf s1 -> same s s1 -> lookup_obj s1 a = Ret (Some so) -> obj_wf (kvstore s1) so ->
     exists s2, g s1 so = Ret (f so, s2) /\ quiet s1 s2) ->
  answers s q (answer mk ('(o, s) ← getStateObject s a;
    match o with None => Ret (dflt, s) | Some so => g s so end)).
Proof.
  intros Hwf Hq Hg0. destruct (getStateObject_cases s a Hwf)
    as [(o & s' & Hg & Hl & Hst & Hl' & Hsame)|(p & Hg & Hl)]; rewrite Hg; simpl; [|by rewrite Hq, Hl].
  destruct o as [so|]; simpl; [|by rewrite Hq, Hl].
  pose proof Hst as (Hw' & _). destruct (lookup_obj_wf s' a so (proj1 Hw') Hl') as (Hwo & _).
  destruct (Hg0 s' so Hw' Hsame Hl' Hwo) as (s2 & Hgs & Hst2). rewrite Hgs. simpl.
  rewrite Hq, Hl. split; [done|]. by eapply quiet_trans.
Qed.

Lemma setStateObject_quiet s a so so' : wf s -> lookup_obj s a = Ret (Some so) ->
  obj_wf (kvstore s) so' -> so_le (kvstore s) so so' ->
  exists s', setStateObject s so' = Ret s' /\ quiet s s'.
Proof.
  intros Hwf Hl Hw Hle. destruct (lookup_obj_wf s a so (proj1 Hwf) Hl) as (_ & _ & Hd).
  destruct (setStateObject_live s so' (proj1 Hwf) Hw) as (objs & m & Hset & _);
    [by rewrite <- (sl_deleted _ _ _ Hle)|].
  eexists. split; [done|]. by eapply put_le_quiet.
Qed.

Lemma object_Code_total s a so : wf s -> lookup_obj s a = Ret (Some so) ->
  exists s', object_Code s so = Ret (code_of (kvstore s) so, s') /\ quiet s s'.
Proof.
  intros Hwf Hl. destruct (lookup_obj_wf s a so (proj1 Hwf) Hl) as (Hwo & _).
  destruct (Code_spec (kvstore s) so Hwo) as (so' & Hcode & Hw' & Hle & _).
  destruct (setStateObject_quiet s a so so' Hwf Hl Hw' Hle) as (s' & Hs & Hst).
  exists s'. unfold object_Code. rewrite Hcode, Hs. done.
Qed.

Lemma code_size_spec kv so : obj_wf kv so ->
  go_len (code_of kv so) = match so_code so with Some c => length c | None => go_len (code_of kv so) end.
Proof.
  intros Hw. pose proof (ow_code kv so Hw) as Hc. unfold code_of in *.
  destruct (so_code so) as [[|b c]|]; simpl in *; auto.
Qed.

(** ** Databases related by [sle] answer alike *)

Lemma observe_obj_le kv s t a {X} (mk : X -> value) dflt (f g : stateObject C -> X) :
  obj_le kv (lookup_obj s a) (lookup_obj t a) -> owf s -> owf t ->
  (forall x y, so_le kv x y -> lookup_obj s a = Ret (Some x) -> lookup_obj t a = Ret (Some y) ->
     f x = g y) ->
  observe_obj mk dflt f (lookup_obj s a) = observe_obj mk dflt g (lookup_obj t a).
Proof.
  intros Ho Hs Ht Hf. unfold observe_obj.
  destruct (lookup_obj s a) as [o|p], (lookup_obj t a) as [o'|p']; simpl in *; try done; [|congruence].
  inversion Ho as [x y Hxy|]; subst; simpl; [|done]. by rewrite (Hf x y).
Qed.

Lemma so_le_empty kv so (t : stateObject C) : so_le kv so t -> so_empty so = so_empty t.
Proof.
  intros Hle. unfold so_empty, Account.Balance. rewrite (sl_account _ _ _ Hle). cbn.
  by rewrite (sl_coins _ _ _ Hle).
Qed.

Lemma so_le_CodeHash kv so (t : stateObject C) : so_le kv so t -> CodeHash so = CodeHash t.
Proof. intros Hle. unfold CodeHash. by rewrite (sl_account _ _ _ Hle). Qed.

Lemma observe_le s t q : sle s t -> owf s -> owf t -> observe q s = observe q t.
Proof.
  intros [A J K O] Hs Ht. pose proof (aux_kv _ _ A) as Hkv. unfold aux in A.
  injection A as E1 E2 E3 E4 E5 E6 E7 E8 E9 E10 E11 E12.
  unfold observe, Preimages, AddressInAccessList, SlotInAccessList, GetHeightHash,
    IsContractInBlockedList. rewrite <- ?E1, <- ?E3, <- ?E4, <- ?E8, <- ?E9, <- ?E10, <- ?E12.
  destruct q; try done; try case_match; try done;
    (apply (observe_obj_le (kvstore s)); [apply O|done|done|]); intros x y Hle Hx Hy.
  - apply (sl_coins _ _ _ Hle).
  - unfold Nonce. by rewrite (sl_account _ _ _ Hle).
  - apply (sl_code _ _ _ Hle).
  - by rewrite (sl_code _ _ _ Hle).
  - by rewrite (so_le_CodeHash _ _ _ Hle).
  - rewrite (sl_storage _ _ _ Hle). unfold GetStorageByAddressKey. by rewrite (sl_address _ _ _ Hle).
  - unfold GetStorageByAddressKey. by rewrite (sl_address _ _ _ Hle).
  - apply (sl_suicided _ _ _ Hle).
  - by eapply so_le_empty.
  - done.
Qed.

(** Every query is answered by [observe] and changes nothing observable. *)
Lemma read_answers s q : wf s -> answers s q (read q s).
Proof.
  intros Hwf. assert (forall v, observe q s = Ret v -> answers s q (Ret (v, s))) as Hhere
    by (intros v Hv; split; [done|by apply quiet_same]).
  destruct q; cbn [read]; try (by apply Hhere).
  - by apply (read_plain s a (QBalance a) VZ 0%Z so_Balance).
  - by apply (read_plain s a (QNonce a) VZ 0%Z Nonce).
  - unfold GetCode. destruct (GetParams s) as [p s1] eqn:Hp.
    destruct (GetParams_same s p s1 Hwf Hp) as (Hw1 & Hs1 & ->).
    pose proof (aux_kv _ _ (same_aux _ _ Hs1)) as Hkv.
    assert (IsContractInBlockedList s1 (Address_Bytes a) = IsContractInBlockedList s (Address_Bytes a)) as ->
      by (unfold IsContractInBlockedList; by rewrite Hkv).
    destruct (_ && _) eqn:Hb; 
      [change (observe (QCode a) s = Panic (PanicAddr a)); unfold observe; by rewrite Hb|].
    assert (observe (QCode a) s1 = observe (QCode a) s) as Hobs
      by (symmetry; apply observe_le; [by apply same_le|apply Hwf|apply Hw1]).
    assert (answers s1 (QCode a) (answer VBytes ('(o, s) ← getStateObject s1 a;
      match o with None => Ret (None, s) | Some so => object_Code s so end))) as Hans.
    { apply (read_method s1 a (QCode a) VBytes None (code_of (kvstore s))); [done| |].
      - rewrite Hobs. unfold observe. rewrite Hb. by rewrite <- (same_obj _ _ Hs1).
      - intros s2 so Hw2 Hs2 Hl2 _. rewrite Hkv, (aux_kv _ _ (same_aux _ _ Hs2)).
        by apply (object_Code_total s2 a). }
    destruct (answer _ _) as [[v s']|p]; simpl in *; rewrite <- ?Hobs; [|done].
    destruct Hans as [-> Hst]. split; [done|]. eapply quiet_trans; [|exact Hst]. by apply quiet_same.
  - apply (read_method s a (QCodeSize a) VNat 0 (fun so => go_len (code_of (kvstore s) so))
      (fun s so => match so_code so with Some code => Ret (length code, s)
         | None => '(code, s) ← object_Code s so; Ret (go_len code, s) end)); [done..|].
    intros s1 so Hw1 Hs1 Hl1 Hwo. rewrite (aux_kv _ _ (same_aux _ _ Hs1)).
    rewrite (code_size_spec _ _ Hwo). destruct (so_code so) as [c|].
    + exists s1. split; [done|by apply quiet_same].
    + destruct (object_Code_total s1 a so Hw1 Hl1) as (s2 & -> & Hst). by exists s2.
  - by apply (read_plain s a (QCodeHash a) VHash 0%N (fun so => BytesToHash (CodeHash so))).
  - apply (read_method s a (QState a key) VHash 0%N (fun so => current_value (kvstore s) so
      (GetStorageByAddressKey so (Hash_Bytes key)))); [done..|].
    intros s1 so Hw1 Hs1 Hl1 Hwo. rewrite (aux_kv _ _ (same_aux _ _ Hs1)).
    destruct (so_GetState_spec (kvstore s1) so key Hwo) as (so' & -> & Hw' & Hle & _). simpl.
    destruct (setStateObject_quiet s1 a so so' Hw1 Hl1 Hw' Hle) as (s2 & -> & Hst). by exists s2.
  - apply (read_method s a (QCommittedState a key) VHash 0%N (fun so => storage_value (kvstore s)
      (address so) (GetStorageByAddressKey so (Hash_Bytes key)))); [done..|].
    intros s1 so Hw1 Hs1 Hl1 Hwo. rewrite (aux_kv _ _ (same_aux _ _ Hs1)).
    destruct (GetCommittedState_spec (kvstore s1) so key Hwo) as (so' & -> & Hw' & Hle & _). simpl.
    destruct (setStateObject_quiet s1 a so so' Hw1 Hl1 Hw' Hle) as (s2 & -> & Hst). by exists s2.
  - by apply (read_plain s a (QHasSuicided a) VBool false suicided).
  - by apply (read_plain s a (QEmpty a) VBool true so_empty).
  - by apply (read_plain s a (QExist a) VBool false (fun _ => true)).
  - unfold answers. cbn. destruct (SlotInAccessList s a slot); [|done].
    split; [done|]. by apply quiet_same.
Qed.

(** ** Operations are undoable steps *)

Definition plain (o : op) : bool := match o with OpSnapshot | OpRevert _ => false | _ => true end.

Lemma exec_step id o s s' : plain o = true -> op_ok id o -> wf s -> exec o s = Ret s' -> step s s'.
Proof.
  intros Hp Hok Hwf He. destruct o; try done; cbn [exec op_ok] in *.
  - bind_inv He. destruct r as [v s1]. injection He as <-.
    pose proof (read_answers s q Hwf) as Ha. rewrite He0 in Ha. destruct Ha. by apply quiet_step.
  - by eapply CreateAccount_step.
  - eapply on_object_step; [done|done| |exact He]. apply SubBalance_method.
  - destruct Hok. eapply on_object_step; [done|done| |exact He]. by apply AddBalance_method.
  - eapply on_object_step; [done|done| |exact He]. apply SetBalance_method.
  - eapply on_object_step; [done|done| |exact He]. apply SetNonce_method.
  - unfold SetCode in He. bind_inv He. injection He as <-.
    assert (step s r) as Hst
      by (eapply on_object_step; [done|done| |exact He0]; apply SetCode_method).
    eapply step_trans; [exact Hst|]. destruct Hst as (Hw & _).
    apply step_same; [by destruct Hw as [[] []]|done].
  - destruct Hok. eapply on_object_step; [done|done| |exact He]. by apply SetState_method.
  - bind_inv He. destruct r as [b s1]. injection He as <-. by eapply Suicide_step.
  - by eapply AddRefund_step.
  - by eapply SubRefund_step.
  - by eapply AddLog_step.
  - by eapply AddPreimage_step.
  - by eapply AddAddress_step.
  - by eapply AddSlot_step.
Qed.

(** ** Revisions *)

Definition rev_lt (r1 r2 : revision) : Prop :=
  (rev_id r1 < rev_id r2)%Z /\ journalIndex r1 <= journalIndex r2.

(** Snapshots are taken in order of ids and of journal positions. *)
Record revs_wf s : Prop := {
  rw_sorted : StronglySorted rev_lt (validRevisions s);
  rw_bounds : Forall (fun r => (rev_id r < nextRevisionID s)%Z /\
                journalIndex r <= jlength (csdb_journal s)) (validRevisions s);
}.

Lemma Snapshot_revs s : revs_wf s -> revs_wf (Snapshot s).2.
Proof.
  intros [Hs Hb]. split; cbn.
  - apply StronglySorted_app. split_and!; [|done|].
    + intros x y Hx Hy. apply list_elem_of_singleton in Hy as ->.
      rewrite Forall_forall in Hb. destruct (Hb x Hx). by split; cbn.
    + constructor; constructor.
  - apply Forall_app. split.
    + eapply Forall_impl; [exact Hb|]. cbn. intros r [? ?]. split; [lia|done].
    + constructor; [|done]. cbn. split; [lia|done].
Qed.

(** The search of [RevertToSnapshot] finds a revision that is present. *)
Lemma sorted_lookup_lt (l : list revision) i k x y : StronglySorted rev_lt l ->
  l !! i = Some x -> l !! k = Some y -> i < k -> rev_lt x y.
Proof.
  revert i k; induction l as [|z l IH]; intros [|i] [|k] Hs Hi Hk Hik; try lia; try done.
  - apply StronglySorted_inv in Hs as [_ Hall]. simpl in *. simplify_eq.
    rewrite Forall_forall in Hall. apply Hall. by eapply list_elem_of_lookup_2.
  - apply StronglySorted_inv in Hs as [Hs _]. simpl in *. eapply (IH i k); eauto; lia.
Qed.

Lemma RevertToSnapshot_found s i r : revs_wf s -> validRevisions s !! i = Some r ->
  RevertToSnapshot s (rev_id r)
  = (s ← journal_revert (journalIndex r) s; Ret (s <| validRevisions := take i (validRevisions s) |>)).
Proof.
  intros [Hs _] Hi. unfold RevertToSnapshot.
  assert (i < length (validRevisions s)) as Hlt by (by eapply lookup_lt_Some).
  rewrite (sort_Search_first _ _ i); [by rewrite Hi, Z.eqb_refl| |done|by rewrite Hi, Z.leb_refl|].
  - intros a b Hab. destruct (validRevisions s !! b) as [rb|] eqn:Hb; [|done].
    destruct (validRevisions s !! a) as [ra|] eqn:Ha;
      [|apply lookup_ge_None in Ha; apply lookup_lt_Some in Hb; lia].
    rewrite !Z.leb_le. destruct (decide (a = b)) as [->|]; [simplify_eq; lia|].
    destruct (sorted_lookup_lt _ a b ra rb Hs Ha Hb); lia.
  - intros a Ha. destruct (lookup_lt_is_Some_2 (validRevisions s) a) as [ra Hra]; [lia|].
    rewrite Hra. apply Z.leb_gt. by destruct (sorted_lookup_lt _ a i ra r Hs Hra Hi).
Qed.

Lemma RevertToSnapshot_inv s id s' : RevertToSnapshot s id = Ret s' ->
  exists i r, validRevisions s !! i = Some r /\ rev_id r = id.
Proof.
  unfold RevertToSnapshot. destruct (validRevisions s !! _) as [r|] eqn:Hr; [|done].
  destruct (Z.eqb_spec (rev_id r) id); [|done]. eauto.
Qed.

(** Reverting entries leaves the revisions alone. *)
Lemma setStateObject_revs s so s' : setStateObject s so = Ret s' -> revs s' = revs s.
Proof.
  unfold setStateObject. case_match; [|by intros [= <-]].
  intros Hs. bind_inv Hs. by injection Hs as <-.
Qed.

Lemma getStateObject_revs s a o s' : getStateObject s a = Ret (o, s') -> revs s' = revs s.
Proof.
  unfold getStateObject. case_match.
  - intros Hg. bind_inv Hg. case_match; by injection Hg as <- <-.
  - case_match; [|unfold setError; destruct (dbErr s); by intros [= <- <-]].
    intros Hg. bind_inv Hg. bind_inv Hg. injection Hg as <- <-. by eapply setStateObject_revs.
Qed.

Lemma revert_entry_revs e s s' : revert_entry e s = Ret s' -> revs s' = revs s.
Proof.
  destruct e; cbn [revert_entry]; intros Hr;
    try (bind_inv Hr; destruct r as [o s1]; apply getStateObject_revs in Hr0; rewrite <- Hr0);
    try (destruct o; [|first [by injection Hr as <- | done]]; cbn [deref mbind res_bind] in Hr;
         repeat bind_inv Hr; by eapply setStateObject_revs);
    try (by eapply setStateObject_revs);
    try (repeat case_match; by injection Hr as <-).
  bind_inv Hr. by injection Hr as <-.
Qed.

Lemma pops_revs n s s' : pops n s s' -> revs s' = revs s.
Proof.
  revert s. induction n as [|n IH]; intros s; simpl; [by intros ->|].
  intros (s1 & Hp & _ & Hs). rewrite (IH _ Hs). unfold pop in Hp.
  bind_inv Hp. bind_inv Hp. bind_inv Hp. injection Hp as <-.
  by rewrite <- (revert_entry_revs _ _ _ Hp1).
Qed.

(** ** Inside a snapshot

    [s0] is the database right after the snapshot was taken: its last
    revision is the snapshot's.  [inside s0 s] holds as long as that
    snapshot is valid. *)
Record inside s0 s : Prop := {
  in_wf : wf s;
  in_undo : exists n t, pops n s t /\ sle s0 t;
  in_revs : revs_wf s;
  in_prefix : validRevisions s0 `prefix_of` validRevisions s;
}.

Lemma undoable_length s s' : undoable s s' -> jlength (csdb_journal s) <= jlength (csdb_journal s').
Proof.
  intros (_ & n & t & Hp & Hle). rewrite (pops_length _ _ _ Hp), (sle_journal _ _ Hle). lia.
Qed.

Lemma inside_step s0 s s' : inside s0 s -> step s s' -> inside s0 s'.
Proof.
  intros [Hw (n & t & Hp & Hle) [Hs Hb] Hpre] (Hw' & Hu & Hr & _).
  pose proof (undoable_length _ _ Hu) as Hlen.
  unfold revs in Hr. injection Hr as Hr1 Hr2. destruct Hu as (_ & m & u & Hm & Hle').
  pose proof (pops_wf _ _ _ Hw' Hm) as Hwu.
  destruct (pops_le n s u t Hle' Hw Hwu Hp) as (v & Hv & Hlev & _).
  split; [done| | |by rewrite Hr1].
  - exists (m + n), v. split; [by eapply pops_add|]. by etrans.
  - split; rewrite Hr1; [done|]. eapply Forall_impl; [exact Hb|]. cbn. rewrite Hr2.
    intros r [? ?]. split; [done|lia].
Qed.

Lemma sle_revisions s l : sle s (s <| validRevisions := l |>).
Proof. by destruct (reflexivity s : sle s s). Qed.
Lemma wf_revisions s l : wf s -> wf (s <| validRevisions := l |>).
Proof. by intros [[] []]. Qed.

Lemma StronglySorted_take (l : list revision) n :
  StronglySorted rev_lt l -> StronglySorted rev_lt (take n l).
Proof.
  intros Hs. rewrite <- (take_drop n l) in Hs. by apply StronglySorted_app in Hs as (_ & ? & _).
Qed.

(** Reverting to any revision recorded since. *)
Lemma revert_inside s0 s i r : inside s0 s -> validRevisions s !! i = Some r ->
  jlength (csdb_journal s0) <= journalIndex r ->
  exists s1, RevertToSnapshot s (rev_id r) = Ret s1 /\ wf s1 /\
    (exists n t, pops n s1 t /\ sle s0 t) /\ revs_wf s1 /\
    validRevisions s1 = take i (validRevisions s) /\
    jlength (csdb_journal s1) = journalIndex r.
Proof.
  intros [Hw (n & t & Hp & Hle) Hrw Hpre] Hi Hge.
  pose proof Hrw as [Hs Hb]. pose proof (pops_length _ _ _ Hp) as Hlen.
  rewrite <- (sle_journal _ _ Hle) in Hlen.
  assert (journalIndex r <= jlength (csdb_journal s)) as Hji.
  { rewrite Forall_forall in Hb. apply (Hb r). by eapply list_elem_of_lookup_2. }
  replace n with (jlength (csdb_journal s) - journalIndex r
                  + (journalIndex r - jlength (csdb_journal s0))) in Hp by lia.
  apply pops_split in Hp as (s1 & Hp1 & Hp2).
  pose proof (pops_length _ _ _ Hp1) as Hlen1.
  pose proof (pops_wf _ _ _ Hw Hp1) as Hw1. pose proof (pops_revs _ _ _ Hp1) as Hr1.
  unfold revs in Hr1. injection Hr1 as Hr1 Hr2.
  rewrite (RevertToSnapshot_found s i r Hrw Hi).
  rewrite (journal_revert_pop_n (jlength (csdb_journal s) - journalIndex r)) by lia.
  rewrite (pops_pop_n _ _ _ Hp1). simpl.
  set (s2 := s1 <| validRevisions := take i (validRevisions s1) |>).
  assert (wf s2) as Hw2 by (by apply wf_revisions).
  destruct (pops_le _ s1 s2 t (sle_revisions s1 _) Hw1 Hw2 Hp2) as (t2 & Ht2 & Hlet & _).
  exists s2. split_and!; [done|done| | |cbn; by rewrite Hr1|cbn; lia].
  - do 2 eexists. split; [exact Ht2|]. by etrans.
  - split; cbn; rewrite Hr1; [by apply StronglySorted_take|].
    apply Forall_forall. intros r' (k & Hk)%list_elem_of_lookup.
    apply lookup_take_Some in Hk as [Hk Hki]. rewrite Hr2.
    rewrite Forall_forall in Hb. destruct (Hb r') as [Hid _]; [by eapply list_elem_of_lookup_2|].
    split; [done|]. destruct (sorted_lookup_lt _ k i r' r Hs Hk Hi Hki). lia.
Qed.

(** The revisions above [id] were recorded after [s0]. *)
Definition above (id : Z) s0 : Prop := forall s i r, inside s0 s ->
  validRevisions s !! i = Some r -> (id < rev_id r)%Z ->
  jlength (csdb_journal s0) <= journalIndex r /\
  validRevisions s0 `prefix_of` take i (validRevisions s).

(** Every allowed operation stays inside the snapshot. *)
Lemma inside_exec id s0 s o s' : inside s0 s -> above id s0 -> op_ok id o -> exec o s = Ret s' -> inside s0 s'.
Proof.
  intros Hin Habove Hok He. destruct (plain o) eqn:Hp.
  { eapply inside_step; [exact Hin|]. eapply exec_step; [done|done|apply Hin|done]. }
  pose proof Hin as [Hw Hu Hrw Hpre]. destruct o; try done; cbn [exec op_ok] in *.
  - injection He as <-. split; [by destruct Hw as [[] []]| |by apply Snapshot_revs|].
    + destruct Hu as (n & t & Hn & Hle).
      destruct (pops_le n s (Snapshot s).2 t) as (t' & Ht' & Hle' & _); [..|done|].
      * split; try done. intros a. apply obj_le_refl.
      * done.
      * by destruct Hw as [[] []].
      * exists n, t'. split; [done|]. by etrans.
    + cbn. by apply prefix_app_r.
  - destruct (RevertToSnapshot_inv _ _ _ He) as (i & r & Hi & <-).
    destruct (Habove s i r Hin Hi Hok) as [Hji Hpre'].
    destruct (revert_inside s0 s i r Hin Hi Hji) as (s1 & Hr1 & Hw1 & Hu1 & Hrw1 & Hv1 & _).
    assert (s' = s1) as -> by congruence. split; try done. by rewrite Hv1.
Qed.

(** After the snapshot [id] itself. *)
Lemma above_snapshot id s0 l :
  validRevisions s0 = l ++ [mkRevision id (jlength (csdb_journal s0))] -> above id s0.
Proof.
  intros Hl s i r [_ _ Hrw [k Hk]] Hi Hid. pose proof (rw_sorted _ Hrw) as Hs.
  assert (validRevisions s !! length l = Some (mkRevision id (jlength (csdb_journal s0)))) as Hbase.
  { rewrite Hk, Hl, <- app_assoc, lookup_app_r, Nat.sub_diag by lia. done. }
  assert (length l < i) as Hil.
  { destruct (decide (length l < i)); [done|]. exfalso.
    destruct (decide (i = length l)) as [->|]; [simplify_eq; simpl in Hid; lia|].
    destruct (sorted_lookup_lt _ i (length l) _ _ Hs Hi Hbase) as [Hlt _]; [lia|]. simpl in Hlt. lia. }
  destruct (sorted_lookup_lt _ _ _ _ _ Hs Hbase Hi Hil) as [_ Hji]. split; [done|].
  rewrite Hk, Hl. rewrite take_app_ge by (rewrite length_app; simpl; lia). by apply prefix_app_r.
Qed.

Lemma inside_exec_all id s0 ops s s' : inside s0 s -> above id s0 ->
  Forall (op_ok id) ops -> exec_all ops s = Ret s' -> inside s0 s'.
Proof.
  intros Hin Hl Hok. revert s Hin. induction Hok as [|o ops Ho Hok IH]; intros s Hin He; simpl in He.
  - by injection He as <-.
  - bind_inv He. eapply IH; [|exact He]. by eapply inside_exec.
Qed.

(** The snapshot itself. *)
Lemma Snapshot_inside s : wf s -> revs_wf s -> inside (Snapshot s).2 (Snapshot s).2.
Proof.
  intros Hw Hr. split; [by destruct Hw as [[] []]| |by apply Snapshot_revs|done].
  exists 0, (Snapshot s).2. done.
Qed.

Lemma snapshot_revert s ops s1 : wf s -> revs_wf s ->
  Forall (op_ok (Snapshot s).1) ops -> exec_all ops (Snapshot s).2 = Ret s1 ->
  exists s2, RevertToSnapshot s1 (Snapshot s).1 = Ret s2 /\ wf s2 /\ revs_wf s2 /\ sle s s2 /\
    validRevisions s2 = validRevisions s.
Proof.
  intros Hw Hr Hok He. set (s0 := (Snapshot s).2) in *. set (id := (Snapshot s).1) in *.
  assert (inside s0 s1) as Hin.
  { eapply inside_exec_all; [by apply Snapshot_inside| |exact Hok|exact He].
    by apply (above_snapshot _ _ (validRevisions s)). }
  pose proof Hin as [_ _ _ [k Hk]].
  assert (validRevisions s1 !! length (validRevisions s)
          = Some (mkRevision id (jlength (csdb_journal s)))) as Hbase.
  { rewrite Hk. cbn. rewrite <- app_assoc, lookup_app_r, Nat.sub_diag by lia. done. }
  destruct (revert_inside s0 s1 _ _ Hin Hbase) as (s2 & Hr2 & Hw2 & (n & t & Hp & Hle) & Hrw2 & Hv2 & Hj2);
    [cbn; lia|].
  exists s2. split_and!; [done|done|done| |].
  - pose proof (pops_length _ _ _ Hp) as Hlen. rewrite <- (sle_journal _ _ Hle), Hj2 in Hlen.
    cbn in Hlen. assert (n = 0) as -> by lia. simpl in Hp. subst t.
    etrans; [|exact Hle]. split; try done. intros a. apply obj_le_refl.
  - rewrite Hv2, Hk. cbn. rewrite <- app_assoc. by rewrite take_app_length.
Qed.

(** An empty database over stores whose accounts are well formed. *)
Lemma empty_wf kv ak ps : (forall a acc, GetAccount ak a = Some (AEth acc) -> account_ok acc) ->
  wf (CreateEmptyCommitStateDB kv ak ps) /\ revs_wf (CreateEmptyCommitStateDB kv ak ps).
Proof.
  intros Hok. split; [split; split|split]; simpl; try done; try apply idx_wf_empty.
  - apply newJournal_wf.
  - constructor.
Qed.

(** No revert touches the cache of codes behind [GetCacheCode]. *)
Lemma setStateObject_codeCache s so s' : setStateObject s so = Ret s' -> codeCache s' = codeCache s.
Proof. unfold setStateObject. case_match; [|by intros [= <-]]. intros Hs. bind_inv Hs. by injection Hs as <-. Qed.
Lemma getStateObject_codeCache s a o s' : getStateObject s a = Ret (o, s') -> codeCache s' = codeCache s.
Proof.
  unfold getStateObject. case_match.
  - intros Hg. bind_inv Hg. case_match; by injection Hg as <- <-.
  - case_match; [|unfold setError; destruct (dbErr s); by intros [= <- <-]].
    intros Hg. bind_inv Hg. bind_inv Hg. injection Hg as <- <-. by eapply setStateObject_codeCache.
Qed.
Lemma revert_entry_codeCache e s s' : revert_entry e s = Ret s' -> codeCache s' = codeCache s.
Proof.
  destruct e; cbn [revert_entry]; intros Hr;
    try (bind_inv Hr; destruct r as [o s1]; apply getStateObject_codeCache in Hr0; rewrite <- Hr0);
    try (destruct o; [|first [by injection Hr as <- | done]]; cbn [deref mbind res_bind] in Hr;
         repeat bind_inv Hr; by eapply setStateObject_codeCache);
    try (by eapply setStateObject_codeCache);
    try (repeat case_match; by injection Hr as <-).
  bind_inv Hr. by injection Hr as <-.
Qed.
Lemma RevertToSnapshot_codeCache s id s' : RevertToSnapshot s id = Ret s' -> codeCache s' = codeCache s.
Proof.
  assert (forall n k (t t' : csdb), revert_loop n k t = Ret t' -> codeCache t' = codeCache t) as Hloop.
  { induction n as [|n IH]; intros k t t' Hr; cbn [revert_loop] in Hr; [by injection Hr as <-|].
    bind_inv Hr. bind_inv Hr. bind_inv Hr. apply revert_entry_codeCache in Hr1. apply IH in Hr. cbn in Hr. congruence. }
  intros Hr. unfold RevertToSnapshot in Hr. destruct (validRevisions s !! _); [|done]. case_match; [|done].
  bind_inv Hr. injection Hr as <-. unfold journal_revert in Hr0. bind_inv Hr0. injection Hr0 as <-. cbn. by eapply Hloop.
Qed.

(** C1: [RevertToSnapshot] undoes what the virtual machine did after
    [Snapshot], nested snapshots and reverts included.  It does not panic,
    every query of [query] is then answered exactly as before the snapshot,
    and the journal and the stack of revisions are those of that moment.
    The operations are those [op_ok] allows: addresses of 20 and values of
    32 bytes, no revert to this or an older snapshot, and no [AddBalance]
    of zero to the RIPEMD account, which breaks the journal.  One getter is
    no [query], and is not restored: [GetCacheCode] keeps the codes set
    since the snapshot. *)
Theorem RevertToSnapshot_restores s ops s1 :
  wf s -> revs_wf s -> Forall (op_ok (Snapshot s).1) ops ->
  exec_all ops (Snapshot s).2 = Ret s1 ->
  exists s2, RevertToSnapshot s1 (Snapshot s).1 = Ret s2 /\ wf s2 /\
    (forall q, fst <$> read q s2 = fst <$> read q s) /\
    csdb_journal s2 = csdb_journal s /\ validRevisions s2 = validRevisions s /\
    (forall a, GetCacheCode s2 a = GetCacheCode s1 a).
Proof.
  intros Hw Hr Hok He.
  destruct (snapshot_revert s ops s1 Hw Hr Hok He) as (s2 & Hs2 & Hw2 & _ & Hle & Hv).
  exists s2. split_and!; [done|done| |by rewrite (sle_journal _ _ Hle)|done|].
  2:{ intros a. unfold GetCacheCode. by rewrite (RevertToSnapshot_codeCache _ _ _ Hs2). }
  intros q. pose proof (observe_le s s2 q Hle (proj1 Hw) (proj1 Hw2)) as Ho.
  pose proof (read_answers s q Hw) as Ha. pose proof (read_answers s2 q Hw2) as Ha2.
  unfold answers in *. destruct (read q s) as [[v s']|], (read q s2) as [[v2 s2']|]; simpl in *;
    split_conjs; congruence.
Qed.

(** A getter answers what is observed and changes no observation. *)
Lemma read_observed s q : wf s ->
  fst <$> read q s = observe q s /\
  forall v s', read q s = Ret (v, s') -> wf s' /\ forall q', observe q' s' = observe q' s.
Proof.
  intros Hw. pose proof (read_answers s q Hw) as Ha. unfold answers in Ha.
  destruct (read q s) as [[v s1]|p]; simpl; [|by split].
  destruct Ha as [-> (Hw1 & Hle & _)]. split; [done|].
  intros v' s' [= <- <-]. split; [done|]. intros q'. symmetry. by apply observe_le; [|apply Hw|apply Hw1].
Qed.

(** C2: the getters of the database (balance, nonce, code, storage and so
    on) return what the cached object, or else the stored account, holds,
    and loading an account into the cache changes no other answer. *)
Theorem read_is_observe s q : wf s ->
  fst <$> read q s = observe q s /\
  forall v s', read q s = Ret (v, s') -> wf s' /\ forall q', observe q' s' = observe q' s.
Proof. apply read_observed. Qed.

(** Every run from a well-formed database whose open snapshots stay. *)
Lemma exec_all_wf ops s0 s : wf s0 -> revs_wf s0 -> above (-1) s0 ->
  Forall (op_ok (-1)) ops -> exec_all ops s0 = Ret s -> wf s /\ revs_wf s.
Proof.
  intros Hw Hr Habove Hops He.
  assert (inside s0 s0) as Hin by (split; try done; by exists 0, s0).
  destruct (inside_exec_all (-1) s0 ops s0 s Hin Habove Hops He) as [Hw' _ Hr' _]. done.
Qed.

Lemma empty_above kv ak ps : above (-1) (CreateEmptyCommitStateDB kv ak ps : csdb).
Proof. intros s1 i r _ _ _. split; [apply Nat.le_0_l|apply prefix_nil]. Qed.

(** C3: the invariant of the database holds in every state the virtual
    machine can reach from an empty database, whatever the interleaving
    of changes, snapshots and reverts, as long as the operations are those
    [op_ok] allows: addresses of 20 and values of 32 bytes, and no
    [AddBalance] of zero to the RIPEMD account.  That touch really breaks
    the invariant ([ripemd_touch_corrupts_journal]). *)
Theorem reachable_wf kv ak ps ops s :
  (forall a acc, GetAccount ak a = Some (AEth acc) -> account_ok acc) ->
  Forall (op_ok (-1)) ops -> exec_all ops (CreateEmptyCommitStateDB kv ak ps) = Ret s ->
  wf s /\ revs_wf s.
Proof.
  intros Hok Hops He. destruct (empty_wf kv ak ps Hok) as [Hw Hr].
  by eapply exec_all_wf; [..|apply empty_above|exact Hops|exact He].
Qed.

End Snapshot.
End StateDBSnapshot.
