(* ===== verification/StateDBCommit.v ===== *)
(** Finalise and Commit: the changes reach the stores.

    [Finalise] writes the storage slots and the accounts of the dirty
    addresses, [Commit] the code and the accounts again.  The main theorem
    says that a database opened on the resulting stores shows, for every
    dirty account, what the cache showed before. *)
From S2P Require Import Prelude.
From S2P Require Import GoSlices.
From S2P Require Import Interfaces.
From S2P Require Import Account.
From S2P Require Import AccessList.
From S2P Require Import StateObject.
From S2P Require Import StateObjectSpec.
From S2P Require Import Journal.
From S2P Require Import StateDB.
From S2P Require Import StateDBInv.
From S2P Require Import StateDBSnapshot.
Import StateObject Journal StateDB StateObjectSpec StateDBInv StateDBSnapshot.

Module StateDBCommit.

(** ** Keys *)

Lemma storage_key_inj a b k k' : hash_ok k -> hash_ok k' -> address_ok a -> address_ok b ->
  AddressStoragePrefix a ++ Hash_Bytes k = AddressStoragePrefix b ++ Hash_Bytes k' -> a = b /\ k = k'.
Proof.
  intros Hk Hk' Ha Hb Heq. unfold AddressStoragePrefix in Heq. rewrite <- !app_assoc in Heq.
  apply app_inj_1 in Heq as [_ Heq]; [|done]. apply app_inj_1 in Heq as [H1 H2];
    [|by rewrite !length_Address_Bytes].
  split; [by apply Address_Bytes_inj|by apply Hash_Bytes_inj].
Qed.

Lemma storage_key_other a b x y : address_ok a -> address_ok b -> a ≠ b ->
  AddressStoragePrefix a ++ x ≠ AddressStoragePrefix b ++ y.
Proof.
  intros Ha Hb Hab Heq. unfold AddressStoragePrefix in Heq. rewrite <- !app_assoc in Heq.
  apply app_inj_1 in Heq as [_ Heq]; [|done]. apply app_inj_1 in Heq as [H1 _]; [|by rewrite !length_Address_Bytes].
  apply Hab. by apply Address_Bytes_inj.
Qed.

Lemma code_key_not_storage a x h : KeyPrefixCode ++ h ≠ AddressStoragePrefix a ++ x.
Proof. unfold AddressStoragePrefix, KeyPrefixCode, KeyPrefixStorage. simpl. by intros [=]. Qed.

Section Commit.
Context {St AK C : Type} `{KVStore St, SdkCoins C, AccountKeeper AK C, Keccak, SdkConfig}.
Context `{!SdkCoinsLaws C, !KeccakLaws, !AccountKeeperLaws AK C, !KVStoreLaws St}.
Context (BlacklistedAddr : Address -> bool).
Abbreviation csdb := (CommitStateDB St AK C).
Implicit Types (s t : csdb) (so : stateObject C) (kv : St).

(** ** Storage of one object *)

(** The part of [obj_wf] that holds between the rounds of [commitState]. *)
Record origin_ok kv so : Prop := {
  oo_origin k i : keyToOriginStorageIndex so !! k = Some i -> hash_ok k /\
    exists st, originStorage so !! i = Some st /\ State_Value st = storage_value kv (address so) k;
  oo_inj k k' i : keyToOriginStorageIndex so !! k = Some i ->
    keyToOriginStorageIndex so !! k' = Some i -> k = k';
}.

Lemma storage_value_write kv a k v : hash_ok v -> v ≠ 0%N ->
  storage_value (kv_set kv (AddressStoragePrefix a ++ Hash_Bytes k) (Hash_Bytes v)) a k = v.
Proof.
  intros Hv Hne. unfold storage_value. rewrite kv_get_set, decide_True by done.
  change (go_len (Some (Hash_Bytes v))) with (length (Hash_Bytes v)). rewrite length_Hash_Bytes. by apply BytesToHash_Bytes.
Qed.

(** [kv'] is [kv] but for the slots of [a]. *)
Definition frame_storage kv kv' (a : Address) : Prop :=
  forall key, (forall x, key ≠ AddressStoragePrefix a ++ x) -> kv_get kv' key = kv_get kv key.

Lemma frame_storage_trans kv1 kv2 kv3 a :
  frame_storage kv1 kv2 a -> frame_storage kv2 kv3 a -> frame_storage kv1 kv3 a.
Proof. intros H12 H23 key Hkey. by rewrite H23, H12. Qed.

(** One written slot. *)
Record slot_written kv so (k v : Hash) kv' so' : Prop := {
  sw_frame : frame_storage kv kv' (address so);
  sw_value k' : hash_ok k' ->
    storage_value kv' (address so) k' = if decide (k = k') then v else storage_value kv (address so) k';
  sw_origin : origin_ok kv' so';
  sw_cached k' : k' ≠ k -> cached_key so k' -> cached_key so' k';
  sw_rest : exists os m, so' = so <| keyToDirtyStorageIndex := delete k (keyToDirtyStorageIndex so) |>
              <| originStorage := os |> <| keyToOriginStorageIndex := m |>;
}.

Lemma storage_value_frame kv kv' a k :
  kv_get kv' (AddressStoragePrefix a ++ Hash_Bytes k) = kv_get kv (AddressStoragePrefix a ++ Hash_Bytes k) ->
  storage_value kv' a k = storage_value kv a k.
Proof. unfold storage_value. by intros ->. Qed.

Lemma commit_entry_spec kv so k v : origin_ok kv so -> address_ok (address so) ->
  cached_key so k -> hash_ok v -> exists kv' so',
  commit_entry (kv, so) (NewState k v) = Ret (kv', so') /\ slot_written kv so k v kv' so'.
Proof.
  intros [Ho Hinj] Ha [i Hi] Hv. destruct (Ho k i Hi) as (Hk & st & Hst & Hval).
  unfold commit_entry. cbn [State_Key State_Value keyToOriginStorageIndex set originStorage]. rewrite Hi.
  set (key := AddressStoragePrefix (address so) ++ Hash_Bytes k).
  assert (forall k', hash_ok k' -> k ≠ k' -> AddressStoragePrefix (address so) ++ Hash_Bytes k' ≠ key) as Hne.
  { intros k' Hk' Hkk Heq. apply Hkk. by apply storage_key_inj in Heq as [_ ->]. }
  destruct (N.eqb_spec v 0) as [->|Hv0].
  - do 2 eexists. split; [reflexivity|].
    assert (forall k', hash_ok k' -> storage_value (kv_delete kv key) (address so) k'
      = if decide (k = k') then 0%N else storage_value kv (address so) k') as Hsv.
    { intros k' Hk'. case_decide as Hkk.
      - subst k'. unfold storage_value. fold key. by rewrite kv_get_delete, decide_True.
      - apply storage_value_frame. rewrite kv_get_delete, decide_False; [done|]. intros Heq. by apply (Hne k'). }
    split; [|exact Hsv| | |by do 2 eexists].
    + intros x Hx. rewrite kv_get_delete, decide_False; [done|]. intros <-. by apply (Hx (Hash_Bytes k)).
    + split; cbn.
      * intros k' i'. rewrite lookup_delete_Some. intros [Hkk Hi'].
        destruct (Ho k' i' Hi') as (Hk' & st' & Hst' & Hv'). split; [done|]. exists st'.
        by rewrite Hsv, decide_False.
      * intros k1 k2 i'. rewrite !lookup_delete_Some. intros [_ ?] [_ ?]. by eapply Hinj.
    + intros k' Hkk [i' Hi']. exists i'. cbn. by rewrite lookup_delete_ne.
  - rewrite Hst. cbn [index_or_panic mbind res_bind].
    destruct (N.eqb_spec v (State_Value st)) as [Heq|Hneq].
    + do 2 eexists. split; [reflexivity|].
      split; [done| |by split|done|by exists (originStorage so), (keyToOriginStorageIndex so)].
      intros k' Hk'. case_decide; [|done]. subst. done.
    + do 2 eexists. split; [reflexivity|].
      assert (forall k', hash_ok k' -> storage_value (kv_set kv key (Hash_Bytes v)) (address so) k'
        = if decide (k = k') then v else storage_value kv (address so) k') as Hsv.
      { intros k' Hk'. case_decide as Hkk; [subst k'; by apply storage_value_write|].
        apply storage_value_frame. rewrite kv_get_set, decide_False; [done|]. intros Heq. by apply (Hne k'). }
      split; [|exact Hsv| |done|by exists (<[i := NewState (State_Key st) v]> (originStorage so)), (keyToOriginStorageIndex so)].
      * intros x Hx. rewrite kv_get_set, decide_False; [done|]. intros <-. by apply (Hx (Hash_Bytes k)).
      * split; cbn; [|done]. intros k' i' Hi'. destruct (Ho k' i' Hi') as (Hk' & st' & Hst' & Hv').
        split; [done|]. rewrite Hsv by done. destruct (decide (k = k')) as [<-|Hkk].
        -- assert (i' = i) as -> by congruence. eexists.
           rewrite list_lookup_insert_eq by (by eapply lookup_lt_Some). done.
        -- exists st'. split; [|done]. rewrite list_lookup_insert_ne; [done|].
           intros <-. apply Hkk. by eapply Hinj.
Qed.

(** All the dirty slots of an object. *)
Lemma commit_loop_spec l : forall kv so, origin_ok kv so -> address_ok (address so) ->
  NoDup (State_Key <$> l) ->
  (forall st, st ∈ l -> cached_key so (State_Key st) /\ hash_ok (State_Value st)) ->
  exists kv' so', commit_loop (kv, so) l = Ret (kv', so') /\
    frame_storage kv kv' (address so) /\ origin_ok kv' so' /\
    (forall k, hash_ok k ->
       (forall v, NewState k v ∈ l -> storage_value kv' (address so) k = v) /\
       (k ∉ State_Key <$> l -> storage_value kv' (address so) k = storage_value kv (address so) k)) /\
    exists dm os om, so' = so <| keyToDirtyStorageIndex := dm |> <| originStorage := os |>
                              <| keyToOriginStorageIndex := om |> /\
      forall k, dm !! k = if decide (k ∈ State_Key <$> l) then None else keyToDirtyStorageIndex so !! k.
Proof.
  induction l as [|[k v] l IH]; intros kv so Ho Ha Hnd Hl; cbn [commit_loop].
  - exists kv, so. split_and!; [done|done|done| |].
    + intros k Hk. split; [|done]. intros v Hv. by apply not_elem_of_nil in Hv.
    + exists (keyToDirtyStorageIndex so), (originStorage so), (keyToOriginStorageIndex so).
      split; [by destruct so|]. intros k. rewrite decide_False; [done|]. by apply not_elem_of_nil.
  - apply NoDup_cons in Hnd as [Hnin Hnd]. destruct (Hl (NewState k v)) as [Hc Hv]; [left|]. simpl in Hc, Hv.
    destruct (commit_entry_spec kv so k v Ho Ha Hc Hv) as (kv1 & so1 & He & [Hf1 Hv1 Ho1 Hc1 Hr1]).
    rewrite He. cbn [mbind res_bind]. destruct Hr1 as (os1 & om1 & Hso1).
    assert (address so1 = address so) as Ha1 by (by rewrite Hso1).
    destruct (IH kv1 so1) as (kv2 & so2 & Hloop & Hf2 & Ho2 & Hv2 & dm & os & om & Hso2 & Hdm);
      [done|by rewrite Ha1|done| |].
    { intros st Hst. destruct (Hl st) as [Hcs Hvs]; [by right|]. split; [|done]. apply Hc1; [|done].
      intros <-. apply Hnin. by apply (list_elem_of_fmap_2 State_Key l st). }
    rewrite Ha1 in Hf2, Hv2. exists kv2, so2.
    split_and!; [done|by eapply frame_storage_trans|done| |].
    + intros k' Hk'. destruct (Hv2 k' Hk') as [Hin Hout]. split.
      * intros v' [Hhd|Htl]%elem_of_cons; [|by apply Hin].
        injection Hhd as -> ->. rewrite Hout by done. by rewrite Hv1, decide_True.
      * intros Hk. rewrite fmap_cons, not_elem_of_cons in Hk. destruct Hk as [Hne Hk]. simpl in Hne.
        rewrite Hout by done. by rewrite Hv1, decide_False.
    + exists dm, os, om. split; [by rewrite Hso2, Hso1|]. intros k'. rewrite Hdm, Hso1. cbn.
      rewrite lookup_delete. repeat case_decide; try done; exfalso; set_solver.
Qed.

(** A storage write to another account is not seen. *)
Lemma frame_storage_value kv kv' a b k : frame_storage kv kv' a -> address_ok a -> address_ok b ->
  a ≠ b -> storage_value kv' b k = storage_value kv b k.
Proof.
  intros Hf Ha Hb Hab. apply storage_value_frame, Hf. intros x. apply storage_key_other; congruence.
Qed.

Lemma frame_code_of kv kv' a so : frame_storage kv kv' a -> code_of kv' so = code_of kv so.
Proof.
  intros Hf. unfold code_of. case_match; [done|]. case_match; [done|].
  apply Hf. intros x. apply code_key_not_storage.
Qed.

Lemma obj_wf_frame kv kv' a so : frame_storage kv kv' a -> address_ok a -> address so ≠ a ->
  obj_wf kv so -> obj_wf kv' so.
Proof.
  intros Hf Ha Hne [Ho Hd Hor Hinj Hc Hch Hco Hsto]. split; try done.
  - intros k i Hi. destruct (Hor k i Hi) as (Hk & st & Hst & Hv). split; [done|]. exists st.
    rewrite (frame_storage_value kv kv' a) by (done || apply Ho || congruence). done.
  - intros Hs. rewrite (frame_code_of _ _ _ _ Hf). auto.
  - intros c Hdc Hcode Hc0. rewrite (Hf _ (fun x => code_key_not_storage a x _)). auto.
Qed.

(** [commitState] makes the store agree with what [GetState] shows. *)
Lemma commitState_spec kv so : obj_wf kv so -> exists kv' os om,
  let so' := so <| keyToDirtyStorageIndex := ∅ |> <| originStorage := os |>
                <| keyToOriginStorageIndex := om |> <| dirtyStorage := [] |> in
  commitState kv so = Ret (kv', so') /\ frame_storage kv kv' (address so) /\ obj_wf kv' so' /\
  (forall k, hash_ok k -> storage_value kv' (address so) k = current_value kv so k).
Proof.
  intros Hwf. pose proof Hwf as [[Ha1 Ha] Hd Hor Hinj Hc Hch Hco Hsto].
  assert (forall st, st ∈ dirtyStorage so -> dirty_value so (State_Key st) = Some (State_Value st)) as Hdv.
  { intros st (i & Hi)%list_elem_of_lookup. unfold dirty_value, idx_find.
    assert (keyToDirtyStorageIndex so !! State_Key st = Some i) as -> by (apply Hd; eauto).
    simpl. by rewrite Hi. }
  assert (NoDup (State_Key <$> dirtyStorage so)) as Hnd.
  { apply NoDup_alt. intros i j k Hi Hj. rewrite list_lookup_fmap in Hi, Hj.
    destruct (dirtyStorage so !! i) as [u|] eqn:Hu; [|done].
    destruct (dirtyStorage so !! j) as [w|] eqn:Hw; [|done]. simpl in *.
    eapply (idx_wf_unique State_Key _ _ i j u w Hd Hu Hw). congruence. }
  destruct (commit_loop_spec (dirtyStorage so) kv so) as (kv' & so' & Hl & Hf & [Ho1 Ho2] & Hv & dm & os & om & Hso & Hdm);
    [by split|done|done| |].
  { intros st Hst. apply (Hc _ _ (Hdv _ Hst)). }
  assert (dm = ∅) as ->.
  { apply map_empty. intros k. rewrite Hdm. case_decide as Hk; [done|].
    apply eq_None_not_Some. intros [i Hi]. apply Hk.
    destruct (idx_wf_lookup _ _ _ _ _ Hd Hi) as (st & Hst & <-).
    apply list_elem_of_fmap_2. by eapply list_elem_of_lookup_2. }
  exists kv', os, om. unfold commitState. rewrite Hl. cbn [mbind res_bind].
  split; [by rewrite Hso|]. split; [done|]. split.
  - subst so'. split; try done.
    + cbn. apply idx_wf_empty.
    + intros Hcode. etransitivity; [|by apply Hco]. f_equal. exact (frame_code_of kv kv' _ so Hf).
    + intros c Hdc Hcode Hc0.
      rewrite (Hf _ (fun x => code_key_not_storage (address so) x _)). by apply Hsto.
  - intros k Hk. destruct (Hv k Hk) as [Hin Hout]. unfold current_value.
    destruct (dirty_value_index kv so k Hwf) as [[Hn ->]|(i & st & Hi & Hst & Hks & ->)]; simpl.
    + apply Hout. intros (st & -> & Hst)%list_elem_of_fmap. pose proof (Hdv st Hst) as Hs.
      unfold dirty_value, idx_find in Hs. by rewrite Hn in Hs.
    + apply Hin. apply list_elem_of_lookup. exists i. rewrite Hst. destruct st; simpl in *. by subst.
Qed.

(** ** The database: what a round leaves alone *)

(** Cached objects sit under their own, 20-byte, address. *)
Record addrs s : Prop := {
  ad_index : idx_wf se_address (stateObjects s) (addressToObjectIndex s);
  ad_objs b so : cache s b = Some so ->
    address so = b /\ acc_Address (account so) = b /\ address_ok b;
}.

Lemma owf_addrs s : owf s -> addrs s.
Proof.
  intros [Hi Ho _]. split; [done|]. intros b so Hc.
  destruct (Ho b so Hc) as (Hw & Ha & _). destruct (ow_address _ _ Hw) as [Hacc Hok].
  split_and!; congruence.
Qed.

Record untouched s s' (a : Address) : Prop := {
  un_cache : cache s' a = cache s a;
  un_account : GetAccount (accounts s') a = GetAccount (accounts s) a;
  un_storage x : kv_get (kvstore s') (AddressStoragePrefix a ++ x)
                 = kv_get (kvstore s) (AddressStoragePrefix a ++ x);
}.

Lemma untouched_refl s a : untouched s s a.
Proof. by split. Qed.
Lemma untouched_trans s1 s2 s3 a : untouched s1 s2 a -> untouched s2 s3 a -> untouched s1 s3 a.
Proof. intros [A1 B1 C1] [A2 B2 C2]. split; intros; congruence. Qed.

Lemma put_object_spec s d i so : addrs s -> addressToObjectIndex s !! d = Some i ->
  address so = d -> acc_Address (account so) = d -> address_ok d ->
  addrs (put_object s i so) /\
  forall b, cache (put_object s i so) b = if decide (d = b) then Some so else cache s b.
Proof.
  intros [Hidx Ho] Hi Ha Hacc Hd. destruct (idx_wf_lookup _ _ _ _ _ Hidx Hi) as (se & Hse & Hk).
  assert (alter (fun se => mkStateEntry C (se_address se) so) i (stateObjects s)
          = <[i := mkStateEntry C d so]> (stateObjects s)) as Halt.
  { rewrite list_insert_alter. apply list_alter_ext; [|done]. intros x Hx. congruence. }
  assert (addressToObjectIndex s !! se_address (mkStateEntry C d so) = Some i) as Hi' by done.
  assert (forall b, cache (put_object s i so) b = if decide (d = b) then Some so else cache s b) as Hc.
  { intros b. unfold cache, put_object. cbn [stateObjects addressToObjectIndex set]. rewrite Halt.
    rewrite (idx_find_insert se_address _ _ _ _ b Hidx Hi'). cbn [se_address]. by case_decide. }
  split; [|done]. split.
  - unfold put_object. cbn [stateObjects addressToObjectIndex set]. rewrite Halt. by apply idx_wf_insert.
  - intros b so'. rewrite Hc. case_decide; [|apply Ho]. intros [= <-]. by subst.
Qed.

(** [updateStateObject] stores the account; its coins keep their amounts. *)
Lemma updateStateObject_ok s so s' so' : updateStateObject BlacklistedAddr s so = (None, s', so') ->
  exists c, so' = with_coins so c /\ s' = s <| accounts := SetAccount (accounts s) (account so') |> /\
    forall d, AmountOf c d = AmountOf (acc_Coins (account so)) d.
Proof.
  unfold updateStateObject. case_match; [done|]. case_match; [done|]. intros [= <- <-].
  eexists. split; [done|]. split; [done|]. intros d.
  unfold so_Balance, Account.Balance. rewrite Z.eqb_refl. cbn [negb]. rewrite Bool.orb_false_r.
  case_match eqn:Hz; [|done]. apply Z.eqb_eq in Hz. rewrite Hz, AmountOf_add by lia.
  case_decide; [subst; lia|done].
Qed.

(** The relation between an object and its flushed form. *)
Definition flushed so so' : Prop := exists kd os om ds c dc,
  so' = with_coins (so <| keyToDirtyStorageIndex := kd |> <| originStorage := os |>
                       <| keyToOriginStorageIndex := om |> <| dirtyStorage := ds |>
                       <| dirtyCode := dc |>) c /\
  forall d, AmountOf c d = AmountOf (acc_Coins (account so)) d.

Lemma flushed_empty so so' : flushed so so' -> so_empty so' = so_empty so /\ suicided so' = suicided so /\
  CodeHash so' = CodeHash so /\ so_code so' = so_code so.
Proof.
  intros (kd & os & om & ds & c & dc & -> & Hc). split_and!; try done.
  unfold so_empty, Account.Balance. cbn. by rewrite Hc.
Qed.

Lemma flushed_trans so1 so2 so3 : flushed so1 so2 -> flushed so2 so3 -> flushed so1 so3.
Proof.
  intros (kd & os & om & ds & c & dc & -> & Hc) (kd' & os' & om' & ds' & c' & dc' & -> & Hc').
  exists kd', os', om', ds', c', dc'. split; [done|]. intros d. rewrite Hc'. cbn. apply Hc.
Qed.

(** ** Finalise *)

Definition dead (del : bool) so : bool := suicided so || (del && so_empty so).

(** Cached objects are well formed. *)
Record objs_ok s : Prop := {
  ob_addrs : addrs s;
  ob_wf b so : cache s b = Some so -> obj_wf (kvstore s) so;
}.

Lemma owf_objs_ok s : owf s -> objs_ok s.
Proof.
  intros Hw. split; [by apply owf_addrs|]. intros b so Hc. by destruct (wf_objs s Hw b so Hc).
Qed.

(** What a round of [Finalise] does to the account of its address. *)
Record finalised del s s' (d : Address) so : Prop := {
  fn_dirty : d ∈ stateObjectsDirty s';
  fn_dead : dead del so = true -> GetAccount (accounts s') d = None /\
    exists so', cache s' d = Some so' /\ so' = so <| deleted := true |>;
  fn_live : dead del so = false -> exists so', cache s' d = Some so' /\ flushed so so' /\
    dirtyCode so' = dirtyCode so /\ GetAccount (accounts s') d = Some (AEth (account so')) /\
    forall k, hash_ok k -> storage_value (kvstore s') d k = current_value (kvstore s) so k;
}.

(** A round leaves the other accounts and all code alone. *)
Record others s s' (d : Address) : Prop := {
  ot_ok : objs_ok s';
  ot_untouched a : a ≠ d -> address_ok a -> untouched s s' a;
  ot_code h : kv_get (kvstore s') (KeyPrefixCode ++ h) = kv_get (kvstore s) (KeyPrefixCode ++ h);
  ot_dirty : stateObjectsDirty s ⊆ stateObjectsDirty s';
  ot_journal : csdb_journal s' = csdb_journal s;
  ot_index : addressToObjectIndex s' = addressToObjectIndex s;
}.

Lemma mark_flush s d i so : objs_ok s -> addressToObjectIndex s !! d = Some i ->
  obj_wf (kvstore s) so -> address so = d -> objs_ok (put_object s i so) /\
  forall b, cache (put_object s i so) b = if decide (d = b) then Some so else cache s b.
Proof.
  intros [Had Hob] Hi Hw Ha. destruct (ow_address _ _ Hw) as [Hacc Hok]. rewrite Ha in Hacc, Hok.
  destruct (put_object_spec s d i so Had Hi Ha Hacc Hok) as [Had' Hc]. split; [|done].
  split; [done|]. intros b so'. rewrite Hc. case_decide; [|apply Hob]. by intros [= <-].
Qed.

Lemma finalise_dead del s d i so : objs_ok s -> addressToObjectIndex s !! d = Some i ->
  cache s d = Some so -> dead del so = true ->
  let s1 := s <| accounts := RemoveAccount (accounts s) (account so) |> in
  let so' := so <| deleted := true |> in
  let s' := (put_object s1 i so') <| stateObjectsDirty := {[d]} ∪ stateObjectsDirty s |> in
  others s s' d /\ finalised del s s' d so.
Proof.
  intros Hok Hi Hc Hdead s1 so' s'. pose proof (ob_wf s Hok d so Hc) as Hw.
  destruct (ad_objs s (ob_addrs s Hok) d so Hc) as (Ha & Hacc & Hdok).
  assert (objs_ok s1) as Hok1 by (by destruct Hok as [[] ?]).
  assert (obj_wf (kvstore s1) so') as Hw' by (by destruct Hw).
  destruct (mark_flush s1 d i so' Hok1 Hi Hw' Ha) as [Hok2 Hc2].
  split; split; try done.
  - by destruct Hok2 as [[] ?].
  - intros a Hne Haok. split; [|cbn; rewrite GetAccount_Remove, decide_False by congruence; done|done].
    change (cache (put_object s1 i so') a = cache s a). by rewrite Hc2, decide_False.
  - cbn. set_solver.
  - cbn. set_solver.
  - intros _. split; [cbn; by rewrite GetAccount_Remove, decide_True|]. exists so'. split; [|done].
    change (cache (put_object s1 i so') d = Some so'). by rewrite Hc2, decide_True.
  - by rewrite Hdead.
Qed.

(** The other objects when the storage of [a] is written. *)
Lemma objs_ok_frame s kv' a : objs_ok s -> frame_storage (kvstore s) kv' a -> address_ok a ->
  forall b so, b ≠ a -> cache s b = Some so -> obj_wf kv' so.
Proof.
  intros Hok Hf Ha b so Hne Hc. destruct (ad_objs s (ob_addrs s Hok) b so Hc) as (Hb & _).
  eapply obj_wf_frame; [exact Hf|done|congruence|by eapply ob_wf].
Qed.

Lemma finalise_live del s d i so err s' : objs_ok s -> addressToObjectIndex s !! d = Some i ->
  cache s d = Some so -> dead del so = false ->
  ('(kv, so) ← commitState (kvstore s) so;
   let s := put_object (s <| kvstore := kv |>) i so in
   let '(err, s, so) := updateStateObject BlacklistedAddr s so in
   match err with
   | Some _ => Ret (err, s)
   | None => Ret (None, (put_object s i so)
                          <| stateObjectsDirty := {[d]} ∪ stateObjectsDirty (put_object s i so) |>)
   end) = Ret (err, s') -> err = None ->
  others s s' d /\ finalised del s s' d so.
Proof.
  intros Hok Hi Hc Hdead Hf ->. pose proof (ob_wf s Hok d so Hc) as Hw.
  destruct (ad_objs s (ob_addrs s Hok) d so Hc) as (Ha & Hacc & Hdok).
  destruct (commitState_spec (kvstore s) so Hw) as (kv' & os & om & Hcs & Hfr & Hw1 & Hval).
  rewrite Hcs in Hf. cbn [mbind res_bind] in Hf. rewrite Ha in Hfr, Hval.
  set (so1 := so <| keyToDirtyStorageIndex := ∅ |> <| originStorage := os |>
                 <| keyToOriginStorageIndex := om |> <| dirtyStorage := [] |>) in *.
  set (s1 := s <| kvstore := kv' |>) in *.
  assert (addrs s1) as Had1 by (by destruct (ob_addrs s Hok)).
  destruct (put_object_spec s1 d i so1 Had1 Hi Ha Hacc Hdok) as [Had2 Hc2].
  destruct (updateStateObject BlacklistedAddr (put_object s1 i so1) so1) as [[err s3] so3] eqn:Hup.
  destruct err as [e|]; [done|]. injection Hf as <-.
  destruct (updateStateObject_ok _ _ _ _ Hup) as (c & -> & -> & Hcoins).
  set (so3 := with_coins so1 c) in *.
  set (s3 := (put_object s1 i so1) <| accounts := SetAccount (accounts (put_object s1 i so1)) (account so3) |>).
  assert (addrs s3) as Had3 by (by destruct Had2).
  destruct (put_object_spec s3 d i so3 Had3 Hi Ha Hacc Hdok) as [Had4 Hc4].
  assert (forall b, cache s3 b = cache (put_object s1 i so1) b) as Hc3 by done.
  assert (objs_ok (put_object s3 i so3)) as Hok4.
  { split; [done|]. intros b so'. rewrite Hc4. case_decide; [intros [= <-]; by apply with_coins_wf|].
    rewrite Hc3, Hc2, decide_False by done. by apply (objs_ok_frame s kv' d). }
  split; split; try done.
  - by destruct Hok4 as [[] ?].
  - intros a Hne Haok. split; [| |].
    2:{ cbn. rewrite GetAccount_Set, decide_False; [done|]. change (acc_Address (account so) ≠ a). congruence. }
    + change (cache (put_object s3 i so3) a = cache s a). by rewrite Hc4, Hc3, Hc2, !decide_False.
    + intros x. apply Hfr. intros y. by apply storage_key_other.
  - intros h. apply Hfr. intros x. apply code_key_not_storage.
  - cbn. set_solver.
  - cbn. set_solver.
  - by rewrite Hdead.
  - intros _. exists so3. split_and!.
    + change (cache (put_object s3 i so3) d = Some so3). by rewrite Hc4, decide_True.
    + exists ∅, os, om, [], c, (dirtyCode so). split; [by destruct so|done].
    + done.
    + cbn. by rewrite GetAccount_Set, decide_True.
    + done.
Qed.

Lemma finalise_one_spec del s d s' : objs_ok s -> finalise_one BlacklistedAddr del s d = Ret (None, s') ->
  others s s' d /\ forall so, cache s d = Some so -> finalised del s s' d so.
Proof.
  intros Hok Hf. unfold finalise_one in Hf.
  destruct (addressToObjectIndex s !! d) as [i|] eqn:Hi.
  2:{ injection Hf as <-. split; [split; try done; intros; apply untouched_refl|].
      intros so. unfold cache, idx_find. by rewrite Hi. }
  destruct (idx_wf_lookup _ _ _ _ _ (ad_index s (ob_addrs s Hok)) Hi) as (se & Hse & Hk).
  assert (cache s d = Some (se_object se)) as Hcs
    by (unfold cache, idx_find; rewrite Hi; simpl; by rewrite Hse).
  rewrite Hse in Hf. cbn [index_or_panic mbind res_bind] in Hf.
  enough (others s s' d /\ finalised del s s' d (se_object se)) as [H1' H2']
    by (split; [done|]; intros so Hso; by simplify_eq).
  fold (dead del (se_object se)) in Hf. destruct (dead del (se_object se)) eqn:Hdead.
  - injection Hf as <-. by apply (finalise_dead del s d i).
  - by eapply finalise_live.
Qed.

Lemma finalised_pre del s s1 s2 a so : untouched s s1 a -> address so = a ->
  finalised del s1 s2 a so -> finalised del s s2 a so.
Proof.
  intros [_ _ Hst] Ha [F1 F2 F3]. split; [done|done|]. intros Hd.
  destruct (F3 Hd) as (so' & ? & ? & ? & ? & Hv). exists so'. split_and!; try done.
  intros k Hk. rewrite Hv by done. unfold current_value, storage_value. by rewrite Ha, Hst.
Qed.

Lemma finalised_post del s s1 s2 a so : untouched s1 s2 a -> stateObjectsDirty s1 ⊆ stateObjectsDirty s2 ->
  finalised del s s1 a so -> finalised del s s2 a so.
Proof.
  intros [Hc Hacc Hst] Hsub [F1 F2 F3]. split; [by apply Hsub| |].
  - intros Hd. rewrite Hc, Hacc. auto.
  - intros Hd. destruct (F3 Hd) as (so' & ? & ? & ? & ? & Hv). exists so'. rewrite Hc, Hacc.
    split_and!; try done. intros k Hk. rewrite <- Hv by done. by apply storage_value_frame.
Qed.

Lemma finalise_loop_spec del a ds : address_ok a -> forall s s', objs_ok s ->
  NoDup (dirty_address <$> ds) -> finalise_loop BlacklistedAddr del ds s = Ret (None, s') ->
  objs_ok s' /\ stateObjectsDirty s ⊆ stateObjectsDirty s' /\
  (forall h, kv_get (kvstore s') (KeyPrefixCode ++ h) = kv_get (kvstore s) (KeyPrefixCode ++ h)) /\
  (a ∉ dirty_address <$> ds -> untouched s s' a) /\
  (a ∈ dirty_address <$> ds -> forall so, cache s a = Some so -> finalised del s s' a so) /\
  csdb_journal s' = csdb_journal s /\ addressToObjectIndex s' = addressToObjectIndex s.
Proof.
  intros Ha. induction ds as [|[d x] ds IH]; intros s s' Hok Hnd Hf; cbn [finalise_loop] in Hf.
  - injection Hf as <-. split_and!; try done. intros Hin. by apply not_elem_of_nil in Hin.
  - apply NoDup_cons in Hnd as [Hnin Hnd]. cbn [dirty_address] in *.
    bind_inv Hf. destruct r as [[e|] s1]; [done|].
    destruct (finalise_one_spec del s d s1 Hok Hf0) as [[O1 O2 O3 O4 O5 O6] Hself].
    destruct (IH s1 s' O1 Hnd Hf) as (Hok' & Hsub & Hcode & Hout & Hin & Hj & Hx).
    split_and!; [done|by etrans|intros h; by rewrite Hcode| | |congruence..].
    + intros Hna. apply not_elem_of_cons in Hna as [Hne Hna].
      eapply untouched_trans; [by apply O2|by apply Hout].
    + intros Hel so Hc. apply elem_of_cons in Hel as [->|Hel].
      * eapply finalised_post; [apply Hout, Hnin|done|]. by apply Hself.
      * assert (a ≠ d) as Hne by (intros ->; by apply Hnin).
        pose proof (O2 a Hne Ha) as Hun. destruct (ad_objs s (ob_addrs s Hok) a so Hc) as (Hao & _).
        eapply finalised_pre; [exact Hun|done|]. apply Hin; [done|]. by rewrite (un_cache _ _ _ Hun).
Qed.

(** ** Commit *)

(** The object as [Commit] finds it at index [i], and the database without
    its mark. *)
Record commit_step del s s' (d : Address) so : Prop := {
  cs_addrs : addrs s';
  cs_index : addressToObjectIndex s' = addressToObjectIndex s /\ length (stateObjects s') = length (stateObjects s);
  cs_dirty : stateObjectsDirty s' = stateObjectsDirty s ∖ {[d]};
  cs_cache a : a ≠ d -> cache s' a = cache s a;
  cs_self : exists so', cache s' d = Some so' /\ so_code so' = so_code so /\
    CodeHash so' = CodeHash so /\ (dirtyCode so' = true -> dirtyCode so = true);
  cs_account a : a ≠ d -> GetAccount (accounts s') a = GetAccount (accounts s) a;
  cs_storage a x : kv_get (kvstore s') (AddressStoragePrefix a ++ x)
                   = kv_get (kvstore s) (AddressStoragePrefix a ++ x);
  cs_code h : kv_get (kvstore s') (KeyPrefixCode ++ h) = kv_get (kvstore s) (KeyPrefixCode ++ h) \/
    exists c, so_code so = Some c /\ dirtyCode so = true /\ h = CodeHash so /\
      kv_get (kvstore s') (KeyPrefixCode ++ h) = Some c;
  cs_dead : (suicided so || (bool_decide (d ∈ stateObjectsDirty s) && del && so_empty so)) = true ->
    GetAccount (accounts s') d = None;
  cs_live : (suicided so || (bool_decide (d ∈ stateObjectsDirty s) && del && so_empty so)) = false ->
    (d ∈ stateObjectsDirty s -> exists acc c, GetAccount (accounts s') d = Some (AEth acc) /\
      acc = (account so) <| acc_Coins := c |> /\
      (forall dn, AmountOf c dn = AmountOf (acc_Coins (account so)) dn) /\
      (forall code, so_code so = Some code -> dirtyCode so = true ->
         kv_get (kvstore s') (KeyPrefixCode ++ CodeHash so) = Some code)) /\
    (d ∉ stateObjectsDirty s -> GetAccount (accounts s') d = GetAccount (accounts s) d);
}.

Lemma commit_dead del s d i so : addrs s -> addressToObjectIndex s !! d = Some i ->
  cache s d = Some so ->
  (suicided so || (bool_decide (d ∈ stateObjectsDirty s) && del && so_empty so)) = true ->
  let s1 := s <| accounts := RemoveAccount (accounts s) (account so) |> in
  commit_step del s ((put_object s1 i (so <| deleted := true |>))
                       <| stateObjectsDirty := stateObjectsDirty s ∖ {[d]} |>) d so.
Proof.
  intros Had Hi Hc Hdead s1. destruct (ad_objs s Had d so Hc) as (Ha & Hacc & Hdok).
  assert (addrs s1) as Had1 by (by destruct Had).
  set (so' := so <| deleted := true |>).
  destruct (put_object_spec s1 d i so' Had1 Hi Ha Hacc Hdok) as [Had2 Hc2].
  split; try done.
  - by destruct Had2.
  - split; [done|]. cbn. by rewrite length_alter.
  - intros a Hne. change (cache (put_object s1 i so') a = cache s a).
    by rewrite Hc2, decide_False.
  - exists so'. split; [|done]. change (cache (put_object s1 i so') d = Some so').
    by rewrite Hc2, decide_True.
  - intros a Hne. cbn. by rewrite GetAccount_Remove, decide_False by congruence.
  - intros h. by left.
  - intros _. cbn. by rewrite GetAccount_Remove, decide_True.
  - by rewrite Hdead.
Qed.

(** The write of the code, when there is new code. *)
Definition with_code s so : csdb * stateObject C :=
  match so_code so with
  | Some _ =>
      if dirtyCode so
      then (s <| kvstore := commitCode (kvstore s) so |>, so <| dirtyCode := false |>)
      else (s, so)
  | None => (s, so)
  end.

Lemma with_code_spec s so : exists kv' dc, with_code s so = (s <| kvstore := kv' |>, so <| dirtyCode := dc |>) /\
  (dc = true -> dirtyCode so = true) /\
  (forall a x, kv_get kv' (AddressStoragePrefix a ++ x) = kv_get (kvstore s) (AddressStoragePrefix a ++ x)) /\
  (forall h, kv_get kv' (KeyPrefixCode ++ h) = kv_get (kvstore s) (KeyPrefixCode ++ h) \/
    exists c, so_code so = Some c /\ dirtyCode so = true /\ h = CodeHash so /\
      kv_get kv' (KeyPrefixCode ++ h) = Some c) /\
  (forall c, so_code so = Some c -> dirtyCode so = true -> kv_get kv' (KeyPrefixCode ++ CodeHash so) = Some c).
Proof.
  assert (s = s <| kvstore := kvstore s |>) as Es by (by destruct s).
  assert (so = so <| dirtyCode := dirtyCode so |>) as Eo by (by destruct so).
  unfold with_code. destruct (so_code so) as [code|] eqn:Hcode.
  2:{ exists (kvstore s), (dirtyCode so). rewrite <- Es, <- Eo. split_and!; try done. intros h. by left. }
  destruct (dirtyCode so) eqn:Hdc.
  2:{ exists (kvstore s), false. rewrite <- Es. split; [by destruct so; simpl in *; subst|].
      split_and!; try done. intros h. by left. }
  exists (commitCode (kvstore s) so), false. split; [done|]. split; [done|]. unfold commitCode. rewrite Hcode. simpl default.
  split_and!.
  - intros a x. rewrite kv_get_set, decide_False; [done|]. apply code_key_not_storage.
  - intros h. rewrite kv_get_set. case_decide as Hh; [|by left]. right. exists code.
    apply app_inv_head in Hh. by subst.
  - intros c [= <-] _. by rewrite kv_get_set, decide_True.
Qed.

Lemma commit_dirty del s d i so s' : addrs s -> addressToObjectIndex s !! d = Some i ->
  cache s d = Some so -> d ∈ stateObjectsDirty s ->
  (suicided so || (bool_decide (d ∈ stateObjectsDirty s) && del && so_empty so)) = false ->
  (let '(s, so) := with_code s so in
   let '(err, s, so) := updateStateObject BlacklistedAddr s so in
   let s := put_object s i so in
   match err with
   | Some _ => Ret (err, s)
   | None => Ret (None, s <| stateObjectsDirty := stateObjectsDirty s ∖ {[d]} |>)
   end) = Ret (None, s') -> commit_step del s s' d so.
Proof.
  intros Had Hi Hc Hdirty Halive Hf. destruct (ad_objs s Had d so Hc) as (Ha & Hacc & Hdok).
  destruct (with_code_spec s so) as (kv' & dc & Hwc & Hdc & Hst & Hcode & Hnew). rewrite Hwc in Hf.
  set (s1 := s <| kvstore := kv' |>) in *. set (so1 := so <| dirtyCode := dc |>) in *.
  destruct (updateStateObject BlacklistedAddr s1 so1) as [[err s2] so2] eqn:Hup.
  destruct err as [e|]; [done|]. injection Hf as <-.
  destruct (updateStateObject_ok _ _ _ _ Hup) as (c & -> & -> & Hcoins).
  set (so2 := with_coins so1 c). set (s2 := s1 <| accounts := SetAccount (accounts s1) (account so2) |>).
  assert (addrs s2) as Had2 by (by destruct Had).
  destruct (put_object_spec s2 d i so2 Had2 Hi Ha Hacc Hdok) as [Had3 Hc3].
  split; try done.
  - by destruct Had3.
  - split; [done|]. cbn. by rewrite length_alter.
  - intros a Hne. change (cache (put_object s2 i so2) a = cache s a). by rewrite Hc3, decide_False.
  - exists so2. split; [|done]. change (cache (put_object s2 i so2) d = Some so2).
    by rewrite Hc3, decide_True.
  - intros a Hne. cbn. rewrite GetAccount_Set, decide_False; [done|].
    change (acc_Address (account so) ≠ a). congruence.
  - by rewrite Halive.
  - intros _. split; [|done]. intros _. exists (account so2), c. split_and!; try done.
    cbn. by rewrite GetAccount_Set, decide_True.
Qed.

Lemma commit_clean del s d so : addrs s -> cache s d = Some so -> d ∉ stateObjectsDirty s ->
  suicided so = false ->
  commit_step del s (s <| stateObjectsDirty := stateObjectsDirty s ∖ {[d]} |>) d so.
Proof.
  intros Had Hc Hd Hs. split; try done.
  - by destruct Had.
  - by exists so.
  - intros h. by left.
  - by rewrite Hs, bool_decide_eq_false_2.
Qed.

Lemma commit_one_spec del s i s' : addrs s -> commit_one BlacklistedAddr del s i = Ret (None, s') ->
  exists d so, addressToObjectIndex s !! d = Some i /\ cache s d = Some so /\ commit_step del s s' d so.
Proof.
  intros Had Hf. unfold commit_one in Hf. bind_inv Hf. rename r into se.
  destruct (stateObjects s !! i) as [se'|] eqn:Hse; [|done]. injection Hf0 as ->.
  set (d := se_address se) in *. set (so := se_object se) in *.
  assert (addressToObjectIndex s !! d = Some i) as Hi by (apply (ad_index s Had); eauto).
  assert (cache s d = Some so) as Hc by (unfold cache, idx_find; rewrite Hi; simpl; by rewrite Hse).
  exists d, so. split; [done|]. split; [done|].
  destruct (suicided so || (bool_decide (d ∈ stateObjectsDirty s) && del && so_empty so)) eqn:Hdead.
  - injection Hf as <-. by apply commit_dead.
  - case_bool_decide as Hdirty.
    + apply (commit_dirty del s d i so s'); try done. by rewrite bool_decide_eq_true_2.
    + injection Hf as <-. apply commit_clean; try done. by destruct (suicided so).
Qed.

(** The code found under a hash when no two pieces of new code collide. *)
Definition no_collision s (h : bytes) (code : bytes) : Prop :=
  forall b so c, cache s b = Some so -> so_code so = Some c -> dirtyCode so = true ->
  CodeHash so = h -> c = code.

Lemma no_collision_step del s s1 d so h code : commit_step del s s1 d so -> cache s d = Some so ->
  no_collision s h code -> no_collision s1 h code.
Proof.
  intros Hst Hc Hnc b so' c Hb Hcode Hdc Hh. destruct (decide (b = d)) as [->|Hne].
  - destruct (cs_self _ _ _ _ _ Hst) as (so1 & Hc1 & E1 & E2 & E3). simplify_eq.
    apply (Hnc d so); [done|congruence|auto|congruence].
  - apply (Hnc b so'); try done. by rewrite <- (cs_cache _ _ _ _ _ Hst).
Qed.

(** The rounds of [Commit] as seen from one account [a]. *)
Lemma commit_objects_spec del a : forall n i s s', addrs s ->
  commit_objects BlacklistedAddr del n i s = Ret (None, s') ->
  (forall x, kv_get (kvstore s') (AddressStoragePrefix a ++ x)
             = kv_get (kvstore s) (AddressStoragePrefix a ++ x)) /\
  (forall h code, no_collision s h code -> kv_get (kvstore s) (KeyPrefixCode ++ h) = Some code ->
     kv_get (kvstore s') (KeyPrefixCode ++ h) = Some code) /\
  ((forall k, addressToObjectIndex s !! a = Some k -> k < i \/ i + n <= k) ->
     GetAccount (accounts s') a = GetAccount (accounts s) a) /\
  (forall k so, addressToObjectIndex s !! a = Some k -> i <= k < i + n -> cache s a = Some so ->
     exists s1 s2, commit_step del s1 s2 a so /\ GetAccount (accounts s') a = GetAccount (accounts s2) a /\
       GetAccount (accounts s1) a = GetAccount (accounts s) a /\
       (a ∈ stateObjectsDirty s1 <-> a ∈ stateObjectsDirty s) /\
       (forall h code, no_collision s h code ->
          (kv_get (kvstore s2) (KeyPrefixCode ++ h) = Some code ->
           kv_get (kvstore s') (KeyPrefixCode ++ h) = Some code))).
Proof.
  induction n as [|n IH]; intros i s s' Had Hf; cbn [commit_objects] in Hf.
  - injection Hf as <-. split_and!; try done. intros. lia.
  - bind_inv Hf. destruct r as [[e|] s1]; [done|].
    destruct (commit_one_spec del s i s1 Had Hf0) as (d & so & Hi & Hc & Hst).
    destruct (IH (S i) s1 s' (cs_addrs _ _ _ _ _ Hst) Hf) as (Hs' & Hcode' & Hacc' & Hself').
    destruct (cs_index _ _ _ _ _ Hst) as [Hidx _].
    assert (forall h code, no_collision s h code -> kv_get (kvstore s1) (KeyPrefixCode ++ h) = Some code ->
      kv_get (kvstore s') (KeyPrefixCode ++ h) = Some code) as Hcode1
      by (intros h code Hnc; apply Hcode'; by eapply no_collision_step).
    split_and!.
    + intros x. rewrite Hs'. apply Hst.
    + intros h code Hnc Hk. apply Hcode1; [done|].
      destruct (cs_code _ _ _ _ _ Hst h) as [->|(c & Hcd & Hdc & Hh & ->)]; [done|].
      f_equal. by eapply Hnc.
    + intros Hlt. assert (a ≠ d) as Hne by (intros ->; destruct (Hlt i Hi); lia).
      rewrite Hacc'; [by apply Hst|]. intros k Hk. rewrite Hidx in Hk. destruct (Hlt k Hk); [left|right]; lia.
    + intros k so0 Hk Hr Hc0. destruct (decide (a = d)) as [->|Hne].
      * simplify_eq. exists s, s1. split_and!; [done| |done|done|by apply Hcode1].
        apply Hacc'. intros k Hk'. rewrite Hidx in Hk'. simplify_eq. left. lia.
      * assert (k ≠ i) as Hki.
        { intros ->. destruct (idx_wf_lookup _ _ _ _ _ (ad_index s Had) Hi) as (se & Hse & Hd).
          destruct (idx_wf_lookup _ _ _ _ _ (ad_index s Had) Hk) as (se' & Hse' & Hd'). congruence. }
        destruct (Hself' k so0) as (s2 & s3 & ? & ? & E1 & E2 & E3);
          [by rewrite Hidx|lia|by rewrite (cs_cache _ _ _ _ _ Hst)|].
        exists s2, s3. split_and!; [done|done| | |].
        -- rewrite E1. by apply Hst.
        -- rewrite E2, (cs_dirty _ _ _ _ _ Hst). set_solver.
        -- intros h code Hnc. apply E3. by eapply no_collision_step.
Qed.

(** ** The tables both calls leave alone *)

(** Equal at every key that is neither of code nor of storage. *)
Definition tables kv kv' : Prop :=
  forall p key, p ≠ Byte.x04 -> p ≠ Byte.x05 -> kv_get kv' (p :: key) = kv_get kv (p :: key).
#[global] Instance tables_refl : Reflexive tables.
Proof. by intros kv p key. Qed.
#[global] Instance tables_trans : Transitive tables.
Proof. intros kv1 kv2 kv3 Ha Hb p key Hp4 Hp5. by rewrite Hb, Ha. Qed.

Lemma tables_set p key v kv : p = Byte.x04 \/ p = Byte.x05 -> tables kv (kv_set kv (p :: key) v).
Proof. intros Hp q key' Hq4 Hq5. rewrite kv_get_set, decide_False; [done|]. intros [= -> _]. by destruct Hp. Qed.
Lemma tables_delete p key kv : p = Byte.x04 \/ p = Byte.x05 -> tables kv (kv_delete kv (p :: key)).
Proof. intros Hp q key' Hq4 Hq5. rewrite kv_get_delete, decide_False; [done|]. intros [= -> _]. by destruct Hp. Qed.

Lemma commit_entry_tables kv so st kv' so' : commit_entry (kv, so) st = Ret (kv', so') -> tables kv kv'.
Proof.
  unfold commit_entry. set (key := AddressStoragePrefix _ ++ _).
  assert (forall kv1, tables kv1 (kv_delete kv1 key)) as Hdel by (intros kv1; apply tables_delete; by right).
  assert (forall kv1 v, tables kv1 (kv_set kv1 key v)) as Hset by (intros kv1 v; apply tables_set; by right).
  destruct (State_Value st =? 0)%N.
  - destruct (keyToOriginStorageIndex _ !! _); intros Hr; injection Hr as; subst; apply Hdel.
  - destruct (keyToOriginStorageIndex _ !! _) as [idx|]; [|by intros Hr; injection Hr as; subst].
    intros Hr. bind_inv Hr. destruct (_ =? _)%N; injection Hr as; subst; [done|apply Hset].
Qed.
Lemma commit_loop_tables l : forall kv so kv' so', commit_loop (kv, so) l = Ret (kv', so') -> tables kv kv'.
Proof.
  induction l as [|st l IH]; intros kv so kv' so' Hr; [by injection Hr as -> _|].
  cbn [commit_loop] in Hr. bind_inv Hr. destruct r as [kv1 so1]. apply commit_entry_tables in Hr0. transitivity kv1; [done|eauto].
Qed.
Lemma commitState_tables kv so kv' so' : commitState kv so = Ret (kv', so') -> tables kv kv'.
Proof. unfold commitState. intros Hr. bind_inv Hr. destruct r as [kv1 so1]. injection Hr as <- _. by eapply commit_loop_tables. Qed.

Lemma updateStateObject_kv s so err s' so' : updateStateObject BlacklistedAddr s so = (err, s', so') -> kvstore s' = kvstore s.
Proof. unfold updateStateObject. destruct (_ <? _)%Z; [|destruct (BlacklistedAddr _)]; by intros [= _ <- _]. Qed.

Lemma finalise_one_tables del s a err s' : finalise_one BlacklistedAddr del s a = Ret (err, s') -> tables (kvstore s) (kvstore s').
Proof.
  unfold finalise_one. destruct (addressToObjectIndex s !! a) as [idx|]; [|by intros [= _ <-]]. intros Hr. bind_inv Hr.
  destruct (_ || _); [by injection Hr as _ <-|]. bind_inv Hr. destruct r0 as [kv1 so1]. apply commitState_tables in Hr1.
  destruct (updateStateObject _ _ _) as [[err1 s1] so2] eqn:Hu. apply updateStateObject_kv in Hu. cbn in Hu.
  destruct err1; injection Hr as _ <-; cbn; by rewrite Hu.
Qed.
Lemma finalise_loop_tables del ds : forall s err s', finalise_loop BlacklistedAddr del ds s = Ret (err, s') -> tables (kvstore s) (kvstore s').
Proof.
  induction ds as [|d ds IH]; intros s err s' Hr; [by injection Hr as _ <-|]. cbn [finalise_loop] in Hr. bind_inv Hr.
  destruct r as [e s1]. apply finalise_one_tables in Hr0. destruct e; [by injection Hr as _ <-|]. transitivity (kvstore s1); [done|eauto].
Qed.
Lemma commit_one_tables del s i err s' : commit_one BlacklistedAddr del s i = Ret (err, s') -> tables (kvstore s) (kvstore s').
Proof.
  unfold commit_one. intros Hr. bind_inv Hr. destruct (_ || _); [by injection Hr as _ <-|].
  destruct (bool_decide _); [|by injection Hr as _ <-].
  set (p := match so_code _ with Some _ => _ | None => _ end) in Hr.
  assert (tables (kvstore s) (kvstore p.1)) as Hp.
  { unfold p. destruct (so_code _); [|done]. destruct (dirtyCode _); [|done]. cbn. apply tables_set. by left. }
  destruct p as [s1 so1]. destruct (updateStateObject _ _ _) as [[err1 s2] so2] eqn:Hu. apply updateStateObject_kv in Hu.
  destruct err1; injection Hr as _ <-; cbn; by rewrite Hu.
Qed.
Lemma commit_objects_tables del n : forall i s err s', commit_objects BlacklistedAddr del n i s = Ret (err, s') -> tables (kvstore s) (kvstore s').
Proof.
  induction n as [|n IH]; intros i s err s' Hr; [by injection Hr as _ <-|]. cbn [commit_objects] in Hr. bind_inv Hr.
  destruct r as [e s1]. apply commit_one_tables in Hr0. destruct e; [by injection Hr as _ <-|]. transitivity (kvstore s1); [done|eauto].
Qed.
(** ** Both together *)

(** The account has no code, or its code is at hand and no other new code
    has the same hash. *)
Definition code_settled s so : Prop :=
  (CodeHash so = emptyCodeHash /\ go_len (so_code so) = 0) \/
  (exists c, c ≠ [] /\ code_of (kvstore s) so = Some c /\ CodeHash so ≠ emptyCodeHash /\
     no_collision s (CodeHash so) c).

Lemma Finalise_inv del s s1 : Finalise BlacklistedAddr del s = Ret (None, s1) ->
  exists s0, finalise_loop BlacklistedAddr del (dirties (csdb_journal s)) s = Ret (None, s0) /\
    s1 = DeleteLogs (clearJournalAndRefund s0).
Proof.
  unfold Finalise. intros Hf. bind_inv Hf. destruct r as [[e|] s0]; [done|]. injection Hf as <-. eauto.
Qed.

Lemma Commit_inv del s h s2 : Commit BlacklistedAddr del s = Ret (h, None, s2) ->
  dirties (csdb_journal s) = [] ->
  exists s0, commit_objects BlacklistedAddr del (length (stateObjects s)) 0 s = Ret (None, s0) /\
    s2 = clearJournalAndRefund s0.
Proof.
  unfold Commit. intros Hc Hd. rewrite Hd in Hc. cbn [foldl] in Hc.
  replace (s <| stateObjectsDirty := stateObjectsDirty s |>) with s in Hc by (by destruct s).
  bind_inv Hc. destruct r as [e s0]. injection Hc as _ -> <-. eauto.
Qed.

Lemma finalise_no_collision del s s1 h code : objs_ok s -> NoDup (dirty_address <$> dirties (csdb_journal s)) ->
  finalise_loop BlacklistedAddr del (dirties (csdb_journal s)) s = Ret (None, s1) ->
  no_collision s h code -> no_collision s1 h code.
Proof.
  intros Hok Hnd Hf Hnc b so' c Hb Hcode Hdc Hh.
  assert (exists so, cache s b = Some so) as [so Hc].
  { destruct (cache s b) as [so|] eqn:Hc; [eauto|]. exfalso.
    destruct (finalise_loop_spec del 0%N _ eq_refl s s1 Hok Hnd Hf) as (Hok1 & _ & _ & _ & _ & _ & Hidx).
    unfold cache in Hc, Hb. apply fmap_None in Hc.
    apply (idx_find_None se_address) in Hc; [|apply Hok].
    rewrite Hidx in Hb. unfold idx_find in Hb. by rewrite Hc in Hb. }
  destruct (ad_objs s (ob_addrs s Hok) b so Hc) as (Hao & Hacc & Hbok).
  destruct (finalise_loop_spec del b _ Hbok s s1 Hok Hnd Hf) as (_ & _ & _ & Hout & Hin & _ & _).
  destruct (decide (b ∈ dirty_address <$> dirties (csdb_journal s))) as [Hd|Hd].
  - destruct (Hin Hd so Hc) as [_ F2 F3]. destruct (dead del so).
    + destruct (F2 eq_refl) as (_ & so1 & Hc1 & Hso1). rewrite Hc1 in Hb. injection Hb as <-.
      rewrite Hso1 in Hcode, Hdc, Hh. by apply (Hnc b so).
    + destruct (F3 eq_refl) as (so1 & Hc1 & Hfl & Hdc1 & _). rewrite Hc1 in Hb. injection Hb as <-.
      destruct (flushed_empty _ _ Hfl) as (_ & _ & E1 & E2). apply (Hnc b so); [done|congruence..].
  - apply (Hnc b so'); try done. by rewrite <- (un_cache _ _ _ (Hout Hd)).
Qed.

Lemma cache_index s a so : addrs s -> cache s a = Some so ->
  exists k, addressToObjectIndex s !! a = Some k /\ k < length (stateObjects s).
Proof.
  intros [Hidx _] Hc. unfold cache, idx_find in Hc.
  destruct (addressToObjectIndex s !! a) as [k|] eqn:Hk; [|done].
  exists k. split; [done|]. by eapply idx_wf_lt.
Qed.

(** What the two calls leave behind for a dirty account. *)
Lemma persist_account del s s1 h s2 a so : owf s -> jwf (csdb_journal s) ->
  Finalise BlacklistedAddr del s = Ret (None, s1) -> Commit BlacklistedAddr del s1 = Ret (h, None, s2) ->
  a ∈ dirty_address <$> dirties (csdb_journal s) -> cache s a = Some so ->
  if dead del so then GetAccount (accounts s2) a = None
  else exists c, GetAccount (accounts s2) a = Some (AEth ((account so) <| acc_Coins := c |>)) /\
    (forall d, AmountOf c d = AmountOf (acc_Coins (account so)) d) /\
    (forall k, hash_ok k -> storage_value (kvstore s2) a k = current_value (kvstore s) so k) /\
    (forall code, code_settled s so -> code_of (kvstore s) so = Some code -> code ≠ [] ->
       kv_get (kvstore s2) (KeyPrefixCode ++ CodeHash so) = Some code).
Proof.
  intros Howf Hj Hfin Hcom Hdirty Hc. pose proof (owf_objs_ok s Howf) as Hok.
  destruct (ad_objs s (ob_addrs s Hok) a so Hc) as (Hao & Hacc & Haok).
  pose proof (ob_wf s Hok a so Hc) as Hwf.
  assert (NoDup (dirty_address <$> dirties (csdb_journal s))) as Hnd.
  { apply NoDup_alt. intros i j k Hi Hj'. rewrite list_lookup_fmap in Hi, Hj'.
    destruct (dirties (csdb_journal s) !! i) as [u|] eqn:Hu; [|done].
    destruct (dirties (csdb_journal s) !! j) as [w|] eqn:Hw; [|done]. simpl in *.
    eapply (idx_wf_unique dirty_address _ _ i j u w (jwf_index _ Hj) Hu Hw). congruence. }
  destruct (Finalise_inv del s s1 Hfin) as (s0 & Hloop & ->).
  destruct (finalise_loop_spec del a _ Haok s s0 Hok Hnd Hloop) as (Hok0 & _ & Hcode & _ & Hin & _ & _).
  destruct (Hin Hdirty so Hc) as [F1 F2 F3].
  destruct (Commit_inv del _ h s2 Hcom eq_refl) as (s3 & Hobjs & ->).
  set (s1 := DeleteLogs (clearJournalAndRefund s0)) in *.
  assert (addrs s1) as Had1 by (by destruct (ob_addrs s0 Hok0)).
  destruct (commit_objects_spec del a _ 0 s1 s3 Had1 Hobjs) as (Hst & Hcd & _ & Hself).
  destruct (dead del so) eqn:Hdead.
  - destruct (F2 eq_refl) as (_ & so0 & Hc0 & Hso0).
    destruct (cache_index s1 a so0 Had1 Hc0) as (k & Hk & Hlt).
    destruct (Hself k so0 Hk (conj (Nat.le_0_l k) Hlt) Hc0) as (t1 & t2 & Hstep & E1 & _ & E3 & _).
    cbn. rewrite E1. apply (cs_dead _ _ _ _ _ Hstep). rewrite bool_decide_eq_true_2 by (by apply E3).
    rewrite Hso0. exact Hdead.
  - destruct (F3 eq_refl) as (so0 & Hc0 & Hfl & Hdc0 & Hacc0 & Hval).
    destruct (cache_index s1 a so0 Had1 Hc0) as (k & Hk & Hlt).
    destruct (Hself k so0 Hk (conj (Nat.le_0_l k) Hlt) Hc0) as (t1 & t2 & Hstep & E1 & _ & E3 & E4).
    destruct (flushed_empty _ _ Hfl) as (Fe & Fs & Fh & Fc).
    destruct (cs_live _ _ _ _ _ Hstep) as [Hlive _].
    { rewrite bool_decide_eq_true_2 by (by apply E3). unfold dead in Hdead. by rewrite Fe, Fs. }
    destruct (Hlive (proj2 E3 F1)) as (acc & c & Hga & -> & Hamt & Hnew).
    exists c. destruct Hfl as (kd & os & om & ds & c0 & dc & Hso0 & Hc0').
    split_and!.
    + cbn. rewrite E1, Hga. rewrite Hso0. done.
    + intros d. rewrite Hamt, Hso0. cbn. apply Hc0'.
    + intros k' Hk'. rewrite <- (Hval k' Hk'). cbn. by apply storage_value_frame.
    + intros code [[Hh Hl]|(c' & Hc' & Hco & Hne & Hnc)] Hcof Hcne.
      { unfold code_of in Hcof. rewrite Hl, bool_decide_eq_true_2 in Hcof by done. done. }
      assert (c' = code) as -> by congruence.
      assert (no_collision s1 (CodeHash so) code) as Hnc1
        by (apply (finalise_no_collision del s s0); done).
      change (kvstore (clearJournalAndRefund s3)) with (kvstore s3).
      unfold code_of in Hcof. destruct (0 <? go_len (so_code so)) eqn:Hlen.
      * destruct (dirtyCode so) eqn:Hdc.
        -- apply E4; [done|]. rewrite <- Fh. apply Hnew; congruence.
        -- apply Hcd; [done|]. change (kvstore s1) with (kvstore s0). rewrite Hcode. by apply (ow_stored _ _ Hwf).
      * rewrite bool_decide_eq_false_2 in Hcof by done. apply Hcd; [done|]. change (kvstore s1) with (kvstore s0). by rewrite Hcode.
Qed.

(** The queries of one account whose answers live in the stores. *)
Definition stored_query (a : Address) (q : query) : Prop :=
  match q with
  | QBalance b | QNonce b | QCodeHash b | QCodeSize b | QState b _ | QHasSuicided b | QEmpty b | QExist b => b = a
  | _ => False
  end.

(** The blocked list is not written. *)
Lemma persist_blocked del s s1 h s2 x : Finalise BlacklistedAddr del s = Ret (None, s1) ->
  Commit BlacklistedAddr del s1 = Ret (h, None, s2) ->
  kv_has (kvstore s2) (getContractBlockedListMemberKey x) = kv_has (kvstore s) (getContractBlockedListMemberKey x).
Proof.
  intros (s0 & Hl & ->)%Finalise_inv (s3 & Hc & ->)%Commit_inv; [|done].
  apply finalise_loop_tables in Hl. apply commit_objects_tables in Hc. cbn in Hc. unfold kv_has, getContractBlockedListMemberKey.
  cbn -[KeyPrefixContractBlockedList]. unfold KeyPrefixContractBlockedList. cbn [app]. by rewrite Hc, Hl.
Qed.

(** The object a fresh database loads for a live account. *)
Lemma persisted_object del s s1 h s2 a so : wf s -> Finalise BlacklistedAddr del s = Ret (None, s1) ->
  Commit BlacklistedAddr del s1 = Ret (h, None, s2) -> a ∈ dirty_address <$> dirties (csdb_journal s) -> cache s a = Some so ->
  code_settled s so -> dead del so = false ->
  exists so' c, load (accounts s2) a = Ret (Some so') /\ account so' = (account so) <| acc_Coins := c |> /\ address so' = address so /\
    suicided so' = false /\ (forall d, AmountOf c d = AmountOf (acc_Coins (account so)) d) /\
    (forall k, hash_ok k -> storage_value (kvstore s2) (address so) k = current_value (kvstore s) so k) /\
    (forall k, current_value (kvstore s2) so' k = storage_value (kvstore s2) (address so) k) /\
    code_of (kvstore s2) so' = code_of (kvstore s) so.
Proof.
  intros [Howf Hswf] Hfin Hcom Hdirty Hc Hset Hdead.
  pose proof (persist_account del s s1 h s2 a so Howf (wf_journal _ Hswf) Hfin Hcom Hdirty Hc) as Hp. rewrite Hdead in Hp.
  destruct Hp as (c & Hga & Hamt & Hst & Hcode). destruct (wf_objs s Howf a so Hc) as (Hwf & Hao & _).
  destruct (CodeHash_ok _ _ Hwf) as [_ Hch].
  assert (exists so', load (accounts s2) a = Ret (Some so') /\ account so' = (account so) <| acc_Coins := c |> /\ address so' = a /\
    so_code so' = None /\ dirty_value so' = (fun _ => None) /\ suicided so' = false) as (so' & Hl' & Ha' & Had' & Hc' & Hd' & Hs').
  { unfold load. rewrite Hga. unfold newStateObject. cbn [acc_CodeHash set]. rewrite Hch.
    eexists. split; [reflexivity|]. split_and!; try done. cbn. unfold Account.EthAddress. cbn.
    destruct (ow_address _ _ Hwf). congruence. }
  exists so', c. split_and!; [done|done|congruence|done|done|by rewrite Hao| |].
  - intros k. unfold current_value. by rewrite Hd', Had', Hao.
  - assert (CodeHash so' = CodeHash so) as Hh by (unfold CodeHash; by rewrite Ha').
    assert (code_of (kvstore s2) so' = if bool_decide (CodeHash so = emptyCodeHash) then None
      else kv_get (kvstore s2) (KeyPrefixCode ++ CodeHash so)) as ->
      by (unfold code_of; by rewrite Hc', Hh).
    destruct Hset as [[He Hl]|(code & Hne & Hcof & Hhne & Hnc)] eqn:Es.
    + rewrite bool_decide_eq_true_2 by done. unfold code_of. rewrite Hl. by rewrite bool_decide_eq_true_2.
    + rewrite bool_decide_eq_false_2 by done. rewrite (Hcode code); [by rewrite Hcof| |done|done].
      right. by exists code.
Qed.

(** C4: after [Finalise] and [Commit] without error, a database opened on
    the resulting stores shows every dirty account whose code is at hand, and
    under whose code hash no other new code is written, as the cache showed
    it: balance, nonce, code hash and size, storage, and whether it is empty
    or destroyed; its committed slots are what the current slots were, and
    its code is the same, or is refused alike, under the same parameters.
    Accounts that were suicided, or are empty when empty objects are deleted,
    are gone. *)
Theorem Finalise_Commit_persists del s s1 h s2 a so ps :
  wf s -> Finalise BlacklistedAddr del s = Ret (None, s1) ->
  Commit BlacklistedAddr del s1 = Ret (h, None, s2) ->
  a ∈ dirty_address <$> dirties (csdb_journal s) -> cache s a = Some so -> deleted so = false ->
  code_settled s so ->
  let fresh := CreateEmptyCommitStateDB (kvstore s2) (accounts s2) ps in
  if suicided so || (del && so_empty so) then observe (QExist a) fresh = Ret (VBool false)
  else (forall q, stored_query a q -> observe q fresh = observe q s) /\
    (forall k, observe (QCommittedState a k) fresh = observe (QState a k) s) /\
    (ps = current_params s -> observe (QCode a) fresh = observe (QCode a) s).
Proof.
  intros Hwf Hfin Hcom Hdirty Hc Hdel Hset fresh.
  assert (lookup_obj fresh a = load (accounts s2) a) as Hlf by done.
  destruct (wf_objs s (proj1 Hwf) a so Hc) as (_ & Hao & _).
  assert (lookup_obj s a = Ret (Some so)) as Hls by (unfold lookup_obj; by rewrite Hc, Hdel).
  change (suicided so || (del && so_empty so)) with (dead del so). destruct (dead del so) eqn:Hdead.
  - pose proof (persist_account del s s1 h s2 a so (proj1 Hwf) (wf_journal _ (proj2 Hwf)) Hfin Hcom Hdirty Hc) as Hp.
    rewrite Hdead in Hp. cbn. rewrite Hlf. unfold load. by rewrite Hp.
  - destruct (persisted_object del s s1 h s2 a so Hwf Hfin Hcom Hdirty Hc Hset Hdead)
      as (so' & c & Hl' & Ha' & Had' & Hs' & Hamt & Hst & Hcur & Hcode).
    assert (forall k, hash_ok (GetStorageByAddressKey so (Hash_Bytes k))) as Hkey by (intros k; apply BytesToHash_ok).
    assert (forall k, GetStorageByAddressKey so' k = GetStorageByAddressKey so k) as Hsk
      by (intros k; unfold GetStorageByAddressKey; by rewrite Had').
    assert (suicided so = false) as Hsu by (unfold dead in Hdead; by apply orb_false_iff in Hdead as [? _]).
    split_and!.
    + intros q Hq. destruct q; simpl in Hq; try done; subst a0; unfold observe, observe_obj; rewrite Hlf, Hl', Hls;
        cbn [mbind res_bind from_option]; do 2 f_equal.
      * unfold so_Balance, Account.Balance. rewrite Ha'. apply Hamt.
      * unfold Nonce. by rewrite Ha'.
      * by rewrite <- Hcode.
      * unfold CodeHash. by rewrite Ha'.
      * rewrite Hsk, <- (Hst _ (Hkey key)). apply Hcur.
      * congruence.
      * unfold so_empty, Account.Balance. rewrite Ha'. cbn. by rewrite Hamt.
    + intros k. unfold observe, observe_obj. rewrite Hlf, Hl', Hls. cbn [mbind res_bind from_option]. do 2 f_equal.
      rewrite Hsk, Had'. apply Hst, Hkey.
    + intros ->. unfold observe, observe_obj. rewrite Hlf, Hl', Hls. unfold IsContractInBlockedList.
      change (kvstore fresh) with (kvstore s2). rewrite (persist_blocked del s s1 h s2 _ Hfin Hcom).
      change (default (paramSpace fresh) (params fresh)) with (current_params s). unfold current_params.
      destruct (_ && _); [done|]. cbn [mbind res_bind from_option]. by rewrite Hcode.
Qed.

End Commit.
End StateDBCommit.
