(* ===== verification/StateDBLogs.v ===== *)
(** What the operations of the virtual machine leave alone, and the logs.

    No operation writes to a store or to an account: [calm] says so for the
    operations that do not concern logs.  [log_ok] is the invariant of the
    logs of a transaction: they carry consecutive indices from the log size
    the transaction started with, and the journal has one entry for each. *)
From S2P Require Import Prelude.
From S2P Require Import GoSlices.
From S2P Require Import Interfaces.
From S2P Require Import Account.
From S2P Require Import AccessList.
From S2P Require Import StateObject.
From S2P Require Import Journal.
From S2P Require Import StateDB.
From S2P Require Import StateObjectSpec.
From S2P Require Import StateDBInv.
From S2P Require Import StateDBRevert.
From S2P Require Import StateDBSnapshot.
Import StateObject Journal StateDB StateObjectSpec StateDBInv StateDBRevert StateDBSnapshot.

Module StateDBLogs.
Section Logs.
Context {St AK C : Type} `{KVStore St, SdkCoins C, AccountKeeper AK C, Keccak, SdkConfig}.
Context `{!SdkCoinsLaws C, !KeccakLaws, !AccountKeeperLaws AK C}.
Abbreviation csdb := (CommitStateDB St AK C).
Implicit Types (s : csdb) (so : stateObject C) (j : journal C) (e : journalEntry C).

(** ** Journal entries of logs *)

Definition is_addLog e : bool := match e with addLogChange _ => true | _ => false end.
Definition nlogs j : nat := length (filter (fun e => is_addLog e = true) (entries j)).

Lemma bump_entries i x j j' : bump i x j = Ret j' -> entries j' = entries j.
Proof. unfold bump. intros Hr. bind_inv Hr. by injection Hr as <-. Qed.
Lemma addDirty_entries j a j' : addDirty j a = Ret j' -> entries j' = entries j.
Proof. unfold addDirty. case_match; intros Hr; by apply bump_entries in Hr. Qed.
Lemma undirty_keeps_entries j e j' : undirty j e = Ret j' -> entries j' = entries j.
Proof.
  unfold undirty. destruct (dirtied e) as [a|]; [|by intros [= <-]]. intros Hr. bind_inv Hr. bind_inv Hr.
  assert (entries r = entries j) as <-.
  { unfold substractDirty in Hr0. destruct (addressToJournalIndex j !! a); [|by injection Hr0 as <-]. bind_inv Hr0.
    destruct (_ =? 0)%Z; [by injection Hr0 as <-|by apply bump_entries in Hr0]. }
  destruct (_ =? 0)%Z; [|by injection Hr as <-]. unfold deleteDirty in Hr.
  destruct (addressToJournalIndex r !! a); [|by injection Hr as <-]. destruct (_ <? _); [by injection Hr as <-|done].
Qed.
Lemma nlogs_append j e j' : append j e = Ret j' -> nlogs j' = nlogs j + (if is_addLog e then 1 else 0).
Proof.
  unfold append. intros Hr. assert (entries j' = entries j ++ [e]) as He.
  { destruct (dirtied e); [by apply addDirty_entries in Hr|by injection Hr as <-]. }
  unfold nlogs. rewrite He, filter_app, length_app. f_equal. rewrite filter_cons, filter_nil. by destruct (is_addLog e).
Qed.
Lemma nlogs_dirty j a j' : dirty_explicit j a = Ret j' -> nlogs j' = nlogs j.
Proof. intros Hr. unfold nlogs. by rewrite (addDirty_entries _ _ _ Hr). Qed.

(** ** Calm steps *)

Definition ctxv s := (kvstore s, paramSpace s, thash s, bhash s, txIndex s, current_params s).
Definition logv s := (logs s, logSize s, nlogs (csdb_journal s)).

Record calm s s' : Prop := {
  calm_ctx : ctxv s' = ctxv s;
  calm_accounts : ak_equiv (accounts s) (accounts s');
  calm_logs : logv s' = logv s;
}.
#[export] Instance calm_preorder : PreOrder calm.
Proof.
  split.
  - intros s. by split.
  - intros s1 s2 s3 [] []. split; [congruence| |congruence]. intros a. by rewrite calm_accounts0.
Qed.

Lemma calm_setStateObject s so s' : setStateObject s so = Ret s' -> calm s s'.
Proof.
  unfold setStateObject. case_match; [|by intros [= <-]]. intros Hs. bind_inv Hs. by injection Hs as <-.
Qed.
Lemma calm_setError s (err : dberror) : calm s (setError s err).
Proof. unfold setError. by destruct (dbErr s). Qed.

Lemma calm_getStateObject s a o s' : getStateObject s a = Ret (o, s') -> calm s s'.
Proof.
  unfold getStateObject. case_match.
  - intros Hg. bind_inv Hg. case_match; by injection Hg as <- <-.
  - case_match; [|intros [= <- <-]; apply calm_setError].
    intros Hg. bind_inv Hg. bind_inv Hg. injection Hg as <- <-. by eapply calm_setStateObject.
Qed.

(** A new journal with as many entries of logs. *)
Lemma calm_journal s j : nlogs j = nlogs (csdb_journal s) -> calm s (s <| csdb_journal := j |>).
Proof. intros Hn. split; [done|done|]. unfold logv. cbn. by rewrite Hn. Qed.
Lemma calm_jappend s e s' : is_addLog e = false -> jappend s e = Ret s' -> calm s s'.
Proof.
  intros He Hr. unfold jappend in Hr. bind_inv Hr. injection Hr as <-. apply calm_journal.
  rewrite (nlogs_append _ _ _ Hr0), He. lia.
Qed.

Lemma calm_createObject s a x y s' : createObject s a = Ret (x, y, s') -> calm s s'.
Proof.
  unfold createObject. intros Hr. bind_inv Hr. destruct r as [prev s1]. apply calm_getStateObject in Hr0.
  pose proof (fun b => GetAccount_New (accounts s1) a b) as Hak.
  destruct (NewAccountWithAddress (accounts s1) a) as [acc ak]. cbn [snd] in Hak.
  bind_inv Hr. bind_inv Hr. bind_inv Hr. injection Hr as <- <- <-.
  transitivity s1; [done|]. transitivity (s1 <| accounts := ak |>); [split; [done|intros b; by rewrite Hak|done]|].
  transitivity r0; [destruct prev; (eapply calm_jappend; [|exact Hr2]; done)|]. by eapply calm_setStateObject.
Qed.

Lemma calm_GetOrNew s a so s' : GetOrNewStateObject s a = Ret (so, s') -> calm s s'.
Proof.
  unfold GetOrNewStateObject. intros Hr. bind_inv Hr. destruct r as [o s1]. apply calm_getStateObject in Hr0.
  transitivity s1; [done|]. destruct o as [so'|]; [destruct (deleted so')|].
  - bind_inv Hr. destruct r as [[x y] s2]. injection Hr as <- <-. by eapply calm_createObject.
  - by injection Hr as <- <-.
  - bind_inv Hr. destruct r as [[x y] s2]. injection Hr as <- <-. by eapply calm_createObject.
Qed.

(** Methods of an object that append no log. *)
Definition method_calm (f : journal C -> stateObject C -> res (journal C * stateObject C)) : Prop :=
  forall j so j' so', f j so = Ret (j', so') -> nlogs j' = nlogs j.

Lemma calm_on_object s a f s' : method_calm f -> on_object s a f = Ret s' -> calm s s'.
Proof.
  intros Hf Hr. unfold on_object in Hr. bind_inv Hr. destruct r as [so s1]. apply calm_GetOrNew in Hr0.
  bind_inv Hr. destruct r as [j so']. apply Hf in Hr1. transitivity s1; [done|].
  transitivity (s1 <| csdb_journal := j |>); [by apply calm_journal|]. by eapply calm_setStateObject.
Qed.

Ltac solve_method := intros j so j' so' Hr; repeat bind_inv Hr; repeat case_match; simplify_eq/=;
  try match goal with Ha : append _ _ = Ret _ |- _ => apply nlogs_append in Ha; cbn [is_addLog] in Ha end; try lia; try done.

Lemma SetBalance_calm x : method_calm (SO.SetBalance x).
Proof. unfold SO.SetBalance. solve_method. Qed.
Lemma SubBalance_calm x : method_calm (SO.SubBalance x).
Proof. intros j so j' so'. unfold SO.SubBalance. case_match; [by intros [= <- _]|apply SetBalance_calm]. Qed.
Lemma touch_calm j so j' : SO.touch j so = Ret j' -> nlogs j' = nlogs j.
Proof.
  unfold SO.touch. intros Hr. bind_inv Hr. apply nlogs_append in Hr0. cbn [is_addLog] in Hr0.
  destruct (address so =? ripemd)%N; [apply nlogs_dirty in Hr|injection Hr as <-]; lia.
Qed.
Lemma AddBalance_calm x : method_calm (SO.AddBalance x).
Proof.
  intros j so j' so'. unfold SO.AddBalance. case_match; [|apply SetBalance_calm].
  destruct (so_empty so); [|by intros [= <- _]]. intros Hr. bind_inv Hr. injection Hr as <- _. by eapply touch_calm.
Qed.
Lemma SetNonce_calm n : method_calm (SO.SetNonce n).
Proof. unfold SO.SetNonce. solve_method. Qed.
Lemma SetState_calm kv k v : method_calm (SO.SetState kv k v).
Proof.
  intros j so j' so' Hr. unfold SO.SetState in Hr. bind_inv Hr. destruct r as [prev so1].
  destruct (prev =? v)%N; [by injection Hr as <- _|]. bind_inv Hr. bind_inv Hr. injection Hr as <- _.
  apply nlogs_append in Hr1. cbn [is_addLog] in Hr1. lia.
Qed.
Lemma SetCode_calm kv h code : method_calm (SO.SetCode kv h code).
Proof.
  intros j so j' so' Hr. unfold SO.SetCode in Hr. destruct (Code kv so) as [pc so1]. bind_inv Hr. injection Hr as <- _.
  apply nlogs_append in Hr0. cbn [is_addLog] in Hr0. lia.
Qed.

(** ** Queries *)

Lemma calm_object_Code s so c s' : object_Code s so = Ret (c, s') -> calm s s'.
Proof.
  unfold object_Code. destruct (Code (kvstore s) so) as [code so1]. intros Hr. bind_inv Hr. injection Hr as <- <-.
  by eapply calm_setStateObject.
Qed.
Lemma calm_GetParams s p s' : StateDB.GetParams s = (p, s') -> calm s s'.
Proof.
  unfold StateDB.GetParams. destruct (params s) eqn:Hp; intros [= <- <-]; [done|].
  split; [|done..]. unfold ctxv, current_params. by rewrite Hp.
Qed.

Lemma calm_answer {X} (mk : X -> value) s (r : res (X * csdb)) v s' :
  (forall x s1, r = Ret (x, s1) -> calm s s1) -> answer mk r = Ret (v, s') -> calm s s'.
Proof. intros Hc Hr. unfold answer in Hr. bind_inv Hr. destruct r0 as [x s1]. injection Hr as _ <-. by eapply Hc. Qed.

Lemma calm_read s q v s' : read q s = Ret (v, s') -> calm s s'.
Proof.
  assert (forall a o s1, getStateObject s a = Ret (o, s1) -> calm s s1) as Hg by (intros; by eapply calm_getStateObject).
  destruct q; cbn [read]; intros Hr; try (by injection Hr as _ <-);
    try (eapply calm_answer; [|exact Hr]; clear Hr; intros x s1 Hr;
         first [ unfold GetBalance, GetNonce, GetCodeHash, HasSuicided, Empty, Exist in Hr; bind_inv Hr; destruct r as [o s2];
                 injection Hr as _ <-; by eapply Hg | idtac ]).
  - unfold GetCode in Hr. destruct (StateDB.GetParams s) as [p s2] eqn:Hp. apply calm_GetParams in Hp.
    destruct (_ && _); [done|]. bind_inv Hr. destruct r as [o s3]. transitivity s2; [done|].
    apply calm_getStateObject in Hr0. transitivity s3; [done|]. destruct o; [by eapply calm_object_Code|by injection Hr as _ <-].
  - unfold GetCodeSize in Hr. bind_inv Hr. destruct r as [o s2]. apply Hg in Hr0. transitivity s2; [done|].
    destruct o as [so|]; [|by injection Hr as _ <-]. destruct (so_code so); [by injection Hr as _ <-|].
    bind_inv Hr. destruct r as [c s3]. injection Hr as _ <-. by eapply calm_object_Code.
  - unfold GetState in Hr. bind_inv Hr. destruct r as [o s2]. apply Hg in Hr0. transitivity s2; [done|].
    destruct o as [so|]; [|by injection Hr as _ <-]. bind_inv Hr. destruct r as [w so1]. bind_inv Hr. injection Hr as _ <-.
    by eapply calm_setStateObject.
  - unfold GetCommittedState in Hr. bind_inv Hr. destruct r as [o s2]. apply Hg in Hr0. transitivity s2; [done|].
    destruct o as [so|]; [|by injection Hr as _ <-]. bind_inv Hr. destruct r as [w so1]. bind_inv Hr. injection Hr as _ <-.
    by eapply calm_setStateObject.
  - bind_inv Hr. by injection Hr as _ <-.
Qed.

(** ** Operations *)

(** The operations that concern logs. *)
Definition about_logs (o : op) : bool := match o with OpAddLog _ | OpRevert _ => true | _ => false end.

Lemma calm_exec o s s' : about_logs o = false -> exec o s = Ret s' -> calm s s'.
Proof.
  intros Ho Hr. destruct o; try done; cbn [exec] in Hr.
  - bind_inv Hr. destruct r as [v s1]. injection Hr as <-. by eapply calm_read.
  - unfold CreateAccount in Hr. bind_inv Hr. destruct r as [[x y] s1]. apply calm_createObject in Hr0.
    transitivity s1; [done|]. destruct y; [|by injection Hr as <-]. bind_inv Hr. by eapply calm_setStateObject.
  - eapply calm_on_object; [|exact Hr]. apply SubBalance_calm.
  - eapply calm_on_object; [|exact Hr]. apply AddBalance_calm.
  - eapply calm_on_object; [|exact Hr]. apply SetBalance_calm.
  - eapply calm_on_object; [|exact Hr]. apply SetNonce_calm.
  - unfold SetCode in Hr. bind_inv Hr. injection Hr as <-.
    transitivity r; [eapply calm_on_object; [|exact Hr0]; apply SetCode_calm|done].
  - eapply calm_on_object; [|exact Hr]. apply SetState_calm.
  - bind_inv Hr. destruct r as [b s1]. injection Hr as <-. unfold Suicide in Hr0. bind_inv Hr0. destruct r as [o s2].
    apply calm_getStateObject in Hr1. transitivity s2; [done|]. destruct o as [so|]; [|by injection Hr0 as _ <-].
    bind_inv Hr0. bind_inv Hr0. destruct r0 as [j so1]. bind_inv Hr0. injection Hr0 as _ <-.
    transitivity r; [eapply calm_jappend; [|exact Hr2]; done|]. apply SetBalance_calm in Hr3.
    transitivity (r <| csdb_journal := j |>); [by apply calm_journal|]. by eapply calm_setStateObject.
  - unfold AddRefund in Hr. bind_inv Hr. injection Hr as <-. transitivity r; [eapply calm_jappend; [|eassumption]; done|done].
  - unfold SubRefund in Hr. bind_inv Hr. case_match; [done|]. injection Hr as <-. transitivity r; [eapply calm_jappend; [|eassumption]; done|done].
  - unfold AddPreimage in Hr. case_match; [by injection Hr as <-|]. bind_inv Hr. injection Hr as <-.
    transitivity r; [eapply calm_jappend; [|eassumption]; done|done].
  - unfold AddAddressToAccessList in Hr. destruct (AccessList.AddAddress _ _) as [changed al].
    transitivity (s <| csdb_accessList := al |>); [done|]. destruct changed; [eapply calm_jappend; [|exact Hr]; done|by injection Hr as <-].
  - unfold AddSlotToAccessList in Hr. bind_inv Hr. destruct r as [[am sm] al]. bind_inv Hr.
    transitivity (s <| csdb_accessList := al |>); [done|].
    transitivity r; [destruct am; [eapply calm_jappend; [|exact Hr1]; done|by injection Hr1 as <-]|].
    destruct sm; [eapply calm_jappend; [|exact Hr]; done|by injection Hr as <-].
  - by injection Hr as <-.
Qed.

(** *** Logs *)

(** The logs of the transaction, when it started with log size [n0]. *)
Record log_ok (n0 : Z) s : Prop := {
  lo_count : nlogs (csdb_journal s) = length (logs s);
  lo_size : logSize s = u64 (n0 + Z.of_nat (length (logs s)));
  lo_log i l : logs s !! i = Some l ->
    log_Index l = u64 (n0 + Z.of_nat i) /\ log_TxHash l = thash s /\ log_BlockHash l = bhash s /\ log_TxIndex l = u64 (txIndex s);
}.

Lemma log_ok_calm n0 s s' : calm s s' -> log_ok n0 s -> log_ok n0 s'.
Proof.
  intros [Hc _ Hl] [Hn Hs Hi]. unfold ctxv in Hc. unfold logv in Hl. injection Hc as _ _ Ht Hb Hx _. injection Hl as Hl Hz Hj.
  split; [by rewrite Hj, Hl|by rewrite Hz, Hl|]. rewrite Hl, Ht, Hb, Hx. exact Hi.
Qed.

Lemma u64_add x y : u64 (u64 x + y) = u64 (x + y).
Proof. unfold u64. by rewrite Zplus_mod_idemp_l. Qed.

Lemma log_ok_AddLog n0 s l s' : log_ok n0 s -> AddLog s l = Ret s' ->
  log_ok n0 s' /\ ctxv s' = ctxv s /\ accounts s' = accounts s.
Proof.
  intros [Hn Hs Hi] Hr. unfold AddLog, jappend in Hr. bind_inv Hr. bind_inv Hr0. injection Hr0 as <-. injection Hr as <-.
  apply nlogs_append in Hr1. cbn [is_addLog] in Hr1. split; [|done]. split; cbn.
  - rewrite Hr1, length_app, Hn. done.
  - rewrite Hs, u64_add, length_app. cbn. f_equal. lia.
  - intros i lg [Hlt|[Hge Hlg]]%lookup_app_Some; [by apply Hi|]. apply list_lookup_singleton_Some in Hlg as [Hz <-].
    cbn. rewrite Hs. assert (i = length (logs s)) as -> by lia. done.
Qed.

(** Undoing one entry. *)
Lemma revert_entry_frame e s s' : revert_entry e s = Ret s' ->
  ctxv s' = ctxv s /\ accounts s' = accounts s /\
  (if is_addLog e
   then logs s' = (if length (logs s) <=? 1 then [] else take (length (logs s) - 1) (logs s)) /\ logSize s' = u64 (logSize s - 1)
   else logs s' = logs s /\ logSize s' = logSize s).
Proof.
  assert (forall s1 so s2, setStateObject s1 so = Ret s2 -> ctxv s2 = ctxv s1 /\ accounts s2 = accounts s1 /\ logs s2 = logs s1 /\ logSize s2 = logSize s1) as Hset.
  { intros s1 so s2. unfold setStateObject. case_match; [|by intros [= <-]]. intros Hs. bind_inv Hs. by injection Hs as <-. }
  assert (forall s1 a o s2, getStateObject s1 a = Ret (o, s2) -> ctxv s2 = ctxv s1 /\ accounts s2 = accounts s1 /\ logs s2 = logs s1 /\ logSize s2 = logSize s1) as Hget.
  { intros s1 a o s2. unfold getStateObject. case_match.
    - intros Hg. bind_inv Hg. case_match; by injection Hg as <- <-.
    - case_match; [|unfold setError; destruct (dbErr s1); by intros [= <- <-]].
      intros Hg. bind_inv Hg. bind_inv Hg. injection Hg as <- <-. by eapply Hset. }
  destruct e; cbn [revert_entry is_addLog]; intros Hr;
    try (bind_inv Hr; destruct r as [o s1]; apply Hget in Hr0 as (E1 & E2 & E3 & E4); rewrite <- E1, <- E2, <- E3, <- E4);
    try (destruct o; [|first [by injection Hr as <- | done]]; cbn [deref mbind res_bind] in Hr;
         repeat bind_inv Hr; by eapply Hset);
    try (by eapply Hset);
    try (repeat case_match; by injection Hr as <-).
  - injection Hr as <-. unfold GetLogs. by destruct (length (logs s) <=? 1).
  - bind_inv Hr. by injection Hr as <-.
Qed.

Lemma filter_take_last (l : list (journalEntry C)) e : last l = Some e ->
  length (filter (fun e => is_addLog e = true) l)
  = length (filter (fun e => is_addLog e = true) (take (length l - 1) l)) + (if is_addLog e then 1 else 0).
Proof.
  intros Hl. apply last_Some in Hl as [l' ->]. rewrite length_app. cbn [length].
  replace (length l' + 1 - 1) with (length l') by lia. rewrite take_app_length, filter_app, length_app.
  rewrite filter_cons, filter_nil. by destruct (is_addLog e).
Qed.

Lemma pop_frame n0 s s' : pop s = Ret s' -> log_ok n0 s -> log_ok n0 s' /\ ctxv s' = ctxv s /\ accounts s' = accounts s.
Proof.
  intros Hr [Hn Hs Hi]. unfold pop in Hr. bind_inv Hr. destruct (last (entries (csdb_journal s))) as [e|] eqn:Hlast; [|done].
  injection Hr0 as <-. bind_inv Hr. bind_inv Hr. injection Hr as <-.
  pose proof (revert_entry_keeps _ _ _ Hr0) as Hj. apply revert_entry_frame in Hr0 as (Hc & Ha & Hl).
  apply undirty_keeps_entries in Hr1. rewrite Hj in Hr1. unfold nlogs in Hn. rewrite (filter_take_last _ e Hlast) in Hn.
  split; [|split; [exact Hc|exact Ha]].
  unfold ctxv in Hc. injection Hc as _ _ Hth Hbh Hti _. split; cbn.
  - unfold nlogs. cbn. unfold jlength. rewrite Hr1. destruct (is_addLog e).
    + destruct Hl as [-> _]. destruct (length (logs s) <=? 1) eqn:Hle; [apply Nat.leb_le in Hle|apply Nat.leb_gt in Hle; rewrite length_take]; simpl; lia.
    + destruct Hl as [-> _]. lia.
  - destruct (is_addLog e).
    + destruct Hl as [-> ->]. rewrite Hs. unfold Z.sub. rewrite u64_add. f_equal.
      destruct (length (logs s) <=? 1) eqn:Hle; [apply Nat.leb_le in Hle|apply Nat.leb_gt in Hle; rewrite length_take]; simpl; lia.
    + by destruct Hl as [-> ->].
  - intros i lg Hlg. rewrite Hth, Hbh, Hti. apply Hi. destruct (is_addLog e).
    + destruct Hl as [Hl _]. rewrite Hl in Hlg. destruct (length (logs s) <=? 1); [done|]. by apply lookup_take_Some in Hlg as [? _].
    + destruct Hl as [Hl _]. by rewrite <- Hl.
Qed.

Lemma pop_n_frame n0 n : forall s s', pop_n n s = Ret s' -> log_ok n0 s -> log_ok n0 s' /\ ctxv s' = ctxv s /\ accounts s' = accounts s.
Proof.
  induction n as [|n IH]; intros s s' Hr Hok; cbn [pop_n] in Hr; [by injection Hr as <-|].
  bind_inv Hr. destruct (pop_frame n0 _ _ Hr0 Hok) as (Hok1 & Hc & Ha). destruct (IH _ _ Hr Hok1) as (Hok2 & Hc2 & Ha2).
  split; [done|]. split; congruence.
Qed.

Lemma log_ok_revert n0 s id s' : RevertToSnapshot s id = Ret s' -> log_ok n0 s ->
  log_ok n0 s' /\ ctxv s' = ctxv s /\ accounts s' = accounts s.
Proof.
  intros Hr Hok. unfold RevertToSnapshot in Hr. destruct (validRevisions s !! _) as [rv|]; [|done].
  destruct (rev_id rv =? id)%Z; [|done]. bind_inv Hr. injection Hr as <-.
  assert (log_ok n0 r /\ ctxv r = ctxv s /\ accounts r = accounts s) as (Ho & Hc & Ha).
  2:{ split; [|by split]. by destruct Ho. }
  destruct (decide (journalIndex rv <= jlength (csdb_journal s))) as [Hle|Hgt].
  - rewrite (journal_revert_pop_n (jlength (csdb_journal s) - journalIndex rv)) in Hr0 by lia. by eapply pop_n_frame.
  - unfold journal_revert in Hr0. replace (jlength (csdb_journal s) - journalIndex rv) with 0 in Hr0 by lia.
    cbn [revert_loop mbind res_bind] in Hr0. injection Hr0 as <-. split; [|done]. destruct Hok as [Hn Hs Hi].
    split; cbn; [|done..]. unfold nlogs. cbn. unfold jlength in Hgt. rewrite take_ge by lia. exact Hn.
Qed.

(** Whatever the machine does: the stores and accounts stay as they are,
    and the logs stay in order. *)
Record kept n0 s s' : Prop := {
  kept_ctx : ctxv s' = ctxv s;
  kept_accounts : ak_equiv (accounts s) (accounts s');
  kept_logs : log_ok n0 s -> log_ok n0 s';
}.
Lemma kept_refl n0 s : kept n0 s s.
Proof. by split. Qed.
Lemma kept_trans n0 s1 s2 s3 : kept n0 s1 s2 -> kept n0 s2 s3 -> kept n0 s1 s3.
Proof. intros [] []. split; [congruence|intros a; by rewrite kept_accounts0|eauto]. Qed.
Lemma kept_calm n0 s s' : calm s s' -> kept n0 s s'.
Proof. intros Hc. pose proof Hc as []. split; [done|done|]. by apply log_ok_calm. Qed.

Lemma exec_kept n0 o s s' : log_ok n0 s -> exec o s = Ret s' -> kept n0 s s' /\ log_ok n0 s'.
Proof.
  intros Hok Hr. destruct (about_logs o) eqn:Ho.
  - assert (log_ok n0 s' /\ ctxv s' = ctxv s /\ accounts s' = accounts s) as (Hok' & Hc & Ha).
    { destruct o; try done; cbn [exec] in Hr; [by eapply log_ok_AddLog|by eapply log_ok_revert]. }
    split; [|done]. split; [done|by rewrite Ha|done].
  - pose proof (calm_exec _ _ _ Ho Hr) as Hc. split; [by apply kept_calm|by eapply log_ok_calm].
Qed.

Lemma exec_all_kept n0 ops : forall s s', log_ok n0 s -> exec_all ops s = Ret s' -> kept n0 s s' /\ log_ok n0 s'.
Proof.
  induction ops as [|o ops IH]; intros s s' Hok Hr; cbn [exec_all] in Hr.
  - injection Hr as <-. split; [apply kept_refl|done].
  - bind_inv Hr. destruct (exec_kept n0 _ _ _ Hok Hr0) as [Hk1 Hok1]. destruct (IH _ _ Hok1 Hr) as [Hk2 Hok2].
    split; [by eapply kept_trans|done].
Qed.

End Logs.
End StateDBLogs.
