(* ===== verification/StateDBExamples.v ===== *)
(** Runs of the state database over finite-map stores.

    Concrete inputs at which the theorems on snapshots apply, and the
    RIPEMD exception, where the tracking of dirty accounts breaks. *)
From stdpp Require Import sorting.
From S2P Require Import Prelude.
From S2P Require Import GoSlices.
From S2P Require Import Interfaces.
From S2P Require Import Account.
From S2P Require Import AccessList.
From S2P Require Import StateObject.
From S2P Require Import Journal.
From S2P Require Import StateDB.
From S2P Require Import StateObjectSpec.
From S2P Require Import StateDBInv.
From S2P Require Import StateDBRevert.
From S2P Require Import StateDBUndo.
From S2P Require Import StateDBSnapshot.
From S2P Require Import StateDBCommit.
Import StateObject Journal StateDB StateObjectSpec StateDBInv StateDBRevert StateDBUndo StateDBSnapshot StateDBCommit.
Import MapInstances.

Module StateDBExamples.

Definition db := CommitStateDB store akeeper coins.
Definition default_Params : Params := mkParams true true [] false false 30000000.

(** One account, 0xaa, with a balance of 1000 and nonce 7. *)
Definition alice : EthAccount coins :=
  mkEthAccount _ 170%N {[ "fax" := 1000%positive ]} None 0 7 (Some (keccak256 [])).
Definition keeper0 : akeeper := mkAkeeper {[ 170%N := AEth alice ]} 1.
Definition db0 : db := CreateEmptyCommitStateDB ∅ keeper0 default_Params.

Lemma keeper0_ok a acc : GetAccount keeper0 a = Some (AEth acc) -> account_ok acc.
Proof.
  cbn. unfold ak_get. simpl. destruct (decide (a = 170%N)) as [->|Hne].
  - rewrite lookup_singleton_eq. intros [= <-]. split; [|done]. done.
  - by rewrite lookup_singleton_ne by done.
Qed.

Lemma db0_wf : wf db0 /\ revs_wf db0.
Proof. apply empty_wf, keeper0_ok. Qed.

(** A run with a nested snapshot that is reverted, and changes after it. *)
Definition demo_ops : list op :=
  [ OpSubBalance 170%N 40; OpAddBalance 187%N 40; OpSetCode 187%N (Some [Byte.x60; Byte.x01]);
    OpSetState 187%N 1%N 5%N; OpAddSlot 187%N 1%N; OpSnapshot; OpSetNonce 170%N 8;
    OpSetState 187%N 1%N 6%N; OpSuicide 187%N; OpRevert 1; OpCreateAccount 170%N;
    OpAddRefund 15000; OpAddLog (mkLog 187%N [1%N] [Byte.xff] 3 0%N 0 0%N 0);
    OpAddPreimage 9%N [Byte.x01]; OpRead (QState 170%N 2%N) ].
Definition demo_after : db :=
  match exec_all demo_ops (Snapshot db0).2 with Ret s => s | Panic _ => db0 end.

Example demo_changes :
  (fst <$> read (QBalance 187%N) demo_after, fst <$> read (QState 187%N 1%N) demo_after,
   fst <$> read QRefund demo_after)
  = (Ret (VZ 40), Ret (VHash 5%N), Ret (VZ 15000)).
Proof. vm_compute. reflexivity. Qed.

Ltac solve_ops :=
  repeat (apply Forall_cons; split); try apply Forall_nil; cbn; repeat split; try done;
  by left.

Lemma demo_ops_ok : Forall (op_ok (Snapshot db0).1) demo_ops.
Proof. solve_ops. Qed.

Lemma RevertToSnapshot_restores_witness :
  exists s2, RevertToSnapshot demo_after 0 = Ret s2 /\ wf s2 /\
    (forall q, fst <$> read q s2 = fst <$> read q db0) /\
    csdb_journal s2 = csdb_journal db0 /\ validRevisions s2 = validRevisions db0 /\
    (forall a, GetCacheCode s2 a = GetCacheCode demo_after a).
Proof.
  apply (RevertToSnapshot_restores db0 demo_ops demo_after);
    [apply db0_wf|apply db0_wf|apply demo_ops_ok|vm_compute; reflexivity].
Defined.

(** The code 0xbb had inside the snapshot is still in the cache of codes,
    though the contract is gone. *)
Example cache_code_not_reverted :
  match RevertToSnapshot demo_after 0 with
  | Ret s => GetCacheCode s 187%N = Some [Byte.x60; Byte.x01] /\ (fst <$> read (QCode 187%N) s) = Ret (VBytes None) /\
             (fst <$> read (QExist 187%N) s) = Ret (VBool false)
  | Panic _ => False
  end.
Proof. vm_compute. done. Qed.

Lemma read_is_observe_witness :
  fst <$> read (QBalance 170%N) db0 = observe (QBalance 170%N) db0 /\
  forall v s', read (QBalance 170%N) db0 = Ret (v, s') ->
    wf s' /\ forall q', observe q' s' = observe q' db0.
Proof. apply (read_is_observe db0 (QBalance 170%N)), db0_wf. Defined.

Lemma reachable_wf_witness : wf demo_after /\ revs_wf demo_after.
Proof.
  apply (reachable_wf ∅ keeper0 default_Params (OpSnapshot :: demo_ops) demo_after);
    [exact keeper0_ok| |vm_compute; reflexivity].
  solve_ops.
Defined.

(** ** Finalise and Commit *)

Definition no_blacklist (a : Address) : bool := false.

(** The code of 0xbb, the contract of the demo run. *)
Definition demo_code : bytes := [Byte.x60; Byte.x01].

Definition demo_final : db :=
  match Finalise no_blacklist true demo_after with Ret (_, s) => s | Panic _ => db0 end.
Definition demo_hash : Hash :=
  match Commit no_blacklist true demo_final with Ret (h, _, _) => h | Panic _ => 0%N end.
Definition demo_committed : db :=
  match Commit no_blacklist true demo_final with Ret (_, _, s) => s | Panic _ => db0 end.

(** One dirty code in the cache at most has a given code hash. *)
Definition same_code_for (h code : bytes) (so : stateObject coins) : bool :=
  match so_code so with
  | Some c => negb (dirtyCode so) || negb (bool_decide (CodeHash so = h)) || bool_decide (c = code)
  | None => true
  end.

Lemma no_collision_decide (s : db) h code :
  forallb (fun se => same_code_for h code (se_object se)) (stateObjects s) = true ->
  no_collision s h code.
Proof.
  rewrite forallb_forall. intros Hall b so c Hb Hc Hd Hh.
  unfold cache, idx_find in Hb. destruct (addressToObjectIndex s !! b) as [i|]; [|done]. simpl in Hb.
  destruct (stateObjects s !! i) as [se|] eqn:E; [|done]. simpl in Hb. injection Hb as <-.
  specialize (Hall se). unfold same_code_for in Hall. rewrite Hc, Hd, bool_decide_eq_true_2 in Hall by done.
  apply (bool_decide_eq_true_1 (c = code)), Hall, list_elem_of_In. by eapply list_elem_of_lookup_2.
Qed.

Lemma demo_after_wf : wf demo_after.
Proof.
  apply (exec_all_wf (OpSnapshot :: demo_ops) db0 demo_after);
    [apply db0_wf..|apply empty_above| |vm_compute; reflexivity]. solve_ops.
Qed.

Definition contract_check (so : stateObject coins) : bool :=
  negb (deleted so) && negb (suicided so) && negb (so_empty so)
  && bool_decide (code_of (kvstore demo_after) so = Some demo_code)
  && bool_decide (CodeHash so = keccak256 demo_code).

Lemma demo_contract_checks : exists so, cache demo_after 187%N = Some so /\
  deleted so = false /\ suicided so = false /\ so_empty so = false /\
  code_of (kvstore demo_after) so = Some demo_code /\ CodeHash so = keccak256 demo_code.
Proof.
  assert (contract_check <$> cache demo_after 187%N = Some true) as Hok
    by (vm_compute; reflexivity).
  apply fmap_Some in Hok as (so & Hc & Hok). symmetry in Hok. exists so. split; [exact Hc|].
  unfold contract_check in Hok.
  repeat (apply andb_prop in Hok as [Hok ?]).
  repeat split; first [by apply negb_true_iff | by eapply bool_decide_eq_true_1].
Qed.

(** Only whether it succeeds is computed. *)
Definition succeeds {A E B} (error : A -> option E) (r : res (A * B)) : bool := match r with Ret (a, _) => if error a then false else true | Panic _ => false end.
Lemma demo_finalised : Finalise no_blacklist true demo_after = Ret (None, demo_final).
Proof.
  assert (succeeds id (Finalise no_blacklist true demo_after) = true) as Hs by (vm_compute; reflexivity).
  unfold demo_final. destruct (Finalise no_blacklist true demo_after) as [[[e|] s]|p]; done.
Qed.
Lemma demo_commits : Commit no_blacklist true demo_final = Ret (demo_hash, None, demo_committed).
Proof.
  assert (succeeds snd (Commit no_blacklist true demo_final) = true) as Hs by (vm_compute; reflexivity).
  unfold demo_hash, demo_committed. destruct (Commit no_blacklist true demo_final) as [[[h [e|]] s]|p]; done.
Qed.
Lemma demo_contract_dirty : 187%N ∈ dirty_address <$> dirties (csdb_journal demo_after).
Proof. apply (bool_decide_eq_true_1 (187%N ∈ _)). vm_compute. reflexivity. Qed.
Lemma demo_code_settled so : CodeHash so = keccak256 demo_code -> code_of (kvstore demo_after) so = Some demo_code ->
  code_settled demo_after so.
Proof.
  intros Hh Hcode. right. exists demo_code. split_and!; [by vm_compute|exact Hcode| |].
  - rewrite Hh. apply (bool_decide_eq_false_1 (keccak256 demo_code = _)). vm_compute. reflexivity.
  - apply no_collision_decide. rewrite Hh. vm_compute. reflexivity.
Qed.

Lemma demo_params : default_Params = current_params demo_after.
Proof. vm_compute. reflexivity. Qed.
Lemma Finalise_Commit_persists_witness :
  let fresh := CreateEmptyCommitStateDB (kvstore demo_committed) (accounts demo_committed) default_Params in
  observe (QBalance 187%N) fresh = observe (QBalance 187%N) demo_after /\
  observe (QState 187%N 1%N) fresh = observe (QState 187%N 1%N) demo_after /\
  observe (QCommittedState 187%N 1%N) fresh = observe (QState 187%N 1%N) demo_after /\
  observe (QCode 187%N) fresh = observe (QCode 187%N) demo_after.
Proof.
  destruct demo_contract_checks as (so & Hc & Hd & Hs & He & Hcode & Hh).
  pose proof (Finalise_Commit_persists no_blacklist true demo_after demo_final demo_hash demo_committed 187%N so
    default_Params demo_after_wf demo_finalised demo_commits demo_contract_dirty Hc Hd (demo_code_settled so Hh Hcode)) as Hp.
  cbv zeta in Hp. rewrite Hs, He in Hp. cbn [orb andb] in Hp. destruct Hp as (Hq & Hcs & Hcd).
  exact (conj (Hq (QBalance 187%N) eq_refl) (conj (Hq (QState 187%N 1%N) eq_refl) (conj (Hcs 1%N) (Hcd demo_params)))).
Defined.

(** ** The journal and the access list *)

Definition demo_journal : journal coins := newJournal.
Definition demo_entries : list (journalEntry coins) :=
  [createObjectChange 5%N; balanceChange 5%N 0; nonceChange 6%N 1; refundChange 0].

Lemma append_undirty_all_witness :
  exists j', append_all demo_journal demo_entries = Ret j' /\ jwf j' /\
    entries j' = entries demo_journal ++ demo_entries /\
    undirty_all j' (rev demo_entries)
    = Ret (mkJournal coins (entries j') (dirties demo_journal) (addressToJournalIndex demo_journal)).
Proof. apply (append_undirty_all demo_journal demo_entries), newJournal_wf. Defined.

Definition demo_list : accessList := (AccessList.AddAddress AccessList.newAccessList 5%N).2.

Lemma demo_list_wf : AccessList.al_wf demo_list.
Proof.
  pose proof (AccessList.AddAddress_spec AccessList.newAccessList 5%N AccessList.new_wf) as Hs.
  by destruct Hs.
Qed.

Lemma AddSlot_records_witness :
  exists addrMod slotMod al', AccessList.AddSlot demo_list 5%N 9%N = Ret (addrMod, slotMod, al') /\
  AccessList.al_wf al' /\
  AccessList.Contains demo_list 5%N 9%N = Ret (negb addrMod, negb slotMod) /\
  (forall b k, AccessList.Contains al' b k
     = if decide (5%N = b /\ 9%N = k) then Ret (true, true)
       else if decide (5%N = b) then (fun '(_, p) => (true, p)) <$> AccessList.Contains demo_list b k
       else AccessList.Contains demo_list b k).
Proof. apply (AccessList.AddSlot_records demo_list 5%N 9%N), demo_list_wf. Defined.

(** ** The RIPEMD exception

    Touching the empty RIPEMD account counts it once more than there are
    entries, so its element stays in [dirties] when the touch is undone.
    Undoing an earlier entry then deletes an element in front of it, and
    the index map keeps the old position. *)
Definition ripemd_ops : list op :=
  [ OpSnapshot; OpSetNonce 187%N 1; OpAddBalance ripemd 0; OpRevert 0 ].

Definition ripemd_after : db :=
  match exec_all ripemd_ops db0 with Ret s => s | Panic _ => db0 end.

(** After the RIPEMD account was touched and the touch reverted together
    with an earlier first change of another account, the index map of the
    journal points past the slice of dirty accounts, and the next change
    of the RIPEMD account panics with an index out of range. *)
Theorem ripemd_touch_corrupts_journal :
  exec_all ripemd_ops db0 = Ret ripemd_after /\
  addressToJournalIndex (csdb_journal ripemd_after) !! ripemd = Some 1 /\
  length (dirties (csdb_journal ripemd_after)) = 1 /\
  AddBalance ripemd_after ripemd 0 = Panic PanicIndex /\
  SetNonce ripemd_after ripemd 1 = Panic PanicIndex.
Proof. split_and!; vm_compute; reflexivity. Qed.

(** ** Storage of a destroyed contract

    [deleteStateObject] removes the account only.  The slots of a contract
    that destroyed itself stay in the store, and a contract created later
    at the same address (CREATE2) reads them. *)
Definition next_block (s : db) : db := CreateEmptyCommitStateDB (kvstore s) (accounts s) default_Params.
Definition commit_block (s : db) : res db :=
  '(_, s) ← Finalise no_blacklist true s;
  '(_, _, s) ← Commit no_blacklist true s; Ret (next_block s).

(** Create 0xbb and set slot 1 to 5; destroy it; create it again. *)
Definition destroyed : db :=
  match (s ← exec_all [OpCreateAccount 187%N; OpSetNonce 187%N 1; OpSetState 187%N 1%N 5%N] db0;
         s ← commit_block s; s ← exec_all [OpSuicide 187%N] s; commit_block s)
  with Ret s => s | Panic _ => db0 end.
Definition recreated : res db := exec_all [OpCreateAccount 187%N; OpSetNonce 187%N 1] destroyed.

(** A contract that was destroyed and whose deletion was committed no
    longer exists, and yet a contract created again at its address reads
    the storage of the old one: the commit of a suicide leaves the slots
    in the store. *)
Theorem suicide_keeps_storage :
  fst <$> read (QExist 187%N) destroyed = Ret (VBool false) /\
  (s ← recreated; fst <$> read (QState 187%N 1%N) s) = Ret (VHash 5%N) /\
  (s ← recreated; fst <$> read (QCommittedState 187%N 1%N) s) = Ret (VHash 5%N).
Proof. split_and!; vm_compute; reflexivity. Qed.

End StateDBExamples.
