(* ===== verification/EthMsg.v ===== *)
(** Ethereum transactions (evm/types/msg.go, evm/types/utils.go).

    The transaction record, the hashes a sender signs, [Sign], [VerifySig]
    and the amounts derived from a transaction.  Elliptic-curve operations
    and RLP are third-party: a class of operations with their laws. *)
From S2P Require Import Prelude.
From S2P Require Import Interfaces.

(** ** math/big *)
Definition BitLen (z : Z) : Z := if (z =? 0)%Z then 0%Z else (Z.log2 (Z.abs z) + 1)%Z.
(** [Uint64] is the low word of the absolute value. *)
Definition big_Uint64 (z : Z) : Z := (Z.abs z mod u64_modulus)%Z.
(** [Bytes]: the absolute value, big-endian, without leading zeros. *)
Definition big_Bytes (z : Z) : bytes := be_bytes (Z.to_nat ((BitLen z + 7) / 8)) (Z.abs z).

(** [copy(dst[off:], src)] *)
Definition copy_at (dst : bytes) (off : nat) (src : bytes) : bytes :=
  take off dst ++ src ++ drop (off + length src) dst.

(** ** Third-party code *)

(** The values the code hands to [rlp.Encode]. *)
Inductive rlp_value :=
  | RlpUint (n : Z) | RlpBig (z : Z) | RlpAddress (a : option Address) | RlpBytes (b : bytes).
Class Rlp := rlp_Encode : list rlp_value -> bytes.

Class EthCrypto (PrivateKey : Type) := {
  ValidateSignatureValues : Z -> Z -> Z -> bool -> bool;
  Ecrecover : bytes -> bytes -> option bytes;
  crypto_Sign : bytes -> PrivateKey -> option bytes;
  (** The uncompressed public key, 65 bytes starting with 4. *)
  public_key : PrivateKey -> bytes;
}.
Definition sig_R (sig : bytes) : Z := be_value (take 32 sig).
Definition sig_S (sig : bytes) : Z := be_value (take 32 (drop 32 sig)).
Class EthCryptoLaws (PrivateKey : Type) `{EthCrypto PrivateKey} := {
  ValidateSignatureValues_range v r s b : ValidateSignatureValues v r s b = true ->
    (0 < r < 2 ^ 256)%Z /\ (0 < s < 2 ^ 256)%Z /\ (v = 0 \/ v = 1)%Z;
  crypto_Sign_length h k sig : crypto_Sign h k = Some sig -> length sig = 65;
  crypto_Sign_valid h k sig v : crypto_Sign h k = Some sig -> sig !! 64 = Some v ->
    ValidateSignatureValues (Z_of_byte v) (sig_R sig) (sig_S sig) true = true;
  Ecrecover_Sign h k sig : crypto_Sign h k = Some sig -> Ecrecover h sig = Some (public_key k);
  public_key_tag k : exists x, public_key k = Byte.x04 :: x;
}.

(** [ethtypes.Signer] *)
Inductive Signer := EIP155Signer (chainID : Z) | HomesteadSigner.
#[export] Instance Signer_eq_dec : EqDecision Signer.
Proof. solve_decision. Defined.

(** ** Data *)

Record TxData := mkTxData {
  AccountNonce : Z;   (* uint64 *)
  Price : Z;          (* *big.Int *)
  GasLimit : Z;       (* uint64 *)
  Recipient : option Address;
  Amount : Z;         (* *big.Int *)
  Payload : bytes;
  tx_V : Z; tx_R : Z; tx_S : Z;
}.
#[export] Instance TxData_eta : Eta TxData := fun r =>
  mkTxData (AccountNonce r) (Price r) (GasLimit r) (Recipient r) (Amount r) (Payload r)
    (tx_V r) (tx_R r) (tx_S r).

Record sigCache := mkSigCache { sc_signer : Signer; sc_from : Address }.

(** The transaction with the cache of its sender. *)
Record MsgEthereumTx := mkMsg { Data : TxData; from : option sigCache }.
#[export] Instance MsgEthereumTx_eta : Eta MsgEthereumTx := fun r => mkMsg (Data r) (from r).

(** The SDK message for simulations ([sdk.Int] prices and amounts). *)
Record MsgEthermint := mkMsgEthermint {
  em_AccountNonce : Z; em_Price : Z; em_GasLimit : Z; em_Recipient : option Address;
  em_Amount : Z; em_Payload : bytes; em_From : Address;
}.

Inductive msg_error :=
  | ErrInvalidSignature | ErrEcrecover | ErrInvalidPublicKey | ErrChainIDZero
  | ErrSign | ErrWrongSize (got : nat)
  | ErrPriceZero | ErrPriceNegative | ErrAmountNegative.

Module EthMsg.
Section EthMsg.
Context `{Keccak, Rlp} {PrivateKey : Type} `{EthCrypto PrivateKey}.
Implicit Types (msg : MsgEthereumTx).

Definition newMsgEthereumTx (nonce : Z) (to : option Address) (amount : option Z)
    (gasLimit : Z) (gasPrice : option Z) (payload : bytes) : MsgEthereumTx :=
  mkMsg (mkTxData nonce (default 0%Z gasPrice) gasLimit to (default 0%Z amount) payload 0 0 0) None.
Definition NewMsgEthereumTx := newMsgEthereumTx.
Definition NewMsgEthereumTxContract (nonce : Z) (amount : option Z) (gasLimit : Z)
    (gasPrice : option Z) (payload : bytes) : MsgEthereumTx :=
  newMsgEthereumTx nonce None amount gasLimit gasPrice payload.

Definition ValidateBasic msg : option msg_error :=
  if (Price (Data msg) =? 0)%Z then Some ErrPriceZero
  else if (Price (Data msg) <? 0)%Z then Some ErrPriceNegative
  else if (Amount (Data msg) <? 0)%Z then Some ErrAmountNegative
  else None.

Definition MsgEthermint_ValidateBasic (msg : MsgEthermint) : option msg_error :=
  if (em_Price msg =? 0)%Z then Some ErrPriceZero
  else if (em_Price msg <? 0)%Z then Some ErrPriceNegative
  else if (em_Amount msg <? 0)%Z then Some ErrAmountNegative
  else None.

Definition To msg : option Address := Recipient (Data msg).
Definition GetGas msg : Z := GasLimit (Data msg).
Definition Fee msg : Z := (Price (Data msg) * GasLimit (Data msg))%Z.
Definition Cost msg : Z := (Fee msg + Amount (Data msg))%Z.

Definition rlpHash (x : list rlp_value) : Hash := Keccak256Hash (rlp_Encode x).

Definition RLPSignBytes msg (chainID : Z) : Hash :=
  let d := Data msg in
  rlpHash [RlpUint (AccountNonce d); RlpBig (Price d); RlpUint (GasLimit d); RlpAddress (Recipient d);
    RlpBig (Amount d); RlpBytes (Payload d); RlpBig chainID; RlpUint 0; RlpUint 0].

Definition HomesteadSignHash msg : Hash :=
  let d := Data msg in
  rlpHash [RlpUint (AccountNonce d); RlpBig (Price d); RlpUint (GasLimit d); RlpAddress (Recipient d);
    RlpBig (Amount d); RlpBytes (Payload d)].

Definition isProtectedV (V : Z) : bool :=
  if (BitLen V <=? 8)%Z then
    let v := big_Uint64 V in negb (v =? 27)%Z && negb (v =? 28)%Z
  else true.

Definition deriveChainID (v : Z) : Z :=
  if (BitLen v <=? 64)%Z then
    let v := big_Uint64 v in
    if (v =? 27)%Z || (v =? 28)%Z then 0%Z else (u64 (v - 35) / 2)%Z
  else ((v - 35) / 2)%Z.
Definition ChainID msg : Z := deriveChainID (tx_V (Data msg)).

(** [byte(Vb.Uint64() - 27)] keeps the low byte of the difference. *)
Definition recoverEthSig (R S Vb : Z) (sigHash : Hash) : res (Address + msg_error) :=
  if (8 <? BitLen Vb)%Z then Ret (inr ErrInvalidSignature)
  else
    let V := ((big_Uint64 Vb - 27) mod 256)%Z in
    if negb (ValidateSignatureValues V R S true) then Ret (inr ErrInvalidSignature)
    else
      let r := big_Bytes R in let s := big_Bytes S in
      if Nat.ltb 32 (length r) || Nat.ltb 64 (length s) then Panic PanicIndex
      else
        let sig := replicate 65 x00 in
        let sig := copy_at sig (32 - length r) (take 32 r) in
        let sig := copy_at sig (64 - length s) (take 64 s) in
        let sig := <[64 := byte_of_Z V]> sig in
        match Ecrecover (Hash_Bytes sigHash) sig with
        | None => Ret (inr ErrEcrecover)
        | Some pub =>
            match pub with
            | Byte.x04 :: rest => Ret (inl (BytesToAddress (drop 12 (keccak256 rest))))
            | _ => Ret (inr ErrInvalidPublicKey)
            end
        end.

(** The signature covers the chain ID, and so does [V]. *)
Definition Sign msg (chainID : Z) (priv : PrivateKey) : res (MsgEthereumTx + msg_error) :=
  let txHash := RLPSignBytes msg chainID in
  match crypto_Sign (Hash_Bytes txHash) priv with
  | None => Ret (inr ErrSign)
  | Some sig =>
      if negb (Nat.eqb (length sig) 65) then Ret (inr (ErrWrongSize (length sig)))
      else
        b ← index_or_panic (sig !! 64);
        let v := if (chainID =? 0)%Z then ((Z_of_byte b + 27) mod 256)%Z
                 else ((Z_of_byte b + 35) mod 256 + chainID * 2)%Z in
        Ret (inl (msg <| Data := (Data msg) <| tx_V := v |> <| tx_R := be_value (take 32 sig) |>
                    <| tx_S := be_value (take 32 (drop 32 sig)) |> |>))
  end.

(** The sender, and the transaction with its cache filled in. *)
Definition VerifySig msg (chainID : Z) : res ((Address + msg_error) * MsgEthereumTx) :=
  let V := tx_V (Data msg) in
  let signer := if isProtectedV V then EIP155Signer chainID else HomesteadSigner in
  let recover (_ : unit) :=
    if isProtectedV V && (chainID =? 0)%Z then Ret (inr ErrChainIDZero, msg)
    else
      let '(V, sigHash) :=
        if isProtectedV V then ((V - chainID * 2 - 8)%Z, RLPSignBytes msg chainID)
        else (V, HomesteadSignHash msg) in
      sender ← recoverEthSig (tx_R (Data msg)) (tx_S (Data msg)) V sigHash;
      match sender with
      | inr e => Ret (inr e, msg)
      | inl a => Ret (inl a, msg <| from := Some (mkSigCache signer a) |>)
      end in
  match from msg with
  | Some c => if decide (sc_signer c = signer) then Ret (inl (sc_from c), msg) else recover tt
  | None => recover tt
  end.

Definition From msg : option Address := sc_from <$> from msg.

(** [NewMsgEthereumTx] never leaves the sender cached, so the signers are
    known only after [VerifySig]. *)
Definition GetSigners msg : res (list Address) :=
  match From msg with
  | None => Panic (PanicMsg "must use 'VerifySig' with a chain ID to get the signer")
  | Some a => Ret [a]
  end.

(** The receiver is a copy: the cache filled here is lost. *)
Definition FeePayer msg : res (option Address) :=
  '(r, msg') ← VerifySig msg (ChainID msg);
  match r with
  | inr _ => Ret None
  | inl _ => Ret (From msg')
  end.

Definition GetFee `{SdkConfig} msg : list (Denom * Dec) := [(DefaultBondDenom, Fee msg)].

Context `{!KeccakLaws, !EthCryptoLaws PrivateKey}.

(** ** Big integers and byte strings *)

Lemma BitLen_le z n : (0 < n)%Z -> (BitLen z <= n)%Z <-> (Z.abs z < 2 ^ n)%Z.
Proof.
  intros Hn. unfold BitLen. destruct (Z.eqb_spec z 0) as [->|Hz].
  - simpl. pose proof (Z.pow_pos_nonneg 2 n). lia.
  - rewrite (Z.log2_lt_pow2 (Z.abs z) n) by lia. lia.
Qed.

Lemma length_big_Bytes z : length (big_Bytes z) = Z.to_nat ((BitLen z + 7) / 8).
Proof. apply length_be_bytes. Qed.

Lemma length_big_Bytes_le z n : (Z.abs z < 256 ^ Z.of_nat n)%Z -> length (big_Bytes z) <= n.
Proof.
  intros Hz. rewrite length_big_Bytes. destruct n as [|n].
  - assert (z = 0)%Z as -> by (simpl in Hz; lia). done.
  - assert (BitLen z <= 8 * Z.of_nat (S n))%Z as Hb.
    { apply BitLen_le; [lia|]. by rewrite Z.pow_mul_r by lia. }
    apply Nat2Z.inj_le. rewrite Z2Nat.id.
    + apply Z.lt_succ_r, Z.div_lt_upper_bound; lia.
    + apply Z.div_pos; [|lia]. unfold BitLen. case_match; [lia|]. pose proof (Z.log2_nonneg (Z.abs z)). lia.
Qed.

Lemma be_value_replicate n l : be_value (replicate n x00 ++ l) = be_value l.
Proof.
  induction n as [|n IH]; [done|]. change (replicate (S n) x00 ++ l) with (x00 :: (replicate n x00 ++ l)).
  cbn [be_value]. rewrite IH. change (Z_of_byte x00) with 0%Z. lia.
Qed.

Lemma be_value_big_Bytes z : be_value (big_Bytes z) = Z.abs z.
Proof.
  unfold big_Bytes. rewrite be_value_be_bytes. apply Z.mod_small. split; [lia|].
  destruct (Z.eqb_spec z 0) as [->|Hz]; [done|].
  assert (0 < BitLen z)%Z as Hp.
  { unfold BitLen. destruct (Z.eqb_spec z 0); [done|]. pose proof (Z.log2_nonneg (Z.abs z)). lia. }
  pose proof (proj1 (BitLen_le z (BitLen z) Hp) (Z.le_refl _)) as Hlt.
  rewrite Z2Nat.id by (apply Z.div_pos; lia).
  change 256%Z with (2 ^ 8)%Z. rewrite <- Z.pow_mul_r; [|lia|apply Z.div_pos; lia].
  eapply Z.lt_le_trans; [exact Hlt|]. apply Z.pow_le_mono_r; [lia|].
  pose proof (Z.div_mod (BitLen z + 7) 8 ltac:(lia)).
  pose proof (Z.mod_pos_bound (BitLen z + 7) 8 ltac:(lia)). lia.
Qed.

(** Padding the minimal bytes on the left gives the fixed-width bytes. *)
Lemma pad_big_Bytes z n : (0 <= z < 256 ^ Z.of_nat n)%Z ->
  replicate (n - length (big_Bytes z)) x00 ++ big_Bytes z = be_bytes n z.
Proof.
  intros Hz. pose proof (length_big_Bytes_le z n ltac:(lia)).
  apply be_value_inj.
  - rewrite length_app, length_replicate, length_be_bytes. lia.
  - rewrite be_value_replicate, be_value_big_Bytes, be_value_be_bytes, Z.mod_small; lia.
Qed.

(** The 65 bytes handed to [Ecrecover]. *)
Lemma signature_layout R S v : (0 <= R < 2 ^ 256)%Z -> (0 <= S < 2 ^ 256)%Z ->
  let r := big_Bytes R in let s := big_Bytes S in
  <[64 := v]> (copy_at (copy_at (replicate 65 x00) (32 - length r) (take 32 r)) (64 - length s) (take 64 s))
  = be_bytes 32 R ++ be_bytes 32 S ++ [v].
Proof.
  intros HR HS r s.
  pose proof (length_big_Bytes_le R 32 ltac:(change (256 ^ Z.of_nat 32)%Z with (2 ^ 256)%Z; lia)) as Hr.
  pose proof (length_big_Bytes_le S 32 ltac:(change (256 ^ Z.of_nat 32)%Z with (2 ^ 256)%Z; lia)) as Hs.
  fold r in Hr. fold s in Hs.
  rewrite (take_ge r 32), (take_ge s 64) by lia.
  rewrite <- (pad_big_Bytes R 32), <- (pad_big_Bytes S 32) by (change (256 ^ Z.of_nat 32)%Z with (2 ^ 256)%Z; lia).
  fold r s. unfold copy_at.
  rewrite take_replicate, drop_replicate. rewrite (Nat.min_l (32 - length r)) by lia.
  replace (65 - (32 - length r + length r)) with (32 + 1) by lia.
  set (A := replicate (32 - length r) x00 ++ r). assert (length A = 32) as HA.
  { unfold A. rewrite length_app, length_replicate. lia. }
  rewrite (app_assoc _ r). fold A.
  rewrite take_app_ge by lia. rewrite drop_app_ge by lia. rewrite HA.
  rewrite take_replicate, drop_replicate, Nat.min_l by lia.
  replace (64 - length s - 32) with (32 - length s) by lia.
  replace (32 + 1 - (64 - length s + length s - 32)) with 1 by lia.
  rewrite <- !app_assoc.
  rewrite insert_app_r_alt by lia. rewrite HA.
  rewrite insert_app_r_alt by (rewrite length_replicate; lia). rewrite length_replicate.
  rewrite insert_app_r_alt by lia. replace (64 - 32 - (32 - length s) - length s) with 0 by lia.
  done.
Qed.

(** ** Recovery of the sender *)

Definition pub_address (pub : bytes) : Address := BytesToAddress (drop 12 (keccak256 (drop 1 pub))).

Lemma sig_split (sig : bytes) v : length sig = 65 -> sig !! 64 = Some v ->
  sig = be_bytes 32 (sig_R sig) ++ be_bytes 32 (sig_S sig) ++ [v].
Proof.
  intros Hl Hv. unfold sig_R, sig_S. rewrite !be_bytes_be_value; [..|rewrite length_take, ?length_drop; lia|rewrite length_take; lia].
  rewrite <- (take_drop 32 sig) at 1. f_equal.
  rewrite <- (take_drop 32 (drop 32 sig)) at 1. f_equal. rewrite drop_drop.
  change (32 + 32) with 64. rewrite (drop_S _ _ _ Hv). rewrite drop_ge by lia. done.
Qed.

Lemma recoverEthSig_Sign h k sig v : crypto_Sign (Hash_Bytes h) k = Some sig -> sig !! 64 = Some v ->
  recoverEthSig (sig_R sig) (sig_S sig) (27 + Z_of_byte v) h = Ret (inl (pub_address (public_key k))).
Proof.
  intros Hs Hv. pose proof (crypto_Sign_length _ _ _ Hs) as Hl.
  pose proof (crypto_Sign_valid _ _ _ _ Hs Hv) as Hvalid.
  destruct (ValidateSignatureValues_range _ _ _ _ Hvalid) as (HR & HS & Hv01).
  assert (Z_of_byte v < 2)%Z as Hlt by lia. pose proof (Z_of_byte_range v) as Hr.
  unfold recoverEthSig.
  rewrite (proj2 (Z.ltb_ge 8 _)) by (apply BitLen_le; lia).
  assert ((big_Uint64 (27 + Z_of_byte v) - 27) mod 256 = Z_of_byte v)%Z as ->.
  { unfold big_Uint64, u64_modulus. rewrite (Z.mod_small (Z.abs _)) by lia. rewrite Z.mod_small; lia. }
  rewrite Hvalid. cbn [negb]. cbv zeta.
  pose proof (length_big_Bytes_le (sig_R sig) 32 ltac:(change (256 ^ Z.of_nat 32)%Z with (2 ^ 256)%Z; lia)).
  pose proof (length_big_Bytes_le (sig_S sig) 32 ltac:(change (256 ^ Z.of_nat 32)%Z with (2 ^ 256)%Z; lia)).
  rewrite (proj2 (Nat.ltb_ge 32 _)), (proj2 (Nat.ltb_ge 64 _)) by lia. cbn [orb].
  rewrite signature_layout by lia.
  assert (byte_of_Z (Z_of_byte v) = v) as ->.
  { apply Z_of_byte_inj. rewrite Z_of_byte_of_Z. apply Z.mod_small. lia. }
  rewrite <- sig_split by done. rewrite (Ecrecover_Sign _ _ _ Hs).
  unfold pub_address. by destruct (public_key_tag k) as [x ->].
Qed.

(** The sign of [V] is lost in the conversion to a byte. *)
Lemma recoverEthSig_opp R S V h : recoverEthSig R S (- V) h = recoverEthSig R S V h.
Proof.
  unfold recoverEthSig. assert (BitLen (- V) = BitLen V) as ->.
  { unfold BitLen. rewrite Z.abs_opp. destruct (Z.eqb_spec V 0), (Z.eqb_spec (- V) 0); done || lia. }
  assert (big_Uint64 (- V) = big_Uint64 V) as -> by (unfold big_Uint64; by rewrite Z.abs_opp).
  done.
Qed.

Lemma isProtectedV_true V : (29 <= V)%Z \/ (0 <= V <= 26)%Z -> isProtectedV V = true.
Proof.
  intros HV. unfold isProtectedV. case_match eqn:E; [|done].
  apply Z.leb_le, BitLen_le in E; [|lia]. unfold big_Uint64.
  assert (u64_modulus = 2 ^ 64)%Z as -> by done.
  rewrite Z.mod_small by lia.
  apply andb_true_intro; split; apply negb_true_iff, Z.eqb_neq; lia.
Qed.

(** A sender that was verified is cached; the data is untouched. *)
Lemma VerifySig_inl msg chainID a msg' : VerifySig msg chainID = Ret (inl a, msg') ->
  From msg' = Some a /\ Data msg' = Data msg.
Proof.
  unfold VerifySig, From. intros Hv.
  destruct (from msg) as [c|] eqn:Hf; [case_decide; [injection Hv as <- <-; by rewrite Hf|]|];
    (case_match; [done|]; case_match; bind_inv Hv; case_match; try done; by injection Hv as <- <-).
Qed.

(** C9: a transaction signed with a key for a chain is accepted by
    [VerifySig] for that chain, and the sender it returns and caches is
    the address of the key. *)
Theorem Sign_VerifySig msg chainID k msg' : (0 < chainID)%Z -> from msg = None ->
  Sign msg chainID k = Ret (inl msg') ->
  exists msg'', VerifySig msg' chainID = Ret (inl (pub_address (public_key k)), msg'') /\
    Data msg'' = Data msg' /\ From msg'' = Some (pub_address (public_key k)).
Proof.
  intros Hc Hfrom. unfold Sign.
  destruct (crypto_Sign _ k) as [sig|] eqn:Hs; [|done].
  pose proof (crypto_Sign_length _ _ _ Hs) as Hl. rewrite Hl. cbn [Nat.eqb negb].
  destruct (sig !! 64) as [v|] eqn:Hv; [|by apply lookup_ge_None in Hv; lia].
  cbn [index_or_panic mbind res_bind]. rewrite (proj2 (Z.eqb_neq chainID 0)) by lia.
  intros [= <-].
  destruct (ValidateSignatureValues_range _ _ _ _ (crypto_Sign_valid _ _ _ _ Hs Hv)) as (_ & _ & Hv01).
  rewrite Z.mod_small by lia.
  match goal with |- context [VerifySig ?m _] => exists (m <| from := Some (mkSigCache (EIP155Signer chainID)
    (pub_address (public_key k))) |>) end.
  split; [|done].
  unfold VerifySig. cbn [Data tx_V set from]. rewrite Hfrom.
  rewrite isProtectedV_true by lia. rewrite (proj2 (Z.eqb_neq chainID 0)) by lia. cbn [andb].
  replace (Z_of_byte v + 35 + chainID * 2 - chainID * 2 - 8)%Z with (27 + Z_of_byte v)%Z by lia.
  unfold tx_R, tx_S. cbn.
  change (be_value (take 32 sig)) with (sig_R sig).
  change (be_value (take 32 (drop 32 sig))) with (sig_S sig).
  unfold RLPSignBytes in *. cbn [Data AccountNonce Price GasLimit Recipient Amount Payload] in *.
  by rewrite (recoverEthSig_Sign _ _ _ _ Hs Hv).
Qed.

(** A signature has a second [V].  Because the sign of
    [V - 2*chainID - 8] is dropped, [2*chainID - 19 - v] is accepted with
    the same sender as the [2*chainID + 35 + v] that [Sign] produces,
    although the chain ID derived from it is another one. *)
Theorem VerifySig_malleable msg chainID v : (29 <= chainID)%Z -> (v = 0 \/ v = 1)%Z -> from msg = None ->
  let signed := msg <| Data := (Data msg) <| tx_V := (2 * chainID + 35 + v)%Z |> |> in
  let forged := msg <| Data := (Data msg) <| tx_V := (2 * chainID - 19 - v)%Z |> |> in
  (fst <$> VerifySig forged chainID) = (fst <$> VerifySig signed chainID) /\
  ((chainID < 2 ^ 60)%Z -> ChainID signed = chainID /\ (ChainID forged < chainID)%Z).
Proof.
  intros Hc Hv Hfrom signed forged. split.
  - unfold VerifySig, signed, forged. cbn [Data tx_V set from]. rewrite Hfrom.
    rewrite !isProtectedV_true by lia. rewrite (proj2 (Z.eqb_neq chainID 0)) by lia. cbn [andb].
    replace (2 * chainID + 35 + v - chainID * 2 - 8)%Z with (27 + v)%Z by lia.
    replace (2 * chainID - 19 - v - chainID * 2 - 8)%Z with (- (27 + v))%Z by lia.
    rewrite recoverEthSig_opp. unfold RLPSignBytes, tx_R, tx_S. cbn.
    destruct (recoverEthSig _ _ _ _) as [[a|e]|p]; done.
  - intros Hsmall.
    assert (forall x, (29 <= x < 2 ^ 62)%Z -> deriveChainID x = (u64 (x - 35) / 2)%Z) as Hd.
    { intros x Hx. unfold deriveChainID. rewrite (proj2 (Z.leb_le _ _)) by (apply BitLen_le; lia).
      unfold big_Uint64, u64_modulus. rewrite Z.mod_small by lia.
      rewrite (Z.abs_eq x) by lia.
      by rewrite (proj2 (Z.eqb_neq x 27)), (proj2 (Z.eqb_neq x 28)) by lia. }
    unfold ChainID, signed, forged. cbn [Data tx_V set]. rewrite !Hd by lia.
    rewrite !u64_id by (unfold u64_modulus; lia).
    split; [|apply Z.div_lt_upper_bound; lia].
    replace (2 * chainID + 35 + v - 35)%Z with (v + chainID * 2)%Z by lia.
    rewrite Z.div_add by lia. rewrite (Z.div_small v 2) by lia. lia.
Qed.

End EthMsg.
End EthMsg.
