(* ===== verification/ChainID.v ===== *)
(** Chain identifiers (app/types/chain_id.go): [name-epoch].

    The regular expression for a lower-case name, a dash and a number
    without leading zeros is written as a scanner, and proved to accept
    exactly the printed identifiers. *)
From S2P Require Import Prelude.

(** ** strings.TrimSpace, on UTF-8 bytes *)
Definition white_space : list bytes :=
  map (map byte_of_Z)
    [[9]; [10]; [11]; [12]; [13]; [32]; [0xC2; 0x85]; [0xC2; 0xA0]; [0xE1; 0x9A; 0x80];
     [0xE2; 0x80; 0x80]; [0xE2; 0x80; 0x81]; [0xE2; 0x80; 0x82]; [0xE2; 0x80; 0x83];
     [0xE2; 0x80; 0x84]; [0xE2; 0x80; 0x85]; [0xE2; 0x80; 0x86]; [0xE2; 0x80; 0x87];
     [0xE2; 0x80; 0x88]; [0xE2; 0x80; 0x89]; [0xE2; 0x80; 0x8A]; [0xE2; 0x80; 0xA8];
     [0xE2; 0x80; 0xA9]; [0xE2; 0x80; 0xAF]; [0xE2; 0x81; 0x9F]; [0xE3; 0x80; 0x80]]%Z.

Fixpoint trim_left (fuel : nat) (ws : list bytes) (s : bytes) : bytes :=
  match fuel with
  | O => s
  | S n =>
      match List.find (fun w => bool_decide (w `prefix_of` s)) ws with
      | Some w => trim_left n ws (drop (length w) s)
      | None => s
      end
  end.
Definition TrimSpace (s : bytes) : bytes :=
  let s := trim_left (length s) white_space s in
  rev (trim_left (length s) (map (@rev byte) white_space) (rev s)).

(** ** Character classes *)
Definition is_lower (b : byte) : bool := (97 <=? Z_of_byte b)%Z && (Z_of_byte b <=? 122)%Z.
Definition is_digit (b : byte) : bool := (48 <=? Z_of_byte b)%Z && (Z_of_byte b <=? 57)%Z.
Definition dash : byte := Byte.x2d.
Definition digit (b : byte) : Z := (Z_of_byte b - 48)%Z.

(** [big.Int.SetString(s, 10)] on digits, and its inverse. *)
Definition decimal_value (ds : bytes) : Z := fold_left (fun acc b => (acc * 10 + digit b)%Z) ds 0%Z.
Fixpoint print_decimal (fuel : nat) (n : Z) : bytes :=
  match fuel with
  | O => []
  | S f => (if (n <? 10)%Z then [] else print_decimal f (n / 10)) ++ [byte_of_Z (48 + n mod 10)]
  end.
Definition decimal (n : Z) : bytes := print_decimal (S (Z.to_nat n)) n.

(** [regexEpoch]: a digit other than 0, then digits. *)
Definition is_epoch (s : bytes) : bool :=
  match s with
  | [] => false
  | d :: ds => is_digit d && negb (Z_of_byte d =? 48)%Z && forallb is_digit ds
  end.

Module ChainID.

(** [FindStringSubmatch]: the name and the epoch. *)
Fixpoint match_ChainID (s : bytes) : option (bytes * bytes) :=
  match s with
  | [] => None
  | b :: s' =>
      if is_lower b then
        '(name, epoch) ← match_ChainID s'; Some (b :: name, epoch)
      else if decide (b = dash) then
        if is_epoch s' then Some ([], s') else None
      else None
  end.

Definition IsValidChainID (chainID : bytes) : bool :=
  if 48 <? length chainID then false
  else match match_ChainID chainID with Some _ => true | None => false end.

(** [None] is [ErrInvalidChainID]. *)
Definition ParseChainID (chainID : bytes) : option Z :=
  let chainID := TrimSpace chainID in
  if 48 <? length chainID then None
  else
    match match_ChainID chainID with
    | None => None
    | Some (name, epoch) => if decide (name = []) then None else Some (decimal_value epoch)
    end.

Lemma match_ChainID_iff s name epoch :
  match_ChainID s = Some (name, epoch) <->
  s = name ++ dash :: epoch /\ forallb is_lower name = true /\ is_epoch epoch = true.
Proof.
  revert name epoch; induction s as [|b s IH]; intros name epoch; cbn [match_ChainID].
  - split; [done|]. intros (Hs & _ & _). by destruct name.
  - destruct (is_lower b) eqn:Hb.
    + split.
      * intros ([n e] & Hm & [= <- <-])%bind_Some. apply IH in Hm as (-> & Hn & He).
        simpl. by rewrite Hb.
      * intros (Hs & Hn & He). destruct name as [|b' name]; [injection Hs as -> ->; done|].
        injection Hs as <- ->. simpl in Hn. apply andb_prop in Hn as [_ Hn].
        apply bind_Some. exists (name, epoch). split; [|done]. by apply IH.
    + destruct (decide (b = dash)) as [->|Hd].
      * destruct (is_epoch s) eqn:He; (split; [try done|]).
        -- intros [= <- <-]. done.
        -- intros (Hs & Hn & He'). destruct name as [|b' name]; [by injection Hs as ->|].
           injection Hs as <- ->. simpl in Hn. done.
        -- intros (Hs & Hn & He'). destruct name as [|b' name]; [injection Hs as ->; congruence|].
           injection Hs as <- ->. simpl in Hn. done.
      * split; [done|]. intros (Hs & Hn & He). destruct name as [|b' name]; injection Hs; intros; subst.
        { done. } simpl in Hn. by rewrite Hb in Hn.
Qed.

(** *** Decimal numbers *)

Lemma decimal_value_snoc ds b : decimal_value (ds ++ [b]) = (decimal_value ds * 10 + digit b)%Z.
Proof. unfold decimal_value. by rewrite fold_left_app. Qed.

Lemma is_digit_range b : is_digit b = true -> (0 <= digit b < 10)%Z.
Proof. unfold is_digit, digit. rewrite andb_true_iff, !Z.leb_le. lia. Qed.

Lemma digit_byte n : (0 <= n < 10)%Z -> digit (byte_of_Z (48 + n)) = n /\ is_digit (byte_of_Z (48 + n)) = true.
Proof.
  intros Hn. unfold digit, is_digit. rewrite Z_of_byte_of_Z, Z.mod_small by lia.
  split; [lia|]. apply andb_true_intro; split; apply Z.leb_le; lia.
Qed.

Lemma print_decimal_digits f n : forallb is_digit (print_decimal f n) = true.
Proof.
  revert n; induction f as [|f IH]; intros n; [done|]. cbn [print_decimal].
  rewrite forallb_app. apply andb_true_intro. split; [by destruct (n <? 10)%Z|].
  simpl. rewrite andb_true_r. apply digit_byte, Z.mod_pos_bound. lia.
Qed.

Lemma print_decimal_value f n : (0 <= n)%Z -> (n < Z.of_nat f)%Z -> decimal_value (print_decimal f n) = n.
Proof.
  revert n; induction f as [|f IH]; intros n Hn Hf; [lia|]. cbn [print_decimal].
  rewrite decimal_value_snoc. pose proof (Z.mod_pos_bound n 10 ltac:(lia)) as Hm.
  rewrite (proj1 (digit_byte _ Hm)). pose proof (Z.div_mod n 10 ltac:(lia)) as Hd.
  destruct (Z.ltb_spec n 10) as [Hlt|Hge].
  - unfold decimal_value. simpl. rewrite Z.mod_small; lia.
  - rewrite IH; [lia|apply Z.div_pos; lia|]. apply Z.div_lt_upper_bound; lia.
Qed.

Lemma print_decimal_epoch f n : (0 < n)%Z -> (n < Z.of_nat f)%Z -> is_epoch (print_decimal f n) = true.
Proof.
  revert n; induction f as [|f IH]; intros n Hn Hf; [lia|]. cbn [print_decimal].
  pose proof (Z.mod_pos_bound n 10 ltac:(lia)) as Hm. destruct (digit_byte _ Hm) as [Hv Hd].
  destruct (Z.ltb_spec n 10) as [Hlt|Hge].
  - simpl. rewrite Hd. rewrite Z.mod_small in Hv |- * by lia. unfold digit in Hv.
    rewrite (proj2 (Z.eqb_neq _ _)) by lia. done.
  - assert (is_epoch (print_decimal f (n / 10)) = true) as He.
    { apply IH; [apply Z.div_str_pos; lia|]. apply Z.div_lt_upper_bound; lia. }
    destruct (print_decimal f (n / 10)) as [|d ds]; [done|]. simpl in He |- *.
    rewrite forallb_app. simpl. rewrite Hd, !andb_true_r. done.
Qed.

Lemma is_epoch_snoc ds b : ds ≠ [] -> is_epoch (ds ++ [b]) = is_epoch ds && is_digit b.
Proof.
  destruct ds as [|d ds]; [done|]. intros _. cbn [is_epoch app]. rewrite forallb_app. cbn [forallb].
  by rewrite andb_true_r, !andb_assoc.
Qed.

Lemma is_epoch_one b : is_epoch [b] = true -> is_digit b = true /\ (0 < digit b)%Z.
Proof.
  cbn [is_epoch forallb]. rewrite andb_true_r, andb_true_iff, negb_true_iff, Z.eqb_neq. intros [Hd Hne].
  pose proof (is_digit_range b Hd). unfold digit in *. split; [done|lia].
Qed.

Lemma decimal_value_pos ds : is_epoch ds = true -> (0 < decimal_value ds)%Z.
Proof.
  induction ds as [|b ds IH] using rev_ind; [done|]. intros He. rewrite decimal_value_snoc.
  destruct (decide (ds = [])) as [->|Hne].
  - apply is_epoch_one in He as [_ He]. unfold decimal_value. simpl. lia.
  - rewrite is_epoch_snoc in He by done. apply andb_prop in He as [He Hb].
    pose proof (is_digit_range _ Hb). specialize (IH He). lia.
Qed.

(** Digits without a leading zero are the printed form of their value. *)
Lemma print_decimal_canonical ds f : is_epoch ds = true -> (decimal_value ds < Z.of_nat f)%Z ->
  print_decimal f (decimal_value ds) = ds.
Proof.
  revert f. induction ds as [|b ds IH] using rev_ind; [done|]. intros f He Hf.
  pose proof (decimal_value_pos _ He) as Hpos.
  rewrite decimal_value_snoc in *. assert (is_digit b = true) as Hb.
  { destruct (decide (ds = [])) as [->|Hne]; [by destruct (is_epoch_one b He)|].
    rewrite is_epoch_snoc in He by done. by apply andb_prop in He as [_ He]. }
  pose proof (is_digit_range b Hb) as Hr.
  assert (byte_of_Z (48 + digit b) = b) as Hbyte.
  { apply Z_of_byte_inj. unfold digit in *. pose proof (Z_of_byte_range b).
    rewrite Z_of_byte_of_Z, Z.mod_small; lia. }
  destruct f as [|f]; [lia|]. cbn [print_decimal].
  rewrite Z.add_comm, Z.mod_add, Z.mod_small, Hbyte by lia. f_equal.
  destruct (decide (ds = [])) as [->|Hne].
  - unfold decimal_value. simpl. by rewrite (proj2 (Z.ltb_lt _ _)) by lia.
  - rewrite is_epoch_snoc in He by done. apply andb_prop in He as [He _].
    pose proof (decimal_value_pos _ He). rewrite (proj2 (Z.ltb_ge _ _)) by lia.
    rewrite Z.div_add, Z.div_small by lia. apply IH; [done|]. simpl Z.add. lia.
Qed.

(** C10: [ParseChainID] accepts exactly the printed identifiers
    [name-epoch] of at most 48 bytes (white space around them aside) and
    returns the epoch that was printed. *)
Theorem ParseChainID_iff s n :
  ParseChainID s = Some n <->
  exists name, name ≠ [] /\ forallb is_lower name = true /\ (0 < n)%Z /\
    TrimSpace s = name ++ dash :: decimal n /\ length (TrimSpace s) <= 48.
Proof.
  unfold ParseChainID. split.
  - destruct (Nat.ltb_spec 48 (length (TrimSpace s))) as [|Hl]; [done|].
    destruct (match_ChainID _) as [[name epoch]|] eqn:Hm; [|done].
    apply match_ChainID_iff in Hm as (Hs & Hn & He). case_decide; [done|]. intros [= <-].
    exists name. pose proof (decimal_value_pos _ He). split_and!; try done.
    unfold decimal. rewrite print_decimal_canonical; [done..|lia].
  - intros (name & Hne & Hn & Hpos & Hs & Hl). rewrite (proj2 (Nat.ltb_ge _ _)) by done.
    assert (is_epoch (decimal n) = true) as He by (apply print_decimal_epoch; lia).
    rewrite (proj2 (match_ChainID_iff (TrimSpace s) name (decimal n))) by done.
    rewrite decide_False by done. f_equal. apply print_decimal_value; lia.
Qed.

End ChainID.
