(* ===== verification/Ante.v ===== *)
(** The ante handler (app/ante): what a transaction must satisfy before it
    runs, the fee it pays up front and the sequence it uses up.

    A decorator gets the next handler and the world: accounts and
    parameters, which it changes in place.  The Cosmos SDK's own
    decorators, the account keeper and the fee deduction are parameters. *)
From S2P Require Import Prelude.
From S2P Require Import Interfaces.
From S2P Require Import EthMsg.
From S2P Require Import ChainID.
From S2P Require Import StateDB.

Inductive ante_error :=
  | ErrNotGasTx | ErrOutOfGasIn (descriptor : string) (gasLimit : Z)
  | ErrInvalidTxType | ErrInsufficientFee (got required : Dec) | ErrParseChainID
  | ErrSignature (e : msg_error) | ErrAccountNumber (got : Z)
  | ErrInsufficientFunds (balance cost : Dec) | ErrUnknownAddress (a : Address)
  | ErrInvalidNonce (got expected : Z) | ErrNonceRange (got low high : Z)
  | ErrIntrinsicGas | ErrIntrinsicGasTooLow (gasLimit gas : Z) | ErrDeductFees
  | ErrTooLargeGasLimit (max : Z) | ErrNoMessages | ErrInvalidPubKey
  | ErrBasic (e : msg_error) | ErrOther (code : N).

Inductive sdk_msg := MEthermint (msg : MsgEthermint) | MEthereum (msg : MsgEthereumTx) | MOther (id : N).

(** [sdk.Tx]: the transaction types the ante handler tells apart.  Another
    type implements [authante.GasTx] when it has a gas limit. *)
Inductive Tx (Std : Type) :=
  | StdTx (tx : Std)
  | EthTx (msg : MsgEthereumTx)
  | OtherTx (gas : option Z) (msgs : list sdk_msg).
Arguments StdTx {Std} tx.
Arguments EthTx {Std} msg.
Arguments OtherTx {Std} gas msgs.

(** The fields of [sdk.Context] the decorators read.  The minimum gas
    prices are seen through [AmountOf] and [IsZero]. *)
Record Ctx {G : Type} := mkCtx {
  IsCheckTx : bool; IsReCheckTx : bool; BlockHeight : Z; ctx_ChainID : bytes;
  MinGasPrices : gmap Denom Dec; GasMeter : G;
}.
Arguments Ctx G : clear implicits.
#[export] Instance Ctx_eta G : Eta (Ctx G) := fun r =>
  mkCtx G (IsCheckTx r) (IsReCheckTx r) (BlockHeight r) (ctx_ChainID r) (MinGasPrices r) (GasMeter r).

(** ** Third-party code *)

(** [sdk.GasMeter] *)
Class GasMeters (G : Type) := {
  gm_Limit : G -> Z;
  gm_GasConsumed : G -> Z;
  gm_ConsumeGas : G -> Z -> string -> res G;
  NewInfiniteGasMeter : G;
  NewGasMeter : Z -> G;
}.

(** Accounts and the account and supply keepers of x/auth. *)
Class AuthKeeper (W Acc : Type) := {
  ak_GetAccount : W -> Address -> option Acc;
  ak_SetAccount : W -> Acc -> W;
  ak_NewAccount : W -> Address -> Acc * W;
  GetAddress : Acc -> Address;
  GetSequence : Acc -> Z;
  SetSequence : Acc -> Z -> option Acc;   (* [None] is an error *)
  GetAccountNumber : Acc -> Z;
  GetCoins : Acc -> Denom -> Dec;
  (** [auth.DeductFees] and [refund.RefundFees] with one coin; [None] is an error *)
  DeductFees : W -> Acc -> Denom -> Dec -> option W;
  RefundFees : W -> Address -> list (Denom * Dec) -> option W;
  FeeCollector : Address;
}.

Class AuthKeeperLaws (W Acc : Type) `{AuthKeeper W Acc} := {
  ak_Get_address w a acc : ak_GetAccount w a = Some acc -> GetAddress acc = a;
  ak_Get_Set w acc a :
    ak_GetAccount (ak_SetAccount w acc) a = if decide (GetAddress acc = a) then Some acc else ak_GetAccount w a;
  SetSequence_spec acc n : exists acc', SetSequence acc n = Some acc' /\ GetSequence acc' = n /\
    GetAddress acc' = GetAddress acc /\ (forall d, GetCoins acc' d = GetCoins acc d);
  (** The fee moves from the account to the fee collector, whose account
      exists afterwards; nothing else changes. *)
  DeductFees_ok w a acc d x : ak_GetAccount w a = Some acc -> a ≠ FeeCollector ->
    (0 <= x <= GetCoins acc d)%Z ->
    exists w' acc' fc, DeductFees w acc d x = Some w' /\
      ak_GetAccount w' a = Some acc' /\ GetSequence acc' = GetSequence acc /\
      (forall d', GetCoins acc' d' = (GetCoins acc d' - if decide (d = d') then x else 0)%Z) /\
      ak_GetAccount w' FeeCollector = Some fc /\
      (forall d', GetCoins fc d' = (from_option (fun c => GetCoins c d') 0 (ak_GetAccount w FeeCollector)
         + if decide (d = d') then x else 0)%Z) /\
      (forall b, b ≠ a -> b ≠ FeeCollector -> ak_GetAccount w' b = ak_GetAccount w b);
  DeductFees_poor w a acc d x : ak_GetAccount w a = Some acc -> (GetCoins acc d < x)%Z ->
    DeductFees w acc d x = None;
  (** The refund moves back what the collector can pay. *)
  RefundFees_ok w a acc fc d x : ak_GetAccount w a = Some acc -> ak_GetAccount w FeeCollector = Some fc ->
    a ≠ FeeCollector -> (0 <= x <= GetCoins fc d)%Z ->
    exists w' acc' fc', RefundFees w a [(d, x)] = Some w' /\
      ak_GetAccount w' a = Some acc' /\ GetSequence acc' = GetSequence acc /\
      (forall d', GetCoins acc' d' = (GetCoins acc d' + if decide (d = d') then x else 0)%Z) /\
      ak_GetAccount w' FeeCollector = Some fc' /\
      (forall d', GetCoins fc' d' = (GetCoins fc d' - if decide (d = d') then x else 0)%Z) /\
      (forall b, b ≠ a -> b ≠ FeeCollector -> ak_GetAccount w' b = ak_GetAccount w b);
}.

(** [evmKeeper.GetParams], and go-ethereum's [core.IntrinsicGas]: data,
    contract creation, homestead, EIP-2028. *)
Class EVMKeeper (W : Type) := GetParams : W -> Params.
Class GasTable := IntrinsicGas : bytes -> bool -> bool -> bool -> option Z.

(** The node's mempool settings ([baseapp]). *)
Class Mempool := {
  IsMempoolEnableRecheck : bool;
  IsMempoolEnableSort : bool;
  GetUserPendingTxsCnt : Address -> Z;
}.

(** Public keys, as the signature gas consumer tells them apart: nil is [None]. *)
Inductive PubKey := EthSecp256k1 (k : bytes) | Secp256k1 (k : bytes) | Ed25519 (k : bytes)
  | MultisigThreshold (k : nat) (keys : list bytes).

(** ** Handlers *)

(** The context a handler returns ([None] is the zero context of a named
    result that was never assigned) and its error, or a panic; and the world. *)
Abbreviation handler_type G Std W :=
  (Ctx G -> Tx Std -> bool -> W -> res (option (Ctx G) * option ante_error) * W).
Abbreviation decorator_type G Std W :=
  (handler_type G Std W -> handler_type G Std W).

(** x/auth/ante *)
Class AuthAnte (G Std W : Type) := {
  ChainAnteDecorators : list (decorator_type G Std W) -> handler_type G Std W;
  ValidateBasicDecorator : decorator_type G Std W;
  SetUpContextDecorator : decorator_type G Std W;
  MempoolFeeDecorator : decorator_type G Std W;
  ValidateMemoDecorator : decorator_type G Std W;
  ConsumeGasForTxSizeDecorator : decorator_type G Std W;
  SetPubKeyDecorator : decorator_type G Std W;
  ValidateSigCountDecorator : decorator_type G Std W;
  DeductFeeDecorator : decorator_type G Std W;
  SigGasConsumeDecorator : (G -> option PubKey -> res (option ante_error * G)) -> decorator_type G Std W;
  SigVerificationDecorator : decorator_type G Std W;
  IncrementSequenceDecorator : decorator_type G Std W;
  (** [auth.SetGasMeter] *)
  SetGasMeter : bool -> Ctx G -> Z -> Ctx G;
  std_GetGas : Std -> Z;
  std_GetMsgs : Std -> list sdk_msg;
}.

Class AuthAnteLaws (G Std W : Type) `{GasMeters G, AuthAnte G Std W} := {
  (** The terminator returns the context it gets. *)
  Chain_nil ctx tx sim w : ChainAnteDecorators [] ctx tx sim w = (Ret (Some ctx, None), w);
  Chain_cons d ds ctx tx sim w :
    ChainAnteDecorators (d :: ds) ctx tx sim w = d (ChainAnteDecorators ds) ctx tx sim w;
  (** [ValidateBasicDecorator] asks the transaction, except on recheck. *)
  ValidateBasicDecorator_eth next ctx msg sim w :
    ValidateBasicDecorator next ctx (EthTx msg) sim w =
      if IsReCheckTx ctx then next ctx (EthTx msg) sim w
      else match EthMsg.ValidateBasic msg with
           | Some e => (Ret (Some ctx, Some (ErrBasic e)), w)
           | None => next ctx (EthTx msg) sim w
           end;
  (** Only simulations and the genesis block run without a limit. *)
  SetGasMeter_limit ctx gasLimit : BlockHeight ctx ≠ 0%Z ->
    SetGasMeter false ctx gasLimit = ctx <| GasMeter := NewGasMeter gasLimit |>;
  SetGasMeter_infinite sim ctx gasLimit : sim = true \/ BlockHeight ctx = 0%Z ->
    SetGasMeter sim ctx gasLimit = ctx <| GasMeter := NewInfiniteGasMeter |>;
}.

Module Ante.
Section Ante.
Context {G Std W Acc PrivateKey : Type}.
Context `{GasMeters G, AuthKeeper W Acc, EVMKeeper W, GasTable, Mempool, SdkConfig}.
Context `{Keccak, Rlp, EthCrypto PrivateKey, AuthAnte G Std W}.
Abbreviation handler := (handler_type G Std W).
Abbreviation result := (res (option (Ctx G) * option ante_error)).
Implicit Types (ctx : Ctx G) (tx : Tx Std) (w : W) (next : handler).

Definition reject ctx (e : ante_error) w : result * W := (Ret (Some ctx, Some e), w).

(** [int64(x)] of a uint64 *)
Definition int64 (x : Z) : Z := (if x <? 2 ^ 63 then x else x - 2 ^ 64)%Z.

Definition tx_GetMsgs tx : list sdk_msg :=
  match tx with
  | StdTx t => std_GetMsgs t
  | EthTx msg => [MEthereum msg]
  | OtherTx _ msgs => msgs
  end.
Definition gasTx tx : option Z :=
  match tx with
  | StdTx t => Some (std_GetGas t)
  | EthTx msg => Some (EthMsg.GetGas msg)
  | OtherTx gas _ => gas
  end.

(** *** Decorators of Ethereum transactions (eth.go) *)

(** Only an out-of-gas panic is recovered; the context returned then is
    the zero value. *)
Definition EthSetupContextDecorator next : handler := fun ctx tx simulate w =>
  match gasTx tx with
  | None => reject ctx ErrNotGasTx w
  | Some gas =>
      match next ctx tx simulate w with
      | (Panic (PanicOutOfGas descriptor), w') => (Ret (None, Some (ErrOutOfGasIn descriptor gas)), w')
      | r => r
      end
  end.

(** [DecCoins.IsZero]: every amount is zero. *)
Definition DecCoins_IsZero (m : gmap Denom Dec) : bool :=
  forallb (fun '(_, x) => (x =? 0)%Z) (map_to_list m).

Definition EthMempoolFeeDecorator next : handler := fun ctx tx simulate w =>
  if negb (IsCheckTx ctx) then next ctx tx simulate w
  else match tx with
  | EthTx msgEthTx =>
      let fee := EthMsg.Fee msgEthTx in
      if (fee <? 0)%Z then (Panic (PanicMsg "negative decimal coin amount"), w) else
      let minFees := (default 0%Z (MinGasPrices ctx !! DefaultBondDenom) * int64 (GasLimit (Data msgEthTx)))%Z in
      let hasEnoughFees := (minFees <=? fee)%Z in
      if negb (DecCoins_IsZero (MinGasPrices ctx)) && negb hasEnoughFees
      then reject ctx (ErrInsufficientFee fee minFees) w
      else next ctx tx simulate w
  | _ => reject ctx ErrInvalidTxType w
  end.

(** The next handler gets the transaction with its sender cached. *)
Definition EthSigVerificationDecorator next : handler := fun ctx tx simulate w =>
  match tx with
  | EthTx msgEthTx =>
      match ChainID.ParseChainID (ctx_ChainID ctx) with
      | None => reject ctx ErrParseChainID w
      | Some chainIDEpoch =>
          match EthMsg.VerifySig msgEthTx chainIDEpoch with
          | Panic p => (Panic p, w)
          | Ret (inr e, _) => reject ctx (ErrSignature e) w
          | Ret (inl _, msgEthTx) => next ctx (EthTx msgEthTx) simulate w
          end
      end
  | _ => reject ctx ErrInvalidTxType w
  end.

Definition AccountVerificationDecorator next : handler := fun ctx tx simulate w =>
  if negb (IsCheckTx ctx) then next ctx tx simulate w
  else match tx with
  | EthTx msgEthTx =>
      match EthMsg.From msgEthTx with
      | None => (Panic (PanicMsg "sender address cannot be empty"), w)
      | Some address =>
          let '(acc, w) :=
            match ak_GetAccount w address with
            | Some acc => (acc, w)
            | None => let '(acc, w) := ak_NewAccount w address in (acc, ak_SetAccount w acc)
            end in
          if (BlockHeight ctx =? 0)%Z && negb (GetAccountNumber acc =? 0)%Z
          then reject ctx (ErrAccountNumber (GetAccountNumber acc)) w
          else
            let balance := GetCoins acc DefaultBondDenom in
            if (balance <? EthMsg.Cost msgEthTx)%Z
            then reject ctx (ErrInsufficientFunds balance (EthMsg.Cost msgEthTx)) w
            else next ctx tx simulate w
      end
  | _ => reject ctx ErrInvalidTxType w
  end.

Definition NonceVerificationDecorator next : handler := fun ctx tx simulate w =>
  match tx with
  | EthTx msgEthTx =>
      match EthMsg.From msgEthTx with
      | None => (Panic (PanicMsg "sender address cannot be empty"), w)
      | Some address =>
          match ak_GetAccount w address with
          | None => reject ctx (ErrUnknownAddress address) w
          | Some acc =>
              let seq := GetSequence acc in
              let nonce := AccountNonce (Data msgEthTx) in
              if IsCheckTx ctx then
                if IsReCheckTx ctx then
                  if negb (nonce =? seq)%Z then reject ctx (ErrInvalidNonce nonce seq) w
                  else next ctx tx simulate w
                else
                  let checkTxModeNonce :=
                    if negb IsMempoolEnableRecheck
                    then u64 (seq + u64 (GetUserPendingTxsCnt address)) else seq in
                  if IsMempoolEnableSort then
                    if (nonce <? seq)%Z || (checkTxModeNonce <? nonce)%Z
                    then reject ctx (ErrNonceRange nonce seq checkTxModeNonce) w
                    else next ctx tx simulate w
                  else
                    if negb (nonce =? checkTxModeNonce)%Z
                    then reject ctx (ErrInvalidNonce nonce checkTxModeNonce) w
                    else next ctx tx simulate w
              else
                if negb (nonce =? seq)%Z then reject ctx (ErrInvalidNonce nonce seq) w
                else next ctx tx simulate w
          end
      end
  | _ => reject ctx ErrInvalidTxType w
  end.

Definition EthGasConsumeDecorator next : handler := fun ctx tx simulate w =>
  match tx with
  | EthTx msgEthTx =>
      match EthMsg.From msgEthTx with
      | None => (Panic (PanicMsg "sender address cannot be empty"), w)
      | Some address =>
          match ak_GetAccount w address with
          | None => reject ctx (ErrUnknownAddress address) w
          | Some senderAcc =>
              let gasLimit := EthMsg.GetGas msgEthTx in
              match IntrinsicGas (Payload (Data msgEthTx)) (bool_decide (EthMsg.To msgEthTx = None)) true false with
              | None => reject ctx ErrIntrinsicGas w
              | Some gas =>
                  if IsCheckTx ctx && (gasLimit <? gas)%Z
                  then reject ctx (ErrIntrinsicGasTooLow gasLimit gas) w
                  else
                    let charged :=
                      if negb (gasLimit =? 0)%Z then
                        DeductFees w senderAcc DefaultBondDenom (Price (Data msgEthTx) * gasLimit)%Z
                      else Some w in
                    match charged with
                    | None => reject ctx ErrDeductFees w
                    | Some w => next (SetGasMeter simulate ctx gasLimit) tx simulate w
                    end
              end
          end
      end
  | _ => reject ctx ErrInvalidTxType w
  end.

(** The loop over the signers; a nil account is dereferenced, and an error
    of [SetSequence] is a panic. *)
Fixpoint increment_sequences (signers : list Address) w : res W :=
  match signers with
  | [] => Ret w
  | addr :: rest =>
      acc ← deref (ak_GetAccount w addr);
      match SetSequence acc (u64 (GetSequence acc + 1)) with
      | None => Panic (PanicMsg "SetSequence")
      | Some acc => increment_sequences rest (ak_SetAccount w acc)
      end
  end.

Definition IncrementSenderSequenceDecorator next : handler := fun ctx tx simulate w =>
  if IsCheckTx ctx && negb (IsReCheckTx ctx) && negb IsMempoolEnableRecheck then next ctx tx simulate w
  else
    let gasMeter := GasMeter ctx in
    let ctx := ctx <| GasMeter := NewInfiniteGasMeter |> in
    match tx with
    | EthTx msgEthTx =>
        match (signers ← EthMsg.GetSigners msgEthTx; increment_sequences signers w) with
        | Panic p => (Panic p, w)
        | Ret w => next (ctx <| GasMeter := gasMeter |>) tx simulate w
        end
    | _ => reject (ctx <| GasMeter := gasMeter |>) ErrInvalidTxType w
    end.

Definition GasLimitDecorator next : handler := fun ctx tx simulate w =>
  match tx with
  | EthTx msgEthTx =>
      if (MaxGasLimitPerTx (GetParams w) <? EthMsg.GetGas msgEthTx)%Z
      then reject ctx (ErrTooLargeGasLimit (MaxGasLimitPerTx (GetParams w))) w
      else next ctx tx simulate w
  | _ => reject ctx ErrInvalidTxType w
  end.

(** *** The other transactions (ante.go, validateMsg.go) *)

Definition setupAccount w (addr : Address) : W :=
  match ak_GetAccount w addr with
  | Some _ => w
  | None => let '(acc, w) := ak_NewAccount w addr in ak_SetAccount w acc
  end.

Definition setup_message w (msg : sdk_msg) : W :=
  match msg with MEthermint m => setupAccount w (em_From m) | _ => w end.

Definition AccountSetupDecorator next : handler := fun ctx tx simulate w =>
  match tx_GetMsgs tx with
  | [] => reject ctx ErrNoMessages w
  | msgs => next ctx tx simulate (fold_left setup_message msgs w)
  end.

Definition ValidateMsgHandlerDecorator
    (validateMsgHandler : option (Ctx G -> list sdk_msg -> option ante_error)) next : handler :=
  fun ctx tx simulate w =>
  match validateMsgHandler with
  | Some validate =>
      if IsCheckTx ctx && negb simulate then
        match validate ctx (tx_GetMsgs tx) with
        | Some err => reject ctx err w
        | None => next ctx tx simulate w
        end
      else next ctx tx simulate w
  | None => next ctx tx simulate w
  end.

Definition secp256k1VerifyCost : Z := 21000.

(** The second case of the type switch is an interface every key implements. *)
Definition sigGasConsumer (meter : G) (pubkey : option PubKey) : res (option ante_error * G) :=
  match pubkey with
  | Some (EthSecp256k1 _) =>
      meter ← gm_ConsumeGas meter secp256k1VerifyCost "ante verify: secp256k1"; Ret (None, meter)
  | Some _ =>
      meter ← gm_ConsumeGas meter secp256k1VerifyCost "ante verify: tendermint secp256k1"; Ret (None, meter)
  | None => Ret (Some ErrInvalidPubKey, meter)
  end.

Definition std_decorators validateMsgHandler : list (decorator_type G Std W) :=
  [ SetUpContextDecorator; AccountSetupDecorator; MempoolFeeDecorator; ValidateBasicDecorator;
    ValidateMemoDecorator; ConsumeGasForTxSizeDecorator; SetPubKeyDecorator; ValidateSigCountDecorator;
    DeductFeeDecorator; SigGasConsumeDecorator sigGasConsumer; SigVerificationDecorator;
    IncrementSequenceDecorator; ValidateMsgHandlerDecorator validateMsgHandler ].

Definition eth_decorators : list (decorator_type G Std W) :=
  [ EthSetupContextDecorator; GasLimitDecorator; EthMempoolFeeDecorator; ValidateBasicDecorator;
    EthSigVerificationDecorator; AccountVerificationDecorator; NonceVerificationDecorator;
    EthGasConsumeDecorator; IncrementSenderSequenceDecorator ].

Definition NewAnteHandler validateMsgHandler : handler := fun ctx tx sim w =>
  match tx with
  | StdTx _ => ChainAnteDecorators (std_decorators validateMsgHandler) ctx tx sim w
  | EthTx _ => ChainAnteDecorators eth_decorators ctx tx sim w
  | OtherTx _ _ => reject ctx ErrInvalidTxType w
  end.


Context `{!AuthKeeperLaws W Acc, !AuthAnteLaws G Std W}.

(** ** Views of the world *)
Definition sequence w (a : Address) : option Z := GetSequence <$> ak_GetAccount w a.
Definition balance w (a : Address) (d : Denom) : Dec :=
  from_option (fun acc => GetCoins acc d) 0%Z (ak_GetAccount w a).

(** The handler accepts the transaction. *)
Definition accepts (r : result * W) ctx' w' : Prop :=
  match r with (Ret (Some c, None), w) => c = ctx' /\ w = w' | _ => False end.

Lemma accepts_eq (r : result * W) ctx' w' : accepts r ctx' w' <-> r = (Ret (Some ctx', None), w').
Proof. destruct r as [[[[c|] [e|]]|p] w1]; simpl; naive_solver. Qed.

Lemma accepts_reject ctx e w ctx' w' : accepts (reject ctx e w) ctx' w' <-> False.
Proof. done. Qed.

(** ** What each decorator lets through *)
Ltac accept_solver :=
  unfold reject; cbn [accepts];
  split; [try done; intros; split_conjs|intros; split_conjs]; simplify_eq; try congruence; repeat eexists; eauto.

Section Decorators.
Context (next : handler) (ctx ctx' : Ctx G) (msg : MsgEthereumTx) (sim : bool) (w w' : W).

Lemma Setup_accepts : accepts (EthSetupContextDecorator next ctx (EthTx msg) sim w) ctx' w' <->
  accepts (next ctx (EthTx msg) sim w) ctx' w'.
Proof.
  unfold EthSetupContextDecorator. cbn [gasTx].
  destruct (next ctx (EthTx msg) sim w) as [[[c e]|p] w1]; [done|]. by destruct p.
Qed.

Lemma GasLimit_accepts : accepts (GasLimitDecorator next ctx (EthTx msg) sim w) ctx' w' <->
  (GasLimit (Data msg) <= MaxGasLimitPerTx (GetParams w))%Z /\ accepts (next ctx (EthTx msg) sim w) ctx' w'.
Proof.
  unfold GasLimitDecorator, EthMsg.GetGas. case_match eqn:E.
  - apply Z.ltb_lt in E. split; [done|]. intros [? _]. lia.
  - apply Z.ltb_ge in E. accept_solver.
Qed.

Lemma MempoolFee_deliver : IsCheckTx ctx = false ->
  EthMempoolFeeDecorator next ctx (EthTx msg) sim w = next ctx (EthTx msg) sim w.
Proof. unfold EthMempoolFeeDecorator. by intros ->. Qed.

Lemma MempoolFee_check : IsCheckTx ctx = true ->
  accepts (EthMempoolFeeDecorator next ctx (EthTx msg) sim w) ctx' w' <->
  (0 <= EthMsg.Fee msg)%Z /\
  (DecCoins_IsZero (MinGasPrices ctx) = true \/
   (default 0%Z (MinGasPrices ctx !! DefaultBondDenom) * int64 (GasLimit (Data msg)) <= EthMsg.Fee msg)%Z) /\
  accepts (next ctx (EthTx msg) sim w) ctx' w'.
Proof.
  unfold EthMempoolFeeDecorator. intros ->. cbn [negb].
  destruct (Z.ltb_spec (EthMsg.Fee msg) 0) as [Hneg|Hnn]; [split; [done|intros [? _]; lia]|].
  destruct (DecCoins_IsZero _), (Z.leb_spec (default 0%Z (MinGasPrices ctx !! DefaultBondDenom) *
    int64 (GasLimit (Data msg))) (EthMsg.Fee msg)) as [Hle|Hlt]; cbn [negb andb].
  - split; [intros; split_and!; [done|by left|done]|by intros (_ & _ & ?)].
  - split; [intros; split_and!; [done|by left|done]|by intros (_ & _ & ?)].
  - split; [intros; split_and!; [done|by right|done]|by intros (_ & _ & ?)].
  - split; [done|]. intros (_ & [?|?] & ?); [done|lia].
Qed.

Lemma ValidateBasic_accepts : IsReCheckTx ctx = false ->
  accepts (ValidateBasicDecorator next ctx (EthTx msg) sim w) ctx' w' <->
  EthMsg.ValidateBasic msg = None /\ accepts (next ctx (EthTx msg) sim w) ctx' w'.
Proof. rewrite ValidateBasicDecorator_eth. intros ->. case_match; accept_solver. Qed.

Lemma SigVerification_accepts :
  accepts (EthSigVerificationDecorator next ctx (EthTx msg) sim w) ctx' w' <->
  exists chain a msg', ChainID.ParseChainID (ctx_ChainID ctx) = Some chain /\
    EthMsg.VerifySig msg chain = Ret (inl a, msg') /\ accepts (next ctx (EthTx msg') sim w) ctx' w'.
Proof.
  unfold EthSigVerificationDecorator.
  destruct (ChainID.ParseChainID _) as [c|]; [|accept_solver].
  destruct (EthMsg.VerifySig msg c) as [[[a|e] m]|p] eqn:E; accept_solver.
Qed.

Lemma AccountVerification_deliver : IsCheckTx ctx = false ->
  AccountVerificationDecorator next ctx (EthTx msg) sim w = next ctx (EthTx msg) sim w.
Proof. unfold AccountVerificationDecorator. by intros ->. Qed.

Lemma AccountVerification_check acc a : IsCheckTx ctx = true -> EthMsg.From msg = Some a ->
  ak_GetAccount w a = Some acc ->
  accepts (AccountVerificationDecorator next ctx (EthTx msg) sim w) ctx' w' <->
  (BlockHeight ctx = 0%Z -> GetAccountNumber acc = 0%Z) /\
  (EthMsg.Cost msg <= GetCoins acc DefaultBondDenom)%Z /\ accepts (next ctx (EthTx msg) sim w) ctx' w'.
Proof.
  intros Hc Ha Hacc. unfold AccountVerificationDecorator. rewrite Hc, Ha, Hacc. cbn [negb].
  destruct (Z.eqb_spec (BlockHeight ctx) 0), (Z.eqb_spec (GetAccountNumber acc) 0),
    (Z.ltb_spec (GetCoins acc DefaultBondDenom) (EthMsg.Cost msg)); cbn [negb andb];
    unfold reject; cbn [accepts]; (split; [try done; intros|intros (? & ? & ?)]); try lia; try done; naive_solver.
Qed.

(** The range of nonces the decorator lets through. *)
Definition nonce_range (a : Address) (seq : Z) : Z * Z :=
  if IsCheckTx ctx && negb (IsReCheckTx ctx) && negb IsMempoolEnableRecheck then
    let top := u64 (seq + u64 (GetUserPendingTxsCnt a)) in
    ((if IsMempoolEnableSort then seq else top), top)
  else (seq, seq).

Lemma Nonce_spec a acc : EthMsg.From msg = Some a -> ak_GetAccount w a = Some acc ->
  let '(lo, hi) := nonce_range a (GetSequence acc) in
  ((lo <= AccountNonce (Data msg) <= hi)%Z ->
     NonceVerificationDecorator next ctx (EthTx msg) sim w = next ctx (EthTx msg) sim w) /\
  (~ (lo <= AccountNonce (Data msg) <= hi)%Z -> exists e,
     NonceVerificationDecorator next ctx (EthTx msg) sim w = reject ctx e w).
Proof.
  intros Ha Hacc. unfold NonceVerificationDecorator, nonce_range. rewrite Ha, Hacc.
  destruct (IsCheckTx ctx), (IsReCheckTx ctx), IsMempoolEnableRecheck, IsMempoolEnableSort; cbn [negb andb];
    (case_match eqn:E; [rewrite ?orb_true_iff, ?negb_true_iff, ?Z.eqb_neq, ?Z.ltb_lt in E
                       |rewrite ?orb_false_iff, ?negb_false_iff, ?Z.eqb_eq, ?Z.ltb_ge in E]);
    split; intros; try done; try lia; by eexists.
Qed.

Lemma Nonce_accepts : accepts (NonceVerificationDecorator next ctx (EthTx msg) sim w) ctx' w' <->
  exists a acc, EthMsg.From msg = Some a /\ ak_GetAccount w a = Some acc /\
    ((nonce_range a (GetSequence acc)).1 <= AccountNonce (Data msg) <= (nonce_range a (GetSequence acc)).2)%Z /\
    accepts (next ctx (EthTx msg) sim w) ctx' w'.
Proof.
  split.
  - intros Hacc. destruct (EthMsg.From msg) as [a|] eqn:Ha;
      [|unfold NonceVerificationDecorator in Hacc; by rewrite Ha in Hacc].
    destruct (ak_GetAccount w a) as [acc|] eqn:Hg;
      [|unfold NonceVerificationDecorator in Hacc; by rewrite Ha, Hg in Hacc].
    exists a, acc. pose proof (Nonce_spec a acc Ha Hg) as Hs.
    destruct (nonce_range a (GetSequence acc)) as [lo hi]. destruct Hs as [Hin Hout]. simpl.
    destruct (decide (lo <= AccountNonce (Data msg) <= hi)%Z) as [Hr|Hr].
    + by rewrite Hin in Hacc.
    + destruct (Hout Hr) as [e He]. by rewrite He in Hacc.
  - intros (a & acc & Ha & Hg & Hr & Hacc). pose proof (Nonce_spec a acc Ha Hg) as Hs.
    destruct (nonce_range a (GetSequence acc)) as [lo hi]. destruct Hs as [Hin _]. by rewrite Hin.
Qed.

Lemma GasConsume_accepts : accepts (EthGasConsumeDecorator next ctx (EthTx msg) sim w) ctx' w' <->
  exists a acc gas w1, EthMsg.From msg = Some a /\ ak_GetAccount w a = Some acc /\
    IntrinsicGas (Payload (Data msg)) (bool_decide (EthMsg.To msg = None)) true false = Some gas /\
    (IsCheckTx ctx = true -> gas <= GasLimit (Data msg))%Z /\
    (if (GasLimit (Data msg) =? 0)%Z then Some w
     else DeductFees w acc DefaultBondDenom (EthMsg.Fee msg)) = Some w1 /\
    accepts (next (SetGasMeter sim ctx (GasLimit (Data msg))) (EthTx msg) sim w1) ctx' w'.
Proof.
  unfold EthGasConsumeDecorator, EthMsg.GetGas, EthMsg.Fee.
  destruct (EthMsg.From msg) as [a|]; [|accept_solver].
  destruct (ak_GetAccount w a) as [acc|] eqn:Hg; [|accept_solver].
  destruct (IntrinsicGas _ _ _ _) as [gas|]; [|accept_solver].
  destruct (IsCheckTx ctx && (GasLimit (Data msg) <? gas)%Z) eqn:Hc.
  - apply andb_prop in Hc as [? ?%Z.ltb_lt]. split; [done|].
    intros (? & ? & ? & ? & ? & ? & [= <-] & Hle & _). specialize (Hle ltac:(done)). lia.
  - assert (IsCheckTx ctx = true -> gas <= GasLimit (Data msg))%Z as Hle.
    { intros Hct. rewrite Hct in Hc. by apply Z.ltb_ge in Hc. }
    destruct (GasLimit (Data msg) =? 0)%Z; cbn [negb]; [accept_solver|].
    destruct (DeductFees _ _ _ _) as [w1|] eqn:Hd; accept_solver.
Qed.

Lemma IncrementSender_accepts : IsCheckTx ctx = false \/ IsReCheckTx ctx = true \/ IsMempoolEnableRecheck = true ->
  accepts (IncrementSenderSequenceDecorator next ctx (EthTx msg) sim w) ctx' w' <->
  exists a acc acc', EthMsg.From msg = Some a /\ ak_GetAccount w a = Some acc /\
    SetSequence acc (u64 (GetSequence acc + 1)) = Some acc' /\
    accepts (next ctx (EthTx msg) sim (ak_SetAccount w acc')) ctx' w'.
Proof.
  intros Hm. unfold IncrementSenderSequenceDecorator.
  assert (IsCheckTx ctx && negb (IsReCheckTx ctx) && negb IsMempoolEnableRecheck = false) as ->.
  { destruct (IsCheckTx ctx), (IsReCheckTx ctx), IsMempoolEnableRecheck; naive_solver. }
  assert (ctx <| GasMeter := NewInfiniteGasMeter |> <| GasMeter := GasMeter ctx |> = ctx) as -> by (by destruct ctx).
  unfold EthMsg.GetSigners. destruct (EthMsg.From msg) as [a|]; [|accept_solver].
  cbn [mbind res_bind increment_sequences].
  destruct (ak_GetAccount w a) as [acc|] eqn:Hg; [|simpl; accept_solver]. cbn [deref mbind res_bind].
  destruct (SetSequence acc _) as [acc2|] eqn:Hs; accept_solver.
Qed.

Lemma Increment_skip : IsCheckTx ctx = true -> IsReCheckTx ctx = false -> IsMempoolEnableRecheck = false ->
  IncrementSenderSequenceDecorator next ctx (EthTx msg) sim w = next ctx (EthTx msg) sim w.
Proof. unfold IncrementSenderSequenceDecorator. by intros -> -> ->. Qed.

End Decorators.

Lemma SetGasMeter_IsCheckTx sim ctx gasLimit : IsCheckTx (SetGasMeter sim ctx gasLimit) = IsCheckTx ctx.
Proof.
  destruct sim; [by rewrite SetGasMeter_infinite by auto|].
  destruct (decide (BlockHeight ctx = 0%Z)).
  - by rewrite SetGasMeter_infinite by auto.
  - by rewrite SetGasMeter_limit.
Qed.

(** ** The whole chain *)

(** Delivery: the conditions under which a transaction passes, and the
    worlds on the way: fee charged, then sequence incremented. *)
Record delivered ctx msg sim w ctx' w' (chain : Z) (a : Address) (msg' : MsgEthereumTx) : Prop := {
  dl_limit : (GasLimit (Data msg) <= MaxGasLimitPerTx (GetParams w))%Z;
  dl_basic : EthMsg.ValidateBasic msg = None;
  dl_chain : ChainID.ParseChainID (ctx_ChainID ctx) = Some chain;
  dl_sender : EthMsg.VerifySig msg chain = Ret (inl a, msg');
  dl_worlds : exists acc gas w1 acc1 acc2,
    ak_GetAccount w a = Some acc /\ AccountNonce (Data msg) = GetSequence acc /\
    IntrinsicGas (Payload (Data msg)) (bool_decide (EthMsg.To msg = None)) true false = Some gas /\
    (if (GasLimit (Data msg) =? 0)%Z then Some w
     else DeductFees w acc DefaultBondDenom (EthMsg.Fee msg)) = Some w1 /\
    ak_GetAccount w1 a = Some acc1 /\ SetSequence acc1 (u64 (GetSequence acc1 + 1)) = Some acc2 /\
    w' = ak_SetAccount w1 acc2;
  dl_ctx : ctx' = SetGasMeter sim ctx (GasLimit (Data msg));
}.

Lemma deliver_iff validate ctx msg sim w ctx' w' : IsCheckTx ctx = false -> IsReCheckTx ctx = false ->
  accepts (NewAnteHandler validate ctx (EthTx msg) sim w) ctx' w' <->
  exists chain a msg', delivered ctx msg sim w ctx' w' chain a msg'.
Proof.
  intros Hc Hr. cbn [NewAnteHandler]. unfold eth_decorators. rewrite Chain_cons, Setup_accepts.
  rewrite Chain_cons, GasLimit_accepts, Chain_cons, MempoolFee_deliver by done.
  rewrite Chain_cons, ValidateBasic_accepts, Chain_cons, SigVerification_accepts by done.
  assert (forall a seq, nonce_range ctx a seq = (seq, seq)) as Hrange
    by (intros; unfold nonce_range; by rewrite Hc).
  assert (forall m, accepts (ChainAnteDecorators [AccountVerificationDecorator; NonceVerificationDecorator;
      EthGasConsumeDecorator; IncrementSenderSequenceDecorator] ctx (EthTx m) sim w) ctx' w' <->
    exists a acc gas w1 acc1 acc2, EthMsg.From m = Some a /\
      ak_GetAccount w a = Some acc /\ AccountNonce (Data m) = GetSequence acc /\
      IntrinsicGas (Payload (Data m)) (bool_decide (EthMsg.To m = None)) true false = Some gas /\
      (if (GasLimit (Data m) =? 0)%Z then Some w
       else DeductFees w acc DefaultBondDenom (EthMsg.Fee m)) = Some w1 /\
      ak_GetAccount w1 a = Some acc1 /\ SetSequence acc1 (u64 (GetSequence acc1 + 1)) = Some acc2 /\
      w' = ak_SetAccount w1 acc2 /\ ctx' = SetGasMeter sim ctx (GasLimit (Data m))) as Hmid.
  { intros m. rewrite Chain_cons, AccountVerification_deliver, Chain_cons, Nonce_accepts by done.
    setoid_rewrite Chain_cons. setoid_rewrite GasConsume_accepts. setoid_rewrite Chain_cons.
    setoid_rewrite IncrementSender_accepts; [|left; by rewrite SetGasMeter_IsCheckTx].
    setoid_rewrite Chain_nil. setoid_rewrite Hrange. cbn [accepts fst snd].
    split.
    - intros (a & acc & Ha & Hacc & Hn & a1 & acc1 & gas & w1 & Ha1 & Hacc1 & Hg & _ & Hd & a2 & acc2 & acc3 & Ha2 & Hacc2 & Hs & <- & <-).
      simplify_eq. eexists _, _, gas, w1, acc2, acc3. split_and!; [done|done|lia|done..].
    - intros (a & acc & gas & w1 & acc1 & acc2 & Ha & Hacc & Hn & Hg & Hd & Hacc1 & Hs & -> & ->).
      exists a, acc. split_and!; [done|done|lia|lia|]. exists a, acc, gas, w1.
      split_and!; try done; [by rewrite Hc|]. by exists a, acc1, acc2. }
  split.
  - intros (Hl & Hb & chain & a & msg' & Hp & Hv & Hacc).
    apply Hmid in Hacc as (a' & acc & gas & w1 & acc1 & acc2 & Ha & Hacc & Hn & Hg & Hd & Hacc1 & Hs & -> & ->).
    apply EthMsg.VerifySig_inl in Hv as Hv'. destruct Hv' as [Hf Hdata].
    assert (a' = a) as -> by congruence. unfold EthMsg.To, EthMsg.Fee in *. rewrite Hdata in *.
    exists chain, a, msg'. split; try done. by exists acc, gas, w1, acc1, acc2.
  - intros (chain & a & msg' & [Hl Hb Hp Hv (acc & gas & w1 & acc1 & acc2 & Hw) ->]).
    apply EthMsg.VerifySig_inl in Hv as Hv'. destruct Hv' as [Hf Hdata].
    split_and!; [done|done|]. exists chain, a, msg'. split_and!; [done|done|].
    apply Hmid. unfold EthMsg.To, EthMsg.Fee in *. rewrite Hdata. exists a, acc, gas, w1, acc1, acc2.
    naive_solver.
Qed.


(** Charging the fee, as the gas decorator does. *)
Definition charge w acc (msg : MsgEthereumTx) : option W :=
  if (GasLimit (Data msg) =? 0)%Z then Some w else DeductFees w acc DefaultBondDenom (EthMsg.Fee msg).

Lemma Fee_zero msg : GasLimit (Data msg) = 0%Z -> EthMsg.Fee msg = 0%Z.
Proof. unfold EthMsg.Fee. intros ->. lia. Qed.

Lemma Fee_nonneg msg : EthMsg.ValidateBasic msg = None -> (0 <= GasLimit (Data msg))%Z -> (0 <= EthMsg.Fee msg)%Z.
Proof.
  unfold EthMsg.ValidateBasic, EthMsg.Fee. intros Hb Hg.
  destruct (_ =? _)%Z; [done|]. destruct (Z.ltb_spec (Price (Data msg)) 0); [done|].
  apply Z.mul_nonneg_nonneg; lia.
Qed.

(** What moved between the sender and the fee collector. *)
Definition paid w w' (a : Address) (fee : Z) : Prop :=
  (forall d, balance w' a d = (balance w a d - if decide (DefaultBondDenom = d) then fee else 0)%Z) /\
  (forall d, balance w' FeeCollector d = (balance w FeeCollector d + if decide (DefaultBondDenom = d) then fee else 0)%Z) /\
  (forall b, b ≠ a -> b ≠ FeeCollector -> ak_GetAccount w' b = ak_GetAccount w b).

(** The sender can pay the fee. *)
Definition affordable w (a : Address) (msg : MsgEthereumTx) : Prop :=
  (EthMsg.Fee msg <= balance w a DefaultBondDenom)%Z \/ GasLimit (Data msg) = 0%Z.

Lemma charge_spec w a acc msg : ak_GetAccount w a = Some acc -> a ≠ FeeCollector ->
  (0 <= EthMsg.Fee msg)%Z ->
  (affordable w a msg ->
   exists w1 acc1, charge w acc msg = Some w1 /\ ak_GetAccount w1 a = Some acc1 /\
     GetSequence acc1 = GetSequence acc /\ paid w w1 a (EthMsg.Fee msg)) /\
  (~ affordable w a msg -> charge w acc msg = None).
Proof.
  intros Ha Hne Hfee. unfold charge, affordable, paid.
  assert (balance w a DefaultBondDenom = GetCoins acc DefaultBondDenom) as -> by (unfold balance; by rewrite Ha).
  destruct (Z.eqb_spec (GasLimit (Data msg)) 0) as [Hz|Hz].
  - split; [|intros Hn; destruct Hn; by right]. intros _. exists w, acc. rewrite Fee_zero by done.
    split_and!; try done; intros d; case_decide; lia.
  - split; [|intros Hn; eapply DeductFees_poor; [done|]; apply Z.nle_gt; intros ?; apply Hn; by left].
    intros [Hle|?]; [|done].
    destruct (DeductFees_ok w a acc DefaultBondDenom (EthMsg.Fee msg) Ha Hne (conj Hfee Hle))
      as (w1 & acc1 & fc & Hd & Ha1 & Hs1 & Hc1 & Hfc & Hcf & Hoth).
    exists w1, acc1. split_and!; try done.
    + intros d. unfold balance. rewrite Ha1, Ha. apply Hc1.
    + intros d. unfold balance. rewrite Hfc. apply Hcf.
Qed.

Lemma set_sequence_views w a acc acc' n : ak_GetAccount w a = Some acc -> SetSequence acc n = Some acc' ->
  sequence (ak_SetAccount w acc') a = Some n /\
  (forall b d, balance (ak_SetAccount w acc') b d = balance w b d) /\
  (forall b, b ≠ a -> ak_GetAccount (ak_SetAccount w acc') b = ak_GetAccount w b).
Proof.
  intros Ha Hs. destruct (SetSequence_spec acc n) as (x & Hx & Hsq & Haddr & Hcoins).
  assert (x = acc') as -> by congruence. apply ak_Get_address in Ha as Haa.
  assert (GetAddress acc' = a) as Hxa by congruence.
  split_and!.
  - unfold sequence. rewrite ak_Get_Set, decide_True by done. simpl. by rewrite Hsq.
  - intros b d. unfold balance. rewrite ak_Get_Set, Hxa. case_decide; [subst b|done]. rewrite Ha. apply Hcoins.
  - intros b Hb. rewrite ak_Get_Set, decide_False by congruence. done.
Qed.

(** The world after delivery: fee paid, sequence used up. *)
Lemma delivered_effect ctx msg sim w ctx' w' chain a msg' :
  delivered ctx msg sim w ctx' w' chain a msg' -> (0 <= GasLimit (Data msg))%Z -> a ≠ FeeCollector ->
  sequence w' a = Some (u64 (AccountNonce (Data msg) + 1)) /\ affordable w a msg /\
  paid w w' a (EthMsg.Fee msg).
Proof.
  intros [Hl Hb Hp Hv (acc & gas & w1 & acc1 & acc2 & Ha & Hn & _ & Hd & Ha1 & Hs & ->) _] Hgl Hne.
  destruct (charge_spec w a acc msg Ha Hne (Fee_nonneg msg Hb Hgl)) as [Hok Hno].
  change (charge w acc msg = Some w1) in Hd.
  destruct (set_sequence_views _ _ _ _ _ Ha1 Hs) as (Hseq & Hbal & Hoth).
  assert (affordable w a msg) as Haf.
  { unfold affordable in *. destruct (Z.le_gt_cases (EthMsg.Fee msg) (balance w a DefaultBondDenom)); [by left|].
    destruct (decide (GasLimit (Data msg) = 0%Z)); [by right|]. rewrite Hno in Hd; [done|]. intros [?|?]; [lia|done]. }
  destruct (Hok Haf) as (w1' & acc1' & Hd' & Ha1' & Hs1 & Hpay1 & Hpay2 & Hpay3).
  assert (w1' = w1) as -> by congruence. assert (acc1' = acc1) as -> by congruence.
  split_and!; [rewrite Hseq; by rewrite Hs1, Hn|done|]. split_and!.
  - intros d. by rewrite Hbal.
  - intros d. by rewrite Hbal.
  - intros b Hb1 Hb2. rewrite Hoth by done. by apply Hpay3.
Qed.

(** C5: an Ethereum transaction that the ante handler lets through in
    delivery has an accepted gas limit, a valid signature and exactly the
    sender's sequence as its nonce.  The sender pays price times gas limit
    to the fee collector and uses up the sequence, the transaction runs
    with its own gas limit, and no other account changes. *)
Theorem AnteHandler_charges validate ctx msg sim w ctx' w' :
  IsCheckTx ctx = false -> IsReCheckTx ctx = false -> (0 <= GasLimit (Data msg))%Z ->
  NewAnteHandler validate ctx (EthTx msg) sim w = (Ret (Some ctx', None), w') ->
  exists chain a msg', ChainID.ParseChainID (ctx_ChainID ctx) = Some chain /\
    EthMsg.VerifySig msg chain = Ret (inl a, msg') /\
    (GasLimit (Data msg) <= MaxGasLimitPerTx (GetParams w))%Z /\
    sequence w a = Some (AccountNonce (Data msg)) /\
    ctx' = SetGasMeter sim ctx (GasLimit (Data msg)) /\
    (a ≠ FeeCollector -> sequence w' a = Some (u64 (AccountNonce (Data msg) + 1)) /\
       affordable w a msg /\ paid w w' a (EthMsg.Fee msg)).
Proof.
  intros Hc Hr Hgl Hacc. apply accepts_eq, deliver_iff in Hacc; [|done..].
  destruct Hacc as (chain & a & msg' & Hd). pose proof (delivered_effect _ _ _ _ _ _ _ _ _ Hd Hgl) as Heff.
  destruct Hd as [Hl Hb Hp Hv (acc & gas & w1 & acc1 & acc2 & Ha & Hn & _) Hctx].
  exists chain, a, msg'. split_and!; try done. unfold sequence. rewrite Ha. simpl. by rewrite Hn.
Qed.

(** A transaction that meets these conditions is let through. *)
Lemma deliver_accepts validate ctx msg sim w chain a msg' gas :
  IsCheckTx ctx = false -> IsReCheckTx ctx = false -> (0 <= GasLimit (Data msg))%Z ->
  EthMsg.ValidateBasic msg = None -> (GasLimit (Data msg) <= MaxGasLimitPerTx (GetParams w))%Z ->
  ChainID.ParseChainID (ctx_ChainID ctx) = Some chain -> EthMsg.VerifySig msg chain = Ret (inl a, msg') ->
  a ≠ FeeCollector -> sequence w a = Some (AccountNonce (Data msg)) -> affordable w a msg ->
  IntrinsicGas (Payload (Data msg)) (bool_decide (EthMsg.To msg = None)) true false = Some gas ->
  exists w', NewAnteHandler validate ctx (EthTx msg) sim w
    = (Ret (Some (SetGasMeter sim ctx (GasLimit (Data msg))), None), w').
Proof.
  intros Hc Hr Hgl Hb Hl Hp Hv Hne Hseq Haf Hg. unfold sequence in Hseq.
  destruct (ak_GetAccount w a) as [acc|] eqn:Ha; [|done]. injection Hseq as Hn.
  destruct (charge_spec w a acc msg Ha Hne (Fee_nonneg msg Hb Hgl)) as [Hok _].
  destruct (Hok Haf) as (w1 & acc1 & Hd & Ha1 & Hs1 & _).
  destruct (SetSequence_spec acc1 (u64 (GetSequence acc1 + 1))) as (acc2 & Hs2 & _).
  exists (ak_SetAccount w1 acc2). apply accepts_eq, deliver_iff; [done..|].
  exists chain, a, msg'. split; try done. by exists acc, gas, w1, acc1, acc2.
Qed.

(** C6: no replay.  Once a transaction was delivered, no later world
    in which the sender's sequence is at least the one it left behind lets
    it through again. *)
Theorem AnteHandler_no_replay validate ctx ctx2 msg sim sim2 w ctx' w' w2 n :
  IsCheckTx ctx = false -> IsReCheckTx ctx = false -> IsCheckTx ctx2 = false -> IsReCheckTx ctx2 = false ->
  ctx_ChainID ctx2 = ctx_ChainID ctx ->
  (0 <= GasLimit (Data msg))%Z -> (0 <= AccountNonce (Data msg) < u64_modulus - 1)%Z ->
  NewAnteHandler validate ctx (EthTx msg) sim w = (Ret (Some ctx', None), w') ->
  (forall a msg' chain, ChainID.ParseChainID (ctx_ChainID ctx) = Some chain ->
     EthMsg.VerifySig msg chain = Ret (inl a, msg') -> a ≠ FeeCollector /\
     exists m, sequence w' a = Some m /\ sequence w2 a = Some n /\ (m <= n)%Z) ->
  forall c2 w2', NewAnteHandler validate ctx2 (EthTx msg) sim2 w2 <> (Ret (Some c2, None), w2').
Proof.
  intros Hc Hr Hc2 Hr2 Hch Hgl Hnonce Hacc Hlater c2 w2' Hacc2.
  apply accepts_eq, deliver_iff in Hacc; [|done..]. apply accepts_eq, deliver_iff in Hacc2; [|done..].
  destruct Hacc as (chain & a & msg' & Hd). destruct Hacc2 as (chain2 & a2 & msg2 & Hd2).
  pose proof (dl_chain _ _ _ _ _ _ _ _ _ Hd) as Hp. pose proof (dl_chain _ _ _ _ _ _ _ _ _ Hd2) as Hp2.
  rewrite Hch in Hp2. assert (chain2 = chain) as -> by congruence.
  pose proof (dl_sender _ _ _ _ _ _ _ _ _ Hd) as Hv. pose proof (dl_sender _ _ _ _ _ _ _ _ _ Hd2) as Hv2.
  assert (a2 = a) as -> by congruence.
  destruct (Hlater a msg' chain Hp Hv) as (Hne & m & Hm & Hn & Hmn).
  destruct (delivered_effect _ _ _ _ _ _ _ _ _ Hd Hgl Hne) as (Hs & _).
  destruct (dl_worlds _ _ _ _ _ _ _ _ _ Hd2) as (acc2 & _ & _ & _ & _ & Ha2 & Hn2 & _).
  unfold sequence in Hn. rewrite Ha2 in Hn. injection Hn as Hn.
  rewrite u64_id in Hs by lia. assert (m = AccountNonce (Data msg) + 1)%Z by congruence. lia.
Qed.

(** C7: a transaction that passes in CheckTx with its sender's current
    sequence would be delivered in the same world: the checks of the
    mempool are at least as strict.  It also offered the node's minimum
    fee, enough gas for the intrinsic cost, and has the funds for fee and
    amount together. *)
Theorem CheckTx_implies_delivery validate ctx msg sim w ctx' w' chain a msg' acc :
  IsCheckTx ctx = true -> IsReCheckTx ctx = false -> (0 <= GasLimit (Data msg))%Z ->
  ChainID.ParseChainID (ctx_ChainID ctx) = Some chain -> EthMsg.VerifySig msg chain = Ret (inl a, msg') ->
  ak_GetAccount w a = Some acc -> a ≠ FeeCollector -> GetSequence acc = AccountNonce (Data msg) ->
  NewAnteHandler validate ctx (EthTx msg) sim w = (Ret (Some ctx', None), w') ->
  (exists ctx2 w2, NewAnteHandler validate (ctx <| IsCheckTx := false |>) (EthTx msg) sim w
     = (Ret (Some ctx2, None), w2)) /\
  (EthMsg.Cost msg <= balance w a DefaultBondDenom)%Z /\
  (exists gas, IntrinsicGas (Payload (Data msg)) (bool_decide (EthMsg.To msg = None)) true false = Some gas /\
     (gas <= GasLimit (Data msg))%Z) /\
  (DecCoins_IsZero (MinGasPrices ctx) = true \/
   (default 0%Z (MinGasPrices ctx !! DefaultBondDenom) * int64 (GasLimit (Data msg)) <= EthMsg.Fee msg)%Z).
Proof.
  intros Hc Hr Hgl Hp Hv Hacc Hne Hseq. cbn [NewAnteHandler]. unfold eth_decorators.
  rewrite <- accepts_eq, Chain_cons, Setup_accepts, Chain_cons, GasLimit_accepts, Chain_cons, MempoolFee_check by done.
  rewrite Chain_cons, ValidateBasic_accepts, Chain_cons, SigVerification_accepts by done.
  intros (Hl & _ & Hmin & Hb & chain2 & a2 & m2 & Hp2 & Hv2 & Hrest).
  assert (chain2 = chain) as -> by congruence. assert (a2 = a) as -> by congruence.
  assert (m2 = msg') as -> by congruence.
  apply EthMsg.VerifySig_inl in Hv as Hv'. destruct Hv' as [Hf Hdata].
  rewrite Chain_cons, AccountVerification_check in Hrest by done.
  destruct Hrest as (_ & Hcost & Hrest). rewrite Chain_cons, Nonce_accepts in Hrest.
  destruct Hrest as (a3 & acc3 & Ha3 & Hacc3 & _ & Hrest).
  assert (a3 = a) as -> by congruence. assert (acc3 = acc) as -> by congruence.
  rewrite Chain_cons, GasConsume_accepts in Hrest.
  destruct Hrest as (a4 & acc4 & gas & w1 & _ & _ & Hgas & Hle & _).
  unfold EthMsg.Cost, EthMsg.To, EthMsg.Fee in *. rewrite Hdata in *.
  assert (balance w a DefaultBondDenom = GetCoins acc DefaultBondDenom) as Hbal by (unfold balance; by rewrite Hacc).
  rewrite Hbal. split_and!; [|done|by exists gas; split; [|apply Hle]|done].
  assert (0 <= Amount (Data msg))%Z as Hamt.
  { unfold EthMsg.ValidateBasic in Hb.
    destruct (Price (Data msg) =? 0)%Z, (Price (Data msg) <? 0)%Z; try done.
    by destruct (Z.ltb_spec (Amount (Data msg)) 0). }
  destruct (deliver_accepts validate (ctx <| IsCheckTx := false |>) msg sim w chain a msg' gas)
    as [w2 Hw2]; try done; [| |by eexists _, w2].
  - unfold sequence. rewrite Hacc. simpl. by rewrite Hseq.
  - left. unfold EthMsg.Fee. rewrite Hbal. lia.
Qed.

(** Every public key is charged and accepted: the second case of
    the type switch names the interface that all key types implement, so
    only a nil key is refused. *)
Theorem sigGasConsumer_accepts meter key meter' :
  (forall descr, gm_ConsumeGas meter secp256k1VerifyCost descr = Ret meter') ->
  sigGasConsumer meter (Some key) = Ret (None, meter') /\
  sigGasConsumer meter None = Ret (Some ErrInvalidPubKey, meter).
Proof. intros Hm. unfold sigGasConsumer. destruct key; rewrite Hm; done. Qed.

End Ante.
End Ante.
