(* ===== verification/Refund.v ===== *)
(** Gas refund (app/refund): after a transaction ran, the fee for the gas it
    did not use goes back from the fee collector to the fee payer. *)
From S2P Require Import Prelude.
From S2P Require Import Interfaces.
From S2P Require Import EthMsg.
From S2P Require Import ChainID.
From S2P Require Import StateDB.
From S2P Require Import Ante.
Import Ante.

(** What [auth.StdTx] offers as a [ante.FeeTx]. *)
Class StdFees (Std : Type) := {
  std_FeePayer : Std -> Address;
  std_GetFee : Std -> list (Denom * Dec);
}.

Inductive refund_error := ErrNotFeeTx | ErrNoFeePayer (a : option Address) | ErrRefundFees.

Module Refund.
Section Refund.
Context {G Std W Acc PrivateKey : Type}.
Context `{GasMeters G, AuthKeeper W Acc, EVMKeeper W, GasTable, Mempool, SdkConfig}.
Context `{Keccak, Rlp, EthCrypto PrivateKey, AuthAnte G Std W, StdFees Std}.
Implicit Types (ctx : Ctx G) (tx : Tx Std) (w : W).

(** A [FeeTx]: its payer, gas and fees. *)
Definition feeTx tx : option (res (option Address) * Z * list (Denom * Dec)) :=
  match tx with
  | StdTx t => Some (Ret (Some (std_FeePayer t)), std_GetGas t, std_GetFee t)
  | EthTx msg => Some (EthMsg.FeePayer msg, EthMsg.GetGas msg, EthMsg.GetFee msg)
  | OtherTx _ _ => None
  end.

(** [fee.Sub(gasCost)] for one coin; [big.Int.Div] panics on zero, and
    [NewCoin] and [Sub] on a negative amount. *)
Definition refund_of (gas gasUsed : Z) (fee : Denom * Dec) : res (Denom * Dec) :=
  let '(denom, amount) := fee in
  if (gas =? 0)%Z then Panic PanicDivide
  else
    let gasPrice := (amount / gas)%Z in
    let gasConsumed := (gasPrice * gasUsed)%Z in
    if (gasConsumed <? 0)%Z then Panic (PanicMsg "negative coin amount")
    else if (amount - gasConsumed <? 0)%Z then Panic (PanicMsg "negative coin amount")
    else Ret (denom, (amount - gasConsumed)%Z).

Fixpoint refunds_of (gas gasUsed : Z) (fees : list (Denom * Dec)) : res (list (Denom * Dec)) :=
  match fees with
  | [] => Ret []
  | fee :: rest => c ← refund_of gas gasUsed fee; cs ← refunds_of gas gasUsed rest; Ret (c :: cs)
  end.

Definition GasRefund ctx tx w : res (option refund_error * W) :=
  let gasLimit := gm_Limit (GasMeter ctx) in
  let gasUsed := gm_GasConsumed (GasMeter ctx) in
  if (gasLimit <=? gasUsed)%Z then Ret (None, w)
  else
    match feeTx tx with
    | None => Ret (Some ErrNotFeeTx, w)
    | Some (payer, gas, fees) =>
        feePayer ← payer;
        match feePayer ≫= ak_GetAccount w with
        | None => Ret (Some (ErrNoFeePayer feePayer), w)
        | Some feePayerAcc =>
            gasFees ← refunds_of gas gasUsed fees;
            match RefundFees w (GetAddress feePayerAcc) gasFees with
            | None => Ret (Some ErrRefundFees, w)
            | Some w => Ret (None, w)
            end
        end
    end.

Definition NewGasRefundHandler ctx tx w : res (option refund_error * W) :=
  match tx with
  | EthTx _ => GasRefund ctx tx w
  | _ => Ret (None, w)
  end.

Context `{!AuthKeeperLaws W Acc, !AuthAnteLaws G Std W}.

(** The payer is the verified sender when the signature's own chain ID is
    the chain's. *)
Lemma FeePayer_sender msg a msg' : EthMsg.VerifySig msg (EthMsg.ChainID msg) = Ret (inl a, msg') ->
  EthMsg.FeePayer msg = Ret (Some a).
Proof.
  intros Hv. unfold EthMsg.FeePayer. rewrite Hv. cbn [mbind res_bind].
  apply EthMsg.VerifySig_inl in Hv as [-> _]. done.
Qed.

(** The part of the fee that comes back. *)
Definition unused_fee (msg : MsgEthereumTx) (gasUsed : Z) : Z := (Price (Data msg) * (GasLimit (Data msg) - gasUsed))%Z.

Lemma refund_of_fee msg gasUsed d : (0 <= Price (Data msg))%Z -> (0 <= gasUsed < GasLimit (Data msg))%Z ->
  refund_of (EthMsg.GetGas msg) gasUsed (d, EthMsg.Fee msg) = Ret (d, unused_fee msg gasUsed).
Proof.
  intros Hp Hg. unfold refund_of, unused_fee, EthMsg.GetGas, EthMsg.Fee.
  rewrite (proj2 (Z.eqb_neq _ _)), Z.div_mul by lia.
  rewrite !(proj2 (Z.ltb_ge _ 0)) by nia. by rewrite Z.mul_sub_distr_l.
Qed.

Lemma GasRefund_eth ctx msg w a acc fc :
  gm_Limit (GasMeter ctx) = GasLimit (Data msg) ->
  (0 <= gm_GasConsumed (GasMeter ctx) < GasLimit (Data msg))%Z -> (0 <= Price (Data msg))%Z ->
  EthMsg.FeePayer msg = Ret (Some a) -> ak_GetAccount w a = Some acc -> a ≠ FeeCollector ->
  ak_GetAccount w FeeCollector = Some fc ->
  (unused_fee msg (gm_GasConsumed (GasMeter ctx)) <= GetCoins fc DefaultBondDenom)%Z ->
  exists w', NewGasRefundHandler ctx (EthTx msg) w = Ret (None, w') /\
    sequence w' a = sequence w a /\ paid w w' a (- unused_fee msg (gm_GasConsumed (GasMeter ctx))).
Proof.
  intros Hlim Hused Hp Hpayer Ha Hne Hfc Hfunds. cbn [NewGasRefundHandler]. unfold GasRefund.
  rewrite Hlim, (proj2 (Z.leb_gt _ _)) by lia. cbn [feeTx]. rewrite Hpayer.
  cbn [mbind res_bind option_bind]. rewrite Ha. unfold EthMsg.GetFee. cbn [refunds_of].
  rewrite refund_of_fee by lia. cbn [mbind res_bind]. rewrite (ak_Get_address _ _ _ Ha).
  assert (0 <= unused_fee msg (gm_GasConsumed (GasMeter ctx)))%Z as Hnn by (unfold unused_fee; nia).
  destruct (RefundFees_ok w a acc fc DefaultBondDenom _ Ha Hfc Hne (conj Hnn Hfunds))
    as (w' & acc' & fc' & Hr & Ha' & Hs & Hc & Hfc' & Hcf & Hoth).
  rewrite Hr. exists w'. split; [done|]. split; [unfold sequence; rewrite Ha, Ha'; simpl; by rewrite Hs|].
  unfold paid, balance. rewrite Ha, Ha', Hfc, Hfc'. simpl. split_and!.
  - intros d. rewrite Hc. case_decide; lia.
  - intros d. rewrite Hcf. case_decide; lia.
  - done.
Qed.

(** What delivery took before the transaction ran: the whole fee. *)
Lemma delivered_paid validate ctx ctx' msg w w1 chain a msg' :
  IsCheckTx ctx = false -> IsReCheckTx ctx = false ->
  NewAnteHandler validate ctx (EthTx msg) false w = (Ret (Some ctx', None), w1) ->
  ChainID.ParseChainID (ctx_ChainID ctx) = Some chain -> EthMsg.VerifySig msg chain = Ret (inl a, msg') ->
  (0 < GasLimit (Data msg))%Z -> a ≠ FeeCollector ->
  paid w w1 a (EthMsg.Fee msg) /\ sequence w1 a = Some (u64 (AccountNonce (Data msg) + 1)) /\ (0 < Price (Data msg))%Z.
Proof.
  intros Hc Hr Hante Hp Hv Hlim Hne.
  apply accepts_eq, deliver_iff in Hante; [|done..]. destruct Hante as (chain2 & a2 & m2 & Hd).
  pose proof (dl_chain _ _ _ _ _ _ _ _ _ Hd) as Hp2. pose proof (dl_sender _ _ _ _ _ _ _ _ _ Hd) as Hv2.
  pose proof (dl_basic _ _ _ _ _ _ _ _ _ Hd) as Hb.
  assert (chain2 = chain) as -> by congruence. assert (a2 = a) as -> by congruence.
  destruct (delivered_effect _ _ _ _ _ _ _ _ _ Hd ltac:(lia) Hne) as (Hseq & _ & Hpaid).
  split; [exact Hpaid|]. split; [exact Hseq|].
  unfold EthMsg.ValidateBasic in Hb. destruct (Z.eqb_spec (Price (Data msg)) 0); [done|].
  destruct (Z.ltb_spec (Price (Data msg)) 0); [done|lia].
Qed.

Lemma paid_trans w w1 w2 a x y : paid w w1 a x -> paid w1 w2 a y -> paid w w2 a (x + y).
Proof.
  intros (Ha & Hf & Ho) (Ha2 & Hf2 & Ho2). split_and!.
  - intros d. rewrite Ha2, Ha. case_decide; lia.
  - intros d. rewrite Hf2, Hf. case_decide; lia.
  - intros b Hb1 Hb2. by rewrite Ho2, Ho.
Qed.

(** C8: a transaction whose execution changed nothing (a failed one).
    When the chain ID its signature names is that of the chain, it pays for
    the gas it used and no more than its limit: the ante handler and the
    refund together move the price times the smaller of gas used and gas
    limit from the sender to the fee collector, and the sequence is used
    up.  The ante handler also accepts the signature with another V
    ([VerifySig_malleable]); if the fee payer recovered from that has no
    account, the refund fails and the sender has paid the whole fee. *)
Theorem failed_tx_pays_used_gas validate ctx ctx' ctx2 msg w w1 chain a msg' :
  IsCheckTx ctx = false -> IsReCheckTx ctx = false ->
  NewAnteHandler validate ctx (EthTx msg) false w = (Ret (Some ctx', None), w1) ->
  ChainID.ParseChainID (ctx_ChainID ctx) = Some chain -> EthMsg.VerifySig msg chain = Ret (inl a, msg') ->
  a ≠ FeeCollector -> (0 <= balance w FeeCollector DefaultBondDenom)%Z ->
  gm_Limit (GasMeter ctx2) = GasLimit (Data msg) -> (0 < GasLimit (Data msg))%Z ->
  (0 <= gm_GasConsumed (GasMeter ctx2))%Z ->
  (EthMsg.ChainID msg = chain -> exists w2, NewGasRefundHandler ctx2 (EthTx msg) w1 = Ret (None, w2) /\
     paid w w2 a (Price (Data msg) * Z.min (gm_GasConsumed (GasMeter ctx2)) (GasLimit (Data msg))) /\
     sequence w2 a = Some (u64 (AccountNonce (Data msg) + 1))) /\
  (forall payer, EthMsg.FeePayer msg = Ret payer -> payer ≫= ak_GetAccount w1 = None ->
     (gm_GasConsumed (GasMeter ctx2) < GasLimit (Data msg))%Z ->
     NewGasRefundHandler ctx2 (EthTx msg) w1 = Ret (Some (ErrNoFeePayer payer), w1) /\
     paid w w1 a (Price (Data msg) * GasLimit (Data msg))).
Proof.
  intros Hc Hr Hante Hp Hv Hne Hfc Hlim Hpos Hused.
  destruct (delivered_paid _ _ _ _ _ _ _ _ _ Hc Hr Hante Hp Hv Hpos Hne) as (Hpaid & Hseq & Hprice).
  destruct (ak_GetAccount w1 a) as [acc|] eqn:Ha; [|unfold sequence in Hseq; by rewrite Ha in Hseq].
  split.
  - intros Hchain. destruct (decide (GasLimit (Data msg) <= gm_GasConsumed (GasMeter ctx2))%Z) as [Hfull|Hless].
    { exists w1. cbn [NewGasRefundHandler]. unfold GasRefund. rewrite Hlim, (proj2 (Z.leb_le _ _)), Z.min_r by lia. done. }
    pose proof (proj1 (proj2 Hpaid) DefaultBondDenom) as Hcol. rewrite decide_True in Hcol by done. unfold EthMsg.Fee in Hcol.
    destruct (ak_GetAccount w1 FeeCollector) as [fc|] eqn:Hf; unfold balance at 1 in Hcol; rewrite Hf in Hcol; simpl in Hcol; [|nia].
    destruct (GasRefund_eth ctx2 msg w1 a acc fc) as (w2 & Hw2 & Hseq2 & Hpaid2); try done; [lia|lia| |unfold unused_fee; nia|].
    { apply (FeePayer_sender msg a msg'). by rewrite Hchain. }
    exists w2. split; [done|]. split; [|by rewrite Hseq2].
    replace (_ * _)%Z with (EthMsg.Fee msg + - unused_fee msg (gm_GasConsumed (GasMeter ctx2)))%Z
      by (unfold EthMsg.Fee, unused_fee; rewrite Z.min_l by lia; lia).
    by eapply paid_trans.
  - intros payer Hpayer Hnone Hless. cbn [NewGasRefundHandler]. unfold GasRefund.
    rewrite Hlim, (proj2 (Z.leb_gt _ _)) by lia. cbn [feeTx]. rewrite Hpayer. cbn [mbind res_bind] in *. rewrite Hnone. done.
Qed.

End Refund.
End Refund.
