(* ===== verification/EthExamples.v ===== *)
(** Runs of the Ethereum transaction pipeline: signature, ante handler and
    refund over finite-map accounts and a toy signature scheme. *)
From S2P Require Import Prelude.
From S2P Require Import Interfaces.
From S2P Require Import EthMsg.
From S2P Require Import ChainID.
From S2P Require Import StateDB.
From S2P Require Import Ante.
From S2P Require Import Refund.
Import MapInstances Ante Refund.

Module EthExamples.

(** ** Instances *)

(** A signature is the key itself, and recovery reads it back. *)
Definition key_scalar (k : positive) : Z := (Z.pos k mod (2 ^ 256 - 1) + 1)%Z.
Definition toy_public_key (k : positive) : bytes := Byte.x04 :: be_bytes 32 (key_scalar k) ++ be_bytes 32 1.
#[export] Instance toy_EthCrypto : EthCrypto positive := {|
  ValidateSignatureValues v r s _ :=
    ((0 <? r) && (r <? 2 ^ 256) && (0 <? s) && (s <? 2 ^ 256) && ((v =? 0) || (v =? 1)))%Z;
  Ecrecover h sig := Some (Byte.x04 :: take 32 sig ++ take 32 (drop 32 sig));
  crypto_Sign h k := Some (be_bytes 32 (key_scalar k) ++ be_bytes 32 1 ++ [x00]);
  public_key := toy_public_key;
|}.

Lemma toy_sig_parts k : let sig := be_bytes 32 (key_scalar k) ++ be_bytes 32 1 ++ [x00] in
  take 32 sig = be_bytes 32 (key_scalar k) /\ take 32 (drop 32 sig) = be_bytes 32 1 /\ sig !! 64 = Some x00.
Proof.
  intros sig. unfold sig. pose proof (length_be_bytes 32 (key_scalar k)) as Hl.
  split_and!; [by rewrite take_app_length'|by rewrite drop_app_length'|].
  rewrite lookup_app_r by (rewrite Hl; lia). rewrite Hl. done.
Qed.

#[export] Instance toy_EthCryptoLaws : EthCryptoLaws positive.
Proof.
  split; cbn [ValidateSignatureValues Ecrecover crypto_Sign public_key toy_EthCrypto].
  - intros v r s _. rewrite !andb_true_iff, !Z.ltb_lt, orb_true_iff, !Z.eqb_eq. lia.
  - intros h k sig <-%(inj Some). by rewrite !length_app, !length_be_bytes.
  - intros h k sig v <-%(inj Some) Hv. destruct (toy_sig_parts k) as (H1 & H2 & H3).
    rewrite H3 in Hv. injection Hv as <-. unfold sig_R, sig_S. rewrite H1, H2, !be_value_be_bytes.
    change (Z_of_byte x00) with 0%Z. change (256 ^ Z.of_nat 32)%Z with (2 ^ 256)%Z.
    assert (0 < key_scalar k < 2 ^ 256)%Z as Hk.
    { unfold key_scalar. pose proof (Z.mod_pos_bound (Z.pos k) (2 ^ 256 - 1) ltac:(lia)). lia. }
    rewrite (Z.mod_small _ _ (conj (Z.lt_le_incl _ _ (proj1 Hk)) (proj2 Hk))).
    rewrite !andb_true_iff, !Z.ltb_lt. repeat split; try lia; done.
  - intros h k sig <-%(inj Some). destruct (toy_sig_parts k) as (H1 & H2 & _). by rewrite H1, H2.
  - intros k. by eexists.
Qed.

Definition toy_rlp_value (v : rlp_value) : bytes :=
  match v with
  | RlpUint n => be_bytes 8 n
  | RlpBig z => be_bytes 32 z
  | RlpAddress (Some a) => x00 :: Address_Bytes a
  | RlpAddress None => [Byte.x01]
  | RlpBytes b => b
  end.
#[export] Instance toy_Rlp : Rlp := flat_map toy_rlp_value.

(** Gas meters: the limit, if any, and the gas consumed. *)
Definition meter : Type := option Z * Z.
#[export] Instance meter_GasMeters : GasMeters meter := {|
  gm_Limit m := default 0%Z m.1;
  gm_GasConsumed m := m.2;
  gm_ConsumeGas m x descr :=
    match m.1 with
    | Some l => if (l <? m.2 + x)%Z then Panic (PanicOutOfGas descr) else Ret (m.1, (m.2 + x)%Z)
    | None => Ret (m.1, (m.2 + x)%Z)
    end;
  NewInfiniteGasMeter := (None, 0%Z);
  NewGasMeter l := (Some l, 0%Z);
|}.

(** Accounts: coins, sequence and number by address. *)
Record acct := mkAcct { at_coins : gmap Denom Z; at_sequence : Z; at_number : Z }.
Abbreviation world := (gmap Address acct).
Definition acct0 : acct := mkAcct ∅ 0 0.
Definition collector : Address := 1000%N.
Definition add_coin (x : acct) (d : Denom) (n : Z) : acct :=
  mkAcct (<[d := (default 0 (at_coins x !! d) + n)%Z]> (at_coins x)) (at_sequence x) (at_number x).
Arguments add_coin : simpl never.
Definition move (w : world) (src dst : Address) (d : Denom) (n : Z) : option world :=
  let x := default acct0 (w !! src) in
  if (default 0 (at_coins x !! d) <? n)%Z then None
  else
    let w := <[src := add_coin x d (- n)]> w in
    Some (<[dst := add_coin (default acct0 (w !! dst)) d n]> w).

#[export] Instance world_AuthKeeper : AuthKeeper world (Address * acct) := {|
  ak_GetAccount w a := (fun x => (a, x)) <$> w !! a;
  ak_SetAccount w acc := <[acc.1 := acc.2]> w;
  ak_NewAccount w a := ((a, acct0), w);
  GetAddress acc := acc.1;
  GetSequence acc := at_sequence acc.2;
  SetSequence acc n := Some (acc.1, mkAcct (at_coins acc.2) n (at_number acc.2));
  GetAccountNumber acc := at_number acc.2;
  GetCoins acc d := default 0%Z (at_coins acc.2 !! d);
  DeductFees w acc d x := move w acc.1 collector d x;
  RefundFees w a cs := fold_left (fun w '(d, x) => w ← w; move w collector a d x) cs (Some w);
  FeeCollector := collector;
|}.
Lemma move_ok (w : world) a x b d n : w !! a = Some x -> a ≠ b -> (0 <= n <= default 0 (at_coins x !! d))%Z ->
  exists w', move w a b d n = Some w' /\
    w' !! a = Some (add_coin x d (- n)) /\ w' !! b = Some (add_coin (default acct0 (w !! b)) d n) /\
    (forall c, c ≠ a -> c ≠ b -> w' !! c = w !! c).
Proof.
  intros Ha Hne Hn. unfold move. rewrite Ha. simpl. rewrite (proj2 (Z.ltb_ge _ _)) by lia.
  eexists. split; [done|]. rewrite lookup_insert_ne by done.
  rewrite (lookup_insert_ne w a b) by done. split_and!.
  - by rewrite lookup_insert_eq.
  - by rewrite lookup_insert_eq.
  - intros c H1 H2. by rewrite !lookup_insert_ne by done.
Qed.

Lemma add_coin_amount x d n d' :
  default 0%Z (at_coins (add_coin x d n) !! d')
  = (default 0 (at_coins x !! d') + if decide (d = d') then n else 0)%Z.
Proof. unfold add_coin. simpl. rewrite lookup_insert. case_decide; subst; simpl; lia. Qed.

Lemma collector_coins (w : world) d :
  from_option (fun c : Address * acct => default 0%Z (at_coins c.2 !! d)) 0%Z ((fun x => (collector, x)) <$> w !! collector)
  = default 0%Z (at_coins (default acct0 (w !! collector)) !! d).
Proof. destruct (w !! collector); [done|]. simpl. by rewrite lookup_empty. Qed.

#[export] Instance world_AuthKeeperLaws : AuthKeeperLaws world (Address * acct).
Proof.
  split; cbn [ak_GetAccount ak_SetAccount GetAddress GetSequence SetSequence GetCoins DeductFees RefundFees
    FeeCollector world_AuthKeeper].
  - by intros w a acc (x & _ & ->)%fmap_Some.
  - intros w [b x] a. simpl. rewrite lookup_insert. case_decide; by subst.
  - intros [a x] n. eexists. split; [done|]. done.
  - intros w a acc d x (y & Hy & ->)%fmap_Some Hne Hx. simpl in *.
    destruct (move_ok w a y collector d x Hy Hne Hx) as (w' & Hm & Ha & Hc & Hoth).
    exists w'. rewrite Ha, Hc. simpl. do 2 eexists. split_and!; try done.
    + intros d'. cbn [snd]. rewrite add_coin_amount. case_decide; lia.
    + intros d'. cbn [snd]. rewrite add_coin_amount, collector_coins. done.
    + intros b Hb1 Hb2. by rewrite Hoth.
  - intros w a acc d x (y & Hy & ->)%fmap_Some Hlt. simpl in *. unfold move. rewrite Hy. simpl.
    by rewrite (proj2 (Z.ltb_lt _ _)) by lia.
  - intros w a acc fc d x (y & Hy & ->)%fmap_Some (z & Hz & ->)%fmap_Some Hne Hx. simpl in *.
    destruct (move_ok w collector z a d x Hz (not_eq_sym Hne) Hx) as (w' & Hm & Hc & Ha & Hoth).
    exists w'. rewrite Ha, Hc, Hy. simpl. do 2 eexists. split_and!; try done.
    + intros d'. cbn [snd]. by rewrite add_coin_amount.
    + intros d'. cbn [snd]. rewrite add_coin_amount. case_decide; lia.
    + intros b Hb1 Hb2. by rewrite Hoth.
Qed.

#[export] Instance world_EVMKeeper : EVMKeeper world := fun _ => mkParams true true [] false false 30000000.
#[export] Instance toy_GasTable : GasTable := fun payload _ _ _ => Some (21000 + 16 * Z.of_nat (length payload))%Z.
#[export] Instance toy_Mempool : Mempool :=
  {| IsMempoolEnableRecheck := false; IsMempoolEnableSort := true; GetUserPendingTxsCnt _ := 0%Z |}.

Definition Std : Type := list sdk_msg.
Definition toy_SetGasMeter (sim : bool) (ctx : Ctx meter) (l : Z) : Ctx meter :=
  if sim || (BlockHeight ctx =? 0)%Z then ctx <| GasMeter := NewInfiniteGasMeter |>
  else ctx <| GasMeter := NewGasMeter l |>.
Definition pass : decorator_type meter Std world := fun next => next.
#[export] Instance toy_AuthAnte : AuthAnte meter Std world := {|
  ChainAnteDecorators := fold_right (fun d next => d next) (fun ctx tx sim w => (Ret (Some ctx, None), w));
  ValidateBasicDecorator next ctx tx sim w :=
    match tx with
    | EthTx msg =>
        if IsReCheckTx ctx then next ctx tx sim w
        else match EthMsg.ValidateBasic msg with
             | Some e => (Ret (Some ctx, Some (ErrBasic e)), w)
             | None => next ctx tx sim w
             end
    | _ => next ctx tx sim w
    end;
  SetUpContextDecorator := pass; MempoolFeeDecorator := pass; ValidateMemoDecorator := pass;
  ConsumeGasForTxSizeDecorator := pass; SetPubKeyDecorator := pass; ValidateSigCountDecorator := pass;
  DeductFeeDecorator := pass; SigGasConsumeDecorator := fun _ => pass; SigVerificationDecorator := pass;
  IncrementSequenceDecorator := pass;
  SetGasMeter := toy_SetGasMeter;
  std_GetGas _ := 0%Z;
  std_GetMsgs t := t;
|}.
#[export] Instance toy_AuthAnteLaws : AuthAnteLaws meter Std world.
Proof.
  split; cbn [ChainAnteDecorators ValidateBasicDecorator SetGasMeter toy_AuthAnte]; try done.
  - intros ctx l Hh. unfold toy_SetGasMeter. by rewrite (proj2 (Z.eqb_neq _ _)).
  - intros sim ctx l Hh. unfold toy_SetGasMeter. destruct Hh as [-> | ->]; [done|]. by rewrite Z.eqb_refl, orb_true_r.
Qed.
#[export] Instance toy_StdFees : StdFees Std := {| std_FeePayer _ := 0%N; std_GetFee _ := [] |}.

(** ** A signed transfer on the chain exchain-66 *)

Definition chain_name : bytes := map byte_of_Z [101; 120; 99; 104; 97; 105; 110; 45; 54; 54]%Z.
Example chain_66 : ChainID.ParseChainID chain_name = Some 66%Z.
Proof. vm_compute. reflexivity. Qed.

Definition key : positive := 7%positive.
Definition unsigned : MsgEthereumTx := EthMsg.NewMsgEthereumTx 3 (Some 187%N) (Some 5%Z) 30000 (Some 2%Z) [].
Definition signed : MsgEthereumTx :=
  match EthMsg.Sign unsigned 66 key with Ret (inl m) => m | _ => unsigned end.
Definition sender : Address := EthMsg.pub_address (public_key key).
Definition world0 : world :=
  {[ sender := mkAcct {[ "fax" := 100000%Z ]} 3 1; collector := mkAcct ∅ 0 2 ]}.
Definition ctx0 : Ctx meter := mkCtx meter false false 10 chain_name ∅ (None, 0%Z).

Definition ante : Ctx meter -> world -> res (option (Ctx meter) * option ante_error) * world :=
  fun ctx w => NewAnteHandler None ctx (EthTx signed) false w.
Definition ctx1 : Ctx meter := ctx0 <| GasMeter := (Some 30000%Z, 0%Z) |>.
Definition world1 : world := (ante ctx0 world0).2.

Example delivered_once : (ante ctx0 world0).1 = Ret (Some ctx1, None) /\
  (ante ctx0 world1).1 = Ret (Some ctx0, Some (ErrInvalidNonce 3 4)).
Proof. vm_compute. done. Qed.

Lemma Sign_VerifySig_witness : exists msg'',
  EthMsg.VerifySig signed 66 = Ret (inl (EthMsg.pub_address (public_key key)), msg'') /\
  Data msg'' = Data signed /\ EthMsg.From msg'' = Some (EthMsg.pub_address (public_key key)).
Proof. apply (EthMsg.Sign_VerifySig unsigned 66 key signed); [lia|exact eq_refl|vm_compute; reflexivity]. Defined.

Lemma VerifySig_malleable_witness :
  (fst <$> EthMsg.VerifySig (unsigned <| Data := (Data unsigned) <| tx_V := (2 * 66 - 19 - 0)%Z |> |>) 66)
  = (fst <$> EthMsg.VerifySig (unsigned <| Data := (Data unsigned) <| tx_V := (2 * 66 + 35 + 0)%Z |> |>) 66).
Proof. apply (EthMsg.VerifySig_malleable unsigned 66 0); [lia|left; exact eq_refl|exact eq_refl]. Defined.

Lemma ante_passes : NewAnteHandler None ctx0 (EthTx signed) false world0 = (Ret (Some ctx1, None), world1).
Proof. vm_compute. reflexivity. Qed.
Lemma signed_gas : GasLimit (Data signed) = 30000%Z /\ AccountNonce (Data signed) = 3%Z.
Proof. vm_compute. done. Qed.
Definition verified : MsgEthereumTx :=
  match EthMsg.VerifySig signed 66 with Ret (_, m) => m | Panic _ => signed end.
Lemma signed_sender : EthMsg.VerifySig signed 66 = Ret (inl sender, verified) /\ EthMsg.ChainID signed = 66%Z.
Proof. split; vm_compute; reflexivity. Qed.
Lemma sender_not_collector : sender ≠ collector.
Proof. apply (bool_decide_eq_false_1 (sender = collector)). vm_compute. reflexivity. Qed.

Lemma AnteHandler_charges_witness : exists chain a msg',
  ChainID.ParseChainID (ctx_ChainID ctx0) = Some chain /\
  EthMsg.VerifySig signed chain = Ret (inl a, msg') /\
  (GasLimit (Data signed) <= MaxGasLimitPerTx (GetParams world0))%Z /\
  sequence world0 a = Some (AccountNonce (Data signed)) /\
  ctx1 = SetGasMeter false ctx0 (GasLimit (Data signed)) /\
  (a ≠ FeeCollector -> sequence world1 a = Some (u64 (AccountNonce (Data signed) + 1)) /\
     affordable world0 a signed /\ paid world0 world1 a (EthMsg.Fee signed)).
Proof.
  apply (AnteHandler_charges None ctx0 signed false world0 ctx1 world1);
    [exact eq_refl|exact eq_refl|rewrite (proj1 signed_gas); lia|exact ante_passes].
Defined.

(** The ante handler let the transaction through. *)
Definition let_through {C W : Type} (r : res (option C * option ante_error) * W) : bool :=
  match r.1 with Ret (Some _, None) => true | _ => false end.

Lemma AnteHandler_no_replay_witness :
  let_through (NewAnteHandler None ctx0 (EthTx signed) true world1) = false.
Proof.
  destruct signed_gas as [Hg Hn].
  assert (forall c2 w2', NewAnteHandler None ctx0 (EthTx signed) true world1 <> (Ret (Some c2, None), w2')) as Hno.
  { apply (AnteHandler_no_replay None ctx0 ctx0 signed false true world0 ctx1 world1 world1 4);
      [exact eq_refl..|rewrite Hg; lia|rewrite Hn; unfold u64_modulus; lia|exact ante_passes|].
    intros a msg' chain Hp Hv. assert (chain = 66%Z) as ->.
    { change (ctx_ChainID ctx0) with chain_name in Hp. rewrite chain_66 in Hp. congruence. }
    rewrite (proj1 signed_sender) in Hv. assert (a = sender) as -> by congruence.
    split; [exact sender_not_collector|]. exists 4%Z. split_and!; [vm_compute; reflexivity..|lia]. }
  unfold let_through. destruct (NewAnteHandler _ _ _ _ _) as [[[[c2|] [e|]]|p] w2]; try exact eq_refl.
  by destruct (Hno c2 w2).
Defined.

Definition check_ctx : Ctx meter := ctx0 <| IsCheckTx := true |>.
Lemma CheckTx_implies_delivery_witness : exists ctx2 w2,
  NewAnteHandler None (check_ctx <| IsCheckTx := false |>) (EthTx signed) false world0 = (Ret (Some ctx2, None), w2).
Proof.
  apply (CheckTx_implies_delivery None check_ctx signed false world0 (ctx1 <| IsCheckTx := true |>)
    (NewAnteHandler None check_ctx (EthTx signed) false world0).2 66 sender verified
    (sender, mkAcct {[ "fax" := 100000%Z ]} 3 1));
    [exact eq_refl|exact eq_refl|rewrite (proj1 signed_gas); lia|exact chain_66|apply signed_sender|
     vm_compute; reflexivity|exact sender_not_collector|rewrite (proj2 signed_gas); exact eq_refl|
     vm_compute; reflexivity].
Defined.

Lemma sigGasConsumer_accepts_witness :
  sigGasConsumer (None, 0%Z) (Some (MultisigThreshold 2 [])) = Ret (None, (None, 21000%Z)) /\
  sigGasConsumer (None, 0%Z) None = Ret (Some ErrInvalidPubKey, (None, 0%Z)).
Proof. apply (sigGasConsumer_accepts (None, 0%Z) (MultisigThreshold 2 []) (None, 21000%Z)). reflexivity. Defined.

(** The transaction used 21000 of its 30000 gas and failed. *)
Definition ctx_used : Ctx meter := ctx0 <| GasMeter := (Some 30000%Z, 21000%Z) |>.
Lemma failed_tx_pays_used_gas_witness : exists w2,
  NewGasRefundHandler ctx_used (EthTx signed) world1 = Ret (None, w2) /\
  paid world0 w2 sender (Price (Data signed) * Z.min (gm_GasConsumed (GasMeter ctx_used)) (GasLimit (Data signed))) /\
  sequence w2 sender = Some (u64 (AccountNonce (Data signed) + 1)).
Proof.
  destruct signed_gas as [Hg Hn].
  apply (failed_tx_pays_used_gas None ctx0 ctx1 ctx_used signed world0 world1 66 sender verified);
    [exact eq_refl|exact eq_refl|exact ante_passes|exact chain_66|exact (proj1 signed_sender)|
     exact sender_not_collector|vm_compute; discriminate|rewrite Hg; exact eq_refl|rewrite Hg; lia|simpl; lia|
     apply signed_sender].
Defined.

End EthExamples.
