(* ===== verification/Transition.v ===== *)
(** The state transition of an Ethereum transaction
    (evm/types/state_transition.go, chain_config.go).

    The virtual machine is go-ethereum's.  What this code relies on is that
    it works through the StateDB interface: a run is a program that asks
    for one operation after another, each chosen by the answers so far, and
    ends with a result ([vm_program]). *)
From S2P Require Import Prelude.
From S2P Require Import Interfaces.
From S2P Require Import StateObject.
From S2P Require Import Journal.
From S2P Require Import AccessList.
From S2P Require Import StateDB.
From S2P Require Import StateDBSnapshot.
From S2P Require Import Ante.
Import StateDB StateDBSnapshot.

(** ** The virtual machine (go-ethereum/core/vm) *)

Inductive vm_error := ErrExecutionReverted | ErrVM (msg : string).
Record vm_result := mkVmResult {
  vm_ret : option bytes; vm_contract : Address; vm_leftOverGas : Z; vm_err : option vm_error;
}.
Inductive vm_program :=
  | VmDone (r : vm_result)
  | VmDo (o : op) (k : value -> vm_program).

(** The configuration handed to it; nil blocks are [None]. *)
Record EthereumConfig_ := mkEthereumConfig {
  eth_ChainID : Z; eth_HomesteadBlock : option Z; eth_DAOForkBlock : option Z; eth_DAOForkSupport : bool;
  eth_EIP150Block : option Z; eth_EIP150Hash : Hash; eth_EIP155Block : option Z; eth_EIP158Block : option Z;
  eth_ByzantiumBlock : option Z; eth_ConstantinopleBlock : option Z; eth_PetersburgBlock : option Z;
  eth_IstanbulBlock : option Z; eth_MuirGlacierBlock : option Z; eth_YoloV2Block : option Z; eth_EWASMBlock : option Z;
}.

(** [vm.BlockContext], [vm.TxContext] and [vm.Config]. *)
Record vm_env := mkVmEnv {
  env_GetHash : Z -> Hash; env_Coinbase : Address; env_BlockNumber : Z; env_Time : Z; env_Difficulty : Z;
  env_GasLimit : Z; env_Origin : Address; env_GasPrice : Z; env_Config : EthereumConfig_; env_ExtraEips : list Z;
}.

Class VM := {
  evm_Create : vm_env -> Address -> bytes -> Z -> Z -> vm_program;
  evm_Call : vm_env -> Address -> Address -> bytes -> Z -> Z -> vm_program;
}.

(** The machine never gives back more gas than it got. *)
Fixpoint vm_gas_ok (gas : Z) (p : vm_program) : Prop :=
  match p with
  | VmDone r => (0 <= vm_leftOverGas r <= gas)%Z
  | VmDo _ k => forall v, vm_gas_ok gas (k v)
  end.
Class VMLaws `{VM} := {
  Create_gas env caller code gas x : (0 <= gas)%Z -> vm_gas_ok gas (evm_Create env caller code gas x);
  Call_gas env caller a input gas x : (0 <= gas)%Z -> vm_gas_ok gas (evm_Call env caller a input gas x);
}.

(** [ethtypes.LogsBloom] as a number, and [common.HexToHash]. *)
Class EthTypes := { LogsBloom : list Log -> Z; HexToHash : string -> Hash }.
Class EthTypesLaws `{EthTypes} := {
  LogsBloom_nil : LogsBloom [] = 0%Z;
  LogsBloom_app l1 l2 : LogsBloom (l1 ++ l2) = Z.lor (LogsBloom l1) (LogsBloom l2);
  LogsBloom_range l : (0 <= LogsBloom l < 2 ^ 2048)%Z;
}.

(** ** Chain configuration

    A decoded [sdk.Int] is never nil; negative stands for no block. *)
Record ChainConfig := mkChainConfig {
  HomesteadBlock : Z; DAOForkBlock : Z; DAOForkSupport : bool; EIP150Block : Z; EIP150Hash : string;
  EIP155Block : Z; EIP158Block : Z; ByzantiumBlock : Z; ConstantinopleBlock : Z;
  PetersburgBlock : Z; IstanbulBlock : Z; MuirGlacierBlock : Z; YoloV2Block : Z; EWASMBlock : Z;
}.

(** [ResultData]; [types.StateTransition]; [ExecutionResult] with its gas. *)
Record ResultData := mkResultData {
  rd_ContractAddress : Address; rd_Bloom : Z; rd_Logs : list Log; rd_Ret : option bytes; rd_TxHash : Hash;
}.
Class ResultCodec := EncodeResultData : ResultData -> option bytes.

Record StateTransition := mkStateTransition {
  st_AccountNonce : Z; st_Price : Z; st_GasLimit : Z; st_Recipient : option Address; st_Amount : Z; st_Payload : bytes;
  st_ChainID : Z; st_TxHash : option Hash; st_Sender : Address; st_Simulate : bool;
}.
Record GasInfo := mkGasInfo { gi_GasLimit : Z; gi_GasConsumed : Z; gi_GasRefunded : Z }.
Record ExecutionResult := mkExecutionResult {
  er_Logs : list Log; er_Bloom : Z; er_Data : bytes; er_GasInfo : GasInfo;
}.
(** What the code reads of the block header. *)
Record Header := mkHeader { h_Height : Z; h_Time : Z; h_ProposerAddress : bytes }.

Inductive tr_error :=
  | ErrInvalidIntrinsicGas | ErrCreateDisabled | ErrUnauthorizedAccount (a : Address) | ErrCallDisabled
  | ErrCallBlockedContract (a : Address) | ErrEVM (data : option bytes) (e : vm_error) | ErrDB (e : dberror) | ErrEncode.

(** [int64(x)] *)
Definition int64_of (x : Z) : Z := ((x + 2 ^ 63) mod 2 ^ 64 - 2 ^ 63)%Z.
Lemma int64_small x : (- 2 ^ 63 <= x < 2 ^ 63)%Z -> int64_of x = x.
Proof. intros Hx. unfold int64_of. rewrite Z.mod_small; lia. Qed.

Module Transition.

(** *** chain_config.go *)
Definition getBlockValue (block : Z) : option Z := if (block <? 0)%Z then None else Some block.
Definition IsHomestead (cc : ChainConfig) : bool := bool_decide (getBlockValue (HomesteadBlock cc) ≠ None).
Definition IsIstanbul (cc : ChainConfig) : bool := bool_decide (getBlockValue (IstanbulBlock cc) ≠ None).
Definition DefaultChainConfig : ChainConfig :=
  mkChainConfig 0 0 true 0 "0x0000000000000000000000000000000000000000000000000000000000000000" 0 0 0 0 0 0 0 (-1) (-1).
Definition EthereumConfig `{EthTypes} (cc : ChainConfig) (chainID : Z) : EthereumConfig_ :=
  mkEthereumConfig chainID (getBlockValue (HomesteadBlock cc)) (getBlockValue (DAOForkBlock cc)) (DAOForkSupport cc)
    (getBlockValue (EIP150Block cc)) (HexToHash (EIP150Hash cc)) (getBlockValue (EIP155Block cc)) (getBlockValue (EIP158Block cc))
    (getBlockValue (ByzantiumBlock cc)) (getBlockValue (ConstantinopleBlock cc)) (getBlockValue (PetersburgBlock cc))
    (getBlockValue (IstanbulBlock cc)) (getBlockValue (MuirGlacierBlock cc)) (getBlockValue (YoloV2Block cc)) (getBlockValue (EWASMBlock cc)).

Section Transition.
Context {St AK C G : Type} `{KVStore St, SdkCoins C, AccountKeeper AK C, Keccak, SdkConfig}.
Context `{GasMeters G, GasTable, VM, EthTypes, ResultCodec}.
Context (BlacklistedAddr : Address -> bool).
Abbreviation csdb := (CommitStateDB St AK C).
Implicit Types (s : csdb) (m : G) (st : StateTransition).

(** *** Running the machine *)

(** One call of the interface, with its answer. *)
Definition respond (o : op) s : res (value * csdb) :=
  match o with
  | OpRead q => read q s
  | OpSnapshot => let '(id, s) := Snapshot s in Ret (VZ id, s)
  | OpSuicide a => answer VBool (Suicide s a)
  | _ => s ← exec o s; Ret (VBool true, s)
  end.
Fixpoint run_vm (p : vm_program) s : res (vm_result * csdb) :=
  match p with
  | VmDone r => Ret (r, s)
  | VmDo o k => '(v, s) ← respond o s; run_vm (k v) s
  end.

(** *** state_transition.go *)

Definition GetHashFn (hd : Header) s (height : Z) : Hash :=
  if (h_Height hd =? int64_of height)%Z then bhash s
  else if (int64_of height <? h_Height hd)%Z then GetHeightHash s height
  else 0%N.

Definition newEVM (hd : Header) s (st : StateTransition) (gasLimit : Z) (config : ChainConfig) (extraEIPs : list Z) : vm_env :=
  mkVmEnv (GetHashFn hd s) (BytesToAddress (h_ProposerAddress hd)) (h_Height hd) (h_Time hd) 0 gasLimit (st_Sender st) (st_Price st)
    (EthereumConfig config (st_ChainID st)) extraEIPs.

(** The part up to the machine's return; on the left, an early error.  On
    the right, the nonce before and what the machine returned. *)
Definition run_message (hd : Header) (config : ChainConfig) st (gasLimit : Z) s : res ((tr_error + Z * vm_result) * csdb) :=
  let '(params, s) := StateDB.GetParams s in
  let evm := newEVM hd s st gasLimit config (ExtraEIPs params) in
  '(currentNonce, s) ← GetNonce s (st_Sender st);
  s ← SetNonce s (st_Sender st) (st_AccountNonce st);
  match st_Recipient st with
  | None =>
      if negb (EnableCreate params) then Ret (inl ErrCreateDisabled, s)
      else if EnableContractDeploymentWhitelist params && negb (IsDeployerInWhitelist s (Address_Bytes (st_Sender st)))
      then Ret (inl (ErrUnauthorizedAccount (st_Sender st)), s)
      else
        '(r, s) ← run_vm (evm_Create evm (st_Sender st) (st_Payload st) gasLimit (st_Amount st)) s;
        Ret (inr (currentNonce, r), s)
  | Some recipient =>
      if negb (EnableCall params) then Ret (inl ErrCallDisabled, s)
      else
        '(nonce, s) ← GetNonce s (st_Sender st);
        s ← SetNonce s (st_Sender st) (u64 (nonce + 1));
        '(r, s) ← run_vm (evm_Call evm (st_Sender st) recipient (st_Payload st) gasLimit (st_Amount st)) s;
        Ret (inr (currentNonce, r), s)
  end.

(** [csdb.Finalise(true)] and [csdb.Commit(true)] *)
Definition persist s : res (option tr_error * csdb) :=
  '(err, s) ← Finalise BlacklistedAddr true s;
  match err with
  | Some e => Ret (Some (ErrDB e), s)
  | None =>
      '(_, err, s) ← Commit BlacklistedAddr true s;
      Ret (option_map ErrDB err, s)
  end.

Inductive outcome :=
  | TrErr (e : tr_error)
  | TrOk (exe : ExecutionResult) (data : ResultData) (s : csdb).

(** What follows the machine's return, before the deferred calls. *)
Definition finish st (gasLimit gasConsumed currentNonce : Z) (r : vm_result) s : res outcome :=
  match vm_err r with
  | Some e => Ret (TrErr (ErrEVM (vm_ret r) e))
  | None =>
      s ← SetNonce s (st_Sender st) currentNonce;
      let logs := if bool_decide (st_TxHash st ≠ None) && negb (st_Simulate st) then GetLogs s else [] in
      let bloom := if bool_decide (st_TxHash st ≠ None) && negb (st_Simulate st) then LogsBloom logs else 0%Z in
      '(err, s) ← (if negb (st_Simulate st) then persist s else Ret (None, s));
      match err with
      | Some e => Ret (TrErr e)
      | None =>
          txHash ← deref (st_TxHash st);
          let data := mkResultData (match st_Recipient st with None => vm_contract r | Some _ => 0%N end) bloom logs (vm_ret r) txHash in
          match EncodeResultData data with
          | None => Ret (TrErr ErrEncode)
          | Some bz => Ret (TrOk (mkExecutionResult logs bloom bz (mkGasInfo gasLimit gasConsumed (vm_leftOverGas r))) data s)
          end
      end
  end.

(** The deferred calls run last: the gas of the machine is charged once it
    has returned, then a panic with an address becomes an error. *)
Definition TransitionDb (hd : Header) (config : ChainConfig) st s m : res (outcome * G) :=
  match IntrinsicGas (st_Payload st) (bool_decide (st_Recipient st = None)) (IsHomestead config) (IsIstanbul config) with
  | None => Ret (TrErr ErrInvalidIntrinsicGas, m)
  | Some cost =>
      m ← (if (gm_GasConsumed m <? cost)%Z then gm_ConsumeGas m (cost - gm_GasConsumed m)%Z "Intrinsic gas match" else Ret m);
      let gasLimit := u64 (st_GasLimit st - gm_GasConsumed m) in
      match run_message hd config st gasLimit s with
      | Panic (PanicAddr a) => Ret (TrErr (ErrCallBlockedContract a), m)
      | Panic p => Panic p
      | Ret (inl e, _) => Ret (TrErr e, m)
      | Ret (inr (currentNonce, r), s) =>
          let gasConsumed := u64 (gasLimit - vm_leftOverGas r) in
          let out := finish st gasLimit gasConsumed currentNonce r s in
          m ← gm_ConsumeGas m gasConsumed "EVM execution consumption";
          match out with
          | Ret o => Ret (o, m)
          | Panic (PanicAddr a) => Ret (TrErr (ErrCallBlockedContract a), m)
          | Panic p => Panic p
          end
      end
  end.

End Transition.
End Transition.
