(* ===== verification/EvmKeeper.v ===== *)
(** The keeper of the EVM module, its blocks and its messages
    (evm/keeper/keeper.go, evm/keeper/abci.go, evm/handler.go).

    The keeper's counters live in the node's memory, outside the stores: they
    survive a transaction that fails or panics.  A handler therefore returns
    the keeper next to its result, and the stores inside the result, since
    the SDK drops the writes of a message that does not succeed.  The
    watcher's side database, events and logs are left out. *)
From S2P Require Import Prelude.
From S2P Require Import Interfaces.
From S2P Require Import StateObject.
From S2P Require Import StateDB.
From S2P Require Import EthMsg.
From S2P Require Import ChainID.
From S2P Require Import Ante.
From S2P Require Import Transition.
Import StateObject StateDB Transition.

(** [tmtypes.Tx.Hash], and the codec of the chain configuration. *)
Class TxHashing := tmHash : bytes -> bytes.
Class ConfigCodec := {
  MarshalConfig : ChainConfig -> bytes;
  UnmarshalConfig : bytes -> option ChainConfig;
}.
(** The keeper's counters. *)
Record Keeper := mkKeeper { TxCount : Z; Bloom : Z; Bhash : Hash; LogSize : Z }.
#[export] Instance Keeper_eta : Eta Keeper := fun r => mkKeeper (TxCount r) (Bloom r) (Bhash r) (LogSize r).

(** The stores of a context: the module's own, the accounts, the parameters. *)
Record Stores {St AK : Type} := mkStores { sto_kv : St; sto_ak : AK; sto_ps : Params }.
Arguments Stores St AK : clear implicits.

(** The context of a message. *)
Record TxCtx {G : Type} := mkTxCtx { tc_ctx : Ctx G; tc_header : Header; tc_TxBytes : bytes }.
Arguments TxCtx G : clear implicits.

(** [abci.RequestBeginBlock]: the hash of the block, its height and the hash
    of the block before. *)
Record BeginBlockReq := mkBeginBlockReq { req_Hash : bytes; req_Height : Z; req_LastHash : option bytes }.

Inductive handler_error :=
  | HErrChainID | HErrSig (e : msg_error) | HErrChainConfigNotFound | HErrTransition (e : tr_error)
  | HErrInvalidMsgType | HErrUnknownRequest.
Inductive evm_msg := EvmEthereumTx (msg : MsgEthereumTx) | EvmEthermint (msg : MsgEthermint) | EvmOther.

Module EvmKeeper.

Definition KeyPrefixBlockHash : bytes := [Byte.x01].
Definition KeyPrefixBloom : bytes := [Byte.x02].
Definition KeyPrefixChainConfig : bytes := [Byte.x06].
Definition BloomKey (height : Z) : bytes := be_bytes 8 (u64 height).

(** [ethtypes.BytesToBloom]: 256 bytes, padded on the left. *)
Definition BytesToBloom (b : bytes) : res bytes :=
  if 256 <? length b then Panic (PanicMsg "bloom bytes too big") else Ret (replicate (256 - length b) x00 ++ b).

Section Keeper.
Context {St AK C G PrivateKey : Type} `{KVStore St, SdkCoins C, AccountKeeper AK C, Keccak, SdkConfig}.
Context `{GasMeters G, GasTable, VM, EthTypes, ResultCodec, TxHashing, ConfigCodec, Rlp, EthCrypto PrivateKey}.
Context (BlacklistedAddr : Address -> bool).
Abbreviation csdb := (CommitStateDB St AK C).
Abbreviation stores := (Stores St AK).
Implicit Types (kv : St) (sto : stores) (k : Keeper) (s : csdb) (tc : TxCtx G).

(** *** keeper.go *)

Definition NewKeeper : Keeper := mkKeeper 0 0 0%N 0.

Definition GetBlockHash kv (hash : bytes) : res (Z * bool) :=
  let bz := kv_get kv (KeyPrefixBlockHash ++ hash) in
  if go_len bz =? 0 then Ret (0%Z, false)
  else if go_len bz <? 8 then Panic PanicIndex
  else Ret (int64_of (be_value (take 8 (default [] bz))), true).
Definition SetBlockHash kv (hash : bytes) (height : Z) : St :=
  kv_set kv (KeyPrefixBlockHash ++ hash) (be_bytes 8 (u64 height)).

(** Both go through a database opened for the purpose. *)
Definition GetHeightHash sto (height : Z) : Hash :=
  StateDB.GetHeightHash (CreateEmptyCommitStateDB (sto_kv sto) (sto_ak sto) (sto_ps sto) : csdb) height.
Definition SetHeightHash sto (height : Z) (hash : Hash) : stores :=
  mkStores _ _ (kvstore (StateDB.SetHeightHash (CreateEmptyCommitStateDB (sto_kv sto) (sto_ak sto) (sto_ps sto) : csdb) height hash))
    (sto_ak sto) (sto_ps sto).

Definition GetBlockBloom kv (height : Z) : res bytes :=
  if negb (kv_has kv (KeyPrefixBloom ++ BloomKey height)) then Ret (replicate 256 x00)
  else BytesToBloom (default [] (kv_get kv (KeyPrefixBloom ++ BloomKey height))).
Definition SetBlockBloom kv (height : Z) (bloom : bytes) : St :=
  kv_set kv (KeyPrefixBloom ++ BloomKey height) bloom.

Definition GetChainConfig kv : res (option ChainConfig) :=
  let bz := kv_get kv (KeyPrefixChainConfig ++ []) in
  if go_len bz =? 0 then Ret None
  else match UnmarshalConfig (default [] bz) with
       | Some config => Ret (Some config)
       | None => Panic (PanicMsg "UnmarshalBinaryBare")
       end.
Definition SetChainConfig kv (config : ChainConfig) : St :=
  kv_set kv (KeyPrefixChainConfig ++ []) (MarshalConfig config).

(** *** abci.go *)

Definition BeginBlock (req : BeginBlockReq) sto k : stores * Keeper :=
  match req_LastHash req with
  | None => (sto, k)
  | Some lastHash =>
      if (req_Height req <? 1)%Z then (sto, k)
      else
        let height := (req_Height req - 1)%Z in
        let sto := SetHeightHash sto (u64 height) (BytesToHash lastHash) in
        (mkStores _ _ (SetBlockHash (sto_kv sto) lastHash height) (sto_ak sto) (sto_ps sto),
         mkKeeper 0 0 (BytesToHash (req_Hash req)) 0)
  end.

Definition EndBlock (height : Z) sto k : res stores :=
  bloom ← BytesToBloom (big_Bytes (Bloom k));
  Ret (mkStores _ _ (SetBlockBloom (sto_kv sto) height bloom) (sto_ak sto) (sto_ps sto)).

(** *** handler.go *)

Definition evm_result : Type := res ((handler_error + ExecutionResult * ResultData * stores) * G).

(** [Prepare], [SetLogSize] and the count, unless simulated. *)
Definition prepare_db (txHash : Hash) (simulate : bool) sto k : csdb * Keeper :=
  let s := CreateEmptyCommitStateDB (sto_kv sto) (sto_ak sto) (sto_ps sto) in
  if simulate then (s, k)
  else (SetLogSize (Prepare s txHash (Bhash k) (TxCount k)) (LogSize k), k <| TxCount := int64_of (TxCount k + 1) |>).

(** What both handlers do with their transition. *)
Definition run_transition tc (st : StateTransition) (txHash : Hash) sto k : Keeper * evm_result :=
  let '(s, k) := prepare_db txHash (st_Simulate st) sto k in
  match GetChainConfig (sto_kv sto) with
  | Panic p => (k, Panic p)
  | Ret None => (k, Ret (inl HErrChainConfigNotFound, GasMeter (tc_ctx tc)))
  | Ret (Some config) =>
      match TransitionDb BlacklistedAddr (tc_header tc) config st s (GasMeter (tc_ctx tc)) with
      | Panic p => (k, Panic p)
      | Ret (TrErr e, m) => (k, Ret (inl (HErrTransition e), m))
      | Ret (TrOk exe data s, m) =>
          (if st_Simulate st then k
           else k <| Bloom := Z.lor (Bloom k) (er_Bloom exe) |> <| LogSize := GetLogSize s |>,
           Ret (inr (exe, data, mkStores _ _ (kvstore s) (accounts s) (paramSpace s)), m))
      end
  end.

Definition handleMsgEthereumTx tc sto k (msg : MsgEthereumTx) : Keeper * evm_result :=
  let ctx := tc_ctx tc in
  match ChainID.ParseChainID (ctx_ChainID ctx) with
  | None => (k, Ret (inl HErrChainID, GasMeter ctx))
  | Some chainIDEpoch =>
      match EthMsg.VerifySig msg chainIDEpoch with
      | Panic p => (k, Panic p)
      | Ret (inr e, _) => (k, Ret (inl (HErrSig e), GasMeter ctx))
      | Ret (inl sender, _) =>
          let ethHash := BytesToHash (tmHash (tc_TxBytes tc)) in
          let d := Data msg in
          run_transition tc
            (mkStateTransition (AccountNonce d) (Price d) (GasLimit d) (Recipient d) (Amount d) (Payload d) chainIDEpoch
               (Some ethHash) sender (IsCheckTx ctx)) ethHash sto k
      end
  end.

Definition handleMsgEthermint tc sto k (msg : MsgEthermint) : Keeper * evm_result :=
  let ctx := tc_ctx tc in
  if negb (IsCheckTx ctx) && negb (IsReCheckTx ctx) then (k, Ret (inl HErrInvalidMsgType, GasMeter ctx))
  else
    match ChainID.ParseChainID (ctx_ChainID ctx) with
    | None => (k, Ret (inl HErrChainID, GasMeter ctx))
    | Some chainIDEpoch =>
        let ethHash := BytesToHash (tmHash (tc_TxBytes tc)) in
        run_transition tc
          (mkStateTransition (em_AccountNonce msg) (em_Price msg) (em_GasLimit msg) (em_Recipient msg) (em_Amount msg)
             (em_Payload msg) chainIDEpoch (Some ethHash) (em_From msg) (IsCheckTx ctx)) ethHash sto k
    end.

Definition NewHandler tc sto k (msg : evm_msg) : Keeper * evm_result :=
  match msg with
  | EvmEthereumTx msg => handleMsgEthereumTx tc sto k msg
  | EvmEthermint msg => handleMsgEthermint tc sto k msg
  | EvmOther => (k, Ret (inl HErrUnknownRequest, GasMeter (tc_ctx tc)))
  end.

End Keeper.
End EvmKeeper.
