(* ===== verification/TransitionSpec.v ===== *)
(** What a run of the virtual machine can do to the database.

    A run is a list of operations of the StateDB interface
    ([run_vm_exec]), so whatever holds of those holds of every contract:
    nothing is written to the stores before [Finalise] ([run_message_kept]),
    logs stay in order, and the invariant of the database holds. *)
From S2P Require Import Prelude.
From S2P Require Import Interfaces.
From S2P Require Import StateObject.
From S2P Require Import Journal.
From S2P Require Import AccessList.
From S2P Require Import StateDB.
From S2P Require Import StateObjectSpec.
From S2P Require Import StateDBInv.
From S2P Require Import StateDBRevert.
From S2P Require Import StateDBUndo.
From S2P Require Import StateDBSnapshot.
From S2P Require Import StateDBLogs.
From S2P Require Import GoSlices.
From S2P Require Import Ante.
From S2P Require Import Transition.
Import StateObject Journal StateDB StateObjectSpec StateDBInv StateDBRevert StateDBUndo StateDBSnapshot StateDBLogs Transition.

(** A meter adds up what it is asked to consume, or panics. *)
Class GasMetersLaws (G : Type) `{GasMeters G} := {
  gm_ConsumeGas_spec m x descr m' : (0 <= x)%Z -> gm_ConsumeGas m x descr = Ret m' ->
    gm_GasConsumed m' = (gm_GasConsumed m + x)%Z;
}.

(** The program keeps to the types (addresses have 20 bytes, values 32),
    reverts only to its own snapshots and does not touch the RIPEMD
    precompile with an empty transfer. *)
Fixpoint vm_ok (p : vm_program) : Prop :=
  match p with
  | VmDone _ => True
  | VmDo o k => op_ok (-1) o /\ forall v, vm_ok (k v)
  end.

Module TransitionSpec.
Section Spec.
Context {St AK C G : Type} `{KVStore St, SdkCoins C, AccountKeeper AK C, Keccak, SdkConfig}.
Context `{GasMeters G, GasTable, VM, EthTypes, ResultCodec}.
Context `{!SdkCoinsLaws C, !KeccakLaws, !AccountKeeperLaws AK C}.
Abbreviation csdb := (CommitStateDB St AK C).
Implicit Types (s : csdb) (st : StateTransition).

Lemma respond_exec o s v s' : respond o s = Ret (v, s') -> exec o s = Ret s'.
Proof.
  destruct o; cbn [respond exec]; intros Hr;
    try (by rewrite Hr);
    try (bind_inv Hr; injection Hr as _ <-; done).
  - unfold answer in Hr. bind_inv Hr. destruct r as [b s1]. injection Hr as _ <-. by rewrite Hr0.
  - destruct (Snapshot s). by injection Hr as _ <-.
Qed.

Lemma exec_all_app ops1 ops2 s s1 s2 :
  exec_all ops1 s = Ret s1 -> exec_all ops2 s1 = Ret s2 -> exec_all (ops1 ++ ops2) s = Ret s2.
Proof.
  revert s. induction ops1 as [|o ops1 IH]; intros s He1 He2; cbn [app exec_all] in *.
  - by injection He1 as ->.
  - bind_inv He1. rewrite He0. by apply IH.
Qed.

Lemma run_vm_exec p : forall s r s', run_vm p s = Ret (r, s') ->
  exists ops, exec_all ops s = Ret s' /\ (vm_ok p -> Forall (op_ok (-1)) ops).
Proof.
  induction p as [r0|o k IH]; intros s r s' Hr; cbn [run_vm] in Hr.
  - injection Hr as _ <-. by exists [].
  - bind_inv Hr. destruct r0 as [v s1]. apply respond_exec in Hr0.
    destruct (IH v s1 r s' Hr) as (ops & He & Hok). exists (o :: ops). cbn [exec_all]. rewrite Hr0. split; [done|].
    intros [Ho Hv]. constructor; [done|]. by apply Hok.
Qed.

Lemma run_vm_gas gas p : forall s r s', vm_gas_ok gas p -> run_vm p s = Ret (r, s') -> (0 <= vm_leftOverGas r <= gas)%Z.
Proof.
  induction p as [r0|o k IH]; intros s r s' Hg Hr; cbn [run_vm] in Hr.
  - by injection Hr as <- _.
  - bind_inv Hr. destruct r0 as [v s1]. by eapply IH.
Qed.

(** The program a message runs. *)
Definition message_program (hd : Header) (config : ChainConfig) st (gasLimit : Z) s : vm_program :=
  let evm := newEVM hd (StateDB.GetParams s).2 st gasLimit config (ExtraEIPs (StateDB.GetParams s).1) in
  match st_Recipient st with
  | None => evm_Create evm (st_Sender st) (st_Payload st) gasLimit (st_Amount st)
  | Some recipient => evm_Call evm (st_Sender st) recipient (st_Payload st) gasLimit (st_Amount st)
  end.

(** Up to the machine's return a message is a list of operations too; the
    nonce it remembers is the one it found. *)
Lemma run_message_exec hd config st g s x s' : run_message hd config st g s = Ret (x, s') ->
  exists ops, exec_all ops (StateDB.GetParams s).2 = Ret s' /\
    (address_ok (st_Sender st) -> vm_ok (message_program hd config st g s) -> Forall (op_ok (-1)) ops) /\
    (forall n r, x = inr (n, r) -> fst <$> read (QNonce (st_Sender st)) (StateDB.GetParams s).2 = Ret (VZ n) /\
       (forall gas, vm_gas_ok gas (message_program hd config st g s) -> (0 <= vm_leftOverGas r <= gas)%Z)).
Proof.
  unfold run_message, message_program. destruct (StateDB.GetParams s) as [p s0] eqn:Hp. cbn [fst snd]. intros Hr.
  bind_inv Hr. destruct r as [n0 s1]. bind_inv Hr.
  assert (exec_all [OpRead (QNonce (st_Sender st)); OpSetNonce (st_Sender st) (st_AccountNonce st)] s0 = Ret r) as Hpre.
  { cbn [exec_all exec read]. unfold answer. rewrite Hr0. cbn [mbind res_bind]. by rewrite Hr1. }
  assert (address_ok (st_Sender st) ->
    Forall (op_ok (-1)) [OpRead (QNonce (st_Sender st)); OpSetNonce (st_Sender st) (st_AccountNonce st)]) as Hpok
    by (intros Ha; repeat constructor; done).
  assert (fst <$> read (QNonce (st_Sender st)) s0 = Ret (VZ n0)) as Hn
    by (cbn [read]; unfold answer; by rewrite Hr0).
  destruct (st_Recipient st) as [rc|].
  - destruct (negb (EnableCall p)).
    + injection Hr as <- <-. eexists. split; [exact Hpre|]. split; [by intros Ha _; apply Hpok|done].
    + bind_inv Hr. destruct r0 as [n1 s2]. bind_inv Hr. bind_inv Hr. destruct r1 as [vr s3]. injection Hr as <- <-.
      destruct (run_vm_exec _ _ _ _ Hr4) as (ops & He & Hok).
      exists ([OpRead (QNonce (st_Sender st)); OpSetNonce (st_Sender st) (st_AccountNonce st)] ++
        (OpRead (QNonce (st_Sender st)) :: OpSetNonce (st_Sender st) (u64 (n1 + 1)) :: ops)).
      split_and!.
      * eapply exec_all_app; [exact Hpre|]. cbn [exec_all exec read]. unfold answer. rewrite Hr2. cbn [mbind res_bind]. rewrite Hr3. exact He.
      * intros Ha Hvm. apply Forall_app. split; [by apply Hpok|]. constructor; [done|]. constructor; [done|]. by apply Hok.
      * intros n r1 [= <- <-]. split; [done|]. intros gas Hg. by eapply run_vm_gas.
  - destruct (negb (EnableCreate p)).
    { injection Hr as <- <-. eexists. split; [exact Hpre|]. split; [by intros Ha _; apply Hpok|done]. }
    destruct (_ && _).
    { injection Hr as <- <-. eexists. split; [exact Hpre|]. split; [by intros Ha _; apply Hpok|done]. }
    bind_inv Hr. destruct r0 as [vr s3]. injection Hr as <- <-.
    destruct (run_vm_exec _ _ _ _ Hr2) as (ops & He & Hok).
    eexists. split; [eapply exec_all_app; [exact Hpre|exact He]|]. split.
    + intros Ha Hvm. apply Forall_app. split; [by apply Hpok|by apply Hok].
    + intros n r1 [= <- <-]. split; [done|]. intros gas Hg. by eapply run_vm_gas.
Qed.

(** Up to the machine's return the stores stay as they are. *)
Lemma run_message_kept n0 hd config st g s x s' : log_ok n0 s -> run_message hd config st g s = Ret (x, s') ->
  kept n0 s s' /\ log_ok n0 s'.
Proof.
  intros Hok Hr. destruct (run_message_exec _ _ _ _ _ _ _ Hr) as (ops & He & _).
  assert (calm s (StateDB.GetParams s).2) as Hc by (by eapply calm_GetParams, surjective_pairing).
  destruct (exec_all_kept n0 ops _ _ (log_ok_calm _ _ _ Hc Hok) He) as [Hk Hok'].
  split; [|done]. eapply kept_trans; [by apply kept_calm|exact Hk].
Qed.

(** *** The nonce of the sender *)

Lemma append_dirty (j : journal C) e j' a : jwf j -> dirtied e = Some a -> append j e = Ret j' ->
  a ∈ dirty_address <$> dirties j'.
Proof.
  intros Hj He Ha. destruct (append_wf j e Hj) as (j1 & Ha1 & [Hidx Hpos Hc] & Hes). assert (j1 = j') as -> by congruence.
  specialize (Hc a). rewrite Hes, touches_snoc, decide_True in Hc by done. unfold getDirty in Hc.
  destruct (addressToJournalIndex j' !! a) as [i|] eqn:Hi.
  - destruct (idx_wf_lookup _ _ _ _ _ Hidx Hi) as (d & Hd & <-).
    apply list_elem_of_fmap. exists d. split; [done|]. by eapply list_elem_of_lookup_2.
  - injection Hc as Hc. unfold touches in Hc. lia.
Qed.

Lemma newStateObject_fresh (acc : Account C) (so : stateObject C) : newStateObject acc = Ret so -> suicided so = false.
Proof. unfold newStateObject. destruct acc; [by intros [= <-]|done]. Qed.

Lemma GetOrNew_suicided s a so s' : wf s -> GetOrNewStateObject s a = Ret (so, s') ->
  suicided so = true -> observe (QHasSuicided a) s = Ret (VBool true).
Proof.
  intros Hw Hg Hs. unfold GetOrNewStateObject in Hg. bind_inv Hg. destruct r as [o s0].
  destruct (getStateObject_step _ _ _ _ Hw Hg0) as ([Hw0 _] & Hl & Hl0).
  assert (forall x p s1, createObject s0 a = Ret (x, p, s1) -> suicided x = false) as Hcr.
  { intros x p s1 Hc. unfold createObject in Hc. bind_inv Hc. destruct r as [o1 s2].
    destruct (NewAccountWithAddress _ _) as [acc ak]. bind_inv Hc. apply newStateObject_fresh in Hc1.
    bind_inv Hc. bind_inv Hc. injection Hc as <- _ _. exact Hc1. }
  destruct o as [x|].
  - destruct (lookup_obj_wf s0 a x (proj1 Hw0) Hl0) as (_ & _ & Hd). rewrite Hd in Hg. injection Hg as <- _.
    cbn. unfold observe_obj. rewrite Hl. cbn. by rewrite Hs.
  - bind_inv Hg. destruct r as [[x p] s1]. injection Hg as <- _. apply Hcr in Hg1. congruence.
Qed.

(** After [SetNonce] the account is in the cache with that nonce, and its
    change will be found by [Finalise]. *)
Lemma SetNonce_effect s a n s' : wf s -> address_ok a -> SetNonce s a n = Ret s' ->
  wf s' /\ a ∈ dirty_address <$> dirties (csdb_journal s') /\
  exists so, cache s' a = Some so /\ acc_Sequence (account so) = n /\
    (suicided so = true -> observe (QHasSuicided a) s = Ret (VBool true)).
Proof.
  intros Hw Ha Hr. destruct (on_object_step s a _ s' Hw Ha (SetNonce_method _ a n) Hr) as [Hw' _]. split; [done|].
  unfold SetNonce, on_object in Hr. bind_inv Hr. destruct r as [so s1].
  pose proof (GetOrNew_suicided _ _ _ _ Hw Hr0) as Hsui.
  destruct (GetOrNewStateObject_step _ _ _ _ Hw Ha Hr0) as ([Hw1 _] & Hl).
  destruct (lookup_obj_wf s1 a so (proj1 Hw1) Hl) as (Hwo & Hao & Hdo).
  bind_inv Hr. destruct r as [j so']. unfold SO.SetNonce in Hr1. bind_inv Hr1. injection Hr1 as <- <-.
  assert (a ∈ dirty_address <$> dirties r) as Hd
    by (eapply append_dirty; [apply (wf_journal _ (proj2 Hw1))| |exact Hr2]; by rewrite Hao).
  destruct (setStateObject_cache (s1 <| csdb_journal := r |>) (setNonce so n)) as (objs & m & Hset & _ & Hc);
    [by destruct Hw1 as [[] _]|].
  rewrite Hset in Hr. injection Hr as <-. split; [exact Hd|]. exists (setNonce so n). split; [|done].
  rewrite Hc. change (address (setNonce so n)) with (address so). by rewrite Hao, decide_True by done.
Qed.

(** *** The log size *)

Lemma persist_logSize BlacklistedAddr s err s' : persist BlacklistedAddr s = Ret (err, s') -> logSize s' = logSize s.
Proof.
  assert (forall (t : csdb) so e t' so', updateStateObject BlacklistedAddr t so = (e, t', so') -> logSize t' = logSize t) as Hup.
  { intros t so e t' so'. unfold updateStateObject. repeat case_match; by intros [= _ <- _]. }
  assert (forall ds (t : csdb) e t', finalise_loop BlacklistedAddr true ds t = Ret (e, t') -> logSize t' = logSize t) as Hfin.
  { induction ds as [|d ds IH]; intros t e t' Hr; cbn [finalise_loop] in Hr; [by injection Hr as _ <-|].
    bind_inv Hr. destruct r as [e1 t1]. assert (logSize t1 = logSize t) as <-.
    { unfold finalise_one in Hr0. destruct (addressToObjectIndex t !! _); [|by injection Hr0 as _ <-]. bind_inv Hr0.
      destruct (_ || _); [by injection Hr0 as _ <-|]. bind_inv Hr0. destruct r0 as [kv so].
      destruct (updateStateObject _ _ _) as [[e2 t2] so2] eqn:Hu. apply Hup in Hu.
      destruct e2; injection Hr0 as _ <-; exact Hu. }
    destruct e1; [by injection Hr as _ <-|by eapply IH]. }
  assert (forall n i (t : csdb) e t', commit_objects BlacklistedAddr true n i t = Ret (e, t') -> logSize t' = logSize t) as Hcom.
  { induction n as [|n IH]; intros i t e t' Hr; cbn [commit_objects] in Hr; [by injection Hr as _ <-|].
    bind_inv Hr. destruct r as [e1 t1]. assert (logSize t1 = logSize t) as <-.
    { unfold commit_one in Hr0. bind_inv Hr0. destruct (_ || _); [by injection Hr0 as _ <-|].
      destruct (bool_decide _); [|by injection Hr0 as _ <-].
      assert (forall (t2 : csdb) so2, logSize t2 = logSize t ->
        (let '(err, s0, so) := updateStateObject BlacklistedAddr t2 so2 in
         match err with
         | Some _ => Ret (err, put_object s0 i so)
         | None => Ret (None, (put_object s0 i so) <| stateObjectsDirty := stateObjectsDirty (put_object s0 i so) ∖ {[se_address r]} |>)
         end) = Ret (e1, t1) -> logSize t1 = logSize t) as Hk.
      { intros t2 so2 <- Hx. destruct (updateStateObject _ t2 _) as [[e2 t3] so3] eqn:Hu. apply Hup in Hu.
        destruct e2; injection Hx as _ <-; exact Hu. }
      destruct (so_code (se_object r)); [destruct (dirtyCode (se_object r))|]; by eapply Hk; [..|exact Hr0]. }
    destruct e1; [by injection Hr as _ <-|by eapply IH]. }
  unfold persist, Finalise, Commit. intros Hr. bind_inv Hr. destruct r as [e1 s1]. bind_inv Hr0. destruct r as [e0 s0].
  apply Hfin in Hr1. destruct e0; injection Hr0 as <- <-; [by injection Hr as _ <-|].
  bind_inv Hr. destruct r as [[h e2] s2]. bind_inv Hr0. destruct r as [e3 s3]. apply Hcom in Hr2.
  injection Hr0 as _ -> <-. injection Hr as _ <-. cbn in *. congruence.
Qed.

End Spec.
End TransitionSpec.
