(* ===== verification/EvmMain.v ===== *)
(** The properties of a transaction's state transition and of a block of
    them: gas, simulation, nonces, logs and blooms, block hashes. *)
From S2P Require Import Prelude.
From S2P Require Import Interfaces.
From S2P Require Import StateObject.
From S2P Require Import Journal.
From S2P Require Import AccessList.
From S2P Require Import StateDB.
From S2P Require Import StateObjectSpec.
From S2P Require Import StateDBInv.
From S2P Require Import StateDBRevert.
From S2P Require Import StateDBUndo.
From S2P Require Import StateDBSnapshot.
From S2P Require Import StateDBCommit.
From S2P Require Import StateDBLogs.
From stdpp Require Import sorting.
From S2P Require Import EthMsg.
From S2P Require Import ChainID.
From S2P Require Import Ante.
From S2P Require Import Transition.
From S2P Require Import EvmKeeper.
From S2P Require Import TransitionSpec.
Import StateObject Journal StateDB StateObjectSpec StateDBInv StateDBRevert StateDBUndo StateDBSnapshot StateDBCommit StateDBLogs.
Import Transition EvmKeeper TransitionSpec.

Module EvmMain.
Section Transitions.
Context {St AK C G : Type} `{KVStore St, SdkCoins C, AccountKeeper AK C, Keccak, SdkConfig}.
Context `{GasMeters G, GasTable, VM, EthTypes, ResultCodec}.
Context (BlacklistedAddr : Address -> bool).
Context `{!KVStoreLaws St, !SdkCoinsLaws C, !KeccakLaws, !AccountKeeperLaws AK C, !GasMetersLaws G, !VMLaws}.
Abbreviation csdb := (CommitStateDB St AK C).
Implicit Types (s : csdb) (st : StateTransition) (m : G).
Abbreviation TransitionDb := (TransitionDb BlacklistedAddr).

(** ** Gas *)

Lemma message_gas hd config st g s n r s' : (0 <= g)%Z ->
  run_message hd config st g s = Ret (inr (n, r), s') -> (0 <= vm_leftOverGas r <= g)%Z.
Proof.
  intros Hg Hr. destruct (run_message_exec _ _ _ _ _ _ _ Hr) as (_ & _ & _ & Hx).
  apply (Hx n r eq_refl). unfold message_program. destruct (st_Recipient st); [by apply Call_gas|by apply Create_gas].
Qed.

(** The meter once the intrinsic gas has been charged. *)
Definition intrinsic_start (cost : Z) m : Z := Z.max (gm_GasConsumed m) cost.

Lemma charge_intrinsic cost m m1 :
  (if (gm_GasConsumed m <? cost)%Z then gm_ConsumeGas m (cost - gm_GasConsumed m)%Z "Intrinsic gas match" else Ret m) = Ret m1 ->
  gm_GasConsumed m1 = intrinsic_start cost m.
Proof.
  unfold intrinsic_start. destruct (Z.ltb_spec (gm_GasConsumed m) cost) as [Hlt|Hge].
  - intros Hc. apply gm_ConsumeGas_spec in Hc; lia.
  - intros [= <-]. lia.
Qed.

Lemma finish_result st gl gc n r s o : finish BlacklistedAddr st gl gc n r s = Ret o ->
  match o with
  | TrErr _ => True
  | TrOk exe _ _ => vm_err r = None /\ er_GasInfo exe = mkGasInfo gl gc (vm_leftOverGas r)
  end.
Proof.
  unfold finish. destruct (vm_err r); [by intros [= <-]|]. intros Hr. bind_inv Hr. bind_inv Hr. destruct r1 as [err s1].
  destruct err; [by injection Hr as <-|]. bind_inv Hr. destruct (EncodeResultData _); by injection Hr as <-.
Qed.

(** What [TransitionDb] does, by the outcome of the message. *)
Lemma TransitionDb_inv hd config st s m cost out m' :
  IntrinsicGas (st_Payload st) (bool_decide (st_Recipient st = None)) (IsHomestead config) (IsIstanbul config) = Some cost ->
  TransitionDb hd config st s m = Ret (out, m') ->
  exists m1, gm_GasConsumed m1 = intrinsic_start cost m /\
  let g := u64 (st_GasLimit st - intrinsic_start cost m) in
  match run_message hd config st g s with
  | Panic (PanicAddr a) => out = TrErr (ErrCallBlockedContract a) /\ m' = m1
  | Panic _ => False
  | Ret (inl e, _) => out = TrErr e /\ m' = m1
  | Ret (inr (n, r), s1) =>
      gm_ConsumeGas m1 (u64 (g - vm_leftOverGas r)) "EVM execution consumption" = Ret m' /\
      match finish BlacklistedAddr st g (u64 (g - vm_leftOverGas r)) n r s1 with
      | Ret o => out = o
      | Panic (PanicAddr a) => out = TrErr (ErrCallBlockedContract a)
      | Panic _ => False
      end
  end.
Proof.
  intros Hi Ht. unfold Transition.TransitionDb in Ht. rewrite Hi in Ht. bind_inv Ht. apply charge_intrinsic in Ht0.
  exists r. split; [done|]. rewrite <- Ht0. cbv zeta in *.
  destruct (run_message _ _ _ _ _) as [[[e|[n vr]] s1]|p]; [by injection Ht as <- <-| |].
  - bind_inv Ht. destruct (finish _ _ _ _ _ _ _) as [o|[]]; injection Ht as <- <- || done; done.
  - destruct p; by simplify_eq.
Qed.

Lemma u64_small x : (0 <= x < 2 ^ 64)%Z -> u64 x = x.
Proof. intros Hx. unfold u64. by apply Z.mod_small. Qed.

(** C12: gas.  The meter starts at the larger of what was consumed and
    the intrinsic gas.  Once the machine has returned, in whatever way the
    transaction ends, exactly what the machine used is charged on top; so
    the total stays between that start and the gas limit.  The result says
    the same: consumed and refunded gas add up to the limit that was left.
    When the machine does not run, only the intrinsic gas is charged. *)
Theorem TransitionDb_gas hd config st s m cost out m' :
  IntrinsicGas (st_Payload st) (bool_decide (st_Recipient st = None)) (IsHomestead config) (IsIstanbul config) = Some cost ->
  (0 <= gm_GasConsumed m)%Z -> (Z.max (gm_GasConsumed m) cost <= st_GasLimit st < 2 ^ 64)%Z ->
  TransitionDb hd config st s m = Ret (out, m') ->
  let left := (st_GasLimit st - Z.max (gm_GasConsumed m) cost)%Z in
  gm_GasConsumed m' = match run_message hd config st left s with
                      | Ret (inr (_, r), _) => (st_GasLimit st - vm_leftOverGas r)%Z
                      | _ => Z.max (gm_GasConsumed m) cost
                      end /\
  (Z.max (gm_GasConsumed m) cost <= gm_GasConsumed m' <= st_GasLimit st)%Z /\
  match out with
  | TrOk exe _ _ =>
      let g := er_GasInfo exe in
      gi_GasLimit g = left /\ (gi_GasConsumed g + gi_GasRefunded g = left)%Z /\
      (0 <= gi_GasConsumed g)%Z /\ (0 <= gi_GasRefunded g)%Z /\
      gm_GasConsumed m' = (Z.max (gm_GasConsumed m) cost + gi_GasConsumed g)%Z
  | TrErr _ => True
  end.
Proof.
  intros Hi Hm Hl Ht left. destruct (TransitionDb_inv _ _ _ _ _ _ _ _ Hi Ht) as (m1 & Hm1 & Hcase).
  unfold intrinsic_start in *. fold left in Hcase. rewrite (u64_small left) in Hcase by lia. cbv zeta in Hcase.
  destruct (run_message hd config st left s) as [[[e|[n r]] s1]|p] eqn:Hr.
  - destruct Hcase as [-> ->]. split; [done|]. split; [lia|done].
  - apply message_gas in Hr; [|lia]. destruct Hcase as [Hc Hf]. rewrite u64_small in Hc, Hf by lia.
    apply gm_ConsumeGas_spec in Hc; [|lia]. split; [lia|]. split; [lia|].
    destruct (finish _ _ _ _ _ _ _) as [o|[]] eqn:Hfin; try done; subst out; [|done].
    apply finish_result in Hfin. destruct o; [done|]. destruct Hfin as [_ ->]. cbn. lia.
  - destruct p; try done. destruct Hcase as [-> ->]. split; [done|]. split; [lia|done].
Qed.

(** ** A message of the handler *)

Context {PrivateKey : Type} `{TxHashing, ConfigCodec, Rlp, EthCrypto PrivateKey}.
Implicit Types (sto : Stores St AK) (k : Keeper) (tc : TxCtx G).

Definition keeper_ok (k : Keeper) : Prop := (0 <= LogSize k < u64_modulus)%Z.
Definition stores_ok (sto : Stores St AK) : Prop := forall a acc, GetAccount (sto_ak sto) a = Some (AEth acc) -> account_ok acc.
Definition opened (h : Hash) (sim : bool) (sto : Stores St AK) (k : Keeper) : csdb := (prepare_db h sim sto k).1.

Lemma opened_wf h (sim : bool) sto k : stores_ok sto -> keeper_ok k ->
  let s := (StateDB.GetParams (opened h sim sto k)).2 in wf s /\ revs_wf s /\ above (-1) s.
Proof.
  intros Ha Hk. destruct (empty_wf (sto_kv sto) (sto_ak sto) (sto_ps sto) Ha) as [[[O1 O2 O3] [S1 S2 S3 S4 S5]] [R1 R2]].
  unfold opened, prepare_db. destruct sim; cbn; (split_and!;
    [split; split; first [exact O1|exact O2|exact O3|exact S1|exact S2|exact S3|exact S4|exact S5|exact Hk]
    |split; [exact R1|exact R2]|intros s1 i r _ _ _; split; [apply Nat.le_0_l|apply prefix_nil]]).
Qed.

Lemma opened_log_ok h (sim : bool) sto k : (sim = false -> keeper_ok k) ->
  log_ok (if sim then 0%Z else LogSize k) (opened h sim sto k).
Proof.
  intros Hk. unfold opened, prepare_db. destruct sim; split; cbn; try done.
  rewrite Z.add_0_r. symmetry. by apply u64_small, Hk.
Qed.

Lemma opened_stores h sim sto k : let s := opened h sim sto k in
  kvstore s = sto_kv sto /\ accounts s = sto_ak sto /\ paramSpace s = sto_ps sto.
Proof. unfold opened, prepare_db. by destruct sim. Qed.

(** The nonce the machine's run leaves is replaced by the one before it. *)
Lemma message_wf hd config st g h sim sto k x s1 : stores_ok sto -> keeper_ok k -> address_ok (st_Sender st) ->
  vm_ok (message_program hd config st g (opened h sim sto k)) ->
  run_message hd config st g (opened h sim sto k) = Ret (x, s1) -> wf s1.
Proof.
  intros Hsto Hk Ha Hvm Hr. destruct (run_message_exec _ _ _ _ _ _ _ Hr) as (ops & He & Hok & _).
  destruct (opened_wf h sim sto k Hsto Hk) as (Hw & Hrev & Hab).
  by apply (exec_all_wf ops _ s1 Hw Hrev Hab (Hok Ha Hvm)).
Qed.

Lemma TransitionDb_run hd config st s m cost exe data s' m' :
  IntrinsicGas (st_Payload st) (bool_decide (st_Recipient st = None)) (IsHomestead config) (IsIstanbul config) = Some cost ->
  TransitionDb hd config st s m = Ret (TrOk exe data s', m') ->
  exists gc n r s1, run_message hd config st (u64 (st_GasLimit st - intrinsic_start cost m)) s = Ret (inr (n, r), s1) /\
    finish BlacklistedAddr st (u64 (st_GasLimit st - intrinsic_start cost m)) gc n r s1 = Ret (TrOk exe data s').
Proof.
  intros Hi Ht. destruct (TransitionDb_inv _ _ _ _ _ _ _ _ Hi Ht) as (m1 & _ & Hcase). cbv zeta in Hcase.
  destruct (run_message _ _ _ _ _) as [[[e|[n r]] s1]|p]; [by destruct Hcase as [? _]| |destruct p; try done; by destruct Hcase as [? _]].
  destruct Hcase as [_ Hf]. eexists _, n, r, s1. split; [done|].
  destruct (finish _ _ _ _ _ _ _) as [o|[]] eqn:Hfin; try done. by rewrite Hfin, Hf.
Qed.
Lemma TransitionDb_intrinsic hd config st s m exe data s' m' :
  TransitionDb hd config st s m = Ret (TrOk exe data s', m') -> exists cost,
  IntrinsicGas (st_Payload st) (bool_decide (st_Recipient st = None)) (IsHomestead config) (IsIstanbul config) = Some cost.
Proof. unfold Transition.TransitionDb. destruct (IntrinsicGas _ _ _ _); [eauto|done]. Qed.

Lemma finish_inv st g gc n r s1 exe data s' : finish BlacklistedAddr st g gc n r s1 = Ret (TrOk exe data s') ->
  exists s2, SetNonce s1 (st_Sender st) n = Ret s2 /\
    er_Logs exe = rd_Logs data /\ er_Bloom exe = rd_Bloom data /\ st_TxHash st = Some (rd_TxHash data) /\
    if st_Simulate st then s' = s2 /\ rd_Logs data = [] /\ rd_Bloom data = 0%Z
    else persist BlacklistedAddr s2 = Ret (None, s') /\ rd_Logs data = GetLogs s2 /\ rd_Bloom data = LogsBloom (GetLogs s2).
Proof.
  unfold finish. destruct (vm_err r); [done|]. intros Hf. bind_inv Hf. exists r0. split; [done|].
  destruct (st_Simulate st); cbn [negb] in Hf; rewrite ?andb_false_r, ?andb_true_r in Hf.
  - cbn [mbind res_bind] in Hf. bind_inv Hf. destruct (EncodeResultData _); [|done]. injection Hf as <- <- <-.
    destruct (st_TxHash st); [|done]. by injection Hf1 as ->.
  - bind_inv Hf. destruct r1 as [err s3]. destruct err; [done|]. bind_inv Hf. destruct (EncodeResultData _); [|done].
    injection Hf as <- <- <-. destruct (st_TxHash st); [|done]. by injection Hf2 as ->.
Qed.

Lemma opened_nonce h sim sto k a acc : GetAccount (sto_ak sto) a = Some (AEth acc) ->
  observe (QNonce a) (StateDB.GetParams (opened h sim sto k)).2 = Ret (VZ (acc_Sequence acc)).
Proof.
  intros Hacc. assert (lookup_obj (StateDB.GetParams (opened h sim sto k)).2 a = load (sto_ak sto) a) as Hl
    by (unfold opened, prepare_db; by destruct sim).
  unfold observe, observe_obj. rewrite Hl. unfold load. rewrite Hacc. cbn. unfold Nonce. cbn. by destruct (acc_CodeHash acc).
Qed.

Lemma message_nonce hd config st g h sim sto k acc n r s1 : stores_ok sto -> keeper_ok k ->
  GetAccount (sto_ak sto) (st_Sender st) = Some (AEth acc) ->
  run_message hd config st g (opened h sim sto k) = Ret (inr (n, r), s1) -> n = acc_Sequence acc.
Proof.
  intros Hsto Hk Hacc Hr. destruct (run_message_exec _ _ _ _ _ _ _ Hr) as (_ & _ & _ & Hn).
  destruct (Hn n r eq_refl) as [Hnonce _]. destruct (opened_wf h sim sto k Hsto Hk) as (Hw & _).
  destruct (read_is_observe _ (QNonce (st_Sender st)) Hw) as [Hro _]. rewrite Hnonce, (opened_nonce _ _ _ _ _ acc Hacc) in Hro.
  by injection Hro.
Qed.

Lemma finish_nonce st g gc n r s1 exe data s' : wf s1 -> address_ok (st_Sender st) -> st_Simulate st = false ->
  finish BlacklistedAddr st g gc n r s1 = Ret (TrOk exe data s') ->
  match GetAccount (accounts s') (st_Sender st) with
  | Some (AEth acc') => acc_Sequence acc' = n
  | Some (AOther _) => False
  | None => n = 0%Z \/ observe (QHasSuicided (st_Sender st)) s1 = Ret (VBool true)
  end.
Proof.
  intros Hw1 Ha Hsim Hfin. destruct (finish_inv _ _ _ _ _ _ _ _ _ Hfin) as (s2 & Hs2 & _ & _ & _ & Hp).
  rewrite Hsim in Hp. destruct Hp as (Hp & _).
  destruct (SetNonce_effect _ _ _ _ Hw1 Ha Hs2) as (Hw2 & Hd & so & Hc & Hseq & Hsui).
  unfold persist in Hp. bind_inv Hp. destruct r0 as [[e|] s4]; [done|]. bind_inv Hp. destruct r0 as [[hh e] s5].
  injection Hp as He <-. destruct e; [done|].
  pose proof (persist_account BlacklistedAddr true _ _ _ _ _ so (proj1 Hw2) (wf_journal _ (proj2 Hw2)) Hp0 Hp1 Hd Hc) as Hacc.
  unfold dead in Hacc. destruct (suicided so) eqn:Hs.
  - cbn in Hacc. rewrite Hacc. right. by apply Hsui.
  - cbn [orb andb] in Hacc. destruct (so_empty so) eqn:Hem.
    + rewrite Hacc. left. unfold so_empty in Hem. rewrite !andb_true_iff, Z.eqb_eq in Hem. destruct Hem as [[Hz _] _]. congruence.
    + destruct Hacc as (c & -> & _). exact Hseq.
Qed.

(** C13: after a delivered transaction that succeeds, the account of the
    sender has the sequence it had before (the ante handler has already
    counted the transaction), whatever contracts did to its nonce on the
    way.  The account can only be missing when it was empty or destroyed
    itself. *)
Theorem TransitionDb_nonce hd config st h sto k m cost acc exe data s' m' :
  stores_ok sto -> keeper_ok k -> address_ok (st_Sender st) -> st_Simulate st = false ->
  GetAccount (sto_ak sto) (st_Sender st) = Some (AEth acc) ->
  IntrinsicGas (st_Payload st) (bool_decide (st_Recipient st = None)) (IsHomestead config) (IsIstanbul config) = Some cost ->
  let s := opened h false sto k in
  let g := u64 (st_GasLimit st - Z.max (gm_GasConsumed m) cost) in
  vm_ok (message_program hd config st g s) ->
  TransitionDb hd config st s m = Ret (TrOk exe data s', m') ->
  match GetAccount (accounts s') (st_Sender st) with
  | Some (AEth acc') => acc_Sequence acc' = acc_Sequence acc
  | Some (AOther _) => False
  | None => acc_Sequence acc = 0%Z \/
            exists x s1, run_message hd config st g s = Ret (x, s1) /\ observe (QHasSuicided (st_Sender st)) s1 = Ret (VBool true)
  end.
Proof.
  intros Hsto Hk Ha Hsim Hacc Hi s g Hvm Ht.
  destruct (TransitionDb_run _ _ _ _ _ _ _ _ _ _ Hi Ht) as (gc & n & r & s1 & Hr & Hfin).
  pose proof (message_wf _ _ _ _ _ _ _ _ _ _ Hsto Hk Ha Hvm Hr) as Hw1.
  rewrite <- (message_nonce _ _ _ _ _ _ _ _ _ _ _ _ Hsto Hk Hacc Hr).
  pose proof (finish_nonce _ _ _ _ _ _ _ _ _ Hw1 Ha Hsim Hfin) as Hf.
  destruct (GetAccount (accounts s') _) as [[]|]; [exact Hf|exact Hf|]. destruct Hf as [Hf|Hf]; [by left|right].
  exists (inr (n, r)), s1. by split.
Qed.

(** ** Checking a transaction *)

Lemma calm_SetNonce s a n s' : SetNonce s a n = Ret s' -> calm s s'.
Proof. intros Hr. eapply calm_on_object; [apply SetNonce_calm|exact Hr]. Qed.

Abbreviation run_transition := (run_transition BlacklistedAddr).
Abbreviation NewHandler := (NewHandler BlacklistedAddr).

(** Every handler either refuses before touching the keeper, or runs the
    transition of the message in the mode of the context. *)
Lemma handler_cases tc sto k msg k' r : NewHandler tc sto k msg = (k', r) ->
  (k' = k /\ match r with Ret (inr _, _) => False | _ => True end) \/
  exists st h, run_transition tc st h sto k = (k', r) /\ st_Simulate st = IsCheckTx (tc_ctx tc) /\ st_TxHash st = Some h.
Proof.
  destruct msg as [msg|msg|]; cbn [EvmKeeper.NewHandler]; unfold handleMsgEthereumTx, handleMsgEthermint.
  - destruct (ChainID.ParseChainID _) as [chain|]; [|by intros [= <- <-]; left].
    destruct (EthMsg.VerifySig _ _) as [[[a|e] msg']|p]; [|by intros [= <- <-]; left..].
    intros Hr. right. eexists _, _. split; [exact Hr|done].
  - destruct (_ && _); [by intros [= <- <-]; left|].
    destruct (ChainID.ParseChainID _) as [chain|]; [|by intros [= <- <-]; left].
    intros Hr. right. eexists _, _. split; [exact Hr|done].
  - intros [= <- <-]. by left.
Qed.

(** C14: checking or simulating a message.  The keeper is the same,
    whatever the outcome.  On success the module's store and parameters are
    the same, every account is found as before, and no logs are reported; of
    the account store only the counter of account numbers may have moved on,
    since an account asked for and not stored takes a number
    ([ak_equiv] compares what [GetAccount] finds).  On failure no stores are
    returned at all. *)
Theorem CheckTx_no_effect tc sto k msg k' r :
  IsCheckTx (tc_ctx tc) = true -> NewHandler tc sto k msg = (k', r) ->
  k' = k /\
  forall exe data sto' m', r = Ret (inr (exe, data, sto'), m') ->
    sto_kv sto' = sto_kv sto /\ ak_equiv (sto_ak sto) (sto_ak sto') /\ sto_ps sto' = sto_ps sto /\
    er_Logs exe = [] /\ er_Bloom exe = 0%Z /\ rd_Logs data = [].
Proof.
  intros Hcheck Hr. destruct (handler_cases _ _ _ _ _ _ Hr) as [[-> Hno]|(st & h & Hrun & Hsim & Hh)].
  { split; [done|]. by intros exe data sto' m' ->. }
  rewrite Hcheck in Hsim. unfold EvmKeeper.run_transition in Hrun. rewrite Hsim in Hrun. cbn [prepare_db] in Hrun.
  destruct (GetChainConfig _) as [[config|]|p]; [|by injection Hrun as <- <-..].
  change (CreateEmptyCommitStateDB (sto_kv sto) (sto_ak sto) (sto_ps sto)) with (opened h true sto k) in Hrun.
  destruct (Transition.TransitionDb _ _ _ _ _ _) as [[[e|exe data s'] m']|p] eqn:Ht; [by injection Hrun as <- <-| |by injection Hrun as <- <-].
  injection Hrun as <- <-. split; [done|]. intros exe' data' sto' m2 [= <- <- <- _].
  destruct (TransitionDb_intrinsic _ _ _ _ _ _ _ _ _ Ht) as [cost Hcost].
  destruct (TransitionDb_run _ _ _ _ _ _ _ _ _ _ Hcost Ht) as (gc & n & vr & s1 & Hmsg & Hf).
  destruct (finish_inv _ _ _ _ _ _ _ _ _ Hf) as (s2 & Hs2 & Hl & Hb & _ & Hfin). rewrite Hsim in Hfin.
  destruct Hfin as (-> & Hl0 & Hb0).
  assert (log_ok 0 (opened h true sto k)) as Hlog by (by apply (opened_log_ok h true)).
  destruct (run_message_kept 0 _ _ _ _ _ _ _ Hlog Hmsg) as [Hk Hok].
  pose proof (kept_trans 0 _ _ _ Hk (kept_calm 0 _ _ (calm_SetNonce _ _ _ _ Hs2))) as [Hctx Hak _].
  unfold ctxv in Hctx. injection Hctx as Hkv Hps _ _ _ _. cbn. rewrite Hl, Hb, Hl0, Hb0. done.
Qed.

(** ** A block of messages *)


(** What a message delivered with the keeper [k] does to it, and what a
    successful one reports. *)
Record receipt_ok (k k' : Keeper) (d : ResultData) : Prop := {
  rc_count : TxCount k' = int64_of (TxCount k + 1);
  rc_bloom : Bloom k' = Z.lor (Bloom k) (rd_Bloom d);
  rc_logsbloom : rd_Bloom d = LogsBloom (rd_Logs d);
  rc_size : LogSize k' = u64 (LogSize k + Z.of_nat (length (rd_Logs d)));
  rc_logs i l : rd_Logs d !! i = Some l ->
    log_Index l = u64 (LogSize k + Z.of_nat i) /\ log_TxHash l = rd_TxHash d /\ log_BlockHash l = Bhash k /\
    log_TxIndex l = u64 (TxCount k);
}.
Definition failed_keeper (k k' : Keeper) : Prop := k' = k \/ k' = k <| TxCount := int64_of (TxCount k + 1) |>.

Lemma deliver_step tc sto k msg k' r : IsCheckTx (tc_ctx tc) = false -> keeper_ok k -> NewHandler tc sto k msg = (k', r) ->
  Bhash k' = Bhash k /\
  match r with
  | Ret (inr (_, data, _), _) => receipt_ok k k' data
  | _ => failed_keeper k k'
  end.
Proof.
  intros Hdel Hk Hr. unfold failed_keeper. destruct (handler_cases _ _ _ _ _ _ Hr) as [[-> Hno]|(st & h & Hrun & Hsim & Hh)].
  { split; [done|]. destruct r as [[[e|[[exe data] sto']] m]|p]; [by left|done|by left]. }
  rewrite Hdel in Hsim. unfold EvmKeeper.run_transition in Hrun. rewrite Hsim in Hrun. cbn [prepare_db] in Hrun.
  destruct (GetChainConfig _) as [[config|]|p]; [|by injection Hrun as <- <-; (split; [done|]); right..].
  set (s0 := SetLogSize _ _) in Hrun. change s0 with (opened h false sto k) in Hrun.
  destruct (Transition.TransitionDb _ _ _ _ _ _) as [[[e|exe data s'] m']|p] eqn:Ht;
    [by injection Hrun as <- <-; (split; [done|]); right| |by injection Hrun as <- <-; (split; [done|]); right].
  injection Hrun as <- <-. split; [done|].
  destruct (TransitionDb_intrinsic _ _ _ _ _ _ _ _ _ Ht) as [cost Hcost].
  destruct (TransitionDb_run _ _ _ _ _ _ _ _ _ _ Hcost Ht) as (gc & n & vr & s1 & Hmsg & Hf).
  destruct (finish_inv _ _ _ _ _ _ _ _ _ Hf) as (s2 & Hs2 & Hl & Hb & Hth & Hfin). rewrite Hsim in Hfin.
  destruct Hfin as (Hp & Hlogs & Hbl). rewrite Hh in Hth. injection Hth as Hth.
  pose proof (opened_log_ok h false sto k (fun _ => Hk)) as Hlog. cbv iota in Hlog.
  destruct (run_message_kept (LogSize k) _ _ _ _ _ _ _ Hlog Hmsg) as [Hk1 Hok].
  pose proof (calm_SetNonce _ _ _ _ Hs2) as Hcalm. pose proof (log_ok_calm _ _ _ Hcalm Hok) as [_ Hsz Hix].
  pose proof (kept_trans _ _ _ _ Hk1 (kept_calm (LogSize k) _ _ Hcalm)) as [Hctx _ _].
  unfold ctxv in Hctx. injection Hctx as _ _ Hth2 Hbh Hti _. unfold GetLogs in *.
  split; cbn [TxCount Bloom LogSize Bhash set Keeper_eta].
  - done.
  - cbn. by rewrite Hb.
  - by rewrite Hbl, Hlogs.
  - cbn. unfold GetLogSize. rewrite (persist_logSize _ _ _ _ Hp), Hsz, Hlogs. done.
  - intros i l Hi. rewrite Hlogs in Hi. destruct (Hix i l Hi) as (-> & -> & -> & ->).
    rewrite Hth2, Hbh, Hti. cbn. rewrite Hth. done.
Qed.

(** The messages of a block one after the other; between them the stores
    change as they may.  The results carry the transaction's number. *)
Fixpoint deliver_all (l : list (TxCtx G * Stores St AK * evm_msg)) k : Keeper * list (Z * ResultData) :=
  match l with
  | [] => (k, [])
  | (tc, sto, msg) :: l' =>
      let '(k1, r) := NewHandler tc sto k msg in
      let '(k2, rs) := deliver_all l' k1 in
      (k2, match r with Ret (inr (_, data, _), _) => (TxCount k, data) :: rs | _ => rs end)
  end.

(** The keeper after the results [rs] of [n] messages. *)
Definition block_logs (rs : list (Z * ResultData)) : list Log := concat ((fun r => rd_Logs r.2) <$> rs).
Record block_ok (k0 k : Keeper) (n : Z) (rs : list (Z * ResultData)) : Prop := {
  bk_hash : Bhash k = Bhash k0;
  bk_count : (TxCount k0 <= TxCount k <= TxCount k0 + n)%Z;
  bk_size : LogSize k = u64 (LogSize k0 + Z.of_nat (length (block_logs rs)));
  bk_bloom : Bloom k = Z.lor (Bloom k0) (LogsBloom (block_logs rs));
  bk_index i l : block_logs rs !! i = Some l -> log_Index l = u64 (LogSize k0 + Z.of_nat i);
  bk_sorted : StronglySorted Z.lt rs.*1;
  bk_receipts t d : (t, d) ∈ rs -> (TxCount k0 <= t < TxCount k)%Z /\ rd_Bloom d = LogsBloom (rd_Logs d) /\
    forall l, l ∈ rd_Logs d -> log_TxIndex l = u64 t /\ log_TxHash l = rd_TxHash d /\ log_BlockHash l = Bhash k0;
}.

Context `{!EthTypesLaws}.

Lemma block_ok_cons k0 k1 k n rs d : block_ok k1 k n rs -> receipt_ok k0 k1 d -> Bhash k1 = Bhash k0 ->
  (0 <= TxCount k0 < 2 ^ 63 - 1)%Z -> block_ok k0 k (n + 1) ((TxCount k0, d) :: rs).
Proof.
  intros [B1 B2 B3 B4 B5 B6 B7] [R1 R2 R3 R4 R5] Hh Hc. rewrite int64_small in R1 by lia.
  split; cbn [fmap list_fmap block_logs concat fst snd]; unfold block_logs in *; cbn [fmap list_fmap concat fst snd].
  - congruence.
  - lia.
  - rewrite B3, R4, u64_add, length_app. f_equal. lia.
  - rewrite B4, R2, R3, LogsBloom_app. by rewrite Z.lor_assoc.
  - intros i l [Hi|[Hge Hi]]%lookup_app_Some; [by apply R5|]. rewrite (B5 _ _ Hi), R4, u64_add. f_equal. lia.
  - constructor; [done|]. apply Forall_forall. intros t (x & -> & Hx)%list_elem_of_fmap. destruct x as [t x].
    destruct (B7 t x Hx) as [? _]. cbn. lia.
  - intros t x [Hx|Hx]%elem_of_cons.
    + injection Hx as -> ->. split; [lia|]. split; [done|]. intros l (i & Hi)%list_elem_of_lookup.
      by destruct (R5 i l Hi) as (_ & ? & ? & ?).
    + destruct (B7 t x Hx) as (? & ? & Hl). split; [lia|]. split; [done|]. intros l Hin.
      destruct (Hl l Hin) as (? & ? & ?). split_and!; congruence.
Qed.

Lemma block_ok_fail k0 k1 k n rs : block_ok k1 k n rs -> failed_keeper k0 k1 ->
  (0 <= TxCount k0 < 2 ^ 63 - 1)%Z -> block_ok k0 k (n + 1) rs.
Proof.
  intros [B1 B2 B3 B4 B5 B6 B7] Hf Hc.
  assert (Bhash k1 = Bhash k0 /\ LogSize k1 = LogSize k0 /\ Bloom k1 = Bloom k0 /\ (TxCount k0 <= TxCount k1 <= TxCount k0 + 1)%Z)
    as (E1 & E2 & E3 & E4).
  { destruct Hf as [->| ->]; [by split_and!; lia|]. cbn. rewrite int64_small by lia. split_and!; lia || done. }
  split; try congruence; try lia.
  - intros i l Hi. rewrite <- E2. by apply B5.
  - intros t x Hx. destruct (B7 t x Hx) as (? & ? & Hl). rewrite <- E1. split; [lia|done].
Qed.

Lemma deliver_all_ok l : forall k, Forall (fun x => IsCheckTx (tc_ctx x.1.1) = false) l -> keeper_ok k ->
  (0 <= TxCount k)%Z -> (TxCount k + Z.of_nat (length l) < 2 ^ 63)%Z ->
  block_ok k (deliver_all l k).1 (Z.of_nat (length l)) (deliver_all l k).2.
Proof.
  induction l as [|[[tc sto] msg] l IH]; intros k Hall Hk Hc Hlen.
  - split; cbn; rewrite ?Z.add_0_r; try lia; try done.
    + symmetry. by apply u64_small.
    + rewrite LogsBloom_nil. symmetry. apply Z.lor_0_r.
    + constructor.
    + intros t d Hin. by apply not_elem_of_nil in Hin.
  - apply Forall_cons in Hall as [Hchk Hall]. cbn [deliver_all length].
    cbn [length] in Hlen. destruct (NewHandler tc sto k msg) as [k1 r] eqn:Hh.
    destruct (deliver_step _ _ _ _ _ _ Hchk Hk Hh) as [Hbh Hstep].
    assert (keeper_ok k1 /\ (TxCount k <= TxCount k1 <= TxCount k + 1)%Z) as [Hk1 Hc1].
    { assert (int64_of (TxCount k + 1) = TxCount k + 1)%Z as Hi by (apply int64_small; lia).
      destruct r as [[[e|[[exe data] sto']] m]|p].
      - destruct Hstep as [->| ->]; [by split; [done|lia]|]. cbn. split; [done|lia].
      - destruct Hstep as [R1 _ _ R4 _]. split; [|lia]. unfold keeper_ok. rewrite R4. unfold u64. apply Z.mod_pos_bound. done.
      - destruct Hstep as [->| ->]; [by split; [done|lia]|]. cbn. split; [done|lia]. }
    specialize (IH k1 Hall Hk1 ltac:(lia) ltac:(lia)). destruct (deliver_all l k1) as [k2 rs]. cbn [fst snd] in *.
    replace (Z.of_nat (S (length l))) with (Z.of_nat (length l) + 1)%Z by lia.
    destruct r as [[[e|[[exe data] sto']] m]|p]; [eapply block_ok_fail| |eapply block_ok_fail]; try done; try lia.
    eapply block_ok_cons; try done. lia.
Qed.

(** What the end of a block stores for it. *)
Lemma EndBlock_stores height sto k ls : Bloom k = LogsBloom ls ->
  EndBlock height sto k = Ret (mkStores _ _ (SetBlockBloom (sto_kv sto) height (be_bytes 256 (LogsBloom ls))) (sto_ak sto) (sto_ps sto)).
Proof.
  intros Hb. pose proof (LogsBloom_range ls) as Hrange.
  assert (length (big_Bytes (LogsBloom ls)) <= 256) as Hbl
    by (apply EthMsg.length_big_Bytes_le; change (256 ^ Z.of_nat 256)%Z with (2 ^ 2048)%Z; lia).
  unfold EndBlock, BytesToBloom. rewrite Hb, (proj2 (Nat.ltb_ge _ _) Hbl). cbn [mbind res_bind].
  rewrite EthMsg.pad_big_Bytes; [done|]. change (256 ^ Z.of_nat 256)%Z with (2 ^ 2048)%Z. exact Hrange.
Qed.
Lemma GetBlockBloom_set (kv : St) height height' bloom : length bloom = 256 ->
  GetBlockBloom (SetBlockBloom kv height bloom) height'
  = if decide (u64 height' = u64 height) then Ret bloom else GetBlockBloom kv height'.
Proof.
  intros Hl. unfold GetBlockBloom, SetBlockBloom, kv_has. rewrite !kv_get_set.
  destruct (decide (u64 height' = u64 height)) as [Heq|Hne].
  - unfold BloomKey. rewrite Heq. rewrite decide_True by done. cbn [negb default from_option id].
    unfold BytesToBloom. by rewrite Hl, Nat.sub_diag, Nat.ltb_irrefl.
  - rewrite decide_False; [done|]. intros Hk%app_inv_head%be_bytes_inj; [by apply Hne|..];
      change (256 ^ Z.of_nat 8)%Z with u64_modulus; apply u64_range.
Qed.

(** C11: the logs of a block.  From the keeper [BeginBlock] leaves, after
    any messages, failed ones and panics among them, the logs of the
    successful transactions are numbered 0, 1, 2 and so on through the
    block, carry the block's hash and their transaction's hash and number,
    and the numbers increase.  [EndBlock] does not panic and the bloom it
    stores for the block, as [GetBlockBloom] finds it, is that of all these
    logs. *)
Theorem block_logs_consecutive req lastHash sto0 k0 l height sto :
  req_LastHash req = Some lastHash -> (1 <= req_Height req)%Z ->
  Forall (fun x => IsCheckTx (tc_ctx x.1.1) = false) l -> (Z.of_nat (length l) < 2 ^ 63)%Z ->
  let '(k, rs) := deliver_all l (BeginBlock (C := C) req sto0 k0).2 in
  let logs := concat ((fun r => rd_Logs r.2) <$> rs) in
  (forall i lg, logs !! i = Some lg -> log_Index lg = u64 (Z.of_nat i) /\ log_BlockHash lg = BytesToHash (req_Hash req)) /\
  (forall t d lg, (t, d) ∈ rs -> lg ∈ rd_Logs d ->
     log_TxIndex lg = t /\ (0 <= t < Z.of_nat (length l))%Z /\ log_TxHash lg = rd_TxHash d) /\
  StronglySorted Z.lt rs.*1 /\
  exists sto', EndBlock height sto k = Ret sto' /\
    GetBlockBloom (sto_kv sto') height = Ret (be_bytes 256 (LogsBloom logs)).
Proof.
  intros Hlast Hh Hall Hlen. unfold BeginBlock. rewrite Hlast. destruct (Z.ltb_spec (req_Height req) 1) as [|_]; [lia|].
  set (k1 := mkKeeper 0 0 _ 0). cbn [snd].
  pose proof (deliver_all_ok l k1 Hall ltac:(done) ltac:(cbn; lia) ltac:(cbn; lia)) as Hb.
  destruct (deliver_all l k1) as [k rs]. cbn [fst snd] in Hb. destruct Hb as [B1 B2 B3 B4 B5 B6 B7].
  fold (block_logs rs) in *. split_and!.
  - intros i lg Hi. split; [by rewrite (B5 i lg Hi)|].
    apply list_elem_of_lookup_2 in Hi. apply list_elem_of_In, in_concat in Hi as (ls & Hls & Hlg).
    apply list_elem_of_In in Hls as (x & -> & Hx)%list_elem_of_fmap. apply list_elem_of_In in Hlg.
    destruct x as [t d]. by destruct (B7 t d Hx) as (_ & _ & Hl); destruct (Hl lg Hlg) as (_ & _ & ->).
  - intros t d lg Hin Hlg. destruct (B7 t d Hin) as (Ht & _ & Hl). destruct (Hl lg Hlg) as (-> & -> & _).
    cbn in B2, Ht. split; [apply u64_small; lia|]. split; [lia|done].
  - done.
  - cbn in B4. rewrite (EndBlock_stores _ _ _ (block_logs rs)) by (by rewrite B4). eexists. split; [done|].
    cbn [sto_kv]. rewrite GetBlockBloom_set by apply length_be_bytes. by rewrite decide_True.
Qed.

(** ** Block hashes *)

Lemma HeightHashKey_inj i j : (0 <= i < 2 ^ 64)%Z -> (0 <= j < 2 ^ 64)%Z ->
  KeyPrefixHeightHash ++ HeightHashKey i = KeyPrefixHeightHash ++ HeightHashKey j -> i = j.
Proof.
  intros Hi Hj Heq%app_inv_head. unfold HeightHashKey in Heq. apply be_bytes_inj in Heq; [done|lia..].
Qed.

(** The hashes found after the writes of [BeginBlock]. *)
Lemma recorded_hash s sto hash lastHash i j :
  kvstore s = SetBlockHash (sto_kv (EvmKeeper.SetHeightHash (C := C) sto i hash)) lastHash i ->
  (0 <= i < 2 ^ 64)%Z -> (0 <= j < 2 ^ 64)%Z -> hash_ok hash ->
  StateDB.GetHeightHash s j = if decide (j = i) then hash else EvmKeeper.GetHeightHash (C := C) sto j.
Proof.
  intros Hs Hi Hj Hh. unfold EvmKeeper.GetHeightHash, StateDB.GetHeightHash. rewrite Hs. unfold SetBlockHash. cbn -[Hash_Bytes HeightHashKey be_bytes u64].
  rewrite kv_get_set, decide_False by (by intros [=]). rewrite kv_get_set.
  destruct (decide (j = i)) as [->|Hne].
  - rewrite decide_True by done. unfold go_len. cbn [default from_option id]. rewrite length_Hash_Bytes. by apply BytesToHash_Bytes.
  - rewrite decide_False; [done|]. intros Heq%HeightHashKey_inj; lia.
Qed.

Lemma GetBlockHash_set (kv : St) hash hash' height : (0 <= height < 2 ^ 63)%Z ->
  GetBlockHash (SetBlockHash kv hash height) hash' = if decide (hash' = hash) then Ret (height, true) else GetBlockHash kv hash'.
Proof.
  intros Hh. unfold GetBlockHash, SetBlockHash. rewrite kv_get_set. destruct (decide (hash' = hash)) as [->|Hne].
  - rewrite decide_True by done. change (go_len (Some (be_bytes 8 (u64 height)))) with 8. cbn [Nat.eqb Nat.ltb Nat.leb default from_option id].
    rewrite take_ge by (by rewrite length_be_bytes). rewrite be_value_be_bytes.
    change (256 ^ Z.of_nat 8)%Z with (2 ^ 64)%Z. rewrite (u64_small height), Z.mod_small, int64_small by lia. done.
  - by rewrite decide_False by (intros Heq%app_inv_head; congruence).
Qed.

(** Block hashes.  Once a block has begun, the machine finds the hash
    of the block itself, the hash of the block before as the header gave
    it, nothing for later blocks, and for earlier blocks what was recorded
    before; and the height of the block before is found by its hash. *)
Theorem BeginBlock_hashes req lastHash sto k hd txHash :
  req_LastHash req = Some lastHash -> (1 <= req_Height req < 2 ^ 63)%Z -> h_Height hd = req_Height req ->
  let '(sto', k') := BeginBlock (C := C) req sto k in
  let hash_of j := GetHashFn hd (opened txHash false sto' k') j in
  hash_of (req_Height req) = BytesToHash (req_Hash req) /\
  hash_of (req_Height req - 1)%Z = BytesToHash lastHash /\
  (forall j, (req_Height req < j < 2 ^ 63)%Z -> hash_of j = 0%N) /\
  (forall j, (0 <= j < req_Height req - 1)%Z -> hash_of j = EvmKeeper.GetHeightHash (C := C) sto j) /\
  GetBlockHash (sto_kv sto') lastHash = Ret ((req_Height req - 1)%Z, true).
Proof.
  intros Hlast Hh Hhd. unfold BeginBlock. rewrite Hlast. destruct (Z.ltb_spec (req_Height req) 1) as [|_]; [lia|].
  set (h := req_Height req) in *. rewrite (u64_small (h - 1)) by lia. cbv zeta. unfold GetHashFn. rewrite Hhd. fold h.
  assert (kvstore (opened txHash false (mkStores St AK (SetBlockHash (sto_kv (EvmKeeper.SetHeightHash (C := C) sto (h - 1) (BytesToHash lastHash))) lastHash (h - 1)) (sto_ak sto) (sto_ps sto)) (mkKeeper 0 0 (BytesToHash (req_Hash req)) 0))
    = SetBlockHash (sto_kv (EvmKeeper.SetHeightHash (C := C) sto (h - 1) (BytesToHash lastHash))) lastHash (h - 1)) as Hkv by done.
  split_and!.
  - by rewrite int64_small, Z.eqb_refl by lia.
  - rewrite int64_small by lia. destruct (Z.eqb_spec h (h - 1)); [lia|]. destruct (Z.ltb_spec (h - 1) h); [|lia].
    rewrite (recorded_hash _ _ _ _ _ _ Hkv), decide_True by first [lia|apply BytesToHash_ok|done]. done.
  - intros j Hj. rewrite int64_small by lia. destruct (Z.eqb_spec h j); [lia|]. destruct (Z.ltb_spec j h); [lia|done].
  - intros j Hj. rewrite int64_small by lia. destruct (Z.eqb_spec h j); [lia|]. destruct (Z.ltb_spec j h); [|lia].
    rewrite (recorded_hash _ _ _ _ _ _ Hkv), decide_False by first [lia|apply BytesToHash_ok]. done.
  - cbn [sto_kv]. rewrite GetBlockHash_set by lia. by rewrite decide_True.
Qed.

End Transitions.
End EvmMain.
