(* ===== verification/EvmBlocked.v ===== *)
(** Calls of blocked contracts.

    [CommitStateDB.GetCode] panics with the address of a contract on the
    blocked list, and [TransitionDb] turns that panic into an error.  No
    other operation of the database panics with an address ([quiet]), so
    that error means exactly that the machine came to ask for the code of a
    listed contract ([asks_code]). *)
From S2P Require Import Prelude.
From S2P Require Import Interfaces.
From S2P Require Import StateObject.
From S2P Require Import Account.
From S2P Require Import Journal.
From S2P Require Import AccessList.
From S2P Require Import StateDB.
From S2P Require Import StateObjectSpec.
From S2P Require Import StateDBInv.
From S2P Require Import StateDBSnapshot.
From S2P Require Import StateDBLogs.
From S2P Require Import Ante.
From S2P Require Import Transition.
From S2P Require Import EvmKeeper.
From S2P Require Import TransitionSpec.
From S2P Require Import EvmMain.
Import StateObject Journal StateDB StateDBSnapshot StateDBLogs Transition EvmKeeper TransitionSpec EvmMain.

Module EvmBlocked.

(** ** Panics other than with an address *)

Definition quiet {A} (r : res A) : Prop := match r with Panic (PanicAddr _) => False | _ => True end.

Lemma quiet_bind {A B} (r : res A) (k : A -> res B) : quiet r -> (forall x, quiet (k x)) -> quiet (r ≫= k).
Proof. destruct r as [|[]]; cbn; auto. Qed.
Lemma quiet_index {A} (o : option A) : quiet (index_or_panic o).
Proof. by destruct o. Qed.
Lemma quiet_deref {A} (o : option A) : quiet (deref o).
Proof. by destruct o. Qed.

Create HintDb quiet.
#[local] Hint Resolve quiet_index quiet_deref : quiet.
Ltac quiet :=
  repeat first [exact I | progress intros | solve [auto with quiet] | apply quiet_bind | progress cbn [quiet] | case_match].

Section Quiet.
Context {St AK C : Type} `{KVStore St, SdkCoins C, AccountKeeper AK C, Keccak, SdkConfig}.
Abbreviation csdb := (CommitStateDB St AK C).
Implicit Types (s : csdb) (so : stateObject C) (j : journal C) (e : journalEntry C).

Lemma quiet_account_SetBalance (acc : EthAccount C) d x : quiet (Account.SetBalance acc d x).
Proof. unfold Account.SetBalance. quiet. Qed.
#[local] Hint Resolve quiet_account_SetBalance : quiet.
Lemma quiet_newStateObject (acc : Account C) : quiet (newStateObject acc).
Proof. unfold newStateObject. quiet. Qed.
Lemma quiet_setState so k v : quiet (setState so k v).
Proof. unfold setState. quiet. Qed.
Lemma quiet_setBalance so d x : quiet (setBalance so d x).
Proof. unfold setBalance. quiet. Qed.
Lemma quiet_so_GetCommitted (kv : St) so k : quiet (StateObject.GetCommittedState kv so k).
Proof. unfold StateObject.GetCommittedState. quiet. Qed.
#[local] Hint Resolve quiet_newStateObject quiet_setState quiet_setBalance quiet_so_GetCommitted : quiet.
Lemma quiet_so_GetState (kv : St) so k : quiet (so_GetState kv so k).
Proof. unfold so_GetState. quiet. Qed.
#[local] Hint Resolve quiet_so_GetState : quiet.

Lemma quiet_bump i x j : quiet (bump i x j).
Proof. unfold bump. quiet. Qed.
#[local] Hint Resolve quiet_bump : quiet.
Lemma quiet_addDirty j a : quiet (addDirty j a).
Proof. unfold addDirty. quiet. Qed.
#[local] Hint Resolve quiet_addDirty : quiet.
Lemma quiet_append j e : quiet (append j e).
Proof. unfold append. quiet. Qed.
Lemma quiet_undirty j e : quiet (undirty j e).
Proof. unfold undirty, substractDirty, getDirty, deleteDirty. quiet. Qed.
#[local] Hint Resolve quiet_append quiet_undirty : quiet.

Lemma quiet_SO_SetState (kv : St) k v j so : quiet (SO.SetState kv k v j so).
Proof. unfold SO.SetState. quiet. Qed.
Lemma quiet_SO_SetCode (kv : St) h c j so : quiet (SO.SetCode kv h c j so).
Proof. unfold SO.SetCode. quiet. Qed.
Lemma quiet_SO_SetBalance x j so : quiet (SO.SetBalance x j so).
Proof. unfold SO.SetBalance. quiet. Qed.
#[local] Hint Resolve quiet_SO_SetState quiet_SO_SetCode quiet_SO_SetBalance : quiet.
Lemma quiet_SO_AddBalance x j so : quiet (SO.AddBalance x j so).
Proof. unfold SO.AddBalance, SO.touch, dirty_explicit. quiet. Qed.
Lemma quiet_SO_SubBalance x j so : quiet (SO.SubBalance x j so).
Proof. unfold SO.SubBalance. quiet. Qed.
Lemma quiet_SO_SetNonce n j so : quiet (SO.SetNonce n j so).
Proof. unfold SO.SetNonce. quiet. Qed.
#[local] Hint Resolve quiet_SO_AddBalance quiet_SO_SubBalance quiet_SO_SetNonce : quiet.

Lemma quiet_setStateObject s so : quiet (setStateObject s so).
Proof. unfold setStateObject. quiet. Qed.
#[local] Hint Resolve quiet_setStateObject : quiet.
Lemma quiet_getStateObject s a : quiet (getStateObject s a).
Proof. unfold getStateObject. quiet. Qed.
Lemma quiet_jappend s e : quiet (jappend s e).
Proof. unfold jappend. quiet. Qed.
#[local] Hint Resolve quiet_getStateObject quiet_jappend : quiet.
Lemma quiet_createObject s a : quiet (createObject s a).
Proof. unfold createObject. quiet. Qed.
#[local] Hint Resolve quiet_createObject : quiet.
Lemma quiet_GetOrNew s a : quiet (GetOrNewStateObject s a).
Proof. unfold GetOrNewStateObject. quiet. Qed.
#[local] Hint Resolve quiet_GetOrNew : quiet.
Lemma quiet_on_object s a f : (forall j so, quiet (f j so)) -> quiet (on_object s a f).
Proof. intros Hf. unfold on_object. quiet. Qed.

Lemma quiet_object_Code s so : quiet (object_Code s so).
Proof. unfold object_Code. quiet. Qed.
#[local] Hint Resolve quiet_object_Code : quiet.
Lemma quiet_answer {X} (mk : X -> value) (r : res (X * csdb)) : quiet r -> quiet (answer mk r).
Proof. intros Hr. unfold answer. quiet. Qed.

(** Of the getters only [GetCode] panics with an address. *)
Lemma quiet_read q s : (forall a, q ≠ QCode a) -> quiet (read q s).
Proof.
  intros Hq. destruct q; try (by destruct (Hq a)); cbn [read];
    unfold SlotInAccessList, AccessList.Contains, GetBalance, GetNonce, GetCodeSize, GetCodeHash, GetState, GetCommittedState,
      HasSuicided, Empty, Exist; try apply quiet_answer; quiet.
Qed.

Lemma quiet_revert_entry e s : quiet (revert_entry e s).
Proof. destruct e; cbn [revert_entry]; unfold AccessList.DeleteSlot; quiet. Qed.
Lemma quiet_revert_loop n i s : quiet (revert_loop n i s).
Proof.
  revert s. induction n as [|n IH]; intros s; cbn [revert_loop]; [done|].
  apply quiet_bind; [apply quiet_index|intros e]. apply quiet_bind; [apply quiet_revert_entry|quiet].
Qed.
#[local] Hint Resolve quiet_revert_loop : quiet.

(** A step of the machine panics with an address exactly when it asks for
    the code of a listed contract. *)
Lemma quiet_respond o s : (forall a, o ≠ OpRead (QCode a)) -> quiet (respond o s).
Proof.
  intros Ho. destruct o; cbn [respond exec];
    unfold CreateAccount, SubBalance, AddBalance, SetBalance, SetNonce, SetCode, SetState, Suicide, AddRefund, SubRefund, AddLog,
      AddPreimage, AddAddressToAccessList, AddSlotToAccessList, AccessList.AddSlot, RevertToSnapshot, journal_revert;
    try (apply quiet_read; intros a ->; by apply (Ho a)); try apply quiet_answer; quiet;
    try (apply quiet_on_object; quiet); quiet.
Qed.

(** [a] is on the blocked list, and the list is enforced. *)
Definition listed s (a : Address) : bool :=
  EnableContractBlockedList (current_params s) && kv_has (kvstore s) (getContractBlockedListMemberKey (Address_Bytes a)).

Lemma GetCode_listed s a : listed s a = true -> GetCode s a = Panic (PanicAddr a).
Proof.
  unfold listed, GetCode, StateDB.GetParams, current_params, IsContractInBlockedList.
  destruct (params s); cbn; by intros ->.
Qed.
Lemma GetCode_panic s a b : GetCode s a = Panic (PanicAddr b) -> b = a /\ listed s a = true.
Proof.
  unfold listed, GetCode, StateDB.GetParams, current_params, IsContractInBlockedList. intros Hg.
  destruct (params s) as [p|]; cbn [default from_option id] in *; cbn in Hg;
    (destruct (_ && _); [by injection Hg as <-|]);
    match type of Hg with ?r = _ => assert (quiet r) as Hq by quiet; by rewrite Hg in Hq end.
Qed.

Lemma respond_listed s a : listed s a = true -> respond (OpRead (QCode a)) s = Panic (PanicAddr a).
Proof. intros Hl. cbn. unfold answer. by rewrite GetCode_listed. Qed.
Lemma respond_panic o s a : respond o s = Panic (PanicAddr a) -> o = OpRead (QCode a) /\ listed s a = true.
Proof.
  intros Hr. assert (forall b, o = OpRead (QCode b) -> b = a /\ listed s b = true) as Hcode.
  { intros b ->. cbn in Hr. unfold answer in Hr. destruct (GetCode s b) as [[]|p] eqn:Hg; [done|].
    injection Hr as ->. by apply GetCode_panic in Hg as [-> ?]. }
  destruct o; try destruct q;
    try (match type of Hr with respond ?o _ = _ => assert (quiet (respond o s)) as Hq by (by apply quiet_respond) end; by rewrite Hr in Hq).
  by destruct (Hcode _ eq_refl) as [-> ?].
Qed.

(** *** Storing a transaction *)

Lemma quiet_commit_loop l : forall kso : St * stateObject C, quiet (commit_loop kso l).
Proof.
  induction l as [|x l IH]; intros kso; cbn [commit_loop]; [done|]. apply quiet_bind; [|intros; apply IH].
  unfold commit_entry. quiet.
Qed.
Lemma quiet_commitState (kv : St) so : quiet (commitState kv so).
Proof. unfold commitState. apply quiet_bind; [apply quiet_commit_loop|quiet]. Qed.
#[local] Hint Resolve quiet_commitState : quiet.

Lemma quiet_finalise_loop bl ds : forall s, quiet (finalise_loop bl true ds s).
Proof.
  induction ds as [|d ds IH]; intros s; cbn [finalise_loop]; [done|].
  apply quiet_bind; [unfold finalise_one; quiet|]. intros [e s1]. destruct e; [done|apply IH].
Qed.
Lemma quiet_commit_objects bl n : forall i s, quiet (commit_objects bl true n i s).
Proof.
  induction n as [|n IH]; intros i s; cbn [commit_objects]; [done|].
  apply quiet_bind; [unfold commit_one; quiet|]. intros [e s1]. destruct e; [done|apply IH].
Qed.
#[local] Hint Resolve quiet_finalise_loop quiet_commit_objects : quiet.
Lemma quiet_persist bl s : quiet (persist bl s).
Proof. unfold persist, Finalise, Commit. quiet. Qed.
#[local] Hint Resolve quiet_persist : quiet.
#[local] Hint Resolve quiet_on_object : quiet.
Lemma quiet_SetNonce s a n : quiet (SetNonce s a n).
Proof. apply quiet_on_object. quiet. Qed.
Lemma quiet_GetNonce s a : quiet (GetNonce s a).
Proof. unfold GetNonce. quiet. Qed.
#[local] Hint Resolve quiet_SetNonce quiet_GetNonce : quiet.

Context `{GasMeters G, GasTable, VM, EthTypes, ResultCodec}.
Implicit Types (st : StateTransition) (m : G).
Lemma quiet_finish bl st g gc n r s : quiet (finish bl st g gc n r s).
Proof. unfold finish. quiet. Qed.
Lemma finish_error bl st g gc n r s a : finish bl st g gc n r s ≠ Ret (TrErr (ErrCallBlockedContract a)).
Proof.
  unfold finish. destruct (vm_err r); [done|]. intros Hf. bind_inv Hf. bind_inv Hf. destruct r1 as [err s1].
  destruct err as [e|].
  - injection Hf as ->. destruct (negb _); [|done]. unfold persist in Hf1. bind_inv Hf1. destruct r1 as [[e|] s2]; [done|].
    bind_inv Hf1. destruct r1 as [[hh [e|]] s3]; by injection Hf1.
  - bind_inv Hf. by destruct (EncodeResultData _).
Qed.

(** ** The machine's run *)

(** The machine, running [p] from [s], comes to ask for the code of [a]. *)
Fixpoint asks_code (a : Address) (p : vm_program) s : Prop :=
  match p with
  | VmDone _ => False
  | VmDo o k =>
      o = OpRead (QCode a) \/
      match respond o s with Ret (v, s') => asks_code a (k v) s' | Panic _ => False end
  end.

(** The message gets as far as the machine, which starts on the database
    [machine_start]: the nonces of the sender have been set. *)
Definition enabled st s : bool :=
  let p := current_params s in
  match st_Recipient st with
  | Some _ => EnableCall p
  | None => EnableCreate p && (negb (EnableContractDeploymentWhitelist p) || IsDeployerInWhitelist s (Address_Bytes (st_Sender st)))
  end.
Definition machine_start st s : res csdb :=
  '(_, s) ← GetNonce (StateDB.GetParams s).2 (st_Sender st);
  s ← SetNonce s (st_Sender st) (st_AccountNonce st);
  match st_Recipient st with
  | None => Ret s
  | Some _ => '(nonce, s) ← GetNonce s (st_Sender st); SetNonce s (st_Sender st) (u64 (nonce + 1))
  end.
Definition message_asks (a : Address) hd config st g s : Prop :=
  enabled st s = true /\ exists s1, machine_start st s = Ret s1 /\ asks_code a (message_program hd config st g s) s1.

Context `{!SdkCoinsLaws C, !KeccakLaws, !AccountKeeperLaws AK C}.

Lemma listed_ctx s s' a : ctxv s' = ctxv s -> listed s' a = listed s a.
Proof. unfold ctxv, listed. by intros [= -> _ _ _ _ ->]. Qed.

Lemma run_vm_blocked n0 a p : forall s, log_ok n0 s ->
  run_vm p s = Panic (PanicAddr a) <-> listed s a = true /\ asks_code a p s.
Proof.
  induction p as [r|o k IH]; intros s Hok; cbn [run_vm asks_code]; [by split; [|intros []]|].
  destruct (respond o s) as [[v s']|q] eqn:Hr; cbn [mbind res_bind].
  - destruct (exec_kept n0 o s s' Hok (respond_exec _ _ _ _ Hr)) as [[Hc _ _] Hok'].
    rewrite (IH v s' Hok'), (listed_ctx _ _ _ Hc). split; [by intros []; auto|]. intros [Hl [->|Ha]]; [|done].
    by rewrite respond_listed in Hr.
  - split.
    + intros [= ->]. apply respond_panic in Hr as [-> Hl]. auto.
    + intros [Hl [->|[]]]. rewrite respond_listed in Hr by done. congruence.
Qed.
Lemma run_then_blocked n0 a p s (n : Z) : log_ok n0 s ->
  ('(r, s) ← run_vm p s; Ret (inr (n, r), s) : res ((tr_error + Z * vm_result) * csdb)) = Panic (PanicAddr a) <->
  listed s a = true /\ asks_code a p s.
Proof.
  intros Hok. rewrite <- (run_vm_blocked n0 a p s Hok). destruct (run_vm p s) as [[]|]; cbn; [done|]. split; by intros [= ->].
Qed.

(** The message panics with an address exactly when the machine comes to
    ask for the code of that contract and it is listed. *)
Lemma run_message_blocked n0 hd config st g s a : log_ok n0 s ->
  run_message hd config st g s = Panic (PanicAddr a) <-> listed s a = true /\ message_asks a hd config st g s.
Proof.
  intros Hok. unfold run_message, message_asks, machine_start, message_program, enabled.
  pose proof (calm_GetParams s _ _ (surjective_pairing (StateDB.GetParams s))) as Hcalm.
  assert ((StateDB.GetParams s).1 = current_params s) as Hp by (unfold StateDB.GetParams, current_params; by destruct (params s)).
  destruct (StateDB.GetParams s) as [p s0]. cbn [fst snd] in *. subst p.
  pose proof (quiet_GetNonce s0 (st_Sender st)) as Hq.
  destruct (GetNonce s0 (st_Sender st)) as [[n1 s1]|q] eqn:E1; cbn [mbind res_bind];
    [clear Hq|by (split; [intros [= ->]|intros (_ & _ & ? & ? & _)])].
  pose proof (quiet_SetNonce s1 (st_Sender st) (st_AccountNonce st)) as Hq.
  destruct (SetNonce s1 _ _) as [s2|q] eqn:E2; cbn [mbind res_bind];
    [clear Hq|by (split; [intros [= ->]|intros (_ & _ & ? & ? & _)])].
  assert (calm s s2) as Hc2.
  { transitivity s0; [done|]. transitivity s1; [|by eapply calm_SetNonce].
    apply (calm_read s0 (QNonce (st_Sender st)) (VZ n1)). cbn. unfold answer. by rewrite E1. }
  destruct (st_Recipient st) as [rc|].
  - destruct (EnableCall (current_params s)); cbn [negb]; [|by (split; [|intros (_ & ? & _)])].
    pose proof (quiet_GetNonce s2 (st_Sender st)) as Hq.
    destruct (GetNonce s2 (st_Sender st)) as [[n3 s3]|q] eqn:E3; cbn [mbind res_bind];
      [clear Hq|by (split; [intros [= ->]|intros (_ & _ & ? & ? & _)])].
    pose proof (quiet_SetNonce s3 (st_Sender st) (u64 (n3 + 1))) as Hq.
    destruct (SetNonce s3 _ _) as [s4|q] eqn:E4; cbn [mbind res_bind];
      [clear Hq|by (split; [intros [= ->]|intros (_ & _ & ? & ? & _)])].
    assert (calm s s4) as Hc4.
    { transitivity s2; [done|]. transitivity s3; [|by eapply calm_SetNonce].
      apply (calm_read s2 (QNonce (st_Sender st)) (VZ n3)). cbn. unfold answer. by rewrite E3. }
    rewrite <- (listed_ctx s s4 a (calm_ctx _ _ Hc4)).
    rewrite (run_then_blocked n0 a _ s4 n1 (log_ok_calm _ _ _ Hc4 Hok)). naive_solver.
  - destruct (EnableCreate (current_params s)); cbn [negb andb]; [|by (split; [|intros (_ & ? & _)])].
    assert (IsDeployerInWhitelist s2 (Address_Bytes (st_Sender st)) = IsDeployerInWhitelist s (Address_Bytes (st_Sender st))) as ->.
    { pose proof (calm_ctx _ _ Hc2) as Hx. unfold ctxv in Hx. injection Hx as Hx _. unfold IsDeployerInWhitelist. by rewrite Hx. }
    destruct (EnableContractDeploymentWhitelist _), (IsDeployerInWhitelist _ _); cbn [negb andb orb];
      try (by (split; [|intros (_ & ? & _)]));
      rewrite <- (listed_ctx s s2 a (calm_ctx _ _ Hc2));
      rewrite (run_then_blocked n0 a _ s2 n1 (log_ok_calm _ _ _ Hc2 Hok)); naive_solver.
Qed.
Lemma run_message_error hd config st g s a s' : run_message hd config st g s ≠ Ret (inl (ErrCallBlockedContract a), s').
Proof.
  unfold run_message. destruct (StateDB.GetParams s) as [p s0]. intros Hr. bind_inv Hr. destruct r as [n s1]. bind_inv Hr.
  destruct (st_Recipient st).
  - destruct (negb _); [done|]. bind_inv Hr. destruct r0. bind_inv Hr. bind_inv Hr. by destruct r1.
  - destruct (negb _); [done|]. destruct (_ && _); [done|]. bind_inv Hr. by destruct r0.
Qed.

(** ** The refusal of a blocked contract *)

Context `{!GasMetersLaws G}.
Implicit Types (sto : Stores St AK) (k : Keeper).

(** C15: a transaction is refused with the address of a contract exactly
    when the list of blocked contracts is enforced, the contract is on it
    in the store, and the machine, at whatever depth of the program, comes
    to ask for the contract's code.  In that case only the intrinsic gas is
    charged, however much the machine had used before. *)
Theorem blocked_call_uncharged BlacklistedAddr hd config st h (sim : bool) sto k m cost m1 a m' :
  (sim = false -> keeper_ok k) ->
  IntrinsicGas (st_Payload st) (bool_decide (st_Recipient st = None)) (IsHomestead config) (IsIstanbul config) = Some cost ->
  (if (gm_GasConsumed m <? cost)%Z then gm_ConsumeGas m (cost - gm_GasConsumed m)%Z "Intrinsic gas match" else Ret m) = Ret m1 ->
  let s := opened h sim sto k in
  (TransitionDb BlacklistedAddr hd config st s m = Ret (TrErr (ErrCallBlockedContract a), m') <->
   m' = m1 /\ EnableContractBlockedList (sto_ps sto) = true /\
   kv_has (sto_kv sto) (getContractBlockedListMemberKey (Address_Bytes a)) = true /\
   message_asks a hd config st (u64 (st_GasLimit st - gm_GasConsumed m1)) s) /\
  gm_GasConsumed m1 = Z.max (gm_GasConsumed m) cost.
Proof.
  intros Hk Hi Hc s. split; [|by eapply charge_intrinsic].
  pose proof (opened_log_ok (C := C) h sim sto k Hk) as Hok. fold s in Hok.
  assert (listed s a = EnableContractBlockedList (sto_ps sto) && kv_has (sto_kv sto) (getContractBlockedListMemberKey (Address_Bytes a))) as Hl
    by (unfold s, opened, prepare_db; by destruct sim).
  assert (run_message hd config st (u64 (st_GasLimit st - gm_GasConsumed m1)) s = Panic (PanicAddr a) <->
    EnableContractBlockedList (sto_ps sto) = true /\ kv_has (sto_kv sto) (getContractBlockedListMemberKey (Address_Bytes a)) = true /\
    message_asks a hd config st (u64 (st_GasLimit st - gm_GasConsumed m1)) s) as <-
    by (rewrite (run_message_blocked _ _ _ _ _ _ _ Hok), Hl, andb_true_iff; tauto).
  unfold Transition.TransitionDb. rewrite Hi, Hc. cbn [mbind res_bind].
  destruct (run_message _ _ _ _ _) as [[[e|[n r]] s1]|p] eqn:Hrun.
  - split; [|by intros []]. intros [= -> <-].
    by apply run_message_error in Hrun.
  - split; [|by intros []]. intros Ht. exfalso. bind_inv Ht.
    pose proof (finish_error BlacklistedAddr st (u64 (st_GasLimit st - gm_GasConsumed m1)) (u64 (u64 (st_GasLimit st - gm_GasConsumed m1) - vm_leftOverGas r)) n r s1 a) as Hne.
    pose proof (quiet_finish BlacklistedAddr st (u64 (st_GasLimit st - gm_GasConsumed m1)) (u64 (u64 (st_GasLimit st - gm_GasConsumed m1) - vm_leftOverGas r)) n r s1) as Hq.
    destruct (finish _ _ _ _ _ _ _) as [o|[]]; try done. congruence.
  - destruct p; split; try done; try (by intros [-> [= ->]]); try (by intros []). by intros [= -> <-].
Qed.

End Quiet.
End EvmBlocked.
