(* ===== verification/EvmExamples.v ===== *)
(** Blocks of Ethereum messages over finite-map stores and a toy machine
    that moves the value, reads the callee's code and logs. *)
From stdpp Require Import sorting.
From S2P Require Import Prelude.
From S2P Require Import Interfaces.
From S2P Require Import StateObject.
From S2P Require Import Journal.
From S2P Require Import StateDB.
From S2P Require Import StateObjectSpec.
From S2P Require Import StateDBInv.
From S2P Require Import StateDBSnapshot.
From S2P Require Import StateDBExamples.
From S2P Require Import EthMsg.
From S2P Require Import ChainID.
From S2P Require Import Ante.
From S2P Require Import EthExamples.
From S2P Require Import Transition.
From S2P Require Import EvmKeeper.
From S2P Require Import TransitionSpec.
From S2P Require Import EvmMain.
From S2P Require Import EvmBlocked.
Import StateDB StateDBSnapshot StateDBExamples EthExamples Transition EvmKeeper TransitionSpec EvmMain EvmBlocked MapInstances.

Module EvmExamples.

(** ** Instances *)

Definition toy_call (caller a : Address) (gas x : Z) : vm_program :=
  VmDo OpSnapshot (fun _ =>
  VmDo (OpSubBalance caller x) (fun _ =>
  VmDo (OpAddBalance a x) (fun _ =>
  VmDo (OpRead (QCode a)) (fun _ =>
  VmDo (OpAddLog (mkLog a [1%N] [] 5 0%N 0 0%N 0)) (fun _ =>
  VmDo (OpAddLog (mkLog a [2%N] [] 5 0%N 0 0%N 0)) (fun _ =>
  VmDone (mkVmResult (Some []) 0%N (gas - Z.min gas 700) None))))))).
Definition toy_create (caller : Address) (code : bytes) (gas : Z) : vm_program :=
  VmDo (OpCreateAccount 4660%N) (fun _ =>
  VmDo (OpSetCode 4660%N (Some code)) (fun _ =>
  VmDone (mkVmResult (Some code) 4660%N (gas - Z.min gas 32000) None))).
#[export] Instance toy_VM : VM := {|
  evm_Create _ caller code gas x := toy_create caller code gas;
  evm_Call _ caller a input gas x := toy_call caller a gas x;
|}.
#[export] Instance toy_VMLaws : VMLaws.
Proof. split; cbn; intros; lia. Qed.

Definition toy_bloom (l : list Log) : Z := fold_right (fun lg b => Z.lor (2 ^ Z.of_N (log_Address lg mod 2048)) b) 0%Z l.
#[export] Instance toy_EthTypes : EthTypes := {| LogsBloom := toy_bloom; HexToHash _ := 0%N |}.

Lemma lor_below a b n : (0 <= n)%Z -> (0 <= a < 2 ^ n)%Z -> (0 <= b < 2 ^ n)%Z -> (0 <= Z.lor a b < 2 ^ n)%Z.
Proof.
  intros Hn Ha Hb. assert (0 <= Z.lor a b)%Z as Hnn by (apply Z.lor_nonneg; lia). split; [done|].
  apply Z.lt_nge. intros Hge. destruct (decide (Z.lor a b = 0)%Z) as [Hz|Hz]; [rewrite Hz in Hge; lia|].
  assert (n <= Z.log2 (Z.lor a b))%Z as Hl by (apply Z.log2_le_pow2; lia). rewrite Z.log2_lor in Hl by lia.
  destruct (decide (n = 0)%Z) as [->|]; [change (2 ^ 0)%Z with 1%Z in *; assert (a = 0 /\ b = 0)%Z as [-> ->] by lia; done|].
  assert (forall x, (0 <= x < 2 ^ n)%Z -> (Z.log2 x < n)%Z) as Hlt; [|pose proof (Hlt a Ha); pose proof (Hlt b Hb); lia].
  intros x Hx. destruct (decide (x = 0)%Z) as [->|]; [cbn; lia|]. apply Z.log2_lt_pow2; lia.
Qed.
#[export] Instance toy_EthTypesLaws : EthTypesLaws.
Proof.
  split; cbn [LogsBloom toy_EthTypes].
  - done.
  - intros l1 l2. induction l1 as [|lg l1 IH]; cbn [app toy_bloom fold_right]; [done|]. unfold toy_bloom in IH.
    by rewrite IH, Z.lor_assoc.
  - intros l. induction l as [|lg l IH]; cbn [toy_bloom fold_right]; [lia|]. apply lor_below; [lia| |exact IH].
    split; [apply Z.pow_nonneg; lia|]. apply Z.pow_lt_mono_r; [lia..|].
    pose proof (N.mod_lt (log_Address lg) 2048 ltac:(done)). lia.
Qed.
#[export] Instance toy_ResultCodec : ResultCodec := fun _ => Some [].
#[export] Instance toy_TxHashing : TxHashing := fun b => b.
#[export] Instance toy_ConfigCodec : ConfigCodec := {| MarshalConfig _ := [Byte.x01]; UnmarshalConfig _ := Some DefaultChainConfig |}.

Lemma meter_adds m x descr m' : gm_ConsumeGas (G := meter) m x descr = Ret m' -> m'.2 = (m.2 + x)%Z.
Proof. cbn. destruct m as [[l|] c]; cbn; [destruct (_ <? _)%Z|]; by intros [= <-]. Qed.
#[export] Instance meter_GasMetersLaws : GasMetersLaws meter.
Proof. split. intros m x descr m' _ Hr. exact (meter_adds m x descr m' Hr). Qed.

(** ** A block with a transfer, a replay with a bad signature, and another *)

Definition payer : EthAccount coins := mkEthAccount _ sender {[ "fax" := 1000%positive ]} None 0 4 (Some (keccak256 [])).
Definition payers : akeeper := mkAkeeper {[ sender := AEth payer ]} 1.
Definition open_params : Params := mkParams true true [] false true 30000000.
Definition stores0 : Stores store akeeper :=
  mkStores _ _ (SetChainConfig ∅ DefaultChainConfig) payers open_params.
Definition hd10 : Header := mkHeader 10 1000 [].
Definition begin10 : BeginBlockReq := mkBeginBlockReq (Hash_Bytes 77%N) 10 (Some (Hash_Bytes 66%N)).
Definition tc10 (txBytes : bytes) : TxCtx meter := mkTxCtx _ (ctx0 <| GasMeter := (Some 30000%Z, 0%Z) |>) hd10 txBytes.
Definition forged : MsgEthereumTx := signed <| Data := (Data signed) <| tx_R := 0%Z |> |>.
Definition block10 : list (TxCtx meter * Stores store akeeper * evm_msg) :=
  [ (tc10 [Byte.x01], stores0, EvmEthereumTx signed);
    (tc10 [Byte.x02], stores0, EvmEthereumTx forged);
    (tc10 [Byte.x03], stores0, EvmEthermint (mkMsgEthermint 0 0 0 None 0 [] 0%N));
    (tc10 [Byte.x04], stores0, EvmEthereumTx signed) ].
Definition keeper10 : Keeper := (BeginBlock (C := coins) begin10 stores0 NewKeeper).2.
Definition done10 : Keeper * list (Z * ResultData) :=
  deliver_all no_blacklist (PrivateKey := positive) block10 keeper10.

Example block10_numbers :
  (fun r => (r.1, log_Index <$> rd_Logs r.2, log_TxIndex <$> rd_Logs r.2)) <$> done10.2
  = [(0, [0; 1], [0; 0]); (1, [2; 3], [1; 1])]%Z.
Proof. vm_compute. reflexivity. Qed.

Lemma block_logs_consecutive_witness :
  let '(k, rs) := deliver_all no_blacklist (PrivateKey := positive) block10 (BeginBlock (C := coins) begin10 stores0 NewKeeper).2 in
  let logs := concat ((fun r => rd_Logs r.2) <$> rs) in
  (forall i lg, logs !! i = Some lg -> log_Index lg = u64 (Z.of_nat i) /\ log_BlockHash lg = BytesToHash (req_Hash begin10)) /\
  (forall t d lg, (t, d) ∈ rs -> lg ∈ rd_Logs d ->
     log_TxIndex lg = t /\ (0 <= t < Z.of_nat (length block10))%Z /\ log_TxHash lg = rd_TxHash d) /\
  StronglySorted Z.lt rs.*1 /\
  exists sto', EndBlock 10 stores0 k = Ret sto' /\
    GetBlockBloom (sto_kv sto') 10 = Ret (be_bytes 256 (LogsBloom logs)).
Proof.
  apply (block_logs_consecutive no_blacklist begin10 (Hash_Bytes 66%N) stores0 NewKeeper block10 10 stores0);
    [exact eq_refl|cbn; lia|repeat constructor|cbn; lia].
Defined.

Lemma BeginBlock_hashes_witness :
  let '(sto', k') := BeginBlock (C := coins) begin10 stores0 NewKeeper in
  let hash_of j := GetHashFn hd10 (opened (C := coins) 5%N false sto' k') j in
  hash_of (req_Height begin10) = BytesToHash (req_Hash begin10) /\
  hash_of (req_Height begin10 - 1)%Z = BytesToHash (Hash_Bytes 66%N) /\
  (forall j, (req_Height begin10 < j < 2 ^ 63)%Z -> hash_of j = 0%N) /\
  (forall j, (0 <= j < req_Height begin10 - 1)%Z -> hash_of j = EvmKeeper.GetHeightHash (C := coins) stores0 j) /\
  GetBlockHash (sto_kv sto') (Hash_Bytes 66%N) = Ret ((req_Height begin10 - 1)%Z, true).
Proof.
  apply (BeginBlock_hashes begin10 (Hash_Bytes 66%N) stores0 NewKeeper hd10 5%N); [exact eq_refl|cbn; lia|exact eq_refl].
Defined.

(** ** One transition *)

Definition transfer (sim : bool) : StateTransition :=
  mkStateTransition 3 2 30000 (Some 187%N) 5 [] 66 (Some 5%N) sender sim.
Definition meter0 : meter := (Some 30000%Z, 1000%Z).
Definition db10 : db := opened 5%N false stores0 keeper10.
Definition ran : res (outcome * meter) := TransitionDb no_blacklist hd10 DefaultChainConfig (transfer false) db10 meter0.
Definition ran_out : outcome := match ran with Ret (o, _) => o | Panic _ => TrErr ErrEncode end.
Definition ran_meter : meter := match ran with Ret (_, m) => m | Panic _ => meter0 end.
Definition no_result : ExecutionResult * ResultData * db :=
  (mkExecutionResult [] 0 [] (mkGasInfo 0 0 0), mkResultData 0%N 0 [] None 0%N, db10).
Definition ran_ok : ExecutionResult * ResultData * db :=
  match ran_out with TrOk exe data s => (exe, data, s) | TrErr _ => no_result end.

Lemma ran_eq : TransitionDb no_blacklist hd10 DefaultChainConfig (transfer false) db10 meter0 = Ret (ran_out, ran_meter).
Proof. vm_compute. reflexivity. Qed.
Lemma ran_ok_eq : TransitionDb no_blacklist hd10 DefaultChainConfig (transfer false) db10 meter0
  = Ret (TrOk ran_ok.1.1 ran_ok.1.2 ran_ok.2, ran_meter).
Proof. vm_compute. reflexivity. Qed.

Example ran_numbers : ran_meter = (Some 30000%Z, 21700%Z) /\
  match ran_out with TrOk exe _ _ => er_GasInfo exe = mkGasInfo 9000 700 8300 | TrErr _ => False end.
Proof. vm_compute. done. Qed.

Lemma meter0_start : (0 <= gm_GasConsumed meter0)%Z.
Proof. cbn. lia. Qed.
Lemma meter0_limit : (Z.max (gm_GasConsumed meter0) 21000 <= st_GasLimit (transfer false) < 2 ^ 64)%Z.
Proof. cbn. lia. Qed.
Lemma TransitionDb_gas_witness :
  let left := (st_GasLimit (transfer false) - Z.max (gm_GasConsumed meter0) 21000)%Z in
  gm_GasConsumed ran_meter = match run_message hd10 DefaultChainConfig (transfer false) left db10 with
                      | Ret (inr (_, r), _) => (st_GasLimit (transfer false) - vm_leftOverGas r)%Z
                      | _ => Z.max (gm_GasConsumed meter0) 21000
                      end /\
  (Z.max (gm_GasConsumed meter0) 21000 <= gm_GasConsumed ran_meter <= st_GasLimit (transfer false))%Z /\
  match ran_out with
  | TrOk exe _ _ =>
      let g := er_GasInfo exe in
      gi_GasLimit g = left /\ (gi_GasConsumed g + gi_GasRefunded g = left)%Z /\
      (0 <= gi_GasConsumed g)%Z /\ (0 <= gi_GasRefunded g)%Z /\
      gm_GasConsumed ran_meter = (Z.max (gm_GasConsumed meter0) 21000 + gi_GasConsumed g)%Z
  | TrErr _ => True
  end.
Proof.
  exact (TransitionDb_gas no_blacklist hd10 DefaultChainConfig (transfer false) db10 meter0 21000 ran_out ran_meter
    eq_refl meter0_start meter0_limit ran_eq).
Defined.

Lemma payers_ok : stores_ok (AK := akeeper) (C := coins) stores0.
Proof.
  intros a acc. cbn. unfold ak_get. cbn. destruct (decide (a = sender)) as [->|Hne].
  - rewrite lookup_singleton_eq. intros [= <-]. split; [|done]. vm_compute. reflexivity.
  - by rewrite lookup_singleton_ne.
Qed.
Lemma sender_ok : address_ok sender.
Proof. vm_compute. reflexivity. Qed.
Lemma payer_found : GetAccount payers sender = Some (AEth payer).
Proof. vm_compute. reflexivity. Qed.
Lemma toy_call_ok (a : Address) gas x : address_ok a -> (x ≠ 0)%Z -> vm_ok (toy_call sender a gas x).
Proof. intros Ha Hx. cbn. repeat split; try done; try exact sender_ok. by right. Qed.

Lemma keeper10_ok : keeper_ok keeper10.
Proof. split; vm_compute; [discriminate|reflexivity]. Qed.
Lemma transfer_program_ok : vm_ok (message_program hd10 DefaultChainConfig (transfer false)
  (u64 (st_GasLimit (transfer false) - Z.max (gm_GasConsumed meter0) 21000)) db10).
Proof. exact (toy_call_ok 187%N _ 5 eq_refl ltac:(lia)). Qed.

Lemma TransitionDb_nonce_witness :
  match GetAccount (accounts ran_ok.2) (st_Sender (transfer false)) with
  | Some (AEth acc') => acc_Sequence acc' = acc_Sequence payer
  | Some (AOther _) => False
  | None => acc_Sequence payer = 0%Z \/
            exists x s1, run_message hd10 DefaultChainConfig (transfer false)
              (u64 (st_GasLimit (transfer false) - Z.max (gm_GasConsumed meter0) 21000)) db10 = Ret (x, s1) /\
              observe (QHasSuicided (st_Sender (transfer false))) s1 = Ret (VBool true)
  end.
Proof.
  exact (TransitionDb_nonce no_blacklist hd10 DefaultChainConfig (transfer false) 5%N stores0 keeper10 meter0 21000 payer
    ran_ok.1.1 ran_ok.1.2 ran_ok.2 ran_meter
    payers_ok keeper10_ok sender_ok eq_refl payer_found eq_refl transfer_program_ok ran_ok_eq).
Defined.

(** Checked, not delivered. *)
Definition tc_check : TxCtx meter := mkTxCtx _ (ctx0 <| IsCheckTx := true |> <| GasMeter := (Some 30000%Z, 0%Z) |>) hd10 [Byte.x01].
Definition checked := NewHandler no_blacklist (PrivateKey := positive) tc_check stores0 keeper10 (EvmEthereumTx signed).
Example checked_succeeds : match checked.2 with Ret (inr (exe, _, _), _) => gi_GasConsumed (er_GasInfo exe) | _ => 0%Z end = 700%Z.
Proof. vm_compute. reflexivity. Qed.

Lemma CheckTx_no_effect_witness :
  checked.1 = keeper10 /\
  forall exe data sto' m', checked.2 = Ret (inr (exe, data, sto'), m') ->
    sto_kv sto' = sto_kv stores0 /\ ak_equiv (sto_ak stores0) (sto_ak sto') /\ sto_ps sto' = sto_ps stores0 /\
    er_Logs exe = [] /\ er_Bloom exe = 0%Z /\ rd_Logs data = [].
Proof.
  apply (CheckTx_no_effect no_blacklist tc_check stores0 keeper10 (EvmEthereumTx signed));
    [exact eq_refl|apply surjective_pairing].
Defined.

(** 0xbb is blocked: the program reads its code in its fourth step. *)
Definition blocking : Stores store akeeper :=
  mkStores _ _ (<[getContractBlockedListMemberKey (Address_Bytes 187%N) := []]> (sto_kv stores0)) payers open_params.
Definition blocked_db : db := opened 5%N false blocking keeper10.
Definition blocked_start : db :=
  match machine_start (transfer false) blocked_db with Ret s => s | Panic _ => blocked_db end.
Lemma blocked_asks : message_asks 187%N hd10 DefaultChainConfig (transfer false)
  (u64 (st_GasLimit (transfer false) - gm_GasConsumed (Some 30000%Z, 21000%Z))) blocked_db.
Proof.
  split; [vm_compute; reflexivity|]. exists blocked_start. split; [vm_compute; reflexivity|].
  vm_compute. right. right. right. left. reflexivity.
Qed.

Lemma blocked_call_uncharged_witness :
  TransitionDb no_blacklist hd10 DefaultChainConfig (transfer false) blocked_db meter0
    = Ret (TrErr (ErrCallBlockedContract 187%N), (Some 30000%Z, 21000%Z)).
Proof.
  apply (blocked_call_uncharged no_blacklist hd10 DefaultChainConfig (transfer false) 5%N false blocking keeper10 meter0 21000
    (Some 30000%Z, 21000%Z) 187%N (Some 30000%Z, 21000%Z));
    [intros _; exact keeper10_ok|exact eq_refl|exact eq_refl|].
  split; [exact eq_refl|]. split; [exact eq_refl|]. split; [exact eq_refl|exact blocked_asks].
Defined.

End EvmExamples.
