(* ===== verification/EvmLists.v ===== *)
(** Who may deploy and which contracts are blocked: the proposals of
    governance that change the two lists (evm/types/proposal.go,
    evm/proposal_handler.go, evm/keeper/proposal.go), and that the lists of
    the store are the sets the proposals describe. *)
From S2P Require Import Prelude.
From S2P Require Import Interfaces.
From S2P Require Import GoStrings.
From S2P Require Import StateObject.
From S2P Require Import StateDB.
From S2P Require Import StateDBSnapshot.
From S2P Require Import StateDBLogs.
From S2P Require Import EthMsg.
From S2P Require Import Ante.
From S2P Require Import Transition.
From S2P Require Import EvmKeeper.
From stdpp Require Import sorting.
Import StateDB StateDBSnapshot StateDBLogs Transition EvmKeeper.

(** The limits and parameters of the governance module. *)
Class GovLimits := { MaxTitleLength : nat; MaxDescriptionLength : nat }.
Record GovParams {C : Type} := mkGovParams { MinDeposit : C; MaxDepositPeriod : Z; VotingPeriod : Z }.
Arguments GovParams C : clear implicits.
(** [sdk.AccAddress.String] *)
Class Bech32 := Bech32_String : bytes -> string.
Class Bech32Laws `{Bech32} := Bech32_String_inj a b : Bech32_String a = Bech32_String b -> a = b.

(** Both proposals have the same fields. *)
Record ListProposal := mkListProposal {
  lp_Title : string; lp_Description : string; lp_Addrs : list bytes; lp_IsAdded : bool;
}.
Inductive GovContent :=
  | ManageContractDeploymentWhitelistProposal (mp : ListProposal)
  | ManageContractBlockedListProposal (mp : ListProposal)
  | OtherProposal.
Inductive proposal_error :=
  | ErrInvalidProposalContent (what : string) | ErrInvalidProposalType | ErrEmptyAddressList
  | ErrOversizeAddrList (length : nat) | ErrDuplicatedAddr | ErrUnexpectedProposalType
  | ErrUnknownProposalType | ErrUnknownRequestType.

Module EvmLists.

Definition maxAddressListLength : nat := 100.
Definition proposalTypeManageContractDeploymentWhitelist : string := "ManageContractDeploymentWhitelist".
Definition proposalTypeManageContractBlockedList : string := "ManageContractBlockedList".

Section Lists.
Context {St AK C : Type} `{KVStore St, SdkCoins C, AccountKeeper AK C, Keccak, SdkConfig, GovLimits, Bech32}.
Abbreviation csdb := (CommitStateDB St AK C).
Abbreviation stores := (Stores St AK).
Implicit Types (sto : stores) (mp : ListProposal) (c : GovContent) (kv : St).

(** *** proposal.go *)

Definition ProposalType c : string :=
  match c with
  | ManageContractDeploymentWhitelistProposal _ => proposalTypeManageContractDeploymentWhitelist
  | ManageContractBlockedListProposal _ => proposalTypeManageContractBlockedList
  | OtherProposal => ""
  end.

(** [isAddrDuplicated]: [filter] holds the keys seen. *)
Fixpoint duplicated_in (filter : gset string) (addrs : list bytes) : bool :=
  match addrs with
  | [] => false
  | a :: rest =>
      let key := Bech32_String a in
      if bool_decide (key ∈ filter) then true else duplicated_in ({[key]} ∪ filter) rest
  end.
Definition isAddrDuplicated (addrs : list bytes) : bool := duplicated_in ∅ addrs.

(** The checks of both proposals, for the type and the expected type. *)
Definition validate_proposal (type expected : string) mp : option proposal_error :=
  if is_blank (lp_Title mp) then Some (ErrInvalidProposalContent "title is required")
  else if MaxTitleLength <? String.length (lp_Title mp)
  then Some (ErrInvalidProposalContent "title length is longer than the maximum title length")
  else if String.length (lp_Description mp) =? 0 then Some (ErrInvalidProposalContent "description is required")
  else if MaxDescriptionLength <? String.length (lp_Description mp)
  then Some (ErrInvalidProposalContent "description length is longer than the maximum description length")
  else if negb (String.eqb type expected) then Some ErrInvalidProposalType
  else if length (lp_Addrs mp) =? 0 then Some ErrEmptyAddressList
  else if maxAddressListLength <? length (lp_Addrs mp) then Some (ErrOversizeAddrList (length (lp_Addrs mp)))
  else if isAddrDuplicated (lp_Addrs mp) then Some ErrDuplicatedAddr else None.
Definition WhitelistProposal_ValidateBasic mp : option proposal_error :=
  validate_proposal (ProposalType (ManageContractDeploymentWhitelistProposal mp)) proposalTypeManageContractDeploymentWhitelist mp.
Definition BlockedListProposal_ValidateBasic mp : option proposal_error :=
  validate_proposal (ProposalType (ManageContractBlockedListProposal mp)) proposalTypeManageContractBlockedList mp.

(** *** keeper/proposal.go *)

Definition GetMinDeposit (p : GovParams C) c : C :=
  match c with
  | ManageContractDeploymentWhitelistProposal _ | ManageContractBlockedListProposal _ => MinDeposit p
  | OtherProposal => coins_empty
  end.
Definition GetMaxDepositPeriod (p : GovParams C) c : Z :=
  match c with
  | ManageContractDeploymentWhitelistProposal _ | ManageContractBlockedListProposal _ => MaxDepositPeriod p
  | OtherProposal => 0%Z
  end.
Definition GetVotingPeriod (p : GovParams C) c : Z :=
  match c with
  | ManageContractDeploymentWhitelistProposal _ | ManageContractBlockedListProposal _ => VotingPeriod p
  | OtherProposal => 0%Z
  end.
Definition CheckMsgSubmitProposal c : option proposal_error :=
  match c with
  | ManageContractDeploymentWhitelistProposal _ | ManageContractBlockedListProposal _ => None
  | OtherProposal => Some ErrUnknownRequestType
  end.

(** *** proposal_handler.go *)

Definition open sto : csdb := CreateEmptyCommitStateDB (sto_kv sto) (sto_ak sto) (sto_ps sto).
Definition close (s : csdb) : stores := mkStores St AK (kvstore s) (accounts s) (paramSpace s).

Definition handleManageContractDeploymentWhitelistProposal sto c : stores + proposal_error :=
  match c with
  | ManageContractDeploymentWhitelistProposal mp =>
      let csdb := open sto in
      if lp_IsAdded mp then inl (close (SetContractDeploymentWhitelist csdb (lp_Addrs mp)))
      else inl (close (DeleteContractDeploymentWhitelist csdb (lp_Addrs mp)))
  | _ => inr ErrUnexpectedProposalType
  end.
Definition handleManageContractBlockedlListProposal sto c : stores + proposal_error :=
  match c with
  | ManageContractBlockedListProposal mp =>
      let csdb := open sto in
      if lp_IsAdded mp then inl (close (SetContractBlockedList csdb (lp_Addrs mp)))
      else inl (close (DeleteContractBlockedList csdb (lp_Addrs mp)))
  | _ => inr ErrUnexpectedProposalType
  end.
Definition NewManageContractDeploymentWhitelistProposalHandler sto c : stores + proposal_error :=
  match c with
  | ManageContractDeploymentWhitelistProposal _ => handleManageContractDeploymentWhitelistProposal sto c
  | ManageContractBlockedListProposal _ => handleManageContractBlockedlListProposal sto c
  | OtherProposal => inr ErrUnknownProposalType
  end.

(** ** Specification: two sets of addresses *)
Record lists := mkLists { sp_deployers : gset bytes; sp_blocked : gset bytes }.
Lemma surjective_lists l : l = mkLists (sp_deployers l) (sp_blocked l).
Proof. by destruct l. Qed.
Definition change (mp : ListProposal) (X : gset bytes) : gset bytes :=
  if lp_IsAdded mp then X ∪ list_to_set (lp_Addrs mp) else X ∖ list_to_set (lp_Addrs mp).
Definition apply_content c (l : lists) : lists :=
  match c with
  | ManageContractDeploymentWhitelistProposal mp => mkLists (change mp (sp_deployers l)) (sp_blocked l)
  | ManageContractBlockedListProposal mp => mkLists (sp_deployers l) (change mp (sp_blocked l))
  | OtherProposal => l
  end.

(** Passed proposals, one after another. *)
Inductive passed : list GovContent -> stores -> stores -> Prop :=
  | passed_none sto : passed [] sto sto
  | passed_one c cs sto sto1 sto2 :
      NewManageContractDeploymentWhitelistProposalHandler sto c = inl sto1 -> passed cs sto1 sto2 -> passed (c :: cs) sto sto2.

(** The lists of a store. *)
Definition lists_of sto : lists :=
  mkLists (list_to_set (GetContractDeploymentWhitelist (open sto))) (list_to_set (GetContractBlockedList (open sto))).

(** ** The lists of the store are the sets *)
Context `{!KVStoreLaws St}.

Lemma kv_has_get kv k : kv_has kv k = bool_decide (is_Some (kv_get kv k)).
Proof. unfold kv_has. destruct (kv_get kv k); [by rewrite bool_decide_true by eauto|]. rewrite bool_decide_false; [done|]. by intros [? ?]. Qed.

Lemma elem_of_members kv b a : a ∈ ((fun e => drop 1 e.1) <$> kv_iterator kv [b]) <-> kv_has kv (b :: a) = true.
Proof.
  rewrite kv_has_get, bool_decide_eq_true, list_elem_of_fmap. split.
  - intros ([k v] & -> & [[k' ->] Hg]%kv_iterator_spec). by exists v.
  - intros [v Hv]. exists (b :: a, v). split; [done|]. apply kv_iterator_spec. split; [by exists a|done].
Qed.
Lemma sorted_members kv b : StronglySorted (fun x y => bytes_lt x y = true) ((fun e => drop 1 e.1) <$> kv_iterator kv [b]).
Proof.
  pose proof (kv_iterator_sorted kv [b]) as Hs.
  assert (Hp : Forall (fun e => exists a, e.1 = b :: a) (kv_iterator kv [b])).
  { apply Forall_forall. intros [k v] [[k' ->] _]%kv_iterator_spec. by exists k'. }
  revert Hs Hp. generalize (kv_iterator kv [b]) as l. induction l as [|e l IH]; intros Hs Hp; [constructor|].
  rewrite fmap_cons in Hs |- *. apply Forall_cons in Hp as [[a Ha] Hp]. inversion_clear Hs as [|? ? Hs' He].
  constructor; [by apply IH|]. rewrite Forall_fmap in He |- *. apply Forall_forall. intros e' Hin.
  destruct (proj1 (Forall_forall _ _) Hp _ Hin) as [a' Ha'].
  pose proof (proj1 (Forall_forall _ _) He _ Hin) as Hlt. unfold compose in *. rewrite Ha, Ha' in Hlt |- *.
  cbn [bytes_lt drop] in *. by rewrite Z.ltb_irrefl, Z.eqb_refl in Hlt.
Qed.

(** Writing and deleting keys. *)
Lemma get_put_keys (f : bytes -> bytes) addrs kv k :
  kv_get (foldl (fun kv a => kv_set kv (f a) []) kv addrs) k = if decide (k ∈ f <$> addrs) then Some [] else kv_get kv k.
Proof.
  revert kv. induction addrs as [|a l IH]; intros kv; [done|]. cbn [foldl]. rewrite IH, kv_get_set, fmap_cons.
  repeat case_decide; try done; set_solver.
Qed.
Lemma get_delete_keys (f : bytes -> bytes) addrs kv k :
  kv_get (foldl (fun kv a => kv_delete kv (f a)) kv addrs) k = if decide (k ∈ f <$> addrs) then None else kv_get kv k.
Proof.
  revert kv. induction addrs as [|a l IH]; intros kv; [done|]. cbn [foldl]. rewrite IH, kv_get_delete, fmap_cons.
  repeat case_decide; try done; set_solver.
Qed.

Lemma elem_of_deployers sto a :
  a ∈ sp_deployers (lists_of sto) <-> kv_has (sto_kv sto) (getContractDeploymentWhitelistMemberKey a) = true.
Proof. unfold lists_of. cbn [sp_deployers]. rewrite elem_of_list_to_set. apply elem_of_members. Qed.
Lemma elem_of_blocked sto a :
  a ∈ sp_blocked (lists_of sto) <-> kv_has (sto_kv sto) (getContractBlockedListMemberKey a) = true.
Proof. unfold lists_of. cbn [sp_blocked]. rewrite elem_of_list_to_set. apply elem_of_members. Qed.

Lemma elem_of_keys (b : byte) (addrs : list bytes) (a : bytes) (b' : byte) : b' :: a ∈ (fun a => [b] ++ a) <$> addrs <-> b' = b /\ a ∈ addrs.
Proof. rewrite list_elem_of_fmap. cbn. naive_solver. Qed.
Lemma elem_of_change mp (X : gset bytes) a :
  a ∈ change mp X <-> if lp_IsAdded mp then a ∈ X \/ a ∈ lp_Addrs mp else a ∈ X /\ a ∉ lp_Addrs mp.
Proof. unfold change. destruct (lp_IsAdded mp); set_solver. Qed.

(** One table after a proposal about the table of prefix [b]. *)
Lemma table_changed (b : byte) mp kv kv' (b' : byte) (a : bytes) (X : gset bytes) :
  kv' = (if lp_IsAdded mp then foldl (fun kv a => kv_set kv ([b] ++ a) []) kv (lp_Addrs mp)
         else foldl (fun kv a => kv_delete kv ([b] ++ a)) kv (lp_Addrs mp)) ->
  (forall a, a ∈ X <-> kv_has kv (b' :: a) = true) ->
  kv_has kv' (b' :: a) = true <-> a ∈ if decide (b' = b) then change mp X else X.
Proof.
  intros -> HX. rewrite kv_has_get, bool_decide_eq_true. case_decide as Hb.
  - specialize (HX a). rewrite kv_has_get, bool_decide_eq_true in HX. rewrite elem_of_change.
    destruct (lp_IsAdded mp); rewrite HX, ?get_put_keys, ?get_delete_keys; case_decide as Hk; rewrite elem_of_keys in Hk;
      naive_solver eauto.
  - rewrite HX, kv_has_get, bool_decide_eq_true.
    destruct (lp_IsAdded mp); rewrite ?get_put_keys, ?get_delete_keys, decide_False by (rewrite elem_of_keys; naive_solver); done.
Qed.

(** One proposal. *)
Lemma proposal_lists sto c sto' : NewManageContractDeploymentWhitelistProposalHandler sto c = inl sto' ->
  lists_of sto' = apply_content c (lists_of sto).
Proof.
  intros Hh. destruct c as [mp|mp|]; [| |discriminate]; cbn in Hh.
  - assert (Hkv : sto_kv sto' = if lp_IsAdded mp then foldl (fun kv a => kv_set kv ([Byte.x08] ++ a) []) (sto_kv sto) (lp_Addrs mp)
      else foldl (fun kv a => kv_delete kv ([Byte.x08] ++ a)) (sto_kv sto) (lp_Addrs mp)).
    { destruct (lp_IsAdded mp); by injection Hh as <-. }
    unfold apply_content. rewrite (surjective_lists (lists_of sto')). f_equal; apply set_eq; intros a.
    + rewrite elem_of_deployers. by rewrite (table_changed _ _ _ _ Byte.x08 a _ Hkv (elem_of_deployers sto)).
    + rewrite elem_of_blocked. by rewrite (table_changed _ _ _ _ Byte.x09 a _ Hkv (elem_of_blocked sto)).
  - assert (Hkv : sto_kv sto' = if lp_IsAdded mp then foldl (fun kv a => kv_set kv ([Byte.x09] ++ a) []) (sto_kv sto) (lp_Addrs mp)
      else foldl (fun kv a => kv_delete kv ([Byte.x09] ++ a)) (sto_kv sto) (lp_Addrs mp)).
    { destruct (lp_IsAdded mp); by injection Hh as <-. }
    unfold apply_content. rewrite (surjective_lists (lists_of sto')). f_equal; apply set_eq; intros a.
    + rewrite elem_of_deployers. by rewrite (table_changed _ _ _ _ Byte.x08 a _ Hkv (elem_of_deployers sto)).
    + rewrite elem_of_blocked. by rewrite (table_changed _ _ _ _ Byte.x09 a _ Hkv (elem_of_blocked sto)).
Qed.

(** What a proposal leaves alone. *)
Definition list_key (k : bytes) : Prop := exists a, k = getContractDeploymentWhitelistMemberKey a \/ k = getContractBlockedListMemberKey a.
Definition same_but_lists sto sto' : Prop :=
  sto_ak sto' = sto_ak sto /\ sto_ps sto' = sto_ps sto /\
  forall k, ~ list_key k -> kv_get (sto_kv sto') k = kv_get (sto_kv sto) k.
Lemma proposal_same sto c sto' : NewManageContractDeploymentWhitelistProposalHandler sto c = inl sto' -> same_but_lists sto sto'.
Proof.
  intros Hh. destruct c as [mp|mp|]; [| |discriminate]; cbn in Hh; destruct (lp_IsAdded mp); injection Hh as <-;
    (split_and!; [done|done|]; intros k Hk; cbn; rewrite ?get_put_keys, ?get_delete_keys;
     rewrite decide_False; [done|]; intros (a & -> & _)%list_elem_of_fmap; apply Hk; exists a; auto).
Qed.

Lemma passed_lists cs sto sto' : passed cs sto sto' ->
  lists_of sto' = foldl (fun l c => apply_content c l) (lists_of sto) cs /\ same_but_lists sto sto'.
Proof.
  induction 1 as [sto|c cs sto sto1 sto2 Hh _ [IHl IHs]]; [by split|]. split.
  - cbn [foldl]. by rewrite <- (proposal_lists _ _ _ Hh).
  - destruct (proposal_same _ _ _ Hh) as (Ha & Hp & Hk), IHs as (Ha' & Hp' & Hk').
    split_and!; [congruence..|]. intros k Hn. by rewrite Hk', Hk.
Qed.

End Lists.

(** ** The lists at work *)
Section Enforced.
Context {St AK C G : Type} `{KVStore St, SdkCoins C, AccountKeeper AK C, Keccak, SdkConfig}.
Context `{GasMeters G, GasTable, VM, EthTypes, ResultCodec, ConfigCodec, GovLimits, Bech32}.
Context (BlacklistedAddr : Address -> bool).
Context `{!KVStoreLaws St, !SdkCoinsLaws C, !KeccakLaws, !AccountKeeperLaws AK C}.
Abbreviation csdb := (CommitStateDB St AK C).
Abbreviation stores := (Stores St AK).
Abbreviation lists_of := (lists_of (C := C) (AK := AK)).
Abbreviation open := (open (C := C)).
Abbreviation passed := (passed (C := C)).
Implicit Types (s : csdb) (st : StateTransition) (m : G) (sto : stores).

Lemma calm_kvstore s s' : calm s s' -> kvstore s' = kvstore s.
Proof. intros [Hc _ _]. unfold ctxv in Hc. congruence. Qed.

Lemma create_checked hd config st g s n r s' :
  run_message hd config st g s = Ret (inr (n, r), s') -> st_Recipient st = None ->
  EnableContractDeploymentWhitelist (StateDB.GetParams s).1 = true -> IsDeployerInWhitelist s (Address_Bytes (st_Sender st)) = true.
Proof.
  unfold run_message. destruct (StateDB.GetParams s) as [p s0] eqn:Hp. cbn [fst]. intros Hr Hn He. bind_inv Hr.
  destruct r0 as [n0 s1]. bind_inv Hr. rename r0 into s2. rewrite Hn in Hr.
  destruct (EnableCreate p); [|done]. cbn [negb] in Hr. rewrite He in Hr.
  assert (calm s s2) as Hc%calm_kvstore.
  { transitivity s0; [by eapply calm_GetParams|]. transitivity s1.
    - apply (calm_read s0 (QNonce (st_Sender st)) (VZ n0)). cbn. by rewrite Hr0.
    - by apply (calm_exec (OpSetNonce (st_Sender st) (st_AccountNonce st))). }
  unfold IsDeployerInWhitelist in *. rewrite <- Hc. by destruct (kv_has (kvstore s2) _).
Qed.

Lemma transition_checked hd config st s m exe data s' m' :
  TransitionDb BlacklistedAddr hd config st s m = Ret (TrOk exe data s', m') -> st_Recipient st = None ->
  EnableContractDeploymentWhitelist (StateDB.GetParams s).1 = true -> IsDeployerInWhitelist s (Address_Bytes (st_Sender st)) = true.
Proof.
  unfold TransitionDb. intros Ht Hn He. destruct (IntrinsicGas _ _ _ _) as [cost|]; [|done]. bind_inv Ht.
  destruct (run_message _ _ _ _ _) as [[[e|[n r1]] s1]|[]] eqn:Hr in Ht; try done. by eapply create_checked.
Qed.

Lemma deployment_checked tc st txHash sto k k' x m :
  run_transition BlacklistedAddr tc st txHash sto k = (k', Ret (inr x, m)) -> st_Recipient st = None ->
  EnableContractDeploymentWhitelist (sto_ps sto) = true -> Address_Bytes (st_Sender st) ∈ sp_deployers (lists_of sto).
Proof.
  unfold run_transition. intros Hr Hn He. rewrite elem_of_deployers.
  destruct (prepare_db txHash (st_Simulate st) sto k) as [s k1] eqn:Hd.
  assert (kvstore s = sto_kv sto /\ (StateDB.GetParams s).1 = sto_ps sto) as [Hkv Hps].
  { unfold prepare_db in Hd. destruct (st_Simulate st); by injection Hd as <- <-. }
  destruct (GetChainConfig (sto_kv sto)) as [[config|]|]; [|done..].
  destruct (TransitionDb _ _ _ _ _ _) as [[[e|exe data s1] m1]|] eqn:Ht; [done| |done].
  rewrite <- Hkv. eapply transition_checked; [exact Ht|done|by rewrite Hps].
Qed.

Lemma blocked_code_panics sto a : EnableContractBlockedList (sto_ps sto) = true ->
  Address_Bytes a ∈ sp_blocked (lists_of sto) -> GetCode (open sto) a = Panic (PanicAddr a).
Proof.
  intros He Ha%elem_of_blocked. unfold GetCode, StateDB.GetParams, IsContractInBlockedList. cbn [params open EvmLists.open CreateEmptyCommitStateDB paramSpace].
  rewrite He. assert (kvstore ((open sto) <| params := Some (sto_ps sto) |>) = sto_kv sto) as -> by done. cbn [andb]. by rewrite Ha.
Qed.

(** C16: after any proposals that passed, the two lists are exactly the sets
    the proposals describe, listed in ascending order without repetition;
    nothing else in the stores has changed; a transaction that succeeds in
    deploying a contract while the deployment list is enabled has its sender
    on that list; and the code of a contract on the blocked list cannot be
    read while that list is enabled. *)
Theorem lists_follow_proposals cs sto sto' : passed cs sto sto' ->
  lists_of sto' = foldl (fun l c => apply_content c l) (lists_of sto) cs /\
  StronglySorted (fun x y => bytes_lt x y = true) (GetContractDeploymentWhitelist (open sto')) /\
  StronglySorted (fun x y => bytes_lt x y = true) (GetContractBlockedList (open sto')) /\
  same_but_lists sto sto' /\
  (forall tc st txHash k k' x m, run_transition BlacklistedAddr tc st txHash sto' k = (k', Ret (inr x, m)) ->
     st_Recipient st = None -> EnableContractDeploymentWhitelist (sto_ps sto') = true ->
     Address_Bytes (st_Sender st) ∈ sp_deployers (lists_of sto')) /\
  (forall a, EnableContractBlockedList (sto_ps sto') = true -> Address_Bytes a ∈ sp_blocked (lists_of sto') ->
     GetCode (open sto') a = Panic (PanicAddr a)).
Proof.
  intros Hp. destruct (passed_lists _ _ _ Hp) as [Hl Hs].
  split_and!; [exact Hl|apply sorted_members|apply sorted_members|exact Hs| |apply blocked_code_panics].
  intros tc st txHash k k' x m. apply deployment_checked.
Qed.

End Enforced.
End EvmLists.
