(* ===== verification/EvmGenesis.v ===== *)
(** Genesis and invariants of the EVM module (evm/genesis.go,
    evm/types/genesis.go, evm/types/logs.go, evm/types/storage.go,
    evm/keeper/invariants.go, evm/keeper/statedb.go), in the default mode
    of import and export: the files and databases of the other modes are
    input and output. *)
From S2P Require Import Prelude.
From S2P Require Import Interfaces.
From S2P Require Import GoStrings.
From S2P Require Import Account.
From S2P Require Import StateObject.
From S2P Require Import StateDB.
From S2P Require Import EthMsg.
From S2P Require Import Ante.
From S2P Require Import Transition.
From S2P Require Import EvmKeeper.
From S2P Require Import EvmLists.
Import StateObject StateDB EvmKeeper EvmLists.

(** [AccountKeeper.IterateAccounts] *)
Class AccountIteration (AK C : Type) := IterateAccounts : AK -> list (Account C).
Class AccountIterationLaws (AK C : Type) `{AccountKeeper AK C, AccountIteration AK C} :=
  elem_of_accounts ak acc : AEth acc ∈ IterateAccounts ak <-> GetAccount ak (acc_Address acc) = Some (AEth acc).

(** Of go-ethereum: hexadecimal text, and which EIPs can be activated. *)
Class GenesisText := {
  Address_String : Address -> string;
  HexToAddress : string -> Address;
  FromHex : string -> bytes;
  ValidEip : Z -> bool;
  (** the bytes of the zero [ChainConfig] *)
  MarshalZeroConfig : bytes;
}.

Record GenesisAccount := mkGenesisAccount { ga_Address : string; ga_Code : option bytes; ga_Storage : list State }.
(** A log is a pointer. *)
Record TransactionLogs := mkTransactionLogs { tl_Hash : Hash; tl_Logs : list (option Log) }.
(** The zero configuration, with nil blocks, is [None]. *)
Record GenesisState := mkGenesisState {
  gs_Accounts : list GenesisAccount; gs_TxsLogs : list TransactionLogs;
  gs_ContractDeploymentWhitelist : list bytes; gs_ContractBlockedList : list bytes;
  gs_ChainConfig : option ChainConfig; gs_Params : Params;
}.

Inductive genesis_error :=
  | EZeroAddress | EEmptyCode | EInvalidState (index : nat) | EEmptyStateKey | EDuplicatedAccount (a : string)
  | EEmptyHash | ENilLog | EEmptyLogAddress | EEmptyBlockHash | EZeroBlockNumber | EEmptyTxHash | ETxHashMismatch
  | EDuplicatedLogs (h : Hash) | EInvalidAccount (a : string) (e : genesis_error) | EInvalidLogs (h : Hash) (e : genesis_error)
  | EInvalidLog (index : nat) (e : genesis_error)
  | EUninitializedBlock | EBlankHash | EHashLength (n : nat) | EEip (eip : Z).

Module EvmGenesis.
Section Genesis.
Context {St AK C : Type} `{KVStore St, SdkCoins C, AccountKeeper AK C, Keccak, SdkConfig, ConfigCodec, AccountIteration AK C, GenesisText}.
Context (BlacklistedAddr : Address -> bool).
Abbreviation csdb := (CommitStateDB St AK C).
Abbreviation stores := (Stores St AK).
Implicit Types (s : csdb) (sto : stores).

(** *** storage.go, logs.go, chain_config.go, params.go: validation *)

Definition State_Validate (st : State) : option genesis_error := if (State_Key st =? 0)%N then Some EEmptyStateKey else None.
Fixpoint validate_states (i : nat) (seen : gset Hash) (l : list State) : option genesis_error :=
  match l with
  | [] => None
  | st :: l' =>
      if bool_decide (State_Key st ∈ seen) then Some (EInvalidState i)
      else match State_Validate st with
           | Some e => Some e
           | None => validate_states (S i) ({[State_Key st]} ∪ seen) l'
           end
  end.
Definition Storage_Validate (l : list State) : option genesis_error := validate_states 0 ∅ l.

Definition ValidateLog (log : option Log) : option genesis_error :=
  match log with
  | None => Some ENilLog
  | Some log =>
      if (log_Address log =? 0)%N then Some EEmptyLogAddress
      else if (log_BlockHash log =? 0)%N then Some EEmptyBlockHash
      else if (log_BlockNumber log =? 0)%Z then Some EZeroBlockNumber
      else if (log_TxHash log =? 0)%N then Some EEmptyTxHash else None
  end.
Fixpoint validate_logs (i : nat) (hash : Hash) (l : list (option Log)) : option genesis_error :=
  match l with
  | [] => None
  | log :: l' =>
      match ValidateLog log with
      | Some e => Some (EInvalidLog i e)
      | None =>
          match log with
          | Some lg => if (log_TxHash lg =? hash)%N then validate_logs (S i) hash l' else Some ETxHashMismatch
          | None => Some ENilLog
          end
      end
  end.
Definition TransactionLogs_Validate (tx : TransactionLogs) : option genesis_error :=
  if (tl_Hash tx =? 0)%N then Some EEmptyHash else validate_logs 0 (tl_Hash tx) (tl_Logs tx).

Definition validateHash (hex : string) : option genesis_error :=
  if negb (String.eqb hex "") && is_blank hex then Some EBlankHash
  else
    let lenHex := length (FromHex hex) in
    if (0 <? lenHex) && negb (lenHex =? 32) then Some (EHashLength lenHex) else None.
(** The blocks of a configuration that is not zero are set. *)
Definition ChainConfig_Validate (cc : option ChainConfig) : option genesis_error :=
  match cc with None => Some EUninitializedBlock | Some cc => validateHash (EIP150Hash cc) end.
Fixpoint validateEIPs (eips : list Z) : option genesis_error :=
  match eips with
  | [] => None
  | eip :: rest => if ValidEip eip then validateEIPs rest else Some (EEip eip)
  end.
Definition Params_Validate (p : Params) : option genesis_error := validateEIPs (ExtraEIPs p).

(** *** types/genesis.go *)

Definition GenesisAccount_Validate (ga : GenesisAccount) : option genesis_error :=
  if String.eqb (ga_Address ga) (Address_String 0%N) then Some EZeroAddress
  else if go_len (ga_Code ga) =? 0 then Some EEmptyCode
  else Storage_Validate (ga_Storage ga).
Fixpoint validate_accounts (seen : gset string) (l : list GenesisAccount) : option genesis_error :=
  match l with
  | [] => None
  | acc :: l' =>
      if bool_decide (ga_Address acc ∈ seen) then Some (EDuplicatedAccount (ga_Address acc))
      else match GenesisAccount_Validate acc with
           | Some e => Some (EInvalidAccount (ga_Address acc) e)
           | None => validate_accounts ({[ga_Address acc]} ∪ seen) l'
           end
  end.
Fixpoint validate_txs (seen : gset Hash) (l : list TransactionLogs) : option genesis_error :=
  match l with
  | [] => None
  | tx :: l' =>
      if bool_decide (tl_Hash tx ∈ seen) then Some (EDuplicatedLogs (tl_Hash tx))
      else match TransactionLogs_Validate tx with
           | Some e => Some (EInvalidLogs (tl_Hash tx) e)
           | None => validate_txs ({[tl_Hash tx]} ∪ seen) l'
           end
  end.
Definition GenesisState_Validate (gs : GenesisState) : option genesis_error :=
  match validate_accounts ∅ (gs_Accounts gs) with
  | Some e => Some e
  | None =>
      match validate_txs ∅ (gs_TxsLogs gs) with
      | Some e => Some e
      | None => match ChainConfig_Validate (gs_ChainConfig gs) with Some e => Some e | None => Params_Validate (gs_Params gs) end
      end
  end.
Definition DefaultMaxGasLimitPerTx : Z := 30000000.
Definition DefaultParams : Params := mkParams false false [] false false DefaultMaxGasLimitPerTx.
Definition DefaultGenesisState : GenesisState :=
  mkGenesisState [] [] [] [] (Some Transition.DefaultChainConfig) DefaultParams.

(** *** keeper.go, keeper_direct.go, keeper/statedb.go *)

Definition GetAccountStorage sto (address : Address) : res (list State) :=
  fst <$> ForEachStorage (open sto : csdb) address (fun key value storage => (false, storage ++ [NewState key value])) [].
Definition SetStateDirectly (kv : St) (addr : Address) (key value : Hash) : St :=
  kv_set kv (AddressStoragePrefix addr ++ Hash_Bytes key) (Hash_Bytes value).
Definition Keeper_GetBalance sto addr : res Z := fst <$> GetBalance (open sto : csdb) addr.
Definition Keeper_GetCode sto addr : res (option bytes) := fst <$> GetCode (open sto : csdb) addr.
Definition Keeper_GetState sto addr (hash : Hash) : res Hash := fst <$> GetState (open sto : csdb) addr hash.
(** The error of [Finalise] is dropped. *)
Definition finalised s : res stores := '(_, s) ← Finalise BlacklistedAddr false s; Ret (close s).
Definition Keeper_SetBalance sto addr (amount : Z) : res stores := s ← SetBalance (open sto) addr amount; finalised s.
Definition Keeper_SetNonce sto addr (nonce : Z) : res stores := s ← SetNonce (open sto) addr nonce; finalised s.

(** *** genesis.go *)

Definition import_account (account : GenesisAccount) s : res csdb :=
  let address := HexToAddress (ga_Address account) in
  match GetAccount (accounts s) address with
  | None => Panic (PanicMsg "account not found")
  | Some (AOther _) => Panic (PanicMsg "account must be an EthAccount")
  | Some (AEth acc) =>
      let evmBalance := AmountOf (acc_Coins acc) DefaultBondDenom in
      s ← SetNonce s address (acc_Sequence acc);
      s ← SetBalance s address evmBalance;
      s ← (match ga_Code account with Some code => SetCode s address (Some code) | None => Ret s end);
      Ret (s <| kvstore := foldl (fun kv st => SetStateDirectly kv address (State_Key st) (State_Value st)) (kvstore s) (ga_Storage account) |>)
  end.
Fixpoint import_accounts (l : list GenesisAccount) s : res csdb :=
  match l with [] => Ret s | account :: l' => s ← import_account account s; import_accounts l' s end.
Definition InitGenesis (data : GenesisState) sto : res stores :=
  let s := open (mkStores _ _ (sto_kv sto) (sto_ak sto) (gs_Params data)) : csdb in
  s ← import_accounts (gs_Accounts data) s;
  let s := SetContractDeploymentWhitelist s (gs_ContractDeploymentWhitelist data) in
  let s := SetContractBlockedList s (gs_ContractBlockedList data) in
  '(_, err, s) ← Commit BlacklistedAddr false s;
  match err with
  | Some _ => Panic (PanicMsg "Commit")
  | None =>
      '(err, s) ← Finalise BlacklistedAddr false s;
      match err with
      | Some _ => Panic (PanicMsg "Finalise")
      | None =>
          let sto := close s in
          Ret (mkStores _ _ (match gs_ChainConfig data with
                             | Some config => SetChainConfig (sto_kv sto) config
                             | None => kv_set (sto_kv sto) (KeyPrefixChainConfig ++ []) MarshalZeroConfig
                             end)
                 (sto_ak sto) (sto_ps sto))
      end
  end.

Fixpoint export_accounts sto (l : list (Account C)) s : res (list GenesisAccount * csdb) :=
  match l with
  | [] => Ret ([], s)
  | AOther _ :: l' => export_accounts sto l' s
  | AEth ethAccount :: l' =>
      let addr := Account.EthAddress ethAccount in
      '(code, s) ← GetCode s addr;
      storage ← GetAccountStorage sto addr;
      '(rest, s) ← export_accounts sto l' s;
      Ret (mkGenesisAccount (Address_String addr) code storage :: rest, s)
  end.
Definition ExportGenesis sto : res GenesisState :=
  '(ethGenAccounts, s) ← export_accounts sto (IterateAccounts (sto_ak sto)) (open sto);
  config ← GetChainConfig (sto_kv sto);
  Ret (mkGenesisState ethGenAccounts [] (GetContractDeploymentWhitelist s) (GetContractBlockedList s) config (sto_ps sto)).

(** *** keeper/invariants.go: the number of mismatches decides *)
Fixpoint count_mismatches (matches : csdb -> EthAccount C -> res (bool * csdb)) (l : list (Account C)) s : res nat :=
  match l with
  | [] => Ret 0
  | AOther _ :: l' => count_mismatches matches l' s
  | AEth ethAccount :: l' =>
      '(ok, s) ← matches s ethAccount;
      n ← count_mismatches matches l' s;
      Ret (if ok : bool then n else S n)
  end.
Definition balance_matches s (acc : EthAccount C) : res (bool * csdb) :=
  '(evmBalance, s) ← GetBalance s (Account.EthAddress acc);
  Ret ((evmBalance =? AmountOf (acc_Coins acc) DefaultBondDenom)%Z, s).
Definition nonce_matches s (acc : EthAccount C) : res (bool * csdb) :=
  '(evmNonce, s) ← GetNonce s (Account.EthAddress acc);
  Ret ((evmNonce =? acc_Sequence acc)%Z, s).
Definition BalanceInvariant sto : res bool :=
  count ← count_mismatches balance_matches (IterateAccounts (sto_ak sto)) (open sto); Ret (negb (count =? 0)).
Definition NonceInvariant sto : res bool :=
  count ← count_mismatches nonce_matches (IterateAccounts (sto_ak sto)) (open sto); Ret (negb (count =? 0)).

End Genesis.
End EvmGenesis.
