(* ===== verification/EvmGenesisSpec.v ===== *)
(** What the invariants of the EVM module can find, and which stores can be
    exported and imported again. *)
From S2P Require Import Prelude.
From S2P Require Import Interfaces.
From S2P Require Import Account.
From S2P Require Import StateObject.
From S2P Require Import StateDB.
From S2P Require Import StateObjectSpec.
From S2P Require Import StateDBInv.
From S2P Require Import StateDBSnapshot.
From S2P Require Import StateDBLogs.
From S2P Require Import EthMsg.
From S2P Require Import Ante.
From S2P Require Import Transition.
From S2P Require Import EvmKeeper.
From S2P Require Import TransitionSpec.
From S2P Require Import EvmMain.
From S2P Require Import EvmLists.
From S2P Require Import EvmGenesis.
Import StateObject StateDB StateObjectSpec StateDBInv StateDBSnapshot StateDBLogs EvmKeeper EvmMain EvmLists EvmGenesis.

Module EvmGenesisSpec.
Section Spec.
Context {St AK C : Type} `{KVStore St, SdkCoins C, AccountKeeper AK C, Keccak, SdkConfig, ConfigCodec, AccountIteration AK C, GenesisText}.
Context `{!KVStoreLaws St, !SdkCoinsLaws C, !KeccakLaws, !AccountKeeperLaws AK C, !AccountIterationLaws AK C}.
Abbreviation csdb := (CommitStateDB St AK C).
Abbreviation stores := (Stores St AK).
Implicit Types (s : csdb) (sto : stores) (acc : EthAccount C).

(** A database that has only read since it was opened. *)
Record reading sto s : Prop := {
  rd_wf : wf s;
  rd_observe q : observe q s = observe q (open sto);
  rd_kvstore : kvstore s = sto_kv sto;
}.
Lemma reading_open sto : stores_ok sto -> reading sto (open sto).
Proof. intros Hok. split; [by apply empty_wf|done|done]. Qed.
Lemma reading_step sto s q v : reading sto s -> observe q (open sto) = Ret v -> exists s', read q s = Ret (v, s') /\ reading sto s'.
Proof.
  intros [Hw Ho Hk] Hv. destruct (read_observed s q Hw) as [Hq Hs]. rewrite Ho, Hv in Hq.
  destruct (read q s) as [[v' s']|] eqn:Hr; [|done]. injection Hq as ->. exists s'. split; [done|].
  destruct (Hs _ _ eq_refl) as [Hw' Ho']. split; [done|intros q'; by rewrite Ho', Ho|].
  apply calm_read in Hr as [Hc _ _]. unfold ctxv in Hc. congruence.
Qed.

(** The object made for an account. *)
Record loaded acc (so : stateObject C) : Prop := {
  ld_balance : so_Balance so = AmountOf (acc_Coins acc) DefaultBondDenom;
  ld_nonce : Nonce so = acc_Sequence acc;
  ld_code : so_code so = None;
  ld_hash : CodeHash so = match acc_CodeHash acc with None | Some [] => emptyCodeHash | Some h => h end;
  ld_address : address so = acc_Address acc;
  ld_dirty : keyToDirtyStorageIndex so = ∅;
}.
Lemma newStateObject_loaded acc : exists so, newStateObject (AEth acc) = Ret so /\ loaded acc so.
Proof.
  unfold newStateObject. eexists. split; [done|]. split; try done; destruct (acc_CodeHash acc) as [[|x h]|] eqn:E; unfold so_Balance, Nonce, Account.Balance, CodeHash; cbn; rewrite ?E; try done.
  by destruct emptyCodeHash.
Qed.

(** What is observed of an account in the stores. *)
Lemma observed_account {X} (mk : X -> value) d f sto acc : GetAccount (sto_ak sto) (acc_Address acc) = Some (AEth acc) ->
  exists so, loaded acc so /\ lookup_obj (open sto : csdb) (acc_Address acc) = Ret (Some so) /\
    observe_obj mk d f (lookup_obj (open sto : csdb) (acc_Address acc)) = Ret (mk (f so)).
Proof.
  intros Ha. change (lookup_obj (open sto : csdb) (acc_Address acc)) with (load (C := C) (sto_ak sto) (acc_Address acc)).
  unfold load. rewrite Ha. destruct (newStateObject_loaded acc) as (so & -> & Hso). by exists so.
Qed.

(** ** Invariants *)
Lemma no_mismatch sto (matches : csdb -> EthAccount C -> res (bool * csdb)) (l : list (Account C)) s :
  (forall s acc, reading sto s -> AEth acc ∈ l -> exists s', matches s acc = Ret (true, s') /\ reading sto s') ->
  reading sto s -> count_mismatches matches l s = Ret 0.
Proof.
  revert s. induction l as [|[acc|b] l IH]; intros s Hm Hs; cbn [count_mismatches]; [done| |].
  - destruct (Hm s acc Hs) as (s' & -> & Hs'); [by left|]. cbn [mbind res_bind].
    rewrite (IH s'); [done| |done]. intros s1 acc1 Hs1 Hin. apply Hm; [done|by right].
  - apply IH; [|done]. intros s1 acc1 Hs1 Hin. apply Hm; [done|by right].
Qed.

Lemma balance_found sto s acc : reading sto s -> GetAccount (sto_ak sto) (acc_Address acc) = Some (AEth acc) ->
  exists s', balance_matches s acc = Ret (true, s') /\ reading sto s'.
Proof.
  intros Hs Ha. destruct (observed_account VZ 0%Z so_Balance sto acc Ha) as (so & Hso & _ & Ho).
  destruct (reading_step sto s (QBalance (acc_Address acc)) _ Hs Ho) as (s' & Hr & Hs'). exists s'. split; [|done].
  cbn [read] in Hr. unfold balance_matches, answer in *. destruct (GetBalance s _) as [[x s1]|]; [|done]. cbn in Hr |- *.
  injection Hr as -> ->. by rewrite (ld_balance _ _ Hso), Z.eqb_refl.
Qed.
Lemma nonce_found sto s acc : reading sto s -> GetAccount (sto_ak sto) (acc_Address acc) = Some (AEth acc) ->
  exists s', nonce_matches s acc = Ret (true, s') /\ reading sto s'.
Proof.
  intros Hs Ha. destruct (observed_account VZ 0%Z Nonce sto acc Ha) as (so & Hso & _ & Ho).
  destruct (reading_step sto s (QNonce (acc_Address acc)) _ Hs Ho) as (s' & Hr & Hs'). exists s'. split; [|done].
  cbn [read] in Hr. unfold nonce_matches, answer in *. destruct (GetNonce s _) as [[x s1]|]; [|done]. cbn in Hr |- *.
  injection Hr as -> ->. by rewrite (ld_nonce _ _ Hso), Z.eqb_refl.
Qed.

(** The two invariants the module registers are never broken, in
    whatever state: the database they read is opened on the accounts they
    compare with. *)
Theorem keeper_invariants_vacuous sto : stores_ok sto -> BalanceInvariant sto = Ret false /\ NonceInvariant sto = Ret false.
Proof.
  intros Hok. unfold BalanceInvariant, NonceInvariant. rewrite !(no_mismatch sto); try by apply reading_open.
  - done.
  - intros s acc Hs Hin%elem_of_accounts. by apply nonce_found.
  - intros s acc Hs Hin%elem_of_accounts. by apply balance_found.
Qed.

(** ** Export *)

(** The accounts of the module, and what the stores hold of them. *)
Definition eth_accounts (l : list (Account C)) : list (EthAccount C) :=
  omap (fun a => match a with AEth acc => Some acc | AOther _ => None end) l.
Definition has_no_code acc : Prop := acc_CodeHash acc = None \/ acc_CodeHash acc = Some emptyCodeHash.
Definition stored_code (kv : St) acc : option bytes :=
  let hash := match acc_CodeHash acc with None | Some [] => emptyCodeHash | Some h => h end in
  if bool_decide (hash = emptyCodeHash) then None else kv_get kv (KeyPrefixCode ++ hash).
Definition stored_states (kv : St) (a : Address) : list State :=
  (fun e => NewState (BytesToHash e.1) (BytesToHash e.2)) <$> kv_iterator kv (AddressStoragePrefix a).
Definition exported (kv : St) acc : GenesisAccount :=
  mkGenesisAccount (Address_String (acc_Address acc)) (stored_code kv acc) (stored_states kv (acc_Address acc)).
Definition blocked sto acc : bool :=
  EnableContractBlockedList (sto_ps sto) && kv_has (sto_kv sto) (getContractBlockedListMemberKey (Address_Bytes (acc_Address acc))).

Lemma for_each_storage_clean (so : stateObject C) l (x : list State) : keyToDirtyStorageIndex so = ∅ ->
  for_each_storage so (fun k v st => (false, st ++ [NewState k v])) l x
  = Ret (x ++ ((fun e => NewState (BytesToHash e.1) (BytesToHash e.2)) <$> l)).
Proof.
  intros Hd. revert x. induction l as [|[k v] l IH]; intros x; [by rewrite app_nil_r|].
  cbn [for_each_storage]. rewrite Hd, lookup_empty. cbn [mbind res_bind]. rewrite IH, <- app_assoc. done.
Qed.
Lemma GetAccountStorage_stored sto acc : stores_ok sto -> GetAccount (sto_ak sto) (acc_Address acc) = Some (AEth acc) ->
  GetAccountStorage sto (acc_Address acc) = Ret (stored_states (sto_kv sto) (acc_Address acc)).
Proof.
  intros Hok Ha. destruct (observed_account VZ 0%Z so_Balance sto acc Ha) as (so & Hso & Hl & _).
  destruct (getStateObject_cases (open sto : csdb) (acc_Address acc)) as [(o & s' & Hg & Hl' & _ & _ & Hsame)|(p & _ & Hp)];
    [by apply empty_wf|..|congruence].
  assert (o = Some so) as -> by congruence. unfold GetAccountStorage, ForEachStorage. rewrite Hg. cbn [mbind res_bind].
  pose proof (same_aux _ _ Hsame) as Hk. unfold aux in Hk. injection Hk as Hk _ _ _ _ _ _ _ _ _ _ _.
  rewrite <- Hk, (ld_address _ _ Hso), for_each_storage_clean by apply Hso. done.
Qed.

Lemma code_exported sto s acc : stores_ok sto -> reading sto s -> GetAccount (sto_ak sto) (acc_Address acc) = Some (AEth acc) ->
  if blocked sto acc then GetCode s (acc_Address acc) = Panic (PanicAddr (acc_Address acc))
  else exists s', GetCode s (acc_Address acc) = Ret (stored_code (sto_kv sto) acc, s') /\ reading sto s'.
Proof.
  intros Hok Hs Ha. destruct (observed_account VBytes None (code_of (sto_kv sto)) sto acc Ha) as (so & Hso & _ & Ho).
  assert (Hq : observe (QCode (acc_Address acc)) (open sto : csdb) =
    if blocked sto acc then Panic (PanicAddr (acc_Address acc)) else Ret (VBytes (code_of (sto_kv sto) so))).
  { rewrite <- Ho. done. }
  destruct (blocked sto acc).
  - destruct (read_observed s (QCode (acc_Address acc)) (rd_wf _ _ Hs)) as [Hr _]. rewrite (rd_observe _ _ Hs), Hq in Hr.
    cbn [read] in Hr. unfold answer in Hr. destruct (GetCode s _) as [[c s1]|p]; [done|]. cbn in Hr. congruence.
  - destruct (reading_step sto s (QCode (acc_Address acc)) _ Hs Hq) as (s' & Hr & Hs'). exists s'. split; [|done].
    cbn [read] in Hr. unfold answer in Hr. destruct (GetCode s _) as [[c s1]|p]; [|done]. cbn in Hr. injection Hr as -> ->.
    do 2 f_equal. unfold code_of, stored_code. by rewrite (ld_code _ _ Hso), (ld_hash _ _ Hso).
Qed.

Lemma export_accounts_result sto l s : stores_ok sto -> reading sto s ->
  (forall acc, AEth acc ∈ l -> GetAccount (sto_ak sto) (acc_Address acc) = Some (AEth acc)) ->
  if existsb (blocked sto) (eth_accounts l) then exists a, export_accounts sto l s = Panic (PanicAddr a)
  else exists s', export_accounts sto l s = Ret (exported (sto_kv sto) <$> eth_accounts l, s') /\ reading sto s'.
Proof.
  intros Hok. revert s. induction l as [|[acc|b] l IH]; intros s Hs Hl; [by exists s| |].
  - assert (Ha : GetAccount (sto_ak sto) (acc_Address acc) = Some (AEth acc)) by (apply Hl; by left).
    pose proof (code_exported sto s acc Hok Hs Ha) as Hc. cbn [export_accounts eth_accounts omap list_omap existsb].
    change (Account.EthAddress acc) with (acc_Address acc). destruct (blocked sto acc).
    { exists (acc_Address acc). by rewrite Hc. }
    destruct Hc as (s1 & -> & Hs1). cbn [mbind res_bind orb]. rewrite GetAccountStorage_stored by done. cbn [mbind res_bind].
    specialize (IH s1 Hs1). fold (eth_accounts l). destruct (existsb _ _).
    + destruct IH as [a ->]; [|by exists a]. intros acc1 Hin. apply Hl. by right.
    + destruct IH as (s2 & -> & Hs2); [|by exists s2]. intros acc1 Hin. apply Hl. by right.
  - apply IH; [done|]. intros acc1 Hin. apply Hl. by right.
Qed.

(** An account without code does not pass the check. *)
Lemma rejected_accounts (l : list GenesisAccount) seen ga : ga ∈ l -> go_len (ga_Code ga) = 0 -> exists e, validate_accounts seen l = Some e.
Proof.
  intros Hin Hc. revert seen. induction l as [|x l IH]; intros seen; [by apply elem_of_nil in Hin|].
  cbn [validate_accounts]. case_bool_decide; [by eexists|]. apply elem_of_cons in Hin as [->|Hin].
  - unfold GenesisAccount_Validate. rewrite Hc. destruct (String.eqb _ _); by eexists.
  - destruct (GenesisAccount_Validate x); [by eexists|]. by apply IH.
Qed.

(** C17: the genesis is exported with every account's code and storage and
    both lists, unless a contract on the enabled blocked list has an
    account, for then the export panics; and an exported genesis with any
    account without code is rejected by its own validation. *)
Theorem genesis_export_limits sto config : stores_ok sto -> GetChainConfig (sto_kv sto) = Ret config ->
  if existsb (blocked sto) (eth_accounts (IterateAccounts (sto_ak sto)))
  then exists a, ExportGenesis sto = Panic (PanicAddr a)
  else exists gs, ExportGenesis sto = Ret gs /\
    gs_Accounts gs = exported (sto_kv sto) <$> eth_accounts (IterateAccounts (sto_ak sto)) /\
    gs_ContractDeploymentWhitelist gs = GetContractDeploymentWhitelist (open sto : csdb) /\
    gs_ContractBlockedList gs = GetContractBlockedList (open sto : csdb) /\
    gs_ChainConfig gs = config /\ gs_Params gs = sto_ps sto /\
    forall acc, AEth acc ∈ IterateAccounts (sto_ak sto) -> has_no_code acc -> exists e, GenesisState_Validate gs = Some e.
Proof.
  intros Hok Hc. pose proof (export_accounts_result sto (IterateAccounts (sto_ak sto)) (open sto) Hok (reading_open sto Hok)) as He.
  unfold ExportGenesis. destruct (existsb _ _).
  - destruct He as [a ->]; [by intros acc Hin%elem_of_accounts|]. by exists a.
  - destruct He as (s' & -> & Hs'); [by intros acc Hin%elem_of_accounts|]. cbn [mbind res_bind]. rewrite Hc. cbn [mbind res_bind].
    eexists. split; [done|]. cbn [gs_Accounts gs_ContractDeploymentWhitelist gs_ContractBlockedList gs_ChainConfig gs_Params].
    assert (Hkv : kvstore s' = sto_kv sto) by apply Hs'.
    split_and!; [done| | |done|done|].
    + unfold GetContractDeploymentWhitelist. by rewrite Hkv.
    + unfold GetContractBlockedList. by rewrite Hkv.
    + intros acc Hin Hno. unfold GenesisState_Validate. cbn [gs_Accounts].
      destruct (rejected_accounts (exported (sto_kv sto) <$> eth_accounts (IterateAccounts (sto_ak sto))) ∅ (exported (sto_kv sto) acc)) as [e ->];
        [| |by exists e].
      * apply list_elem_of_fmap_2. apply list_elem_of_omap. by exists (AEth acc).
      * unfold exported, stored_code. cbn [ga_Code]. rewrite bool_decide_true; [done|]. by destruct Hno as [-> | ->]; destruct emptyCodeHash.
Qed.

End Spec.
End EvmGenesisSpec.
