(* ===== verification/BloomIndex.v ===== *)
(** The index over the bloom filters of blocks (evm/types/bloombits.go,
    evm/types/indexer.go, and its part of the end of a block in
    evm/keeper/abci.go).

    Sections of 4096 blocks are turned around: for each bit of a bloom filter
    one vector says which blocks of the section have it set.  The index is a
    database of its own; it reads the blocks through an interface of the
    keeper and is written by one goroutine at a time, which the flag
    [processing] guards. *)
From S2P Require Import Prelude.
From S2P Require Import Interfaces.
From S2P Require Import StateObject.
From S2P Require Import StateDB.
From S2P Require Import Transition.
From S2P Require Import EvmKeeper.
Import StateObject StateDB Transition.
Local Open Scope Z_scope.

(** ** What the index uses of go-ethereum and Tendermint *)

(** The bits an entry sets in a bloom filter, and [types.BloomLookup]. *)
Class BloomFilters := { bloom_bits : bytes -> list Z; BloomLookup : bytes -> bytes -> bool }.
(** What [LogsBloom] adds for a log: its address and its topics. *)
Definition log_entries (lg : Log) : list bytes := Address_Bytes (log_Address lg) :: (Hash_Bytes <$> log_Topics lg).
Definition BloomByteLength : Z := 256.
Definition BloomBitLength : Z := 2048.
Class BloomFiltersLaws `{BloomFilters, EthTypes} := {
  bloom_bits_range x i : i ∈ bloom_bits x -> 0 <= i < BloomBitLength;
  BloomLookup_bits b x : BloomLookup b x = forallb (Z.testbit (be_value b)) (bloom_bits x);
  LogsBloom_covers l lg x i : lg ∈ l -> x ∈ log_entries lg -> i ∈ bloom_bits x -> Z.testbit (LogsBloom l) i = true;
}.

(** Bit [j] of a vector: the first bit is the highest of the first byte. *)
Definition vec_bit (v : bytes) (j : Z) : bool :=
  match v !! Z.to_nat (j / 8) with Some b => Z.testbit (Z_of_byte b) (7 - j mod 8) | None => false end.

(** [bloombits.Generator].  The error of [AddBloom] is dropped by the
    caller: the operation returns the generator after the call. *)
Class BloomGenerator := {
  Generator : Type;
  NewGenerator : Z -> option Generator;
  AddBloom : Generator -> Z -> bytes -> Generator;
  Bitset : Generator -> Z -> option bytes;
}.
(** Blooms added in order, the first one at [j]. *)
Fixpoint add_blooms `{BloomGenerator} (g : Generator) (j : Z) (bs : list bytes) : Generator :=
  match bs with [] => g | b :: bs' => add_blooms (AddBloom g j b) (j + 1) bs' end.
Class BloomGeneratorLaws `{BloomGenerator} := {
  NewGenerator_ok n : 0 < n -> n mod 8 = 0 -> is_Some (NewGenerator n);
  Bitset_rotates n g bs bit : NewGenerator n = Some g -> Z.of_nat (length bs) = n ->
    Forall (fun b => length b = 256%nat) bs -> 0 <= bit < BloomBitLength ->
    exists v, Bitset (add_blooms g 0 bs) bit = Some v /\ Z.of_nat (length v) = n / 8 /\
      forall j b, bs !! j = Some b -> vec_bit v (Z.of_nat j) = Z.testbit (be_value b) bit;
}.

(** [bitutil]. *)
Class BitUtil := { CompressBytes : bytes -> bytes; DecompressBytes : bytes -> Z -> option bytes }.
Class BitUtilLaws `{BitUtil} := Decompress_Compress v : DecompressBytes (CompressBytes v) (Z.of_nat (length v)) = Some v.

(** [tmtypes.GetStartBlockHeight]: the height before the first block. *)
Class StartHeight := GetStartBlockHeight : Z.

(** The interface [Keeper] of indexer.go. *)
Record IndexKeeper := mkIndexKeeper { ik_GetBlockBloom : Z -> res bytes; ik_GetHeightHash : Z -> Hash }.

Definition bloomBitsPrefix : bytes := [Byte.x42].
Definition countKey : bytes := [Byte.x63; Byte.x6f; Byte.x75; Byte.x6e; Byte.x74].
Definition sheadPrefix : bytes := [Byte.x73; Byte.x68; Byte.x65; Byte.x61; Byte.x64].
Definition BloomBitsBlocks : Z := 4096.

(** ** The state *)
Record bloomIndexer {Db Gen : Type} := mkBloomIndexer {
  bi_size : Z; bi_db : Db; bi_gen : option Gen; bi_section : Z; bi_head : Hash;
}.
Arguments bloomIndexer Db Gen : clear implicits.
Arguments mkBloomIndexer {Db Gen} _ _ _ _ _.
#[export] Instance bloomIndexer_eta Db Gen : Eta (bloomIndexer Db Gen) := fun r =>
  mkBloomIndexer (bi_size r) (bi_db r) (bi_gen r) (bi_section r) (bi_head r).
Record Indexer {Db Gen : Type} := mkIndexer { ix_backend : bloomIndexer Db Gen; storedSections : Z; processing : Z }.
Arguments Indexer Db Gen : clear implicits.
Arguments mkIndexer {Db Gen} _ _ _.
#[export] Instance Indexer_eta Db Gen : Eta (Indexer Db Gen) := fun r => mkIndexer (ix_backend r) (storedSections r) (processing r).

Module BloomIndex.
Section Index.
Context {Db : Type} `{KVStore Db, BloomGenerator, BitUtil, StartHeight}.
Abbreviation backend := (bloomIndexer Db Generator).
Abbreviation indexer := (Indexer Db Generator).
Implicit Types (db : Db) (b : backend) (i : indexer) (k : IndexKeeper) (hash : Hash) (section : Z).

(** *** bloombits.go *)

Definition initBloomIndexer db : backend := mkBloomIndexer BloomBitsBlocks db None 0 0%N.
(** The second result is whether there was no error. *)
Definition Reset section b : backend * bool :=
  let gen := NewGenerator (bi_size b) in
  (b <| bi_gen := gen |> <| bi_section := section |> <| bi_head := 0%N |>, bool_decide (is_Some gen)).
Definition Process hash (height : Z) (bloom : bytes) b : res backend :=
  gen ← deref (bi_gen b);
  Ret (b <| bi_gen := Some (AddBloom gen (u64 (height - bi_section b * bi_size b - u64 GetStartBlockHeight)) bloom) |>
         <| bi_head := hash |>).

Definition bloomBitsKey (bit section : Z) hash : bytes :=
  bloomBitsPrefix ++ be_bytes 2 bit ++ be_bytes 8 section ++ Hash_Bytes hash.
Definition ReadBloomBits db (bit section : Z) hash : option bytes := kv_get db (bloomBitsKey bit section hash).

(** The batch of a commit: [None] when a vector cannot be made. *)
Fixpoint commit_batch (gen : Generator) section hash (bits : list Z) : option (list (bytes * bytes)) :=
  match bits with
  | [] => Some []
  | bit :: bits' =>
      v ← Bitset gen bit; rest ← commit_batch gen section hash bits';
      Some ((bloomBitsKey bit section hash, CompressBytes v) :: rest)
  end.
Definition batch_Write (l : list (bytes * bytes)) db : Db := foldl (fun db kv => kv_set db kv.1 kv.2) db l.
Definition Commit b : res (backend * bool) :=
  gen ← deref (bi_gen b);
  Ret (match commit_batch gen (bi_section b) (bi_head b) (seqZ 0 BloomBitLength) with
       | Some l => (b <| bi_db := batch_Write l (bi_db b) |>, true)
       | None => (b, false)
       end).

(** *** indexer.go *)

Definition with_db i (f : Db -> Db) : indexer := i <| ix_backend := (ix_backend i) <| bi_db := f (bi_db (ix_backend i)) |> |>.
Definition sheadKey section : bytes := sheadPrefix ++ be_bytes 8 section.
Definition sectionHead section i : Hash :=
  match kv_get (bi_db (ix_backend i)) (sheadKey section) with
  | Some hash => if (length hash =? 32)%nat then BytesToHash hash else 0%N
  | None => 0%N
  end.
Definition setSectionHead section hash i : indexer := with_db i (fun db => kv_set db (sheadKey section) (Hash_Bytes hash)).
Definition removeSectionHead section i : indexer := with_db i (fun db => kv_delete db (sheadKey section)).

(** [GetValidSections] reads the number of sections from the database. *)
Definition GetValidSections i : Z :=
  match kv_get (bi_db (ix_backend i)) countKey with
  | Some data => if (length data =? 8)%nat then be_value data else 0
  | None => 0
  end.
(** The loop of [setValidSections], once for each section too many. *)
Fixpoint remove_heads (n : nat) i : indexer :=
  match n with
  | O => i
  | S n' => let i := i <| storedSections := storedSections i - 1 |> in remove_heads n' (removeSectionHead (storedSections i) i)
  end.
Definition setValidSections (sections : Z) i : indexer :=
  let i := with_db i (fun db => kv_set db countKey (be_bytes 8 sections)) in
  (remove_heads (Z.to_nat (storedSections i - sections)) i) <| storedSections := sections |>.

Definition InitIndexer db : indexer :=
  let i := mkIndexer (initBloomIndexer db) 0 0 in setValidSections (GetValidSections i) i.
Definition StoredSection (i : option indexer) : Z := match i with Some i => storedSections i | None => 0 end.
Definition IsProcessing i : bool := processing i =? 1.

(** The blocks of a section; [None] when one is not known. *)
Fixpoint process_numbers k (numbers : list Z) (lastHead : Hash) b : res (backend * option Hash) :=
  match numbers with
  | [] => Ret (b, Some lastHead)
  | number :: rest =>
      if number =? u64 GetStartBlockHeight
      then b ← Process 0%N number (replicate 256 x00) b; process_numbers k rest 0%N b
      else
        let hash := ik_GetHeightHash k number in
        if (hash =? 0)%N then Ret (b, None)
        else bloom ← ik_GetBlockBloom k (int64_of number);
             b ← Process hash number bloom b; process_numbers k rest hash b
  end.
(** One turn of the loop; the second result is whether it goes on. *)
Definition process_section k i : res (indexer * bool) :=
  let section := storedSections i in
  let lastHead := if 0 <? section then sectionHead (section - 1) i else 0%N in
  let '(b, ok) := Reset section (ix_backend i) in
  let i := i <| ix_backend := b |> in
  if negb ok then Ret (setValidSections 0 i, false)
  else
    let begin := u64 (section * BloomBitsBlocks + u64 GetStartBlockHeight) in
    let fin := u64 ((section + 1) * BloomBitsBlocks + u64 GetStartBlockHeight) in
    '(b, lastHead) ← process_numbers k (seqZ begin (fin - begin)) lastHead (ix_backend i);
    let i := i <| ix_backend := b |> in
    match lastHead with
    | None => Ret (i, false)
    | Some lastHead =>
        '(b, ok) ← Commit (ix_backend i);
        let i := i <| ix_backend := b |> in
        if negb ok then Ret (i, false)
        else Ret (setValidSections (section + 1) (setSectionHead section lastHead i), true)
    end.
(** [fuel]: a turn that goes on stores one section more. *)
Fixpoint process_loop (fuel : nat) k (knownSection : Z) i : res indexer :=
  if storedSections i <? knownSection then
    match fuel with
    | O => Ret i
    | S fuel => '(i, go) ← process_section k i; if (go : bool) then process_loop fuel k knownSection i else Ret i
    end
  else Ret i.
Definition ProcessSection k (interval : Z) i : res indexer :=
  if processing i =? 1 then Ret i
  else
    let i := i <| processing := 1 |> in
    let knownSection := interval / BloomBitsBlocks in
    i ← process_loop (Z.to_nat (knownSection - storedSections i)) k knownSection i;
    Ret (i <| processing := 0 |>).

(** The indexer's part of the end of a block (evm/keeper/abci.go); the
    goroutine runs to its end. *)
Definition EndBlock_index k (height : Z) (i : option indexer) : res (option indexer) :=
  match i with
  | None => Ret None
  | Some i =>
      let interval := u64 (height - GetStartBlockHeight) in
      if (u64 ((GetValidSections i + 1) * BloomBitsBlocks) <=? interval) && negb (IsProcessing i)
      then i ← ProcessSection k interval i; Ret (Some i)
      else Ret (Some i)
  end.

End Index.

(** ** The index over a chain

    [hash_at] and [bloom_at] are what the keeper knows of the blocks; the
    height before the first one counts as an empty block. *)
Section Chain.
Context {Db : Type} `{KVStore Db, !KVStoreLaws Db, BloomGenerator, !BloomGeneratorLaws, BitUtil, StartHeight}.
Context (hash_at : Z -> Hash) (bloom_at : Z -> bytes).
Abbreviation indexer := (Indexer Db Generator).
Implicit Types (db : Db) (b : bloomIndexer Db Generator) (i : indexer) (k : IndexKeeper) (section : Z).

Definition bloom_of (n : Z) : bytes := if n =? GetStartBlockHeight then replicate 256 x00 else bloom_at n.
Definition hash_of (n : Z) : Hash := if n =? GetStartBlockHeight then 0%N else hash_at n.
(** The first and the last block of a section. *)
Definition first_of section : Z := section * BloomBitsBlocks + GetStartBlockHeight.
Definition last_of section : Z := first_of section + BloomBitsBlocks - 1.

(** The vector of a bit over a section. *)
Definition rotated (bit section : Z) (v : bytes) : Prop :=
  Z.of_nat (length v) = BloomBitsBlocks / 8 /\
  forall j, 0 <= j < BloomBitsBlocks -> vec_bit v j = Z.testbit (be_value (bloom_of (first_of section + j))) bit.
Record index_ok i : Prop := {
  ok_size : bi_size (ix_backend i) = BloomBitsBlocks;
  ok_stored : 0 <= storedSections i /\ first_of (storedSections i) < 2 ^ 63;
  ok_count : GetValidSections i = storedSections i;
  ok_heads section : 0 <= section < storedSections i -> sectionHead section i = hash_at (last_of section);
  ok_bits section bit : 0 <= section < storedSections i -> 0 <= bit < BloomBitLength ->
    exists v, ReadBloomBits (bi_db (ix_backend i)) bit section (hash_at (last_of section)) = Some (CompressBytes v) /\ rotated bit section v;
}.
(** The keeper knows the blocks below [h]. *)
Record knows k (h : Z) : Prop := {
  kn_bloom n : GetStartBlockHeight < n < h -> ik_GetBlockBloom k n = Ret (bloom_at n) /\ length (bloom_at n) = 256%nat;
  kn_hash n : GetStartBlockHeight < n < h -> ik_GetHeightHash k n = hash_at n /\ hash_at n ≠ 0%N /\ hash_ok (hash_at n);
}.
Hypothesis start_ok : 0 <= GetStartBlockHeight < 2 ^ 62.

(** *** Keys *)

Lemma bloomBitsKey_inj bit section hash bit' section' hash' :
  0 <= bit < BloomBitLength -> 0 <= bit' < BloomBitLength -> 0 <= section < 2 ^ 63 -> 0 <= section' < 2 ^ 63 ->
  bloomBitsKey bit section hash = bloomBitsKey bit' section' hash' -> bit = bit' /\ section = section'.
Proof.
  unfold bloomBitsKey, BloomBitLength. intros Hb Hb' Hs Hs' Heq%app_inv_head.
  apply app_inj_1 in Heq as [Hbit Heq]; [|by rewrite !length_be_bytes].
  apply app_inj_1 in Heq as [Hsec _]; [|by rewrite !length_be_bytes].
  apply be_bytes_inj in Hbit; [|lia..]. apply be_bytes_inj in Hsec; [done|lia..].
Qed.
Lemma sheadKey_inj section section' : 0 <= section < 2 ^ 63 -> 0 <= section' < 2 ^ 63 ->
  sheadKey section = sheadKey section' -> section = section'.
Proof. unfold sheadKey. intros Hs Hs' Heq%app_inv_head. apply be_bytes_inj in Heq; lia. Qed.

(** *** Batches *)

Lemma batch_Write_cons key v l db : batch_Write ((key, v) :: l) db = batch_Write l (kv_set db key v).
Proof. done. Qed.
Lemma batch_Write_other l : forall db key, key ∉ l.*1 -> kv_get (batch_Write l db) key = kv_get db key.
Proof.
  induction l as [|[key' v] l IH]; intros db key Hk; [done|]. apply not_elem_of_cons in Hk as [Hne Hk].
  cbn in Hne. rewrite batch_Write_cons, IH by done. rewrite kv_get_set. by rewrite decide_False by congruence.
Qed.
Lemma batch_Write_in l : forall db key v, NoDup l.*1 -> (key, v) ∈ l -> kv_get (batch_Write l db) key = Some v.
Proof.
  induction l as [|[key' v'] l IH]; intros db key v Hnd Hin; [by apply elem_of_nil in Hin|].
  apply NoDup_cons in Hnd as [Hn Hnd]. apply elem_of_cons in Hin as [[= -> ->]|Hin]; [|by apply IH].
  rewrite batch_Write_cons, batch_Write_other by done. by rewrite kv_get_set, decide_True.
Qed.

Lemma commit_batch_ok gen section hash bits : (forall bit, bit ∈ bits -> is_Some (Bitset gen bit)) ->
  exists l, commit_batch gen section hash bits = Some l /\ l.*1 = (fun bit => bloomBitsKey bit section hash) <$> bits /\
    forall bit v, bit ∈ bits -> Bitset gen bit = Some v -> (bloomBitsKey bit section hash, CompressBytes v) ∈ l.
Proof.
  induction bits as [|bit bits IH]; intros Hall.
  - exists []. split; [done|]. split; [done|]. intros bit v Hin. by apply elem_of_nil in Hin.
  - destruct (Hall bit) as [v Hv]; [left|]. destruct IH as (l & Hl & Hk & Hin); [intros x Hx; apply Hall; by right|].
    cbn. rewrite Hv. cbn. rewrite Hl. cbn. eexists. split; [done|]. split; [cbn; by rewrite Hk|].
    intros x w [->|Hx]%elem_of_cons Hw; [|right; by apply Hin].
    rewrite Hv in Hw. injection Hw as ->. left.
Qed.

(** *** A section *)

Lemma u64_of_small x : 0 <= x < 2 ^ 64 -> u64 x = x.
Proof. apply u64_id. Qed.

Lemma process_numbers_ok k h section : knows k h -> 0 <= section -> h < 2 ^ 63 ->
  forall (m : nat) n lastHead b g, first_of section <= n -> n + Z.of_nat m <= h ->
  bi_gen b = Some g -> bi_section b = section -> bi_size b = BloomBitsBlocks ->
  process_numbers k (seqZ n (Z.of_nat m)) lastHead b
  = let last := match m with O => lastHead | S m' => hash_of (n + Z.of_nat m') end in
    Ret (b <| bi_gen := Some (add_blooms g (n - first_of section) (bloom_of <$> seqZ n (Z.of_nat m))) |>
           <| bi_head := match m with O => bi_head b | _ => last end |>, Some last).
Proof.
  intros [Kb Kh] Hs Hh. induction m as [|m IH]; intros n lastHead b g Hn Hm Hg Hsec Hsize.
  { destruct b. cbn in *. by subst. }
  unfold first_of, BloomBitsBlocks in *.
  rewrite seqZ_cons by lia. replace (Z.pred (Z.of_nat (S m))) with (Z.of_nat m) by lia. cbn [process_numbers fmap list_fmap add_blooms].
  rewrite (u64_of_small GetStartBlockHeight) by lia.
  assert (forall hash bloom, Process hash n bloom b
    = Ret (b <| bi_gen := Some (AddBloom g (n - (section * 4096 + GetStartBlockHeight)) bloom) |> <| bi_head := hash |>)) as Hp.
  { intros hash bloom. unfold Process. rewrite Hg. cbn [deref mbind res_bind]. rewrite Hsec, Hsize. unfold BloomBitsBlocks.
    rewrite (u64_of_small GetStartBlockHeight) by lia. rewrite u64_of_small by lia. by rewrite Z.sub_add_distr. }
  assert (forall hash, hash = hash_of n -> process_numbers k (seqZ (Z.succ n) (Z.of_nat m)) hash
     (b <| bi_gen := Some (AddBloom g (n - (section * 4096 + GetStartBlockHeight)) (bloom_of n)) |> <| bi_head := hash |>)
     = let last := hash_of (n + Z.of_nat m) in
       Ret (b <| bi_gen := Some (add_blooms (AddBloom g (n - (section * 4096 + GetStartBlockHeight)) (bloom_of n))
              (n - (section * 4096 + GetStartBlockHeight) + 1) (bloom_of <$> seqZ (Z.succ n) (Z.of_nat m))) |> <| bi_head := last |>, Some last)) as Hrest.
  { intros hash ->. erewrite IH; [|lia|lia|done..]. cbn [bi_gen set]. 
    replace (Z.succ n - (section * 4096 + GetStartBlockHeight)) with (n - (section * 4096 + GetStartBlockHeight) + 1) by lia.
    destruct m as [|m]; [cbn; by rewrite Z.add_0_r|]. replace (Z.succ n + Z.of_nat m) with (n + Z.of_nat (S m)) by lia. done. }
  assert (bloom_of n = if n =? GetStartBlockHeight then replicate 256 x00 else bloom_at n) as Hbn by done.
  assert (hash_of n = if n =? GetStartBlockHeight then 0%N else hash_at n) as Hhn by done.
  destruct (Z.eqb_spec n GetStartBlockHeight) as [Heq|Hne].
  - rewrite Hp. cbn [mbind res_bind]. rewrite <- Hbn, Hrest by done. done.
  - destruct (Kh n) as (-> & Hnz & _); [lia|]. rewrite (proj2 (N.eqb_neq _ _) Hnz).
    destruct (Kb n) as [Hbl _]; [lia|]. rewrite int64_small by lia. rewrite Hbl. cbn [mbind res_bind]. rewrite Hp. cbn [mbind res_bind].
    rewrite <- Hbn, Hrest by done. done.
Qed.

(** The database after a section: its vectors, its head, the count. *)
Definition section_db section hash (l : list (bytes * bytes)) db : Db :=
  kv_set (kv_set (batch_Write l db) (sheadKey section) (Hash_Bytes hash)) countKey (be_bytes 8 (section + 1)).

Lemma section_count section hash l db : 0 <= section < 2 ^ 63 ->
  match kv_get (section_db section hash l db) countKey with
  | Some data => if (length data =? 8)%nat then be_value data else 0
  | None => 0
  end = section + 1.
Proof.
  intros Hs. unfold section_db. rewrite kv_get_set, decide_True by done. rewrite length_be_bytes. cbn [Nat.eqb].
  rewrite be_value_be_bytes. change (256 ^ Z.of_nat 8) with (2 ^ 64). apply Z.mod_small. lia.
Qed.
Lemma section_head section hash (l : list (bytes * bytes)) db section' : 0 <= section < 2 ^ 63 -> 0 <= section' < 2 ^ 63 ->
  (forall key, key ∈ l.*1 -> exists bit, key = bloomBitsKey bit section hash) ->
  kv_get (section_db section hash l db) (sheadKey section')
  = if decide (section' = section) then Some (Hash_Bytes hash) else kv_get db (sheadKey section').
Proof.
  intros Hs Hs' Hl. unfold section_db. rewrite kv_get_set, decide_False by (by intros [=]). rewrite kv_get_set.
  destruct (decide (section' = section)) as [->|Hne]; [by rewrite decide_True|].
  rewrite decide_False by (intros Heq%sheadKey_inj; lia).
  apply batch_Write_other. intros Hin. apply Hl in Hin as [bit Hb]. discriminate Hb.
Qed.
Lemma section_bits section hash (l : list (bytes * bytes)) db key : key ≠ countKey -> (forall x, key ≠ sheadKey x) ->
  kv_get (section_db section hash l db) key = kv_get (batch_Write l db) key.
Proof. intros Hc Hs. unfold section_db. by rewrite !kv_get_set, !decide_False by done. Qed.

Lemma NoDup_bit_keys section hash : 0 <= section < 2 ^ 63 ->
  NoDup ((fun bit => bloomBitsKey bit section hash) <$> seqZ 0 BloomBitLength).
Proof.
  intros Hs. apply NoDup_fmap_2_strong; [|apply NoDup_seqZ].
  intros x y Hx%elem_of_seqZ Hy%elem_of_seqZ Heq. apply bloomBitsKey_inj in Heq; [tauto|lia..].
Qed.

Lemma length_section bs : length (bloom_of <$> seqZ bs BloomBitsBlocks) = Z.to_nat BloomBitsBlocks.
Proof. rewrite length_fmap. apply length_seqZ. Qed.

Lemma section_rotated k h section gen : knows k h -> 0 <= section -> first_of (section + 1) <= h ->
  NewGenerator BloomBitsBlocks = Some gen -> forall bit, 0 <= bit < BloomBitLength ->
  exists v, Bitset (add_blooms gen 0 (bloom_of <$> seqZ (first_of section) BloomBitsBlocks)) bit = Some v /\ rotated bit section v.
Proof.
  intros [Kb _] Hs Hh Hg bit Hbit.
  destruct (Bitset_rotates BloomBitsBlocks gen (bloom_of <$> seqZ (first_of section) BloomBitsBlocks) bit Hg) as (v & Hv & Hl & Hb).
  - rewrite length_section. by rewrite Z2Nat.id.
  - apply Forall_forall. intros b (n & -> & Hn%elem_of_seqZ)%list_elem_of_fmap. unfold bloom_of.
    destruct (Z.eqb_spec n GetStartBlockHeight); [apply length_replicate|]. apply (Kb n).
    unfold first_of, BloomBitsBlocks in *. lia.
  - done.
  - exists v. split; [done|]. split; [done|]. intros j Hj. rewrite <- (Hb (Z.to_nat j) (bloom_of (first_of section + j))).
    + by rewrite Z2Nat.id by lia.
    + rewrite list_lookup_fmap, lookup_seqZ_lt by lia. cbn. by rewrite Z2Nat.id by lia.
Qed.

Lemma process_section_runs k h i : knows k h -> index_ok i -> first_of (storedSections i + 1) <= h -> h < 2 ^ 63 ->
  exists gen l, let section := storedSections i in let hash := hash_at (last_of section) in
  (forall bit, 0 <= bit < BloomBitLength ->
     exists v, (bloomBitsKey bit section hash, CompressBytes v) ∈ l /\ rotated bit section v) /\
  l.*1 = (fun bit => bloomBitsKey bit section hash) <$> seqZ 0 BloomBitLength /\
  process_section k i = Ret (mkIndexer
    (mkBloomIndexer BloomBitsBlocks (section_db section hash l (bi_db (ix_backend i))) (Some gen) section hash)
    (section + 1) (processing i), true).
Proof.
  intros Hk [Hsize [Hs Hs2] _ _ _] Hh Hh2. set (section := storedSections i) in *. cbv zeta.
  destruct (NewGenerator_ok BloomBitsBlocks) as [gen Hgen]; [done..|].
  set (gen' := add_blooms gen 0 (bloom_of <$> seqZ (first_of section) BloomBitsBlocks)).
  destruct (commit_batch_ok gen' section (hash_at (last_of section)) (seqZ 0 BloomBitLength)) as (l & Hl & Hkeys & Hin).
  { intros bit Hbit%elem_of_seqZ. destruct (section_rotated k h section gen Hk Hs Hh Hgen bit) as (v & Hv & _); [lia|by exists v]. }
  exists gen', l. split; [|split; [done|]].
  { intros bit Hbit. destruct (section_rotated k h section gen Hk Hs Hh Hgen bit Hbit) as (v & Hv & Hr).
    exists v. split; [|done]. apply Hin; [apply elem_of_seqZ; lia|done]. }
  unfold process_section, Reset. fold section. rewrite Hsize, Hgen. rewrite bool_decide_eq_true_2 by (by eexists). cbn [negb].
  unfold first_of, BloomBitsBlocks in *.
  rewrite (u64_of_small GetStartBlockHeight) by lia. rewrite !u64_of_small by lia.
  replace ((section + 1) * 4096 + GetStartBlockHeight - (section * 4096 + GetStartBlockHeight)) with (Z.of_nat (Z.to_nat 4096)) by lia.
  erewrite (process_numbers_ok k h section Hk Hs Hh2); [|unfold first_of, BloomBitsBlocks; lia|lia|done..].
  destruct (Z.to_nat 4096) as [|m] eqn:Hm; [lia|]. cbn zeta. cbn [mbind res_bind ix_backend set].
  unfold first_of, BloomBitsBlocks. rewrite Z.sub_diag, <- Hm, Z2Nat.id by lia.
  assert (hash_of (section * 4096 + GetStartBlockHeight + Z.of_nat m) = hash_at (last_of section)) as ->.
  { unfold hash_of, last_of, first_of, BloomBitsBlocks. destruct (Z.eqb_spec (section * 4096 + GetStartBlockHeight + Z.of_nat m) GetStartBlockHeight); [lia|].
    f_equal. lia. }
  unfold Commit. cbn [bi_gen deref mbind res_bind set ix_backend bi_section bi_head bi_db].
  unfold gen', first_of, BloomBitsBlocks in Hl. rewrite Hl. cbn [negb].
  unfold setValidSections, setSectionHead, with_db. cbn [storedSections ix_backend set]. fold section.
  replace (Z.to_nat (section - (section + 1))) with 0%nat by lia. cbn [remove_heads]. unfold section_db.
  destruct i as [[] ?]. cbn in *. by subst.
Qed.

Lemma process_section_ok k h i : knows k h -> index_ok i -> first_of (storedSections i + 1) <= h -> h < 2 ^ 63 ->
  exists i', process_section k i = Ret (i', true) /\ index_ok i' /\ storedSections i' = storedSections i + 1 /\ processing i' = processing i.
Proof.
  intros Hk Hok Hh Hh2. destruct (process_section_runs k h i Hk Hok Hh Hh2) as (gen & l & Hbits & Hkeys & Hr).
  destruct Hok as [Hsize [Hs Hs2] Hcount Hheads Hold]. set (section := storedSections i) in *. cbv zeta in *.
  assert (0 <= section < 2 ^ 63) as Hsec by (unfold first_of, BloomBitsBlocks in *; lia).
  assert (forall x, 0 <= x < section -> 0 <= x < 2 ^ 63) as Hx by lia.
  eexists. split; [exact Hr|]. split; [|done]. split; cbn [ix_backend bi_size storedSections bi_db].
  - done.
  - unfold first_of, BloomBitsBlocks in *. lia.
  - unfold GetValidSections. cbn [ix_backend bi_db]. by apply section_count.
  - intros x Hlt. unfold sectionHead. cbn [ix_backend bi_db]. rewrite section_head; [|done|lia|].
    + destruct (decide (x = section)) as [->|Hne]; [|apply (Hheads x); lia].
      rewrite length_Hash_Bytes. cbn [Nat.eqb]. apply BytesToHash_Bytes. apply (kn_hash k h Hk).
      unfold last_of, first_of, BloomBitsBlocks in *. lia.
    + intros key Hin. rewrite Hkeys in Hin. apply list_elem_of_fmap in Hin as (bit & -> & _). by exists bit.
  - intros x bit Hlt Hbit. unfold ReadBloomBits. rewrite section_bits by (done || (intros y; discriminate)).
    destruct (decide (x = section)) as [->|Hne].
    + destruct (Hbits bit Hbit) as (v & Hin & Hrot). exists v. split; [|done]. apply batch_Write_in; [|done].
      rewrite Hkeys. by apply NoDup_bit_keys.
    + destruct (Hold x bit) as (v & Hv & Hrot); [lia|done|]. exists v. split; [|done]. rewrite batch_Write_other; [exact Hv|].
      rewrite Hkeys. intros (bit' & Heq & Hbit'%elem_of_seqZ)%list_elem_of_fmap. apply bloomBitsKey_inj in Heq; lia.
Qed.

Lemma process_loop_ok k h known : knows k h -> first_of known <= h -> h < 2 ^ 63 -> forall fuel i, index_ok i ->
  (Z.to_nat (known - storedSections i) <= fuel)%nat ->
  exists i', process_loop fuel k known i = Ret i' /\ index_ok i' /\ storedSections i' = Z.max (storedSections i) known /\ processing i' = processing i.
Proof.
  intros Hk Hh Hh2. induction fuel as [|fuel IH]; intros i Hok Hf.
  - exists i. cbn. destruct (Z.ltb_spec (storedSections i) known); [lia|]. split_and!; [done..|lia|done].
  - cbn [process_loop]. destruct (Z.ltb_spec (storedSections i) known) as [Hlt|Hge]; [|exists i; split_and!; [done..|lia|done]].
    destruct (process_section_ok k h i Hk Hok) as (i1 & -> & Hok1 & Hs1 & Hp1); [unfold first_of, BloomBitsBlocks in *; lia|done|].
    cbn [mbind res_bind]. destruct (IH i1 Hok1) as (i' & -> & Hok' & Hs' & Hp'); [lia|].
    exists i'. split_and!; [done..|lia|congruence].
Qed.

(** Indexing up to the height [interval] above the start ends, without a
    panic, with every section below it stored. *)
Theorem ProcessSection_indexes k h i interval : knows k h -> index_ok i -> processing i = 0 ->
  first_of (interval / BloomBitsBlocks) <= h < 2 ^ 63 ->
  exists i', ProcessSection k interval i = Ret i' /\ index_ok i' /\ processing i' = 0 /\
    storedSections i' = Z.max (storedSections i) (interval / BloomBitsBlocks).
Proof.
  intros Hk Hok Hp [Hh Hh2]. unfold ProcessSection. rewrite Hp. cbn [Z.eqb].
  assert (index_ok (i <| processing := 1 |>)) as Hok1 by (destruct Hok; by split).
  destruct (process_loop_ok k h _ Hk Hh Hh2 (Z.to_nat (interval / BloomBitsBlocks - storedSections (i <| processing := 1 |>))) _ Hok1) as (i' & -> & [] & Hs' & _); [done|].
  cbn [mbind res_bind]. eexists. split; [done|]. split; [by split|]. split; [done|exact Hs'].
Qed.

Lemma setValidSections_grow n i : storedSections i <= n ->
  setValidSections n i = mkIndexer (mkBloomIndexer (bi_size (ix_backend i)) (kv_set (bi_db (ix_backend i)) countKey (be_bytes 8 n))
    (bi_gen (ix_backend i)) (bi_section (ix_backend i)) (bi_head (ix_backend i))) n (processing i).
Proof.
  intros Hle. unfold setValidSections, with_db. cbn [storedSections set].
  replace (Z.to_nat (storedSections i - n)) with 0%nat by lia. cbn [remove_heads]. by destruct i as [[] ? ?].
Qed.

(** A node that starts finds the sections it has stored. *)
Lemma InitIndexer_ok i : index_ok i -> index_ok (InitIndexer (bi_db (ix_backend i))) /\
  processing (InitIndexer (bi_db (ix_backend i))) = 0 /\ storedSections (InitIndexer (bi_db (ix_backend i))) = storedSections i.
Proof.
  intros [Hsize [Hs Hs2] Hcount Hheads Hbits]. unfold InitIndexer.
  assert (GetValidSections (mkIndexer (initBloomIndexer (bi_db (ix_backend i))) 0 0) = storedSections i) as -> by exact Hcount.
  rewrite setValidSections_grow by exact Hs. split; [|done].
  assert (forall key, key ≠ countKey ->
    kv_get (kv_set (bi_db (ix_backend i)) countKey (be_bytes 8 (storedSections i))) key = kv_get (bi_db (ix_backend i)) key) as Hdb.
  { intros key Hne. by rewrite kv_get_set, decide_False. }
  split; cbn [ix_backend bi_size bi_db storedSections initBloomIndexer].
  - done.
  - done.
  - unfold GetValidSections. cbn [ix_backend bi_db]. rewrite kv_get_set, decide_True by done. rewrite length_be_bytes. cbn [Nat.eqb].
    rewrite be_value_be_bytes. change (256 ^ Z.of_nat 8) with (2 ^ 64). apply Z.mod_small. unfold first_of, BloomBitsBlocks in *. lia.
  - intros x Hx. rewrite <- (Hheads x Hx). unfold sectionHead. cbn [ix_backend bi_db]. by rewrite Hdb by discriminate.
  - intros x bit Hx Hbit. destruct (Hbits x bit Hx Hbit) as (v & Hv & Hr). exists v. split; [|done]. rewrite <- Hv.
    unfold ReadBloomBits. by rewrite Hdb by discriminate.
Qed.

(** After the end of each block every full section is stored: the index
    never falls behind, and never fails. *)
Theorem EndBlock_index_keeps_up k h i : knows k h -> index_ok i -> processing i = 0 -> GetStartBlockHeight <= h < 2 ^ 63 ->
  exists i', EndBlock_index k h (Some i) = Ret (Some i') /\ index_ok i' /\ processing i' = 0 /\
    storedSections i' = Z.max (storedSections i) ((h - GetStartBlockHeight) / BloomBitsBlocks).
Proof.
  intros Hk Hok Hp Hh. unfold EndBlock_index, IsProcessing. rewrite Hp, (ok_count i Hok), (u64_of_small (h - GetStartBlockHeight)) by lia. cbn [Z.eqb negb].
  rewrite andb_true_r. destruct (ok_stored i Hok) as [Hs Hs2]. unfold first_of in Hs2.
  assert (0 <= (storedSections i + 1) * BloomBitsBlocks < 2 ^ 64) as Hb by (unfold BloomBitsBlocks in *; lia).
  rewrite u64_of_small by exact Hb.
  pose proof (Z.mul_div_le (h - GetStartBlockHeight) BloomBitsBlocks ltac:(done)) as Hdiv.
  destruct (Z.leb_spec ((storedSections i + 1) * BloomBitsBlocks) (h - GetStartBlockHeight)) as [Hle|Hlt].
  - destruct (ProcessSection_indexes k h i (h - GetStartBlockHeight) Hk Hok Hp) as (i' & -> & Hok' & Hp' & Hs').
    { unfold first_of, BloomBitsBlocks in *. lia. }
    exists i'. done.
  - exists i. split_and!; [done..|].
    assert ((h - GetStartBlockHeight) / BloomBitsBlocks < storedSections i + 1) by (apply Z.div_lt_upper_bound; unfold BloomBitsBlocks in *; lia).
    lia.
Qed.

Lemma InitIndexer_empty db : kv_get db countKey = None -> index_ok (InitIndexer db) /\ processing (InitIndexer db) = 0 /\ storedSections (InitIndexer db) = 0.
Proof.
  intros Hn. unfold InitIndexer.
  assert (GetValidSections (mkIndexer (initBloomIndexer db) 0 0) = 0) as -> by (unfold GetValidSections; cbn [ix_backend bi_db initBloomIndexer]; by rewrite Hn).
  rewrite setValidSections_grow by done. split; [|done]. split; cbn [ix_backend bi_size bi_db storedSections initBloomIndexer].
  - done.
  - unfold first_of, BloomBitsBlocks. lia.
  - unfold GetValidSections. cbn [ix_backend bi_db]. by rewrite kv_get_set, decide_True.
  - lia.
  - lia.
Qed.

End Chain.
End BloomIndex.
