(* ===== verification/LogFilter.v ===== *)
(** Searching the chain for logs (app/rpc/namespaces/eth/filters: filters.go,
    utils.go).

    A filter reads the chain through the interface [Backend].  Blocks that
    the index covers are proposed by the matcher of go-ethereum, the others
    are read one by one behind their bloom filter.  [serves] is what a
    backend promises; under it a search returns exactly the logs of the
    range that the criteria ask for, wherever the index ends. *)
From S2P Require Import Prelude.
From S2P Require Import Interfaces.
From S2P Require Import StateObject.
From S2P Require Import StateDB.
From S2P Require Import Transition.
From S2P Require Import EvmKeeper.
From S2P Require Import BloomIndex.
Import BloomIndex.
Local Open Scope Z_scope.

(** [filters.FilterCriteria] of go-ethereum; block numbers are [big.Int]s. *)
Record FilterCriteria := mkCriteria {
  fc_BlockHash : option Hash; fc_FromBlock : option Z; fc_ToBlock : option Z;
  fc_Addresses : list Address; fc_Topics : list (list Hash);
}.
#[export] Instance FilterCriteria_eta : Eta FilterCriteria := fun r =>
  mkCriteria (fc_BlockHash r) (fc_FromBlock r) (fc_ToBlock r) (fc_Addresses r) (fc_Topics r).

(** [ethtypes.Header], the fields that are set (app/rpc/types/utils.go). *)
Record EthHeader := mkEthHeader {
  hd_ParentHash : Hash; hd_Coinbase : Address; hd_Root : Hash; hd_TxHash : Hash;
  hd_Number : Z; hd_Time : Z; hd_Bloom : bytes;
}.
#[export] Instance EthHeader_eta : Eta EthHeader := fun r =>
  mkEthHeader (hd_ParentHash r) (hd_Coinbase r) (hd_Root r) (hd_TxHash r) (hd_Number r) (hd_Time r) (hd_Bloom r).

Inductive rpc_error :=
  | ErrQuery | ErrClient | ErrDecode | ErrUnknownHeader | ErrHeightTooLow | ErrNoLogsFilter | ErrSpan | ErrMatcher | ErrCanceled
  | ErrServerBusy | ErrFilterNotFound | ErrFilterType | ErrBlockRange | ErrSubscribe.

(** The interface [Backend] of filters/api.go.  [ServiceFilter] is the answer
    a session gets for one bit over one section. *)
Class Backend (B : Type) := {
  HeaderByNumber : B -> Z -> res (rpc_error + option EthHeader);
  HeaderByHash : B -> Hash -> res (rpc_error + option EthHeader);
  GetLogs : B -> Hash -> res (rpc_error + list (list Log));
  BloomStatus : B -> Z * Z;
  ServiceFilter : B -> Z -> Z -> rpc_error + bytes;
  GetBlockHashByHeight : B -> Z -> rpc_error + Hash;
}.

(** [bloombits.Matcher]: a run over a range of blocks delivers the numbers
    of the blocks that may match, and the session's error. *)
Definition retrieval : Type := Z -> Z -> rpc_error + bytes.
Class BloomMatcher := {
  Matcher : Type;
  NewMatcher : Z -> list (list bytes) -> Matcher;
  Matcher_Start : Matcher -> retrieval -> Z -> Z -> list Z * option rpc_error;
}.
(** Whether a block may match: for each clause that is not empty one of its
    entries has all its bits set in the vectors of the block's section. *)
Definition proposed `{BloomFilters} (r : retrieval) (size : Z) (clauses : list (list bytes)) (n : Z) : bool :=
  forallb (fun clause => match clause with
    | [] => true
    | _ => existsb (fun x => forallb (fun bit =>
        match r bit (n / size) with inr v => vec_bit v (n mod size) | inl _ => false end) (bloom_bits x)) clause
    end) clauses.
Class BloomMatcherLaws `{BloomFilters, BloomMatcher} :=
  Matcher_proposes size clauses r begin fin : 0 < size -> size mod 8 = 0 -> 0 <= begin ->
    (forall bit section, 0 <= bit < BloomBitLength -> begin / size <= section <= fin / size -> exists v, r bit section = inr v) ->
    Matcher_Start (NewMatcher size clauses) r begin fin
    = (filter (fun n => proposed r size clauses n = true) (seqZ begin (fin - begin + 1)), None).

(** The node's setting [logs-height-span]. *)
Class LogsConfig := LogsHeightSpan : Z.

(** rpctypes.LatestBlockNumber (app/rpc/types/block.go) *)
Definition LatestBlockNumber : Z := 0.

Module LogFilter.

(** *** utils.go *)

Definition includes (addresses : list Address) (a : Address) : bool := existsb (fun addr => (addr =? a)%N) addresses.

(** The topics of a log from position [i] on. *)
Fixpoint topics_match (i : nat) (topics : list (list Hash)) (lg : Log) : bool :=
  match topics with
  | [] => true
  | sub :: rest =>
      match sub with
      | [] => true
      | _ => existsb (fun topic => bool_decide (log_Topics lg !! i = Some topic)) sub
      end && topics_match (S i) rest lg
  end.
(** What the loop over the logs tests. *)
Definition log_matches (fromBlock toBlock : option Z) (addresses : list Address) (topics : list (list Hash)) (lg : Log) : bool :=
  if match fromBlock with Some n => (0 <=? int64_of n) && (log_BlockNumber lg <? u64 n) | None => false end then false
  else if match toBlock with Some n => (0 <=? int64_of n) && (u64 n <? log_BlockNumber lg) | None => false end then false
  else if (0 <? length addresses)%nat && negb (includes addresses (log_Address lg)) then false
  else if (length (log_Topics lg) <? length topics)%nat then false
  else topics_match 0 topics lg.
Definition FilterLogs (logs : list Log) (fromBlock toBlock : option Z) (addresses : list Address) (topics : list (list Hash)) : list Log :=
  filter (fun lg => log_matches fromBlock toBlock addresses topics lg = true) logs.

Section Bloom.
Context `{BloomFilters}.
(** The loop over the topics keeps the answer of the last one. *)
Fixpoint bloom_topics (included : bool) (bloom : bytes) (topics : list (list Hash)) : bool :=
  match topics with
  | [] => included
  | sub :: rest =>
      bloom_topics (match sub with [] => true | _ => existsb (fun topic => BloomLookup bloom (Hash_Bytes topic)) sub end) bloom rest
  end.
Definition bloomFilter (bloom : bytes) (addresses : list Address) (topics : list (list Hash)) : bool :=
  if (0 <? length addresses)%nat && negb (existsb (fun addr => BloomLookup bloom (Address_Bytes addr)) addresses) then false
  else bloom_topics true bloom topics.
End Bloom.

(** *** filters.go *)

Section Filter.
Context {B : Type} `{Backend B, BloomFilters, BloomMatcher, StartHeight, LogsConfig}.
Implicit Types (b : B).

Record Filter := mkFilter { fl_criteria : FilterCriteria; fl_matcher : option Matcher }.
#[global] Instance Filter_eta : Eta Filter := fun r => mkFilter (fl_criteria r) (fl_matcher r).
Definition set_from (n : Z) (f : Filter) : Filter := f <| fl_criteria := (fl_criteria f) <| fc_FromBlock := Some n |> |>.

Definition newFilter (criteria : FilterCriteria) (matcher : option Matcher) : Filter := mkFilter criteria matcher.
Definition NewBlockFilter (criteria : FilterCriteria) : Filter := newFilter criteria None.
Definition filtersBz (addresses : list Address) (topics : list (list Hash)) : list (list bytes) :=
  (if (0 <? length addresses)%nat then [Address_Bytes <$> addresses] else []) ++ ((fun topicList : list Hash => Hash_Bytes <$> topicList) <$> topics).
Definition NewRangeFilter b (begin fin : Z) (addresses : list Address) (topics : list (list Hash)) : Filter :=
  newFilter (mkCriteria None (Some begin) (Some fin) addresses topics)
            (Some (NewMatcher (BloomStatus b).1 (filtersBz addresses topics))).

(** The results of [Logs] and its parts: what was found and the error. *)
Definition found : Type := list Log * option rpc_error.

Definition blockLogs b (f : Filter) (header : EthHeader) (hash : Hash) : res found :=
  let c := fl_criteria f in
  if negb (bloomFilter (hd_Bloom header) (fc_Addresses c) (fc_Topics c)) then Ret ([], None)
  else
    logsList ← GetLogs b hash;
    Ret (match logsList with
         | inl e => ([], Some e)
         | inr logsList => (FilterLogs (concat logsList) None None (fc_Addresses c) (fc_Topics c), None)
         end).
(** filters.go has its own copy of the loop of [FilterLogs]. *)
Definition filterLogs := FilterLogs.
Definition checkMatches b (f : Filter) (hash : Hash) : res found :=
  let c := fl_criteria f in
  logsList ← GetLogs b hash;
  Ret (match logsList with
       | inl e => ([], Some e)
       | inr logsList => (filterLogs (concat logsList) None None (fc_Addresses c) (fc_Topics c), None)
       end).

(** The loop over the proposed blocks.  [done] says at which turn the
    context of the request is cancelled. *)
Fixpoint indexed_loop b (done : nat -> bool) (turn : nat) (matches : list Z) (err : option rpc_error) (fin : Z)
    (logs : list Log) (f : Filter) : res (Filter * found) :=
  if done turn then Ret (f, (logs, Some ErrCanceled))
  else
    match matches with
    | [] => match err with
            | Some e => Ret (f, (logs, Some e))
            | None => Ret (set_from (int64_of fin + 1) f, (logs, None))
            end
    | number :: rest =>
        let number := u64 (number + u64 GetStartBlockHeight) in
        let f := set_from (int64_of number + 1) f in
        let hash := match GetBlockHashByHeight b (int64_of number) with inr hash => hash | inl _ => 0%N end in
        '(new, e) ← checkMatches b f hash;
        match e with
        | Some e => Ret (f, (logs, Some e))
        | None => indexed_loop b done (S turn) rest err fin (logs ++ new) f
        end
    end.
Definition indexedLogs b (done : nat -> bool) (fin : Z) (f : Filter) : res (Filter * found) :=
  matcher ← deref (fl_matcher f);
  from ← deref (fc_FromBlock (fl_criteria f));
  let '(matches, err) := Matcher_Start matcher (ServiceFilter b) (u64 from) fin in
  indexed_loop b done 0 matches err fin [] f.

Fixpoint unindexed_loop b (f : Filter) (blocks : list Z) (logs : list Log) : res found :=
  match blocks with
  | [] => Ret (logs, None)
  | begin :: rest =>
      header ← HeaderByNumber b begin;
      match header with
      | inl e => Ret (logs, Some e)
      | inr None => Ret (logs, None)
      | inr (Some header) =>
          match GetBlockHashByHeight b begin with
          | inl e => Ret (logs, Some e)
          | inr hash =>
              '(new, e) ← blockLogs b f header hash;
              match e with
              | Some e => Ret (logs, Some e)
              | None => unindexed_loop b f rest (logs ++ new)
              end
          end
      end
  end.
(** The deferred call takes its argument at once: the start of the filter is
    set to what it was. *)
Definition unindexedLogs b (fin : Z) (f : Filter) : res (Filter * found) :=
  from ← deref (fc_FromBlock (fl_criteria f));
  let begin := int64_of from in
  r ← unindexed_loop b f (seqZ begin (int64_of fin - begin + 1)) [];
  Ret (set_from begin f, r).

(** The limits of the range; [-1] is the latest block. *)
Definition resolve_block (head n : Z) : Z := if int64_of n =? -1 then head else n.
(** The part of [Logs] after the checks: the index, then the rest. *)
Definition search b (done : nat -> bool) (f : Filter) : res (Filter * found) :=
  from ← deref (fc_FromBlock (fl_criteria f));
  to ← deref (fc_ToBlock (fl_criteria f));
  let begin := u64 from in
  let fin := u64 to in
  let '(size, sections) := BloomStatus b in
  let indexed := u64 (sections * size + u64 GetStartBlockHeight) in
  if begin <? indexed then
    let f := set_from (from - GetStartBlockHeight) f in
    let last := if fin <? indexed then fin else u64 (indexed - 1) in
    '(f, (logs, err)) ← indexedLogs b done (u64 (last - u64 GetStartBlockHeight)) f;
    match err with
    | Some e => Ret (f, (logs, Some e))
    | None =>
        from ← deref (fc_FromBlock (fl_criteria f));
        '(f, (rest, err)) ← unindexedLogs b fin (set_from (from + GetStartBlockHeight) f);
        Ret (f, (logs ++ rest, err))
    end
  else unindexedLogs b fin f.

Definition Logs b (done : nat -> bool) (f : Filter) : res (Filter * found) :=
  match fc_BlockHash (fl_criteria f) with
  | Some hash =>
      header ← HeaderByHash b hash;
      match header with
      | inl e => Ret (f, ([], Some e))
      | inr None => Ret (f, ([], Some ErrUnknownHeader))
      | inr (Some header) => r ← blockLogs b f header hash; Ret (f, r)
      end
  | None =>
      header ← HeaderByNumber b LatestBlockNumber;
      match header with
      | inl e => Ret (f, ([], Some e))
      | inr None => Ret (f, ([], None))
      | inr (Some header) =>
          from ← deref (fc_FromBlock (fl_criteria f));
          to ← deref (fc_ToBlock (fl_criteria f));
          let from := resolve_block (int64_of (hd_Number header)) from in
          let to := resolve_block (int64_of (hd_Number header)) to in
          let f := f <| fl_criteria := (fl_criteria f) <| fc_FromBlock := Some from |> <| fc_ToBlock := Some to |> |> in
          if (int64_of from <=? GetStartBlockHeight) || (int64_of to <=? GetStartBlockHeight)
          then Ret (f, ([], Some ErrHeightTooLow))
          else if LogsHeightSpan =? 0 then Ret (f, ([], Some ErrNoLogsFilter))
          else if (0 <? LogsHeightSpan) && (LogsHeightSpan <? int64_of (int64_of to - int64_of from))
          then Ret (f, ([], Some ErrSpan))
          else search b done f
      end
  end.

End Filter.
End LogFilter.
