(* ===== verification/LogSearch.v ===== *)
(** A search for logs is complete.

    [serves] is the contract of a backend over a chain whose block [n] has
    the hash [block_hash n] and the logs [logs_of n].  Under it a search
    returns the logs of the range that are asked for, all of them and in
    order, whatever part of the range the index covers: bloom filters and
    the matcher propose too many blocks, but never too few. *)
From S2P Require Import Prelude.
From S2P Require Import Interfaces.
From S2P Require Import StateObject.
From S2P Require Import StateDB.
From S2P Require Import Transition.
From S2P Require Import EvmKeeper.
From S2P Require Import BloomIndex.
From S2P Require Import LogFilter.
Import BloomIndex LogFilter.
Local Open Scope Z_scope.

Module LogSearch.

(** ** The logs that are asked for *)
Definition asked (addresses : list Address) (topics : list (list Hash)) (lg : Log) : Prop :=
  (addresses = [] \/ log_Address lg ∈ addresses) /\
  (length topics <= length (log_Topics lg))%nat /\
  forall i sub t, topics !! i = Some sub -> sub ≠ [] -> log_Topics lg !! i = Some t -> t ∈ sub.

Lemma includes_true addresses a : includes addresses a = true <-> a ∈ addresses.
Proof.
  unfold includes. rewrite existsb_exists. split.
  - intros (x & Hx & Heq%N.eqb_eq). subst. by apply list_elem_of_In.
  - intros Ha. exists a. split; [by apply list_elem_of_In|apply N.eqb_refl].
Qed.

Lemma topics_match_true topics lg : forall i,
  topics_match i topics lg = true <->
  forall j sub, topics !! j = Some sub -> sub ≠ [] -> exists t, log_Topics lg !! (i + j)%nat = Some t /\ t ∈ sub.
Proof.
  induction topics as [|sub topics IH]; intros i; cbn [topics_match].
  { split; [|done]. intros _ j sub Hj. by rewrite lookup_nil in Hj. }
  rewrite andb_true_iff, IH. split.
  - intros [Hsub Hrest] [|j] s Hj Hne; cbn in Hj.
    + injection Hj as <-. destruct sub as [|t0 sub']; [done|].
      apply existsb_exists in Hsub as (t & Ht & Heq%bool_decide_eq_true). exists t. rewrite Nat.add_0_r. split; [done|by apply list_elem_of_In].
    + destruct (Hrest j s Hj Hne) as (t & Ht & Hin). exists t. by rewrite Nat.add_succ_r.
  - intros Hall. split.
    + destruct sub as [|t0 sub'] eqn:Hsub; [done|]. destruct (Hall 0%nat _ eq_refl) as (t & Ht & Hin); [done|].
      apply existsb_exists. exists t. rewrite Nat.add_0_r in Ht. split; [by apply list_elem_of_In|by apply bool_decide_eq_true].
    + intros j s Hj Hne. destruct (Hall (S j) s Hj Hne) as (t & Ht & Hin). exists t. by rewrite Nat.add_succ_r in Ht.
Qed.

Lemma log_matches_asked addresses topics lg : log_matches None None addresses topics lg = true <-> asked addresses topics lg.
Proof.
  unfold log_matches, asked.
  destruct (Nat.ltb_spec (length (log_Topics lg)) (length topics)) as [Hlt|Hge].
  { split; [|lia]. by destruct (_ && _). }
  assert (topics_match 0 topics lg = true <->
    forall i sub t, topics !! i = Some sub -> sub ≠ [] -> log_Topics lg !! i = Some t -> t ∈ sub) as Htm.
  { rewrite topics_match_true. split.
    - intros Hall i sub t Hi Hne Ht. destruct (Hall i sub Hi Hne) as (t' & Ht' & Hin). cbn in Ht'. congruence.
    - intros Hall i sub Hi Hne. pose proof (lookup_lt_Some _ _ _ Hi) as Hlt.
      destruct (lookup_lt_is_Some_2 (log_Topics lg) i) as [t Ht]; [lia|]. exists t. split; [done|by apply (Hall i sub t)]. }
  destruct addresses as [|a addresses]; cbn [length Nat.ltb Nat.leb andb].
  - rewrite Htm. naive_solver.
  - destruct (includes (a :: addresses) (log_Address lg)) eqn:Hi; cbn [negb].
    + apply includes_true in Hi. rewrite Htm. naive_solver.
    + split; [done|]. intros ([|Hin] & _); [done|]. apply includes_true in Hin. congruence.
Qed.

#[global] Instance asked_dec addresses topics lg : Decision (asked addresses topics lg).
Proof. refine (cast_if (decide (log_matches None None addresses topics lg = true))); by rewrite <- log_matches_asked. Defined.

Lemma FilterLogs_asked logs addresses topics : FilterLogs logs None None addresses topics = filter (asked addresses topics) logs.
Proof. unfold FilterLogs. apply list_filter_iff. intros lg. apply log_matches_asked. Qed.

Lemma asked_covered addresses topics lg : asked addresses topics lg ->
  (addresses = [] \/ exists a, a ∈ addresses /\ Address_Bytes a ∈ log_entries lg) /\
  Forall (fun sub => sub = [] \/ exists t, t ∈ sub /\ Hash_Bytes t ∈ log_entries lg) topics.
Proof.
  intros (Ha & Hl & Ht). unfold log_entries. split.
  - destruct Ha as [->|Ha]; [by left|right]. exists (log_Address lg). split; [done|left].
  - apply Forall_lookup. intros i sub Hi. destruct (decide (sub = [])) as [|Hne]; [by left|right].
    destruct (lookup_lt_is_Some_2 (log_Topics lg) i) as [t Htl]; [apply lookup_lt_Some in Hi; lia|].
    exists t. split; [by apply (Ht i sub t)|]. right. apply list_elem_of_fmap. exists t. split; [done|by eapply list_elem_of_lookup_2].
Qed.

(** ** The contract of a backend *)
Section Search.
Context {B : Type} `{Backend B, EthTypes, !EthTypesLaws, BloomFilters, !BloomFiltersLaws, BloomMatcher, !BloomMatcherLaws, StartHeight, LogsConfig}.
Context (block_hash : Z -> Hash) (logs_of : Z -> list Log).
Implicit Types (b : B).

Definition bloom_at (n : Z) : bytes := be_bytes 256 (LogsBloom (logs_of n)).
Record serves b (head : Z) : Prop := {
  sv_latest : exists hd, HeaderByNumber b LatestBlockNumber = Ret (inr (Some hd)) /\ hd_Number hd = head;
  sv_header n : GetStartBlockHeight < n <= head ->
    exists hd, HeaderByNumber b n = Ret (inr (Some hd)) /\ hd_Number hd = n /\ hd_Bloom hd = bloom_at n;
  sv_by_hash n : GetStartBlockHeight < n <= head ->
    exists hd, HeaderByHash b (block_hash n) = Ret (inr (Some hd)) /\ hd_Bloom hd = bloom_at n;
  sv_hash n : GetStartBlockHeight < n <= head -> GetBlockHashByHeight b n = inr (block_hash n);
  sv_logs n : GetStartBlockHeight < n <= head -> exists ll, GetLogs b (block_hash n) = Ret (inr ll) /\ concat ll = logs_of n;
  sv_index : exists sections, BloomStatus b = (BloomBitsBlocks, sections) /\ 0 <= sections /\ first_of sections <= head + 1 /\
    forall bit section, 0 <= bit < BloomBitLength -> 0 <= section < sections ->
      exists v, ServiceFilter b bit section = inr v /\ rotated bloom_at bit section v;
}.

Lemma bloom_at_value n : be_value (bloom_at n) = LogsBloom (logs_of n).
Proof.
  unfold bloom_at. rewrite be_value_be_bytes. apply Z.mod_small. apply LogsBloom_range.
Qed.

Lemma entry_found n lg x : lg ∈ logs_of n -> x ∈ log_entries lg -> BloomLookup (bloom_at n) x = true.
Proof.
  intros Hlg Hx. rewrite BloomLookup_bits, bloom_at_value. apply forallb_forall. intros bit Hbit%list_elem_of_In.
  by eapply LogsBloom_covers.
Qed.

Lemma bloom_topics_found n lg topics : lg ∈ logs_of n ->
  Forall (fun sub => sub = [] \/ exists t, t ∈ sub /\ Hash_Bytes t ∈ log_entries lg) topics ->
  bloom_topics true (bloom_at n) topics = true.
Proof.
  intros Hlg Hall. induction Hall as [|sub topics Hsub Hall IH]; [done|]. cbn [bloom_topics].
  assert (match sub with [] => true | _ => existsb (fun topic => BloomLookup (bloom_at n) (Hash_Bytes topic)) sub end = true) as ->; [|done].
  destruct sub as [|t0 sub]; [done|]. destruct Hsub as [|(t & Ht & Hin)]; [done|].
  apply existsb_exists. exists t. split; [by apply list_elem_of_In|by eapply entry_found].
Qed.

(** The bloom filter of a block never hides a log that is asked for. *)
Lemma bloomFilter_found n lg addresses topics : lg ∈ logs_of n -> asked addresses topics lg ->
  bloomFilter (bloom_at n) addresses topics = true.
Proof.
  intros Hlg Hask. destruct (asked_covered _ _ _ Hask) as [Ha Ht]. unfold bloomFilter.
  destruct Ha as [->|(a & Ha & Hin)]; [by eapply bloom_topics_found|].
  assert (existsb (fun addr => BloomLookup (bloom_at n) (Address_Bytes addr)) addresses = true) as ->.
  { apply existsb_exists. exists a. split; [by apply list_elem_of_In|by eapply entry_found]. }
  rewrite andb_false_r. by eapply bloom_topics_found.
Qed.

Lemma nothing_hidden (P : bool) n addresses topics :
  (forall lg, lg ∈ logs_of n -> asked addresses topics lg -> P = true) -> P = false -> filter (asked addresses topics) (logs_of n) = [].
Proof.
  intros Hall HP.
  destruct (filter (asked addresses topics) (logs_of n)) as [|lg l] eqn:Hf; [done|].
  assert (lg ∈ filter (asked addresses topics) (logs_of n)) as [Hask Hin]%list_elem_of_filter by (rewrite Hf; left).
  by rewrite (Hall lg Hin Hask) in HP.
Qed.

Lemma blockLogs_asked b head f n hd : serves b head -> GetStartBlockHeight < n <= head -> hd_Bloom hd = bloom_at n ->
  blockLogs b f hd (block_hash n)
  = Ret (filter (asked (fc_Addresses (fl_criteria f)) (fc_Topics (fl_criteria f))) (logs_of n), None).
Proof.
  intros Hsv Hn Hbl. unfold blockLogs. rewrite Hbl. destruct (bloomFilter _ _ _) eqn:Hf; cbn [negb].
  - destruct (sv_logs b head Hsv n Hn) as (ll & -> & Hll). cbn [mbind res_bind]. by rewrite FilterLogs_asked, Hll.
  - by rewrite (nothing_hidden _ n _ _ (fun lg Hlg Ha => bloomFilter_found n lg _ _ Hlg Ha) Hf).
Qed.

(** The logs asked for in a list of blocks. *)
Definition wanted addresses topics (blocks : list Z) : list Log := filter (asked addresses topics) (concat (logs_of <$> blocks)).
Lemma wanted_cons addresses topics n blocks :
  wanted addresses topics (n :: blocks) = filter (asked addresses topics) (logs_of n) ++ wanted addresses topics blocks.
Proof. unfold wanted. cbn. by rewrite filter_app. Qed.
Lemma wanted_app addresses topics l1 l2 : wanted addresses topics (l1 ++ l2) = wanted addresses topics l1 ++ wanted addresses topics l2.
Proof. unfold wanted. by rewrite fmap_app, concat_app, filter_app. Qed.

Lemma unindexed_loop_wanted b head f : serves b head -> forall blocks logs,
  Forall (fun n => GetStartBlockHeight < n <= head) blocks ->
  unindexed_loop b f blocks logs = Ret (logs ++ wanted (fc_Addresses (fl_criteria f)) (fc_Topics (fl_criteria f)) blocks, None).
Proof.
  intros Hsv. induction blocks as [|n blocks IH]; intros logs Hall; [by rewrite app_nil_r|].
  apply Forall_cons in Hall as [Hn Hall]. cbn [unindexed_loop].
  destruct (sv_header b head Hsv n Hn) as (hd & -> & _ & Hbl). cbn [mbind res_bind]. rewrite (sv_hash b head Hsv n Hn).
  rewrite (blockLogs_asked b head f n hd Hsv Hn Hbl). cbn [mbind res_bind]. rewrite IH by done.
  by rewrite wanted_cons, app_assoc.
Qed.

(** Neither does the index. *)
Lemma proposed_found b head n lg addresses topics sections : serves b head -> BloomStatus b = (BloomBitsBlocks, sections) ->
  0 < n -> n / BloomBitsBlocks < sections -> lg ∈ logs_of (n + GetStartBlockHeight) -> asked addresses topics lg ->
  proposed (ServiceFilter b) BloomBitsBlocks (filtersBz addresses topics) n = true.
Proof.
  intros Hsv Hst Hn Hsec Hlg Hask. destruct (sv_index b head Hsv) as (sections' & Hst' & _ & _ & Hidx).
  assert (sections' = sections) as -> by congruence.
  assert (0 <= n mod BloomBitsBlocks < BloomBitsBlocks) as Hmod by (by apply Z.mod_pos_bound).
  assert (0 <= n / BloomBitsBlocks) as Hdiv by (apply Z.div_pos; [lia|done]).
  assert (forall x, x ∈ log_entries lg -> forallb (fun bit =>
    match ServiceFilter b bit (n / BloomBitsBlocks) with inr v => vec_bit v (n mod BloomBitsBlocks) | inl _ => false end) (bloom_bits x) = true) as Hentry.
  { intros x Hx. apply forallb_forall. intros bit Hbit%list_elem_of_In.
    destruct (Hidx bit (n / BloomBitsBlocks)) as (v & -> & _ & Hv); [by eapply bloom_bits_range|lia|].
    rewrite Hv by done.
    replace (first_of (n / BloomBitsBlocks) + n mod BloomBitsBlocks) with (n + GetStartBlockHeight)
      by (unfold first_of; pose proof (Z.div_mod n BloomBitsBlocks ltac:(done)); lia).
    unfold bloom_of. destruct (Z.eqb_spec (n + GetStartBlockHeight) GetStartBlockHeight); [lia|].
    rewrite bloom_at_value. by eapply LogsBloom_covers. }
  destruct (asked_covered _ _ _ Hask) as [Ha Ht]. unfold proposed. apply forallb_forall. intros clause Hc%list_elem_of_In.
  unfold filtersBz in Hc. apply elem_of_app in Hc as [Hc|Hc].
  - destruct Ha as [->|(a & Ha & Hin)]; [by apply elem_of_nil in Hc|].
    destruct addresses as [|a0 addresses]; [by apply elem_of_nil in Ha|]. cbn [length Nat.ltb Nat.leb] in Hc.
    apply list_elem_of_singleton in Hc as ->. cbn [fmap list_fmap].
    apply existsb_exists. exists (Address_Bytes a). split; [|by apply Hentry].
    apply list_elem_of_In. change (Address_Bytes a ∈ Address_Bytes <$> (a0 :: addresses)). apply list_elem_of_fmap. by exists a.
  - apply list_elem_of_fmap in Hc as (sub & -> & Hsub). rewrite Forall_forall in Ht.
    destruct (Ht sub Hsub) as [->|(t & Htin & Hin)]; [done|]. destruct sub as [|t0 sub]; [done|]. cbn [fmap list_fmap].
    apply existsb_exists. exists (Hash_Bytes t). split; [|by apply Hentry].
    apply list_elem_of_In. change (Hash_Bytes t ∈ Hash_Bytes <$> (t0 :: sub)). apply list_elem_of_fmap. by exists t.
Qed.

Lemma indexed_loop_wanted b head (P : Z -> bool) fin : serves b head -> head < 2 ^ 63 -> 0 <= GetStartBlockHeight ->
  forall numbers turn logs f,
  let c := fl_criteria f in
  Forall (fun n => 0 < n /\ n + GetStartBlockHeight <= head) numbers ->
  (forall n, n ∈ numbers -> P n = false -> filter (asked (fc_Addresses c) (fc_Topics c)) (logs_of (n + GetStartBlockHeight)) = []) ->
  indexed_loop b (fun _ => false) turn (filter (fun n => P n = true) numbers) None fin logs f
  = Ret (set_from (int64_of fin + 1) f,
         (logs ++ wanted (fc_Addresses c) (fc_Topics c) ((fun n => n + GetStartBlockHeight) <$> numbers), None)).
Proof.
  intros Hsv Hh Hst. induction numbers as [|n numbers IH]; intros turn logs f c Hall Hno.
  { cbn. by rewrite app_nil_r. }
  apply Forall_cons in Hall as [[Hn Hn2] Hall]. rewrite filter_cons. cbn [fmap list_fmap]. rewrite wanted_cons.
  destruct (P n) eqn:HP.
  - rewrite decide_True by done. cbn [indexed_loop].
    rewrite (u64_id GetStartBlockHeight) by (unfold u64_modulus; lia). rewrite u64_id by (unfold u64_modulus; lia).
    rewrite int64_small by lia. rewrite (sv_hash b head Hsv) by lia.
    unfold checkMatches. destruct (sv_logs b head Hsv (n + GetStartBlockHeight)) as (ll & -> & Hll); [lia|].
    cbn [mbind res_bind]. unfold filterLogs. rewrite FilterLogs_asked, Hll.
    rewrite IH; [|done|intros m Hm; apply Hno; by right]. cbn. by rewrite <- app_assoc.
  - rewrite decide_False by done. rewrite (Hno n) by (done || left). cbn [app]. apply IH; [done|].
    intros m Hm. apply Hno. by right.
Qed.

Lemma shifted_seqZ (d m n : Z) : (fun x => x + d) <$> seqZ (m - d) n = seqZ m n.
Proof.
  rewrite (list_fmap_ext _ (Z.add d)) by (intros i x _; apply Z.add_comm).
  rewrite fmap_add_seqZ. f_equal. lia.
Qed.

Lemma unindexedLogs_wanted b head f from fin : serves b head -> head < 2 ^ 63 - 1 -> 0 <= GetStartBlockHeight ->
  fc_FromBlock (fl_criteria f) = Some from -> GetStartBlockHeight < from < 2 ^ 63 -> 0 <= fin <= head ->
  unindexedLogs b fin f
  = Ret (set_from from f, (wanted (fc_Addresses (fl_criteria f)) (fc_Topics (fl_criteria f)) (seqZ from (fin - from + 1)), None)).
Proof.
  intros Hsv Hh Hst Hfrom Hf Hfin. unfold unindexedLogs. rewrite Hfrom. cbn [deref mbind res_bind].
  rewrite !int64_small by lia. rewrite (unindexed_loop_wanted b head f Hsv).
  - by cbn.
  - apply Forall_forall. intros n Hn%elem_of_seqZ. lia.
Qed.

(** What the index covers, then the rest. *)
Lemma search_wanted b head f from to : serves b head -> head < 2 ^ 63 - 1 -> 0 <= GetStartBlockHeight < 2 ^ 62 ->
  let c := fl_criteria f in
  fc_FromBlock c = Some from -> fc_ToBlock c = Some to -> GetStartBlockHeight < from < 2 ^ 63 -> GetStartBlockHeight < to <= head ->
  fl_matcher f = Some (NewMatcher BloomBitsBlocks (filtersBz (fc_Addresses c) (fc_Topics c))) ->
  exists f', search b (fun _ => false) f = Ret (f', (wanted (fc_Addresses c) (fc_Topics c) (seqZ from (to - from + 1)), None)).
Proof.
  intros Hsv Hh Hst c Hfrom Hto Hf Ht Hm. destruct (sv_index b head Hsv) as (sections & Hstat & Hs & Hfirst & Hidx).
  unfold search. fold c. rewrite Hfrom, Hto. cbn [deref mbind res_bind]. rewrite Hstat.
  rewrite (u64_id from), (u64_id to), (u64_id GetStartBlockHeight) by (unfold u64_modulus; lia).
  fold (first_of sections). assert (0 <= first_of sections < 2 ^ 63) as Hfb by (unfold first_of, BloomBitsBlocks in *; lia).
  rewrite (u64_id (first_of sections)) by (unfold u64_modulus; lia).
  destruct (Z.ltb_spec from (first_of sections)) as [Hlt|Hge].
  2:{ eexists. apply (unindexedLogs_wanted b head); done || lia. }
  rewrite (u64_id (first_of sections - 1)) by (unfold u64_modulus; lia).
  set (last := if to <? first_of sections then to else first_of sections - 1).
  assert (GetStartBlockHeight < last <= to /\ last < first_of sections /\ (from <= to -> from <= last) /\ (to < from -> last = to)) as (Hl1 & Hl2 & Hl3 & Hl4).
  { unfold last. destruct (Z.ltb_spec to (first_of sections)); lia. }
  rewrite (u64_id (last - GetStartBlockHeight)) by (unfold u64_modulus; lia).
  unfold indexedLogs. cbn [set_from fl_matcher fl_criteria set Filter_eta]. rewrite Hm. cbn [deref mbind res_bind fc_FromBlock set FilterCriteria_eta].
  rewrite (u64_id (from - GetStartBlockHeight)) by (unfold u64_modulus; lia).
  rewrite Matcher_proposes; [|done|done|lia|].
  2:{ intros bit section Hbit [Hsec1 Hsec2]. destruct (Hidx bit section Hbit) as (v & Hv & _); [|by exists v].
      assert (0 <= (from - GetStartBlockHeight) / BloomBitsBlocks) by (apply Z.div_pos; [lia|done]).
      assert ((last - GetStartBlockHeight) / BloomBitsBlocks < sections) by (apply Z.div_lt_upper_bound; unfold first_of, BloomBitsBlocks in *; lia).
      lia. }
  change (fl_criteria f) with c.
  set (f1 := {| fl_criteria := _ |}).
  rewrite (indexed_loop_wanted b head _ _ Hsv ltac:(lia) ltac:(lia)).
  2:{ apply Forall_forall. intros n Hn%elem_of_seqZ. lia. }
  2:{ intros n Hn%elem_of_seqZ HP. eapply nothing_hidden; [|exact HP]. intros lg Hlg Hask.
      eapply (proposed_found b head); [done|done|lia| |done|exact Hask].
      apply Z.div_lt_upper_bound; unfold first_of, BloomBitsBlocks in *; lia. }
  cbn [mbind res_bind set_from fl_criteria fl_matcher fc_FromBlock deref set Filter_eta FilterCriteria_eta f1].
  rewrite int64_small by lia.
  erewrite (unindexedLogs_wanted b head); [|done|lia|lia|done|lia|lia].
  cbn [mbind res_bind fl_criteria fc_Addresses fc_Topics set Filter_eta FilterCriteria_eta set_from]. eexists. f_equal. f_equal. f_equal.
  cbn [app]. rewrite <- wanted_app. f_equal.
  rewrite shifted_seqZ.
  destruct (Z.leb_spec from to) as [Hle|Hgt].
  - specialize (Hl3 Hle). replace (to - from + 1) with ((last - from + 1) + (to - last)) by lia.
    rewrite (seqZ_app from (last - from + 1)) by lia. do 2 f_equal; lia.
  - rewrite (Hl4 Hgt). rewrite !seqZ_nil by lia. done.
Qed.

(** A range query: every log asked for in the range, in order, and
    nothing else; the query does not fail and the state of the index does
    not matter.  [-1] stands for the latest block.  A range the wrong way
    around is empty. *)
Theorem GetLogs_complete b head from to addresses topics :
  serves b head -> head < 2 ^ 63 - 1 -> 0 <= GetStartBlockHeight < 2 ^ 62 -> - 2 ^ 63 <= from < 2 ^ 63 -> - 2 ^ 63 <= to < 2 ^ 63 ->
  let first := if from =? -1 then head else from in
  let last := if to =? -1 then head else to in
  GetStartBlockHeight < first -> GetStartBlockHeight < last <= head ->
  LogsHeightSpan < 0 \/ (0 < LogsHeightSpan /\ last - first <= LogsHeightSpan) ->
  exists f', Logs b (fun _ => false) (NewRangeFilter b from to addresses topics)
  = Ret (f', (filter (asked addresses topics) (concat (logs_of <$> seqZ first (last - first + 1))), None)).
Proof.
  intros Hsv Hh Hst Hfrom Hto first last Hf Hl Hspan. unfold Logs, NewRangeFilter, newFilter. cbn [fl_criteria fc_BlockHash].
  destruct (sv_latest b head Hsv) as (hd & -> & Hn). cbn [mbind res_bind fc_FromBlock fc_ToBlock deref]. rewrite Hn.
  unfold resolve_block. rewrite (int64_small from), (int64_small to) by lia. rewrite (int64_small head) by lia.
  fold first last. assert (first < 2 ^ 63) by (unfold first; destruct (from =? -1); lia).
  rewrite (int64_small first), (int64_small last) by lia. rewrite (int64_small (last - first)) by lia.
  rewrite (proj2 (Z.leb_gt _ _)), (proj2 (Z.leb_gt _ _)) by lia. cbn [orb].
  destruct (Z.eqb_spec LogsHeightSpan 0); [lia|].
  destruct (Z.ltb_spec 0 LogsHeightSpan); cbn [andb]; [rewrite (proj2 (Z.ltb_ge _ _)) by lia|].
  all: destruct (sv_index b head Hsv) as (sections & Hstat & _); rewrite Hstat; apply (search_wanted b head); done || lia.
Qed.

(** A query for one block. *)
Lemma block_query_complete b head n c : serves b head -> GetStartBlockHeight < n <= head -> fc_BlockHash c = Some (block_hash n) ->
  exists f', Logs b (fun _ => false) (NewBlockFilter c)
  = Ret (f', (filter (asked (fc_Addresses c) (fc_Topics c)) (logs_of n), None)).
Proof.
  intros Hsv Hn Hc. unfold Logs, NewBlockFilter, newFilter. cbn [fl_criteria]. rewrite Hc.
  destruct (sv_by_hash b head Hsv n Hn) as (hd & -> & Hbl). cbn [mbind res_bind].
  rewrite (blockLogs_asked b head _ n hd Hsv Hn Hbl). cbn [mbind res_bind fl_criteria]. by eexists.
Qed.

End Search.
End LogSearch.
