(* ===== verification/EvmChain.v ===== *)
(** What a chain of blocks leaves in the stores for those who read it later.

    Transactions write code and storage only, so the tables of hashes and
    bloom filters belong to the begin and the end of a block.  [chain] runs
    whole blocks one after the other, with the index over the blooms, and
    [chain_recorded] says what every block of the past can be found by. *)
From S2P Require Import Prelude.
From S2P Require Import Interfaces.
From S2P Require Import StateObject.
From S2P Require Import Journal.
From S2P Require Import StateDB.
From S2P Require Import StateDBSnapshot.
From S2P Require Import StateDBCommit.
From S2P Require Import StateDBLogs.
From S2P Require Import EthMsg.
From S2P Require Import ChainID.
From S2P Require Import Ante.
From S2P Require Import Transition.
From S2P Require Import EvmKeeper.
From S2P Require Import TransitionSpec.
From S2P Require Import EvmMain.
From S2P Require Import BloomIndex.
From S2P Require Import LogFilter.
From S2P Require Import LogSearch.
Import StateObject Journal StateDB StateDBSnapshot StateDBCommit StateDBLogs.
Import Transition EvmKeeper TransitionSpec EvmMain BloomIndex LogSearch.
Local Open Scope Z_scope.

Module EvmChain.
Section Tables.
Context {St AK C G PrivateKey : Type} `{KVStore St, SdkCoins C, AccountKeeper AK C, Keccak, SdkConfig}.
Context `{GasMeters G, GasTable, VM, EthTypes, ResultCodec, TxHashing, ConfigCodec, Rlp, EthCrypto PrivateKey}.
Context `{!KVStoreLaws St, !SdkCoinsLaws C, !KeccakLaws, !AccountKeeperLaws AK C, !GasMetersLaws G, !VMLaws}.
Context (BlacklistedAddr : Address -> bool).
Abbreviation csdb := (CommitStateDB St AK C).
Abbreviation opened := (opened (C := C)).
Implicit Types (kv : St) (s : csdb) (so : stateObject C) (sto : Stores St AK) (tc : TxCtx G).

(** *** Transactions leave the tables alone *)

Lemma persist_tables s err s' : persist BlacklistedAddr s = Ret (err, s') -> tables (kvstore s) (kvstore s').
Proof.
  unfold persist, Finalise, Commit. intros Hr. bind_inv Hr. bind_inv Hr0. destruct r0 as [e s1]. apply finalise_loop_tables in Hr1.
  destruct e as [e|]; injection Hr0 as <-; [by injection Hr as _ <-|]. bind_inv Hr. bind_inv Hr0. destruct r0 as [e s2].
  apply commit_objects_tables in Hr2. injection Hr0 as <-. injection Hr as _ <-. cbn in *. by transitivity (kvstore s1).
Qed.

(** A transaction, as it is delivered. *)
Lemma deliver_tables tc sto k msg k' exe data sto' m : IsCheckTx (tc_ctx tc) = false -> keeper_ok k ->
  NewHandler BlacklistedAddr tc sto k msg = (k', Ret (inr (exe, data, sto'), m)) -> tables (sto_kv sto) (sto_kv sto').
Proof.
  intros Hdel Hk Hr. destruct (handler_cases _ _ _ _ _ _ _ Hr) as [[_ []]|(st & h & Hrun & Hsim & Hh)].
  rewrite Hdel in Hsim. unfold EvmKeeper.run_transition in Hrun. rewrite Hsim in Hrun. cbn [prepare_db] in Hrun.
  destruct (GetChainConfig _) as [[config|]|p]; [|done|done].
  set (s0 := SetLogSize _ _) in Hrun. change s0 with (opened h false sto k) in Hrun.
  destruct (Transition.TransitionDb _ _ _ _ _ _) as [[[e|exe1 data1 s'] m']|p] eqn:Ht; [done| |done].
  injection Hrun as _ _ _ <- _. cbn [sto_kv].
  destruct (TransitionDb_intrinsic _ _ _ _ _ _ _ _ _ _ Ht) as [cost Hcost].
  destruct (TransitionDb_run _ _ _ _ _ _ _ _ _ _ _ Hcost Ht) as (gc & n & vr & s1 & Hmsg & Hf).
  destruct (finish_inv _ _ _ _ _ _ _ _ _ _ Hf) as (s2 & Hs2 & _ & _ & _ & Hfin). rewrite Hsim in Hfin.
  destruct Hfin as (Hp & _). apply persist_tables in Hp.
  pose proof (opened_log_ok (C := C) h false sto k (fun _ => Hk)) as Hlog. cbv iota in Hlog.
  destruct (run_message_kept (LogSize k) _ _ _ _ _ _ _ Hlog Hmsg) as [[Hctx _ _] _].
  assert (kvstore s1 = sto_kv sto) as Hkv1.
  { unfold ctxv in Hctx. injection Hctx as -> _. by destruct (opened_stores (C := C) h false sto k). }
  assert (kvstore s2 = kvstore s1) as Hkv2.
  { apply calm_SetNonce in Hs2 as [Hc _ _]. unfold ctxv in Hc. congruence. }
  by rewrite <- Hkv1, <- Hkv2.
Qed.

(** ** Whole blocks *)

(** The messages of a block with the stores they start from: what happens
    between two of them, in other modules, leaves the tables alone. *)
Inductive threaded : Stores St AK -> Keeper -> list (TxCtx G * Stores St AK * evm_msg) -> Stores St AK -> Prop :=
  | threaded_nil sto k sto' : tables (sto_kv sto) (sto_kv sto') -> threaded sto k [] sto'
  | threaded_cons sto k tc sto1 msg l k1 r sto' :
      tables (sto_kv sto) (sto_kv sto1) -> NewHandler BlacklistedAddr tc sto1 k msg = (k1, r) ->
      threaded (match r with Ret (inr (_, _, sto2), _) => sto2 | _ => sto1 end) k1 l sto' ->
      threaded sto k ((tc, sto1, msg) :: l) sto'.

Lemma threaded_tables sto k l sto' : threaded sto k l sto' ->
  Forall (fun x => IsCheckTx (tc_ctx x.1.1) = false) l -> keeper_ok k -> tables (sto_kv sto) (sto_kv sto').
Proof.
  induction 1 as [|sto k tc sto1 msg l k1 r sto' Ht Hh Hth IH]; intros Hall Hk; [done|].
  apply Forall_cons in Hall as [Hdel Hall]. cbn in Hdel.
  destruct (deliver_step BlacklistedAddr _ _ _ _ _ _ Hdel Hk Hh) as [_ Hstep].
  transitivity (sto_kv sto1); [done|].
  destruct r as [[[e|[[exe data] sto2]] m]|p].
  - apply IH; [done|]. destruct Hstep as [->| ->]; done.
  - transitivity (sto_kv sto2); [by eapply deliver_tables|]. apply IH; [done|]. destruct Hstep as [_ _ _ Hsz _].
    unfold keeper_ok. rewrite Hsz. unfold u64. by apply Z.mod_pos_bound.
  - apply IH; [done|]. destruct Hstep as [->| ->]; done.
Qed.

(** ** A chain

    [block_hash] and [logs_of] give the hash of the block at a height and
    the logs its transactions report. *)
Context {Db : Type} `{!EthTypesLaws, KVStore Db, !KVStoreLaws Db, BloomGenerator, !BloomGeneratorLaws, BitUtil, StartHeight}.
Context (block_hash : Z -> Hash) (logs_of : Z -> list Log).
Abbreviation bloom_at := (bloom_at logs_of).
Abbreviation GetHeightHash := (EvmKeeper.GetHeightHash (C := C)).

(** Block hashes are hashes, and differ. *)
Record hashes_ok : Prop := {
  ho_start : 0 <= GetStartBlockHeight < 2 ^ 62;
  ho_ok n : GetStartBlockHeight < n < 2 ^ 63 -> hash_ok (block_hash n) /\ block_hash n ≠ 0%N;
  ho_inj n m : GetStartBlockHeight < n < 2 ^ 63 -> GetStartBlockHeight < m < 2 ^ 63 -> block_hash n = block_hash m -> n = m;
}.

Definition index_keeper sto : IndexKeeper := mkIndexKeeper (GetBlockBloom (sto_kv sto)) (GetHeightHash sto).

(** The state after the block at height [N]: stores, counters, index.  The
    first block knows of none before it.  A node that restarts has new
    counters and reads its index again. *)
Inductive chain : Z -> Stores St AK -> Keeper -> option (Indexer Db Generator) -> Prop :=
  | chain_start sto : chain GetStartBlockHeight sto NewKeeper None
  | chain_start_index sto db : kv_get db countKey = None -> chain GetStartBlockHeight sto NewKeeper (Some (InitIndexer db))
  | chain_restart N sto k i : chain N sto k (Some i) -> chain N sto NewKeeper (Some (InitIndexer (bi_db (ix_backend i))))
  | chain_block N sto k idx req sto1 k1 l sto2 k2 rs sto3 sto4 idx' :
      chain N sto k idx -> N + 1 < 2 ^ 63 - 1 -> req_Height req = N + 1 ->
      req_LastHash req = (if N =? GetStartBlockHeight then None else Some (Hash_Bytes (block_hash N))) ->
      BeginBlock (C := C) req sto k = (sto1, k1) ->
      Forall (fun x => IsCheckTx (tc_ctx x.1.1) = false) l -> Z.of_nat (length l) < 2 ^ 63 ->
      threaded sto1 k1 l sto2 -> deliver_all BlacklistedAddr l k1 = (k2, rs) ->
      logs_of (N + 1) = concat ((fun r => rd_Logs r.2) <$> rs) ->
      EndBlock (N + 1) sto2 k2 = Ret sto3 -> EndBlock_index (index_keeper sto3) (N + 1) idx = Ret idx' ->
      tables (sto_kv sto3) (sto_kv sto4) -> chain (N + 1) sto4 k2 idx'.

(** What can be read of the blocks up to [N]: the hash of a block is known
    once the next one has begun. *)
Record recorded (N : Z) sto : Prop := {
  rec_hash n : GetStartBlockHeight < n < N ->
    GetHeightHash sto n = block_hash n /\ GetBlockHash (sto_kv sto) (Hash_Bytes (block_hash n)) = Ret (n, true);
  rec_bloom n : GetStartBlockHeight < n <= N -> GetBlockBloom (sto_kv sto) n = Ret (bloom_at n);
}.

Lemma recorded_tables N sto sto' : recorded N sto -> tables (sto_kv sto) (sto_kv sto') -> recorded N sto'.
Proof.
  intros [Rh Rb] Ht. split; intros n Hn.
  - destruct (Rh n Hn) as [Hh Hg]. unfold EvmKeeper.GetHeightHash, StateDB.GetHeightHash, GetBlockHash, kv_has in *. cbn in *.
    by rewrite !Ht.
  - specialize (Rb n Hn). unfold GetBlockBloom, kv_has in *. cbn in *. by rewrite Ht.
Qed.

(** *** The begin of a block *)
Lemma BeginBlock_recorded req N sto k sto1 k1 : hashes_ok -> GetStartBlockHeight <= N -> N + 1 < 2 ^ 63 - 1 -> recorded N sto ->
  req_Height req = N + 1 -> req_LastHash req = (if N =? GetStartBlockHeight then None else Some (Hash_Bytes (block_hash N))) ->
  BeginBlock (C := C) req sto k = (sto1, k1) ->
  (forall n, GetStartBlockHeight < n < N + 1 ->
     GetHeightHash sto1 n = block_hash n /\ GetBlockHash (sto_kv sto1) (Hash_Bytes (block_hash n)) = Ret (n, true)) /\
  (forall n, GetStartBlockHeight < n <= N -> GetBlockBloom (sto_kv sto1) n = Ret (bloom_at n)) /\
  (if N =? GetStartBlockHeight then k1 = k else TxCount k1 = 0 /\ Bloom k1 = 0 /\ LogSize k1 = 0).
Proof.
  intros [Hst Hok Hinj] HN HN2 [Rh Rb] Hreq Hlast Hb. unfold BeginBlock in Hb. rewrite Hlast in Hb.
  destruct (Z.eqb_spec N GetStartBlockHeight) as [->|Hne].
  { injection Hb as <- <-. split_and!; [intros n Hn; lia|done..]. }
  rewrite Hreq in Hb. destruct (Z.ltb_spec (N + 1) 1); [lia|].
  replace (N + 1 - 1) with N in Hb by lia. rewrite (EvmMain.u64_small N) in Hb by lia.
  injection Hb as <- <-. split_and!; [|intros n Hn|done..].
  - intros n Hn. destruct (Hok N ltac:(lia)) as [HhN _]. rewrite (BytesToHash_Bytes _ HhN). split.
    + unfold EvmKeeper.GetHeightHash at 1. erewrite recorded_hash; [|done|lia|lia|done].
      destruct (decide (n = N)) as [->|]; [done|]. apply Rh. lia.
    + cbn [sto_kv]. rewrite GetBlockHash_set by lia. destruct (decide (Hash_Bytes (block_hash n) = Hash_Bytes (block_hash N))) as [Heq|Hn2].
      * apply Hash_Bytes_inj in Heq; [|apply Hok; lia|done]. apply Hinj in Heq; [|lia..]. by subst.
      * assert (n ≠ N) by congruence. destruct (Rh n ltac:(lia)) as [_ Hg]. rewrite <- Hg.
        unfold GetBlockHash. cbn. by rewrite kv_get_set, decide_False by (by intros [=]).
  - rewrite <- (Rb n Hn). unfold GetBlockBloom, SetBlockHash, kv_has. cbn -[be_bytes Hash_Bytes].
    by rewrite !kv_get_set, !decide_False by (by intros [=]).
Qed.

(** *** A block *)
Record chain_ok (N : Z) sto (k : Keeper) (idx : option (Indexer Db Generator)) : Prop := {
  co_height : GetStartBlockHeight <= N < 2 ^ 63 - 1;
  co_first : N = GetStartBlockHeight -> k = NewKeeper;
  co_keeper : keeper_ok k;
  co_recorded : recorded N sto;
  co_index i : idx = Some i -> index_ok block_hash bloom_at i /\ processing i = 0 /\
    storedSections i = (N - GetStartBlockHeight) / BloomBitsBlocks;
}.

Lemma index_knows N sto : hashes_ok -> N < 2 ^ 63 - 1 ->
  (forall n, GetStartBlockHeight < n < N ->
     GetHeightHash sto n = block_hash n /\ GetBlockHash (sto_kv sto) (Hash_Bytes (block_hash n)) = Ret (n, true)) ->
  (forall n, GetStartBlockHeight < n <= N -> GetBlockBloom (sto_kv sto) n = Ret (bloom_at n)) ->
  knows block_hash bloom_at (index_keeper sto) N.
Proof.
  intros [_ Hok _] HN Hh Hb. split; intros n Hn; cbn.
  - split; [apply Hb; lia|done].
  - destruct (Hh n Hn) as [-> _]. destruct (Hok n) as [? ?]; [lia|]. done.
Qed.

(** A block ends without a panic, and everything stays recorded. *)
Lemma block_ends N sto k idx req sto1 k1 l sto2 k2 rs :
  hashes_ok -> chain_ok N sto k idx -> N + 1 < 2 ^ 63 - 1 -> req_Height req = N + 1 ->
  req_LastHash req = (if N =? GetStartBlockHeight then None else Some (Hash_Bytes (block_hash N))) ->
  BeginBlock (C := C) req sto k = (sto1, k1) ->
  Forall (fun x => IsCheckTx (tc_ctx x.1.1) = false) l -> Z.of_nat (length l) < 2 ^ 63 ->
  threaded sto1 k1 l sto2 -> deliver_all BlacklistedAddr l k1 = (k2, rs) -> logs_of (N + 1) = block_logs rs ->
  exists sto3 idx', EndBlock (N + 1) sto2 k2 = Ret sto3 /\ EndBlock_index (index_keeper sto3) (N + 1) idx = Ret idx' /\
    forall sto4, tables (sto_kv sto3) (sto_kv sto4) -> chain_ok (N + 1) sto4 k2 idx'.
Proof.
  intros Hho [Hh Hfirst Hkeep Hrec Hidx] HN Hreq Hlast Hbegin Hall Hlen Hth Hdel Hlogs.
  pose proof (ho_start Hho) as Hst.
  destruct (BeginBlock_recorded req N sto k sto1 k1 Hho ltac:(lia) HN Hrec Hreq Hlast Hbegin) as (Rh & Rb & Hk1).
  assert (TxCount k1 = 0 /\ Bloom k1 = 0 /\ LogSize k1 = 0) as (Hc1 & Hb1 & Hl1).
  { destruct (Z.eqb_spec N GetStartBlockHeight) as [HNs|]; [|done]. subst k1. by rewrite (Hfirst HNs). }
  assert (keeper_ok k1) as Hok1 by (unfold keeper_ok; rewrite Hl1; done).
  pose proof (deliver_all_ok BlacklistedAddr l k1 Hall Hok1 ltac:(lia) ltac:(lia)) as Hbo. rewrite Hdel in Hbo. cbn [fst snd] in Hbo.
  destruct Hbo as [_ _ Bsize Bbloom _ _ _]. rewrite Hb1, Z.lor_0_l in Bbloom.
  rewrite (EndBlock_stores (N + 1) sto2 k2 (block_logs rs) Bbloom). set (sto3 := mkStores _ _ _ _ _).
  pose proof (threaded_tables _ _ _ _ Hth Hall Hok1) as Htab.
  assert (recorded (N + 1) sto3) as Hrec3.
  { assert (recorded N sto2 /\ forall n, GetStartBlockHeight < n < N + 1 ->
      GetHeightHash sto2 n = block_hash n /\ GetBlockHash (sto_kv sto2) (Hash_Bytes (block_hash n)) = Ret (n, true)) as [Hrec2 Rh2].
    { assert (recorded N sto1) as Hr1 by (split; [intros n Hn; apply Rh; lia|done]). split; [by eapply recorded_tables|].
      intros n Hn. destruct (Rh n Hn) as [Ha Hb]. unfold EvmKeeper.GetHeightHash, StateDB.GetHeightHash, GetBlockHash in *. cbn in *.
      by rewrite !Htab. }
    split; intros n Hn.
    - destruct (Rh2 n ltac:(lia)) as [Ha Hb]. rewrite <- Hb, <- Ha.
      unfold EvmKeeper.GetHeightHash, StateDB.GetHeightHash, GetBlockHash, sto3, SetBlockBloom. cbn -[be_bytes Hash_Bytes HeightHashKey].
      by rewrite !kv_get_set, !decide_False by (by intros [=]).
    - unfold sto3. cbn [sto_kv]. rewrite GetBlockBloom_set by apply length_be_bytes.
      rewrite !EvmMain.u64_small by lia. destruct (decide (n = N + 1)) as [->|Hne].
      + unfold LogSearch.bloom_at. by rewrite Hlogs.
      + apply (rec_bloom N sto2 Hrec2). lia. }
  assert (forall i, idx = Some i -> exists i', EndBlock_index (index_keeper sto3) (N + 1) (Some i) = Ret (Some i') /\
    index_ok block_hash bloom_at i' /\ processing i' = 0 /\ storedSections i' = (N + 1 - GetStartBlockHeight) / BloomBitsBlocks) as Hend.
  { intros i Hi. destruct (Hidx i Hi) as (Hio & Hp & Hs).
    destruct (EndBlock_index_keeps_up block_hash bloom_at Hst (index_keeper sto3) (N + 1) i) as (i' & He & Hio' & Hp' & Hs'); [|done|done|lia|].
    { apply index_knows; [done|lia|apply (rec_hash _ _ Hrec3)|apply (rec_bloom _ _ Hrec3)]. }
    exists i'. split_and!; [done..|]. rewrite Hs', Hs. apply Z.max_r, Z.div_le_mono; [done|lia]. }
  exists sto3. destruct idx as [i|].
  - destruct (Hend i eq_refl) as (i' & He & Hio' & Hp' & Hs'). exists (Some i'). split; [done|]. split; [done|].
    intros sto4 Ht4. split; [lia|lia| | |].
    + unfold keeper_ok. rewrite Bsize. apply Z.mod_pos_bound. done.
    + by eapply recorded_tables.
    + by intros x [= <-].
  - exists None. split; [done|]. split; [done|]. intros sto4 Ht4. split; [lia|lia| | |done].
    + unfold keeper_ok. rewrite Bsize. apply Z.mod_pos_bound. done.
    + by eapply recorded_tables.
Qed.

Lemma chain_in_order N sto k idx : hashes_ok -> chain N sto k idx -> chain_ok N sto k idx.
Proof.
  intros Hho Hc. pose proof (ho_start Hho) as Hst.
  assert (forall sto, recorded GetStartBlockHeight sto) as Hnone by (intros s; split; intros n Hn; lia).
  induction Hc as [sto|sto db Hdb|N sto k i Hc IH|N sto k idx req sto1 k1 l sto2 k2 rs sto3 sto4 idx' Hc IH HN Hreq Hlast Hbegin Hall Hlen Hth Hdel Hlogs Hend Hidx Htab].
  - split; [lia|done|done|apply Hnone|done].
  - destruct (InitIndexer_empty block_hash bloom_at Hst db Hdb) as (Hio & Hp & Hs).
    split; [lia|done|done|apply Hnone|]. intros i [= <-]. split_and!; [done|done|by rewrite Hs, Z.sub_diag].
  - destruct IH as [Hh _ _ Hrec Hi]. destruct (Hi i eq_refl) as (Hio & Hp & Hs).
    destruct (InitIndexer_ok block_hash bloom_at Hst i Hio) as (Hio' & Hp' & Hs').
    split; [done|done|done|done|]. intros i' [= <-]. by rewrite Hs', Hs.
  - destruct (block_ends N sto k idx req sto1 k1 l sto2 k2 rs Hho IH HN Hreq Hlast Hbegin Hall Hlen Hth Hdel Hlogs) as (sto3' & idx2 & He & Hi2 & Hok).
    assert (sto3' = sto3) as -> by congruence. assert (idx2 = idx') as -> by congruence. by apply Hok.
Qed.

(** C37: after any history of blocks, whatever their transactions did and
    however often the node restarted: every block but the last is found by
    its height and by its hash, the bloom filter of every block is that of
    the logs its transactions reported, and the index holds every full
    section, turned around; the next block can always be ended. *)
Theorem chain_recorded N sto k idx : hashes_ok -> chain N sto k idx ->
  (forall n, GetStartBlockHeight < n < N ->
     GetHeightHash sto n = block_hash n /\ GetBlockHash (sto_kv sto) (Hash_Bytes (block_hash n)) = Ret (n, true)) /\
  (forall n, GetStartBlockHeight < n <= N -> GetBlockBloom (sto_kv sto) n = Ret (be_bytes 256 (LogsBloom (logs_of n)))) /\
  (forall i, idx = Some i -> storedSections i = (N - GetStartBlockHeight) / BloomBitsBlocks /\
     forall section bit, 0 <= section < storedSections i -> 0 <= bit < BloomBitLength ->
       exists v, ReadBloomBits (bi_db (ix_backend i)) bit section (block_hash (last_of section)) = Some (CompressBytes v) /\
                 rotated bloom_at bit section v) /\
  (forall req sto1 k1 l sto2, N + 1 < 2 ^ 63 - 1 -> req_Height req = N + 1 ->
     req_LastHash req = (if N =? GetStartBlockHeight then None else Some (Hash_Bytes (block_hash N))) ->
     BeginBlock (C := C) req sto k = (sto1, k1) ->
     Forall (fun x => IsCheckTx (tc_ctx x.1.1) = false) l -> Z.of_nat (length l) < 2 ^ 63 -> threaded sto1 k1 l sto2 ->
     logs_of (N + 1) = block_logs (deliver_all BlacklistedAddr l k1).2 ->
     exists sto3 idx', EndBlock (N + 1) sto2 (deliver_all BlacklistedAddr l k1).1 = Ret sto3 /\
       EndBlock_index (index_keeper sto3) (N + 1) idx = Ret idx').
Proof.
  intros Hho Hc. pose proof (chain_in_order N sto k idx Hho Hc) as Hok. destruct (Hok) as [Hh Hfirst Hkeep [Rh Rb] Hidx].
  split_and!; [done|done| |].
  - intros i Hi. destruct (Hidx i Hi) as ([_ _ _ _ Hbits] & _ & Hs). split; [done|exact Hbits].
  - intros req sto1 k1 l sto2 HN Hreq Hlast Hbegin Hall Hlen Hth Hlogs.
    destruct (block_ends N sto k idx req sto1 k1 l sto2 _ _ Hho Hok HN Hreq Hlast Hbegin Hall Hlen Hth (surjective_pairing _) Hlogs)
      as (sto3 & idx' & He & Hi & _). by exists sto3, idx'.
Qed.

End Tables.
End EvmChain.
