(* ===== verification/EvmQuery.v ===== *)
(** The queries of the EVM module (evm/keeper/querier.go, the getters of
    evm/keeper/statedb.go, app/utils).

    An answer is the value the code puts into JSON; the encoding is left
    out.  Paths are the parts of the request, so numbers arrive as text. *)
From S2P Require Import Prelude.
From S2P Require Import Interfaces.
From S2P Require Import GoStrings.
From S2P Require Import Account.
From S2P Require Import StateObject.
From S2P Require Import StateDB.
From S2P Require Import EthMsg.
From S2P Require Import Ante.
From S2P Require Import Transition.
From S2P Require Import EvmKeeper.
From S2P Require Import EvmLists.
From S2P Require Import EvmGenesis.
From S2P Require Import BloomIndex.
Import StateObject StateDB EvmKeeper EvmLists EvmGenesis BloomIndex.
Local Open Scope Z_scope.

(** [common.Hash.Hex], which [common.FromHex] reads back. *)
Class HexText := Hash_Hex : Hash -> string.
Class HexTextLaws `{GenesisText, HexText} := FromHex_Hex h : hash_ok h -> FromHex (Hash_Hex h) = Hash_Bytes h.

Inductive query_error := QInvalidRequest | QUnknownRequest | QKeyNotFound | QStrConvert.
Inductive query_res :=
  | ResBalance (balance : Z)
  | ResBlockNumber (number : Z)
  | ResStorage (value : bytes)
  | ResCode (code : option bytes)
  | ResBloom (bloom : bytes)
  | ResAccount (balance : Z) (codeHash : bytes) (nonce : Z)
  | ResExportAccount (account : GenesisAccount)
  | ResParams (params : Params)
  | ResHash (hash : bytes)
  | ResSection (sections : Z)
  | ResAddresses (addresses : list bytes).

Module EvmQuery.

Definition QueryBalance : string := "balance".
Definition QueryBlockNumber : string := "blockNumber".
Definition QueryStorage : string := "storage".
Definition QueryCode : string := "code".
Definition QueryHashToHeight : string := "hashToHeight".
Definition QueryBloom : string := "bloom".
Definition QueryAccount : string := "account".
Definition QueryExportAccount : string := "exportAccount".
Definition QueryParameters : string := "params".
Definition QueryHeightToHash : string := "heightToHash".
Definition QuerySection : string := "section".
Definition QueryContractDeploymentWhitelist : string := "contract-deployment-whitelist".
Definition QueryContractBlockedList : string := "contract-blocked-list".

Section Query.
Context {St AK C Db : Type} `{KVStore St, SdkCoins C, AccountKeeper AK C, Keccak, SdkConfig, ConfigCodec, EthTypes, GenesisText, BloomGenerator}.
Abbreviation csdb := (CommitStateDB St AK C).
Abbreviation open := (open (C := C)).
Implicit Types (sto : Stores St AK).
Definition answer : Type := query_error + query_res.

Definition queryContractBlockedList sto : res answer := Ret (inr (ResAddresses (GetContractBlockedList (open sto : csdb)))).
Definition queryContractDeploymentWhitelist sto : res answer := Ret (inr (ResAddresses (GetContractDeploymentWhitelist (open sto : csdb)))).
Definition queryBalance sto (path : list string) : res answer :=
  match path with
  | _ :: a :: _ => balance ← Keeper_GetBalance (C := C) sto (HexToAddress a); Ret (inr (ResBalance balance))
  | _ => Ret (inl QInvalidRequest)
  end.
Definition queryBlockNumber (height : Z) : res answer := Ret (inr (ResBlockNumber height)).
Definition queryStorage sto (path : list string) : res answer :=
  match path with
  | _ :: a :: k :: _ => val ← Keeper_GetState (C := C) sto (HexToAddress a) (HexToHash k); Ret (inr (ResStorage (Hash_Bytes val)))
  | _ => Ret (inl QInvalidRequest)
  end.
Definition queryCode sto (path : list string) : res answer :=
  match path with
  | _ :: a :: _ => code ← Keeper_GetCode (C := C) sto (HexToAddress a); Ret (inr (ResCode code))
  | _ => Ret (inl QInvalidRequest)
  end.
Definition queryHashToHeight sto (path : list string) : res answer :=
  match path with
  | _ :: h :: _ =>
      '(blockNumber, found) ← GetBlockHash (sto_kv sto) (FromHex h);
      Ret (if found : bool then inr (ResBlockNumber blockNumber) else inl QKeyNotFound)
  | _ => Ret (inl QInvalidRequest)
  end.
Definition queryBlockBloom sto (path : list string) : res answer :=
  match path with
  | _ :: n :: _ =>
      match ParseInt n with
      | None => Ret (inl QStrConvert)
      | Some num => bloom ← GetBlockBloom (sto_kv sto) num; Ret (inr (ResBloom bloom))
      end
  | _ => Ret (inl QInvalidRequest)
  end.
Definition Keeper_GetOrNewStateObject sto addr : res (stateObject C) := fst <$> GetOrNewStateObject (open sto : csdb) addr.
Definition queryAccount sto (path : list string) : res answer :=
  match path with
  | _ :: a :: _ =>
      so ← Keeper_GetOrNewStateObject sto (HexToAddress a);
      Ret (inr (ResAccount (so_Balance so) (CodeHash so) (Nonce so)))
  | _ => Ret (inl QInvalidRequest)
  end.
Definition queryExportAccount sto (path : list string) : res answer :=
  match path with
  | _ :: hexAddress :: _ =>
      let addr := HexToAddress hexAddress in
      storage ← GetAccountStorage (C := C) sto addr;
      code ← Keeper_GetCode (C := C) sto addr;
      Ret (inr (ResExportAccount (mkGenesisAccount hexAddress code storage)))
  | _ => Ret (inl QInvalidRequest)
  end.
Definition queryParams sto : res answer := Ret (inr (ResParams (sto_ps sto))).
Definition queryHeightToHash sto (path : list string) : res answer :=
  match path with
  | _ :: n :: _ =>
      match Atoi n with
      | None => Ret (inl QInvalidRequest)
      | Some height => Ret (inr (ResHash (Hash_Bytes (EvmKeeper.GetHeightHash (C := C) sto (u64 height)))))
      end
  | _ => Ret (inl QInvalidRequest)
  end.
Definition querySection (enableBloomFilter : bool) (idx : option (Indexer Db Generator)) (path : list string) : res answer :=
  if negb enableBloomFilter then Ret (inl QInvalidRequest)
  else if negb (length path =? 1)%nat then Ret (inl QInvalidRequest)
  else Ret (inr (ResSection (StoredSection idx))).

(** The index and whether it is enabled are process-wide; [height] is that of
    the context. *)
Definition NewQuerier (enableBloomFilter : bool) (idx : option (Indexer Db Generator)) (height : Z) sto (path : list string) : res answer :=
  match path with
  | [] => Ret (inl QInvalidRequest)
  | p :: _ =>
      if String.eqb p QueryBalance then queryBalance sto path
      else if String.eqb p QueryBlockNumber then queryBlockNumber height
      else if String.eqb p QueryStorage then queryStorage sto path
      else if String.eqb p QueryCode then queryCode sto path
      else if String.eqb p QueryHashToHeight then queryHashToHeight sto path
      else if String.eqb p QueryBloom then queryBlockBloom sto path
      else if String.eqb p QueryAccount then queryAccount sto path
      else if String.eqb p QueryExportAccount then queryExportAccount sto path
      else if String.eqb p QueryParameters then queryParams sto
      else if String.eqb p QueryHeightToHash then queryHeightToHash sto path
      else if String.eqb p QuerySection then querySection enableBloomFilter idx path
      else if String.eqb p QueryContractDeploymentWhitelist then queryContractDeploymentWhitelist sto
      else if String.eqb p QueryContractBlockedList then queryContractBlockedList sto
      else Ret (inl QUnknownRequest)
  end.

(** ** The queries the node's services send *)
Implicit Types (idx : option (Indexer Db Generator)).

Lemma query_height_to_hash e idx h sto n : 0 <= n < 2 ^ 63 ->
  NewQuerier e idx h sto [QueryHeightToHash; FormatInt n] = Ret (inr (ResHash (Hash_Bytes (EvmKeeper.GetHeightHash (C := C) sto n)))).
Proof.
  intros Hn. unfold NewQuerier, queryHeightToHash, Atoi. cbn [String.eqb Ascii.eqb Bool.eqb QueryHeightToHash QueryBalance QueryBlockNumber QueryStorage QueryCode QueryHashToHeight QueryBloom QueryAccount QueryExportAccount QueryParameters].
  rewrite ParseInt_FormatInt by lia. by rewrite u64_id by (unfold u64_modulus; lia).
Qed.
Lemma query_bloom e idx h sto n : 0 <= n < 2 ^ 63 ->
  NewQuerier e idx h sto [QueryBloom; FormatInt n] = (bloom ← GetBlockBloom (sto_kv sto) n; Ret (inr (ResBloom bloom))).
Proof.
  intros Hn. unfold NewQuerier, queryBlockBloom. cbn [String.eqb Ascii.eqb Bool.eqb QueryBalance QueryBlockNumber QueryStorage QueryCode QueryHashToHeight QueryBloom].
  by rewrite ParseInt_FormatInt by lia.
Qed.
Lemma query_hash_to_height `{HexText, !HexTextLaws} e idx h sto hash n : hash_ok hash ->
  GetBlockHash (sto_kv sto) (Hash_Bytes hash) = Ret (n, true) ->
  NewQuerier e idx h sto [QueryHashToHeight; Hash_Hex hash] = Ret (inr (ResBlockNumber n)).
Proof.
  intros Hh Hg. unfold NewQuerier, queryHashToHeight. cbn [String.eqb Ascii.eqb Bool.eqb QueryBalance QueryBlockNumber QueryStorage QueryCode QueryHashToHeight].
  rewrite FromHex_Hex by done. rewrite Hg. done.
Qed.

End Query.
End EvmQuery.
