(* ===== verification/RpcBackend.v ===== *)
(** The node's backend for the JSON-RPC services (app/rpc/backend,
    app/rpc/types: types.go, utils.go).

    It answers from Tendermint's blocks and results, from the queries of the
    EVM module on the last committed state, from the index of blooms and,
    for a few answers, from a cache beside them.  [RpcBackend] has the
    operations as they are written; the instance of [Backend] at the end is
    what filters use. *)
From S2P Require Import Prelude.
From S2P Require Import Interfaces.
From S2P Require Import GoStrings.
From S2P Require Import Account.
From S2P Require Import StateObject.
From S2P Require Import StateDB.
From S2P Require Import EthMsg.
From S2P Require Import Ante.
From S2P Require Import Transition.
From S2P Require Import EvmKeeper.
From S2P Require Import EvmGenesis.
From S2P Require Import BloomIndex.
From S2P Require Import LogFilter.
From S2P Require Import EvmQuery.
Import BloomIndex LogFilter EvmQuery.
Local Open Scope Z_scope.

(** ** Tendermint *)
Record TmHeader := mkTmHeader {
  th_Height : Z; th_LastBlockHash : bytes; th_ProposerAddress : bytes; th_AppHash : bytes; th_DataHash : bytes; th_Time : Z;
}.
Record TmBlock := mkTmBlock { tb_Header : TmHeader; tb_Txs : list bytes; tb_Hash : bytes; tb_Size : Z }.

(** The RPC client; [None] is an error. *)
Class TmClient (Cl : Type) := {
  Client_Block : Cl -> Z -> option TmBlock;
  (** the data of the result of the transaction with a hash *)
  Client_Tx : Cl -> bytes -> option bytes;
  Client_LastHeight : Cl -> option Z;
  Client_UnconfirmedTxs : Cl -> option (list bytes * Z);
  Client_UserUnconfirmedTxs : Cl -> string -> Z -> option (list bytes);
  Client_UserNumUnconfirmedTxs : Cl -> string -> option Z;
  Client_GetUnconfirmedTxByHash : Cl -> Hash -> option bytes;
}.
(** [DecodeResultData] undoes [EncodeResultData]. *)
Class ResultDecoder := DecodeResultData : bytes -> option ResultData.
(** [evmtypes.TxDecoder]: an Ethereum transaction, the gas of another one,
    or an error. *)
Class TxDecoding := TxDecoder : bytes -> option (MsgEthereumTx + Z).

(** [Transaction] (app/rpc/types/types.go). *)
Record Transaction := mkTransaction {
  rt_BlockHash : option Hash; rt_BlockNumber : option Z; rt_From : Address; rt_Gas : Z; rt_GasPrice : Z; rt_Hash : Hash;
  rt_Input : bytes; rt_Nonce : Z; rt_To : option Address; rt_TransactionIndex : option Z; rt_Value : Z;
  rt_V : Z; rt_R : Z; rt_S : Z;
}.
#[export] Instance Transaction_eta : Eta Transaction := fun r =>
  mkTransaction (rt_BlockHash r) (rt_BlockNumber r) (rt_From r) (rt_Gas r) (rt_GasPrice r) (rt_Hash r) (rt_Input r) (rt_Nonce r)
    (rt_To r) (rt_TransactionIndex r) (rt_Value r) (rt_V r) (rt_R r) (rt_S r).

(** The map [FormatBlock] makes, the fields that are not constants. *)
Inductive block_txs := TxHashes (l : list Hash) | FullTxs (l : list Transaction).
Record EthBlock := mkEthBlock {
  bk_number : Z; bk_hash : bytes; bk_parentHash : bytes; bk_logsBloom : bytes; bk_transactionsRoot : bytes; bk_stateRoot : bytes;
  bk_miner : Address; bk_size : Z; bk_gasLimit : Z; bk_gasUsed : Z; bk_timestamp : Z; bk_transactions : block_txs;
}.

(** The cache the backend asks first (evm/watcher): [None] is an error, as
    when it is disabled. *)
Record WatcherAnswers := mkWatcherAnswers {
  wa_GetLatestBlockNumber : option Z;
  wa_GetBlockByNumber : Z -> bool -> option EthBlock;
  wa_GetBlockByHash : Hash -> bool -> option EthBlock;
}.

Record EthermintBackend {Cl St AK Db Gen : Type} := mkEthermintBackend {
  eb_client : Cl;
  eb_stores : Stores St AK;   (* of the last committed block *)
  eb_height : Z;
  eb_index : option (Indexer Db Gen);
  eb_watcher : WatcherAnswers;
}.
Arguments EthermintBackend Cl St AK Db Gen : clear implicits.

(** Errors as values: the next step runs on a result. *)
Definition and_then {A B} (m : res (rpc_error + A)) (k : A -> res (rpc_error + B)) : res (rpc_error + B) :=
  x ← m; match x with inl e => Ret (inl e) | inr a => k a end.
Definition or_error {A} (e : rpc_error) (o : option A) : res (rpc_error + A) :=
  Ret (match o with Some a => inr a | None => inl e end).

Module RpcBackend.
Section Types.
Context `{Keccak, Rlp} {PrivateKey : Type} `{EthCrypto PrivateKey, TxHashing, TxDecoding}.

(** *** app/rpc/types/utils.go *)

Definition RawTxToEthTx (bz : bytes) : option MsgEthereumTx :=
  match TxDecoder bz with Some (inl msg) => Some msg | _ => None end.
(** [None] is an error. *)
Definition NewTransaction (tx : MsgEthereumTx) (txHash blockHash : Hash) (blockNumber index : Z) : res (option Transaction) :=
  '(sender, _) ← EthMsg.VerifySig tx (EthMsg.ChainID tx);
  Ret (match sender with
       | inr _ => None
       | inl a =>
           let d := Data tx in
           let rpcTx := mkTransaction None None a (GasLimit d) (Price d) txHash (Payload d) (AccountNonce d) (Recipient d) None
                          (Amount d) (tx_V d) (tx_R d) (tx_S d) in
           Some (if (blockHash =? 0)%N then rpcTx
                 else rpcTx <| rt_BlockHash := Some blockHash |> <| rt_BlockNumber := Some blockNumber |> <| rt_TransactionIndex := Some index |>)
       end).
Definition EthHeaderFromTendermint (header : TmHeader) : EthHeader :=
  mkEthHeader (BytesToHash (th_LastBlockHash header)) (BytesToAddress (th_ProposerAddress header)) (BytesToHash (th_AppHash header))
    (BytesToHash (th_DataHash header)) (th_Height header) (u64 (th_Time header)) (replicate 256 x00).
Definition hash_of_tx (tx : bytes) : Hash := BytesToHash (tmHash tx).

(** The hashes of all Ethereum transactions, the gas they ask for, and those
    whose sender can be recovered. *)
Fixpoint eth_transactions (txs : list bytes) (blockHash : Hash) (blockNumber index : Z) (hashes : list Hash) (gasUsed : Z)
    (transactions : list Transaction) : res (list Hash * Z * list Transaction) :=
  match txs with
  | [] => Ret (hashes, gasUsed, transactions)
  | tx :: rest =>
      match RawTxToEthTx tx with
      | None => eth_transactions rest blockHash blockNumber index hashes gasUsed transactions
      | Some ethTx =>
          let gasUsed := gasUsed + int64_of (EthMsg.GetGas ethTx) in
          let hashes := hashes ++ [hash_of_tx tx] in
          t ← NewTransaction ethTx (hash_of_tx tx) blockHash blockNumber index;
          match t with
          | Some t => eth_transactions rest blockHash blockNumber (u64 (index + 1)) hashes gasUsed (transactions ++ [t])
          | None => eth_transactions rest blockHash blockNumber index hashes gasUsed transactions
          end
      end
  end.
Definition EthTransactionsFromTendermint (txs : list bytes) (blockHash : Hash) (blockNumber : Z) : res (list Hash * Z * list Transaction) :=
  eth_transactions txs blockHash blockNumber 0 [] 0 [].
Definition BlockMaxGas : Z := 2 ^ 32 - 1.
(** Empty lists are nil and become an empty list of hashes. *)
Definition FormatBlock (header : TmHeader) (size : Z) (curBlockHash : bytes) (gasLimit gasUsed : Z) (transactions : block_txs) (bloom : bytes) : EthBlock :=
  let dataHash := match th_DataHash header with [] => Hash_Bytes 0%N | h => h end in
  mkEthBlock (u64 (th_Height header)) curBlockHash (th_LastBlockHash header) bloom dataHash (th_AppHash header)
    (BytesToAddress (th_ProposerAddress header)) (u64 size) (u64 gasLimit) gasUsed (u64 (th_Time header))
    (match transactions with FullTxs [] => TxHashes [] | t => t end).
(** The gas of the transactions before [idx], other modules' included. *)
Definition GetBlockCumulativeGas (txs : list bytes) (idx : Z) : Z :=
  foldl (fun gasUsed tx => match TxDecoder tx with
    | Some (inl msg) => u64 (gasUsed + EthMsg.GetGas msg)
    | Some (inr gas) => u64 (gasUsed + gas)
    | None => gasUsed
    end) 0 (take (Z.to_nat idx) txs).

End Types.

Section Backend.
Context {Cl St AK C Db : Type} `{KVStore St, SdkCoins C, AccountKeeper AK C, Keccak, SdkConfig, ConfigCodec, EthTypes, GenesisText, HexText}.
Context `{KVStore Db, BloomGenerator, BitUtil, BloomFilters, StartHeight, TmClient Cl, ResultDecoder, TxHashing, TxDecoding, Rlp}.
Context {PrivateKey : Type} `{EthCrypto PrivateKey}.
Context (enableBloomFilter : bool).
Abbreviation backend := (EthermintBackend Cl St AK Db Generator).
Implicit Types (b : backend).

(** *** app/rpc/backend/backend.go *)

(** [clientCtx.Query] with a custom path of the EVM module. *)
Definition Query b (path : list string) : res (rpc_error + query_res) :=
  a ← NewQuerier (C := C) enableBloomFilter (eb_index b) (eb_height b) (eb_stores b) path;
  Ret (match a with inl _ => inl ErrQuery | inr r => inr r end).
Definition as_number (r : query_res) : res (rpc_error + Z) := match r with ResBlockNumber n => Ret (inr n) | _ => Ret (inl ErrDecode) end.
Definition as_bloom (r : query_res) : res (rpc_error + bytes) := match r with ResBloom x => Ret (inr x) | _ => Panic (PanicMsg "UnmarshalJSON") end.

Definition LatestBlockNumber b : rpc_error + Z := match Client_LastHeight (eb_client b) with Some h => inr h | None => inl ErrClient end.
Definition BlockNumber b : rpc_error + Z :=
  match wa_GetLatestBlockNumber (eb_watcher b) with
  | Some n => inr (if 0 <? n then n - 1 else n)
  | None => match LatestBlockNumber b with inl e => inl e | inr n => inr (u64 (if 0 <? n then n - 1 else n)) end
  end.
(** The height a block number stands for. *)
Definition resolve_height b (blockNum : Z) : rpc_error + Z :=
  if blockNum <=? 0 then match BlockNumber b with inl e => inl e | inr num => inr (int64_of num) end else inr blockNum.

(** The header of a block of Tendermint with its bloom filter. *)
Definition header_with_bloom b (block : TmBlock) : res (rpc_error + option EthHeader) :=
  and_then (Query b [QueryBloom; FormatInt (th_Height (tb_Header block))]) (fun r =>
  and_then (as_bloom r) (fun bloom =>
  Ret (inr (Some ((EthHeaderFromTendermint (tb_Header block)) <| hd_Bloom := bloom |>))))).
Definition HeaderByNumber b (blockNum : Z) : res (rpc_error + option EthHeader) :=
  match resolve_height b blockNum with
  | inl e => Ret (inl e)
  | inr height => and_then (or_error ErrClient (Client_Block (eb_client b) height)) (header_with_bloom b)
  end.
(** The block a hash stands for. *)
Definition block_of_hash b (blockHash : Hash) : res (rpc_error + TmBlock) :=
  and_then (Query b [QueryHashToHeight; Hash_Hex blockHash]) (fun r =>
  and_then (as_number r) (fun n => or_error ErrClient (Client_Block (eb_client b) n))).
Definition HeaderByHash b (blockHash : Hash) : res (rpc_error + option EthHeader) := and_then (block_of_hash b blockHash) (header_with_bloom b).
Definition GetBlockHashByHeight b (height : Z) : rpc_error + Hash :=
  match Query b [QueryHeightToHash; FormatInt height] with Ret (inr (ResHash h)) => inr (BytesToHash h) | _ => inl ErrQuery end.

(** The logs of the transactions whose results can be read. *)
Fixpoint block_logs (cl : Cl) (txs : list bytes) : list (list Log) :=
  match txs with
  | [] => []
  | tx :: rest =>
      match Client_Tx cl (tmHash tx) with
      | None => block_logs cl rest
      | Some data => match DecodeResultData data with None => block_logs cl rest | Some execRes => rd_Logs execRes :: block_logs cl rest end
      end
  end.
Definition GetLogs b (blockHash : Hash) : res (rpc_error + list (list Log)) :=
  and_then (block_of_hash b blockHash) (fun block => Ret (inr (block_logs (eb_client b) (tb_Txs block)))).
Definition GetTransactionLogs b (txHash : Hash) : rpc_error + list Log :=
  match Client_Tx (eb_client b) (Hash_Bytes txHash) with
  | None => inl ErrClient
  | Some data => match DecodeResultData data with None => inl ErrDecode | Some execRes => inr (rd_Logs execRes) end
  end.

Definition BloomStatus b : Z * Z := (BloomBitsBlocks, StoredSection (eb_index b)).
(** One section of a task of [StartBloomHandlers]: an error of the hash stays
    the task's error, and a vector that is missing is read as empty. *)
Definition serve_section b (bit section : Z) : rpc_error + bytes :=
  match eb_index b with
  | None => inl ErrQuery
  | Some i =>
      let height := int64_of (u64 ((section + 1) * BloomBitsBlocks - 1)) + GetStartBlockHeight in
      let hash := GetBlockHashByHeight b height in
      let compVector := ReadBloomBits (bi_db (ix_backend i)) bit section (match hash with inr h => h | inl _ => 0%N end) in
      match DecompressBytes (default [] compVector) (BloomBitsBlocks / 8) with
      | None => inl ErrDecode
      | Some blob => match hash with inl e => inl e | inr _ => inr blob end
      end
  end.

Definition EthBlockFromTendermint b (block : TmBlock) (fullTx : bool) : res (rpc_error + option EthBlock) :=
  let header := tb_Header block in
  '(transactions, gasUsed, ethTxs) ← EthTransactionsFromTendermint (tb_Txs block) (BytesToHash (tb_Hash block)) (u64 (th_Height header));
  and_then (Query b [QueryBloom; FormatInt (th_Height header)]) (fun r =>
  and_then (as_bloom r) (fun bloom =>
  let blockTxs := if fullTx then FullTxs ethTxs else TxHashes transactions in
  Ret (inr (Some (FormatBlock header (tb_Size block) (tb_Hash block) BlockMaxGas gasUsed blockTxs bloom))))).
(** A block that Tendermint does not have is nil, without an error. *)
Definition GetBlockByNumber b (blockNum : Z) (fullTx : bool) : res (rpc_error + option EthBlock) :=
  match wa_GetBlockByNumber (eb_watcher b) (u64 blockNum) fullTx with
  | Some ethBlock => Ret (inr (Some ethBlock))
  | None =>
      match resolve_height b blockNum with
      | inl e => Ret (inl e)
      | inr height =>
          match Client_Block (eb_client b) height with
          | None => Ret (inr None)
          | Some block => EthBlockFromTendermint b block fullTx
          end
      end
  end.
Definition GetBlockByHash b (hash : Hash) (fullTx : bool) : res (rpc_error + option EthBlock) :=
  match wa_GetBlockByHash (eb_watcher b) hash fullTx with
  | Some ethBlock => Ret (inr (Some ethBlock))
  | None =>
      and_then (Query b [QueryHashToHeight; Hash_Hex hash]) (fun r =>
      and_then (as_number r) (fun n =>
      match Client_Block (eb_client b) n with
      | None => Ret (inr None)
      | Some block => EthBlockFromTendermint b block fullTx
      end))
  end.

(** *** Transactions that are not in a block yet *)

(** Those of a list that are Ethereum transactions; one whose sender cannot
    be recovered fails the request. *)
Fixpoint pending_transactions (txs : list bytes) (transactions : list (option Transaction)) : res (rpc_error + list (option Transaction)) :=
  match txs with
  | [] => Ret (inr transactions)
  | tx :: rest =>
      match RawTxToEthTx tx with
      | None => pending_transactions rest transactions
      | Some ethTx =>
          t ← NewTransaction ethTx (hash_of_tx tx) 0%N 0 0;
          match t with None => Ret (inl ErrDecode) | Some t => pending_transactions rest (transactions ++ [Some t]) end
      end
  end.
Definition PendingTransactions b : res (rpc_error + list (option Transaction)) :=
  match Client_UnconfirmedTxs (eb_client b) with None => Ret (inl ErrClient) | Some (txs, _) => pending_transactions txs [] end.
(** The list starts with as many nil pointers as there are transactions. *)
Definition UserPendingTransactions b (address : string) (limit : Z) : res (rpc_error + list (option Transaction)) :=
  match Client_UserUnconfirmedTxs (eb_client b) address limit with
  | None => Ret (inl ErrClient)
  | Some txs => pending_transactions txs (replicate (length txs) None)
  end.
Definition PendingTransactionCnt b : rpc_error + Z := match Client_UnconfirmedTxs (eb_client b) with Some (_, n) => inr n | None => inl ErrClient end.
Definition UserPendingTransactionsCnt b (address : string) : rpc_error + Z :=
  match Client_UserNumUnconfirmedTxs (eb_client b) address with Some n => inr n | None => inl ErrClient end.
Definition PendingTransactionsByHash b (target : Hash) : res (rpc_error + Transaction) :=
  match Client_GetUnconfirmedTxByHash (eb_client b) target with
  | None => Ret (inl ErrClient)
  | Some tx =>
      match RawTxToEthTx tx with
      | None => Ret (inl ErrDecode)
      | Some ethTx => t ← NewTransaction ethTx (hash_of_tx tx) 0%N 0 0; or_error ErrDecode t
      end
  end.

#[global] Instance ethermint_Backend : Backend backend := {|
  LogFilter.HeaderByNumber := HeaderByNumber;
  LogFilter.HeaderByHash := HeaderByHash;
  LogFilter.GetLogs := GetLogs;
  LogFilter.BloomStatus := BloomStatus;
  LogFilter.ServiceFilter := serve_section;
  LogFilter.GetBlockHashByHeight := GetBlockHashByHeight;
|}.

End Backend.
End RpcBackend.
