(* ===== verification/FilterApi.v ===== *)
(** Filters that clients install and poll, and subscriptions
    (app/rpc/namespaces/eth/filters: api.go, filter_system.go,
    subscription.go).

    Every filter has a goroutine that takes events from its own subscription
    at Tendermint and appends to the filter; clients poll.  Beside them one
    event loop keeps an index of all subscriptions.  [FilterApi] has the
    operations, the goroutines as what they do with one event, and the event
    loop as a machine that may be blocked on a channel. *)
From S2P Require Import Prelude.
From S2P Require Import Interfaces.
From S2P Require Import StateObject.
From S2P Require Import StateDB.
From S2P Require Import EthMsg.
From S2P Require Import Ante.
From S2P Require Import Transition.
From S2P Require Import EvmKeeper.
From S2P Require Import BloomIndex.
From S2P Require Import LogFilter.
From S2P Require Import LogSearch.
From S2P Require Import EvmGenesis.
From S2P Require Import RpcBackend.
Import BloomIndex LogFilter LogSearch.
Local Open Scope Z_scope.

(** [filters.Type] of go-ethereum. *)
Inductive filter_type :=
  | UnknownSubscription | LogsSubscription | PendingLogsSubscription | MinedAndPendingLogsSubscription
  | PendingTransactionsSubscription | BlocksSubscription.
#[export] Instance filter_type_eq_dec : EqDecision filter_type.
Proof. solve_decision. Defined.

(** [rpc.ID] *)
Abbreviation filter_id := N.
(** [filter]: the subscription has the id of the filter.  [flt_deadline] is
    the time at which the timer fires. *)
Record filter := mkInstalled {
  flt_typ : filter_type; flt_deadline : Z; flt_hashes : list Hash; flt_crit : FilterCriteria; flt_logs : list Log;
}.
#[export] Instance filter_eta : Eta filter := fun r => mkInstalled (flt_typ r) (flt_deadline r) (flt_hashes r) (flt_crit r) (flt_logs r).
Abbreviation installed := (gmap filter_id filter).
(** The zero value of [FilterCriteria]. *)
Definition no_criteria : FilterCriteria := mkCriteria None None None [] [].

(** [coretypes.ResultEvent]: its data, and whether its events name a message
    of the EVM module. *)
Inductive event_data :=
  | EventDataTx (tx result : bytes)
  | EventDataNewBlockHeader (h : TmHeader)
  | EventDataOther.
Record ResultEvent := mkResultEvent { ev_Data : event_data; ev_IsEvm : bool }.
(** A failed type assertion leaves the zero value. *)
Definition event_tx (ev : ResultEvent) : bytes := match ev_Data ev with EventDataTx tx _ => tx | _ => [] end.
Definition event_header (ev : ResultEvent) : TmHeader :=
  match ev_Data ev with EventDataNewBlockHeader h => h | _ => mkTmHeader 0 [] [] [] [] (-62135596800) end.

(** [ethtypes.Header.Hash] *)
Class HeaderHashing := Header_Hash : EthHeader -> Hash.

Inductive notification := NotifyTx (h : Hash) | NotifyHeader (h : EthHeader) | NotifyLog (lg : Log).

(** The goroutine behind a filter or a subscription. *)
Inductive goroutine :=
  | FilterPendingTxs | FilterBlocks | FilterNewLogs (crit : FilterCriteria)
  | NotifyPendingTxs | NotifyHeads | NotifyNewLogs (crit : FilterCriteria).

Module FilterApi.

(** ** filter_system.go: what may be subscribed *)
Definition PendingBlockNumber : Z := -2.
Definition LatestBlock : Z := -1.
Definition block_number (n : option Z) : Z := match n with None => LatestBlock | Some n => int64_of n end.
Definition SubscribeLogs (crit : FilterCriteria) : rpc_error + filter_type :=
  let from := block_number (fc_FromBlock crit) in
  let to := block_number (fc_ToBlock crit) in
  if (from =? PendingBlockNumber) && (to =? PendingBlockNumber) then inr PendingLogsSubscription
  else if ((from =? LatestBlock) && (to =? LatestBlock)) || ((0 <=? from) && (0 <=? to) && (from <=? to)) then inr LogsSubscription
  else if (LatestBlock <=? from) && ((to =? PendingBlockNumber) || (to =? LatestBlock)) then inr MinedAndPendingLogsSubscription
  else inl ErrBlockRange.
(** The answer of Tendermint's client: [false] is an error. *)
Definition subscribe (accepted : bool) (typ : filter_type) : rpc_error + filter_type :=
  match typ with
  | UnknownSubscription => inl ErrSubscribe
  | _ => if accepted then inr typ else inl ErrSubscribe
  end.

(** ** api.go *)

(** Five minutes, in nanoseconds. *)
Definition deadline : Z := 300000000000.

Definition put (id : filter_id) (typ : filter_type) (now : Z) (fs : installed) : installed :=
  <[id := mkInstalled typ (now + deadline) [] no_criteria []]> fs.

(** The operations that install a filter.  [allow] is the answer of the rate
    limiter, [id] the new id; the goroutine starts with the filter. *)
Definition NewPendingTransactionFilter (allow accepted : bool) (id : filter_id) (now : Z) (fs : installed) : (rpc_error + filter_id) * installed :=
  if negb allow then (inl ErrServerBusy, fs)
  else match subscribe accepted PendingTransactionsSubscription with
       | inl e => (inl e, fs)
       | inr _ => (inr id, put id PendingTransactionsSubscription now fs)
       end.
Definition NewBlockFilter (allow accepted : bool) (id : filter_id) (now : Z) (fs : installed) : (rpc_error + filter_id) * installed :=
  if negb allow then (inl ErrServerBusy, fs)
  else match subscribe accepted BlocksSubscription with
       | inl e => (inl e, fs)
       | inr _ => (inr id, put id BlocksSubscription now fs)
       end.
(** The criteria go to the goroutine; the filter's own stay zero. *)
Definition NewFilter (allow accepted : bool) (id : filter_id) (now : Z) (criteria : FilterCriteria) (fs : installed) : (rpc_error + filter_id) * installed :=
  if negb allow then (inl ErrServerBusy, fs)
  else match SubscribeLogs criteria with
       | inl e => (inl e, fs)
       | inr typ =>
           match subscribe accepted typ with
           | inl e => (inl e, fs)
           | inr _ => (inr id, put id LogsSubscription now fs)
           end
       end.

Definition UninstallFilter (id : filter_id) (fs : installed) : bool * installed :=
  match fs !! id with None => (false, fs) | Some _ => (true, delete id fs) end.
(** One turn of [timeoutLoop]. *)
Definition timeoutLoop (now : Z) (fs : installed) : installed := base.filter (fun kf => now < flt_deadline kf.2) fs.

Inductive changes := HashChanges (l : list Hash) | LogChanges (l : list Log).
Definition GetFilterChanges (allow : bool) (id : filter_id) (now : Z) (fs : installed) : (rpc_error + changes) * installed :=
  if negb allow then (inl ErrServerBusy, fs)
  else match fs !! id with
       | None => (inl ErrFilterNotFound, fs)
       | Some f =>
           let f := f <| flt_deadline := now + deadline |> in
           match flt_typ f with
           | PendingTransactionsSubscription | BlocksSubscription => (inr (HashChanges (flt_hashes f)), <[id := f <| flt_hashes := [] |>]> fs)
           | LogsSubscription | MinedAndPendingLogsSubscription => (inr (LogChanges (flt_logs f)), <[id := f <| flt_logs := [] |>]> fs)
           | _ => (inl ErrFilterType, <[id := f]> fs)
           end
       end.

Section Search.
Context {B : Type} `{Backend B, BloomFilters, BloomMatcher, StartHeight, LogsConfig}.
Implicit Types (b : B).
Definition criteria_filter b (crit : FilterCriteria) : Filter :=
  match fc_BlockHash crit with
  | Some _ => LogFilter.NewBlockFilter crit
  | None => NewRangeFilter b (block_number (fc_FromBlock crit)) (block_number (fc_ToBlock crit)) (fc_Addresses crit) (fc_Topics crit)
  end.
Definition GetLogs b (allow : bool) (done : nat -> bool) (crit : FilterCriteria) : res found :=
  if negb allow then Ret ([], Some ErrServerBusy)
  else '(_, r) ← Logs b done (criteria_filter b crit); Ret r.
(** An error hides what was found. *)
Definition GetFilterLogs b (done : nat -> bool) (id : filter_id) (fs : installed) : res found :=
  match fs !! id with
  | None => Ret ([], Some ErrFilterNotFound)
  | Some f =>
      if negb (bool_decide (flt_typ f = LogsSubscription)) then Ret ([], Some ErrFilterType)
      else '(_, (logs, err)) ← Logs b done (criteria_filter b (flt_crit f));
           Ret (match err with Some e => ([], Some e) | None => (logs, None) end)
  end.
End Search.

(** *** The goroutines *)
Section Events.
Context `{ResultDecoder, TxHashing, HeaderHashing}.
(** [notify] says which notifications reach the client. *)
Context (notify : notification -> bool).

Definition filter_logs (crit : FilterCriteria) (rd : ResultData) : list Log :=
  FilterLogs (rd_Logs rd) (fc_FromBlock crit) (fc_ToBlock crit) (fc_Addresses crit) (fc_Topics crit).
(** The notifications sent, and whether none failed. *)
Fixpoint notify_all (l : list notification) : list notification * bool :=
  match l with
  | [] => ([], true)
  | n :: l' => if notify n then let '(sent, ok) := notify_all l' in (n :: sent, ok) else ([], false)
  end.

(** One event: the filters, what is sent, and whether the goroutine goes
    on; for each kind of goroutine. *)
Definition event_result : Type := installed * list notification * bool.
Definition send (l : list notification) (fs : installed) : event_result := let '(sent, ok) := notify_all l in (fs, sent, ok).

Definition filter_pending_tx (id : filter_id) (ev : ResultEvent) (fs : installed) : event_result :=
  (alter (fun f => f <| flt_hashes := flt_hashes f ++ [BytesToHash (tmHash (event_tx ev))] |>) id fs, [], true).
Definition filter_block (id : filter_id) (ev : ResultEvent) (fs : installed) : event_result :=
  (alter (fun f => f <| flt_hashes := flt_hashes f ++ [Header_Hash (RpcBackend.EthHeaderFromTendermint (event_header ev))] |>) id fs, [], true).
Definition filter_new_logs (crit : FilterCriteria) (id : filter_id) (ev : ResultEvent) (fs : installed) : event_result :=
  match ev_Data ev with
  | EventDataTx _ result =>
      match DecodeResultData result with
      | None => (fs, [], false)
      | Some rd => (alter (fun f => f <| flt_logs := flt_logs f ++ filter_logs crit rd |>) id fs, [], true)
      end
  | _ => (fs, [], false)
  end.
Definition notify_pending_tx (ev : ResultEvent) (fs : installed) : event_result := send [NotifyTx (BytesToHash (tmHash (event_tx ev)))] fs.
Definition notify_head (ev : ResultEvent) (fs : installed) : event_result :=
  match ev_Data ev with
  | EventDataNewBlockHeader h => send [NotifyHeader (RpcBackend.EthHeaderFromTendermint h)] fs
  | _ => (fs, [], false)
  end.
Definition notify_new_logs (crit : FilterCriteria) (ev : ResultEvent) (fs : installed) : event_result :=
  if negb (ev_IsEvm ev) then (fs, [], false)
  else match ev_Data ev with
       | EventDataTx _ result =>
           match DecodeResultData result with
           | None => (fs, [], false)
           | Some rd => send (NotifyLog <$> filter_logs crit rd) fs
           end
       | _ => (fs, [], false)
       end.
Definition on_event (g : goroutine) (id : filter_id) (ev : ResultEvent) (fs : installed) : event_result :=
  match g with
  | FilterPendingTxs => filter_pending_tx id ev fs
  | FilterBlocks => filter_block id ev fs
  | FilterNewLogs crit => filter_new_logs crit id ev fs
  | NotifyPendingTxs => notify_pending_tx ev fs
  | NotifyHeads => notify_head ev fs
  | NotifyNewLogs crit => notify_new_logs crit ev fs
  end.
(** A value on the error channel of a filter's subscription, or its end for
    a client's: the filters, and whether the goroutine goes on. *)
Definition on_error (g : goroutine) (id : filter_id) (fs : installed) : installed * bool :=
  match g with
  | FilterPendingTxs => (delete id fs, true)
  | FilterBlocks | FilterNewLogs _ => (delete id fs, false)
  | NotifyPendingTxs | NotifyHeads | NotifyNewLogs _ => (fs, false)
  end.

(** ** Histories

    Filters and goroutines between requests, events and errors, in any
    order.  An answer to a poll comes with the id it is for. *)
Record world := mkWorld { w_filters : installed; w_tasks : gmap filter_id goroutine }.
Inductive action :=
  | ANewFilter (allow accepted : bool) (id : filter_id) (now : Z) (crit : FilterCriteria)
  | ANewBlockFilter (allow accepted : bool) (id : filter_id) (now : Z)
  | ANewPendingTransactionFilter (allow accepted : bool) (id : filter_id) (now : Z)
  | ASubscribe (id : filter_id) (g : goroutine)
  | AUninstall (id : filter_id)
  | APoll (allow : bool) (id : filter_id) (now : Z)
  | ATimeout (now : Z)
  | AEvent (id : filter_id) (ev : ResultEvent)
  | AError (id : filter_id).

Definition started (g : goroutine) (r : (rpc_error + filter_id) * installed) (w : world) : world :=
  let '(a, fs) := r in
  match a with inl _ => mkWorld fs (w_tasks w) | inr id => mkWorld fs (<[id := g]> (w_tasks w)) end.
Definition step (a : action) (w : world) : world * list (filter_id * changes) :=
  match a with
  | ANewFilter allow accepted id now crit => (started (FilterNewLogs crit) (NewFilter allow accepted id now crit (w_filters w)) w, [])
  | ANewBlockFilter allow accepted id now => (started FilterBlocks (NewBlockFilter allow accepted id now (w_filters w)) w, [])
  | ANewPendingTransactionFilter allow accepted id now =>
      (started FilterPendingTxs (NewPendingTransactionFilter allow accepted id now (w_filters w)) w, [])
  | ASubscribe id g => (mkWorld (w_filters w) (<[id := g]> (w_tasks w)), [])
  | AUninstall id => (mkWorld (UninstallFilter id (w_filters w)).2 (w_tasks w), [])
  | APoll allow id now =>
      let '(a, fs) := GetFilterChanges allow id now (w_filters w) in
      (mkWorld fs (w_tasks w), match a with inr c => [(id, c)] | inl _ => [] end)
  | ATimeout now => (mkWorld (timeoutLoop now (w_filters w)) (w_tasks w), [])
  | AEvent id ev =>
      match w_tasks w !! id with
      | None => (w, [])
      | Some g =>
          let '(fs, _, goes_on) := on_event g id ev (w_filters w) in
          (mkWorld fs (if goes_on : bool then w_tasks w else delete id (w_tasks w)), [])
      end
  | AError id =>
      match w_tasks w !! id with
      | None => (w, [])
      | Some g =>
          let '(fs, goes_on) := on_error g id (w_filters w) in
          (mkWorld fs (if goes_on : bool then w_tasks w else delete id (w_tasks w)), [])
      end
  end.
Fixpoint run (acts : list action) (w : world) : world * list (filter_id * changes) :=
  match acts with
  | [] => (w, [])
  | a :: rest => let '(w1, o1) := step a w in let '(w2, o2) := run rest w1 in (w2, o1 ++ o2)
  end.

End Events.
End FilterApi.

(** ** The event loop *)

(** [Subscription], the fields the loop reads. *)
Record Subscription := mkSubscription { sub_id : filter_id; sub_typ : filter_type; sub_logsCrit : FilterCriteria }.

Module EventLoop.

(** [es.index], by id: a subscription is found under its type, one for mined
    and pending logs under both. *)
Abbreviation index := (gmap filter_id Subscription).
Definition types_of (typ : filter_type) : list filter_type :=
  match typ with MinedAndPendingLogsSubscription => [LogsSubscription; PendingLogsSubscription] | _ => [typ] end.
Definition index_of (typ : filter_type) (idx : index) : list Subscription :=
  base.filter (fun s => typ ∈ types_of (sub_typ s)) (snd <$> map_to_list idx).

Section Loop.
Context `{ResultDecoder}.

(** The subscriptions an event is sent to, one after the other. *)
Definition handleLogs (idx : index) (ev : ResultEvent) : list filter_id :=
  match DecodeResultData (match ev_Data ev with EventDataTx _ result => result | _ => [] end) with
  | None => []
  | Some rd =>
      match rd_Logs rd with
      | [] => []
      | _ => sub_id <$> base.filter (fun s => FilterApi.filter_logs (sub_logsCrit s) rd ≠ []) (index_of LogsSubscription idx)
      end
  end.
Definition handleTxsEvent (idx : index) : list filter_id := sub_id <$> index_of PendingTransactionsSubscription idx.
Definition handleChainEvent (idx : index) : list filter_id := sub_id <$> index_of BlocksSubscription idx.

(** The loop waits in its select when nothing is left to be sent.  The other
    goroutines: those that offer a subscription for installation, and those
    in the loop of [Unsubscribe], which also receive what is sent to their
    subscription.  [es_closed]: the error channels the loop has closed. *)
Record event_system := mkEventSystem {
  es_index : index; es_sending : list filter_id;
  es_install : gset filter_id; es_uninstall : gset filter_id; es_closed : gset filter_id;
}.
(** The loop's own subscriptions are unsubscribed when it returns, and
    nobody else knows them. *)
Context (own : gset filter_id) (subs : filter_id -> Subscription).

Inductive loop_step : event_system -> event_system -> Prop :=
  | loop_event idx ins unins cl l ev :
      l = handleLogs idx ev \/ l = handleTxsEvent idx \/ l = handleChainEvent idx ->
      loop_step (mkEventSystem idx [] ins unins cl) (mkEventSystem idx l ins unins cl)
  | loop_send idx id l ins unins cl : id ∈ unins ->
      loop_step (mkEventSystem idx (id :: l) ins unins cl) (mkEventSystem idx l ins unins cl)
  | loop_install idx id ins unins cl : id ∈ ins ->
      loop_step (mkEventSystem idx [] ins unins cl) (mkEventSystem (<[id := subs id]> idx) [] (ins ∖ {[id]}) unins cl)
  | loop_uninstall idx id ins unins cl : id ∈ unins ->
      loop_step (mkEventSystem idx [] ins unins cl) (mkEventSystem (delete id idx) [] ins (unins ∖ {[id]}) ({[id]} ∪ cl))
  | client_subscribes idx l id ins unins cl :
      loop_step (mkEventSystem idx l ins unins cl) (mkEventSystem idx l ({[id]} ∪ ins) unins cl)
  | client_unsubscribes idx l id ins unins cl : id ∉ own ->
      loop_step (mkEventSystem idx l ins unins cl) (mkEventSystem idx l ins ({[id]} ∪ unins) cl).

End Loop.
End EventLoop.
