(* ===== verification/FilterApiSpec.v ===== *)
(** What polling a filter delivers, what a filter forgets, and where the
    event loop stops. *)
From S2P Require Import Prelude.
From S2P Require Import Interfaces.
From S2P Require Import StateObject.
From S2P Require Import StateDB.
From S2P Require Import EthMsg.
From S2P Require Import Ante.
From S2P Require Import Transition.
From S2P Require Import EvmKeeper.
From S2P Require Import BloomIndex.
From S2P Require Import LogFilter.
From S2P Require Import LogSearch.
From S2P Require Import EvmGenesis.
From S2P Require Import RpcBackend.
From S2P Require Import FilterApi.
Import BloomIndex LogFilter LogSearch FilterApi EventLoop.
Local Open Scope Z_scope.

Module FilterApiSpec.
Section Polling.
Context `{ResultDecoder, TxHashing, HeaderHashing}.
Context (notify : notification -> bool).
Abbreviation step := (step notify).
Abbreviation run := (run notify).
Implicit Types (w : world) (id : filter_id) (fs : installed).

(** The logs of a sequence of events, up to the first that cannot be
    decoded. *)
Fixpoint collected (crit : FilterCriteria) (evs : list ResultEvent) : list Log :=
  match evs with
  | [] => []
  | ev :: rest =>
      match ev_Data ev with
      | EventDataTx _ result =>
          match DecodeResultData result with None => [] | Some rd => filter_logs crit rd ++ collected crit rest end
      | _ => []
      end
  end.
(** The events for an id, and what polls of it returned. *)
Definition events_of id (acts : list action) : list ResultEvent :=
  omap (fun a => match a with AEvent id' ev => if decide (id' = id) then Some ev else None | _ => None end) acts.
Definition polled id (outs : list (filter_id * changes)) : list Log :=
  concat ((fun o => match o with (id', LogChanges l) => if decide (id' = id) then l else [] | _ => [] end) <$> outs).
(** Ids are new. *)
Definition other_id id (a : action) : Prop :=
  match a with
  | ANewFilter _ _ id' _ _ | ANewBlockFilter _ _ id' _ | ANewPendingTransactionFilter _ _ id' _ | ASubscribe id' _ => id' ≠ id
  | _ => True
  end.

Lemma polled_app id o1 o2 : polled id (o1 ++ o2) = polled id o1 ++ polled id o2.
Proof. unfold polled. by rewrite fmap_app, concat_app. Qed.

(** A goroutine writes to its own filter only. *)
Lemma on_event_own g i ev fs fs' sent goes_on : on_event notify g i ev fs = (fs', sent, goes_on) ->
  fs' = fs \/ exists fn, fs' = alter fn i fs.
Proof.
  destruct g as [| |crit| | |crit]; cbn [on_event].
  - intros [= <- _ _]. right. by eexists.
  - intros [= <- _ _]. right. by eexists.
  - unfold filter_new_logs. repeat case_match; intros [= <- _ _]; eauto.
  - unfold notify_pending_tx, send. destruct (notify_all _ _). intros [= <- _ _]. by left.
  - unfold notify_head, send. repeat case_match; intros [= <- _ _]; by left.
  - unfold notify_new_logs, send. repeat case_match; intros [= <- _ _]; by left.
Qed.

(** A filter that is gone stays away. *)
Lemma step_absent a w w' outs id : other_id id a -> step a w = (w', outs) -> w_filters w !! id = None -> w_filters w' !! id = None.
Proof.
  destruct a as [al ac i now crit|al ac i now|al ac i now|i g|i|al i now|now|i ev|i]; cbn [other_id step FilterApi.step]; intros Hid Hs Hw.
  - unfold NewFilter in Hs. destruct al; cbn [negb] in Hs; [|by injection Hs as <- _].
    destruct (SubscribeLogs crit) as [e|typ]; [by injection Hs as <- _|]. destruct (subscribe ac typ); injection Hs as <- _; [done|].
    unfold started, put. cbn [w_filters]. by rewrite lookup_insert_ne.
  - unfold NewBlockFilter in Hs. destruct al; cbn [negb] in Hs; [|by injection Hs as <- _].
    destruct (subscribe ac _); injection Hs as <- _; [done|]. unfold started, put. cbn [w_filters]. by rewrite lookup_insert_ne.
  - unfold NewPendingTransactionFilter in Hs. destruct al; cbn [negb] in Hs; [|by injection Hs as <- _].
    destruct (subscribe ac _); injection Hs as <- _; [done|]. unfold started, put. cbn [w_filters]. by rewrite lookup_insert_ne.
  - by injection Hs as <- _.
  - injection Hs as <- _. cbn. unfold UninstallFilter. destruct (w_filters w !! i); [|done]. cbn. apply lookup_delete_None. by right.
  - destruct (GetFilterChanges al i now (w_filters w)) as [c fs] eqn:Hg. injection Hs as <- _. cbn.
    unfold GetFilterChanges in Hg. destruct al; cbn [negb] in Hg; [|by injection Hg as _ <-].
    destruct (w_filters w !! i) as [f|] eqn:Hf; [|by injection Hg as _ <-].
    assert (i ≠ id) by (intros ->; congruence). destruct (flt_typ _); injection Hg as _ <-; by rewrite lookup_insert_ne.
  - injection Hs as <- _. cbn. unfold timeoutLoop. by apply map_lookup_filter_None_2; left.
  - destruct (w_tasks w !! i) as [g|]; [|by injection Hs as <- _].
    destruct (on_event notify g i ev (w_filters w)) as [[fs sent] goes_on] eqn:Ho. injection Hs as <- _. cbn.
    assert (fs !! id = None) as ->; [|done].
    destruct (on_event_own _ _ _ _ _ _ _ Ho) as [->|[fn ->]]; [done|by apply lookup_alter_None].
  - destruct (w_tasks w !! i) as [g|]; [|by injection Hs as <- _].
    destruct (on_error g i (w_filters w)) as [fs goes_on] eqn:Ho. injection Hs as <- _. cbn.
    destruct g; cbn [on_error] in Ho; injection Ho as <- _; try done; apply lookup_delete_None; by right.
Qed.
Lemma run_absent acts : forall w w' outs id, Forall (other_id id) acts -> run acts w = (w', outs) -> w_filters w !! id = None -> w_filters w' !! id = None.
Proof.
  induction acts as [|a acts IH]; intros w w' outs id Hall Hr Hw; [by injection Hr as <- _|].
  apply Forall_cons in Hall as [Ha Hall]. cbn [run FilterApi.run] in Hr. destruct (step a w) as [w1 o1] eqn:Hs. destruct (run acts w1) as [w2 o2] eqn:Hr2.
  injection Hr as <- _. eapply IH; [done|done|by eapply step_absent].
Qed.

(** What the goroutine of a filter for logs will still add. *)
Definition to_come (crit : FilterCriteria) (g : option goroutine) (evs : list ResultEvent) : list Log :=
  match g with Some _ => collected crit evs | None => [] end.
Record follows id crit w (f : filter) : Prop := {
  fo_filter : w_filters w !! id = Some f;
  fo_typ : flt_typ f = LogsSubscription;
  fo_task : w_tasks w !! id = Some (FilterNewLogs crit) \/ w_tasks w !! id = None;
}.
(** [f1] has what [f] had and what arrived, less what was polled. *)
Definition delivers id crit (a : list action) w w1 (o : list (filter_id * changes)) (f f1 : filter) : Prop :=
  forall evs, flt_logs f ++ to_come crit (w_tasks w !! id) (events_of id a ++ evs)
    = polled id o ++ flt_logs f1 ++ to_come crit (w_tasks w1 !! id) evs.

(** An action that neither touches the filter nor its goroutine. *)
Lemma unchanged id crit a w w1 f : follows id crit w f -> w_filters w1 !! id = w_filters w !! id ->
  w_tasks w1 !! id = w_tasks w !! id -> events_of id [a] = [] -> exists f1, follows id crit w1 f1 /\ flt_crit f1 = flt_crit f /\ delivers id crit [a] w w1 [] f f1.
Proof.
  intros [Hf Ht Hg] Hf1 Hg1 Ha. exists f. split; [split; [by rewrite Hf1|done|by rewrite Hg1]|]. split; [done|].
  intros evs. by rewrite Ha, Hg1.
Qed.

Lemma started_unchanged a id crit g r w w1 o f : follows id crit w f -> step a w = (w1, o) -> step a w = (started g r w, []) -> events_of id [a] = [] ->
  match r.1 with inl _ => r.2 = w_filters w | inr j => j ≠ id /\ exists typ now, r.2 = put j typ now (w_filters w) end ->
  exists f1, follows id crit w1 f1 /\ flt_crit f1 = flt_crit f /\ delivers id crit [a] w w1 o f f1.
Proof.
  intros Hfo Hs Hs2 Hev Hr. rewrite Hs in Hs2. injection Hs2 as -> ->. destruct r as [[e|j] fs]; cbn in Hr.
  - subst fs. by eapply unchanged.
  - destruct Hr as (Hj & typ & now & ->). eapply unchanged; [done| | |done]; cbn.
    + unfold put. by rewrite lookup_insert_ne.
    + by rewrite lookup_insert_ne.
Qed.

Lemma step_delivers a w w1 o id crit f : other_id id a -> follows id crit w f -> step a w = (w1, o) -> is_Some (w_filters w1 !! id) ->
  exists f1, follows id crit w1 f1 /\ flt_crit f1 = flt_crit f /\ delivers id crit [a] w w1 o f f1.
Proof.
  intros Hid Hfo Hs [f1 Hf1]. pose proof Hs as Hstep.
  destruct a as [al ac i now c|al ac i now|al ac i now|i g|i|al i now|now|i ev|i]; cbn [other_id] in Hid.
  1-3: eapply started_unchanged; [exact Hfo|exact Hs|reflexivity|done|].
  - unfold NewFilter. destruct al; cbn [negb]; [|done]. destruct (SubscribeLogs c); [done|]. destruct (subscribe _ _); cbn; [done|by eauto].
  - unfold NewBlockFilter. destruct al; cbn [negb]; [|done]. destruct (subscribe _ _); cbn; [done|by eauto].
  - unfold NewPendingTransactionFilter. destruct al; cbn [negb]; [|done]. destruct (subscribe _ _); cbn; [done|by eauto].
  - cbn in Hs. injection Hs as <- <-. eapply unchanged; [done|done| |done]. cbn. by rewrite lookup_insert_ne.
  - cbn in Hs. injection Hs as <- <-. eapply unchanged; [done| |done|done]. cbn in *. unfold UninstallFilter in *.
    destruct (w_filters w !! i) eqn:Hi; [|done]. cbn in *. destruct (decide (i = id)) as [->|]; [by rewrite lookup_delete_eq in Hf1|].
    by rewrite lookup_delete_ne.
  - cbn in Hs. destruct (GetFilterChanges al i now (w_filters w)) as [ans fs] eqn:Hg. injection Hs as <- <-.
    unfold GetFilterChanges in Hg. destruct al; cbn [negb] in Hg; [|injection Hg as <- <-; by eapply unchanged].
    destruct Hfo as [Hf Ht Htask]. destruct (decide (i = id)) as [->|Hne].
    + rewrite Hf in Hg. cbn in Hg. rewrite Ht in Hg. injection Hg as <- <-. cbn.
      eexists. split; [split; [cbn; by rewrite lookup_insert_eq|done|done]|]. split; [done|]. intros evs. cbn. by rewrite decide_True, app_nil_r.
    + assert (polled id (match ans with inr c => [(i, c)] | inl _ => [] end) = []) as Hp.
      { destruct ans as [e|[l|l]]; [done|done|]. unfold polled. cbn. by rewrite decide_False. }
      assert (fs !! id = w_filters w !! id) as Hfs.
      { destruct (w_filters w !! i) as [fi|]; [|by injection Hg as _ <-]. cbn in Hg. destruct (flt_typ fi); injection Hg as _ <-; by rewrite lookup_insert_ne. }
      exists f. split; [split; [cbn; by rewrite Hfs|done|done]|]. split; [done|]. intros evs. by rewrite Hp.
  - cbn in Hs. injection Hs as <- <-. eapply unchanged; [done| |done|done]. cbn in *. unfold timeoutLoop in *.
    apply map_lookup_filter_Some in Hf1 as Hf2. rewrite Hf1. by destruct Hf2.
  - cbn in Hs. destruct (decide (i = id)) as [->|Hne].
    2:{ assert (events_of id [AEvent i ev] = []) as Hev by (cbn; by rewrite decide_False).
        destruct (w_tasks w !! i) as [g|]; [|injection Hs as <- <-; by eapply unchanged].
        destruct (on_event notify g i ev (w_filters w)) as [[fs sent] goes_on] eqn:Ho. injection Hs as <- <-.
        eapply unchanged; [done| | |done]; cbn.
        - destruct (on_event_own _ _ _ _ _ _ _ Ho) as [->|[fn ->]]; [done|by rewrite lookup_alter_ne].
        - destruct goes_on; [done|by rewrite lookup_delete_ne]. }
    destruct Hfo as [Hf Ht [Htask|Htask]]; rewrite Htask in Hs.
    2:{ injection Hs as <- <-. exists f. split; [split; [done|done|by right]|]. split; [done|]. intros evs. by rewrite Htask. }
    cbn [on_event] in Hs. unfold filter_new_logs in Hs. assert (events_of id [AEvent id ev] = [ev]) as Hev by (cbn; by rewrite decide_True).
    assert (collected crit [ev] = [] -> (forall evs, collected crit (ev :: evs) = []) -> (w1, o) = (mkWorld (w_filters w) (delete id (w_tasks w)), []) ->
      exists f1, follows id crit w1 f1 /\ flt_crit f1 = flt_crit f /\ delivers id crit [AEvent id ev] w w1 o f f1) as Hend.
    { intros _ Hall [= -> ->]. exists f. split; [split; [done|done|right; cbn; apply lookup_delete_eq]|]. split; [done|]. intros evs. rewrite Hev, Htask. cbn [w_tasks app to_come]. rewrite lookup_delete_eq.
      cbn [to_come]. by rewrite Hall. }
    destruct (ev_Data ev) as [tx result|h|] eqn:Hdata.
    2,3: injection Hs as <- <-; apply Hend; [cbn [collected]; by rewrite Hdata|intros evs; cbn [collected]; by rewrite Hdata|done].
    destruct (DecodeResultData result) as [rd|] eqn:Hrd.
    2:{ injection Hs as <- <-. apply Hend; [cbn [collected]; by rewrite Hdata, Hrd|intros evs; cbn [collected]; by rewrite Hdata, Hrd|done]. }
    injection Hs as <- <-. eexists. split; [split; [cbn; by rewrite lookup_alter_eq, Hf|done|by left]|]. split; [done|].
    intros evs. rewrite Hev, Htask. cbn [w_tasks app to_come collected]. rewrite Htask, Hdata, Hrd. cbn. by rewrite <- app_assoc.
  - cbn in Hs. destruct (decide (i = id)) as [->|Hne].
    + destruct Hfo as [Hf Ht [Htask|Htask]]; rewrite Htask in Hs; injection Hs as <- <-; cbn in Hf1; [by rewrite lookup_delete_eq in Hf1|].
      exists f. split; [split; [done|done|by right]|]. split; [done|]. intros evs. by rewrite Htask.
    + destruct (w_tasks w !! i) as [g|]; [|injection Hs as <- <-; by eapply unchanged].
      destruct (on_error g i (w_filters w)) as [fs goes_on] eqn:Ho. injection Hs as <- <-. eapply unchanged; [done| | |done]; cbn.
      * destruct g; cbn [on_error] in Ho; injection Ho as <- _; try done; by rewrite lookup_delete_ne.
      * destruct goes_on; [done|by rewrite lookup_delete_ne].
Qed.

Lemma events_of_cons id a acts : events_of id (a :: acts) = events_of id [a] ++ events_of id acts.
Proof. unfold events_of. change (a :: acts) with ([a] ++ acts). apply omap_app. Qed.

Lemma run_delivers acts : forall w w' outs id crit f, Forall (other_id id) acts -> follows id crit w f -> run acts w = (w', outs) ->
  is_Some (w_filters w' !! id) -> exists f', follows id crit w' f' /\ flt_crit f' = flt_crit f /\ delivers id crit acts w w' outs f f'.
Proof.
  induction acts as [|a acts IH]; intros w w' outs id crit f Hall Hfo Hr Hin.
  { injection Hr as <- <-. by exists f. }
  apply Forall_cons in Hall as [Ha Hall]. cbn [run FilterApi.run] in Hr.
  destruct (step a w) as [w1 o1] eqn:Hs. destruct (run acts w1) as [w2 o2] eqn:Hr2. injection Hr as <- <-.
  destruct (w_filters w1 !! id) as [x|] eqn:Hx.
  2:{ rewrite (run_absent acts w1 w2 o2 id Hall Hr2 Hx) in Hin. by destruct Hin. }
  destruct (step_delivers a w w1 o1 id crit f Ha Hfo Hs) as (f1 & Hfo1 & Hc1 & Hd1); [by rewrite Hx|].
  destruct (IH w1 w2 o2 id crit f1 Hall Hfo1 Hr2 Hin) as (f2 & Hfo2 & Hc2 & Hd2).
  exists f2. split; [done|]. split; [congruence|]. intros evs. rewrite events_of_cons, <- app_assoc, Hd1, Hd2, polled_app. by rewrite <- app_assoc.
Qed.

(** A new filter for logs, as its goroutine starts. *)
Lemma new_filter_follows w id crit now typ : SubscribeLogs crit = inr typ ->
  exists w1, step (ANewFilter true true id now crit) w = (w1, []) /\
    follows id crit w1 (mkInstalled LogsSubscription (now + deadline) [] no_criteria []) /\ w_tasks w1 !! id = Some (FilterNewLogs crit).
Proof.
  intros Hsub. cbn [step FilterApi.step]. unfold NewFilter. cbn [negb]. rewrite Hsub.
  assert (subscribe true typ = inr typ) as ->.
  { unfold SubscribeLogs in Hsub. repeat case_match; by simplify_eq. }
  eexists. split; [done|]. split; [split|]; cbn [w_filters w_tasks started]; unfold put; [by rewrite lookup_insert_eq|done|left; by rewrite lookup_insert_eq|by rewrite lookup_insert_eq].
Qed.

(** C38: a filter for logs that is polled, through any history of requests,
    events and timeouts: while it is installed, what the polls have returned
    and what the next one returns are the logs of its events that match its
    criteria, each of them once and in order, up to the first event whose
    result cannot be decoded. *)
Theorem polls_deliver_every_log w id crit now acts w' outs t :
  SubscribeLogs crit ≠ inl ErrBlockRange -> Forall (other_id id) acts ->
  run (ANewFilter true true id now crit :: acts) w = (w', outs) -> is_Some (w_filters w' !! id) ->
  exists l, (GetFilterChanges true id t (w_filters w')).1 = inr (LogChanges l) /\
    collected crit (events_of id acts) = polled id outs ++ l.
Proof.
  intros Hsub Hall Hr Hin. destruct (SubscribeLogs crit) as [e|typ] eqn:Hc.
  { unfold SubscribeLogs in Hc. repeat case_match; by simplify_eq. }
  destruct (new_filter_follows w id crit now typ Hc) as (w1 & Hs & Hfo & Htask).
  cbn [run FilterApi.run] in Hr. rewrite Hs in Hr. destruct (run acts w1) as [w2 o2] eqn:Hr2. injection Hr as <- <-.
  destruct (run_delivers acts _ _ _ _ _ _ Hall Hfo Hr2 Hin) as (f & [Hf Ht _] & _ & Hd).
  exists (flt_logs f). unfold GetFilterChanges. cbn [negb]. rewrite Hf. cbn. rewrite Ht. split; [done|].
  specialize (Hd []). rewrite Htask, app_nil_r in Hd. cbn [to_come flt_logs app] in Hd. rewrite Hd.
  assert (to_come crit (w_tasks w2 !! id) [] = []) as -> by (by destruct (w_tasks w2 !! id)). by rewrite app_nil_r.
Qed.

Lemma asked_all (logs : list Log) : base.filter (asked [] []) logs = logs.
Proof.
  induction logs as [|lg logs IH]; [done|]. rewrite filter_cons_True; [by rewrite IH|].
  split; [by left|]. split; [cbn; lia|]. intros i sub t Hi. by rewrite lookup_nil in Hi.
Qed.

(** C39: the criteria of a filter are not kept with it: asking again for all of
    its logs returns those of the latest block, whatever was asked for. *)
Theorem GetFilterLogs_ignores_criteria {B : Type} `{Backend B, EthTypes, !EthTypesLaws, BloomFilters, !BloomFiltersLaws, BloomMatcher, !BloomMatcherLaws, StartHeight, LogsConfig}
    (block_hash : Z -> Hash) (logs_of : Z -> list Log) (b : B) head w id crit now acts w' outs :
  serves block_hash logs_of b head -> head < 2 ^ 63 - 1 -> 0 <= GetStartBlockHeight < 2 ^ 62 -> GetStartBlockHeight < head -> LogsHeightSpan ≠ 0 ->
  SubscribeLogs crit ≠ inl ErrBlockRange -> Forall (other_id id) acts ->
  run (ANewFilter true true id now crit :: acts) w = (w', outs) -> is_Some (w_filters w' !! id) ->
  GetFilterLogs b (fun _ => false) id (w_filters w') = Ret (logs_of head, None).
Proof.
  intros Hsv Hh Hst Hhs Hspan Hsub Hall Hr Hin. destruct (SubscribeLogs crit) as [e|typ] eqn:Hc.
  { unfold SubscribeLogs in Hc. repeat case_match; by simplify_eq. }
  destruct (new_filter_follows w id crit now typ Hc) as (w1 & Hs & Hfo & Htask).
  cbn [run FilterApi.run] in Hr. rewrite Hs in Hr. destruct (run acts w1) as [w2 o2] eqn:Hr2. injection Hr as <- <-.
  destruct (run_delivers acts _ _ _ _ _ _ Hall Hfo Hr2 Hin) as (f & [Hf Ht _] & Hcrit & _).
  unfold GetFilterLogs. rewrite Hf, Ht, bool_decide_eq_true_2 by done. cbn [negb]. rewrite Hcrit. cbn [flt_crit criteria_filter no_criteria fc_BlockHash].
  destruct (GetLogs_complete block_hash logs_of b head (-1) (-1) [] []) as [f' Hl]; [done|done|done|lia|lia|exact Hhs|cbn; lia|cbn; lia|].
  unfold criteria_filter, no_criteria. cbn [fc_BlockHash fc_FromBlock fc_ToBlock block_number fc_Addresses fc_Topics]. unfold LatestBlock.
  rewrite Hl. cbn [mbind res_bind]. rewrite asked_all.
  change (-1 =? -1) with true. cbv iota. rewrite Z.sub_diag, seqZ_cons, seqZ_nil by done. cbn. by rewrite app_nil_r.
Qed.
End Polling.

(** ** The event loop *)
Section Loop.
Context `{ResultDecoder}.
Context (own : gset filter_id) (subs : filter_id -> Subscription).
Hypothesis Hids : forall id, sub_id (subs id) = id.
Abbreviation loop_step := (loop_step own subs).
Implicit Types (s : event_system).

(** The loop begins with nothing installed, its own subscriptions offered. *)
Definition start_system : event_system := mkEventSystem ∅ [] own ∅ ∅.

Lemma step_disjoint s s' : loop_step s s' -> es_uninstall s ## own -> es_uninstall s' ## own.
Proof. destruct 1; cbn; set_solver. Qed.
Lemma steps_disjoint s s' : rtc loop_step s s' -> es_uninstall s ## own -> es_uninstall s' ## own.
Proof. induction 1 as [|s s1 s' Hs _ IH]; [done|]. intros Hd. by eapply IH, step_disjoint. Qed.

(** A loop that has to send to a subscription of its own stays where it
    is. *)
Lemma sending_own s s' o : rtc loop_step s s' -> o ∈ own -> es_uninstall s ## own -> o ∈ es_sending s ->
  es_index s' = es_index s /\ es_closed s' = es_closed s /\ o ∈ es_sending s'.
Proof.
  intros Hr Ho. induction Hr as [|s s1 s' Hs _ IH]; [done|]. intros Hd Hin.
  assert (es_index s1 = es_index s /\ es_closed s1 = es_closed s /\ o ∈ es_sending s1) as (Hi & Hc & Hin1).
  { destruct Hs; cbn in *; try (by apply elem_of_nil in Hin); [|done|done].
    apply elem_of_cons in Hin as [->|Hin]; [|done]. set_solver. }
  destruct IH as (Hi2 & Hc2 & Hin2); [by eapply step_disjoint|done|]. split_and!; congruence || done.
Qed.

Lemma index_of_installed idx o typ : idx !! o = Some (subs o) -> typ ∈ types_of (sub_typ (subs o)) -> subs o ∈ index_of typ idx.
Proof.
  intros Hi Ht. unfold index_of. apply list_elem_of_filter. split; [done|]. apply list_elem_of_fmap.
  exists (o, subs o). split; [done|]. by apply elem_of_map_to_list.
Qed.

(** What is sent to a subscription of the loop's own. *)
Inductive sent_to (o : filter_id) (idx : index) : list filter_id -> Prop :=
  | sent_header : sub_typ (subs o) = BlocksSubscription -> sent_to o idx (handleChainEvent idx)
  | sent_tx : sub_typ (subs o) = PendingTransactionsSubscription -> sent_to o idx (handleTxsEvent idx)
  | sent_logs ev tx result rd : ev_Data ev = EventDataTx tx result -> DecodeResultData result = Some rd -> rd_Logs rd ≠ [] ->
      sub_typ (subs o) = LogsSubscription -> sub_logsCrit (subs o) = no_criteria -> sent_to o idx (handleLogs idx ev).
Lemma sent_to_in o idx l : sent_to o idx l -> idx !! o = Some (subs o) -> o ∈ l.
Proof.
  intros Hs Hi. destruct Hs as [Ht|Ht|ev tx result rd Hev Hrd Hne Ht Hc].
  - apply list_elem_of_fmap. exists (subs o). split; [by rewrite Hids|]. apply index_of_installed; [done|]. rewrite Ht. by left.
  - apply list_elem_of_fmap. exists (subs o). split; [by rewrite Hids|]. apply index_of_installed; [done|]. rewrite Ht. by left.
  - unfold handleLogs. rewrite Hev, Hrd. destruct (rd_Logs rd) as [|lg logs] eqn:Hl; [done|].
    apply list_elem_of_fmap. exists (subs o). split; [by rewrite Hids|]. apply list_elem_of_filter.
    split; [|apply index_of_installed; [done|rewrite Ht; by left]].
    unfold filter_logs. rewrite Hc, Hl. unfold no_criteria. cbn [fc_FromBlock fc_ToBlock fc_Addresses fc_Topics]. rewrite FilterLogs_asked, asked_all. done.
Qed.

(** C40: the loop writes what an event brings to every subscription that is
    installed for it, its own included, and waits for a reader; only
    [Unsubscribe] reads, and nobody unsubscribes the loop's own.  So the
    first header, the first pending transaction and the first log after the
    loop's own subscription is installed stop it for ever: nothing is
    installed or removed any more, and no error channel is closed. *)
Theorem event_loop_stops s l s2 o :
  o ∈ own -> rtc loop_step start_system s -> es_sending s = [] -> es_index s !! o = Some (subs o) -> sent_to o (es_index s) l ->
  let s1 := mkEventSystem (es_index s) l (es_install s) (es_uninstall s) (es_closed s) in
  loop_step s s1 /\
  (rtc loop_step s1 s2 -> es_index s2 = es_index s /\ es_closed s2 = es_closed s /\ es_sending s2 ≠ []).
Proof.
  intros Ho Hr Hsend Hi Hl s1. split.
  - destruct s as [idx l0 ins unins cl]. cbn in Hsend. subst l0. unfold s1. cbn in Hl |- *. destruct Hl as [Ht|Ht|ev tx result rd Hev Hrd Hne Ht Hc].
    + apply (loop_event _ _ _ _ _ _ _ (mkResultEvent EventDataOther false)). by right; right.
    + apply (loop_event _ _ _ _ _ _ _ (mkResultEvent EventDataOther false)). by right; left.
    + apply (loop_event _ _ _ _ _ _ _ ev). by left.
  - intros Hr2. destruct (sending_own s1 s2 o Hr2 Ho) as (Hi2 & Hc2 & Hin).
    + apply (steps_disjoint start_system s Hr). cbn. set_solver.
    + by apply (sent_to_in o (es_index s)).
    + split_and!; [done|done|]. intros Hnil. rewrite Hnil in Hin. by apply elem_of_nil in Hin.
Qed.
End Loop.
End FilterApiSpec.
