(* ===== verification/LogChain.v ===== *)
(** Log queries end to end: what the node's backend answers for a chain that
    its own blocks have built, and so what [eth_getLogs] returns for the logs
    its transactions have reported. *)
From S2P Require Import Prelude.
From S2P Require Import Interfaces.
From S2P Require Import GoStrings.
From S2P Require Import Account.
From S2P Require Import StateObject.
From S2P Require Import StateDB.
From S2P Require Import EthMsg.
From S2P Require Import Ante.
From S2P Require Import Transition.
From S2P Require Import EvmKeeper.
From S2P Require Import TransitionSpec.
From S2P Require Import EvmMain.
From S2P Require Import EvmGenesis.
From S2P Require Import BloomIndex.
From S2P Require Import LogFilter.
From S2P Require Import LogSearch.
From S2P Require Import EvmChain.
From S2P Require Import EvmQuery.
From S2P Require Import RpcBackend.
From S2P Require Import FilterApi.
Import BloomIndex LogFilter LogSearch EvmChain EvmQuery.
Local Open Scope Z_scope.

Module LogChain.
Section LogChain.
Context {Cl St AK C G Db PrivateKey : Type} `{KVStore St, SdkCoins C, AccountKeeper AK C, Keccak, SdkConfig}.
Context `{GasMeters G, GasTable, VM, EthTypes, ResultCodec, TxHashing, ConfigCodec, Rlp, EthCrypto PrivateKey}.
Context `{!KVStoreLaws St, !SdkCoinsLaws C, !KeccakLaws, !AccountKeeperLaws AK C, !GasMetersLaws G, !VMLaws, !EthTypesLaws}.
Context `{KVStore Db, !KVStoreLaws Db, BloomGenerator, !BloomGeneratorLaws, BitUtil, !BitUtilLaws, StartHeight, BloomFilters, !BloomFiltersLaws}.
Context `{BloomMatcher, !BloomMatcherLaws, LogsConfig, GenesisText, HexText, !HexTextLaws, TmClient Cl, ResultDecoder, TxDecoding}.
Context (BlacklistedAddr : Address -> bool) (enableBloomFilter : bool).
Context (block_hash : Z -> Hash) (logs_of : Z -> list Log).
Abbreviation backend := (EthermintBackend Cl St AK Db Generator).
Abbreviation chain := (chain (C := C) (G := G) (PrivateKey := PrivateKey) BlacklistedAddr block_hash logs_of).
Abbreviation Query := (RpcBackend.Query (C := C) enableBloomFilter).
Implicit Types (b : backend).

(** What Tendermint keeps of the blocks up to [N]: the block at each height,
    with transactions whose results carry the logs. *)
Record client_serves (cl : Cl) (N : Z) : Prop := {
  cs_last : Client_LastHeight cl = Some N;
  cs_block n : GetStartBlockHeight < n <= N -> exists block, Client_Block cl n = Some block /\
    th_Height (tb_Header block) = n /\ concat (RpcBackend.block_logs cl (tb_Txs block)) = logs_of n;
}.
(** The backend of a node after the block at [N]. *)
Record node_at b (N : Z) (k : Keeper) : Prop := {
  na_chain : chain N (eb_stores b) k (eb_index b);
  na_client : client_serves (eb_client b) N;
  na_watcher : forall n, wa_GetLatestBlockNumber (eb_watcher b) = Some n -> n = N;
}.

Section Node.
Context (b : backend) (N : Z) (k : Keeper).
Hypothesis (Hho : hashes_ok block_hash) (Hnode : node_at b N k) (HN : GetStartBlockHeight < N).

Lemma start_range : 0 <= GetStartBlockHeight < 2 ^ 62.
Proof. exact (ho_start _ Hho). Qed.
Lemma node_ok : chain_ok (C := C) block_hash logs_of N (eb_stores b) k (eb_index b).
Proof. exact (chain_in_order BlacklistedAddr block_hash logs_of N _ k _ Hho (na_chain b N k Hnode)). Qed.
Lemma height_range : GetStartBlockHeight <= N < 2 ^ 63 - 1.
Proof. apply node_ok. Qed.
Lemma node_recorded : recorded (C := C) block_hash logs_of N (eb_stores b).
Proof. apply node_ok. Qed.
Local Hint Resolve start_range height_range node_recorded : core.

Lemma latest_number : RpcBackend.BlockNumber b = inr (N - 1).
Proof.
  pose proof start_range as Hst. pose proof height_range as Hrange. unfold RpcBackend.BlockNumber, RpcBackend.LatestBlockNumber. destruct (wa_GetLatestBlockNumber (eb_watcher b)) as [n|] eqn:Hw.
  - rewrite (na_watcher b N k Hnode n Hw). by rewrite (proj2 (Z.ltb_lt 0 N)) by lia.
  - rewrite (cs_last _ _ (na_client b N k Hnode)). rewrite (proj2 (Z.ltb_lt 0 N)) by lia. by rewrite u64_id by (unfold u64_modulus; lia).
Qed.

Lemma header_served block n : GetStartBlockHeight < n <= N -> th_Height (tb_Header block) = n ->
  exists hd, RpcBackend.header_with_bloom (C := C) enableBloomFilter b block = Ret (inr (Some hd)) /\
    hd_Number hd = n /\ hd_Bloom hd = bloom_at logs_of n.
Proof.
  pose proof start_range as Hst. pose proof height_range as Hrange. intros Hn Hh. unfold RpcBackend.header_with_bloom, RpcBackend.Query. rewrite Hh. rewrite query_bloom by lia.
  rewrite (rec_bloom _ _ _ _ node_recorded n Hn). cbn. eexists. split_and!; [done|exact Hh|done].
Qed.

Lemma hash_served n : GetStartBlockHeight < n < N -> RpcBackend.GetBlockHashByHeight (C := C) enableBloomFilter b n = inr (block_hash n).
Proof.
  pose proof start_range as Hst. pose proof height_range as Hrange. intros Hn. unfold RpcBackend.GetBlockHashByHeight, RpcBackend.Query. rewrite query_height_to_hash by lia. cbn [mbind res_bind].
  destruct (rec_hash _ _ _ _ node_recorded n Hn) as [-> _]. f_equal. apply BytesToHash_Bytes. apply (ho_ok _ Hho). lia.
Qed.

Lemma block_served n : GetStartBlockHeight < n < N ->
  exists block, RpcBackend.block_of_hash (C := C) enableBloomFilter b (block_hash n) = Ret (inr block) /\ Client_Block (eb_client b) n = Some block /\
    th_Height (tb_Header block) = n /\ concat (RpcBackend.block_logs (eb_client b) (tb_Txs block)) = logs_of n.
Proof.
  pose proof start_range as Hst. pose proof height_range as Hrange. intros Hn. destruct (cs_block _ _ (na_client b N k Hnode) n ltac:(lia)) as (block & Hb & Hh & Hl). exists block. split_and!; [|done..].
  unfold RpcBackend.block_of_hash, RpcBackend.Query. destruct (rec_hash _ _ _ _ node_recorded n Hn) as [_ Hg].
  erewrite query_hash_to_height; [|apply (ho_ok _ Hho); lia|exact Hg]. cbn. unfold or_error. by rewrite Hb.
Qed.

Lemma section_served i bit section : eb_index b = Some i -> 0 <= bit < BloomBitLength -> 0 <= section < storedSections i ->
  exists v, RpcBackend.serve_section (C := C) enableBloomFilter b bit section = inr v /\ rotated (bloom_at logs_of) bit section v.
Proof.
  pose proof start_range as Hst. pose proof height_range as Hrange. intros Hi Hbit Hsec. destruct (co_index _ _ _ _ _ _ node_ok i Hi) as (Hio & _ & Hs).
  assert (first_of (storedSections i) <= N) as Hfirst.
  { rewrite Hs. unfold first_of. pose proof (Z.mul_div_le (N - GetStartBlockHeight) BloomBitsBlocks ltac:(done)). lia. }
  destruct (ok_bits _ _ _ Hio section bit Hsec Hbit) as (v & Hv & Hr). exists v. split; [|done].
  unfold RpcBackend.serve_section. rewrite Hi.
  assert (int64_of (u64 ((section + 1) * BloomBitsBlocks - 1)) + GetStartBlockHeight = last_of section) as ->.
  { unfold first_of, last_of, first_of, BloomBitsBlocks in *. rewrite u64_id by (unfold u64_modulus; lia). rewrite int64_small by lia. lia. }
  rewrite hash_served by (unfold last_of, first_of, BloomBitsBlocks in *; lia). rewrite Hv. cbn [default from_option id].
  destruct Hr as [Hl _]. rewrite <- Hl. by rewrite Decompress_Compress.
Qed.

(** The node keeps the contract filters rely on, up to the block before the
    last: the hash of a block is known once the next one has begun. *)
Lemma node_serves : GetStartBlockHeight < N - 1 ->
  serves (H := RpcBackend.ethermint_Backend (C := C) enableBloomFilter) block_hash logs_of b (N - 1).
Proof.
  pose proof start_range as Hst. pose proof height_range as Hrange. intros HN1. split; cbn [LogFilter.HeaderByNumber LogFilter.HeaderByHash LogFilter.GetLogs LogFilter.BloomStatus LogFilter.ServiceFilter LogFilter.GetBlockHashByHeight RpcBackend.ethermint_Backend].
  - destruct (cs_block _ _ (na_client b N k Hnode) (N - 1) ltac:(lia)) as (block & Hb & Hh & _).
    destruct (header_served block (N - 1) ltac:(lia) Hh) as (hd & Hhd & Hnum & _). exists hd. split; [|done].
    unfold RpcBackend.HeaderByNumber, RpcBackend.resolve_height. cbn. rewrite latest_number, int64_small by lia.
    unfold or_error. rewrite Hb. exact Hhd.
  - intros n Hn. destruct (cs_block _ _ (na_client b N k Hnode) n ltac:(lia)) as (block & Hb & Hh & _).
    destruct (header_served block n ltac:(lia) Hh) as (hd & Hhd & Hnum & Hbl). exists hd. split; [|done].
    unfold RpcBackend.HeaderByNumber, RpcBackend.resolve_height. rewrite (proj2 (Z.leb_gt n 0)) by lia. unfold or_error. rewrite Hb. exact Hhd.
  - intros n Hn. destruct (block_served n ltac:(lia)) as (block & Hb & _ & Hh & _).
    destruct (header_served block n ltac:(lia) Hh) as (hd & Hhd & _ & Hbl). exists hd. split; [|done].
    unfold RpcBackend.HeaderByHash. rewrite Hb. exact Hhd.
  - intros n Hn. apply hash_served. lia.
  - intros n Hn. destruct (block_served n ltac:(lia)) as (block & Hb & _ & _ & Hl). eexists. split; [|exact Hl].
    unfold RpcBackend.GetLogs. by rewrite Hb.
  - unfold RpcBackend.BloomStatus. destruct (eb_index b) as [i|] eqn:Hi; cbn.
    + destruct (co_index _ _ _ _ _ _ node_ok i Hi) as (Hio & _ & Hs). exists (storedSections i). split_and!; [done|apply (ok_stored _ _ _ Hio)| |].
      * rewrite Hs. unfold first_of. pose proof (Z.mul_div_le (N - GetStartBlockHeight) BloomBitsBlocks ltac:(done)). lia.
      * intros bit section. by apply section_served.
    + exists 0. split_and!; [done..| |]; [unfold first_of; lia|]. intros bit section Hbit Hsec. lia.
Qed.
End Node.

(** C36: [eth_getLogs] on a node: for a chain its blocks have built, from
    whatever their transactions reported, a request for a range or for the
    hash of a block returns the logs there that are asked for, all of them,
    in order, and nothing else.  It does not matter whether the node keeps an
    index, how often it restarted, or where the index ends.  A limit that is
    missing or [-1] stands for the latest block that can be asked about, the
    one before the last. *)
Theorem eth_getLogs_complete b N k c :
  hashes_ok block_hash -> node_at b N k -> GetStartBlockHeight < N - 1 ->
  let H := RpcBackend.ethermint_Backend (C := C) enableBloomFilter in
  let asked := asked (fc_Addresses c) (fc_Topics c) in
  let limit n := match n with None => N - 1 | Some n => if n =? -1 then N - 1 else n end in
  let first := limit (fc_FromBlock c) in
  let last := limit (fc_ToBlock c) in
  (fc_BlockHash c = None -> GetStartBlockHeight < first < 2 ^ 63 -> GetStartBlockHeight < last <= N - 1 ->
   LogsHeightSpan < 0 \/ (0 < LogsHeightSpan /\ last - first <= LogsHeightSpan) ->
   FilterApi.GetLogs b true (fun _ => false) c = Ret (base.filter asked (concat (logs_of <$> seqZ first (last - first + 1))), None)) /\
  (forall n, fc_BlockHash c = Some (block_hash n) -> GetStartBlockHeight < n <= N - 1 ->
   FilterApi.GetLogs b true (fun _ => false) c = Ret (base.filter asked (logs_of n), None)).
Proof.
  intros Hho Hnode HN Hb ask limit first last. pose proof (ho_start _ Hho) as Hst. pose proof (height_range b N k Hho Hnode) as Hr.
  assert (serves (H := Hb) block_hash logs_of b (N - 1)) as Hsv by (apply (node_serves b N k); done || lia).
  split.
  - intros Hc Hf Hl Hspan. unfold FilterApi.GetLogs, FilterApi.criteria_filter. cbn [negb]. rewrite Hc.
    assert (forall n, GetStartBlockHeight < limit n < 2 ^ 63 -> - 2 ^ 63 <= FilterApi.block_number n < 2 ^ 63 /\
      limit n = if FilterApi.block_number n =? -1 then N - 1 else FilterApi.block_number n) as Hlim.
    { intros [n|]; unfold limit, FilterApi.block_number; [|done]. destruct (Z.eqb_spec n (-1)) as [->|Hne]; [done|]. intros Hn.
      rewrite int64_small by lia. rewrite (proj2 (Z.eqb_neq n (-1)) Hne). split; [lia|done]. }
    destruct (Hlim (fc_FromBlock c) Hf) as [Hf1 Hf2]. destruct (Hlim (fc_ToBlock c)) as [Hl1 Hl2]; [unfold last in Hl; lia|].
    unfold first, last in *. rewrite Hf2, Hl2 in *.
    destruct (GetLogs_complete block_hash logs_of b (N - 1) (FilterApi.block_number (fc_FromBlock c)) (FilterApi.block_number (fc_ToBlock c))
      (fc_Addresses c) (fc_Topics c)) as [f' ->]; [exact Hsv|lia|done..|lia|done|done|]. done.
  - intros n Hc Hn. unfold FilterApi.GetLogs, FilterApi.criteria_filter. cbn [negb]. rewrite Hc.
    destruct (block_query_complete block_hash logs_of b (N - 1) n c) as [f' ->]; [exact Hsv|lia|done|]. done.
Qed.
End LogChain.
End LogChain.
