(* ===== verification/LogExamples.v ===== *)
(** A small chain with one log, over toy bloom filters, and what the node
    answers about it. *)
From S2P Require Import Prelude.
From S2P Require Import Interfaces.
From S2P Require Import GoStrings.
From S2P Require Import Account.
From S2P Require Import StateObject.
From S2P Require Import StateDB.
From S2P Require Import StateDBExamples.
From S2P Require Import EthMsg.
From S2P Require Import ChainID.
From S2P Require Import Ante.
From S2P Require Import EthExamples.
From S2P Require Import Transition.
From S2P Require Import EvmKeeper.
From S2P Require Import TransitionSpec.
From S2P Require Import EvmMain.
From S2P Require Import EvmExamples.
From S2P Require Import EvmLists.
From S2P Require Import EvmGenesis.
From S2P Require Import BloomIndex.
From S2P Require Import LogFilter.
From S2P Require Import LogSearch.
From S2P Require Import EvmChain.
From S2P Require Import EvmQuery.
From S2P Require Import RpcBackend.
From S2P Require Import FilterApi.
From S2P Require Import FilterApiSpec.
From S2P Require Import LogChain.
From Stdlib Require Import DecimalString DecimalN.
Import StateDB StateDBExamples EthExamples Transition EvmKeeper TransitionSpec EvmMain EvmExamples MapInstances.
Import BloomIndex LogFilter LogSearch EvmChain EvmQuery FilterApi EventLoop FilterApiSpec LogChain.
Local Open Scope Z_scope.

Module LogExamples.

(** ** Instances *)

(** Texts that can be read back. *)
Definition decimal (n : N) : string := NilEmpty.string_of_uint (N.to_uint n).
Definition of_decimal (s : string) : N := match NilEmpty.uint_of_string s with Some d => N.of_uint d | None => 0%N end.
Lemma of_decimal_decimal n : of_decimal (decimal n) = n.
Proof. unfold of_decimal, decimal. by rewrite NilEmpty.usu, DecimalN.Unsigned.of_to. Qed.
#[export] Instance decimal_GenesisText : GenesisText := {|
  Address_String := decimal; HexToAddress := of_decimal; FromHex s := Hash_Bytes (of_decimal s);
  ValidEip e := (0 <? e)%Z; MarshalZeroConfig := [Byte.x00];
|}.
#[export] Instance decimal_HexText : HexText := decimal.
#[export] Instance decimal_HexTextLaws : HexTextLaws.
Proof. intros h _. cbn. by rewrite of_decimal_decimal. Qed.

(** An address sets one bit. *)
Definition toy_bits (x : bytes) : list Z := if (length x =? 20)%nat then [be_value x mod 2048] else [].
#[export] Instance toy_BloomFilters : BloomFilters := {|
  bloom_bits := toy_bits; BloomLookup b x := forallb (Z.testbit (be_value b)) (toy_bits x);
|}.
Lemma toy_bloom_address l lg : lg ∈ l -> Z.testbit (toy_bloom l) (Z.of_N (log_Address lg mod 2048)) = true.
Proof.
  intros Hin. induction l as [|lg' l IH]; [by apply elem_of_nil in Hin|]. cbn [toy_bloom fold_right]. rewrite Z.lor_spec.
  apply elem_of_cons in Hin as [->|Hin]; [rewrite Z.pow2_bits_true by apply N2Z.is_nonneg; done|]. unfold toy_bloom in IH. by rewrite IH, orb_true_r.
Qed.
#[export] Instance toy_BloomFiltersLaws : BloomFiltersLaws.
Proof.
  split; cbn [bloom_bits toy_BloomFilters]; unfold toy_bits.
  - intros x i. destruct (length x =? 20)%nat; [|by intros ?%elem_of_nil]. intros ->%list_elem_of_singleton.
    by apply Z.mod_pos_bound.
  - done.
  - intros l lg x i Hlg Hx. destruct (Nat.eqb_spec (length x) 20) as [Hl|]; [|by intros ?%elem_of_nil].
    intros ->%list_elem_of_singleton. unfold log_entries in Hx. apply elem_of_cons in Hx as [->|Hx].
    + unfold Address_Bytes. rewrite be_value_be_bytes.
      rewrite <- (Znumtheory.Zmod_div_mod 2048) by (done || (exists (256 ^ 20 / 2048); reflexivity)).
      replace (Z.of_N (log_Address lg) mod 2048) with (Z.of_N (log_Address lg mod 2048)) by (by rewrite N2Z.inj_mod).
      by apply toy_bloom_address.
    + apply list_elem_of_fmap in Hx as (t & -> & _). by rewrite length_Hash_Bytes in Hl.
Qed.

(** A generator keeps the blooms. *)
Definition bits8 (f : nat -> bool) : Z := foldl (fun acc k => 2 * acc + Z.b2z (f k)) 0 (seq 0 8).
Lemma bits8_testbit f k : (k < 8)%nat -> Z.testbit (bits8 f) (7 - Z.of_nat k) = f k.
Proof.
  intros Hk. unfold bits8. cbn [seq foldl].
  destruct (f 0%nat) eqn:E0, (f 1%nat) eqn:E1, (f 2%nat) eqn:E2, (f 3%nat) eqn:E3, (f 4%nat) eqn:E4, (f 5%nat) eqn:E5, (f 6%nat) eqn:E6, (f 7%nat) eqn:E7;
    do 8 (destruct k as [|k]; [rewrite ?E0, ?E1, ?E2, ?E3, ?E4, ?E5, ?E6, ?E7; reflexivity|]); lia.
Qed.
Lemma bits8_range f : 0 <= bits8 f < 256.
Proof. unfold bits8. cbn [seq foldl]. repeat match goal with |- context [Z.b2z (f ?k)] => destruct (f k) end; cbn; lia. Qed.
Record toy_gen := mkToyGen { tg_size : Z; tg_blooms : list bytes }.
Definition toy_vector (g : toy_gen) (bit : Z) : bytes :=
  (fun k => byte_of_Z (bits8 (fun m => match tg_blooms g !! (8 * k + m)%nat with
    | Some b => Z.testbit (be_value b) bit | None => false end))) <$> seq 0 (Z.to_nat (tg_size g / 8)).
#[export] Instance toy_BloomGenerator : BloomGenerator := {|
  Generator := toy_gen; NewGenerator n := if n mod 8 =? 0 then Some (mkToyGen n []) else None;
  AddBloom g j b := mkToyGen (tg_size g) (tg_blooms g ++ [b]); Bitset g bit := Some (toy_vector g bit);
|}.
Lemma toy_add_blooms g j bs : add_blooms g j bs = mkToyGen (tg_size g) (tg_blooms g ++ bs).
Proof.
  revert g j. induction bs as [|b bs IH]; intros [n l] j; cbn [add_blooms]; [by rewrite app_nil_r|].
  rewrite IH. cbn. by rewrite <- app_assoc.
Qed.
Lemma toy_vector_bit g bit j b : tg_size g mod 8 = 0 -> tg_blooms g !! j = Some b -> Z.of_nat j < tg_size g ->
  vec_bit (toy_vector g bit) (Z.of_nat j) = Z.testbit (be_value b) bit.
Proof.
  intros Hm Hj Hlt. unfold vec_bit, toy_vector.
  assert (Z.of_nat j / 8 < tg_size g / 8) as Hq.
  { apply Z.div_lt_upper_bound; [done|]. pose proof (Z.div_mod (tg_size g) 8 ltac:(done)). lia. }
  pose proof (Z.div_pos (Z.of_nat j) 8 ltac:(lia) ltac:(done)) as Hq0.
  assert (Z.to_nat (Z.of_nat j / 8) = (j / 8)%nat) as -> by (change 8 with (Z.of_nat 8); rewrite <- Nat2Z.inj_div; lia).
  assert (j / 8 < Z.to_nat (tg_size g / 8))%nat as Hq2 by (apply Nat2Z.inj_lt; rewrite Nat2Z.inj_div, Z2Nat.id by lia; done).
  rewrite list_lookup_fmap, lookup_seq_lt by done. cbn [fmap option_fmap option_map Nat.add].
  rewrite Z_of_byte_of_Z, Z.mod_small by apply bits8_range.
  replace (7 - Z.of_nat j mod 8) with (7 - Z.of_nat (j mod 8)%nat) by (rewrite Nat2Z.inj_mod; lia).
  rewrite bits8_testbit by (apply Nat.mod_upper_bound; done).
  replace (8 * (j / 8) + j mod 8)%nat with j by (apply Nat.div_mod; done). by rewrite Hj.
Qed.
#[export] Instance toy_BloomGeneratorLaws : BloomGeneratorLaws.
Proof.
  split; cbn [NewGenerator toy_BloomGenerator].
  - intros n _ Hm. rewrite (proj2 (Z.eqb_eq _ _) Hm). by eexists.
  - intros n g bs bit Hg Hlen _ _. destruct (Z.eqb_spec (n mod 8) 0) as [Hm|]; [|done]. injection Hg as <-.
    eexists. split; [done|]. rewrite toy_add_blooms. cbn [tg_size tg_blooms app]. split.
    + unfold toy_vector. rewrite length_fmap, length_seq, Z2Nat.id; [done|]. apply Z.div_pos; cbn; lia.
    + intros j b Hj. apply lookup_lt_Some in Hj as Hlt. apply toy_vector_bit; cbn; [done..|lia].
Qed.
#[export] Instance plain_BitUtil : BitUtil := {|
  CompressBytes v := v; DecompressBytes v n := if Z.of_nat (length v) =? n then Some v else None |}.
#[export] Instance plain_BitUtilLaws : BitUtilLaws.
Proof. intros v. cbn. by rewrite Z.eqb_refl. Qed.
#[export] Instance toy_BloomMatcher : BloomMatcher := {|
  Matcher := Z * list (list bytes); NewMatcher := pair;
  Matcher_Start m r begin fin := (base.filter (fun n => proposed r m.1 m.2 n = true) (seqZ begin (fin - begin + 1)), None);
|}.
#[export] Instance toy_BloomMatcherLaws : BloomMatcherLaws.
Proof. done. Qed.
#[export] Instance genesis_StartHeight : StartHeight := 0.
#[export] Instance any_LogsConfig : LogsConfig := -1.

(** ** Three blocks, the first with the transaction of [EvmExamples] *)
Definition height_hash (n : Z) : Hash := Z.to_N n.
Lemma height_hashes_ok : hashes_ok height_hash.
Proof.
  split; unfold height_hash, hash_ok, GetStartBlockHeight, genesis_StartHeight; [lia| |lia].
  intros n Hn. split; [|lia]. assert (2 ^ 63 < 2 ^ 256) by done. change (2 ^ 256)%N with (Z.to_N (2 ^ 256)). lia.
Qed.
Definition log_tx : list (TxCtx meter * Stores store akeeper * evm_msg) := [(tc10 [Byte.x01], stores0, EvmEthereumTx signed)].
Definition delivered1 := deliver_all no_blacklist (PrivateKey := positive) log_tx NewKeeper.
Definition demo_logs (n : Z) : list Log := if n =? 1 then concat ((fun r => rd_Logs r.2) <$> delivered1.2) else [].
Definition after_log_tx : Stores store akeeper :=
  match (NewHandler no_blacklist (PrivateKey := positive) (tc10 [Byte.x01]) stores0 NewKeeper (EvmEthereumTx signed)).2 with
  | Ret (inr (_, _, sto), _) => sto | _ => stores0 end.
Definition ended (n : Z) (sto : Stores store akeeper) (k : Keeper) : Stores store akeeper :=
  match EndBlock n sto k with Ret sto' => sto' | Panic _ => sto end.
Definition demo_index : Indexer store Generator := InitIndexer (∅ : store).
Definition stores1 : Stores store akeeper := ended 1 after_log_tx delivered1.1.
Definition begin_at (n : Z) : BeginBlockReq := mkBeginBlockReq (Hash_Bytes (height_hash n)) n (Some (Hash_Bytes (height_hash (n - 1)))).
Definition begun (n : Z) (sto : Stores store akeeper) (k : Keeper) := BeginBlock (C := coins) (begin_at n) sto k.
Definition next_stores (n : Z) (sto : Stores store akeeper) (k : Keeper) : Stores store akeeper := ended n (begun n sto k).1 (begun n sto k).2.
Definition stores2 : Stores store akeeper := next_stores 2 stores1 delivered1.1.
Definition keeper2 : Keeper := (begun 2 stores1 delivered1.1).2.
Definition stores3 : Stores store akeeper := next_stores 3 stores2 keeper2.
Definition keeper3 : Keeper := (begun 3 stores2 keeper2).2.
Definition ends {A} (r : res A) : bool := match r with Ret _ => true | Panic _ => false end.
Lemma ended_ok n sto k : ends (EndBlock n sto k) = true -> EndBlock n sto k = Ret (ended n sto k).
Proof. unfold ended. by destruct (EndBlock n sto k). Qed.

Abbreviation demo_chain := (chain (C := coins) (G := meter) (PrivateKey := positive) no_blacklist height_hash demo_logs).
Lemma demo_chain1 : demo_chain 1 stores1 delivered1.1 (Some demo_index).
Proof.
  eapply (chain_block _ _ _ 0 stores0 NewKeeper (Some demo_index) (mkBeginBlockReq (Hash_Bytes 1%N) 1 None) stores0 NewKeeper log_tx after_log_tx
    delivered1.1 delivered1.2 stores1 stores1 (Some demo_index)); [by apply chain_start_index|done|done|done|done|by repeat constructor|done| |apply surjective_pairing|done| | |done].
  - eapply threaded_cons; [done|apply surjective_pairing|]. by apply threaded_nil.
  - apply ended_ok. vm_cast_no_check (eq_refl true).
  - vm_cast_no_check (eq_refl (Ret (Some demo_index))).
Qed.
Lemma empty_block N sto k : demo_chain N sto k (Some demo_index) -> 0 < N -> N + 1 < 2 ^ 63 - 1 -> demo_logs (N + 1) = [] ->
  ends (EndBlock (N + 1) (begun (N + 1) sto k).1 (begun (N + 1) sto k).2) = true ->
  EndBlock_index (index_keeper (C := coins) (next_stores (N + 1) sto k)) (N + 1) (Some demo_index) = Ret (Some demo_index) ->
  demo_chain (N + 1) (next_stores (N + 1) sto k) (begun (N + 1) sto k).2 (Some demo_index).
Proof.
  intros Hc HN HN2 Hl He Hi.
  eapply (chain_block _ _ _ N sto k (Some demo_index) (begin_at (N + 1)) (begun (N + 1) sto k).1 (begun (N + 1) sto k).2 []);
    [exact Hc|done|done| |apply surjective_pairing|by constructor|done|by apply threaded_nil|done|done|by apply ended_ok|exact Hi|done].
  rewrite (proj2 (Z.eqb_neq N GetStartBlockHeight)) by (unfold GetStartBlockHeight, genesis_StartHeight; lia).
  cbn [begin_at req_LastHash]. by rewrite Z.add_simpl_r.
Qed.
Lemma demo_chain3 : demo_chain 3 stores3 keeper3 (Some demo_index).
Proof.
  apply (empty_block 2); [|done..|vm_cast_no_check (eq_refl true)|vm_cast_no_check (eq_refl (Ret (Some demo_index)))].
  apply (empty_block 1); [exact demo_chain1|done..|vm_cast_no_check (eq_refl true)|vm_cast_no_check (eq_refl (Ret (Some demo_index)))].
Qed.

(** ** The node *)
Definition demo_block (n : Z) : TmBlock :=
  mkTmBlock (mkTmHeader n (Hash_Bytes (height_hash (n - 1))) [] [] [] 1000) (if n =? 1 then [[Byte.x01]] else []) (Hash_Bytes (height_hash n)) 500.
Definition demo_results (hash : bytes) : option bytes := if bool_decide (hash = [Byte.x01]) then Some [Byte.xff] else None.
Record toy_client := mkToyClient { tc_last : Z }.
#[export] Instance toy_TmClient : TmClient toy_client := {|
  Client_Block cl n := if (0 <? n) && (n <=? tc_last cl) then Some (demo_block n) else None;
  Client_Tx _ hash := demo_results hash;
  Client_LastHeight cl := Some (tc_last cl);
  Client_UnconfirmedTxs _ := Some ([], 0);
  Client_UserUnconfirmedTxs _ _ _ := Some [];
  Client_UserNumUnconfirmedTxs _ _ := Some 0;
  Client_GetUnconfirmedTxByHash _ _ := None;
|}.
#[export] Instance toy_ResultDecoder : ResultDecoder := fun _ => Some (mkResultData 0%N 0 (demo_logs 1) None 0%N).
#[export] Instance toy_TxDecoding : TxDecoding := fun bz => if bool_decide (bz = [Byte.x01]) then Some (inl signed) else None.
Definition no_watcher : WatcherAnswers := mkWatcherAnswers None (fun _ _ => None) (fun _ _ => None).
Definition demo_node : EthermintBackend toy_client store akeeper store Generator :=
  mkEthermintBackend _ _ _ _ _ (mkToyClient 3) stores3 3 (Some demo_index) no_watcher.

Lemma demo_client_serves : client_serves demo_logs (mkToyClient 3) 3.
Proof.
  split; [done|]. unfold GetStartBlockHeight, genesis_StartHeight. intros n Hn. exists (demo_block n). split_and!; [|done|].
  - cbn. by rewrite (proj2 (Z.ltb_lt 0 n)), (proj2 (Z.leb_le n 3)) by lia.
  - destruct (decide (n = 1)) as [->|Hne]; [exact (app_nil_r (demo_logs 1))|].
    unfold demo_block, demo_logs. by rewrite (proj2 (Z.eqb_neq n 1) Hne).
Qed.
Lemma demo_node_at : node_at (C := coins) (G := meter) (PrivateKey := positive) no_blacklist height_hash demo_logs demo_node 3 keeper3.
Proof. split; [exact demo_chain3|exact demo_client_serves|done]. Qed.

(** What is asked for, and what is found: the two logs of the callee. *)
Definition callee : Address := 187%N.
Definition demo_request : FilterCriteria := mkCriteria None (Some 1) None [callee] [[1%N; 2%N]].
#[export] Instance demo_Backend : Backend (EthermintBackend toy_client store akeeper store Generator) := RpcBackend.ethermint_Backend (C := coins) true.
Example demo_found : log_Index <$> base.filter (asked [callee] [[1%N; 2%N]]) (concat (demo_logs <$> seqZ 1 2)) = [0; 1].
Proof. vm_compute. reflexivity. Qed.

Lemma eth_getLogs_complete_witness :
  FilterApi.GetLogs demo_node true (fun _ => false) demo_request
  = Ret (base.filter (asked [callee] [[1%N; 2%N]]) (concat (demo_logs <$> seqZ 1 2)), None).
Proof.
  exact (proj1 (eth_getLogs_complete (C := coins) no_blacklist true height_hash demo_logs demo_node 3 keeper3 demo_request
    height_hashes_ok demo_node_at eq_refl) eq_refl (conj eq_refl eq_refl) ltac:(done) (or_introl eq_refl)).
Defined.

Lemma chain_recorded_witness :
  (forall n, GetStartBlockHeight < n < 3 ->
     EvmKeeper.GetHeightHash (C := coins) stores3 n = height_hash n /\ GetBlockHash (sto_kv stores3) (Hash_Bytes (height_hash n)) = Ret (n, true)) /\
  (forall n, GetStartBlockHeight < n <= 3 -> GetBlockBloom (sto_kv stores3) n = Ret (be_bytes 256 (LogsBloom (demo_logs n)))).
Proof.
  pose proof (chain_recorded (C := coins) no_blacklist height_hash demo_logs 3 stores3 keeper3 (Some demo_index) height_hashes_ok demo_chain3) as (Hh & Hb & _).
  exact (conj Hh Hb).
Defined.

(** ** A filter that is polled *)
#[export] Instance toy_HeaderHashing : HeaderHashing := fun h => hd_ParentHash h.
Definition log_event : ResultEvent := mkResultEvent (EventDataTx [Byte.x01] [Byte.xff]) true.
Definition poll_history : list action :=
  [ AEvent 7%N log_event; APoll true 7%N 100; ANewBlockFilter true true 8%N 150; AEvent 8%N log_event; AEvent 7%N log_event; AUninstall 8%N;
    AEvent 7%N (mkResultEvent EventDataOther false); AEvent 7%N log_event; ATimeout 200 ].
Definition empty_world : world := mkWorld ∅ ∅.
Definition second_log : FilterCriteria := mkCriteria None (Some 0) None [callee] [[2%N]].
Definition polled_world := run (fun _ => true) (ANewFilter true true 7%N 50 second_log :: poll_history) empty_world.
Example poll_numbers : (fun o => match o.2 with LogChanges l => log_Index <$> l | HashChanges _ => [] end) <$> polled_world.2 = [[1]].
Proof. vm_compute. reflexivity. Qed.
Lemma polled_alive : is_Some (w_filters polled_world.1 !! 7%N).
Proof. vm_compute. by eexists. Qed.
Lemma polls_deliver_every_log_witness :
  exists l, (GetFilterChanges true 7%N 300 (w_filters polled_world.1)).1 = inr (LogChanges l) /\
    collected second_log (events_of 7%N poll_history) = polled 7%N polled_world.2 ++ l.
Proof.
  apply (polls_deliver_every_log (fun _ => true) empty_world 7%N second_log 50 poll_history polled_world.1 polled_world.2 300);
    [discriminate|by repeat constructor|apply surjective_pairing|exact polled_alive].
Defined.

(** It asked for one log of the contract; all of its logs are said to be
    those of the latest block, where there is none. *)
Lemma demo_serves : serves height_hash demo_logs demo_node 2.
Proof. apply (node_serves (C := coins) no_blacklist true height_hash demo_logs demo_node 3 keeper3 height_hashes_ok demo_node_at); done. Qed.
Lemma GetFilterLogs_ignores_criteria_witness :
  FilterApi.GetFilterLogs demo_node (fun _ => false) 7%N (w_filters polled_world.1) = Ret (demo_logs 2, None).
Proof.
  apply (GetFilterLogs_ignores_criteria (fun _ => true) height_hash demo_logs demo_node 2 empty_world 7%N second_log 50 poll_history polled_world.1 polled_world.2);
    [exact demo_serves|done|done|done|done|discriminate|by repeat constructor|apply surjective_pairing|exact polled_alive].
Defined.

(** ** The event loop with its four subscriptions *)
Definition loop_own : gset filter_id := {[ 1%N; 2%N; 3%N; 4%N ]}.
Definition loop_subs (id : filter_id) : Subscription :=
  mkSubscription id (if decide (id = 1%N) then PendingTransactionsSubscription else if decide (id = 3%N) then PendingLogsSubscription
    else if decide (id = 4%N) then BlocksSubscription else LogsSubscription) no_criteria.
Definition loop_ready : event_system := mkEventSystem {[ 4%N := loop_subs 4%N ]} [] (loop_own ∖ {[4%N]}) ∅ ∅.
Lemma loop_reached : rtc (loop_step loop_own loop_subs) (start_system loop_own) loop_ready.
Proof. apply rtc_once. apply (loop_install loop_own loop_subs ∅ 4%N loop_own ∅ ∅). set_solver. Qed.
Definition loop_stopped : event_system := mkEventSystem (es_index loop_ready) (handleChainEvent (es_index loop_ready)) (es_install loop_ready) ∅ ∅.
Lemma event_loop_stops_witness :
  loop_step loop_own loop_subs loop_ready loop_stopped /\
  (rtc (loop_step loop_own loop_subs) loop_stopped loop_stopped ->
   es_index loop_stopped = es_index loop_ready /\ es_closed loop_stopped = es_closed loop_ready /\ es_sending loop_stopped ≠ []).
Proof.
  exact (event_loop_stops loop_own loop_subs (fun _ => eq_refl) loop_ready (handleChainEvent (es_index loop_ready)) loop_stopped 4%N
    ltac:(set_solver) loop_reached eq_refl eq_refl (sent_header loop_subs 4%N _ eq_refl)).
Defined.

End LogExamples.
