(* ===== verification/Sums.v ===== *)
(** Sums over finite maps: the totals that the modules' registered
    invariants compare. *)
From S2P Require Import Prelude.
Local Open Scope Z_scope.

Section Msum.
Context {K A : Type} `{Countable K}.
Implicit Types (f g : K -> A -> Z) (m : gmap K A).

(** The sum of [f] over the entries of a map. *)
Definition msum f m : Z := map_fold (fun k v acc => f k v + acc) 0 m.

Lemma msum_empty f : msum f ∅ = 0.
Proof. apply map_fold_empty. Qed.

Lemma msum_insert_new f m k v : m !! k = None -> msum f (<[k := v]> m) = f k v + msum f m.
Proof.
  intros Hk. unfold msum. apply (map_fold_insert_L (fun k v acc => f k v + acc)); [intros; lia|done].
Qed.

Lemma msum_delete f m k v : m !! k = Some v -> msum f m = f k v + msum f (delete k m).
Proof.
  intros Hk. rewrite <- (insert_delete_id m k v) at 1 by done.
  by rewrite msum_insert_new by apply lookup_delete_eq.
Qed.

Lemma msum_delete_default f m k :
  msum f (delete k m) = msum f m - from_option (f k) 0 (m !! k).
Proof.
  destruct (m !! k) as [v|] eqn:E; simpl.
  - rewrite (msum_delete f m k v E). lia.
  - rewrite delete_id by done. lia.
Qed.

(** Overwriting moves the sum by the difference of the two entries. *)
Lemma msum_insert f m k v :
  msum f (<[k := v]> m) = msum f m - from_option (f k) 0 (m !! k) + f k v.
Proof.
  rewrite <- insert_delete_eq, msum_insert_new by apply lookup_delete_eq.
  rewrite msum_delete_default. lia.
Qed.

Lemma msum_ext f g m : (forall k v, m !! k = Some v -> f k v = g k v) -> msum f m = msum g m.
Proof.
  induction m as [|k v m Hk IH] using map_ind; intros Hfg; [done|].
  rewrite !msum_insert_new by done. rewrite IH, (Hfg k v); [done|by rewrite lookup_insert_eq|].
  intros k' v' Hk'. apply Hfg. rewrite lookup_insert_ne; [done|]. intros ->. congruence.
Qed.

Lemma msum_zero f m : (forall k v, m !! k = Some v -> f k v = 0) -> msum f m = 0.
Proof.
  intros Hz. rewrite (msum_ext f (fun _ _ => 0) m Hz).
  induction m as [|k v m Hk IH] using map_ind; [done|].
  rewrite msum_insert_new by done. rewrite IH; [done|].
  intros k' v' Hk'. apply (Hz k'). rewrite lookup_insert_ne; [done|]. intros ->. congruence.
Qed.

Lemma msum_nonneg f m : (forall k v, m !! k = Some v -> 0 <= f k v) -> 0 <= msum f m.
Proof.
  induction m as [|k v m Hk IH] using map_ind; intros Hf; [by rewrite msum_empty|].
  rewrite msum_insert_new by done.
  pose proof (Hf k v (lookup_insert_eq _ _ _)).
  assert (0 <= msum f m); [|lia]. apply IH. intros k' v' Hk'. apply Hf.
  rewrite lookup_insert_ne; [done|]. intros ->. congruence.
Qed.

Lemma msum_le_entry f m k v : (forall k v, m !! k = Some v -> 0 <= f k v) -> m !! k = Some v ->
  f k v <= msum f m.
Proof.
  intros Hf Hk. rewrite (msum_delete f m k v Hk).
  assert (0 <= msum f (delete k m)); [|lia]. apply msum_nonneg.
  intros k' v' (_ & Hk')%lookup_delete_Some. by apply Hf.
Qed.

Lemma msum_add f g m : msum (fun k v => f k v + g k v) m = msum f m + msum g m.
Proof.
  induction m as [|k v m Hk IH] using map_ind; [done|].
  rewrite !msum_insert_new by done. lia.
Qed.

Lemma msum_fmap {B} (h : B -> A) f (m : gmap K B) : msum f (h <$> m) = map_fold (fun k v acc => f k (h v) + acc) 0 m.
Proof.
  induction m as [|k v m Hk IH] using map_ind.
  - by rewrite fmap_empty, map_fold_empty.
  - rewrite fmap_insert, msum_insert_new by (by rewrite lookup_fmap, Hk). rewrite IH.
    symmetry. apply (map_fold_insert_L (fun k v acc => f k (h v) + acc)); [intros; lia|done].
Qed.

Lemma msum_fmap_ext (h : A -> A) f m : (forall k v, m !! k = Some v -> f k (h v) = f k v) ->
  msum f (h <$> m) = msum f m.
Proof.
  intros Hh. rewrite msum_fmap. apply (msum_ext (fun k v => f k (h v)) f). exact Hh.
Qed.

(** Replacing, adding or removing one entry. *)
Lemma msum_partial_alter f m k (o : option A) :
  msum f (partial_alter (fun _ => o) k m) = msum f m - from_option (f k) 0 (m !! k) + from_option (f k) 0 o.
Proof.
  destruct o as [v|]; simpl.
  - apply msum_insert.
  - rewrite Z.add_0_r. apply msum_delete_default.
Qed.

End Msum.
