(* ===== verification/Coins.v ===== *)
(** Coin sets and rounding (sdk.SysCoins, sdk.Dec), and lists of entries.

    [sdk.SysCoins] is a sorted list of denominations with positive
    decimal amounts; its arithmetic is the Cosmos SDK's.  This file has the
    operations the distribution and token modules call, the documented
    laws about the amounts, an instance over finite maps, and sums over
    lists, in which the allocation of fees is computed. *)
From S2P Require Import Prelude.
From S2P Require Import Interfaces.
From S2P Require Import Sums.
From stdpp Require Import sorting.
Local Open Scope Z_scope.

(** The unit of [sdk.Dec]. *)
Definition dec_one : Z := 10 ^ 18.

(** [CoinsSub] is [None] where an amount of the difference is negative:
    there [SafeSub] returns its flag and [Sub] panics.  [CoinsIsEqual]
    panics on sets of the same size with different denominations. *)
Class DecCoins (C : Type) := {
  CoinsAdd : C -> C -> C;
  CoinsSub : C -> C -> option C;
  MulDecTruncate : C -> Dec -> C;
  (** the whole coins, and the decimals left over *)
  TruncateDecimal : C -> C * C;
  IsZero : C -> bool;
  CoinsEmpty : C -> bool;
  IsAnyNegative : C -> bool;
  CoinsIsEqual : C -> C -> res bool;
}.
Class DecCoinsLaws (C : Type) `{SdkCoins C, DecCoins C} := {
  AmountOf_CoinsAdd c1 c2 d : AmountOf (CoinsAdd c1 c2) d = AmountOf c1 d + AmountOf c2 d;
  CoinsSub_Some c1 c2 : (forall d, AmountOf c2 d <= AmountOf c1 d) -> exists c, CoinsSub c1 c2 = Some c;
  AmountOf_CoinsSub c1 c2 c d : CoinsSub c1 c2 = Some c -> AmountOf c d = AmountOf c1 d - AmountOf c2 d;
  AmountOf_MulDecTruncate c x d : 0 <= x -> AmountOf (MulDecTruncate c x) d = AmountOf c d * x / dec_one;
  AmountOf_TruncateDecimal c d :
    AmountOf (TruncateDecimal c).1 d = AmountOf c d / dec_one * dec_one /\
    AmountOf (TruncateDecimal c).2 d = AmountOf c d mod dec_one;
  IsZero_spec c : IsZero c = true <-> forall d, AmountOf c d = 0;
  CoinsEmpty_spec c : CoinsEmpty c = true <-> forall d, AmountOf c d = 0;
  IsAnyNegative_spec c : IsAnyNegative c = true <-> exists d, AmountOf c d < 0;
  CoinsIsEqual_spec c1 c2 : (forall d, AmountOf c1 d = AmountOf c2 d) -> CoinsIsEqual c1 c2 = Ret true;
}.

(** [sdk.Dec.QuoTruncate]; [None] is the panic of a division by zero. *)
Class DecQuo := QuoTruncate : Dec -> Dec -> option Dec.
Class DecQuoLaws `{DecQuo} := {
  QuoTruncate_pos a b : 0 <= a -> 0 < b -> QuoTruncate a b = Some (a * dec_one / b);
  QuoTruncate_zero a : QuoTruncate a 0 = None;
}.

(** ** Entries of a table in the order of their keys *)
Definition entry_le {A} (x y : Address * A) : Prop := (x.1 <= y.1)%N.
#[export] Instance entry_le_dec {A} : RelDecision (@entry_le A).
Proof. intros x y. unfold entry_le. apply _. Defined.
Definition entries {A} (m : gmap Address A) : list (Address * A) := merge_sort entry_le (map_to_list m).

Lemma entries_Permutation {A} (m : gmap Address A) : entries m ≡ₚ map_to_list m.
Proof. apply merge_sort_Permutation. Qed.
Lemma elem_of_entries {A} (m : gmap Address A) a x : (a, x) ∈ entries m <-> m !! a = Some x.
Proof. by rewrite entries_Permutation, elem_of_map_to_list. Qed.
Lemma NoDup_entries {A} (m : gmap Address A) : NoDup (entries m).*1.
Proof. rewrite entries_Permutation. apply NoDup_fst_map_to_list. Qed.
Lemma list_to_map_entries {A} (m : gmap Address A) : list_to_map (entries m) = m.
Proof.
  rewrite <- (list_to_map_to_list m) at 2. apply list_to_map_proper.
  - apply NoDup_entries.
  - apply entries_Permutation.
Qed.

(** ** Rounding and sums over lists *)
Lemma floor_range x (D : Z) : 0 < D -> x - (D - 1) <= D * (x / D) <= x.
Proof. intros HD. pose proof (Z.div_mod x D ltac:(lia)). pose proof (Z.mod_pos_bound x D HD). lia. Qed.

Section Lsum.
Context {A : Type}.
Implicit Types (f g : A -> Z) (l : list A).

Definition lsum f l : Z := foldr (fun x acc => f x + acc) 0 l.

Lemma lsum_nil f : lsum f [] = 0.
Proof. done. Qed.
Lemma lsum_cons f x l : lsum f (x :: l) = f x + lsum f l.
Proof. done. Qed.
Lemma lsum_app f l1 l2 : lsum f (l1 ++ l2) = lsum f l1 + lsum f l2.
Proof. induction l1 as [|x l1 IH]; simpl; lia. Qed.
Lemma lsum_perm f l1 l2 : l1 ≡ₚ l2 -> lsum f l1 = lsum f l2.
Proof. induction 1; simpl; lia. Qed.
Lemma lsum_ext f g l : (forall x, x ∈ l -> f x = g x) -> lsum f l = lsum g l.
Proof.
  induction l as [|x l IH]; intros Hfg; simpl; [done|].
  rewrite (Hfg x) by constructor. rewrite IH; [done|]. intros y Hy. apply Hfg. by constructor.
Qed.
Lemma lsum_le f g l : (forall x, x ∈ l -> f x <= g x) -> lsum f l <= lsum g l.
Proof.
  induction l as [|x l IH]; intros Hfg; simpl; [done|].
  pose proof (Hfg x (list_elem_of_here _ _)).
  assert (lsum f l <= lsum g l); [|lia]. apply IH. intros y Hy. apply Hfg. by constructor.
Qed.
Lemma lsum_nonneg f l : (forall x, x ∈ l -> 0 <= f x) -> 0 <= lsum f l.
Proof.
  intros Hf. induction l as [|x l IH]; simpl; [done|].
  pose proof (Hf x (list_elem_of_here _ _)). assert (0 <= lsum f l); [|lia].
  apply IH. intros y Hy. apply Hf. by constructor.
Qed.
Lemma lsum_const (x : Z) l : lsum (fun _ => x) l = Z.of_nat (length l) * x.
Proof. induction l as [|y l IH]; cbn [lsum foldr length]; [done|]. fold (lsum (fun _ => x) l). lia. Qed.
Lemma lsum_mul f (x : Z) l : lsum (fun y => x * f y) l = x * lsum f l.
Proof. induction l as [|y l IH]; simpl; [lia|]. unfold lsum in *. lia. Qed.
Lemma lsum_add f g l : lsum (fun y => f y + g y) l = lsum f l + lsum g l.
Proof. induction l as [|y l IH]; simpl; [lia|]. unfold lsum in *. lia. Qed.

(** Rounding each part down loses less than one unit per part. *)
Lemma lsum_floor f (k : Z) l : 0 < k ->
  lsum f l / k - Z.of_nat (length l) <= lsum (fun x => f x / k) l <= lsum f l / k.
Proof.
  intros Hk. induction l as [|x l IH]; cbn [lsum foldr length].
  - rewrite Z.div_0_l by lia. lia.
  - fold (lsum f l) (lsum (fun x => f x / k) l).
    pose proof (Z.div_mod (f x) k ltac:(lia)). pose proof (Z.mod_pos_bound (f x) k Hk).
    pose proof (Z.div_mod (lsum f l) k ltac:(lia)). pose proof (Z.mod_pos_bound (lsum f l) k Hk).
    pose proof (Z.div_mod (f x + lsum f l) k ltac:(lia)). pose proof (Z.mod_pos_bound (f x + lsum f l) k Hk).
    nia.
Qed.
End Lsum.


Lemma msum_lsum {K A} `{Countable K} (h : K -> A -> Z) (m : gmap K A) :
  msum h m = lsum (fun kv => h kv.1 kv.2) (map_to_list m).
Proof.
  unfold msum. rewrite map_fold_foldr. unfold lsum.
  induction (map_to_list m) as [|[k x] l IH]; simpl; [done|]. by rewrite IH.
Qed.
Lemma msum_entries {A} (h : Address -> A -> Z) (m : gmap Address A) :
  msum h m = lsum (fun kv => h kv.1 kv.2) (entries m).
Proof. rewrite msum_lsum. symmetry. apply lsum_perm, entries_Permutation. Qed.

(** ** Coin sets as finite maps *)
Module MapCoins.
Import MapInstances.

Definition of_amounts (dom : gset string) (f : string -> Z) : coins :=
  set_fold (fun d c => coins_put c d (f d)) ∅ dom.
Definition coins_all (p : string -> bool) (dom : gset string) : bool := bool_decide (set_Forall (fun d => p d = true) dom).
Definition support (c1 c2 : coins) : gset string := dom c1 ∪ dom c2.

Lemma coins_amount_put_other c d x d' : d ≠ d' -> coins_amount (coins_put c d x) d' = coins_amount c d'.
Proof.
  intros Hd. unfold coins_amount, coins_put. destruct x; rewrite ?lookup_delete_ne, ?lookup_insert_ne by done; done.
Qed.

Lemma coins_amount_of_amounts dom f d :
  coins_amount (of_amounts dom f) d = if decide (d ∈ dom) then Z.max 0 (f d) else 0.
Proof.
  unfold of_amounts. revert d.
  pose (P := fun (c : coins) (X : gset string) => forall d,
    coins_amount c d = if decide (d ∈ X) then Z.max 0 (f d) else 0).
  change (P (set_fold (fun d c => coins_put c d (f d)) ∅ dom) dom).
  apply set_fold_ind_L; [done|]. subst P. cbn beta.
  intros x X c Hx IH d. destruct (decide (x = d)) as [->|Hne].
  - rewrite decide_True by set_solver. unfold coins_amount, coins_put.
    destruct (f d); rewrite ?lookup_delete_eq, ?lookup_insert_eq; lia.
  - rewrite coins_amount_put_other by done. rewrite IH. by repeat case_decide; set_solver.
Qed.

Lemma coins_amount_out c d : d ∉ dom c -> coins_amount c d = 0.
Proof. intros Hd%not_elem_of_dom. unfold coins_amount. by rewrite Hd. Qed.
Lemma coins_amount_in c d : d ∈ dom c -> 0 < coins_amount c d.
Proof. intros [p Hp]%elem_of_dom. unfold coins_amount. rewrite Hp. lia. Qed.
Lemma coins_amount_nonneg c d : 0 <= coins_amount c d.
Proof. unfold coins_amount. destruct (c !! d); lia. Qed.

#[export] Instance map_DecCoins : DecCoins coins := {
  CoinsAdd c1 c2 := of_amounts (support c1 c2) (fun d => coins_amount c1 d + coins_amount c2 d);
  CoinsSub c1 c2 :=
    if coins_all (fun d => coins_amount c2 d <=? coins_amount c1 d) (support c1 c2)
    then Some (of_amounts (support c1 c2) (fun d => coins_amount c1 d - coins_amount c2 d)) else None;
  MulDecTruncate c x := of_amounts (dom c) (fun d => coins_amount c d * x / dec_one);
  TruncateDecimal c := (of_amounts (dom c) (fun d => coins_amount c d / dec_one * dec_one),
                        of_amounts (dom c) (fun d => coins_amount c d mod dec_one));
  IsZero c := bool_decide (c = ∅);
  CoinsEmpty c := bool_decide (c = ∅);
  IsAnyNegative c := false;
  CoinsIsEqual c1 c2 := if bool_decide (c1 = c2) then Ret true
    else if bool_decide (dom c1 = dom c2) then Ret false
    else if (size c1 =? size c2)%nat then Panic (PanicMsg "invalid coin denominations") else Ret false;
}.

Lemma coins_eq c1 c2 : (forall d, coins_amount c1 d = coins_amount c2 d) -> c1 = c2.
Proof.
  intros Heq. apply map_eq. intros d. specialize (Heq d). unfold coins_amount in Heq.
  destruct (c1 !! d), (c2 !! d); try lia; congruence.
Qed.
Lemma coins_empty_iff c : c = ∅ <-> forall d, coins_amount c d = 0.
Proof. split; [by intros ->|]. intros Hz. by apply coins_eq. Qed.

#[export] Instance map_DecCoinsLaws : DecCoinsLaws coins.
Proof.
  assert (forall c d x, 0 <= x -> Z.max 0 (coins_amount c d * x / dec_one) = coins_amount c d * x / dec_one) as Hmul.
  { intros c d x Hx. pose proof (coins_amount_nonneg c d). apply Z.max_r, Z.div_pos; unfold dec_one; nia. }
  split; cbn; intros.
  - rewrite coins_amount_of_amounts. unfold support. pose proof (coins_amount_nonneg c1 d). pose proof (coins_amount_nonneg c2 d).
    case_decide; [lia|]. rewrite !coins_amount_out by set_solver. done.
  - unfold coins_all. rewrite bool_decide_true; [by eexists|]. intros d _. by apply Z.leb_le.
  - case_match eqn:E; [|done]. simplify_eq. unfold coins_all in E. apply bool_decide_eq_true in E.
    rewrite coins_amount_of_amounts. case_decide as Hd.
    + specialize (E d Hd). apply Z.leb_le in E. lia.
    + unfold support in Hd. rewrite !coins_amount_out by set_solver. done.
  - rewrite coins_amount_of_amounts, Hmul by done. case_decide; [done|]. by rewrite coins_amount_out.
  - rewrite !coins_amount_of_amounts. pose proof (coins_amount_nonneg c d).
    pose proof (Z.mod_pos_bound (coins_amount c d) dec_one ltac:(unfold dec_one; lia)).
    pose proof (Z.div_pos (coins_amount c d) dec_one ltac:(done) ltac:(unfold dec_one; lia)).
    case_decide; [unfold dec_one in *; lia|]. rewrite coins_amount_out by done. done.
  - rewrite bool_decide_eq_true. apply coins_empty_iff.
  - rewrite bool_decide_eq_true. apply coins_empty_iff.
  - split; [done|]. intros [d Hd]. pose proof (coins_amount_nonneg c d). lia.
  - rewrite bool_decide_true; [done|]. by apply coins_eq.
Qed.

#[export] Instance Z_DecQuo : DecQuo := fun a b => if b =? 0 then None else Some (Z.quot (a * dec_one) b).
#[export] Instance Z_DecQuoLaws : DecQuoLaws.
Proof.
  split.
  - intros a b Ha Hb. unfold QuoTruncate, Z_DecQuo. rewrite (proj2 (Z.eqb_neq b 0)) by lia.
    by rewrite Z.quot_div_nonneg by (unfold dec_one; lia).
  - intros a. done.
Qed.
End MapCoins.
