(* ===== verification/StakingTypes.v ===== *)
(** Data of the staking module (staking/types): validators, delegators,
    undelegations, commissions, and the basic checks of its messages. *)
From S2P Require Import Prelude.
From S2P Require Import Interfaces.
Local Open Scope Z_scope.

(** [sdk.SysCoin]: a denomination and an amount. *)
Abbreviation SysCoin := (Denom * Dec)%type.
(** Block times and durations are numbers of nanoseconds. *)
Abbreviation Time := Z.

(** [sdk.BondStatus] *)
Inductive BondStatus := Unbonded | Unbonding | Bonded.
#[export] Instance BondStatus_eq_dec : EqDecision BondStatus.
Proof. solve_decision. Defined.

(** The unit of [sdk.Dec], and [sdk.NewDec]. *)
Definition OneDec : Dec := 10 ^ 18.
Definition NewDec (n : Z) : Dec := n * OneDec.

Record Description := mkDescription { Moniker : string; Identity : string; Website : string; Details : string }.
#[export] Instance Description_eq_dec : EqDecision Description.
Proof. solve_decision. Defined.

Record CommissionRates := mkCommissionRates { Rate : Dec; MaxRate : Dec; MaxChangeRate : Dec }.
Record Commission := mkCommission { comm_rates : CommissionRates; UpdateTime : Time }.

Record Validator := mkValidator {
  OperatorAddress : Address;
  ConsPubKey : bytes;
  Jailed : bool;
  Status : BondStatus;
  val_Tokens : Z;
  DelegatorShares : Dec;
  val_Description : Description;
  UnbondingHeight : Z;
  UnbondingCompletionTime : Time;
  val_Commission : Commission;
  MinSelfDelegation : Dec;
}.
#[export] Instance Validator_eta : Eta Validator := fun r =>
  mkValidator (OperatorAddress r) (ConsPubKey r) (Jailed r) (Status r) (val_Tokens r) (DelegatorShares r)
    (val_Description r) (UnbondingHeight r) (UnbondingCompletionTime r) (val_Commission r) (MinSelfDelegation r).

Record Delegator := mkDelegator {
  DelegatorAddress : Address;
  ValidatorAddresses : list Address;
  Shares : Dec;
  Tokens : Dec;
  IsProxy : bool;
  TotalDelegatedTokens : Dec;
  ProxyAddress : option Address;
}.
#[export] Instance Delegator_eta : Eta Delegator := fun r =>
  mkDelegator (DelegatorAddress r) (ValidatorAddresses r) (Shares r) (Tokens r) (IsProxy r)
    (TotalDelegatedTokens r) (ProxyAddress r).

Record UndelegationInfo := mkUndelegation { ud_DelegatorAddress : Address; Quantity : Dec; CompletionTime : Time }.
#[export] Instance UndelegationInfo_eta : Eta UndelegationInfo := fun r =>
  mkUndelegation (ud_DelegatorAddress r) (Quantity r) (CompletionTime r).

Inductive stk_error :=
  | ErrCommissionNegative | ErrCommissionHuge | ErrCommissionGTMaxRate | ErrCommissionChangeRateNegative
  | ErrCommissionChangeRateGTMaxRate | ErrCommissionGTMaxChangeRate | ErrCommissionUpdateTime
  | ErrDescriptionLength (field : string) (len max : nat)
  | ErrInvalidProxyUpdating | ErrInvalidAddress (a : option Address)
  | ErrInsufficientQuantity (got min : Dec) | ErrNoDelegationToAddShares (a : Address)
  | ErrInsufficientDelegation (got has : Dec) | ErrInvalidProxyWithdrawTotal (a : Address)
  | ErrNotInDelegating (a : Address) | ErrAddSharesToDismission (v : Address)
  | ErrNoDelegatorExisted (a : Address) | ErrNoValidatorFound (v : Address)
  | ErrNoMinSelfDelegation (v : Address) | ErrMoreMinSelfDelegation (v : Address)
  | ErrAlreadyAddedShares (a : Address) | ErrProxyNotFound (a : Address) | ErrDoubleProxy (a : Address)
  | ErrInvalidDelegation (a : Address) | ErrProxyAlreadyExist (a : Address) | ErrAlreadyBound (a : Address)
  | ErrEmptyValidators | ErrExceedValidatorAddrs (max : Z) | ErrAddSharesDuringProxy (a : Address) (p : option Address)
  | ErrBadDenom | ErrValidatorOwnerExists | ErrValidatorPubKeyExists | ErrValidatorPubKeyTypeNotSupported
  | ErrMinSelfDelegationInvalid | ErrDescriptionIsEmpty | ErrBadValidatorAddr | ErrTargetValsDuplicate
  | ErrNilDelegatorAddr | ErrNilValidatorAddr | ErrDelegatorEqualToProxyAddr | ErrBadDelegationAmount | ErrBadUnDelegationAmount
  | ErrSupply (code : N) | ErrWeight.

Module StakingTypes.

(** ** Validators *)

Definition NewCommissionRates (rate maxRate maxChangeRate : Dec) : CommissionRates :=
  mkCommissionRates rate maxRate maxChangeRate.
Definition NewCommission (rate maxRate maxChangeRate : Dec) : Commission :=
  mkCommission (NewCommissionRates rate maxRate maxChangeRate) 0.
Definition NewCommissionWithTime (rate maxRate maxChangeRate : Dec) (updatedAt : Time) : Commission :=
  mkCommission (NewCommissionRates rate maxRate maxChangeRate) updatedAt.

Definition Commission_Equal (c c2 : Commission) : bool :=
  (Rate (comm_rates c) =? Rate (comm_rates c2)) && (MaxRate (comm_rates c) =? MaxRate (comm_rates c2)) &&
  (MaxChangeRate (comm_rates c) =? MaxChangeRate (comm_rates c2)) && (UpdateTime c =? UpdateTime c2).

(** The cases of the switch, in order. *)
Definition Validate (c : CommissionRates) : option stk_error :=
  if MaxRate c <? 0 then Some ErrCommissionNegative
  else if OneDec <? MaxRate c then Some ErrCommissionHuge
  else if Rate c <? 0 then Some ErrCommissionNegative
  else if MaxRate c <? Rate c then Some ErrCommissionGTMaxRate
  else if MaxChangeRate c <? 0 then Some ErrCommissionChangeRateNegative
  else if MaxRate c <? MaxChangeRate c then Some ErrCommissionChangeRateGTMaxRate
  else None.

(** [DefaultValidateRateUpdateInterval] is a number of hours. *)
Definition ValidateNewRate (updateInterval : Z) (c : Commission) (newRate : Dec) (blockTime : Time) : option stk_error :=
  if blockTime - UpdateTime c <? updateInterval * 3600 * 10 ^ 9 then Some ErrCommissionUpdateTime
  else if newRate <? 0 then Some ErrCommissionNegative
  else if MaxRate (comm_rates c) <? newRate then Some ErrCommissionGTMaxRate
  else if MaxChangeRate (comm_rates c) <? newRate - Rate (comm_rates c) then Some ErrCommissionGTMaxChangeRate
  else None.

Definition NewValidator (operator : Address) (pubKey : bytes) (description : Description) (minSelfDelegation : Dec) : Validator :=
  mkValidator operator pubKey false Unbonded 0 0 description 0 0 (NewCommission 0 0 0) minSelfDelegation.

Definition SetInitialCommission (v : Validator) (commission : Commission) : Validator * option stk_error :=
  match Validate (comm_rates commission) with
  | Some err => (v, Some err)
  | None => (v <| val_Commission := commission |>, None)
  end.

Definition UpdateStatus (v : Validator) (newStatus : BondStatus) : Validator := v <| Status := newStatus |>.
Definition IsBonded (v : Validator) : bool := bool_decide (Status v = Bonded).
Definition IsUnbonded (v : Validator) : bool := bool_decide (Status v = Unbonded).
Definition IsUnbonding (v : Validator) : bool := bool_decide (Status v = Unbonding).

(** *** Descriptions *)
Definition MaxMonikerLength : nat := 70.
Definition MaxIdentityLength : nat := 3000.
Definition MaxWebsiteLength : nat := 140.
Definition MaxDetailsLength : nat := 280.
Definition DoNotModifyDesc : string := "[do-not-modify]".

Definition EnsureLength (d : Description) : Description * option stk_error :=
  if (MaxMonikerLength <? String.length (Moniker d))%nat
  then (d, Some (ErrDescriptionLength "moniker" (String.length (Moniker d)) MaxMonikerLength))
  else if (MaxIdentityLength <? String.length (Identity d))%nat
  then (d, Some (ErrDescriptionLength "identity" (String.length (Identity d)) MaxIdentityLength))
  else if (MaxWebsiteLength <? String.length (Website d))%nat
  then (d, Some (ErrDescriptionLength "website" (String.length (Website d)) MaxWebsiteLength))
  else if (MaxDetailsLength <? String.length (Details d))%nat
  then (d, Some (ErrDescriptionLength "details" (String.length (Details d)) MaxDetailsLength))
  else (d, None).

Definition keep_or (old new : string) : string := if decide (new = DoNotModifyDesc) then old else new.
Definition UpdateDescription (d d2 : Description) : Description * option stk_error :=
  EnsureLength (mkDescription (keep_or (Moniker d) (Moniker d2)) (keep_or (Identity d) (Identity d2))
    (keep_or (Website d) (Website d2)) (keep_or (Details d) (Details d2))).

(** ** Delegators *)

Definition NewDelegator (delAddr : Address) : Delegator := mkDelegator delAddr [] 0 0 false 0 None.
Definition UnbindProxy (d : Delegator) : Delegator := d <| ProxyAddress := None |>.
Definition RegProxy (d : Delegator) (reg : bool) : Delegator :=
  let d := d <| IsProxy := reg |> in if reg then UnbindProxy d else d.
Definition BindProxy (d : Delegator) (proxyAddr : Address) : Delegator :=
  d <| ProxyAddress := Some proxyAddr |> <| IsProxy := false |>.
Definition HasProxy (d : Delegator) : bool := bool_decide (ProxyAddress d ≠ None).

Definition NewUndelegationInfo (delAddr : Address) (quantity : Dec) (completionTime : Time) : UndelegationInfo :=
  mkUndelegation delAddr quantity completionTime.

(** ** Basic checks of messages

    An empty address is [None]; [IsValid] of a coin is [sdk]'s. *)
Section Messages.
Context (coin_IsValid : SysCoin -> bool).

Fixpoint isValsDuplicate_loop (filter : gset Address) (valAddrs : list Address) : bool :=
  match valAddrs with
  | [] => false
  | key :: rest =>
      if decide (key ∈ filter) then true else isValsDuplicate_loop ({[key]} ∪ filter) rest
  end.
Definition isValsDuplicate (valAddrs : list Address) : bool := isValsDuplicate_loop ∅ valAddrs.

Definition MsgAddShares_ValidateBasic (delAddr : option Address) (valAddrs : list Address) : option stk_error :=
  if decide (delAddr = None) then Some ErrNilDelegatorAddr
  else if decide (valAddrs = []) then Some ErrBadValidatorAddr
  else if isValsDuplicate valAddrs then Some ErrTargetValsDuplicate
  else None.

Definition MsgBindProxy_ValidateBasic (delAddr proxyAddress : option Address) : option stk_error :=
  if decide (delAddr = None) then Some ErrNilDelegatorAddr
  else if decide (proxyAddress = None) then Some ErrNilDelegatorAddr
  else if decide (delAddr = proxyAddress) then Some ErrDelegatorEqualToProxyAddr
  else None.

Definition MsgDeposit_ValidateBasic (delAddr : option Address) (amount : SysCoin) : option stk_error :=
  if decide (delAddr = None) then Some ErrNilDelegatorAddr
  else if (amount.2 <=? 0) || negb (coin_IsValid amount) then Some ErrBadDelegationAmount
  else None.

Definition MsgWithdraw_ValidateBasic (delAddr : option Address) (amount : SysCoin) : option stk_error :=
  if decide (delAddr = None) then Some ErrNilDelegatorAddr
  else if negb (coin_IsValid amount) then Some ErrBadUnDelegationAmount
  else None.

Definition MsgCreateValidator_ValidateBasic (delAddr valAddr : option Address) (msd : SysCoin) (d : Description) : option stk_error :=
  if decide (delAddr = None) then Some ErrNilDelegatorAddr
  else if decide (valAddr = None) then Some ErrNilValidatorAddr
  else if negb (bool_decide (valAddr = delAddr)) then Some ErrBadValidatorAddr
  else if (msd.2 <=? 0) || negb (coin_IsValid msd) || (msd.2 <? NewDec 500) then Some ErrMinSelfDelegationInvalid
  else if decide (d = mkDescription "" "" "" "") then Some ErrDescriptionIsEmpty
  else None.
End Messages.

(** ** Lemmas *)

Lemma isValsDuplicate_loop_spec l : forall seen,
  isValsDuplicate_loop seen l = false <-> NoDup l /\ (forall a, a ∈ l -> a ∉ seen).
Proof.
  induction l as [|a l IH]; intros seen; cbn [isValsDuplicate_loop].
  - split; [|done]. intros _. split; [constructor|]. intros a Ha. by apply elem_of_nil in Ha.
  - case_decide as Ha.
    + split; [done|]. intros [_ Hs]. by destruct (Hs a (list_elem_of_here a l)).
    + rewrite IH, NoDup_cons. set_solver.
Qed.

Lemma isValsDuplicate_spec l : isValsDuplicate l = false <-> NoDup l.
Proof. unfold isValsDuplicate. rewrite isValsDuplicate_loop_spec. set_solver. Qed.

Lemma HasProxy_true d : HasProxy d = true <-> exists p, ProxyAddress d = Some p.
Proof.
  unfold HasProxy. rewrite bool_decide_eq_true. destruct (ProxyAddress d); [|naive_solver].
  split; [by eexists|done].
Qed.
Lemma HasProxy_false d : HasProxy d = false <-> ProxyAddress d = None.
Proof. unfold HasProxy. rewrite bool_decide_eq_false. destruct (ProxyAddress d); naive_solver. Qed.

End StakingTypes.
