(* ===== verification/Effects.v ===== *)
(** Keeper methods: computations on a store that may fail or panic.

    A method of a keeper changes the store in place, and returns a value
    or an error; an error leaves the changes made so far (the caller of a
    message handler discards them, other callers do not).  [eff S E A] is
    that: the store, then either a value or an error, or a panic. *)
From S2P Require Import Prelude.

Definition eff (S E A : Type) : Type := S -> res (S * (A + E)).

Section Effects.
Context {S E : Type}.

#[global] Instance eff_ret : MRet (eff S E) := fun A a s => Ret (s, inl a).
#[global] Instance eff_bind : MBind (eff S E) := fun A B k m s =>
  match m s with
  | Ret (s', inl a) => k a s'
  | Ret (s', inr e) => Ret (s', inr e)
  | Panic p => Panic p
  end.

Definition gets {A} (f : S -> A) : eff S E A := fun s => Ret (s, inl (f s)).
Definition modify (f : S -> S) : eff S E unit := fun s => Ret (f s, inl tt).
Definition throw {A} (e : E) : eff S E A := fun s => Ret (s, inr e).
Definition panic {A} (p : gopanic) : eff S E A := fun s => Panic p.
(** A pure step that may panic, on the store. *)
Definition modify_res (f : S -> res S) : eff S E unit := fun s =>
  match f s with Ret s' => Ret (s', inl tt) | Panic p => Panic p end.
(** [if err := m(); err != nil { handle(err) }] *)
Definition catch {A} (m : eff S E A) (h : E -> eff S E A) : eff S E A := fun s =>
  match m s with
  | Ret (s', inr e) => h e s'
  | r => r
  end.
Definition when (b : bool) (m : eff S E unit) : eff S E unit := if b then m else mret tt.

(** A pure step whose [None] is a panic. *)
Definition or_panic {A} (p : gopanic) (o : option A) : eff S E A := match o with Some a => mret a | None => panic p end.

(** [for _, x := range l { f(x) }] *)
Fixpoint for_each {A} (l : list A) (f : A -> eff S E unit) : eff S E unit :=
  match l with
  | [] => mret tt
  | x :: l' => _ ← f x; for_each l' f
  end.

(** The computation succeeds from [s] with value [a] and store [s']. *)
Definition runs {A} (m : eff S E A) (s : S) (a : A) (s' : S) : Prop := m s = Ret (s', inl a).

Lemma runs_ret {A} (a b : A) s s' : runs (mret a) s b s' <-> b = a /\ s' = s.
Proof. unfold runs, mret, eff_ret. naive_solver. Qed.
Lemma runs_bind {A B} (m : eff S E A) (k : A -> eff S E B) s b s' :
  runs (m ≫= k) s b s' <-> exists a s1, runs m s a s1 /\ runs (k a) s1 b s'.
Proof.
  unfold runs, mbind, eff_bind. destruct (m s) as [[s1 [a|e]]|p].
  - split; [by eexists _, _|]. intros (a' & s1' & [= -> ->] & Hk). done.
  - naive_solver.
  - naive_solver.
Qed.
Lemma runs_gets {A} (f : S -> A) s a s' : runs (gets f) s a s' <-> a = f s /\ s' = s.
Proof. unfold runs, gets. naive_solver. Qed.
Lemma runs_modify f s u s' : runs (modify f) s u s' <-> s' = f s.
Proof. unfold runs, modify. destruct u. naive_solver. Qed.
Lemma runs_throw {A} (e : E) s (a : A) s' : runs (throw e) s a s' <-> False.
Proof. unfold runs, throw. naive_solver. Qed.
Lemma runs_panic {A} p s (a : A) s' : runs (panic p) s a s' <-> False.
Proof. unfold runs, panic. naive_solver. Qed.
Lemma runs_modify_res f s u s' : runs (modify_res f) s u s' <-> f s = Ret s'.
Proof. unfold runs, modify_res. destruct u, (f s); naive_solver. Qed.
Lemma runs_or_panic {A} p (o : option A) s a s' : runs (or_panic p o) s a s' <-> o = Some a /\ s' = s.
Proof. destruct o; simpl; [rewrite runs_ret|rewrite runs_panic]; naive_solver. Qed.
Lemma runs_when b m s u s' : runs (when b m) s u s' <-> (if b then runs m s u s' else s' = s).
Proof. destruct b; [done|]. simpl. rewrite runs_ret. destruct u. naive_solver. Qed.

(** A loop that only updates the state runs to the fold of its updates. *)
Lemma runs_for_each_modify {A} (f : A -> S -> S) l : forall s u s',
  runs (for_each l (fun x => modify (f x))) s u s' <-> s' = foldl (fun s x => f x s) s l.
Proof.
  induction l as [|x l IH]; intros s u s'; cbn [for_each foldl].
  - rewrite runs_ret. destruct u. naive_solver.
  - rewrite runs_bind. split.
    + intros ([] & s1 & Hx & Hr). apply runs_modify in Hx as ->. by apply IH in Hr.
    + intros ->. exists tt, (f x s). split; [by apply runs_modify|]. by apply IH.
Qed.

(** An invariant of the body is an invariant of the loop. *)
Lemma runs_for_each {A} (P : S -> Prop) (l : list A) (f : A -> eff S E unit) s u s' :
  runs (for_each l f) s u s' -> P s ->
  (forall x s1 s2, x ∈ l -> P s1 -> runs (f x) s1 tt s2 -> P s2) -> P s'.
Proof.
  revert s; induction l as [|x l IH]; intros s Hr HP Hf; simpl in Hr.
  - by apply runs_ret in Hr as [_ ->].
  - apply runs_bind in Hr as ([] & s1 & Hx & Hr).
    eapply IH; [exact Hr|eapply Hf; [apply list_elem_of_here|exact HP|exact Hx]|].
    intros y s2 s3 Hy. apply Hf. by apply list_elem_of_further.
Qed.

(** A loop that ran ran its body on every element. *)
Lemma runs_for_each_body {A} (l : list A) (f : A -> eff S E unit) x s u s' :
  runs (for_each l f) s u s' -> x ∈ l -> exists s1 s2, runs (f x) s1 tt s2.
Proof.
  revert s; induction l as [|y l IH]; intros s Hr Hx; [by apply elem_of_nil in Hx|]. cbn [for_each] in Hr.
  apply runs_bind in Hr as ([] & s1 & Hy & Hr). apply elem_of_cons in Hx as [->|Hx]; [by exists s, s1|].
  by apply (IH s1).
Qed.

(** The computation ends in the error [e], with the changes made so far. *)
Definition fails {A} (m : eff S E A) (s : S) (e : E) (s' : S) : Prop := m s = Ret (s', inr e).

Lemma runs_step {A B} (m : eff S E A) (k : A -> eff S E B) s a s1 b s' :
  runs m s a s1 -> runs (k a) s1 b s' -> runs (m ≫= k) s b s'.
Proof. intros Hm Hk. apply runs_bind. by exists a, s1. Qed.
Lemma fails_bind {A B} (m : eff S E A) (k : A -> eff S E B) s e s' :
  fails (m ≫= k) s e s' <-> fails m s e s' \/ exists a s1, runs m s a s1 /\ fails (k a) s1 e s'.
Proof.
  unfold fails, runs, mbind, eff_bind. destruct (m s) as [[s1 [a|e']]|p]; [|naive_solver..].
  split; [by right; exists a, s1|]. intros [[=]|(a' & s1' & [= -> ->] & Hk)]. done.
Qed.
Lemma runs_catch_ok {A} (m : eff S E A) h s (a : A) s' : runs m s a s' -> runs (catch m h) s a s'.
Proof. unfold runs, catch. by intros ->. Qed.
Lemma runs_catch_inv {A} (m : eff S E A) h s a s' : runs (catch m h) s a s' ->
  runs m s a s' \/ exists e s1, fails m s e s1 /\ runs (h e) s1 a s'.
Proof.
  unfold runs, fails, catch. destruct (m s) as [[s1 [x|e]]|p]; [by left| |done]. right. by exists e, s1.
Qed.

(** ** Computations that end well

    [ends hp m s Q]: the computation returns no error, panics only with a
    value [hp] allows, and otherwise its value and store satisfy [Q]. *)
Definition ends (hp : gopanic -> Prop) {A} (m : eff S E A) (s : S) (Q : A -> S -> Prop) : Prop :=
  match m s with
  | Ret (s', inl a) => Q a s'
  | Ret (_, inr _) => False
  | Panic p => hp p
  end.

Section Ends.
Context (hp : gopanic -> Prop).

Lemma ends_runs {A} (m : eff S E A) s a s' Q : ends hp m s Q -> runs m s a s' -> Q a s'.
Proof. unfold ends, runs. intros Hm Hr. by rewrite Hr in Hm. Qed.
Lemma ends_intro {A} (m : eff S E A) s a s' (Q : A -> S -> Prop) : runs m s a s' -> Q a s' -> ends hp m s Q.
Proof. unfold ends, runs. by intros ->. Qed.
Lemma ends_mono {A} (m : eff S E A) s (Q Q' : A -> S -> Prop) :
  ends hp m s Q -> (forall a s', Q a s' -> Q' a s') -> ends hp m s Q'.
Proof. unfold ends. destruct (m s) as [[s' [a|e]]|p]; auto. Qed.
(** What holds of every run holds at the end. *)
Lemma ends_also {A} (m : eff S E A) s (Q R : A -> S -> Prop) :
  ends hp m s Q -> (forall a s', runs m s a s' -> R a s') -> ends hp m s (fun a s' => Q a s' /\ R a s').
Proof. unfold ends, runs. destruct (m s) as [[s' [a|e]]|p]; auto. Qed.
Lemma ends_bind {A B} (m : eff S E A) (k : A -> eff S E B) s Q :
  ends hp m s (fun a s1 => ends hp (k a) s1 Q) -> ends hp (m ≫= k) s Q.
Proof. unfold ends, mbind, eff_bind. by destruct (m s) as [[s' [a|e]]|p]. Qed.
(** A step whose result is known. *)
Lemma ends_step {A B} (m : eff S E A) (k : A -> eff S E B) s a s1 Q :
  runs m s a s1 -> ends hp (k a) s1 Q -> ends hp (m ≫= k) s Q.
Proof. intros Hm Hk. apply ends_bind. by apply (ends_intro m s a s1). Qed.
Lemma ends_modify {B} f (k : unit -> eff S E B) s Q : ends hp (k tt) (f s) Q -> ends hp (modify f ≫= k) s Q.
Proof. intros Hk. by apply ends_bind. Qed.
Lemma ends_gets {A B} (f : S -> A) (k : A -> eff S E B) s Q : ends hp (k (f s)) s Q -> ends hp (gets f ≫= k) s Q.
Proof. intros Hk. by apply ends_bind. Qed.
Lemma ends_ret {A} (a : A) s (Q : A -> S -> Prop) : Q a s -> ends hp (mret a) s Q.
Proof. done. Qed.
Lemma ends_modify_res f s (Q : unit -> S -> Prop) :
  match f s with Ret s' => Q tt s' | Panic p => hp p end -> ends hp (modify_res f) s Q.
Proof. unfold ends, modify_res. by destruct (f s). Qed.

(** A loop: [P] holds with the elements that are left. *)
Lemma ends_for_each {A} (P : list A -> S -> Prop) (f : A -> eff S E unit) :
  (forall x l s, P (x :: l) s -> ends hp (f x) s (fun _ s' => P l s')) ->
  forall l s, P l s -> ends hp (for_each l f) s (fun _ s' => P [] s').
Proof.
  intros Hf. induction l as [|x l IH]; intros s HP; [exact HP|]. cbn [for_each]. apply ends_bind.
  apply (ends_mono _ _ _ _ (Hf x l s HP)). intros _ s' HP'. by apply IH.
Qed.
End Ends.

(** ** Computations that keep a property of the store, whatever they return *)
Definition keeps (P : S -> Prop) {A} (m : eff S E A) : Prop := forall s s' r, m s = Ret (s', r) -> P s -> P s'.

Section Keeps.
Context (P : S -> Prop).

Lemma keeps_runs {A} (m : eff S E A) s a s' : keeps P m -> runs m s a s' -> P s -> P s'.
Proof. intros Hm. apply Hm. Qed.
Lemma keeps_ret {A} (a : A) : keeps P (mret a).
Proof. by intros s s' r [= <- _]. Qed.
Lemma keeps_throw {A} e : keeps P (@throw A e).
Proof. by intros s s' r [= <- _]. Qed.
Lemma keeps_panic {A} p : keeps P (@panic A p).
Proof. done. Qed.
Lemma keeps_gets {A} (f : S -> A) : keeps P (gets f).
Proof. by intros s s' r [= <- _]. Qed.
(** What the property says of a value read goes on to the rest. *)
Lemma keeps_read {A B} (Q : A -> Prop) (f : S -> A) (k : A -> eff S E B) :
  (forall s, P s -> Q (f s)) -> (forall a, Q a -> keeps P (k a)) -> keeps P (gets f ≫= k).
Proof. intros Hf Hk s s' r Hr HP. exact (Hk (f s) (Hf s HP) s s' r Hr HP). Qed.
Lemma keeps_for_each_in {A} (l : list A) f : (forall x, x ∈ l -> keeps P (f x)) -> keeps P (for_each l f).
Proof.
  induction l as [|x l IH]; intros Hf; [by intros s s' r [= <- _]|]. cbn [for_each]. intros s s' r. unfold mbind, eff_bind.
  pose proof (Hf x (list_elem_of_here _ _)) as Hx. destruct (f x s) as [[s1 [a|e]]|p] eqn:Hs; [| |done].
  - intros Hr HP. apply (IH (fun y Hy => Hf y (list_elem_of_further _ _ _ Hy)) _ _ _ Hr). by apply (Hx _ _ _ Hs).
  - intros [= <- _]. by apply (Hx _ _ _ Hs).
Qed.
Lemma keeps_modify f : (forall s, P s -> P (f s)) -> keeps P (modify f).
Proof. intros Hf s s' r [= <- _]. apply Hf. Qed.
Lemma keeps_modify_res f : (forall s s', f s = Ret s' -> P s -> P s') -> keeps P (modify_res f).
Proof. intros Hf s s' r. unfold modify_res. destruct (f s) as [s1|] eqn:Hs; [|done]. intros [= <- _]. by apply Hf. Qed.
Lemma keeps_bind {A B} (m : eff S E A) (k : A -> eff S E B) : keeps P m -> (forall a, keeps P (k a)) -> keeps P (m ≫= k).
Proof.
  intros Hm Hk s s' r. unfold mbind, eff_bind. destruct (m s) as [[s1 [a|e]]|p] eqn:Hs; [| |done].
  - intros Hr HP. apply (Hk a _ _ _ Hr). by apply (Hm _ _ _ Hs).
  - intros [= <- _]. by apply (Hm _ _ _ Hs).
Qed.
Lemma keeps_catch {A} (m : eff S E A) h : keeps P m -> (forall e, keeps P (h e)) -> keeps P (catch m h).
Proof.
  intros Hm Hh s s' r. unfold catch. destruct (m s) as [[s1 [a|e]]|p] eqn:Hs; [| |done].
  - intros [= <- _]. by apply (Hm _ _ _ Hs).
  - intros Hr HP. apply (Hh e _ _ _ Hr). by apply (Hm _ _ _ Hs).
Qed.
Lemma keeps_when b m : keeps P m -> keeps P (when b m).
Proof. destruct b; [done|]. intros _. apply keeps_ret. Qed.
Lemma keeps_for_each {A} (l : list A) f : (forall x, keeps P (f x)) -> keeps P (for_each l f).
Proof. intros Hf. induction l as [|x l IH]; [apply keeps_ret|]. cbn [for_each]. by apply keeps_bind. Qed.
End Keeps.

End Effects.

(** [keeps] of a composed computation, up to its pure steps. *)
Ltac keeps_step :=
  lazymatch goal with
  | |- keeps _ (mret _) => apply keeps_ret
  | |- keeps _ (throw _) => apply keeps_throw
  | |- keeps _ (panic _) => apply keeps_panic
  | |- keeps _ (gets _) => apply keeps_gets
  | |- keeps _ (modify _) => apply keeps_modify
  | |- keeps _ (modify_res _) => apply keeps_modify_res
  | |- keeps _ (_ ≫= _) => apply keeps_bind; [|intros ?]
  | |- keeps _ (catch _ _) => apply keeps_catch; [|intros ?]
  | |- keeps _ (when _ _) => apply keeps_when
  | |- keeps _ (for_each _ _) => apply keeps_for_each; intros ?
  | |- keeps _ (match ?x with _ => _ end) => destruct x
  | |- keeps _ _ => first [assumption | progress cbn beta zeta]
  end.
Ltac keeps_with tac := repeat first [progress tac | keeps_step].

(** Replace the variable on the left of an equation. *)
Ltac subst_left Heq := match type of Heq with ?x = _ => first [subst x | idtac] end.

(** Break a successful run of straight-line code into its steps. *)
Ltac run_inv H :=
  lazymatch type of H with
  | runs (_ ≫= _) _ _ _ =>
      let a := fresh "x" in let s1 := fresh "s" in let H1 := fresh H in
      apply runs_bind in H as (a & s1 & H1 & H); cbv beta in H; run_inv H1; try run_inv H
  | runs (mret _) _ _ _ =>
      let Ha := fresh in let Hs := fresh in apply runs_ret in H as [Ha Hs]; subst_left Ha; subst_left Hs
  | runs (gets _) _ _ _ =>
      let Ha := fresh in let Hs := fresh in apply runs_gets in H as [Ha Hs]; subst_left Ha; subst_left Hs
  | runs (modify _) _ _ _ => apply runs_modify in H; subst_left H
  | runs (throw _) _ _ _ => exfalso; exact (proj1 (runs_throw _ _ _ _) H)
  | runs (panic _) _ _ _ => exfalso; exact (proj1 (runs_panic _ _ _ _) H)
  | runs (modify_res _) _ _ _ => apply runs_modify_res in H
  | runs (or_panic _ _) _ _ _ =>
      let Ha := fresh H in let Hs := fresh in apply runs_or_panic in H as [Ha Hs]; subst_left Hs
  | runs (when _ _) _ _ _ => apply runs_when in H
  | _ => idtac
  end.
