(* ===== verification/StakingKeys.v ===== *)
(** Store keys of the staking module (staking/types/keys.go).

    One byte of prefix tells the tables apart; within a table a key
    determines its addresses.  The key of the power index sorts validators
    by power, and the lower operator address first among equals when the
    index is read backwards. *)
From S2P Require Import Prelude.
From S2P Require Import Interfaces.
From S2P Require Import StakingTypes.
Local Open Scope Z_scope.

(** [sdk.Dec] and [sdk.Int] operations, the constants of the SDK and the
    address of a consensus key that the module relies on. *)
Class StakingSdk := {
  Dec_Mul : Dec -> Dec -> Dec;
  (** [sdk.NewDecFromStr] of a number printed with 18 decimals, given by its digits *)
  NewDecFromStr : Z -> option Dec;
  QuoInt : Dec -> Z -> Dec;
  Dec_Int64 : Dec -> Z;
  PowerReduction : Z;
  DefaultLevelUpBlockHeight : Z;
  DefaultLevelUpUnbondingTime : Z;
  PubKey_Address : bytes -> Address;
  FormatTimeBytes : Time -> bytes;
  ParseTimeBytes : bytes -> option Time;
  lenTime : nat;
}.
(** Times that can be formatted. *)
Definition time_ok (t : Time) : Prop := 0 <= t < 2 ^ 64.
Class StakingSdkLaws `{StakingSdk} := {
  Dec_Mul_neg_one x : Dec_Mul x (NewDec (-1)) = - x;
  length_FormatTimeBytes t : length (FormatTimeBytes t) = lenTime;
  ParseTimeBytes_Format t : time_ok t -> ParseTimeBytes (FormatTimeBytes t) = Some t;
  FormatTimeBytes_lt t u : time_ok t -> time_ok u ->
    bytes_lt (FormatTimeBytes t) (FormatTimeBytes u) = (t <? u);
}.

Module StakingKeys.
Section Keys.
Context `{StakingSdk}.

Definition LastValidatorPowerKey : bytes := [Byte.x11].
Definition LastTotalPowerKey : bytes := [Byte.x12].
Definition ValidatorsKey : bytes := [Byte.x21].
Definition ValidatorsByConsAddrKey : bytes := [Byte.x22].
Definition ValidatorsByPowerIndexKey : bytes := [Byte.x23].
Definition ValidatorQueueKey : bytes := [Byte.x43].
Definition SharesKey : bytes := [Byte.x51].
Definition DelegatorKey : bytes := [Byte.x52].
Definition UnDelegationInfoKey : bytes := [Byte.x53].
Definition UnDelegateQueueKey : bytes := [Byte.x54].
Definition ProxyKey : bytes := [Byte.x55].
Definition ValidatorAbandonedKey : bytes := [Byte.x60].

Definition GetValidatorKey (operatorAddr : Address) : bytes := ValidatorsKey ++ Address_Bytes operatorAddr.
Definition GetValidatorByConsAddrKey (addr : Address) : bytes := ValidatorsByConsAddrKey ++ Address_Bytes addr.
Definition AddressFromLastValidatorPowerKey (key : bytes) : bytes := drop 1 key.
Definition GetLastValidatorPowerKey (operator : Address) : bytes := LastValidatorPowerKey ++ Address_Bytes operator.
Definition GetValidatorQueueTimeKey (timestamp : Time) : bytes := ValidatorQueueKey ++ FormatTimeBytes timestamp.

Definition sharesToConsensusPower (shares : Dec) : Z := Dec_Int64 (QuoInt shares PowerReduction).

Definition invert_byte (b : byte) : byte := byte_of_Z (Z.lxor (Z_of_byte b) 255).
Definition getValidatorPowerRank (validator : Validator) : bytes :=
  let consensusPower := sharesToConsensusPower (DelegatorShares validator) in
  let consensusPowerBytes := be_bytes 8 (u64 consensusPower) in
  ValidatorsByPowerIndexKey ++ consensusPowerBytes ++ map invert_byte (Address_Bytes (OperatorAddress validator)).
Definition GetValidatorsByPowerIndexKey (validator : Validator) : bytes := getValidatorPowerRank validator.

Definition GetDelegatorKey (delAddr : Address) : bytes := DelegatorKey ++ Address_Bytes delAddr.
Definition GetProxyDelegatorKey (proxyAddr delAddr : bytes) : bytes := (ProxyKey ++ proxyAddr) ++ delAddr.
Definition GetSharesToValidatorsKey (valAddr : Address) : bytes := SharesKey ++ Address_Bytes valAddr.
Definition GetSharesKey (valAddr delAddr : Address) : bytes := GetSharesToValidatorsKey valAddr ++ Address_Bytes delAddr.
Definition GetUndelegationInfoKey (delAddr : Address) : bytes := UnDelegationInfoKey ++ Address_Bytes delAddr.
Definition GetCompleteTimeKey (timestamp : Time) : bytes := UnDelegateQueueKey ++ FormatTimeBytes timestamp.
Definition GetCompleteTimeWithAddrKey (timestamp : Time) (delAddr : Address) : bytes :=
  GetCompleteTimeKey timestamp ++ Address_Bytes delAddr.

Definition SplitCompleteTimeWithAddrKey (key : bytes) : res (Time * Address) :=
  if negb (length (drop 1 key) =? lenTime + 20)%nat then Panic (PanicMsg "unexpected key length")
  else
    match ParseTimeBytes (take lenTime (drop 1 key)) with
    | None => Panic (PanicMsg "ParseTimeBytes")
    | Some endTime => Ret (endTime, BytesToAddress (drop (1 + lenTime) key))
    end.

Context `{!StakingSdkLaws}.

(** ** Inverted bytes sort the other way round *)

Lemma Z_of_invert_byte b : Z_of_byte (invert_byte b) = 255 - Z_of_byte b.
Proof. unfold invert_byte. destruct b; reflexivity. Qed.

Lemma be_value_invert l : be_value (map invert_byte l) = 256 ^ Z.of_nat (length l) - 1 - be_value l.
Proof.
  induction l as [|b l IH]; [done|]. cbn [map be_value length].
  rewrite IH, Z_of_invert_byte, length_map, Nat2Z.inj_succ, Z.pow_succ_r by lia. lia.
Qed.

Lemma be_value_app l k : be_value (l ++ k) = be_value l * 256 ^ Z.of_nat (length k) + be_value k.
Proof.
  induction l as [|b l IH]; [done|]. cbn [app be_value]. rewrite IH, length_app, Nat2Z.inj_add, Z.pow_add_r by lia.
  lia.
Qed.

Lemma bytes_lt_prefix p l k : bytes_lt (p ++ l) (p ++ k) = bytes_lt l k.
Proof.
  induction p as [|b p IH]; [done|]. cbn [app bytes_lt]. by rewrite Z.ltb_irrefl, Z.eqb_refl, IH.
Qed.

Lemma be_value_Address a : address_ok a -> be_value (Address_Bytes a) = Z.of_N a.
Proof.
  unfold address_ok, Address_Bytes. intros Ha. rewrite be_value_be_bytes. apply Z.mod_small.
  change (256 ^ Z.of_nat 20) with (Z.of_N (2 ^ 160)). lia.
Qed.

Lemma BytesToAddress_Bytes a : address_ok a -> BytesToAddress (Address_Bytes a) = a.
Proof.
  intros Ha. unfold BytesToAddress. rewrite be_value_Address by done.
  unfold address_ok in Ha. rewrite Z.mod_small; [lia|].
  change (2 ^ 160) with (Z.of_N (2 ^ 160)). lia.
Qed.

(** The keys of the power index sort by voting power, and for equal
    powers by descending operator address: read backwards, the index lists
    the strongest validator first and the lowest address among equals.
    Distinct validators never share a key. *)
Theorem power_index_order v w : address_ok (OperatorAddress v) -> address_ok (OperatorAddress w) ->
  let p x := u64 (sharesToConsensusPower (DelegatorShares x)) in
  (bytes_lt (GetValidatorsByPowerIndexKey v) (GetValidatorsByPowerIndexKey w) = true <->
     p v < p w \/ (p v = p w /\ (OperatorAddress w < OperatorAddress v)%N)) /\
  (GetValidatorsByPowerIndexKey v = GetValidatorsByPowerIndexKey w <->
     p v = p w /\ OperatorAddress v = OperatorAddress w).
Proof.
  intros Hv Hw p. unfold GetValidatorsByPowerIndexKey, getValidatorPowerRank.
  fold (p v) (p w). rewrite bytes_lt_prefix.
  pose proof (u64_range (sharesToConsensusPower (DelegatorShares v))) as Hpv.
  pose proof (u64_range (sharesToConsensusPower (DelegatorShares w))) as Hpw.
  fold (p v) in Hpv. fold (p w) in Hpw.
  assert (forall x, length (map invert_byte (Address_Bytes x)) = 20%nat) as Hlen
    by (intros; by rewrite length_map, length_Address_Bytes).
  assert (forall x q, 0 <= q < u64_modulus -> address_ok x ->
    be_value (be_bytes 8 q ++ map invert_byte (Address_Bytes x)) = q * 256 ^ 20 + (256 ^ 20 - 1 - Z.of_N x)) as Hval.
  { intros x q Hq Hx. rewrite be_value_app, Hlen, be_value_invert, be_value_be_bytes, length_Address_Bytes.
    rewrite be_value_Address by done. rewrite Z.mod_small; [done|].
    change (256 ^ Z.of_nat 8) with u64_modulus. lia. }
  assert (forall x, address_ok x -> 0 <= Z.of_N x < 256 ^ 20) as Hb.
  { unfold address_ok. intros x Hx. change (256 ^ 20) with (Z.of_N (2 ^ 160)). lia. }
  pose proof (Hb _ Hv). pose proof (Hb _ Hw).
  assert (length (be_bytes 8 (p v) ++ map invert_byte (Address_Bytes (OperatorAddress v))) =
    length (be_bytes 8 (p w) ++ map invert_byte (Address_Bytes (OperatorAddress w)))) as Hll
    by (by rewrite !length_app, !Hlen, !length_be_bytes).
  split.
  - rewrite bytes_lt_be by done. rewrite !Hval by done. rewrite Z.ltb_lt. nia.
  - split; [|by intros [-> ->]]. intros Heq%(inj (app _)).
    apply (f_equal be_value) in Heq. rewrite !Hval in Heq by done.
    split; [nia|]. apply N2Z.inj. nia.
Qed.

(** The key of the undelegation queue is split into the time and
    the address it was built from. *)
Theorem SplitCompleteTimeWithAddrKey_spec t a : time_ok t -> address_ok a ->
  SplitCompleteTimeWithAddrKey (GetCompleteTimeWithAddrKey t a) = Ret (t, a).
Proof.
  intros Ht Ha. unfold SplitCompleteTimeWithAddrKey, GetCompleteTimeWithAddrKey, GetCompleteTimeKey, UnDelegateQueueKey.
  rewrite <- app_assoc. cbn [app drop Nat.add]. rewrite drop_0.
  rewrite length_app, length_FormatTimeBytes, length_Address_Bytes, Nat.eqb_refl. cbn [negb].
  rewrite take_app_length' by (by rewrite length_FormatTimeBytes). rewrite ParseTimeBytes_Format by done.
  rewrite drop_app_length' by (by rewrite length_FormatTimeBytes).
  by rewrite BytesToAddress_Bytes.
Qed.

Lemma prefix_key_inj p a b : address_ok a -> address_ok b ->
  p ++ Address_Bytes a = p ++ Address_Bytes b -> a = b.
Proof. intros Ha Hb Heq%(inj (app _)). by apply Address_Bytes_inj. Qed.

(** The tables of the store: prefix and the arguments of a key. *)
Inductive table_key :=
  | KValidator (a : Address) | KByConsAddr (a : Address) | KLastPower (a : Address) | KQueueTime (t : Time)
  | KShares (v d : Address) | KDelegator (a : Address) | KUndelegation (a : Address)
  | KCompleteTime (t : Time) (a : Address) | KProxy (p d : Address) | KAbandoned | KTotalPower.
Definition store_key (k : table_key) : bytes :=
  match k with
  | KValidator a => GetValidatorKey a
  | KByConsAddr a => GetValidatorByConsAddrKey a
  | KLastPower a => GetLastValidatorPowerKey a
  | KQueueTime t => GetValidatorQueueTimeKey t
  | KShares v d => GetSharesKey v d
  | KDelegator a => GetDelegatorKey a
  | KUndelegation a => GetUndelegationInfoKey a
  | KCompleteTime t a => GetCompleteTimeWithAddrKey t a
  | KProxy p d => GetProxyDelegatorKey (Address_Bytes p) (Address_Bytes d)
  | KAbandoned => ValidatorAbandonedKey
  | KTotalPower => LastTotalPowerKey
  end.
Definition key_ok (k : table_key) : Prop :=
  match k with
  | KValidator a | KByConsAddr a | KLastPower a | KDelegator a | KUndelegation a => address_ok a
  | KCompleteTime t a => time_ok t /\ address_ok a
  | KQueueTime t => time_ok t
  | KShares a b | KProxy a b => address_ok a /\ address_ok b
  | _ => True
  end.

Lemma two_addresses_inj a b c d : address_ok a -> address_ok b -> address_ok c -> address_ok d ->
  Address_Bytes a ++ Address_Bytes b = Address_Bytes c ++ Address_Bytes d -> a = c /\ b = d.
Proof.
  intros. apply app_inj_1 in H5 as [H6 H7]; [|by rewrite !length_Address_Bytes].
  split; by apply Address_Bytes_inj.
Qed.

Lemma FormatTimeBytes_inj t u : time_ok t -> time_ok u -> FormatTimeBytes t = FormatTimeBytes u -> t = u.
Proof.
  intros Ht Hu Heq. apply (f_equal ParseTimeBytes) in Heq. rewrite !ParseTimeBytes_Format in Heq by done. congruence.
Qed.

(** Keys of different tables differ, and within a table the key
    determines its addresses and time: the tables of the module never
    overwrite one another. *)
Theorem store_key_inj k k' : key_ok k -> key_ok k' -> store_key k = store_key k' -> k = k'.
Proof.
  intros Hk Hk' Heq. destruct k, k'; simpl in Hk, Hk'; split_conjs;
    unfold store_key, GetValidatorKey, GetValidatorByConsAddrKey, GetLastValidatorPowerKey, GetValidatorQueueTimeKey,
      GetSharesKey, GetSharesToValidatorsKey, GetDelegatorKey, GetUndelegationInfoKey, GetCompleteTimeWithAddrKey,
      GetCompleteTimeKey, GetProxyDelegatorKey in Heq;
    try (apply (f_equal (take 1)) in Heq; discriminate Heq);
    try done; rewrite <- ?app_assoc in Heq; f_equal;
    first [by apply prefix_key_inj in Heq
          | apply (inj (app _)) in Heq; first
            [by apply FormatTimeBytes_inj
            |by apply two_addresses_inj in Heq as [? ?]
            |apply app_inj_1 in Heq as [Hti Ha]; [|by rewrite !length_FormatTimeBytes];
             first [by apply FormatTimeBytes_inj | by apply Address_Bytes_inj]]].
Qed.

End Keys.
End StakingKeys.
