(* ===== verification/StakingState.v ===== *)
(** The state of the staking module and its store operations.

    Each table of the store is a finite map ([StakingKeys.v] shows that the
    keys of different tables and entries never collide).  The supply keeper
    and the hooks other modules registered act on the world outside the
    module. *)
From S2P Require Import Prelude.
From S2P Require Import Interfaces.
From S2P Require Import Effects.
From S2P Require Import StakingTypes.
From S2P Require Import StakingKeys.
From stdpp Require Import sorting.
Local Open Scope Z_scope.

Definition BondedPoolName : string := "bonded_tokens_pool".
Definition NotBondedPoolName : string := "not_bonded_tokens_pool".

(** ** The supply keeper (x/supply)

    [None] is an error.  Balances are observed through [GetModuleAccount]
    and the accounts. *)
Class SupplyKeeper (W : Type) := {
  DelegateCoinsFromAccountToModule : W -> Address -> string -> list SysCoin -> option W;
  UndelegateCoinsFromModuleToAccount : W -> string -> Address -> list SysCoin -> option W;
  SendCoinsFromModuleToModule : W -> string -> string -> list SysCoin -> option W;
  pool_balance : W -> string -> Denom -> Dec;
  account_balance : W -> Address -> Denom -> Dec;
}.

(** What moves when a transfer of one coin succeeds, and when it does. *)
Class SupplyKeeperLaws (W : Type) `{SupplyKeeper W} := {
  DelegateCoins_ok w a pool d x w' : DelegateCoinsFromAccountToModule w a pool [(d, x)] = Some w' ->
    (forall q d', pool_balance w' q d' = pool_balance w q d' + if decide (q = pool /\ d' = d) then x else 0) /\
    (forall b d', account_balance w' b d' = account_balance w b d' - if decide (b = a /\ d' = d) then x else 0);
  UndelegateCoins_ok w a pool d x w' : UndelegateCoinsFromModuleToAccount w pool a [(d, x)] = Some w' ->
    (forall q d', pool_balance w' q d' = pool_balance w q d' - if decide (q = pool /\ d' = d) then x else 0) /\
    (forall b d', account_balance w' b d' = account_balance w b d' + if decide (b = a /\ d' = d) then x else 0);
  SendCoins_ok w p q d x w' : SendCoinsFromModuleToModule w p q [(d, x)] = Some w' -> p ≠ q ->
    (forall r d', pool_balance w' r d' = pool_balance w r d'
       + (if decide (r = q /\ d' = d) then x else 0) - (if decide (r = p /\ d' = d) then x else 0)) /\
    (forall b d', account_balance w' b d' = account_balance w b d');
  UndelegateCoins_enough w a pool d x : 0 < x <= pool_balance w pool d ->
    is_Some (UndelegateCoinsFromModuleToAccount w pool a [(d, x)]);
}.

(** ** Hooks of other modules ([types.StakingHooks]); nil hooks do nothing *)
Class StakingHooks (W : Type) := {
  hook_AfterValidatorCreated : W -> Address -> res W;
  hook_AfterValidatorRemoved : W -> Address -> Address -> res W;
  hook_AfterValidatorBonded : W -> Address -> Address -> res W;
  hook_AfterValidatorBeginUnbonding : W -> Address -> Address -> res W;
  hook_AfterValidatorDestroyed : W -> Address -> Address -> res W;
}.
(** Hooks leave the two pools of this module alone. *)
Definition keeps_pools `{SupplyKeeper W} (w w' : W) : Prop :=
  forall d, pool_balance w' BondedPoolName d = pool_balance w BondedPoolName d /\
            pool_balance w' NotBondedPoolName d = pool_balance w NotBondedPoolName d.
Class StakingHooksLaws (W : Type) `{SupplyKeeper W, StakingHooks W} := {
  AfterValidatorCreated_pools w v w' : hook_AfterValidatorCreated w v = Ret w' -> keeps_pools w w';
  AfterValidatorRemoved_pools w c v w' : hook_AfterValidatorRemoved w c v = Ret w' -> keeps_pools w w';
  AfterValidatorBonded_pools w c v w' : hook_AfterValidatorBonded w c v = Ret w' -> keeps_pools w w';
  AfterValidatorBeginUnbonding_pools w c v w' :
    hook_AfterValidatorBeginUnbonding w c v = Ret w' -> keeps_pools w w';
  AfterValidatorDestroyed_pools w c v w' : hook_AfterValidatorDestroyed w c v = Ret w' -> keeps_pools w w';
}.

(** ** Parameters, block and state *)
Record StakingParams := mkStakingParams {
  p_UnbondingTime : Z; p_MaxValidators : Z; p_Epoch : Z; p_MaxValsToAddShares : Z;
  p_MinDelegation : Dec; p_MinSelfDelegation : Dec;
}.
Record Block := mkBlock { Height : Z; BlockTime : Time }.

Record Stk {W : Type} := mkStk {
  validators : gmap Address Validator;
  byConsAddr : gmap Address Address;
  powerIndex : gmap bytes Address;
  lastPowers : gmap Address Z;
  lastTotalPower : Z;
  validatorQueue : gmap Time (list Address);
  shares : gmap (Address * Address) Dec;          (* validator, delegator *)
  delegators : gmap Address Delegator;
  undelegations : gmap Address UndelegationInfo;
  undelegateQueue : gset (Time * Address);
  proxies : gset (Address * Address);             (* proxy, delegator *)
  abandoned : list Address;
  epoch : option Z;
  endOfLastEpoch : option Z;
  stk_params : StakingParams;
  world : W;
}.
Arguments Stk W : clear implicits.
#[export] Instance Stk_eta W : Eta (Stk W) := fun r =>
  mkStk W (validators r) (byConsAddr r) (powerIndex r) (lastPowers r) (lastTotalPower r) (validatorQueue r)
    (shares r) (delegators r) (undelegations r) (undelegateQueue r) (proxies r) (abandoned r) (epoch r)
    (endOfLastEpoch r) (stk_params r) (world r).

Module StakingState.
Section State.
Context {W : Type} `{SupplyKeeper W, StakingHooks W, StakingSdk, SdkConfig}.
Abbreviation stk := (Stk W).
Abbreviation E := (eff (Stk W) stk_error).
Implicit Types (s : stk) (v : Validator) (d : Delegator).
Import StakingTypes StakingKeys.

Definition ConsAddress v : Address := PubKey_Address (ConsPubKey v).
Definition PotentialConsensusPowerByShares v : Z := sharesToConsensusPower (DelegatorShares v).
Definition ConsensusPowerByShares v : Z := if IsBonded v then PotentialConsensusPowerByShares v else 0.

(** *** Parameters *)
Definition GetParams (b : Block) s : StakingParams :=
  let p := stk_params s in
  if DefaultLevelUpBlockHeight <=? Height b
  then mkStakingParams DefaultLevelUpUnbondingTime (p_MaxValidators p) (p_Epoch p) (p_MaxValsToAddShares p)
         (p_MinDelegation p) (p_MinSelfDelegation p)
  else p.
Definition BondDenom : Denom := DefaultBondDenom.
Definition DefaultEpoch : Z := 276.
Definition GetEpoch s : Z := default DefaultEpoch (epoch s).
Definition SetEpoch (e : Z) s : stk := s <| epoch := Some e |>.
Definition GetTheEndOfLastEpoch s : Z := default 0 (endOfLastEpoch s).
Definition SetTheEndOfLastEpoch (b : Block) s : stk := s <| endOfLastEpoch := Some (Height b) |>.
(** Go's [%] panics on zero and truncates. *)
Definition IsEndOfEpoch (b : Block) s : res bool :=
  if GetEpoch s =? 0 then Panic PanicDivide
  else Ret (Z.rem (Height b - GetTheEndOfLastEpoch s) (GetEpoch s) =? 0).

(** *** Delegators and shares *)
Definition GetDelegator (a : Address) s : option Delegator := delegators s !! a.
Definition SetDelegator d s : stk := s <| delegators := <[DelegatorAddress d := d]> (delegators s) |>.
Definition DeleteDelegator (a : Address) s : stk := s <| delegators := delete a (delegators s) |>.

Definition GetShares (delAddr valAddr : Address) s : option Dec := shares s !! (valAddr, delAddr).
Definition SetShares (delAddr valAddr : Address) (x : Dec) s : stk :=
  s <| shares := <[(valAddr, delAddr) := x]> (shares s) |>.
Definition DeleteShares (valAddr delAddr : Address) s : stk := s <| shares := delete (valAddr, delAddr) (shares s) |>.

(** *** Undelegations *)
Definition GetUndelegating (a : Address) s : option UndelegationInfo := undelegations s !! a.
Definition SetUndelegating (u : UndelegationInfo) s : stk :=
  s <| undelegations := <[ud_DelegatorAddress u := u]> (undelegations s) |>.
Definition DeleteUndelegating (a : Address) s : stk := s <| undelegations := delete a (undelegations s) |>.
Definition SetAddrByTimeKeyWithNilValue (t : Time) (a : Address) s : stk :=
  s <| undelegateQueue := undelegateQueue s ∪ {[(t, a)]} |>.
Definition DeleteAddrByTimeKey (t : Time) (a : Address) s : stk :=
  s <| undelegateQueue := undelegateQueue s ∖ {[(t, a)]} |>.

(** *** Proxies *)
Definition SetProxyBinding (proxyAddress delegatorAddress : Address) (isRemove : bool) s : stk :=
  if isRemove then s <| proxies := proxies s ∖ {[(proxyAddress, delegatorAddress)]} |>
  else s <| proxies := proxies s ∪ {[(proxyAddress, delegatorAddress)]} |>.

(** *** Validators *)
Definition GetValidator (a : Address) s : option Validator := validators s !! a.
Definition mustGetValidator (a : Address) : E Validator :=
  o ← gets (GetValidator a);
  match o with Some v => mret v | None => panic (PanicMsg "validator record not found") end.
Definition GetValidatorByConsAddr (c : Address) s : option Validator := byConsAddr s !! c ≫= fun a => GetValidator a s.
Definition mustGetValidatorByConsAddr (c : Address) : E Validator :=
  o ← gets (GetValidatorByConsAddr c);
  match o with Some v => mret v | None => panic (PanicMsg "validator with consensus-Address not found") end.
Definition SetValidator v s : stk := s <| validators := <[OperatorAddress v := v]> (validators s) |>.
Definition SetValidatorByConsAddr v s : stk :=
  s <| byConsAddr := <[ConsAddress v := OperatorAddress v]> (byConsAddr s) |>.
Definition SetNewValidatorByPowerIndex v s : stk :=
  s <| powerIndex := <[GetValidatorsByPowerIndexKey v := OperatorAddress v]> (powerIndex s) |>.
Definition SetValidatorByPowerIndex v s : stk :=
  if Jailed v then s else SetNewValidatorByPowerIndex v s.
Definition DeleteValidatorByPowerIndex v s : stk :=
  s <| powerIndex := delete (GetValidatorsByPowerIndexKey v) (powerIndex s) |>.

(** [KVStoreReversePrefixIterator]: from the highest key to the lowest. *)
Definition key_ge (a b : bytes * Address) : Prop := bytes_lt a.1 b.1 = false.
#[global] Instance key_ge_dec : RelDecision key_ge.
Proof. intros a b. unfold key_ge. apply _. Defined.
Definition ValidatorsPowerStoreIterator s : list (bytes * Address) := merge_sort key_ge (map_to_list (powerIndex s)).

(** *** Last powers *)
Definition GetLastValidatorPower (a : Address) s : Z := default 0 (lastPowers s !! a).
Definition SetLastValidatorPower (a : Address) (power : Z) s : stk := s <| lastPowers := <[a := power]> (lastPowers s) |>.
Definition DeleteLastValidatorPower (a : Address) s : stk := s <| lastPowers := delete a (lastPowers s) |>.
Definition SetLastTotalPower (power : Z) s : stk := s <| lastTotalPower := power |>.

(** *** The queue of unbonding validators *)
Definition GetValidatorQueueTimeSlice (t : Time) s : list Address := default [] (validatorQueue s !! t).
Definition SetValidatorQueueTimeSlice (t : Time) (keys : list Address) s : stk :=
  s <| validatorQueue := <[t := keys]> (validatorQueue s) |>.
Definition DeleteValidatorQueueTimeSlice (t : Time) s : stk := s <| validatorQueue := delete t (validatorQueue s) |>.
Definition InsertValidatorQueue v s : stk :=
  SetValidatorQueueTimeSlice (UnbondingCompletionTime v)
    (GetValidatorQueueTimeSlice (UnbondingCompletionTime v) s ++ [OperatorAddress v]) s.
Definition DeleteValidatorQueue v s : stk :=
  let timeSlice := GetValidatorQueueTimeSlice (UnbondingCompletionTime v) s in
  let newTimeSlice := filter (fun a => a ≠ OperatorAddress v) timeSlice in
  if decide (newTimeSlice = []) then DeleteValidatorQueueTimeSlice (UnbondingCompletionTime v) s
  else SetValidatorQueueTimeSlice (UnbondingCompletionTime v) newTimeSlice s.

(** *** Hooks *)
Definition hook (f : W -> res W) s : res stk := w ← f (world s); Ret (s <| world := w |>).
Definition AfterValidatorCreated (a : Address) : E unit := modify_res (hook (fun w => hook_AfterValidatorCreated w a)).
Definition AfterValidatorRemoved (c a : Address) : E unit := modify_res (hook (fun w => hook_AfterValidatorRemoved w c a)).
Definition AfterValidatorBonded (c a : Address) : E unit := modify_res (hook (fun w => hook_AfterValidatorBonded w c a)).
Definition AfterValidatorBeginUnbonding (c a : Address) : E unit :=
  modify_res (hook (fun w => hook_AfterValidatorBeginUnbonding w c a)).
Definition AfterValidatorDestroyed (c a : Address) : E unit :=
  modify_res (hook (fun w => hook_AfterValidatorDestroyed w c a)).

(** *** RemoveValidator *)
Definition RemoveValidator (address : Address) : E unit :=
  o ← gets (GetValidator address);
  match o with
  | None => mret tt
  | Some validator =>
      if negb (IsUnbonded validator) then panic (PanicMsg "cannot call RemoveValidator on bonded or unbonding validators")
      else if 0 <? val_Tokens validator then panic (PanicMsg "attempting to remove a validator which still contains tokens")
      else
        _ ← modify (fun s => s <| validators := delete address (validators s) |>);
        _ ← modify (fun s => s <| byConsAddr := delete (ConsAddress validator) (byConsAddr s) |>);
        _ ← modify (DeleteValidatorByPowerIndex validator);
        AfterValidatorRemoved (ConsAddress validator) (OperatorAddress validator)
  end.

(** *** Abandoned validators *)
Definition AppendAbandonedValidatorAddrs (c : Address) : E unit :=
  validator ← mustGetValidatorByConsAddr c;
  modify (fun s => s <| abandoned := abandoned s ++ [OperatorAddress validator] |>).
Definition DeleteAbandonedValidatorAddrs s : stk := s <| abandoned := [] |>.
Definition IsKickedOut s : bool := bool_decide (abandoned s ≠ []).

(** *** Pools *)
Definition bondedTokensToNotBonded (tokens : SysCoin) : E unit :=
  modify_res (fun s =>
    match SendCoinsFromModuleToModule (world s) BondedPoolName NotBondedPoolName [tokens] with
    | Some w => Ret (s <| world := w |>)
    | None => Panic (PanicMsg "SendCoinsFromModuleToModule")
    end).
Definition DelegateCoins (a : Address) (coins : list SysCoin) : E unit := fun s =>
  match DelegateCoinsFromAccountToModule (world s) a BondedPoolName coins with
  | Some w => Ret (s <| world := w |>, inl tt)
  | None => Ret (s, inr (ErrSupply 0))
  end.
Definition UndelegateCoins (a : Address) (coins : list SysCoin) : E unit := fun s =>
  match UndelegateCoinsFromModuleToAccount (world s) NotBondedPoolName a coins with
  | Some w => Ret (s <| world := w |>, inl tt)
  | None => Ret (s, inr (ErrSupply 1))
  end.

End State.
End StakingState.
