(* ===== verification/StakingKeeper.v ===== *)
(** Delegating, withdrawing, voting and proxies
    (staking/keeper: delegation.go, proxy.go, weight.go,
    min_self_delegation.go). *)
From S2P Require Import Prelude.
From S2P Require Import Interfaces.
From S2P Require Import Effects.
From S2P Require Import StakingTypes.
From S2P Require Import StakingKeys.
From S2P Require Import StakingState.
From stdpp Require Import sorting.
Import StakingTypes StakingKeys StakingState.
Local Open Scope Z_scope.

Module StakingKeeper.

(** ** The weight of a vote (weight.go)

    [float64(nowWeek) / 52] is the binary64 number closest to the quotient,
    and [%.18f] prints the decimal closest to it. *)
Definition blockTimestampEpoch : Z := 1625439902.
Definition secondsPerWeek : Z := 60 * 60 * 24 * 7.
Definition weeksPerYear : Z := 52.

(** The integer nearest to [a / b], to even on ties. *)
Definition round_half_even (a b : Z) : Z :=
  let q := a / b in let r := a mod b in
  if 2 * r <? b then q else if b <? 2 * r then q + 1 else if Z.even q then q else q + 1.

(** [n / 52] as a binary64, [m * 2^-k] with a mantissa of 53 bits, and
    its value in units of [10^-18]. *)
Definition weeks_to_dec (n : Z) : Z :=
  if n =? 0 then 0
  else
    let a := Z.abs n in
    let k := let k0 := 52 + Z.log2 weeksPerYear - Z.log2 a in
             if a * 2 ^ k0 <? weeksPerYear * 2 ^ 52 then k0 + 1 else k0 in
    let m := round_half_even (a * 2 ^ k) weeksPerYear in
    Z.sgn n * round_half_even (m * 10 ^ 18) (2 ^ k).

Section Keeper.
Context {W : Type} `{SupplyKeeper W, StakingHooks W, StakingSdk, SdkConfig}.
Abbreviation stk := (Stk W).
Abbreviation E := (eff (Stk W) stk_error).
Implicit Types (s : stk) (v : Validator) (d : Delegator) (b : Block).

(** Go's integer division truncates. *)
Definition calculateWeight (nowTime : Z) (tokens : Dec) : option Dec :=
  let nowWeek := Z.quot (nowTime - blockTimestampEpoch) secondsPerWeek in
  weightByDec ← NewDecFromStr (weeks_to_dec nowWeek);
  Some (Dec_Mul tokens weightByDec).
Definition Unix b : Z := BlockTime b / 10 ^ 9.

(** ** Shares *)

(** [GetLastValsAddedSharesExisted]: the validators still in the store. *)
Definition GetLastValsAddedSharesExisted (delAddr : Address) s : list Validator * Dec :=
  match GetDelegator delAddr s with
  | None => ([], 0)
  | Some d => (omap (fun a => GetValidator a s) (ValidatorAddresses d), Shares d)
  end.

Fixpoint GetValidatorsToAddShares (valAddrs : list Address) s : list Validator + stk_error :=
  match valAddrs with
  | [] => inl []
  | a :: rest =>
      match GetValidator a s with
      | None => inr (ErrNoValidatorFound a)
      | Some v =>
          match GetValidatorsToAddShares rest s with
          | inl vs => inl (v :: vs)
          | inr e => inr e
          end
      end
  end.

Definition addShares (delAddr : Address) v (x : Dec) : E unit :=
  _ ← modify (SetShares delAddr (OperatorAddress v) x);
  _ ← modify (DeleteValidatorByPowerIndex v);
  let v := v <| DelegatorShares := DelegatorShares v + x |> in
  _ ← modify (SetValidator v);
  modify (SetValidatorByPowerIndex v).

Definition AddSharesToValidators b (delAddr : Address) (vals : list Validator) (tokens : Dec) : E Dec :=
  match calculateWeight (Unix b) tokens with
  | None => throw ErrWeight
  | Some x => _ ← for_each vals (fun v => addShares delAddr v x); mret x
  end.

Definition withdrawShares (delAddr : Address) v (x : Dec) : E unit :=
  _ ← modify (DeleteShares (OperatorAddress v) delAddr);
  _ ← modify (DeleteValidatorByPowerIndex v);
  let v := v <| DelegatorShares := DelegatorShares v - x |> in
  if IsUnbonded v && (MinSelfDelegation v =? 0) && (DelegatorShares v =? 0) then
    RemoveValidator (OperatorAddress v)
  else
    _ ← modify (SetValidator v);
    modify (SetValidatorByPowerIndex v).

Definition WithdrawLastShares (delAddr : Address) (lastVals : list Validator) (lastShares : Dec) : E unit :=
  for_each lastVals (fun v => withdrawShares delAddr v lastShares).

(** One round of the loop of [UpdateShares]. *)
Definition update_val_shares (delAddr : Address) (lastShares x : Dec) v : E unit :=
  if MinSelfDelegation v =? 0 then throw (ErrAddSharesToDismission (OperatorAddress v))
  else
    _ ← modify (DeleteValidatorByPowerIndex v);
    _ ← modify (SetShares delAddr (OperatorAddress v) x);
    let v := v <| DelegatorShares := DelegatorShares v - lastShares + x |> in
    _ ← modify (SetValidator v);
    modify (SetValidatorByPowerIndex v).

Definition UpdateShares b (delAddr : Address) (tokens : Dec) : E unit :=
  '(vals, lastShares) ← gets (GetLastValsAddedSharesExisted delAddr);
  if decide (vals = []) then mret tt
  else
    match calculateWeight (Unix b) tokens with
    | None => throw ErrWeight
    | Some x =>
        o ← gets (GetDelegator delAddr);
        match o with
        | None => throw (ErrNoDelegatorExisted delAddr)
        | Some d =>
            _ ← for_each vals (update_val_shares delAddr lastShares x);
            modify (SetDelegator (d <| Shares := x |>))
        end
    end.

(** ** Proxies *)

Definition UpdateProxy b d (tokens : Dec) : E unit :=
  match ProxyAddress d with
  | None => mret tt
  | Some p =>
      o ← gets (GetDelegator p);
      match o with
      | None => throw (ErrInvalidAddress (ProxyAddress d))
      | Some proxy =>
          let proxy := proxy <| TotalDelegatedTokens := TotalDelegatedTokens proxy + tokens |> in
          if TotalDelegatedTokens proxy <? 0 then throw ErrInvalidProxyUpdating
          else
            let finalTokens := TotalDelegatedTokens proxy + Tokens proxy in
            _ ← modify (SetDelegator proxy);
            UpdateShares b (DelegatorAddress proxy) finalTokens
      end
  end.

(** The bindings of a proxy, in key order; a visited one is deleted. *)
Definition addr_le (x y : Address) : Prop := (x <= y)%N.
#[global] Instance addr_le_dec : RelDecision addr_le := fun x y => N.le_dec x y.
Definition bound_to (proxyAddr : Address) s : list Address :=
  merge_sort addr_le (omap (fun '(p, d) => if decide (p = proxyAddr) then Some d else None) (elements (proxies s))).

Definition clear_one (proxyAddr delAddr : Address) : E unit :=
  o ← gets (GetDelegator delAddr);
  _ ← match o with
      | Some d => modify (SetDelegator (UnbindProxy d))
      | None => mret tt
      end;
  modify (SetProxyBinding proxyAddr delAddr true).

Definition ClearProxy (proxyAddr : Address) : E unit :=
  l ← gets (bound_to proxyAddr);
  for_each l (clear_one proxyAddr).

(** ** Delegation *)

(** The tokens a delegator votes with. *)
Definition final_tokens d : Dec := if IsProxy d then Tokens d + TotalDelegatedTokens d else Tokens d.

Definition Delegate b (delAddr : Address) (token : SysCoin) : E unit :=
  let delQuantity := token.2 in
  minDelLimit ← gets (fun s => p_MinDelegation (stk_params s));
  if delQuantity <? minDelLimit then throw (ErrInsufficientQuantity delQuantity minDelLimit)
  else
    _ ← DelegateCoins delAddr [token];
    o ← gets (GetDelegator delAddr);
    let d := default (NewDelegator delAddr) o in
    let d := d <| Tokens := Tokens d + delQuantity |> in
    _ ← modify (SetDelegator d);
    if HasProxy d then UpdateProxy b d delQuantity
    else UpdateShares b (DelegatorAddress d) (final_tokens d).

(** The time an undelegation started now completes. *)
Definition completion_time b s : Time :=
  if DefaultLevelUpBlockHeight <=? Height b then BlockTime b + DefaultLevelUpUnbondingTime
  else BlockTime b + p_UnbondingTime (stk_params s).

(** A running undelegation is extended and starts over. *)
Definition enqueue_undelegation (delAddr : Address) (quantity : Dec) (completionTime : Time) : E unit :=
  o ← gets (GetUndelegating delAddr);
  undelegation ←
    match o with
    | None => mret (NewUndelegationInfo delAddr quantity completionTime)
    | Some u =>
        _ ← modify (DeleteAddrByTimeKey (CompletionTime u) delAddr);
        mret (u <| Quantity := Quantity u + quantity |> <| CompletionTime := completionTime |>)
    end;
  _ ← modify (SetUndelegating undelegation);
  modify (SetAddrByTimeKeyWithNilValue completionTime delAddr).

Definition withdraw_all (delAddr : Address) d : E unit :=
  '(lastVals, lastShares) ← gets (GetLastValsAddedSharesExisted delAddr);
  _ ← WithdrawLastShares delAddr lastVals lastShares;
  _ ← match ProxyAddress d with
      | Some p => modify (SetProxyBinding p delAddr true)
      | None => mret tt
      end;
  modify (DeleteDelegator delAddr).

Definition Withdraw b (delAddr : Address) (token : SysCoin) : E Time :=
  o ← gets (GetDelegator delAddr);
  match o with
  | None => throw (ErrNoDelegationToAddShares delAddr)
  | Some d =>
      let quantity := token.2 in
      minDelLimit ← gets (fun s => p_MinDelegation (stk_params s));
      if quantity <? minDelLimit then throw (ErrInsufficientQuantity quantity minDelLimit)
      else if Tokens d <? quantity then throw (ErrInsufficientDelegation quantity (Tokens d))
      else
        let leftTokens := Tokens d - quantity in
        if IsProxy d && (leftTokens =? 0) then throw (ErrInvalidProxyWithdrawTotal delAddr)
        else
          _ ← bondedTokensToNotBonded token;
          _ ← when (HasProxy d) (UpdateProxy b d (Dec_Mul quantity (NewDec (-1))));
          _ ← (if leftTokens =? 0 then withdraw_all delAddr d
               else
                 let d := d <| Tokens := leftTokens |> in
                 _ ← modify (SetDelegator d);
                 when (negb (HasProxy d)) (UpdateShares b (DelegatorAddress d) (final_tokens d)));
          completionTime ← gets (completion_time b);
          _ ← enqueue_undelegation delAddr quantity completionTime;
          mret completionTime
  end.

Definition CompleteUndelegation (delAddr : Address) : E Dec :=
  o ← gets (GetUndelegating delAddr);
  match o with
  | None => throw (ErrNotInDelegating delAddr)
  | Some ud =>
      _ ← UndelegateCoins (ud_DelegatorAddress ud) [(DefaultBondDenom, Quantity ud)];
      _ ← modify (DeleteUndelegating delAddr);
      mret (Quantity ud)
  end.

(** ** The minimum self-delegation of a validator *)

Definition getSharesFromDefaultMinSelfDelegation : Dec := OneDec.

Definition addSharesAsDefaultMinSelfDelegation v : E Validator :=
  _ ← modify (DeleteValidatorByPowerIndex v);
  let v := v <| DelegatorShares := DelegatorShares v + getSharesFromDefaultMinSelfDelegation |> in
  _ ← modify (SetValidator v);
  _ ← modify (SetValidatorByPowerIndex v);
  mret v.

Definition AddSharesAsMinSelfDelegation (delAddr : Address) v (token : SysCoin) : E Validator :=
  _ ← DelegateCoins delAddr [token];
  addSharesAsDefaultMinSelfDelegation v.

Definition WithdrawMinSelfDelegation b (delAddr : Address) v : E Time :=
  if MinSelfDelegation v =? 0 then throw (ErrNoMinSelfDelegation (OperatorAddress v))
  else
    let remainShares := DelegatorShares v - getSharesFromDefaultMinSelfDelegation in
    if remainShares <? 0 then throw (ErrMoreMinSelfDelegation (OperatorAddress v))
    else
      _ ← bondedTokensToNotBonded (DefaultBondDenom, MinSelfDelegation v);
      completionTime ← gets (completion_time b);
      _ ← enqueue_undelegation delAddr (MinSelfDelegation v) completionTime;
      let v := v <| MinSelfDelegation := 0 |> <| Jailed := true |> in
      _ ← AfterValidatorDestroyed (ConsAddress v) (OperatorAddress v);
      _ ← when (IsBonded v) (AppendAbandonedValidatorAddrs (ConsAddress v));
      if IsUnbonded v && (remainShares =? 0) then
        _ ← RemoveValidator (OperatorAddress v);
        mret completionTime
      else
        _ ← modify (DeleteValidatorByPowerIndex v);
        _ ← modify (SetValidator (v <| DelegatorShares := remainShares |>));
        mret completionTime.

End Keeper.
End StakingKeeper.
