(* ===== verification/StakingVals.v ===== *)
(** The validator set (staking/keeper: val_state_change.go, val_state.go,
    slash.go and the queue of validator.go): how validators become bonded,
    unbonding and unbonded, and what is reported to the consensus engine. *)
From S2P Require Import Prelude.
From S2P Require Import Interfaces.
From S2P Require Import Effects.
From S2P Require Import StakingTypes.
From S2P Require Import StakingKeys.
From S2P Require Import StakingState.
From S2P Require Import StakingKeeper.
From stdpp Require Import sorting.
Import StakingTypes StakingKeys StakingState StakingKeeper.
Local Open Scope Z_scope.

(** [abci.ValidatorUpdate] *)
Record ValidatorUpdate := mkUpdate { up_PubKey : bytes; up_Power : Z }.

Module StakingVals.
Section Vals.
Context {W : Type} `{SupplyKeeper W, StakingHooks W, StakingSdk, SdkConfig}.
Abbreviation stk := (Stk W).
Abbreviation E := (eff (Stk W) stk_error).
Implicit Types (s : stk) (v : Validator) (b : Block).

Definition ABCIValidatorUpdateByShares v : ValidatorUpdate := mkUpdate (ConsPubKey v) (ConsensusPowerByShares v).
Definition ABCIValidatorUpdateZero v : ValidatorUpdate := mkUpdate (ConsPubKey v) 0.

(** ** Transitions of one validator *)

Definition bondValidator v : E Validator :=
  _ ← modify (DeleteValidatorByPowerIndex v);
  let v := UpdateStatus v Bonded in
  _ ← modify (SetValidator v);
  _ ← modify (SetValidatorByPowerIndex v);
  _ ← modify (DeleteValidatorQueue v);
  _ ← AfterValidatorBonded (ConsAddress v) (OperatorAddress v);
  mret v.

Definition beginUnbondingValidator b v : E Validator :=
  params ← gets (GetParams b);
  _ ← modify (DeleteValidatorByPowerIndex v);
  if negb (IsBonded v) then panic (PanicMsg "should not already be unbonded or unbonding")
  else
    let v := UpdateStatus v Unbonding in
    let v := v <| UnbondingCompletionTime := BlockTime b + p_UnbondingTime params |>
               <| UnbondingHeight := Height b |> in
    _ ← modify (SetValidator v);
    _ ← modify (SetValidatorByPowerIndex v);
    _ ← modify (InsertValidatorQueue v);
    _ ← AfterValidatorBeginUnbonding (ConsAddress v) (OperatorAddress v);
    mret v.

Definition completeUnbondingValidator v : E Validator :=
  let v := UpdateStatus v Unbonded in
  _ ← modify (SetValidator v); mret v.

Definition bondedToUnbonding b v : E Validator :=
  if negb (IsBonded v) then panic (PanicMsg "bad state transition bondedToUnbonding")
  else beginUnbondingValidator b v.
Definition unbondingToBonded v : E Validator :=
  if negb (IsUnbonding v) then panic (PanicMsg "bad state transition unbondingToBonded") else bondValidator v.
Definition unbondedToBonded v : E Validator :=
  if negb (IsUnbonded v) then panic (PanicMsg "bad state transition unbondedToBonded") else bondValidator v.
Definition unbondingToUnbonded v : E Validator :=
  if negb (IsUnbonding v) then panic (PanicMsg "bad state transition unbondingToBonded")
  else completeUnbondingValidator v.

Definition jailValidator v : E unit :=
  if Jailed v then panic (PanicMsg "cannot jail already jailed validator")
  else
    let v := v <| Jailed := true |> in
    _ ← modify (SetValidator v); modify (DeleteValidatorByPowerIndex v).
Definition unjailValidator v : E unit :=
  if negb (Jailed v) then panic (PanicMsg "cannot unjail already unjailed validator")
  else
    let v := v <| Jailed := false |> in
    _ ← modify (SetValidator v); modify (SetValidatorByPowerIndex v).
Definition Jail (consAddr : Address) : E unit := v ← mustGetValidatorByConsAddr consAddr; jailValidator v.
Definition Unjail (consAddr : Address) : E unit := v ← mustGetValidatorByConsAddr consAddr; unjailValidator v.

(** ** The validator set of an epoch *)

(** The working state of the two loops: the last validator set that is
    left, the updates so far and the total power. *)
Record set_update := mkSetUpdate { su_last : gmap Address Z; su_updates : list ValidatorUpdate; su_total : Z }.

(** The switch on the status of a candidate. *)
Definition promote v : E Validator :=
  match Status v with
  | Unbonded => unbondedToBonded v
  | Unbonding => unbondingToBonded v
  | Bonded => mret v
  end.

Definition elect (valAddr : Address) v (u : set_update) : E set_update :=
  v ← promote v;
  let newPower := ConsensusPowerByShares v in
  updates ←
    (if bool_decide (su_last u !! valAddr = Some newPower) then mret (su_updates u)
     else
       _ ← modify (SetLastValidatorPower valAddr newPower);
       mret (su_updates u ++ [ABCIValidatorUpdateByShares v]));
  mret (mkSetUpdate (delete valAddr (su_last u)) updates (su_total u + newPower)).

Fixpoint elect_loop (l : list (bytes * Address)) (room : nat) (u : set_update) : E set_update :=
  match l, room with
  | (_, valAddr) :: rest, S room' =>
      v ← mustGetValidator valAddr;
      if Jailed v then panic (PanicMsg "should never retrieve a jailed validator from the power store")
      else if PotentialConsensusPowerByShares v =? 0 then mret u
      else if MinSelfDelegation v <? NewDec 1000 then elect_loop rest room u
      else u ← elect valAddr v u; elect_loop rest room' u
  | _, _ => mret u
  end.

Definition sortNoLongerBonded (last : gmap Address Z) : list Address := merge_sort addr_le (map_to_list last).*1.

Fixpoint discharge_loop b (l : list Address) (updates : list ValidatorUpdate) : E (list ValidatorUpdate) :=
  match l with
  | [] => mret updates
  | valAddr :: rest =>
      v ← mustGetValidator valAddr;
      v ← bondedToUnbonding b v;
      _ ← modify (DeleteLastValidatorPower (OperatorAddress v));
      discharge_loop b rest (updates ++ [ABCIValidatorUpdateZero v])
  end.

Definition ApplyAndReturnValidatorSetUpdates b : E (list ValidatorUpdate) :=
  maxValidators ← gets (fun s => p_MaxValidators (GetParams b s));
  last ← gets lastPowers;
  iterator ← gets ValidatorsPowerStoreIterator;
  u ← elect_loop iterator (Z.to_nat maxValidators) (mkSetUpdate last [] 0);
  updates ← discharge_loop b (sortNoLongerBonded (su_last u)) (su_updates u);
  _ ← when (bool_decide (updates ≠ [])) (modify (SetLastTotalPower (su_total u)));
  mret updates.

(** ** Validators that leave within an epoch *)

Fixpoint kick_promote_loop (l : list (bytes * Address)) (abandonedNum : nat) (lastBondedVals : gmap Address Z)
    (updates : list ValidatorUpdate) (totalPower : Z) : E (list ValidatorUpdate * Z) :=
  match l, abandonedNum with
  | (_, valAddr) :: rest, S n =>
      if bool_decide (is_Some (lastBondedVals !! valAddr))
      then kick_promote_loop rest abandonedNum lastBondedVals updates totalPower
      else
        v ← mustGetValidator valAddr;
        if PotentialConsensusPowerByShares v =? 0
        then kick_promote_loop rest abandonedNum lastBondedVals updates totalPower
        else if MinSelfDelegation v <? NewDec 1000
        then kick_promote_loop rest abandonedNum lastBondedVals updates totalPower
        else
          v ← match Status v with
              | Unbonded => unbondedToBonded v
              | Unbonding => unbondingToBonded v
              | Bonded => panic (PanicMsg "Panic. Candidate validator is not allowed to be in bonded status")
              end;
          let newPower := ConsensusPowerByShares v in
          _ ← modify (SetLastValidatorPower valAddr newPower);
          kick_promote_loop rest n lastBondedVals (updates ++ [ABCIValidatorUpdateByShares v]) (totalPower + newPower)
  | _, _ => mret (updates, totalPower)
  end.

Fixpoint kick_discharge_loop b (l : list Address) (lastBondedVals : gmap Address Z)
    (updates : list ValidatorUpdate) (totalPower : Z) : E (list ValidatorUpdate * Z) :=
  match l with
  | [] => mret (updates, totalPower)
  | valAddr :: rest =>
      v ← mustGetValidator valAddr;
      match Status v with
      | Unbonded | Unbonding => kick_discharge_loop b rest lastBondedVals updates totalPower
      | Bonded =>
          _ ← bondedToUnbonding b v;
          _ ← modify (DeleteLastValidatorPower (OperatorAddress v));
          match lastBondedVals !! valAddr with
          | None => panic (PanicMsg "Never occur")
          | Some oldPower =>
              kick_discharge_loop b rest lastBondedVals (updates ++ [ABCIValidatorUpdateZero v]) (totalPower - oldPower)
          end
      end
  end.

Definition KickOutAndReturnValidatorSetUpdates b : E (list ValidatorUpdate) :=
  lastBondedVals ← gets lastPowers;
  abandonedValAddrs ← gets abandoned;
  totalPower ← gets lastTotalPower;
  iterator ← gets ValidatorsPowerStoreIterator;
  '(updates, totalPower) ← kick_promote_loop iterator (length abandonedValAddrs) lastBondedVals [] totalPower;
  '(updates, totalPower) ← kick_discharge_loop b abandonedValAddrs lastBondedVals updates totalPower;
  _ ← modify (SetLastTotalPower totalPower);
  mret updates.

(** ** Mature validators *)

Definition unbond_mature (valAddr : Address) : E unit :=
  o ← gets (GetValidator valAddr);
  match o with
  | None => panic (PanicMsg "validator in the unbonding queue was not found")
  | Some v =>
      if negb (IsUnbonding v) then panic (PanicMsg "unexpected validator in unbonding queue; status was not unbonding")
      else
        v ← unbondingToUnbonded v;
        when ((DelegatorShares v =? 0) && (MinSelfDelegation v =? 0)) (RemoveValidator (OperatorAddress v))
  end.

Definition time_le (x y : Time) : Prop := x <= y.
#[global] Instance time_le_dec : RelDecision time_le := fun x y => Z_le_dec x y.
Definition mature_slices (now : Time) s : list (Time * list Address) :=
  let times := merge_sort time_le (filter (fun t => t <= now) (map_to_list (validatorQueue s)).*1) in
  map (fun t => (t, GetValidatorQueueTimeSlice t s)) times.

Definition UnbondAllMatureValidatorQueue b : E unit :=
  slices ← gets (mature_slices (BlockTime b));
  for_each slices (fun '(t, timeslice) =>
    _ ← for_each timeslice unbond_mature;
    modify (DeleteValidatorQueueTimeSlice t)).

(** ** Mature undelegations: [IterateKeysBeforeCurrentTime] *)
Definition key_le (x y : Time * Address) : Prop := x.1 < y.1 \/ (x.1 = y.1 /\ (x.2 <= y.2)%N).
#[global] Instance key_le_dec : RelDecision key_le.
Proof. intros x y. unfold key_le. apply _. Defined.
Definition mature_keys (now : Time) s : list (Time * Address) :=
  merge_sort key_le (filter (fun k => k.1 <= now) (elements (undelegateQueue s))).

(** An undelegation that cannot be paid out is logged, and dropped from the queue. *)
Definition complete_one (k : Time * Address) : E unit :=
  let '(oldTime, delAddr) := k in
  _ ← modify (DeleteAddrByTimeKey oldTime delAddr);
  catch (_ ← CompleteUndelegation delAddr; mret tt) (fun _ => mret tt).

Definition EndBlocker b : E (list ValidatorUpdate) :=
  e ← (fun s => match IsEndOfEpoch b s with Ret x => Ret (s, inl x) | Panic p => Panic p end);
  validatorUpdates ←
    (if (e : bool) then
       oldEpoch ← gets GetEpoch;
       newEpoch ← gets (fun s => p_Epoch (stk_params s));
       _ ← when (negb (oldEpoch =? newEpoch)) (modify (SetEpoch newEpoch));
       _ ← modify (SetTheEndOfLastEpoch b);
       updates ← ApplyAndReturnValidatorSetUpdates b;
       _ ← modify DeleteAbandonedValidatorAddrs;
       mret updates
     else
       kicked ← gets IsKickedOut;
       if (kicked : bool) then
         updates ← KickOutAndReturnValidatorSetUpdates b;
         _ ← modify DeleteAbandonedValidatorAddrs;
         mret updates
       else mret []);
  _ ← UnbondAllMatureValidatorQueue b;
  keys ← gets (mature_keys (BlockTime b));
  _ ← for_each keys complete_one;
  mret validatorUpdates.

End Vals.
End StakingVals.
