(* ===== verification/StakingHandler.v ===== *)
(** Message handlers of the staking module (staking/handler.go and
    handler_shares.go).  A handler that returns an error is rolled back by
    its caller. *)
From S2P Require Import Prelude.
From S2P Require Import Interfaces.
From S2P Require Import Effects.
From S2P Require Import StakingTypes.
From S2P Require Import StakingKeys.
From S2P Require Import StakingState.
From S2P Require Import StakingKeeper.
Import StakingTypes StakingKeys StakingState StakingKeeper.
Local Open Scope Z_scope.

Record MsgCreateValidator := mkCreateValidator {
  cv_Description : Description; cv_MinSelfDelegation : SysCoin; cv_DelegatorAddress : Address;
  cv_ValidatorAddress : Address; cv_PubKey : bytes;
}.
Inductive stk_msg :=
  | CreateValidator (m : MsgCreateValidator)
  | EditValidator (v : Address) (d : Description)
  | Deposit (d : Address) (amount : SysCoin)
  | WithdrawTokens (d : Address) (amount : SysCoin)
  | AddShares (d : Address) (vals : list Address)
  | Bind (d p : Address)
  | Unbind (d : Address)
  | Reg (p : Address) (reg : bool)
  | DestroyValidator (d : Address).

Module StakingHandler.
Section Handler.
Context {W : Type} `{SupplyKeeper W, StakingHooks W, StakingSdk, SdkConfig}.
(** [tmtypes.TM2PB.PubKey(pk).Type], and the key types the consensus
    parameters allow ([None]: no parameters). *)
Context (PubKey_Type : bytes -> string) (PubKeyTypes : option (list string)).
Abbreviation stk := (Stk W).
Abbreviation E := (eff (Stk W) stk_error).
Implicit Types (s : stk) (v : Validator) (d : Delegator) (b : Block).

(** [if f() != nil { return err }]: another error in place of the first. *)
Definition or_error {A} (m : E A) (e : stk_error) : E A := catch m (fun _ => throw e).

(** ** Validators *)

Definition handleMsgCreateValidator (msg : MsgCreateValidator) : E unit :=
  o ← gets (GetValidator (cv_ValidatorAddress msg));
  if bool_decide (is_Some o) then throw ErrValidatorOwnerExists
  else
    o ← gets (GetValidatorByConsAddr (PubKey_Address (cv_PubKey msg)));
    if bool_decide (is_Some o) then throw ErrValidatorPubKeyExists
    else if negb (bool_decide ((cv_MinSelfDelegation msg).1 = BondDenom)) then throw ErrBadDenom
    else
      match (EnsureLength (cv_Description msg)).2 with
      | Some err => throw err
      | None =>
          if match PubKeyTypes with
             | Some types => negb (bool_decide (PubKey_Type (cv_PubKey msg) ∈ types))
             | None => false
             end
          then throw ErrValidatorPubKeyTypeNotSupported
          else
            let validator := NewValidator (cv_ValidatorAddress msg) (cv_PubKey msg) (cv_Description msg)
              (cv_MinSelfDelegation msg).2 in
            let commission := NewCommission (NewDec 1) (NewDec 1) (NewDec 0) in
            match SetInitialCommission validator commission with
            | (_, Some err) => throw err
            | (validator, None) =>
                _ ← modify (SetValidator validator);
                _ ← modify (SetValidatorByConsAddr validator);
                _ ← modify (SetNewValidatorByPowerIndex validator);
                validator ← AddSharesAsMinSelfDelegation (cv_DelegatorAddress msg) validator
                  (BondDenom, MinSelfDelegation validator);
                AfterValidatorCreated (OperatorAddress validator)
            end
      end.

Definition handleMsgEditValidator (valAddr : Address) (desc : Description) : E unit :=
  o ← gets (GetValidator valAddr);
  match o with
  | None => throw (ErrNoValidatorFound valAddr)
  | Some validator =>
      match UpdateDescription (val_Description validator) desc with
      | (_, Some err) => throw err
      | (description, None) => modify (SetValidator (validator <| val_Description := description |>))
      end
  end.

(** ** Tokens *)

Definition handleMsgDeposit b (delAddr : Address) (amount : SysCoin) : E unit :=
  if negb (bool_decide (amount.1 = BondDenom)) then throw ErrBadDenom
  else Delegate b delAddr amount.

Definition handleMsgWithdraw b (delAddr : Address) (amount : SysCoin) : E unit :=
  if negb (bool_decide (amount.1 = BondDenom)) then throw ErrBadDenom
  else _ ← Withdraw b delAddr amount; mret tt.

Definition handleMsgDestroyValidator b (delAddr : Address) : E unit :=
  o ← gets (GetValidator delAddr);
  match o with
  | None => throw (ErrNoValidatorFound delAddr)
  | Some validator => _ ← WithdrawMinSelfDelegation b delAddr validator; mret tt
  end.

(** ** Votes *)

Definition isDismissed (vals : list Validator) : option Address :=
  OperatorAddress <$> List.find (fun v => MinSelfDelegation v =? 0) vals.

Definition validateSharesAdding (vals : list Validator) : option stk_error :=
  if decide (vals = []) then Some ErrEmptyValidators
  else match isDismissed vals with
       | Some valAddr => Some (ErrAddSharesToDismission valAddr)
       | None => None
       end.

Definition getValsAddrs (vals : list Validator) : list Address := map OperatorAddress vals.

Definition handleMsgAddShares b (delAddr : Address) (valAddrs : list Address) : E unit :=
  maxValsToAddShares ← gets (fun s => p_MaxValsToAddShares (stk_params s));
  if decide (valAddrs = []) then throw ErrEmptyValidators
  else if maxValsToAddShares <? Z.of_nat (length valAddrs) then throw (ErrExceedValidatorAddrs maxValsToAddShares)
  else
    o ← gets (GetDelegator delAddr);
    match o with
    | None => throw (ErrNoDelegationToAddShares delAddr)
    | Some delegator =>
        if Tokens delegator =? 0 then throw (ErrNoDelegationToAddShares delAddr)
        else if HasProxy delegator then throw (ErrAddSharesDuringProxy (DelegatorAddress delegator) (ProxyAddress delegator))
        else
          '(lastVals, lastShares) ← gets (GetLastValsAddedSharesExisted delAddr);
          _ ← WithdrawLastShares delAddr lastVals lastShares;
          r ← gets (GetValidatorsToAddShares valAddrs);
          match r with
          | inr err => throw err
          | inl vals =>
              match validateSharesAdding vals with
              | Some err => throw err
              | None =>
                  let totalTokens := Tokens delegator + TotalDelegatedTokens delegator in
                  x ← AddSharesToValidators b delAddr vals totalTokens;
                  modify (SetDelegator (delegator <| ValidatorAddresses := getValsAddrs vals |> <| Shares := x |>))
              end
          end
    end.

(** ** Proxies *)

Definition unbindProxy b (delAddr : Address) : E unit :=
  o ← gets (GetDelegator delAddr);
  match o with
  | None => throw (ErrNoDelegationToAddShares delAddr)
  | Some delegator =>
      o ← gets (fun s => ProxyAddress delegator ≫= fun p => GetDelegator p s);
      match o with
      | None => throw (ErrProxyNotFound delAddr)
      | Some proxyDelegator =>
          _ ← or_error (UpdateProxy b delegator (Dec_Mul (Tokens delegator) (NewDec (-1)))) (ErrInvalidDelegation delAddr);
          let delegator := UnbindProxy delegator in
          _ ← modify (SetDelegator delegator);
          modify (SetProxyBinding (DelegatorAddress proxyDelegator) (DelegatorAddress delegator) true)
      end
  end.

Definition handleMsgUnbindProxy b (delAddr : Address) : E unit := unbindProxy b delAddr.

Definition bind_to b delegator proxyDelegator (proxyAddress : Address) : E unit :=
  _ ← when (HasProxy delegator) (unbindProxy b (DelegatorAddress delegator));
  let delegator := BindProxy delegator proxyAddress in
  let proxyDelegator := proxyDelegator <| TotalDelegatedTokens := TotalDelegatedTokens proxyDelegator + Tokens delegator |> in
  _ ← modify (SetDelegator delegator);
  _ ← modify (SetDelegator proxyDelegator);
  _ ← modify (SetProxyBinding (DelegatorAddress proxyDelegator) (DelegatorAddress delegator) false);
  let finalTokens := TotalDelegatedTokens proxyDelegator + Tokens proxyDelegator in
  or_error (UpdateShares b (DelegatorAddress proxyDelegator) finalTokens)
    (ErrInvalidDelegation (DelegatorAddress proxyDelegator)).

Definition handleMsgBindProxy b (delAddr proxyAddress : Address) : E unit :=
  o ← gets (GetDelegator delAddr);
  match o with
  | None => throw (ErrNoDelegationToAddShares delAddr)
  | Some delegator =>
      if Tokens delegator =? 0 then throw (ErrNoDelegationToAddShares delAddr)
      else if negb (Shares delegator =? 0) then throw (ErrAlreadyAddedShares (DelegatorAddress delegator))
      else
        o ← gets (GetDelegator proxyAddress);
        match o with
        | None => throw (ErrProxyNotFound proxyAddress)
        | Some proxyDelegator =>
            if Tokens proxyDelegator =? 0 then throw (ErrProxyNotFound proxyAddress)
            else if negb (IsProxy proxyDelegator) then throw (ErrProxyNotFound proxyAddress)
            else if IsProxy delegator then throw (ErrDoubleProxy (DelegatorAddress delegator))
            else if bool_decide (ProxyAddress delegator = Some (DelegatorAddress proxyDelegator)) then
              let updateTokens := TotalDelegatedTokens proxyDelegator + Tokens proxyDelegator in
              or_error (UpdateShares b (DelegatorAddress proxyDelegator) updateTokens)
                (ErrInvalidDelegation (DelegatorAddress proxyDelegator))
            else bind_to b delegator proxyDelegator proxyAddress
        end
  end.

Definition regProxy b (proxyAddr : Address) : E unit :=
  o ← gets (GetDelegator proxyAddr);
  match o with
  | None => throw (ErrNoDelegationToAddShares proxyAddr)
  | Some proxy =>
      if IsProxy proxy then throw (ErrProxyAlreadyExist proxyAddr)
      else if HasProxy proxy then throw (ErrAlreadyBound proxyAddr)
      else
        let proxy := RegProxy proxy true in
        _ ← modify (SetDelegator proxy);
        or_error (UpdateShares b (DelegatorAddress proxy) (Tokens proxy)) (ErrInvalidDelegation (DelegatorAddress proxy))
  end.

Definition unregProxy b (proxyAddr : Address) : E unit :=
  o ← gets (GetDelegator proxyAddr);
  match o with
  | None => throw (ErrProxyNotFound proxyAddr)
  | Some proxy =>
      if negb (IsProxy proxy) then throw (ErrProxyNotFound proxyAddr)
      else
        let proxy := RegProxy proxy false in
        let proxy := proxy <| TotalDelegatedTokens := 0 |> in
        _ ← ClearProxy (DelegatorAddress proxy);
        _ ← modify (SetDelegator proxy);
        or_error (UpdateShares b (DelegatorAddress proxy) (Tokens proxy)) (ErrInvalidDelegation (DelegatorAddress proxy))
  end.

Definition handleRegProxy b (proxyAddress : Address) (reg : bool) : E unit :=
  if reg then regProxy b proxyAddress else unregProxy b proxyAddress.

(** ** Dispatch *)
Definition NewHandler b (msg : stk_msg) : E unit :=
  match msg with
  | CreateValidator m => handleMsgCreateValidator m
  | EditValidator v desc => handleMsgEditValidator v desc
  | Deposit a amount => handleMsgDeposit b a amount
  | WithdrawTokens a amount => handleMsgWithdraw b a amount
  | AddShares a vals => handleMsgAddShares b a vals
  | Bind a p => handleMsgBindProxy b a p
  | Unbind a => handleMsgUnbindProxy b a
  | Reg p reg => handleRegProxy b p reg
  | DestroyValidator a => handleMsgDestroyValidator b a
  end.

End Handler.
End StakingHandler.
