(* ===== verification/StakingAcct.v ===== *)
(** The accounts of the staking module, abstractly.

    What matters to the owners of tokens: how much each delegator has
    bonded, to which proxy it is bound, what is being undelegated until
    when, and what the two pools hold.  [Acct] is that state, [acct_ok] the
    invariants the module registers about it, and the operations below say
    what each message does to it.  [StakingRefine.v] shows that the
    handlers implement these operations. *)
From S2P Require Import Prelude.
From S2P Require Import Interfaces.
From S2P Require Import Sums.
From S2P Require Import StakingTypes.
Local Open Scope Z_scope.

Record Deleg := mkDeleg { dl_tokens : Dec; dl_isproxy : bool; dl_total : Dec; dl_proxy : option Address }.
#[export] Instance Deleg_eta : Eta Deleg := fun r =>
  mkDeleg (dl_tokens r) (dl_isproxy r) (dl_total r) (dl_proxy r).

Record Acct := mkAcct {
  a_del : gmap Address Deleg;
  a_ud : gmap Address UndelegationInfo;
  a_queue : gset (Time * Address);
  a_prox : gset (Address * Address);    (* proxy, delegator *)
  a_bonded : Dec;
  a_notbonded : Dec;
  a_msd : Dec;                          (* minimum self-delegations of all validators *)
}.
#[export] Instance Acct_eta : Eta Acct := fun r =>
  mkAcct (a_del r) (a_ud r) (a_queue r) (a_prox r) (a_bonded r) (a_notbonded r) (a_msd r).

Module StakingAcct.
Implicit Types (m : gmap Address Deleg) (d : Deleg) (s : Acct) (a p : Address).

(** ** Operations *)

Definition no_deleg : Deleg := mkDeleg 0 false 0 None.
Definition add_tokens (x : Dec) d : Deleg := d <| dl_tokens := dl_tokens d + x |>.
Definition add_total (x : Dec) d : Deleg := d <| dl_total := dl_total d + x |>.

(** The proxy of [d], if any, counts [x] tokens more. *)
Definition credit_proxy d (x : Dec) m : gmap Address Deleg :=
  match dl_proxy d with Some p => alter (add_total x) p m | None => m end.

Definition a_deposit a (x : Dec) s : Acct :=
  let d := default no_deleg (a_del s !! a) in
  s <| a_del := credit_proxy d x (<[a := add_tokens x d]> (a_del s)) |>
    <| a_bonded := a_bonded s + x |>.

(** Tokens leave the bonded pool and wait until [t]; a running
    undelegation starts over. *)
Definition a_enqueue a (x : Dec) (t : Time) s : Acct :=
  let old := a_ud s !! a in
  let q := match old with Some u => a_queue s ∖ {[(CompletionTime u, a)]} | None => a_queue s end in
  s <| a_ud := <[a := mkUndelegation a (from_option Quantity 0 old + x) t]> (a_ud s) |>
    <| a_queue := q ∪ {[(t, a)]} |>.

Definition a_unbond (x : Dec) s : Acct :=
  s <| a_bonded := a_bonded s - x |> <| a_notbonded := a_notbonded s + x |>.

Definition a_withdraw a (x : Dec) (t : Time) s : Acct :=
  let d := default no_deleg (a_del s !! a) in
  let m := credit_proxy d (- x) (a_del s) in
  let s := a_unbond x s in
  let s :=
    if dl_tokens d - x =? 0 then
      s <| a_del := delete a m |>
        <| a_prox := match dl_proxy d with Some p => a_prox s ∖ {[(p, a)]} | None => a_prox s end |>
    else s <| a_del := <[a := add_tokens (- x) d]> m |> in
  a_enqueue a x t s.

(** The undelegation queued under [k] is paid out. *)
Definition a_complete (k : Time * Address) s : Acct :=
  let s := s <| a_queue := a_queue s ∖ {[k]} |> in
  match a_ud s !! k.2 with
  | Some u => s <| a_ud := delete k.2 (a_ud s) |> <| a_notbonded := a_notbonded s - Quantity u |>
  | None => s
  end.

Definition a_unbind a s : Acct :=
  match a_del s !! a with
  | Some d =>
      s <| a_del := <[a := d <| dl_proxy := None |>]> (credit_proxy d (- dl_tokens d) (a_del s)) |>
        <| a_prox := match dl_proxy d with Some p => a_prox s ∖ {[(p, a)]} | None => a_prox s end |>
  | None => s
  end.

Definition a_bind a p s : Acct :=
  match a_del s !! a with
  | Some d =>
      let s := a_unbind a s in
      s <| a_del := alter (add_total (dl_tokens d)) p
             (<[a := d <| dl_proxy := Some p |> <| dl_isproxy := false |>]> (a_del s)) |>
        <| a_prox := a_prox s ∪ {[(p, a)]} |>
  | None => s
  end.

Definition a_reg p s : Acct :=
  s <| a_del := alter (fun d => d <| dl_isproxy := true |> <| dl_proxy := None |>) p (a_del s) |>.

Definition free_from p d : Deleg := if decide (dl_proxy d = Some p) then d <| dl_proxy := None |> else d.
Definition a_unreg p s : Acct :=
  s <| a_del := alter (fun d => d <| dl_isproxy := false |> <| dl_total := 0 |>) p (free_from p <$> a_del s) |>
    <| a_prox := filter (fun k => k.1 ≠ p) (a_prox s) |>.

Definition a_create (msd : Dec) s : Acct :=
  s <| a_bonded := a_bonded s + msd |> <| a_msd := a_msd s + msd |>.

Definition a_destroy a (msd : Dec) (t : Time) s : Acct :=
  a_enqueue a msd t (a_unbond msd s <| a_msd := a_msd s - msd |>).

(** ** Invariants *)

Definition bound_tokens p m : Z := msum (fun _ d => if decide (dl_proxy d = Some p) then dl_tokens d else 0) m.

Record acct_ok s : Prop := {
  (** [ModuleAccountInvariantsCustom] *)
  ok_bonded : a_bonded s = a_msd s + msum (fun _ d => dl_tokens d) (a_del s);
  ok_notbonded : a_notbonded s = msum (fun _ u => Quantity u) (a_ud s);
  (** [PositiveDelegatorInvariant] *)
  ok_positive a d : a_del s !! a = Some d -> 0 < dl_tokens d;
  (** Every undelegation is in the queue once, under its own time. *)
  ok_ud a u : a_ud s !! a = Some u -> ud_DelegatorAddress u = a /\ 0 < Quantity u;
  ok_queue t a : (t, a) ∈ a_queue s <-> exists u, a_ud s !! a = Some u /\ CompletionTime u = t;
  (** Bindings go from delegators that are no proxies to proxies. *)
  ok_prox p a : (p, a) ∈ a_prox s <-> exists d, a_del s !! a = Some d /\ dl_proxy d = Some p;
  ok_bound a d p : a_del s !! a = Some d -> dl_proxy d = Some p ->
    dl_isproxy d = false /\ exists e, a_del s !! p = Some e /\ dl_isproxy e = true;
  (** A proxy counts the tokens of the delegators bound to it. *)
  ok_total p e : a_del s !! p = Some e -> dl_total e = bound_tokens p (a_del s);
}.

(** ** Lemmas *)

Lemma lookup_credit d x m a :
  credit_proxy d x m !! a = (if decide (dl_proxy d = Some a) then add_total x <$> m !! a else m !! a).
Proof.
  unfold credit_proxy. destruct (dl_proxy d) as [p|]; [|done].
  rewrite lookup_alter. repeat case_decide; naive_solver.
Qed.

(** Changing totals and proxy flags changes no sum of tokens. *)
Lemma msum_alter (f : Address -> Deleg -> Z) (g : Deleg -> Deleg) p m :
  (forall d, f p (g d) = f p d) -> msum f (alter g p m) = msum f m.
Proof.
  intros Hfg. destruct (m !! p) as [d|] eqn:Hp.
  - assert (alter g p m = <[p := g d]> m) as ->.
    { apply map_eq. intros k. rewrite lookup_alter, lookup_insert. case_decide; [|done]. subst. by rewrite Hp. }
    rewrite msum_insert, Hp. simpl. rewrite Hfg. lia.
  - f_equal. apply map_eq. intros k. rewrite lookup_alter. case_decide; [|done]. subst. by rewrite Hp.
Qed.

Lemma msum_credit f d x m : (forall a d', f a (add_total x d') = f a d') -> msum f (credit_proxy d x m) = msum f m.
Proof. intros Hf. unfold credit_proxy. destruct (dl_proxy d); [|done]. by apply msum_alter. Qed.

Lemma bound_tokens_insert p m a d : bound_tokens p (<[a := d]> m) =
  bound_tokens p m - from_option (fun d => if decide (dl_proxy d = Some p) then dl_tokens d else 0) 0 (m !! a)
  + if decide (dl_proxy d = Some p) then dl_tokens d else 0.
Proof. unfold bound_tokens. by rewrite msum_insert. Qed.

Lemma bound_tokens_credit p d x m : bound_tokens p (credit_proxy d x m) = bound_tokens p m.
Proof. unfold bound_tokens. by apply msum_credit. Qed.

(** ** One delegator changes *)

(** What delegator [o] adds to the total of proxy [p]. *)
Definition share_of p (o : option Deleg) : Z :=
  from_option (fun d => if decide (dl_proxy d = Some p) then dl_tokens d else 0) 0 o.
Definition tokens_of (o : option Deleg) : Z := from_option dl_tokens 0 o.

Record del_ok m (prox : gset (Address * Address)) : Prop := {
  do_positive a d : m !! a = Some d -> 0 < dl_tokens d;
  do_prox p a : (p, a) ∈ prox <-> exists d, m !! a = Some d /\ dl_proxy d = Some p;
  do_bound a d p : m !! a = Some d -> dl_proxy d = Some p ->
    dl_isproxy d = false /\ exists e, m !! p = Some e /\ dl_isproxy e = true;
  do_total p e : m !! p = Some e -> dl_total e = bound_tokens p m;
}.

Lemma acct_ok_split s : acct_ok s <->
  del_ok (a_del s) (a_prox s) /\
  a_bonded s = a_msd s + msum (fun _ d => dl_tokens d) (a_del s) /\
  a_notbonded s = msum (fun _ u => Quantity u) (a_ud s) /\
  (forall a u, a_ud s !! a = Some u -> ud_DelegatorAddress u = a /\ 0 < Quantity u) /\
  (forall t a, (t, a) ∈ a_queue s <-> exists u, a_ud s !! a = Some u /\ CompletionTime u = t).
Proof.
  split.
  - intros []. split_and!; [|done..]. by split.
  - intros ([] & ? & ? & ? & ?). by split.
Qed.

(** [m'] is [m] with the entry of [a] replaced and the totals adjusted. *)
Definition replaced a (o' : option Deleg) m m' : Prop :=
  m' !! a = o' /\
  forall b, b ≠ a -> m' !! b = add_total (share_of b o' - share_of b (m !! a)) <$> m !! b.

Definition erase d : Deleg := d <| dl_total := 0 |>.

Lemma msum_replaced a o' m m' (f : Address -> Deleg -> Z) : replaced a o' m m' ->
  (forall b x d, f b (d <| dl_total := x |>) = f b d) ->
  msum f m' = msum f m - from_option (f a) 0 (m !! a) + from_option (f a) 0 o'.
Proof.
  intros [Ha Hb] Hf.
  assert (forall m, msum f m = msum f (erase <$> m)) as He.
  { intros m0. induction m0 as [|k v m0 Hk IH] using map_ind; [by rewrite fmap_empty|].
    rewrite fmap_insert, !msum_insert_new by (rewrite ?lookup_fmap; by rewrite ?Hk).
    rewrite <- IH. unfold erase. by rewrite Hf. }
  assert (erase <$> m' = partial_alter (fun _ => erase <$> o') a (erase <$> m)) as Heq.
  { apply map_eq. intros b. rewrite lookup_fmap. destruct (decide (b = a)) as [->|Hne].
    - by rewrite Ha, lookup_partial_alter_eq.
    - rewrite lookup_partial_alter_ne, lookup_fmap, Hb by done. by destruct (m !! b). }
  assert (forall d, f a (erase d) = f a d) as Hfe by (intros; apply Hf).
  rewrite (He m'), Heq, msum_partial_alter, <- He, lookup_fmap.
  destruct (m !! a), o'; cbn [from_option fmap option_fmap option_map]; rewrite ?Hfe; lia.
Qed.

Lemma share_self a d m prox : del_ok m prox -> m !! a = Some d -> dl_proxy d ≠ Some a.
Proof.
  intros Hm Ha Hp. destruct (do_bound m prox Hm a d a Ha Hp) as (Hf & e & He & Ht). congruence.
Qed.

Lemma del_ok_replaced a o' m m' prox prox' : del_ok m prox -> replaced a o' m m' ->
  (forall d', o' = Some d' -> 0 < dl_tokens d' /\ dl_total d' = bound_tokens a m /\
     forall p, dl_proxy d' = Some p -> dl_isproxy d' = false /\ p ≠ a /\ exists e, m !! p = Some e /\ dl_isproxy e = true) ->
  (forall b e, b ≠ a -> m !! b = Some e -> dl_proxy e = Some a -> exists d', o' = Some d' /\ dl_isproxy d' = true) ->
  (forall p b, (p, b) ∈ prox' <->
     if decide (b = a) then exists d', o' = Some d' /\ dl_proxy d' = Some p else (p, b) ∈ prox) ->
  del_ok m' prox'.
Proof.
  intros Hm Hrep Hnew Hback Hprox. pose proof Hrep as [Ha Hb].
  assert (forall b e', b ≠ a -> m' !! b = Some e' -> exists e, m !! b = Some e /\
    e' = add_total (share_of b o' - share_of b (m !! a)) e) as Hold.
  { intros b e' Hne He'. rewrite Hb in He' by done. apply fmap_Some in He' as (e & ? & ?). by exists e. }
  split.
  - intros b d Hd. destruct (decide (b = a)) as [->|Hne].
    + rewrite Ha in Hd. by apply (Hnew d).
    + destruct (Hold b d Hne Hd) as (e & He & ->). by apply (do_positive m prox Hm b e).
  - intros p b. rewrite Hprox. case_decide as Hd; [subst b; by rewrite Ha|].
    rewrite (do_prox m prox Hm), (Hb b Hd). split.
    + intros (d & Hdb & Hp). rewrite Hdb. eexists. by split.
    + intros (d' & (e & He & ->)%fmap_Some & Hp). exists e. by split.
  - intros b d p Hd Hp. destruct (decide (b = a)) as [->|Hne].
    + rewrite Ha in Hd. destruct (Hnew d Hd) as (_ & _ & Hpx). destruct (Hpx p Hp) as (Hf & Hpa & e & He & Ht).
      split; [done|]. rewrite Hb, He by done. by eexists.
    + destruct (Hold b d Hne Hd) as (e & He & ->).
      destruct (do_bound m prox Hm b e p He Hp) as (Hf & e2 & He2 & Ht). split; [done|].
      destruct (decide (p = a)) as [->|Hpa].
      * rewrite Ha. destruct (Hback b e Hne He Hp) as (d' & -> & Hd'). by exists d'.
      * rewrite Hb, He2 by done. by eexists.
  - intros p e' He'. unfold bound_tokens. rewrite (msum_replaced a o' m m' _ Hrep) by done. fold (bound_tokens p m).
    change (from_option _ 0 (m !! a)) with (share_of p (m !! a)). change (from_option _ 0 o') with (share_of p o').
    destruct (decide (p = a)) as [->|Hne].
    + rewrite Ha in He'. destruct (Hnew e' He') as (_ & -> & Hpx).
      assert (share_of a o' = 0) as ->.
      { unfold share_of. rewrite He'. simpl. case_decide as Hp; [|done]. by destruct (Hpx a Hp) as (_ & ? & _). }
      assert (share_of a (m !! a) = 0) as ->; [|lia].
      unfold share_of. destruct (m !! a) as [d|] eqn:Hd; [|done]. simpl. case_decide as Hp; [|done].
      by destruct (share_self a d m prox Hm Hd).
    + destruct (Hold p e' Hne He') as (e & He & ->). cbn. rewrite (do_total m prox Hm p e He). lia.
Qed.

Lemma tokens_replaced a o' m m' : replaced a o' m m' ->
  msum (fun _ d => dl_tokens d) m' = msum (fun _ d => dl_tokens d) m - tokens_of (m !! a) + tokens_of o'.
Proof. intros Hrep. by rewrite (msum_replaced a o' m m' _ Hrep). Qed.

(** *** The ways an entry is replaced *)

Lemma add_total_0 d : add_total 0 d = d.
Proof. destruct d. unfold add_total. cbn. f_equal. lia. Qed.
Lemma fmap_add_total_0 x (o : option Deleg) : x = 0 -> o = add_total x <$> o.
Proof. intros ->. destruct o as [d|]; [|done]. change (Some d = Some (add_total 0 d)). by rewrite add_total_0. Qed.

(** The old entry as the operations see it: a missing one is empty. *)
Definition entry a m : Deleg := default no_deleg (m !! a).
Lemma share_of_entry a b m : share_of b (m !! a) = share_of b (Some (entry a m)).
Proof. unfold entry. by destruct (m !! a). Qed.

Lemma replaced_credit a d' x m : dl_proxy (entry a m) ≠ Some a ->
  dl_proxy d' = dl_proxy (entry a m) -> dl_tokens d' = dl_tokens (entry a m) + x ->
  replaced a (Some d') m (credit_proxy (entry a m) x (<[a := d']> m)).
Proof.
  intros Hself Hp Ht. split; [rewrite lookup_credit, lookup_insert_eq; by case_decide|].
  intros b Hb. rewrite lookup_credit, lookup_insert_ne, share_of_entry by done. cbn. rewrite Hp, Ht.
  case_decide; cbn.
  - f_equal. f_equal. lia.
  - apply fmap_add_total_0. lia.
Qed.

Lemma credit_insert a d d' x m : dl_proxy d ≠ Some a ->
  <[a := d']> (credit_proxy d x m) = credit_proxy d x (<[a := d']> m).
Proof.
  intros Hself. apply map_eq. intros b. rewrite lookup_credit, !lookup_insert, lookup_credit.
  repeat case_decide; by subst.
Qed.

Lemma replaced_delete a x m : dl_proxy (entry a m) ≠ Some a -> x = dl_tokens (entry a m) ->
  replaced a None m (delete a (credit_proxy (entry a m) (- x) m)).
Proof.
  intros Hself ->. split; [apply lookup_delete_eq|].
  intros b Hb. rewrite lookup_delete_ne, lookup_credit, share_of_entry by done. cbn.
  case_decide; [f_equal; f_equal; lia|]. apply fmap_add_total_0. lia.
Qed.

Lemma replaced_unbind a d d' m : m !! a = Some d -> dl_proxy d ≠ Some a -> dl_proxy d' = None ->
  replaced a (Some d') m (<[a := d']> (credit_proxy d (- dl_tokens d) m)).
Proof.
  intros Ha Hself Hp. split; [apply lookup_insert_eq|].
  intros b Hb. rewrite lookup_insert_ne, lookup_credit, Ha by done. cbn. rewrite Hp. rewrite (decide_False (P := None = Some b)) by done.
  case_decide.
  - done.
  - apply fmap_add_total_0. lia.
Qed.

Lemma replaced_bind a p d d' m : m !! a = Some d -> dl_proxy d = None -> p ≠ a ->
  dl_proxy d' = Some p ->
  replaced a (Some d') m (alter (add_total (dl_tokens d')) p (<[a := d']> m)).
Proof.
  intros Ha Hno Hpa Hp. split; [by rewrite lookup_alter_ne, lookup_insert_eq|].
  intros b Hb. rewrite Ha. cbn. rewrite Hno, Hp. rewrite (decide_False (P := None = Some b)) by done. rewrite lookup_alter, !lookup_insert_ne by done.
  repeat case_decide; try naive_solver.
  - subst b. f_equal. f_equal. lia.
  - apply fmap_add_total_0. lia.
Qed.

(** ** Every operation keeps the accounts in order *)

Lemma bound_tokens_none p m : (forall a d, m !! a = Some d -> dl_proxy d ≠ Some p) -> bound_tokens p m = 0.
Proof. intros Hno. apply msum_zero. intros a d Ha. case_decide; [|done]. by destruct (Hno a d Ha). Qed.

Lemma del_ok_unbound m prox p : del_ok m prox ->
  (forall e, m !! p = Some e -> dl_isproxy e = false) -> forall a d, m !! a = Some d -> dl_proxy d ≠ Some p.
Proof.
  intros Hm Hp a d Ha Hd. destruct (do_bound m prox Hm a d p Ha Hd) as (_ & e & He & Ht).
  rewrite (Hp e He) in Ht. done.
Qed.

Lemma entry_self a m prox : del_ok m prox -> dl_proxy (entry a m) ≠ Some a.
Proof.
  intros Hm. unfold entry. destruct (m !! a) as [d|] eqn:Ha; [|done]. by apply (share_self a d m prox).
Qed.

Lemma entry_total a m prox : del_ok m prox -> dl_total (entry a m) = bound_tokens a m.
Proof.
  intros Hm. unfold entry. destruct (m !! a) as [d|] eqn:Ha; [by apply (do_total m prox Hm)|].
  symmetry. apply bound_tokens_none. apply (del_ok_unbound m prox a Hm). intros e He. congruence.
Qed.

(** A changed amount: binding, role and total stay. *)
Lemma del_ok_tokens a x m prox : del_ok m prox -> 0 < dl_tokens (entry a m) + x ->
  del_ok (credit_proxy (entry a m) x (<[a := add_tokens x (entry a m)]> m)) prox.
Proof.
  intros Hm Hpos. pose proof (entry_self a m prox Hm) as Hself.
  apply (del_ok_replaced a (Some (add_tokens x (entry a m))) m _ prox); [done|by apply replaced_credit|..].
  - intros d' [= <-]. split; [done|]. split; [by apply (entry_total a m prox)|].
    intros p Hp. change (dl_proxy (entry a m) = Some p) in Hp.
    unfold entry in *. destruct (m !! a) as [d|] eqn:Ha; [|done].
    destruct (do_bound m prox Hm a d p Ha Hp) as (Hf & e & He). split; [done|]. split; [congruence|]. by exists e.
  - intros b e Hb He Hp. destruct (do_bound m prox Hm b e a He Hp) as (_ & e' & He' & Ht).
    eexists. split; [done|]. unfold entry. by rewrite He'.
  - intros p b. case_decide as Hb; [subst b|done]. rewrite (do_prox m prox Hm p a). split.
    + intros (d & Hd & Hp). eexists. split; [done|]. unfold entry. by rewrite Hd.
    + intros (d' & [= <-] & Hp). change (dl_proxy (entry a m) = Some p) in Hp.
      unfold entry in Hp. destruct (m !! a) as [d|] eqn:Ha; [|done]. by exists d.
Qed.

Lemma tokens_entry a m : tokens_of (m !! a) = dl_tokens (entry a m).
Proof. unfold entry. by destruct (m !! a). Qed.

Lemma a_deposit_ok a x s : acct_ok s -> 0 < x -> acct_ok (a_deposit a x s).
Proof.
  rewrite !acct_ok_split. intros (Hd & Hb & Hrest) Hx. cbn.
  fold (entry a (a_del s)). pose proof (entry_self a _ _ Hd) as Hself. split; [|split; [|exact Hrest]].
  - apply del_ok_tokens; [done|]. unfold entry. destruct (a_del s !! a) eqn:E; cbn; [|lia].
    pose proof (do_positive _ _ Hd _ _ E). lia.
  - erewrite tokens_replaced by by apply replaced_credit. rewrite tokens_entry. cbn. lia.
Qed.

Lemma a_enqueue_ok a x t s : 0 < x ->
  acct_ok (s <| a_notbonded := a_notbonded s - x |>) -> acct_ok (a_enqueue a x t s).
Proof.
  rewrite !acct_ok_split. intros Hx (Hd & Hb & Hn & Hu & Hq). cbn in *. split_and!; [done|done|..].
  - rewrite msum_insert. cbn. destruct (a_ud s !! a); cbn; lia.
  - intros b u. rewrite lookup_insert. case_decide as Hab; [|by apply Hu]. intros [= <-]. split; [done|]. cbn.
    destruct (a_ud s !! a) as [u|] eqn:E; cbn; [|lia]. destruct (Hu a u E). lia.
  - intros t' b. rewrite elem_of_union, elem_of_singleton, lookup_insert.
    assert ((t', b) ∈ (match a_ud s !! a with Some u => a_queue s ∖ {[(CompletionTime u, a)]} | None => a_queue s end)
      <-> a ≠ b /\ exists u, a_ud s !! b = Some u /\ CompletionTime u = t') as ->.
    { destruct (a_ud s !! a) as [u|] eqn:E; rewrite ?elem_of_difference, Hq, ?elem_of_singleton.
      - split; [|naive_solver]. intros [(u' & Hu' & <-) Hne]. split; [|by exists u']. intros ->. congruence.
      - split; [|naive_solver]. intros (u' & Hu' & <-). split; [|by exists u']. congruence. }
    case_decide as Hab; [subst b|naive_solver]. split.
    + intros [[? _]|[= ->]]; [done|]. by eexists.
    + intros (u & [= <-] & Ht). cbn in Ht. subst. by right.
Qed.

Lemma a_complete_ok t a s : acct_ok s -> (t, a) ∈ a_queue s -> acct_ok (a_complete (t, a) s).
Proof.
  rewrite !acct_ok_split. intros (Hd & Hb & Hn & Hu & Hq) Hin. unfold a_complete. cbn.
  apply Hq in Hin as (u & Ha & Ht). rewrite Ha. cbn. split_and!; [done|done|..].
  - rewrite msum_delete_default, Ha. cbn. lia.
  - intros b u' (_ & Hb')%lookup_delete_Some. by apply Hu.
  - intros t' b. rewrite elem_of_difference, elem_of_singleton, Hq. split.
    + intros [(u' & Hb' & <-) Hne]. exists u'. split; [|done]. apply lookup_delete_Some. split; [|done].
      intros ->. congruence.
    + intros (u' & [Hne Hb']%lookup_delete_Some & <-). split; [by exists u'|]. intros [= _ ->]. done.
Qed.

(** The last token leaves: the delegator and its binding go. *)
Lemma del_ok_delete a m prox : del_ok m prox ->
  (forall e, m !! a = Some e -> dl_isproxy e = false) ->
  del_ok (delete a (credit_proxy (entry a m) (- dl_tokens (entry a m)) m))
    (match dl_proxy (entry a m) with Some p => prox ∖ {[(p, a)]} | None => prox end).
Proof.
  intros Hm Hno. pose proof (entry_self a m prox Hm) as Hself.
  apply (del_ok_replaced a None m _ prox); [done|by apply replaced_delete|done|..].
  - intros b e Hb He Hp. by destruct (del_ok_unbound m prox a Hm Hno b e He).
  - intros p b.
    assert ((p, b) ∈ (match dl_proxy (entry a m) with Some p => prox ∖ {[(p, a)]} | None => prox end)
      <-> (p, b) ∈ prox /\ ~ (b = a /\ dl_proxy (entry a m) = Some p)) as ->.
    { destruct (dl_proxy (entry a m)) as [q|]; [rewrite elem_of_difference, elem_of_singleton|]; naive_solver. }
    case_decide as Hb; [subst b|naive_solver]. split; [|by intros (? & ? & _)].
    intros [(d & Hd & Hp)%(do_prox m prox Hm) Hn]. destruct Hn. split; [done|]. unfold entry. by rewrite Hd.
Qed.

Lemma a_withdraw_ok a x t s : acct_ok s -> 0 < x ->
  (forall d, a_del s !! a = Some d -> x <= dl_tokens d /\ (dl_isproxy d = true -> x ≠ dl_tokens d)) ->
  is_Some (a_del s !! a) -> acct_ok (a_withdraw a x t s).
Proof.
  rewrite acct_ok_split. intros (Hd & Hb & Hn & Hrest) Hx Hle [d Ha]. destruct (Hle d Ha) as [Hxd Hpx].
  pose proof (entry_self a _ _ Hd) as Hself.
  assert (default no_deleg (a_del s !! a) = d) as Hent by by rewrite Ha.
  assert (entry a (a_del s) = d) as Hent' by done.
  apply a_enqueue_ok; [done|]. rewrite Hent. case_match eqn:E; cbn.
  - apply Z.eqb_eq in E. assert (x = dl_tokens d) as -> by lia. rewrite acct_ok_split. cbn. split; [|split; [|split]].
    + rewrite <- Hent'. apply del_ok_delete; [done|]. intros e He. assert (e = d) as -> by congruence.
      destruct (dl_isproxy d); [|done]. by destruct (Hpx eq_refl).
    + rewrite <- Hent'. erewrite tokens_replaced by by apply replaced_delete.
      rewrite tokens_entry. cbn. rewrite Hb. lia.
    + lia.
    + done.
  - apply Z.eqb_neq in E. rewrite acct_ok_split. cbn. rewrite credit_insert by by rewrite <- Hent'.
    split; [|split; [|split]].
    + rewrite <- Hent'. apply del_ok_tokens; [done|]. rewrite Hent'. lia.
    + rewrite <- Hent'. erewrite tokens_replaced by (apply replaced_credit; [done|done|cbn; lia]).
      rewrite tokens_entry. cbn. lia.
    + lia.
    + done.
Qed.

(** Replacing an entry without moving tokens moves no pool. *)
Lemma acct_ok_role a d' m' prox' s : acct_ok s -> replaced a (Some d') (a_del s) m' -> del_ok m' prox' ->
  dl_tokens d' = tokens_of (a_del s !! a) ->
  acct_ok (s <| a_del := m' |> <| a_prox := prox' |>).
Proof.
  rewrite !acct_ok_split. intros (_ & Hb & Hrest) Hrep Hok Ht. cbn. split; [done|]. split; [|exact Hrest].
  rewrite (tokens_replaced _ _ _ _ Hrep). cbn. lia.
Qed.

Lemma a_unbind_ok a s : acct_ok s -> (exists d p, a_del s !! a = Some d /\ dl_proxy d = Some p) ->
  acct_ok (a_unbind a s).
Proof.
  intros Hok (d & p & Ha & Hp). pose proof (proj1 (proj1 (acct_ok_split s) Hok)) as Hd.
  pose proof (share_self a d _ _ Hd Ha) as Hself. unfold a_unbind. rewrite Ha, Hp.
  assert (replaced a (Some (d <| dl_proxy := None |>)) (a_del s)
    (<[a := d <| dl_proxy := None |>]> (credit_proxy d (- dl_tokens d) (a_del s)))) as Hrep by by apply replaced_unbind.
  refine (acct_ok_role a _ _ _ s Hok Hrep _ _); [|by rewrite Ha].
  destruct (do_bound _ _ Hd a d p Ha Hp) as (Hf & _).
  apply (del_ok_replaced a _ _ _ _ _ Hd Hrep).
  - intros d' [= <-]. split; [by apply (do_positive _ _ Hd a d)|]. split; [exact (do_total _ _ Hd a d Ha)|done].
  - intros b e Hb He Hpe. destruct (do_bound _ _ Hd b e a He Hpe) as (_ & e' & He' & Ht). congruence.
  - intros q b. rewrite elem_of_difference, elem_of_singleton. case_decide as Hb; [subst b|naive_solver].
    rewrite (do_prox _ _ Hd). split; [|naive_solver].
    intros [(d1 & Hd1 & Hq) Hne]. assert (d1 = d) as -> by congruence. destruct Hne. congruence.
Qed.

Lemma a_unbind_free a d s : a_del s !! a = Some d -> dl_proxy d = None -> a_unbind a s = s.
Proof.
  intros Ha Hp. unfold a_unbind, credit_proxy. rewrite Ha, Hp. destruct s. cbn in *.
  f_equal. rewrite insert_id; [done|]. rewrite Ha. destruct d. cbn in *. by rewrite Hp.
Qed.

Lemma a_unbind_entry a d s : a_del s !! a = Some d -> a_del (a_unbind a s) !! a = Some (d <| dl_proxy := None |>).
Proof. intros Ha. unfold a_unbind. rewrite Ha. cbn. by rewrite lookup_insert_eq. Qed.

Lemma a_unbind_other a b e s : b ≠ a -> a_del s !! b = Some e ->
  exists e', a_del (a_unbind a s) !! b = Some e' /\ dl_isproxy e' = dl_isproxy e.
Proof.
  intros Hb He. unfold a_unbind. destruct (a_del s !! a) as [d|]; [|by exists e]. cbn.
  rewrite lookup_insert_ne, lookup_credit, He by done. case_decide; by eexists.
Qed.

(** An unbound delegator that is no proxy binds to a proxy. *)
Lemma a_bind_free a p d e s : acct_ok s -> a_del s !! a = Some d -> dl_proxy d = None -> dl_isproxy d = false ->
  a_del s !! p = Some e -> dl_isproxy e = true ->
  let d' := d <| dl_proxy := Some p |> <| dl_isproxy := false |> in
  acct_ok (s <| a_del := alter (add_total (dl_tokens d)) p (<[a := d']> (a_del s)) |>
             <| a_prox := a_prox s ∪ {[(p, a)]} |>).
Proof.
  intros Hok Ha Hp Hf He Ht d'. pose proof (proj1 (proj1 (acct_ok_split s) Hok)) as Hd.
  assert (p ≠ a) as Hpa by congruence.
  assert (replaced a (Some d') (a_del s) (alter (add_total (dl_tokens d)) p (<[a := d']> (a_del s)))) as Hrep
    by by apply (replaced_bind a p d d').
  refine (acct_ok_role a d' _ _ s Hok Hrep _ _); [|by rewrite Ha].
  apply (del_ok_replaced a _ _ _ _ _ Hd Hrep).
  - intros d1 [= <-]. split; [exact (do_positive _ _ Hd a d Ha)|]. split; [exact (do_total _ _ Hd a d Ha)|].
    intros q [= <-]. split; [done|]. split; [done|]. by exists e.
  - intros b e' Hb He' Hpe. destruct (do_bound _ _ Hd b e' a He' Hpe) as (_ & e2 & He2 & Ht2). congruence.
  - intros q b. rewrite elem_of_union, elem_of_singleton. case_decide as Hb; [subst b|naive_solver].
    rewrite (do_prox _ _ Hd). split.
    + intros [(d1 & Hd1 & Hq)|[= ->]]; [congruence|]. by exists d'.
    + intros (d1 & [= <-] & Hq). cbn in Hq. right. congruence.
Qed.

Lemma a_bind_ok a p s : acct_ok s ->
  (exists d, a_del s !! a = Some d /\ dl_isproxy d = false) ->
  (exists e, a_del s !! p = Some e /\ dl_isproxy e = true) -> acct_ok (a_bind a p s).
Proof.
  intros Hok (d & Ha & Hf) (e & He & Ht). unfold a_bind. rewrite Ha.
  assert (p ≠ a) as Hpa by congruence.
  destruct (a_unbind_other a p e s Hpa He) as (e' & He' & Ht').
  refine (a_bind_free a p (d <| dl_proxy := None |>) e' (a_unbind a s) _ (a_unbind_entry a d s Ha) eq_refl Hf He' _); [|congruence].
  destruct (dl_proxy d) as [q|] eqn:Hq; [apply a_unbind_ok; [done|by exists d, q]|].
  by rewrite (a_unbind_free a d).
Qed.

Lemma a_reg_ok p d s : acct_ok s -> a_del s !! p = Some d -> dl_isproxy d = false -> dl_proxy d = None ->
  acct_ok (a_reg p s).
Proof.
  intros Hok Ha Hf Hp. pose proof (proj1 (proj1 (acct_ok_split s) Hok)) as Hd.
  set (d' := d <| dl_isproxy := true |> <| dl_proxy := None |>).
  assert (replaced p (Some d') (a_del s) (a_del (a_reg p s))) as Hrep.
  { split; cbn; [by rewrite lookup_alter_eq, Ha|]. intros b Hb. rewrite lookup_alter_ne, Ha by done. cbn. rewrite Hp.
    rewrite (decide_False (P := None = Some b)) by done. by apply fmap_add_total_0. }
  assert (a_reg p s = s <| a_del := a_del (a_reg p s) |> <| a_prox := a_prox s |>) as -> by (by destruct s).
  refine (acct_ok_role p d' _ _ s Hok Hrep _ _); [|by rewrite Ha].
  apply (del_ok_replaced p _ _ _ _ _ Hd Hrep).
  - intros d1 [= <-]. split; [exact (do_positive _ _ Hd p d Ha)|]. split; [exact (do_total _ _ Hd p d Ha)|done].
  - intros b e Hb He Hpe. by exists d'.
  - intros q b. case_decide as Hb; [subst b|done]. rewrite (do_prox _ _ Hd). split.
    + intros (d1 & Hd1 & Hq). congruence.
    + intros (d1 & [= <-] & Hq). done.
Qed.

Lemma a_create_ok x s : acct_ok s -> acct_ok (a_create x s).
Proof. rewrite !acct_ok_split. intros (Hd & Hb & Hrest). cbn. split; [done|]. split; [lia|done]. Qed.

Lemma a_destroy_ok a x t s : acct_ok s -> 0 < x -> acct_ok (a_destroy a x t s).
Proof.
  rewrite acct_ok_split. intros (Hd & Hb & Hn & Hrest) Hx. apply a_enqueue_ok; [done|].
  rewrite acct_ok_split. cbn. split; [done|]. split; [lia|]. split; [lia|done].
Qed.

(** *** A proxy that steps down frees its delegators *)

Definition step_down d : Deleg := d <| dl_isproxy := false |> <| dl_total := 0 |>.

Lemma lookup_unreg p s a : a_del (a_unreg p s) !! a =
  (if decide (a = p) then step_down <$> (free_from p <$> a_del s !! a) else free_from p <$> a_del s !! a).
Proof.
  cbn. destruct (decide (a = p)) as [->|]; [rewrite lookup_alter_eq|rewrite lookup_alter_ne by done];
    by rewrite lookup_fmap.
Qed.

Lemma unreg_entry p s a d' : a_del (a_unreg p s) !! a = Some d' ->
  exists d, a_del s !! a = Some d /\ dl_tokens d' = dl_tokens d /\
    dl_proxy d' = (if decide (dl_proxy d = Some p) then None else dl_proxy d) /\
    (if decide (a = p) then dl_isproxy d' = false /\ dl_total d' = 0
     else dl_isproxy d' = dl_isproxy d /\ dl_total d' = dl_total d).
Proof.
  rewrite lookup_unreg. destruct (a_del s !! a) as [d|]; [|by case_decide]. intros Hd. exists d. split; [done|].
  assert (d' = if decide (a = p) then step_down (free_from p d) else free_from p d) as -> by (by case_decide; injection Hd).
  unfold free_from. repeat case_decide; cbn; done.
Qed.

Lemma bound_tokens_unreg p q m : bound_tokens q (alter step_down p (free_from p <$> m)) =
  if decide (q = p) then 0 else bound_tokens q m.
Proof.
  unfold bound_tokens. rewrite msum_alter by done. case_decide as Hq.
  - subst q. rewrite msum_fmap. apply (msum_zero (fun _ d => if decide (dl_proxy (free_from p d) = Some p) then _ else 0)).
    intros k d _. unfold free_from. by repeat case_decide.
  - apply msum_fmap_ext. intros k d _. unfold free_from. repeat case_decide; cbn in *; congruence.
Qed.

Lemma a_unreg_ok p d s : acct_ok s -> a_del s !! p = Some d -> dl_isproxy d = true -> acct_ok (a_unreg p s).
Proof.
  rewrite !acct_ok_split. intros (Hd & Hb & Hrest) Hp Ht. split; [|split; [|exact Hrest]].
  2: { cbn. rewrite Hb. f_equal. rewrite msum_alter by done. symmetry. apply msum_fmap_ext.
       intros k e _. unfold free_from. by case_decide. }
  split.
  - intros a d' (e & He & -> & _)%unreg_entry. by apply (do_positive _ _ Hd a).
  - intros q a. cbn [a_prox a_unreg set eta Acct_eta]. rewrite elem_of_filter, (do_prox _ _ Hd). split.
    + cbn. intros (Hq & e & He & Hqe). assert (a ≠ p) as Hap.
      { intros ->. destruct (do_bound _ _ Hd p e q He Hqe) as [Hf _]. congruence. }
      exists e. split; [|done]. rewrite lookup_alter_ne, lookup_fmap, He by done. cbn.
      unfold free_from. rewrite decide_False; [done|congruence].
    + intros (d' & (e & He & _ & Hpx & _)%unreg_entry & Hq). rewrite Hq in Hpx. case_decide; [done|].
      split; [cbn; congruence|]. by exists e.
  - intros a d' q (e & He & _ & Hpx & Hrole)%unreg_entry Hq. rewrite Hq in Hpx.
    destruct (decide (dl_proxy e = Some p)) as [|Hne]; [done|].
    destruct (do_bound _ _ Hd a e q He (eq_sym Hpx)) as (Hf & e2 & He2 & Ht2).
    split; [case_decide; [by apply Hrole|by rewrite (proj1 Hrole)]|].
    assert (q ≠ p) as Hqp by congruence.
    exists (free_from p e2). rewrite lookup_unreg, decide_False, He2 by done. split; [done|].
    unfold free_from. by destruct (decide (dl_proxy e2 = Some p)).
  - intros q e' (e & He & _ & _ & Hrole)%unreg_entry. change (a_del (a_unreg p s)) with (alter step_down p (free_from p <$> a_del s)).
    rewrite bound_tokens_unreg. case_decide; [by apply Hrole|]. rewrite (proj2 Hrole). by apply (do_total _ _ Hd).
Qed.

End StakingAcct.
