(* ===== verification/StakingView.v ===== *)
(** What the staking module's tables say about tokens, and the keeper
    methods that leave it alone.

    [view] maps the module's state to the accounts of [StakingAcct.v].
    Votes, the power index, the validator set and its queue do not show in
    it: the methods that only touch those are [silent]. *)
From S2P Require Import Prelude.
From S2P Require Import Interfaces.
From S2P Require Import Sums.
From S2P Require Import Effects.
From S2P Require Import StakingTypes.
From S2P Require Import StakingKeys.
From S2P Require Import StakingState.
From S2P Require Import StakingKeeper.
From S2P Require Import StakingAcct.
Import StakingTypes StakingKeys StakingState StakingKeeper StakingAcct.
Local Open Scope Z_scope.

Create HintDb staking.

Module StakingView.
Section View.
Context {W : Type} `{SupplyKeeperLaws W, !StakingHooks W, !StakingHooksLaws W, !StakingSdk, !StakingSdkLaws, !SdkConfig}.
Abbreviation stk := (Stk W).
Abbreviation E := (eff (Stk W) stk_error).
Implicit Types (s : stk) (v : Validator) (d : Delegator) (b : Block) (a p : Address).

Definition dview d : Deleg := mkDeleg (Tokens d) (IsProxy d) (TotalDelegatedTokens d) (ProxyAddress d).
Definition view s : Acct :=
  mkAcct (dview <$> delegators s) (undelegations s) (undelegateQueue s) (proxies s)
    (pool_balance (world s) BondedPoolName DefaultBondDenom) (pool_balance (world s) NotBondedPoolName DefaultBondDenom)
    (msum (fun _ v => MinSelfDelegation v) (validators s)).

(** Entries lie under their own addresses, and amounts are not negative. *)
Record stk_wf s : Prop := {
  wf_del a d : delegators s !! a = Some d -> DelegatorAddress d = a;
  wf_val a v : validators s !! a = Some v -> OperatorAddress v = a /\ 0 <= MinSelfDelegation v;
  wf_min : 0 < p_MinDelegation (stk_params s);
}.

(** The minimum self-delegation of a validator, 0 when there is none. *)
Definition msd_at a s : Z := from_option MinSelfDelegation 0 (validators s !! a).
(** [v] is a copy of a stored validator as far as its deposit goes. *)
Definition copy_of v s : Prop := msd_at (OperatorAddress v) s = MinSelfDelegation v.

(** [s'] is well formed and its accounts are [t]; the validators'
    deposits and the parameters are those of [s]. *)
Record yields s s' (t : Acct) : Prop := {
  y_wf : stk_wf s';
  y_view : view s' = t;
  y_msd a : msd_at a s' = msd_at a s;
  y_params : stk_params s' = stk_params s;
}.
Definition silent s s' : Prop := yields s s' (view s).

Lemma silent_refl s : stk_wf s -> silent s s.
Proof. by split. Qed.
Lemma yields_trans s s1 s2 t : yields s s1 t -> forall t', yields s1 s2 t' -> yields s s2 t'.
Proof. intros [] t' []. split; [done|done|intros; congruence|congruence]. Qed.
Lemma yields_silent s s1 s2 t : yields s s1 t -> silent s1 s2 -> yields s s2 t.
Proof.
  intros Ht Hq. apply (yields_trans s s1 s2 t Ht). unfold silent in Hq. by rewrite (y_view _ _ _ Ht) in Hq.
Qed.
Lemma yields_copy s s' t v : yields s s' t -> copy_of v s -> copy_of v s'.
Proof. unfold copy_of. intros Hy <-. apply (y_msd _ _ _ Hy). Qed.

(** ** Steps on the tables *)

(** Tables that the accounts do not show. *)
Lemma silent_frame s s' : stk_wf s -> delegators s' = delegators s -> undelegations s' = undelegations s ->
  undelegateQueue s' = undelegateQueue s -> proxies s' = proxies s -> world s' = world s ->
  validators s' = validators s -> stk_params s' = stk_params s -> silent s s'.
Proof.
  intros [Hd Hv Hm] E1 E2 E3 E4 E5 E6 E7.
  split; [split|unfold view|intros; unfold msd_at|]; rewrite ?E1, ?E2, ?E3, ?E4, ?E5, ?E6, ?E7; done.
Qed.

Lemma msd_at_nonneg a s : stk_wf s -> 0 <= msd_at a s.
Proof.
  intros Hwf. unfold msd_at. destruct (validators s !! a) as [v|] eqn:E; [|done]. simpl.
  by apply (wf_val s Hwf a v).
Qed.

Lemma silent_SetValidator v s : stk_wf s -> copy_of v s -> silent s (SetValidator v s).
Proof.
  intros Hwf Hc. pose proof (msd_at_nonneg (OperatorAddress v) s Hwf) as Hnn. unfold copy_of in Hc.
  split; [|..|done].
  - split; [apply Hwf| |apply Hwf]. intros a w. cbn. rewrite lookup_insert. case_decide as Ha; [|apply Hwf].
    intros [= <-]. split; [done|lia].
  - unfold view. cbn. f_equal. rewrite msum_insert. change (from_option _ 0 _) with (msd_at (OperatorAddress v) s). lia.
  - intros a. unfold msd_at at 1. cbn. rewrite lookup_insert. case_decide as Ha; [by subst a|done].
Qed.

Lemma dview_insert d s : dview <$> delegators s !! DelegatorAddress d = Some (dview d) ->
  dview <$> <[DelegatorAddress d := d]> (delegators s) = dview <$> delegators s.
Proof.
  intros Hd. apply map_eq. intros a. rewrite !lookup_fmap, lookup_insert. case_decide as Ha; [|done].
  subst a. by rewrite Hd.
Qed.

Lemma wf_SetDelegator d s : stk_wf s -> stk_wf (SetDelegator d s).
Proof.
  intros [Hd Hv Hm]. split; [|done..]. intros a e. cbn. rewrite lookup_insert. case_decide; [|apply Hd]. congruence.
Qed.

(** Changing the votes of a delegator. *)
Lemma silent_SetDelegator d s : stk_wf s -> dview <$> delegators s !! DelegatorAddress d = Some (dview d) ->
  silent s (SetDelegator d s).
Proof.
  intros Hwf Hd. split; [by apply wf_SetDelegator| |done..]. unfold view. cbn. by rewrite dview_insert.
Qed.

Lemma yields_SetDelegator d s : stk_wf s ->
  yields s (SetDelegator d s) ((view s) <| a_del := <[DelegatorAddress d := dview d]> (a_del (view s)) |>).
Proof.
  intros Hwf. split; [by apply wf_SetDelegator| |done..]. unfold view. cbn. by rewrite fmap_insert.
Qed.

Lemma silent_hook f s s' : stk_wf s -> (forall w w', f w = Ret w' -> keeps_pools w w') -> hook f s = Ret s' -> silent s s'.
Proof.
  intros [Hd Hv Hm] Hf Hr. unfold hook in Hr. apply res_bind_inv in Hr as (w & Hw & [= <-]).
  destruct (Hf _ _ Hw DefaultBondDenom) as [Hb Hn]. split; [by split| |done..]. unfold view. cbn. by rewrite Hb, Hn.
Qed.

(** ** Steps that the accounts do not show *)

(** Operations on the other tables. *)
Class Frame (f : stk -> stk) : Prop := {
  fr_delegators s : delegators (f s) = delegators s;
  fr_undelegations s : undelegations (f s) = undelegations s;
  fr_queue s : undelegateQueue (f s) = undelegateQueue s;
  fr_proxies s : proxies (f s) = proxies s;
  fr_world s : world (f s) = world s;
  fr_validators s : validators (f s) = validators s;
  fr_params s : stk_params (f s) = stk_params s;
}.

#[export] Instance SetShares_frame a p x : Frame (SetShares a p x).
Proof. by split. Qed.
#[export] Instance DeleteShares_frame a p : Frame (DeleteShares a p).
Proof. by split. Qed.
#[export] Instance SetValidatorByConsAddr_frame v : Frame (SetValidatorByConsAddr v).
Proof. by split. Qed.
#[export] Instance SetNewValidatorByPowerIndex_frame v : Frame (SetNewValidatorByPowerIndex v).
Proof. by split. Qed.
#[export] Instance SetValidatorByPowerIndex_frame v : Frame (SetValidatorByPowerIndex v).
Proof. unfold SetValidatorByPowerIndex. by destruct (Jailed v); split. Qed.
#[export] Instance DeleteValidatorByPowerIndex_frame v : Frame (DeleteValidatorByPowerIndex v).
Proof. by split. Qed.
#[export] Instance SetLastValidatorPower_frame a x : Frame (SetLastValidatorPower a x).
Proof. by split. Qed.
#[export] Instance DeleteLastValidatorPower_frame a : Frame (DeleteLastValidatorPower a).
Proof. by split. Qed.
#[export] Instance SetLastTotalPower_frame x : Frame (SetLastTotalPower x).
Proof. by split. Qed.
#[export] Instance DeleteValidatorQueueTimeSlice_frame x : Frame (DeleteValidatorQueueTimeSlice x).
Proof. by split. Qed.
#[export] Instance InsertValidatorQueue_frame v : Frame (InsertValidatorQueue v).
Proof. by split. Qed.
#[export] Instance DeleteValidatorQueue_frame v : Frame (DeleteValidatorQueue v).
Proof. unfold DeleteValidatorQueue. split; intros; by case_decide. Qed.
#[export] Instance SetEpoch_frame x : Frame (SetEpoch x).
Proof. by split. Qed.
#[export] Instance SetTheEndOfLastEpoch_frame b : Frame (SetTheEndOfLastEpoch b).
Proof. by split. Qed.
#[export] Instance DeleteAbandonedValidatorAddrs_frame : Frame DeleteAbandonedValidatorAddrs.
Proof. by split. Qed.

Lemma q_frame f `{!Frame f} s s1 t : yields s s1 t -> yields s (f s1) t.
Proof.
  intros Hy. apply (yields_silent s s1 (f s1) t Hy). apply silent_frame; [apply (y_wf _ _ _ Hy)|..];
    [apply fr_delegators|apply fr_undelegations|apply fr_queue|apply fr_proxies|apply fr_world|
     apply fr_validators|apply fr_params].
Qed.
Lemma q_SetValidator v s s1 t : yields s s1 t -> copy_of v s -> yields s (SetValidator v s1) t.
Proof.
  intros Hy Hc. apply (yields_silent s s1 _ t Hy), silent_SetValidator; [apply Hy|]. by apply (yields_copy _ _ _ _ Hy).
Qed.
Lemma q_hook f u s s1 s2 t : (forall w w', f w = Ret w' -> keeps_pools w w') -> runs (modify_res (hook f) : E unit) s1 u s2 ->
  yields s s1 t -> yields s s2 t.
Proof.
  intros Hf Hr%runs_modify_res Hy. apply (yields_silent s s1 s2 t Hy). by apply (silent_hook f); [apply Hy|..].
Qed.
Lemma q_Created a u s s1 s2 t : runs (AfterValidatorCreated a) s1 u s2 -> yields s s1 t -> yields s s2 t.
Proof. apply q_hook. intros w w'. apply AfterValidatorCreated_pools. Qed.
Lemma q_Removed c a u s s1 s2 t : runs (AfterValidatorRemoved c a) s1 u s2 -> yields s s1 t -> yields s s2 t.
Proof. apply q_hook. intros w w'. apply AfterValidatorRemoved_pools. Qed.
Lemma q_Bonded c a u s s1 s2 t : runs (AfterValidatorBonded c a) s1 u s2 -> yields s s1 t -> yields s s2 t.
Proof. apply q_hook. intros w w'. apply AfterValidatorBonded_pools. Qed.
Lemma q_BeginUnbonding c a u s s1 s2 t : runs (AfterValidatorBeginUnbonding c a) s1 u s2 -> yields s s1 t -> yields s s2 t.
Proof. apply q_hook. intros w w'. apply AfterValidatorBeginUnbonding_pools. Qed.
Lemma q_Destroyed c a u s s1 s2 t : runs (AfterValidatorDestroyed c a) s1 u s2 -> yields s s1 t -> yields s s2 t.
Proof. apply q_hook. intros w w'. apply AfterValidatorDestroyed_pools. Qed.

Lemma copy_of_lookup a v s : stk_wf s -> validators s !! a = Some v -> copy_of v s /\ OperatorAddress v = a.
Proof.
  intros Hwf Ha. destruct (wf_val s Hwf a v Ha) as [-> _]. split; [|done]. unfold copy_of, msd_at.
  by destruct (wf_val s Hwf a v Ha) as [-> _]; rewrite Ha.
Qed.

(** [RemoveValidator] of a validator without deposit. *)
Lemma q_RemoveValidator a s s1 s2 u t : runs (RemoveValidator a) s1 u s2 -> yields s s1 t -> msd_at a s = 0 -> yields s s2 t.
Proof.
  intros Hr Hy Hz. unfold RemoveValidator in Hr. run_inv Hr. subst. unfold GetValidator in Hr.
  destruct (validators s1 !! a) as [v|] eqn:Ha; [|run_inv Hr; done].
  destruct (negb (IsUnbonded v)); [run_inv Hr|]. destruct (0 <? val_Tokens v); run_inv Hr.
  assert (msd_at a s1 = 0) as Hz1 by by rewrite (y_msd _ _ _ Hy).
  assert (yields s1 (s1 <| validators := delete a (validators s1) |>) (view s1)) as Hdel.
  { destruct (y_wf _ _ _ Hy) as [Hd Hv Hm]. split; [split| | |]; [done| |done| | |done].
    - intros b w Hb. cbn in Hb. apply lookup_delete_Some in Hb as [_ Hb]. by apply Hv.
    - unfold view. cbn. f_equal. rewrite msum_delete_default.
      change (from_option _ 0 _) with (msd_at a s1). lia.
    - intros b. unfold msd_at at 1. cbn. rewrite lookup_delete. case_decide; [by subst b|done]. }
  eapply q_Removed; [exact Hr|].
  apply (q_frame (DeleteValidatorByPowerIndex v)).
  eapply yields_silent; [exact (yields_silent _ _ _ _ Hy Hdel)|].
  apply silent_frame; try reflexivity. apply Hdel.
Qed.

(** ** Votes *)

Lemma silent_addShares a v x u s s1 s2 : runs (addShares a v x) s1 u s2 -> silent s s1 -> copy_of v s -> silent s s2.
Proof.
  intros Hr Hy Hc. unfold addShares in Hr. run_inv Hr.
  apply q_frame; [apply _|]. apply q_SetValidator; [|exact Hc]. do 2 (apply q_frame; [apply _|]). exact Hy.
Qed.

Lemma silent_withdrawShares a v x u s s1 s2 : runs (withdrawShares a v x) s1 u s2 -> silent s s1 -> copy_of v s ->
  silent s s2.
Proof.
  intros Hr Hy Hc. unfold withdrawShares in Hr. run_inv Hr. destruct (_ && _) eqn:Hz in Hr.
  - apply andb_prop in Hz as [[_ Hz]%andb_prop _]. apply Z.eqb_eq in Hz.
    eapply q_RemoveValidator; [exact Hr| |exact (eq_trans Hc Hz)]. do 2 (apply q_frame; [apply _|]). exact Hy.
  - run_inv Hr. apply q_frame; [apply _|]. apply q_SetValidator; [|exact Hc]. do 2 (apply q_frame; [apply _|]). exact Hy.
Qed.

Lemma silent_update_val a x y v u s s1 s2 : runs (update_val_shares a x y v) s1 u s2 -> silent s s1 -> copy_of v s ->
  silent s s2.
Proof.
  intros Hr Hy Hc. unfold update_val_shares in Hr. destruct (MinSelfDelegation v =? 0); run_inv Hr.
  apply q_frame; [apply _|]. apply q_SetValidator; [|exact Hc]. do 2 (apply q_frame; [apply _|]). exact Hy.
Qed.

(** A loop over copies of validators. *)
Lemma silent_for_each {A} (l : list A) (f : A -> E unit) u s s' : stk_wf s -> runs (for_each l f) s u s' ->
  (forall x s1 s2, x ∈ l -> silent s s1 -> runs (f x) s1 tt s2 -> silent s s2) -> silent s s'.
Proof. intros Hwf Hr Hf. by apply (runs_for_each (silent s) l f s u s' Hr (silent_refl s Hwf)). Qed.

Lemma LastVals_copies a s v : stk_wf s -> v ∈ (GetLastValsAddedSharesExisted a s).1 -> copy_of v s.
Proof.
  intros Hwf Hv. unfold GetLastValsAddedSharesExisted in Hv. destruct (GetDelegator a s) as [d|]; [|by apply elem_of_nil in Hv].
  apply list_elem_of_omap in Hv as (b & _ & Hb). by apply (copy_of_lookup b).
Qed.

Lemma ToAddShares_copies l s : stk_wf s -> forall vals, GetValidatorsToAddShares l s = inl vals ->
  forall v, v ∈ vals -> copy_of v s.
Proof.
  intros Hwf. induction l as [|a l IH]; intros vals Hl v Hv; cbn in Hl.
  - injection Hl as <-. by apply elem_of_nil in Hv.
  - destruct (GetValidator a s) as [w|] eqn:Ha; [|done]. destruct (GetValidatorsToAddShares l s) as [ws|]; [|done].
    injection Hl as <-. apply elem_of_cons in Hv as [->|Hv]; [by apply (copy_of_lookup a)|by apply (IH ws)].
Qed.

Lemma silent_WithdrawLast a l x u s s' : stk_wf s -> (forall v, v ∈ l -> copy_of v s) ->
  runs (WithdrawLastShares a l x) s u s' -> silent s s'.
Proof. intros Hwf Hl Hr. eapply silent_for_each; [done|exact Hr|]. intros v s1 s2 Hv Hy Hs. exact (silent_withdrawShares _ _ _ _ _ _ _ Hs Hy (Hl v Hv)). Qed.

Lemma silent_AddShares b a l x y s s' : stk_wf s -> (forall v, v ∈ l -> copy_of v s) ->
  runs (AddSharesToValidators b a l x) s y s' -> silent s s'.
Proof.
  intros Hwf Hl Hr. unfold AddSharesToValidators in Hr. destruct (calculateWeight _ _); run_inv Hr.
  eapply silent_for_each; [done|exact Hr0|]. intros v s1 s2 Hv Hy Hs. exact (silent_addShares _ _ _ _ _ _ _ Hs Hy (Hl v Hv)).
Qed.

Lemma view_delegator s a : a_del (view s) !! a = dview <$> delegators s !! a.
Proof. apply lookup_fmap. Qed.

Lemma silent_UpdateShares b a x u s s' : stk_wf s -> runs (UpdateShares b a x) s u s' -> silent s s'.
Proof.
  intros Hwf Hr. unfold UpdateShares in Hr. run_inv Hr.
  destruct (GetLastValsAddedSharesExisted a s) as [vals lastShares] eqn:Hl.
  case_decide; [run_inv Hr; by apply silent_refl|].
  destruct (calculateWeight _ _) as [y|]; run_inv Hr. destruct (GetDelegator a s) as [d|] eqn:Hd; run_inv Hr.
  match goal with Hf : runs (for_each _ _) s _ ?s1 |- _ => assert (silent s s1) as Hy; [|clear Hf] end.
  { eapply silent_for_each; [done|eassumption|]. intros v s1 s2 Hv Hy Hs. eapply silent_update_val; [exact Hs|exact Hy|].
    apply (LastVals_copies a); [done|]. by rewrite Hl. }
  apply (yields_silent _ _ _ _ Hy), silent_SetDelegator; [apply Hy|]. cbn.
  rewrite (wf_del s Hwf a d Hd), <- view_delegator, (y_view _ _ _ Hy), view_delegator.
  unfold GetDelegator in Hd. by rewrite Hd.
Qed.

End View.
End StakingView.
