(* ===== verification/StakingRefine.v ===== *)
(** The message handlers of the staking module do to the accounts what
    [StakingAcct.v] says, and keep them in order. *)
From S2P Require Import Prelude.
From S2P Require Import Interfaces.
From S2P Require Import Sums.
From S2P Require Import Effects.
From S2P Require Import StakingTypes.
From S2P Require Import StakingKeys.
From S2P Require Import StakingState.
From S2P Require Import StakingKeeper.
From S2P Require Import StakingHandler.
From S2P Require Import StakingAcct.
From S2P Require Import StakingView.
From stdpp Require Import sorting.
Import StakingTypes StakingKeys StakingState StakingKeeper StakingHandler StakingAcct StakingView.
Local Open Scope Z_scope.

Module StakingRefine.
Section Refine.
Context {W : Type} `{SupplyKeeperLaws W, !StakingHooks W, !StakingHooksLaws W, !StakingSdk, !StakingSdkLaws, !SdkConfig}.
Context (PubKey_Type : bytes -> string) (PubKeyTypes : option (list string)).
Abbreviation stk := (Stk W).
Abbreviation E := (eff (Stk W) stk_error).
Implicit Types (s : stk) (v : Validator) (d : Delegator) (b : Block) (a p : Address).

(** ** Pools and queues *)

Lemma pools_differ : BondedPoolName ≠ NotBondedPoolName.
Proof. done. Qed.

(** Only the world changes. *)
Lemma yields_world s s1 w t : yields s s1 t ->
  yields s (s1 <| world := w |>)
    (t <| a_bonded := pool_balance w BondedPoolName DefaultBondDenom |>
       <| a_notbonded := pool_balance w NotBondedPoolName DefaultBondDenom |>).
Proof. intros [[Hd Hv Hm] <- Hmsd Hp]. split; [by split|done|exact Hmsd|exact Hp]. Qed.

Lemma y_DelegateCoins a x u s s1 s2 t : runs (DelegateCoins a [(BondDenom, x)]) s1 u s2 -> yields s s1 t ->
  yields s s2 (t <| a_bonded := a_bonded t + x |>).
Proof.
  unfold runs, DelegateCoins. intros Hr Hy. destruct (DelegateCoinsFromAccountToModule _ _ _ _) as [w|] eqn:Hw; [|done].
  injection Hr as <- <-. apply DelegateCoins_ok in Hw as [Hpool _].
  pose proof (yields_world s s1 w t Hy) as Hyw. rewrite !Hpool in Hyw. cbn in Hyw.
  rewrite <- (y_view _ _ _ Hy) in *. cbn in *. by rewrite decide_True, Z.add_0_r in Hyw by done.
Qed.

Lemma y_bondedToNot x u s s1 s2 t : runs (bondedTokensToNotBonded (BondDenom, x)) s1 u s2 -> yields s s1 t ->
  yields s s2 (a_unbond x t).
Proof.
  unfold bondedTokensToNotBonded. intros Hr%runs_modify_res Hy.
  destruct (SendCoinsFromModuleToModule _ _ _ _) as [w|] eqn:Hw; [|done].
  injection Hr as <-. apply SendCoins_ok in Hw as [Hpool _]; [|done].
  assert (pool_balance w BondedPoolName DefaultBondDenom = a_bonded t - x /\
    pool_balance w NotBondedPoolName DefaultBondDenom = a_notbonded t + x) as [Eb En].
  { rewrite <- (y_view _ _ _ Hy). rewrite !Hpool. cbn.
    unfold BondDenom. split; repeat case_decide; try lia; exfalso; pose proof pools_differ; intuition congruence. }
  pose proof (yields_world s s1 w t Hy) as Hyw. by rewrite Eb, En in Hyw.
Qed.

Lemma y_undelegations s s1 t ud q : yields s s1 t ->
  yields s (s1 <| undelegations := ud |> <| undelegateQueue := q |>) (t <| a_ud := ud |> <| a_queue := q |>).
Proof. intros [[Hd Hv Hm] <- Hmsd Hp]. by split. Qed.

Lemma y_enqueue a x t u s s1 s2 T : runs (enqueue_undelegation a x t) s1 u s2 -> yields s s1 T ->
  (forall a u, undelegations s1 !! a = Some u -> ud_DelegatorAddress u = a) -> yields s s2 (a_enqueue a x t T).
Proof.
  intros Hr Hy Hud. unfold enqueue_undelegation in Hr. run_inv Hr. unfold GetUndelegating in Hr0. 
  assert (a_ud T = undelegations s1 /\ a_queue T = undelegateQueue s1) as [Eu Eq] by by rewrite <- (y_view _ _ _ Hy).
  unfold a_enqueue. rewrite Eu, Eq.
  destruct (undelegations s1 !! a) as [o|] eqn:Ho; run_inv Hr0.
  - unfold SetUndelegating. cbn [ud_DelegatorAddress set eta UndelegationInfo_eta]. rewrite (Hud a o Ho).
    exact (y_undelegations s s1 T _ _ Hy).
  - exact (y_undelegations s s1 T _ _ Hy).
Qed.

(** ** Delegators and proxies *)

Lemma q_SetDelegator d s s1 t : yields s s1 t ->
  yields s (SetDelegator d s1) (t <| a_del := <[DelegatorAddress d := dview d]> (a_del t) |>).
Proof.
  intros Hy. rewrite <- (y_view _ _ _ Hy). apply (yields_trans _ _ _ _ Hy), yields_SetDelegator, Hy.
Qed.
Lemma q_SetProxyBinding p a (rm : bool) s s1 t : yields s s1 t ->
  yields s (SetProxyBinding p a rm s1)
    (t <| a_prox := if rm then a_prox t ∖ {[(p, a)]} else a_prox t ∪ {[(p, a)]} |>).
Proof. intros [[Hd Hv Hm] <- Hmsd Hp]. by destruct rm; split. Qed.
Lemma q_DeleteDelegator a s s1 t : yields s s1 t ->
  yields s (DeleteDelegator a s1) (t <| a_del := delete a (a_del t) |>).
Proof.
  intros [[Hd Hv Hm] <- Hmsd Hp]. split; [split|..|exact Hmsd|exact Hp]; [|exact Hv|exact Hm|].
  - intros b d Hb. cbn in Hb. apply lookup_delete_Some in Hb as [_ Hb]. by apply Hd.
  - unfold view. cbn. by rewrite fmap_delete.
Qed.
Lemma yields_eq s s1 t t' : yields s s1 t -> t = t' -> yields s s1 t'.
Proof. by intros ? <-. Qed.
Lemma GetDelegator_view a d s s1 t : yields s s1 t -> GetDelegator a s1 = Some d ->
  DelegatorAddress d = a /\ a_del t !! a = Some (dview d).
Proof.
  intros Hy Hd. split; [by apply (wf_del s1 (y_wf _ _ _ Hy) a d)|]. rewrite <- (y_view _ _ _ Hy), view_delegator.
  unfold GetDelegator in Hd. by rewrite Hd.
Qed.

Lemma insert_alter (f : Deleg -> Deleg) (m : gmap Address Deleg) a e : m !! a = Some e -> <[a := f e]> m = alter f a m.
Proof.
  intros Ha. apply map_eq. intros k. rewrite lookup_insert, lookup_alter. case_decide; [|done]. subst. by rewrite Ha.
Qed.
Lemma credit_alter (e : Deleg) x m p : dl_proxy e = Some p -> credit_proxy e x m = alter (add_total x) p m.
Proof. intros Hp. unfold credit_proxy. by rewrite Hp. Qed.
Lemma credit_none (e : Deleg) x m : dl_proxy e = None -> credit_proxy e x m = m.
Proof. intros Hp. unfold credit_proxy. by rewrite Hp. Qed.
Lemma with_del_id (t : Acct) : t <| a_del := a_del t |> = t.
Proof. by destruct t. Qed.

Lemma y_UpdateShares b a x u s s1 s2 t : runs (UpdateShares b a x) s1 u s2 -> yields s s1 t -> yields s s2 t.
Proof. intros Hr Hy. apply (yields_silent _ _ _ _ Hy). by eapply silent_UpdateShares; [apply Hy|]. Qed.

Lemma y_UpdateProxy b d x u s s1 s2 t : runs (UpdateProxy b d x) s1 u s2 -> yields s s1 t ->
  yields s s2 (t <| a_del := credit_proxy (dview d) x (a_del t) |>).
Proof.
  intros Hr Hy. unfold UpdateProxy in Hr. destruct (ProxyAddress d) as [p|] eqn:Hp.
  2: { run_inv Hr. rewrite credit_none by done. by rewrite with_del_id. }
  run_inv Hr. destruct (GetDelegator p s1) as [proxy|] eqn:Hg; [|run_inv Hr].
  destruct (GetDelegator_view _ _ _ _ _ Hy Hg) as [Ha Hv].
  destruct (_ <? 0); run_inv Hr. eapply y_UpdateShares; [exact Hr|].
  eapply yields_eq; [exact (q_SetDelegator _ _ _ _ Hy)|].
  rewrite (credit_alter (dview d) _ _ _ Hp), <- (insert_alter (add_total x) _ _ _ Hv), <- Ha. reflexivity.
Qed.

(** ** Deposit and withdrawal *)

Lemma Delegate_yields b a x u s s' : stk_wf s -> runs (Delegate b a (BondDenom, x)) s u s' ->
  0 < x /\ yields s s' (a_deposit a x (view s)).
Proof.
  intros Hwf Hr. pose proof (wf_min s Hwf) as Hmin. unfold Delegate in Hr. run_inv Hr. cbn [snd] in Hr.
  destruct (_ <? _) eqn:Hx; run_inv Hr. apply Z.ltb_ge in Hx. split; [lia|].
  match goal with Hd : runs (DelegateCoins _ _) _ _ ?s1 |- _ =>
    pose proof (y_DelegateCoins _ _ _ _ _ _ _ Hd (silent_refl s Hwf)) as Hy; clear Hd; rename s1 into sc end.
  set (d := default (NewDelegator a) (GetDelegator a sc)) in Hr.
  assert (DelegatorAddress d = a /\ dview d = default no_deleg (a_del (view s) !! a)) as [Ha Hd].
  { unfold d. destruct (GetDelegator a sc) as [e|] eqn:Hg.
    - destruct (GetDelegator_view _ _ _ _ _ Hy Hg) as [He Hv]. split; [done|].
      change (a_del (view s) !! a = Some (dview e)) in Hv. by rewrite Hv.
    - split; [done|]. assert (a_del (view sc) !! a = None) as Hn by (rewrite view_delegator; unfold GetDelegator in Hg; by rewrite Hg).
      rewrite (y_view _ _ _ Hy) in Hn. change (a_del (view s) !! a = None) in Hn. by rewrite Hn. }
  set (d' := d <| Tokens := Tokens d + x |>) in *.
  pose proof (q_SetDelegator d' _ _ _ Hy) as Hy'. unfold a_deposit. rewrite <- Hd.
  assert (dl_proxy (dview d) = ProxyAddress d) as Hpx by done.
  destruct (HasProxy d') eqn:Hh.
  - eapply yields_eq; [exact (y_UpdateProxy _ _ _ _ _ _ _ _ Hr Hy')|]. cbn. by rewrite Ha.
  - apply HasProxy_false in Hh. rewrite credit_none by done.
    eapply yields_eq; [exact (y_UpdateShares _ _ _ _ _ _ _ _ Hr Hy')|]. cbn. by rewrite Ha.
Qed.

Lemma y_withdraw_all a d u s s1 s2 t : runs (withdraw_all a d) s1 u s2 -> yields s s1 t ->
  yields s s2 (t <| a_del := delete a (a_del t) |>
                 <| a_prox := match ProxyAddress d with Some p => a_prox t ∖ {[(p, a)]} | None => a_prox t end |>).
Proof.
  intros Hr Hy. unfold withdraw_all in Hr. run_inv Hr.
  destruct (GetLastValsAddedSharesExisted a s1) as [vals x] eqn:Hl. run_inv Hr.
  match goal with Hw : runs (WithdrawLastShares _ _ _) _ _ ?s3 |- _ => assert (yields s s3 t) as Hy3 end.
  { apply (yields_silent _ _ _ _ Hy). eapply silent_WithdrawLast; [apply Hy| |eassumption].
    intros v Hv. apply (LastVals_copies a); [apply Hy|by rewrite Hl]. }
  destruct (ProxyAddress d) as [p|].
  - match goal with Hm : runs (modify _) _ _ _ |- _ => run_inv Hm end.
    exact (q_DeleteDelegator a _ _ _ (q_SetProxyBinding p a true _ _ _ Hy3)).
  - match goal with Hm : runs (mret _) _ _ _ |- _ => run_inv Hm end.
    eapply yields_eq; [exact (q_DeleteDelegator a _ _ _ Hy3)|]. by destruct t.
Qed.

Lemma y_undelegation_keys s s1 t : yields s s1 t -> (forall a u, a_ud t !! a = Some u -> ud_DelegatorAddress u = a) ->
  forall a u, undelegations s1 !! a = Some u -> ud_DelegatorAddress u = a.
Proof. intros Hy. by rewrite <- (y_view _ _ _ Hy). Qed.

Lemma completion_time_params b s s1 t : yields s s1 t -> completion_time b s1 = completion_time b s.
Proof. intros Hy. unfold completion_time. by rewrite (y_params _ _ _ Hy). Qed.

(** The condition under which a withdrawal is let through. *)
Definition can_withdraw a x s : Prop := exists d, delegators s !! a = Some d /\ 0 < x <= Tokens d /\
  (IsProxy d = true -> x ≠ Tokens d).

(** The delegator's own entry: it goes, or keeps the rest. *)
Definition withdraw_entry b a d x : E unit :=
  if Tokens d - x =? 0 then withdraw_all a d
  else
    let d := d <| Tokens := Tokens d - x |> in
    _ ← modify (SetDelegator d);
    when (negb (HasProxy d)) (UpdateShares b (DelegatorAddress d) (final_tokens d)).

Lemma y_withdraw_entry b a d x u s s1 s2 t : DelegatorAddress d = a -> runs (withdraw_entry b a d x) s1 u s2 ->
  yields s s1 t ->
  yields s s2
    (if dl_tokens (dview d) - x =? 0
     then t <| a_del := delete a (a_del t) |>
            <| a_prox := match ProxyAddress d with Some p => a_prox t ∖ {[(p, a)]} | None => a_prox t end |>
     else t <| a_del := <[a := add_tokens (- x) (dview d)]> (a_del t) |>).
Proof.
  intros Ha Hr Hy. unfold withdraw_entry in Hr. change (dl_tokens (dview d)) with (Tokens d).
  destruct (Tokens d - x =? 0); [exact (y_withdraw_all _ _ _ _ _ _ _ Hr Hy)|].
  rewrite <- Ha. clear Ha. run_inv Hr. pose proof (q_SetDelegator (d <| Tokens := Tokens d - x |>) _ _ _ Hy) as Hs.
  destruct (negb _); [exact (y_UpdateShares _ _ _ _ _ _ _ _ Hr Hs)|]. by subst s2.
Qed.

Lemma Withdraw_yields b a x t s s' : stk_wf s -> (forall a u, undelegations s !! a = Some u -> ud_DelegatorAddress u = a) ->
  runs (Withdraw b a (BondDenom, x)) s t s' ->
  can_withdraw a x s /\ t = completion_time b s /\ yields s s' (a_withdraw a x t (view s)).
Proof.
  intros Hwf Hud Hr. pose proof (wf_min s Hwf) as Hmin. unfold Withdraw in Hr. run_inv Hr. cbn [snd] in Hr.
  destruct (GetDelegator a s) as [d|] eqn:Hg; run_inv Hr.
  destruct (_ <? _) eqn:Hx in Hr; [run_inv Hr|]. destruct (_ <? _) eqn:Hle in Hr; [run_inv Hr|].
  destruct (_ && _) eqn:Hpx in Hr; [run_inv Hr|]. apply Z.ltb_ge in Hx, Hle. run_inv Hr.
  destruct (GetDelegator_view _ _ _ _ _ (silent_refl s Hwf) Hg) as [Ha Hv].
  split.
  { exists d. split; [done|]. split; [lia|]. intros Hip ->. by rewrite Hip, Z.sub_diag in Hpx. }
  match goal with Hb : runs (bondedTokensToNotBonded _) _ _ _ |- _ =>
    pose proof (y_bondedToNot _ _ _ _ _ _ Hb (silent_refl s Hwf)) as Hy0 end.
  match goal with Hp : if HasProxy d then _ else ?s1 = _ |- _ =>
    assert (yields s s1 ((a_unbond x (view s)) <| a_del := credit_proxy (dview d) (- x) (a_del (view s)) |>)) as Hy1;
    [destruct (HasProxy d) eqn:Hh|] end.
  - rewrite Dec_Mul_neg_one in *.
    match goal with Hp : runs (UpdateProxy _ _ _) _ _ _ |- _ => exact (y_UpdateProxy _ _ _ _ _ _ _ _ Hp Hy0) end.
  - subst. apply HasProxy_false in Hh. by rewrite credit_none.
  - match goal with He : runs (if _ then _ else _) _ _ _ |- _ =>
      pose proof (y_withdraw_entry b a d x _ _ _ _ _ Ha He Hy1) as Hy2 end.
    split; [exact (completion_time_params b _ _ _ Hy2)|].
    unfold a_withdraw. rewrite Hv. cbn [default from_option id]. 
    eapply y_enqueue; [eassumption|exact Hy2|]. apply (y_undelegation_keys _ _ _ Hy2).
    by destruct (_ =? 0).
Qed.

(** ** Proxies *)

Lemma runs_or_error {A} (m : E A) e s (r : A) s' : runs (or_error m e) s r s' <-> runs m s r s'.
Proof. unfold runs, or_error, catch, throw. destruct (m s) as [[s1 [x|e']]|]; naive_solver. Qed.

Lemma y_unbindProxy b a u s s1 s2 t : runs (unbindProxy b a) s1 u s2 -> yields s s1 t ->
  (exists d p, GetDelegator a s1 = Some d /\ ProxyAddress d = Some p) /\ yields s s2 (a_unbind a t).
Proof.
  intros Hr Hy. unfold unbindProxy in Hr. run_inv Hr. destruct (GetDelegator a s1) as [d|] eqn:Hg; run_inv Hr.
  destruct (ProxyAddress d) as [p|] eqn:Hp; cbn [mbind option_bind] in Hr; [|run_inv Hr].
  destruct (GetDelegator p s1) as [e|] eqn:Hgp; run_inv Hr.
  destruct (GetDelegator_view _ _ _ _ _ Hy Hg) as [Ha Hv].
  destruct (GetDelegator_view _ _ _ _ _ Hy Hgp) as [He _].
  split; [by exists d, p|].
  match goal with Hu : runs (or_error _ _) _ _ _ |- _ => apply runs_or_error in Hu; rewrite Dec_Mul_neg_one in Hu;
    pose proof (y_UpdateProxy _ _ _ _ _ _ _ _ Hu Hy) as Hy1 end.
  pose proof (q_SetDelegator (UnbindProxy d) _ _ _ Hy1) as Hy2.
  eapply yields_eq; [exact (q_SetProxyBinding (DelegatorAddress e) (DelegatorAddress d) true _ _ _ Hy2)|].
  unfold a_unbind. rewrite Hv. change (dl_proxy (dview d)) with (ProxyAddress d). rewrite Hp.
  change (DelegatorAddress (UnbindProxy d)) with (DelegatorAddress d). by rewrite Ha, He.
Qed.

Lemma runs_HasProxy_unbind b a d u s s1 s2 t : runs (when (HasProxy d) (unbindProxy b a)) s1 u s2 -> yields s s1 t ->
  GetDelegator a s1 = Some d -> yields s s2 (a_unbind a t).
Proof.
  intros Hr%runs_when Hy Hg. destruct (HasProxy d) eqn:Hh; [by apply (y_unbindProxy b a u s s1)|]. subst s2.
  destruct (GetDelegator_view _ _ _ _ _ Hy Hg) as [Ha Hv]. apply HasProxy_false in Hh.
  by rewrite (a_unbind_free a (dview d)).
Qed.

(** The entry of a third party survives the unbinding as it was. *)
Lemma a_unbind_third a p (e d : Deleg) t : a_del t !! a = Some d -> dl_proxy d ≠ Some p -> p ≠ a ->
  a_del t !! p = Some e -> a_del (a_unbind a t) !! p = Some e.
Proof.
  intros Ha Hp Hpa He. unfold a_unbind. rewrite Ha. cbn. rewrite lookup_insert_ne, lookup_credit, decide_False by done. done.
Qed.

Lemma y_bind_to b d e a p u s s1 s2 t : runs (bind_to b d e p) s1 u s2 -> yields s s1 t ->
  GetDelegator a s1 = Some d -> GetDelegator p s1 = Some e -> p ≠ a -> ProxyAddress d ≠ Some p ->
  yields s s2 (a_bind a p t).
Proof.
  intros Hr Hy Hg Hgp Hpa Hne. destruct (GetDelegator_view _ _ _ _ _ Hy Hg) as [Ha Hv].
  destruct (GetDelegator_view _ _ _ _ _ Hy Hgp) as [He Hvp].
  unfold bind_to in Hr. apply runs_bind in Hr as (u1 & s3 & Hu & Hr). rewrite Ha in Hu.
  pose proof (runs_HasProxy_unbind _ _ _ _ _ _ _ _ Hu Hy Hg) as Hy3.
  pose proof (a_unbind_third a p (dview e) (dview d) t Hv Hne Hpa Hvp) as Hvp3.
  run_inv Hr. apply runs_or_error in Hr.
  eapply yields_eq; [eapply y_UpdateShares; [exact Hr|]|].
  - eapply q_SetProxyBinding, q_SetDelegator, q_SetDelegator. exact Hy3.
  - unfold a_bind. rewrite Hv. cbn [DelegatorAddress BindProxy set eta Delegator_eta]. rewrite Ha, He.
    rewrite <- (insert_alter (add_total (dl_tokens (dview d))) _ p (dview e)); [done|].
    by rewrite lookup_insert_ne by done.
Qed.

Lemma y_BindProxy b a p u s s' : stk_wf s -> runs (handleMsgBindProxy b a p) s u s' ->
  (exists d : Deleg, a_del (view s) !! a = Some d /\ dl_isproxy d = false) /\
  (exists e, a_del (view s) !! p = Some e /\ dl_isproxy e = true) /\
  yields s s' (if decide ((a_del (view s) !! a ≫= dl_proxy) = Some p) then view s else a_bind a p (view s)).
Proof.
  intros Hwf Hr. unfold handleMsgBindProxy in Hr. run_inv Hr.
  destruct (GetDelegator a s) as [d|] eqn:Hg; [|run_inv Hr].
  destruct (Tokens d =? 0); [run_inv Hr|]. destruct (negb (Shares d =? 0)); [run_inv Hr|]. run_inv Hr.
  destruct (GetDelegator p s) as [e|] eqn:Hgp; [|run_inv Hr].
  destruct (Tokens e =? 0); [run_inv Hr|]. destruct (IsProxy e) eqn:Ht; cbn [negb] in Hr; [|run_inv Hr].
  destruct (IsProxy d) eqn:Hf; [run_inv Hr|].
  destruct (GetDelegator_view _ _ _ _ _ (silent_refl s Hwf) Hg) as [Ha Hv].
  destruct (GetDelegator_view _ _ _ _ _ (silent_refl s Hwf) Hgp) as [He Hvp].
  split; [by exists (dview d)|]. split; [by exists (dview e)|].
  rewrite Hv. cbn [mbind option_bind dl_proxy dview]. rewrite He in Hr. case_bool_decide as Hb.
  - apply runs_or_error in Hr. rewrite decide_True by done. by eapply silent_UpdateShares.
  - rewrite decide_False by done. eapply y_bind_to; [exact Hr|by apply silent_refl|done|done|congruence|done].
Qed.

Lemma y_regProxy b p u s s' : stk_wf s -> runs (regProxy b p) s u s' ->
  (exists d : Deleg, a_del (view s) !! p = Some d /\ dl_isproxy d = false /\ dl_proxy d = None) /\ yields s s' (a_reg p (view s)).
Proof.
  intros Hwf Hr. unfold regProxy in Hr. run_inv Hr. destruct (GetDelegator p s) as [d|] eqn:Hg; [|run_inv Hr].
  destruct (IsProxy d) eqn:Hf; [run_inv Hr|]. destruct (HasProxy d) eqn:Hh; [run_inv Hr|]. run_inv Hr.
  apply HasProxy_false in Hh. apply runs_or_error in Hr.
  destruct (GetDelegator_view _ _ _ _ _ (silent_refl s Hwf) Hg) as [Ha Hv].
  split; [by exists (dview d)|].
  eapply yields_eq; [eapply y_UpdateShares; [exact Hr|apply q_SetDelegator, silent_refl, Hwf]|].
  unfold a_reg. rewrite <- (insert_alter _ _ p _ Hv). cbn [DelegatorAddress RegProxy UnbindProxy set eta Delegator_eta].
  by rewrite Ha.
Qed.

(** *** Stepping down: the loop over the bindings *)

Definition unproxy (e : Deleg) : Deleg := e <| dl_proxy := None |>.
Definition a_clear_one p (t : Acct) a : Acct :=
  t <| a_del := alter unproxy a (a_del t) |> <| a_prox := a_prox t ∖ {[(p, a)]} |>.

Lemma y_clear_one p a u s s1 s2 t : runs (clear_one p a) s1 u s2 -> yields s s1 t -> yields s s2 (a_clear_one p t a).
Proof.
  intros Hr Hy. unfold clear_one in Hr. run_inv Hr. destruct (GetDelegator a s1) as [d|] eqn:Hg.
  - match goal with Hm : runs (modify _) _ _ _ |- _ => run_inv Hm end.
    destruct (GetDelegator_view _ _ _ _ _ Hy Hg) as [Ha Hv].
    eapply yields_eq; [apply q_SetProxyBinding, q_SetDelegator, Hy|].
    unfold a_clear_one. rewrite <- (insert_alter _ _ _ _ Hv). by rewrite <- Ha.
  - match goal with Hm : runs (mret _) _ _ _ |- _ => run_inv Hm end.
    eapply yields_eq; [apply q_SetProxyBinding, Hy|].
    unfold a_clear_one. replace (alter unproxy a (a_del t)) with (a_del t); [by destruct t|].
    rewrite <- (y_view _ _ _ Hy). symmetry. apply map_eq. intros b. rewrite lookup_alter. case_decide; [|done]. subst b.
    rewrite view_delegator. unfold GetDelegator in Hg. by rewrite Hg.
Qed.

Lemma y_clear_loop p l u s : forall s1 s2 t, runs (for_each l (clear_one p)) s1 u s2 -> yields s s1 t ->
  yields s s2 (fold_left (a_clear_one p) l t).
Proof.
  induction l as [|a l IH]; intros s1 s2 t Hr Hy; cbn [for_each] in Hr; run_inv Hr; [done|].
  cbn [fold_left]. eapply IH; [exact Hr|]. by eapply y_clear_one.
Qed.

Lemma clear_fold p l : forall t, let t' := fold_left (a_clear_one p) l t in
  (forall b : Address, a_del t' !! b = if decide (b ∈ l) then unproxy <$> a_del t !! b else a_del t !! b) /\
  (forall k, k ∈ a_prox t' <-> k ∈ a_prox t /\ ~ (k.1 = p /\ k.2 ∈ l)) /\
  t' = t <| a_del := a_del t' |> <| a_prox := a_prox t' |>.
Proof.
  induction l as [|a l IH]; intros t t'.
  - split; [intros b; by rewrite decide_False by apply not_elem_of_nil|]. split; [|by destruct t].
    intros k. pose proof (not_elem_of_nil k.2). naive_solver.
  - destruct (IH (a_clear_one p t a)) as (Hd & Hp & He). subst t'. cbn [fold_left]. split_and!.
    + intros b. rewrite Hd. cbn. destruct (decide (b = a)) as [->|Hne].
      * rewrite lookup_alter_eq, (decide_True (P := a ∈ a :: l)) by apply list_elem_of_here.
        case_decide; [|done]. by destruct (a_del t !! a).
      * rewrite lookup_alter_ne by done. apply decide_ext. rewrite elem_of_cons. naive_solver.
    + intros [q b]. rewrite Hp. cbn. rewrite elem_of_difference, elem_of_singleton, elem_of_cons. naive_solver.
    + rewrite He at 1. by destruct t.
Qed.

Lemma elem_bound_to p a s : a ∈ bound_to p s <-> (p, a) ∈ proxies s.
Proof.
  unfold bound_to. rewrite merge_sort_Permutation, list_elem_of_omap. split.
  - intros ([q d] & Hin%elem_of_elements & Hq). case_decide; [|done]. naive_solver.
  - intros Hin. exists (p, a). split; [by apply elem_of_elements|]. by rewrite decide_True.
Qed.

Lemma clear_is_unreg p (e : Deleg) s : acct_ok (view s) -> a_del (view s) !! p = Some e ->
  let t := fold_left (a_clear_one p) (bound_to p s) (view s) in
  t <| a_del := <[p := step_down e]> (a_del t) |> = a_unreg p (view s).
Proof.
  intros Hok%acct_ok_split Hp t. destruct Hok as [Hd _].
  destruct (clear_fold p (bound_to p s) (view s)) as (Hdel & Hprox & Ht). fold t in Hdel, Hprox, Ht. clearbody t.
  assert (forall (b : Address) (d' : Deleg), a_del (view s) !! b = Some d' -> b ∈ bound_to p s <-> dl_proxy d' = Some p) as Hb.
  { intros b d' Hb. rewrite elem_bound_to. change (proxies s) with (a_prox (view s)).
    rewrite (do_prox _ _ Hd). split; [|by exists d']. intros (d2 & Hd2 & ?). congruence. }
  assert (<[p := step_down e]> (a_del t) = a_del (a_unreg p (view s))) as Edel.
  { apply map_eq. intros b. rewrite lookup_unreg, lookup_insert, Hdel. destruct (decide (p = b)) as [<-|Hne].
    - rewrite decide_True, Hp by done. cbn. f_equal. unfold free_from. by rewrite decide_False by by apply (share_self p e _ _ Hd).
    - rewrite (decide_False (P := b = p)) by done. destruct (a_del (view s) !! b) as [d'|] eqn:Eb; [|by case_decide].
      cbn. unfold free_from. specialize (Hb b d' Eb). repeat case_decide; naive_solver. }
  assert (a_prox t = a_prox (a_unreg p (view s))) as Eprox.
  { apply set_eq. intros [q b]. rewrite Hprox. cbn. rewrite elem_of_filter, elem_bound_to. naive_solver. }
  rewrite Edel. rewrite Ht at 1. cbn. by rewrite Eprox.
Qed.

Lemma y_unregProxy b p u s s' : stk_wf s -> acct_ok (view s) -> runs (unregProxy b p) s u s' ->
  (exists d : Deleg, a_del (view s) !! p = Some d /\ dl_isproxy d = true) /\ yields s s' (a_unreg p (view s)).
Proof.
  intros Hwf Hok Hr. unfold unregProxy in Hr. run_inv Hr. destruct (GetDelegator p s) as [d|] eqn:Hg; [|run_inv Hr].
  destruct (IsProxy d) eqn:Hf; cbn [negb] in Hr; [|run_inv Hr]. unfold ClearProxy in Hr. run_inv Hr.
  destruct (GetDelegator_view _ _ _ _ _ (silent_refl s Hwf) Hg) as [Ha Hv].
  split; [by exists (dview d)|]. rewrite <- (clear_is_unreg p (dview d) s Hok Hv).
  match goal with Hl : runs (for_each _ _) _ _ _ |- _ => cbn [DelegatorAddress RegProxy set eta Delegator_eta] in Hl;
    rewrite Ha in Hl; pose proof (y_clear_loop _ _ _ s _ _ _ Hl (silent_refl s Hwf)) as Hy end.
  apply runs_or_error in Hr. eapply yields_eq; [eapply y_UpdateShares; [exact Hr|apply q_SetDelegator, Hy]|].
  cbn [DelegatorAddress RegProxy set eta Delegator_eta]. by rewrite Ha.
Qed.

(** ** Votes and validators *)

Lemma y_AddShares b a l u s s' : stk_wf s -> runs (handleMsgAddShares b a l) s u s' -> silent s s'.
Proof.
  intros Hwf Hr. unfold handleMsgAddShares in Hr. run_inv Hr. case_decide; [run_inv Hr|].
  destruct (_ <? _); [run_inv Hr|]. run_inv Hr. destruct (GetDelegator a s) as [d|] eqn:Hg; [|run_inv Hr].
  destruct (Tokens d =? 0); [run_inv Hr|]. destruct (HasProxy d); [run_inv Hr|]. run_inv Hr.
  destruct (GetLastValsAddedSharesExisted a s) as [lv ls] eqn:Hl.
  apply runs_bind in Hr as (u1 & s1 & Hw & Hr).
  assert (silent s s1) as Hy1.
  { eapply silent_WithdrawLast; [done| |exact Hw]. intros v Hv. apply (LastVals_copies a); [done|by rewrite Hl]. }
  run_inv Hr. destruct (GetValidatorsToAddShares l s1) as [vals|] eqn:Hvals; [|run_inv Hr].
  destruct (validateSharesAdding vals); [run_inv Hr|]. apply runs_bind in Hr as (x & s2 & Ha & Hr). run_inv Hr.
  assert (silent s s2) as Hy2.
  { apply (yields_silent _ _ _ _ Hy1). eapply silent_AddShares; [apply Hy1| |exact Ha].
    by apply (ToAddShares_copies l); [apply Hy1|]. }
  apply (yields_silent _ _ _ _ Hy2), silent_SetDelegator; [apply Hy2|]. rewrite <- view_delegator, (y_view _ _ _ Hy2).
  destruct (GetDelegator_view _ _ _ _ _ (silent_refl s Hwf) Hg) as [<- Hv]. exact Hv.
Qed.

Lemma y_EditValidator a desc u s s' : stk_wf s -> runs (handleMsgEditValidator a desc) s u s' -> silent s s'.
Proof.
  intros Hwf Hr. unfold handleMsgEditValidator in Hr. run_inv Hr.
  destruct (GetValidator a s) as [v|] eqn:Hg; [|run_inv Hr]. destruct (UpdateDescription _ _) as [nd [e|]]; run_inv Hr.
  destruct (copy_of_lookup a v s Hwf Hg) as [Hc _]. by apply silent_SetValidator.
Qed.

(** The accounts after a step that may change the validators' deposits. *)
Record becomes s s' (t : Acct) : Prop := {
  b_wf : stk_wf s';
  b_view : view s' = t;
  b_params : stk_params s' = stk_params s;
}.
Lemma yields_becomes s s' t : yields s s' t -> becomes s s' t.
Proof. by intros []. Qed.
Lemma becomes_yields s s1 s2 t : becomes s s1 t -> forall t', yields s1 s2 t' -> becomes s s2 t'.
Proof. intros [] t' []. split; [done|done|congruence]. Qed.

(** A validator enters, or the deposit of one changes. *)
Lemma becomes_SetValidator v s : stk_wf s -> 0 <= MinSelfDelegation v ->
  becomes s (SetValidator v s)
    ((view s) <| a_msd := a_msd (view s) - msd_at (OperatorAddress v) s + MinSelfDelegation v |>).
Proof.
  intros [Hd Hv Hm] Hnn. split; [split; [done| |done]| |done].
  - intros a w. cbn. rewrite lookup_insert. case_decide as Ha; [|apply Hv]. intros [= <-]. by split.
  - unfold view. cbn. f_equal. by rewrite msum_insert.
Qed.

Lemma b_CreateValidator m u s s' : stk_wf s -> 0 <= (cv_MinSelfDelegation m).2 ->
  runs (handleMsgCreateValidator PubKey_Type PubKeyTypes m) s u s' ->
  becomes s s' (a_create (cv_MinSelfDelegation m).2 (view s)).
Proof.
  intros Hwf Hnn Hr. unfold handleMsgCreateValidator in Hr. run_inv Hr. case_bool_decide as Hnew; [run_inv Hr|].
  run_inv Hr. case_bool_decide; [run_inv Hr|]. destruct (negb _); [run_inv Hr|].
  destruct (EnsureLength _).2; [run_inv Hr|]. destruct (match PubKeyTypes with Some _ => _ | None => _ end); [run_inv Hr|].
  unfold SetInitialCommission in Hr. cbn [Validate] in Hr. destruct (Validate _); [run_inv Hr|].
  set (v := _ <| val_Commission := _ |>) in Hr. apply runs_bind in Hr as (u1 & s1 & Hset & Hr). run_inv Hset.
  unfold AddSharesAsMinSelfDelegation, addSharesAsDefaultMinSelfDelegation in Hr. run_inv Hr.
  pose proof (becomes_SetValidator v s Hwf Hnn) as Hb.
  assert (msd_at (OperatorAddress v) s = 0) as Hz.
  { unfold msd_at. unfold GetValidator in Hnew. change (OperatorAddress v) with (cv_ValidatorAddress m).
    destruct (validators s !! _); [by destruct Hnew|done]. }
  assert (copy_of v (SetValidator v s)) as Hc by (unfold copy_of, msd_at; cbn; by rewrite lookup_insert_eq).
  rewrite Hz in Hb. apply (becomes_yields _ _ _ _ Hb).
  eapply q_Created; [exact Hr|]. apply q_frame; [apply _|]. apply q_SetValidator; [|exact Hc]. apply q_frame; [apply _|].
  match goal with Hd : runs (DelegateCoins _ _) _ _ _ |- _ =>
    eapply yields_eq; [eapply y_DelegateCoins; [exact Hd|]|] end.
  - apply q_frame; [apply _|]. apply q_frame; [apply _|]. apply silent_refl, Hb.
  - rewrite (b_view _ _ _ Hb). unfold a_create. cbn. f_equal. lia.
Qed.

Lemma b_RemoveValidator a v u s s' : stk_wf s -> validators s !! a = Some v -> runs (RemoveValidator a) s u s' ->
  becomes s s' ((view s) <| a_msd := a_msd (view s) - MinSelfDelegation v |>).
Proof.
  intros Hwf Ha Hr. unfold RemoveValidator in Hr. run_inv Hr. unfold GetValidator in Hr. rewrite Ha in Hr.
  destruct (negb (IsUnbonded v)); [run_inv Hr|]. destruct (0 <? val_Tokens v); run_inv Hr.
  assert (becomes s (s <| validators := delete a (validators s) |>)
    ((view s) <| a_msd := a_msd (view s) - MinSelfDelegation v |>)) as Hb.
  { destruct Hwf as [Hd Hv Hm]. split; [split; [done| |done]| |done].
    - intros c w Hw. cbn in Hw. apply lookup_delete_Some in Hw as [_ Hw]. by apply Hv.
    - unfold view. cbn. f_equal. by rewrite msum_delete_default, Ha. }
  apply (becomes_yields _ _ _ _ Hb). rewrite <- (b_view _ _ _ Hb).
  eapply q_Removed; [exact Hr|]. apply q_frame; [apply _|].
  apply silent_frame; try reflexivity. apply Hb.
Qed.

Lemma q_AppendAbandoned c u s s1 s2 t : runs (AppendAbandonedValidatorAddrs c) s1 u s2 -> yields s s1 t -> yields s s2 t.
Proof.
  intros Hr Hy. unfold AppendAbandonedValidatorAddrs, mustGetValidatorByConsAddr in Hr. run_inv Hr.
  destruct (GetValidatorByConsAddr c s1); [|match goal with Hp : runs (panic _) _ _ _ |- _ => run_inv Hp end].
  match goal with Hp : runs (mret _) _ _ _ |- _ => run_inv Hp end.
  apply (yields_silent _ _ _ _ Hy), silent_frame; try reflexivity. apply Hy.
Qed.

Lemma enqueue_msd a x t y T : (a_enqueue a x t (a_unbond x T)) <| a_msd := y |> = a_enqueue a x t (a_unbond x (T <| a_msd := y |>)).
Proof. done. Qed.

(** The last step of [WithdrawMinSelfDelegation]: the deposit is gone. *)
Lemma b_dismiss v v' w s s1 s2 t u (rm : bool) : copy_of v s -> MinSelfDelegation v ≠ 0 -> yields s s1 t ->
  OperatorAddress w = OperatorAddress v -> MinSelfDelegation w = 0 ->
  (if rm then runs (RemoveValidator (OperatorAddress w)) s1 u s2
   else s2 = SetValidator w (DeleteValidatorByPowerIndex v' s1)) ->
  becomes s s2 (t <| a_msd := a_msd t - MinSelfDelegation v |>).
Proof.
  intros Hc Hnz Hy Hop Hw Hr. pose proof (yields_copy _ _ _ _ Hy Hc) as Hc1. destruct rm.
  - unfold copy_of, msd_at in Hc1. rewrite <- Hop in Hc1. destruct (validators s1 !! OperatorAddress w) as [v1|] eqn:Hv1; [|done].
    cbn in Hc1. pose proof (b_RemoveValidator _ v1 u s1 s2 (y_wf _ _ _ Hy) Hv1 Hr) as Hb.
    rewrite (y_view _ _ _ Hy), Hc1 in Hb. destruct Hb as [Hb1 Hb2 Hb3]. split; [done..|]. by rewrite Hb3, (y_params _ _ _ Hy).
  - assert (yields s (DeleteValidatorByPowerIndex v' s1) t) as Hy' by (apply q_frame; [apply _|exact Hy]).
    pose proof (becomes_SetValidator w _ (y_wf _ _ _ Hy') ltac:(lia)) as Hb.
    rewrite (y_msd _ _ _ Hy'), (y_view _ _ _ Hy'), Hw in Hb. unfold copy_of in Hc. rewrite Hop, Hc in Hb.
    subst s2. destruct Hb as [Hb1 Hb2 Hb3]. split; [done| |by rewrite Hb3, (y_params _ _ _ Hy')].
    by rewrite Hb2, Z.add_0_r.
Qed.

Lemma b_DestroyValidator b a u s s' : stk_wf s -> (forall a u, undelegations s !! a = Some u -> ud_DelegatorAddress u = a) ->
  runs (handleMsgDestroyValidator b a) s u s' ->
  0 < msd_at a s /\ becomes s s' (a_destroy a (msd_at a s) (completion_time b s) (view s)).
Proof.
  intros Hwf Hud Hr. unfold handleMsgDestroyValidator in Hr. run_inv Hr.
  destruct (GetValidator a s) as [v|] eqn:Hg; [|run_inv Hr]. run_inv Hr.
  destruct (copy_of_lookup a v s Hwf Hg) as [Hc Ha]. pose proof (wf_val s Hwf a v Hg) as [_ Hnn].
  assert (msd_at a s = MinSelfDelegation v) as Hm by by rewrite <- Ha.
  match goal with Hw : runs (WithdrawMinSelfDelegation _ _ _) _ _ _ |- _ => rename Hw into Hr1 end.
  unfold WithdrawMinSelfDelegation in Hr1. destruct (_ =? 0) eqn:Hz in Hr1; [run_inv Hr1|]. apply Z.eqb_neq in Hz.
  split; [lia|]. rewrite Hm. destruct (_ <? 0) eqn:Hrem in Hr1; [run_inv Hr1|].
  apply runs_bind in Hr1 as (u1 & s1 & Hb1 & Hr1). pose proof (y_bondedToNot _ _ _ _ _ _ Hb1 (silent_refl s Hwf)) as Hy1.
  apply runs_bind in Hr1 as (t1 & s2 & Ht & Hr1). run_inv Ht. rewrite (completion_time_params b _ _ _ Hy1) in Hr1.
  apply runs_bind in Hr1 as (u2 & s2 & Hb2 & Hr1).
  pose proof (y_enqueue _ _ _ _ _ _ _ _ Hb2 Hy1 (y_undelegation_keys _ _ _ Hy1 Hud)) as Hy2.
  apply runs_bind in Hr1 as (u3 & s3 & Hb3 & Hr1). pose proof (q_Destroyed _ _ _ _ _ _ _ Hb3 Hy2) as Hy3.
  apply runs_bind in Hr1 as (u4 & s4 & Hb4 & Hr1). apply runs_when in Hb4.
  assert (yields s s4 (a_enqueue a (MinSelfDelegation v) (completion_time b s) (a_unbond (MinSelfDelegation v) (view s)))) as Hy4
    by (destruct (IsBonded _) in Hb4; [exact (q_AppendAbandoned _ _ _ _ _ _ Hb4 Hy3)|by subst s4]).
  unfold a_destroy. rewrite <- enqueue_msd.
  set (w := v <| MinSelfDelegation := 0 |> <| Jailed := true |>) in *.
  destruct (_ && _) in Hr1.
  - apply runs_bind in Hr1 as (u5 & s5 & Hb5 & Hr1). run_inv Hr1.
    exact (b_dismiss v w w s _ _ _ _ true Hc Hz Hy4 eq_refl eq_refl Hb5).
  - run_inv Hr1. exact (b_dismiss v w (w <| DelegatorShares := _ |>) s _ _ _ tt false Hc Hz Hy4 eq_refl eq_refl eq_refl).
Qed.

(** ** All messages *)

(** What [ValidateBasic] of the messages ensures about deposits (it asks
    for at least 500). *)
Definition msg_ok (msg : stk_msg) : Prop :=
  match msg with CreateValidator m => 0 <= (cv_MinSelfDelegation m).2 | _ => True end.

(** What a message does to the accounts, in a block [b] from state [s]. *)
Definition a_step b s (msg : stk_msg) (t : Acct) : Acct :=
  match msg with
  | CreateValidator m => a_create (cv_MinSelfDelegation m).2 t
  | EditValidator _ _ | AddShares _ _ => t
  | Deposit a amount => a_deposit a amount.2 t
  | WithdrawTokens a amount => a_withdraw a amount.2 (completion_time b s) t
  | Bind a p => if decide ((a_del t !! a ≫= dl_proxy) = Some p) then t else a_bind a p t
  | Unbind a => a_unbind a t
  | Reg p reg => if reg then a_reg p t else a_unreg p t
  | DestroyValidator a => a_destroy a (msd_at a s) (completion_time b s) t
  end.

Lemma ud_keys s : acct_ok (view s) -> forall a u, undelegations s !! a = Some u -> ud_DelegatorAddress u = a.
Proof. intros Hok a u Hu. by apply (ok_ud _ Hok a u). Qed.

Lemma deposit_step b a amount u s s' : stk_wf s -> acct_ok (view s) -> runs (handleMsgDeposit b a amount) s u s' ->
  becomes s s' (a_deposit a amount.2 (view s)) /\ acct_ok (a_deposit a amount.2 (view s)).
Proof.
  intros Hwf Hok Hr. unfold handleMsgDeposit in Hr. destruct amount as [d x]. cbn [fst snd] in *.
  case_bool_decide as Hd; cbn [negb] in Hr; [subst d|run_inv Hr].
  destruct (Delegate_yields _ _ _ _ _ _ Hwf Hr) as [Hx Hy]. split; [by apply yields_becomes|by apply a_deposit_ok].
Qed.

Lemma withdraw_step b a amount u s s' : stk_wf s -> acct_ok (view s) -> runs (handleMsgWithdraw b a amount) s u s' ->
  becomes s s' (a_withdraw a amount.2 (completion_time b s) (view s)) /\
  acct_ok (a_withdraw a amount.2 (completion_time b s) (view s)).
Proof.
  intros Hwf Hok Hr. unfold handleMsgWithdraw in Hr. destruct amount as [d x]. cbn [fst snd] in *.
  case_bool_decide as Hd; cbn [negb] in Hr; [subst d|run_inv Hr]. apply runs_bind in Hr as (t & s1 & Hw & Hr). run_inv Hr.
  destruct (Withdraw_yields _ _ _ _ _ _ Hwf (ud_keys s Hok) Hw) as ((e & He & Hx & Hpx) & -> & Hy).
  assert (a_del (view s) !! a = Some (dview e)) as Hv by (by rewrite view_delegator, He).
  split; [by apply yields_becomes|]. apply a_withdraw_ok; [done|lia| |by exists (dview e)].
  intros e' He'. assert (e' = dview e) as -> by congruence. split; [cbn; lia|exact Hpx].
Qed.

Lemma proxy_step b msg u s s' : stk_wf s -> acct_ok (view s) ->
  match msg with Bind _ _ | Unbind _ | Reg _ _ => True | _ => False end ->
  runs (NewHandler PubKey_Type PubKeyTypes b msg) s u s' ->
  becomes s s' (a_step b s msg (view s)) /\ acct_ok (a_step b s msg (view s)).
Proof.
  intros Hwf Hok Hmsg Hr. destruct msg as [| | | | |a p|a|p reg|]; try done; cbn [NewHandler a_step] in *.
  - destruct (y_BindProxy _ _ _ _ _ _ Hwf Hr) as (Ha & Hp & Hy). split; [by apply yields_becomes|].
    case_decide; [done|by apply a_bind_ok].
  - destruct (y_unbindProxy _ _ _ _ _ _ _ Hr (silent_refl s Hwf)) as ((d & p & Hd & Hp) & Hy).
    split; [by apply yields_becomes|]. apply a_unbind_ok; [done|]. exists (dview d), p. split; [|done].
    rewrite view_delegator. unfold GetDelegator in Hd. by rewrite Hd.
  - unfold handleRegProxy in Hr. destruct reg.
    + destruct (y_regProxy _ _ _ _ _ Hwf Hr) as ((d & Hd & Hf & Hp) & Hy). split; [by apply yields_becomes|].
      by apply (a_reg_ok p d).
    + destruct (y_unregProxy _ _ _ _ _ Hwf Hok Hr) as ((d & Hd & Ht) & Hy). split; [by apply yields_becomes|].
      by apply (a_unreg_ok p d).
Qed.

Lemma handler_step b msg u s s' : stk_wf s -> acct_ok (view s) -> msg_ok msg ->
  runs (NewHandler PubKey_Type PubKeyTypes b msg) s u s' ->
  becomes s s' (a_step b s msg (view s)) /\ acct_ok (a_step b s msg (view s)).
Proof.
  intros Hwf Hok Hmsg Hr. destruct msg as [m|v desc|a amount|a amount|a l|a p|a|p reg|a].
  - split; [by eapply b_CreateValidator|by apply a_create_ok].
  - split; [|done]. apply yields_becomes. by eapply y_EditValidator.
  - by apply (deposit_step b a amount u).
  - by apply (withdraw_step b a amount u).
  - split; [|done]. apply yields_becomes. by eapply y_AddShares.
  - by apply (proxy_step b (Bind a p) u).
  - by apply (proxy_step b (Unbind a) u).
  - by apply (proxy_step b (Reg p reg) u).
  - destruct (b_DestroyValidator _ _ _ _ _ Hwf (ud_keys s Hok) Hr) as [Hx Hb]. split; [done|by apply a_destroy_ok].
Qed.

(** C18: a message that is accepted changes the accounts exactly as
    the abstract operation of its kind says: a deposit moves tokens into
    the bonded pool and the proxy's total, a withdrawal and a destroyed
    validator queue theirs for the completion time, binding moves totals
    between proxies; votes and descriptions leave the accounts alone. *)
Theorem NewHandler_refines b msg u s s' : stk_wf s -> acct_ok (view s) -> msg_ok msg ->
  runs (NewHandler PubKey_Type PubKeyTypes b msg) s u s' ->
  stk_wf s' /\ view s' = a_step b s msg (view s) /\ stk_params s' = stk_params s.
Proof. intros Hwf Hok Hmsg Hr. by destruct (handler_step b msg u s s' Hwf Hok Hmsg Hr) as [[] _]. Qed.

End Refine.
End StakingRefine.
