(* ===== verification/StakingEnd.v ===== *)
(** The end of a block: changing the validator set leaves the accounts
    alone, and every undelegation that is due is paid out.  Together with
    the message handlers: the accounts are in order in every reachable
    state. *)
From S2P Require Import Prelude.
From S2P Require Import Interfaces.
From S2P Require Import Sums.
From S2P Require Import Effects.
From S2P Require Import StakingTypes.
From S2P Require Import StakingKeys.
From S2P Require Import StakingState.
From S2P Require Import StakingKeeper.
From S2P Require Import StakingVals.
From S2P Require Import StakingHandler.
From S2P Require Import StakingAcct.
From S2P Require Import StakingView.
From S2P Require Import StakingRefine.
From stdpp Require Import sorting.
Import StakingTypes StakingKeys StakingState StakingKeeper StakingVals StakingHandler StakingAcct StakingView StakingRefine.
Local Open Scope Z_scope.

Module StakingEnd.
Section End_.
Context {W : Type} `{SupplyKeeperLaws W, !StakingHooks W, !StakingHooksLaws W, !StakingSdk, !StakingSdkLaws, !SdkConfig}.
Context (PubKey_Type : bytes -> string) (PubKeyTypes : option (list string)).
Abbreviation stk := (Stk W).
Abbreviation E := (eff (Stk W) stk_error).
Implicit Types (s : stk) (v : Validator) (d : Delegator) (b : Block) (a p : Address).

(** ** The validator set *)

Lemma must_copy a v s s1 s2 t : runs (mustGetValidator a) s1 v s2 -> yields s s1 t ->
  s2 = s1 /\ copy_of v s /\ OperatorAddress v = a.
Proof.
  intros Hr Hy. unfold mustGetValidator in Hr. run_inv Hr. destruct (GetValidator a s1) as [w|] eqn:Hg; run_inv Hr.
  destruct (copy_of_lookup a w s1 (y_wf _ _ _ Hy) Hg) as [Hc Ha]. split; [done|]. split; [|done].
  unfold copy_of in *. by rewrite <- (y_msd _ _ _ Hy).
Qed.

(** A transition keeps the address and the deposit of the validator. *)
Definition same_deposit v v' : Prop :=
  OperatorAddress v' = OperatorAddress v /\ MinSelfDelegation v' = MinSelfDelegation v.
Lemma same_deposit_copy v v' s : same_deposit v v' -> copy_of v s -> copy_of v' s.
Proof. unfold copy_of. by intros [-> ->]. Qed.

Lemma q_bondValidator v v' s s1 s2 t : runs (bondValidator v) s1 v' s2 -> yields s s1 t -> copy_of v s ->
  yields s s2 t /\ same_deposit v v'.
Proof.
  intros Hr Hy Hc. unfold bondValidator in Hr. run_inv Hr. split; [|done].
  eapply q_Bonded; [eassumption|]. do 2 (apply q_frame; [apply _|]). apply q_SetValidator; [|exact Hc].
  apply q_frame; [apply _|exact Hy].
Qed.

Lemma q_beginUnbonding b v v' s s1 s2 t : runs (beginUnbondingValidator b v) s1 v' s2 -> yields s s1 t -> copy_of v s ->
  yields s s2 t /\ same_deposit v v'.
Proof.
  intros Hr Hy Hc. unfold beginUnbondingValidator in Hr. run_inv Hr. destruct (negb (IsBonded v)); run_inv Hr.
  split; [|done]. eapply q_BeginUnbonding; [eassumption|]. do 2 (apply q_frame; [apply _|]).
  apply q_SetValidator; [|exact Hc]. apply q_frame; [apply _|exact Hy].
Qed.

Lemma q_bondedToUnbonding b v v' s s1 s2 t : runs (bondedToUnbonding b v) s1 v' s2 -> yields s s1 t -> copy_of v s ->
  yields s s2 t /\ same_deposit v v'.
Proof.
  intros Hr. unfold bondedToUnbonding in Hr. destruct (negb _); [run_inv Hr|]. by apply (q_beginUnbonding b).
Qed.

Lemma q_promote v v' s s1 s2 t : runs (promote v) s1 v' s2 -> yields s s1 t -> copy_of v s ->
  yields s s2 t /\ same_deposit v v'.
Proof.
  intros Hr Hy Hc. unfold promote, unbondedToBonded, unbondingToBonded in Hr.
  destruct (Status v); [destruct (negb _); [run_inv Hr|]..|run_inv Hr; done];
    exact (q_bondValidator _ _ _ _ _ _ Hr Hy Hc).
Qed.

Lemma q_elect a v r r' s s1 s2 t : runs (elect a v r) s1 r' s2 -> yields s s1 t -> copy_of v s -> yields s s2 t.
Proof.
  intros Hr Hy Hc. unfold elect in Hr. apply runs_bind in Hr as (v' & s3 & Hp & Hr).
  destruct (q_promote _ _ _ _ _ _ Hp Hy Hc) as [Hy3 _]. apply runs_bind in Hr as (ups & s4 & Hu & Hr). run_inv Hr.
  destruct (bool_decide _); run_inv Hu; [done|]. apply q_frame; [apply _|done].
Qed.

Lemma q_elect_loop l s t : forall room r r' s1 s2, runs (elect_loop l room r) s1 r' s2 -> yields s s1 t -> yields s s2 t.
Proof.
  induction l as [|[k a] l IH]; intros room r r' s1 s2 Hr Hy; cbn [elect_loop] in Hr; [run_inv Hr; done|].
  destruct room as [|room]; [run_inv Hr; done|]. apply runs_bind in Hr as (v & s3 & Hv & Hr).
  destruct (must_copy _ _ _ _ _ _ Hv Hy) as (-> & Hc & _).
  destruct (Jailed v); [run_inv Hr|]. destruct (_ =? 0); [run_inv Hr; done|].
  destruct (_ <? _); [by eapply IH|]. apply runs_bind in Hr as (r1 & s4 & He & Hr).
  eapply IH; [exact Hr|]. exact (q_elect _ _ _ _ _ _ _ _ He Hy Hc).
Qed.

Lemma q_discharge_loop b l s t : forall ups ups' s1 s2, runs (discharge_loop b l ups) s1 ups' s2 -> yields s s1 t -> yields s s2 t.
Proof.
  induction l as [|a l IH]; intros ups ups' s1 s2 Hr Hy; cbn [discharge_loop] in Hr; [run_inv Hr; done|].
  apply runs_bind in Hr as (v & s3 & Hv & Hr). destruct (must_copy _ _ _ _ _ _ Hv Hy) as (-> & Hc & _).
  apply runs_bind in Hr as (v' & s4 & He & Hr). destruct (q_bondedToUnbonding _ _ _ _ _ _ _ He Hy Hc) as [Hy4 _].
  apply runs_bind in Hr as (u & s5 & Hm & Hr). run_inv Hm. eapply IH; [exact Hr|]. apply q_frame; [apply _|done].
Qed.

Lemma q_ApplyUpdates b ups s s1 s2 t : runs (ApplyAndReturnValidatorSetUpdates b) s1 ups s2 -> yields s s1 t -> yields s s2 t.
Proof.
  intros Hr Hy. unfold ApplyAndReturnValidatorSetUpdates in Hr.
  apply runs_bind in Hr as (mv & s3 & Hg & Hr). run_inv Hg. apply runs_bind in Hr as (la & s3 & Hg & Hr). run_inv Hg.
  apply runs_bind in Hr as (it & s3 & Hg & Hr). run_inv Hg. apply runs_bind in Hr as (r & s3 & He & Hr).
  pose proof (q_elect_loop _ s t _ _ _ _ _ He Hy) as Hy3. apply runs_bind in Hr as (ups' & s4 & Hd & Hr).
  pose proof (q_discharge_loop _ _ s t _ _ _ _ Hd Hy3) as Hy4. apply runs_bind in Hr as (u & s5 & Hw & Hr). run_inv Hr.
  apply runs_when in Hw. destruct (bool_decide _); [run_inv Hw; apply q_frame; [apply _|done]|by subst].
Qed.

Lemma q_kick_promote l s t : forall n last ups tot r s1 s2, runs (kick_promote_loop l n last ups tot) s1 r s2 ->
  yields s s1 t -> yields s s2 t.
Proof.
  induction l as [|[k a] l IH]; intros n last ups tot r s1 s2 Hr Hy; cbn [kick_promote_loop] in Hr; [run_inv Hr; done|].
  destruct n as [|n]; [run_inv Hr; done|]. destruct (bool_decide _); [by eapply IH|].
  apply runs_bind in Hr as (v & s3 & Hv & Hr). destruct (must_copy _ _ _ _ _ _ Hv Hy) as (-> & Hc & _).
  destruct (_ =? 0); [by eapply IH|]. destruct (_ <? _); [by eapply IH|].
  apply runs_bind in Hr as (v' & s4 & Hp & Hr). apply runs_bind in Hr as (u & s5 & Hm & Hr). run_inv Hm.
  eapply IH; [exact Hr|]. apply q_frame; [apply _|].
  unfold unbondedToBonded, unbondingToBonded in Hp.
  destruct (Status v); [destruct (negb _); [run_inv Hp|]..|run_inv Hp];
    by destruct (q_bondValidator _ _ _ _ _ _ Hp Hy Hc).
Qed.

Lemma q_kick_discharge b l s t : forall last ups tot r s1 s2, runs (kick_discharge_loop b l last ups tot) s1 r s2 ->
  yields s s1 t -> yields s s2 t.
Proof.
  induction l as [|a l IH]; intros last ups tot r s1 s2 Hr Hy; cbn [kick_discharge_loop] in Hr; [run_inv Hr; done|].
  apply runs_bind in Hr as (v & s3 & Hv & Hr). destruct (must_copy _ _ _ _ _ _ Hv Hy) as (-> & Hc & _).
  destruct (Status v); [by eapply IH..|].
  apply runs_bind in Hr as (v' & s4 & He & Hr). destruct (q_bondedToUnbonding _ _ _ _ _ _ _ He Hy Hc) as [Hy4 _].
  apply runs_bind in Hr as (u & s5 & Hm & Hr). run_inv Hm. destruct (last !! a); [|run_inv Hr].
  eapply IH; [exact Hr|]. apply q_frame; [apply _|done].
Qed.

Lemma q_KickOut b ups s s1 s2 t : runs (KickOutAndReturnValidatorSetUpdates b) s1 ups s2 -> yields s s1 t -> yields s s2 t.
Proof.
  intros Hr Hy. unfold KickOutAndReturnValidatorSetUpdates in Hr.
  do 4 (let x := fresh "x" in let s3 := fresh "s" in let Hg := fresh in
        apply runs_bind in Hr as (x & s3 & Hg & Hr); run_inv Hg).
  apply runs_bind in Hr as ([u1 t1] & s3 & He & Hr). pose proof (q_kick_promote _ s t _ _ _ _ _ _ _ He Hy) as Hy3.
  apply runs_bind in Hr as ([u2 t2] & s4 & Hd & Hr). pose proof (q_kick_discharge _ _ s t _ _ _ _ _ _ Hd Hy3) as Hy4.
  apply runs_bind in Hr as (u & s5 & Hm & Hr). run_inv Hm. run_inv Hr. apply q_frame; [apply _|done].
Qed.

(** ** Mature validators *)

Lemma q_unbond_mature a u s s1 s2 t : runs (unbond_mature a) s1 u s2 -> yields s s1 t -> yields s s2 t.
Proof.
  intros Hr Hy. unfold unbond_mature in Hr. run_inv Hr. destruct (GetValidator a s1) as [v|] eqn:Hg; [|run_inv Hr].
  destruct (copy_of_lookup a v s1 (y_wf _ _ _ Hy) Hg) as [Hc1 Ha].
  assert (copy_of v s) as Hc by (unfold copy_of in *; by rewrite <- (y_msd _ _ _ Hy)).
  unfold unbondingToUnbonded, completeUnbondingValidator in Hr. destruct (negb (IsUnbonding v)) eqn:Hu; [run_inv Hr|].
  run_inv Hr. assert (yields s (SetValidator (UpdateStatus v Unbonded) s1) t) as Hy' by (by apply q_SetValidator).
  destruct (_ && _) eqn:Hz in Hr; [|by subst]. apply andb_prop in Hz as [_ Hz%Z.eqb_eq].
  eapply q_RemoveValidator; [exact Hr|exact Hy'|]. exact (eq_trans Hc Hz).
Qed.

Lemma q_for_each {A} (l : list A) (f : A -> E unit) u s s1 s2 t : runs (for_each l f) s1 u s2 -> yields s s1 t ->
  (forall x s1 s2, runs (f x) s1 tt s2 -> yields s s1 t -> yields s s2 t) -> yields s s2 t.
Proof.
  intros Hr Hy Hf. apply (runs_for_each (fun s2 => yields s s2 t) l f s1 u s2 Hr Hy).
  intros x s3 s4 _ Hy3 Hx. by apply (Hf x s3).
Qed.

Lemma q_UnbondAll b u s s1 s2 t : runs (UnbondAllMatureValidatorQueue b) s1 u s2 -> yields s s1 t -> yields s s2 t.
Proof.
  intros Hr Hy. unfold UnbondAllMatureValidatorQueue in Hr. run_inv Hr. eapply q_for_each; [exact Hr|exact Hy|].
  intros [time l] s3 s4 Hx Hy3. apply runs_bind in Hx as (u1 & s5 & Hl & Hx). run_inv Hx.
  apply q_frame; [apply _|]. eapply q_for_each; [exact Hl|exact Hy3|]. intros a s6 s7 Ha. by apply (q_unbond_mature a tt).
Qed.

(** ** Payments *)

(** What the undelegation of [a] pays when the keys [l] are due. *)
Definition due (l : list (Time * Address)) a s : Dec :=
  match undelegations s !! a with
  | Some u => if decide ((CompletionTime u, a) ∈ l) then Quantity u else 0
  | None => 0
  end.

(** One payment goes through: the pool holds what is promised. *)
Lemma complete_one_pays t a u s : stk_wf s -> acct_ok (view s) -> undelegations s !! a = Some u -> CompletionTime u = t ->
  exists s', runs (complete_one (t, a)) s tt s' /\ stk_wf s' /\ view s' = a_complete (t, a) (view s) /\
    (forall c, account_balance (world s') c DefaultBondDenom =
       account_balance (world s) c DefaultBondDenom + if decide (c = a) then Quantity u else 0).
Proof.
  intros Hwf Hok Hu Ht. destruct (ok_ud _ Hok a u Hu) as [Hua Hq].
  assert (Quantity u <= pool_balance (world s) NotBondedPoolName DefaultBondDenom) as Hpool.
  { change (Quantity u <= a_notbonded (view s)). rewrite (ok_notbonded _ Hok).
    apply (msum_le_entry (fun _ u => Quantity u) (a_ud (view s)) a u); [|done].
    intros c w Hw. destruct (ok_ud _ Hok c w Hw). lia. }
  destruct (UndelegateCoins_enough (world s) a NotBondedPoolName DefaultBondDenom (Quantity u)) as [w Hw]; [lia|].
  exists (s <| undelegateQueue := undelegateQueue s ∖ {[(t, a)]} |> <| world := w |> <| undelegations := delete a (undelegations s) |>).
  destruct (UndelegateCoins_ok _ _ _ _ _ _ Hw) as [Hp Ha]. split_and!.
  - apply runs_bind. exists tt, (DeleteAddrByTimeKey t a s). split; [done|]. apply runs_catch_ok, runs_bind.
    eexists (Quantity u), _. split; [|by apply runs_ret]. apply runs_bind. exists (Some u), (DeleteAddrByTimeKey t a s).
    split; [by apply runs_gets|]. apply runs_bind.
    exists tt, ((DeleteAddrByTimeKey t a s) <| world := w |>). split.
    + unfold runs, UndelegateCoins. change (world (DeleteAddrByTimeKey t a s)) with (world s). by rewrite Hua, Hw.
    + apply runs_bind. exists tt, (DeleteUndelegating a ((DeleteAddrByTimeKey t a s) <| world := w |>)). done.
  - destruct Hwf as [Hd Hv Hm]. by split.
  - unfold view, a_complete. cbn. rewrite Hu, !Hp. cbn. f_equal; repeat case_decide; try lia; pose proof pools_differ; intuition congruence.
  - intros c. cbn. rewrite Ha. repeat case_decide; try lia; intuition congruence.
Qed.

Lemma complete_lookup t a (x : Acct) c : a_ud (a_complete (t, a) x) !! c = if decide (c = a) then None else a_ud x !! c.
Proof.
  unfold a_complete. cbn. destruct (a_ud x !! a) eqn:Ha; cbn; [rewrite lookup_delete|]; repeat case_decide; naive_solver.
Qed.
Lemma complete_queue t a (x : Acct) : a_queue (a_complete (t, a) x) = a_queue x ∖ {[(t, a)]}.
Proof. unfold a_complete. cbn. by destruct (a_ud x !! a). Qed.
Lemma complete_rest k (x : Acct) : a_del (a_complete k x) = a_del x /\ a_prox (a_complete k x) = a_prox x /\
  a_bonded (a_complete k x) = a_bonded x /\ a_msd (a_complete k x) = a_msd x.
Proof. unfold a_complete. by destruct (a_ud _ !! k.2). Qed.

(** All payments of a list of queued keys go through. *)
Lemma complete_all l : forall s, stk_wf s -> acct_ok (view s) -> NoDup l -> (forall k, k ∈ l -> k ∈ undelegateQueue s) ->
  exists s', runs (for_each l complete_one) s tt s' /\ stk_wf s' /\ acct_ok (view s') /\
    view s' = fold_left (fun x k => a_complete k x) l (view s) /\
    (forall c, account_balance (world s') c DefaultBondDenom = account_balance (world s) c DefaultBondDenom + due l c s).
Proof.
  induction l as [|[t a] l IH]; intros s Hwf Hok Hnd Hin.
  - exists s. split_and!; [done|done|done|done|]. intros c. unfold due.
    destruct (undelegations s !! c); [rewrite decide_False by apply not_elem_of_nil|]; lia.
  - apply NoDup_cons in Hnd as [Hni Hnd].
    assert ((t, a) ∈ a_queue (view s)) as Hq by (apply Hin, list_elem_of_here).
    destruct (proj1 (ok_queue _ Hok t a) Hq) as (u & Hu & Ht).
    destruct (complete_one_pays t a u s Hwf Hok Hu Ht) as (s1 & Hr & Hwf1 & Hv1 & Hb1).
    assert (acct_ok (view s1)) as Hok1 by (rewrite Hv1; by apply a_complete_ok).
    destruct (IH s1 Hwf1 Hok1 Hnd) as (s2 & Hr2 & Hwf2 & Hok2 & Hv2 & Hb2).
    { intros k Hk. change (k ∈ a_queue (view s1)). rewrite Hv1, complete_queue, elem_of_difference, elem_of_singleton.
      split; [by apply Hin, list_elem_of_further|]. intros ->. done. }
    exists s2. split_and!; [|done|done|by rewrite Hv2, Hv1|].
    + cbn [for_each]. apply runs_bind. by exists tt, s1.
    + intros c. rewrite Hb2, Hb1. unfold due. change (undelegations s1) with (a_ud (view s1)).
      rewrite Hv1, complete_lookup. change (a_ud (view s)) with (undelegations s) in *.
      destruct (decide (c = a)) as [->|Hne].
      * rewrite Hu, decide_True by (subst t; apply list_elem_of_here). lia.
      * rewrite Z.add_0_r. destruct (undelegations s !! c) as [w|]; [|lia]. f_equal. apply decide_ext.
        rewrite elem_of_cons. naive_solver.
Qed.

Lemma elem_mature_keys now s k : k ∈ mature_keys now s <-> k ∈ undelegateQueue s /\ k.1 <= now.
Proof. unfold mature_keys. rewrite merge_sort_Permutation, list_elem_of_filter, elem_of_elements. tauto. Qed.
Lemma NoDup_mature_keys now s : NoDup (mature_keys now s).
Proof. unfold mature_keys. rewrite merge_sort_Permutation. apply NoDup_filter, NoDup_elements. Qed.

Lemma fold_complete l : forall x : Acct, let x' := fold_left (fun x k => a_complete k x) l x in
  a_del x' = a_del x /\ a_prox x' = a_prox x /\ a_bonded x' = a_bonded x /\ a_msd x' = a_msd x /\
  forall c, a_ud x' !! c = if decide (c ∈ l.*2) then None else a_ud x !! c.
Proof.
  induction l as [|[t a] l IH]; intros x x'; subst x'; cbn [fold_left].
  - split_and!; [done..|]. intros c. by rewrite decide_False by apply not_elem_of_nil.
  - destruct (IH (a_complete (t, a) x)) as (-> & -> & -> & -> & Hl). destruct (complete_rest (t, a) x) as (-> & -> & -> & ->).
    split_and!; [done..|]. intros c. rewrite Hl, complete_lookup. cbn [fmap list_fmap snd].
    destruct (decide (c = a)) as [->|Hne]; [rewrite (decide_True (P := a ∈ a :: _)) by apply list_elem_of_here; by case_decide|].
    apply decide_ext. rewrite elem_of_cons. naive_solver.
Qed.

(** The update of the validator set, at the end of an epoch or within one. *)
Definition validator_updates b (e : bool) : E (list ValidatorUpdate) :=
  if e then
    oldEpoch ← gets GetEpoch;
    newEpoch ← gets (fun s => p_Epoch (stk_params s));
    _ ← when (negb (oldEpoch =? newEpoch)) (modify (SetEpoch newEpoch));
    _ ← modify (SetTheEndOfLastEpoch b);
    updates ← ApplyAndReturnValidatorSetUpdates b;
    _ ← modify DeleteAbandonedValidatorAddrs;
    mret updates
  else
    kicked ← gets IsKickedOut;
    if (kicked : bool) then
      updates ← KickOutAndReturnValidatorSetUpdates b;
      _ ← modify DeleteAbandonedValidatorAddrs;
      mret updates
    else mret [].
Lemma q_validator_updates b e ups s s1 : stk_wf s -> runs (validator_updates b e) s ups s1 -> silent s s1.
Proof.
  intros Hwf Hu. destruct e; cbn [validator_updates] in Hu.
  - run_inv Hu. apply q_frame; [apply _|]. eapply q_ApplyUpdates; [eassumption|]. apply q_frame; [apply _|].
    match goal with Hw : if _ then runs _ _ _ _ else _ |- _ => destruct (negb _) in Hw; [run_inv Hw|subst] end.
    + apply q_frame; [apply _|]. by apply silent_refl.
    + by apply silent_refl.
  - run_inv Hu. destruct (IsKickedOut s); run_inv Hu; [|by apply silent_refl].
    apply q_frame; [apply _|]. eapply q_KickOut; [eassumption|by apply silent_refl].
Qed.

(** Up to the payments the end of a block shows nothing in the accounts. *)
Lemma EndBlocker_parts b ups s s' : stk_wf s -> runs (EndBlocker b) s ups s' ->
  exists s1, silent s s1 /\ runs (for_each (mature_keys (BlockTime b) s1) complete_one) s1 tt s'.
Proof.
  intros Hwf Hr. unfold EndBlocker in Hr. apply runs_bind in Hr as (e & s1 & He & Hr).
  assert (s1 = s) as -> by (unfold runs in He; destruct (IsEndOfEpoch b s); naive_solver). clear He.
  apply runs_bind in Hr as (ups1 & s1 & Hu & Hr). apply runs_bind in Hr as (u & s2 & Hm & Hr).
  apply runs_bind in Hr as (keys & s3 & Hk & Hr). run_inv Hk. apply runs_bind in Hr as ([] & s3 & Hp & Hr). run_inv Hr.
  exists s2. split; [|exact Hp]. eapply q_UnbondAll; [exact Hm|]. exact (q_validator_updates b e _ _ _ Hwf Hu).
Qed.

(** C24: the end of a block pays out every undelegation that is due
    and no other: the delegator's account gets its amount on top of what
    the rest of the block left there, its record is gone, all other
    undelegations, delegators and the bonded pool stay, and the accounts
    remain in order.  No payment fails. *)
Theorem EndBlocker_pays b ups s s' : stk_wf s -> acct_ok (view s) -> runs (EndBlocker b) s ups s' ->
  stk_wf s' /\ acct_ok (view s') /\
  (forall a u, undelegations s' !! a = Some u <-> undelegations s !! a = Some u /\ BlockTime b < CompletionTime u) /\
  dview <$> delegators s' = dview <$> delegators s /\ proxies s' = proxies s /\
  a_bonded (view s') = a_bonded (view s) /\
  exists s1, silent s s1 /\ forall a, account_balance (world s') a DefaultBondDenom =
    account_balance (world s1) a DefaultBondDenom +
    match undelegations s !! a with
    | Some u => if CompletionTime u <=? BlockTime b then Quantity u else 0
    | None => 0
    end.
Proof.
  intros Hwf Hok Hr. destruct (EndBlocker_parts b ups s s' Hwf Hr) as (s1 & Hy & Hp).
  assert (acct_ok (view s1)) as Hok1 by by rewrite (y_view _ _ _ Hy).
  destruct (complete_all (mature_keys (BlockTime b) s1) s1 (y_wf _ _ _ Hy) Hok1 (NoDup_mature_keys _ _)) as
    (s2 & Hp2 & Hwf2 & Hok2 & Hv2 & Hb2); [by intros k [? _]%elem_mature_keys|].
  assert (s2 = s') as -> by (unfold runs in *; congruence).
  destruct (fold_complete (mature_keys (BlockTime b) s1) (view s1)) as (Ed & Epx & Eb & Em & Eu).
  rewrite <- Hv2 in Ed, Epx, Eb, Em, Eu. rewrite (y_view _ _ _ Hy) in Ed, Epx, Eb, Em, Eu.
  assert (undelegations s1 = undelegations s) as Es by exact (f_equal a_ud (y_view _ _ _ Hy)).
  assert (forall a u, undelegations s !! a = Some u -> (CompletionTime u, a) ∈ undelegateQueue s1) as Hq.
  { intros a u Hu. apply (ok_queue _ Hok1). exists u. split; [|done]. by rewrite (y_view _ _ _ Hy). }
  split_and!; [done|done| |exact Ed|exact Epx|exact Eb|].
  - intros a u. change (undelegations s') with (a_ud (view s')). rewrite Eu. change (a_ud (view s)) with (undelegations s).
    case_decide as Hm.
    + split; [done|]. intros [Hu Hlt]. apply list_elem_of_fmap in Hm as ([t c] & Hc & [Ht Hle]%elem_mature_keys). cbn in Hc. subst c.
      apply (ok_queue _ Hok1) in Ht as (w & Hw & <-). rewrite (y_view _ _ _ Hy) in Hw. cbn in Hw, Hle.
      assert (w = u) as -> by congruence. lia.
    + split; [|by intros []]. intros Hu. split; [done|]. apply Z.nle_gt. intros Hle. apply Hm.
      apply list_elem_of_fmap. exists (CompletionTime u, a). split; [done|]. apply elem_mature_keys. split; [by apply Hq|done].
  - exists s1. split; [done|]. intros a. rewrite Hb2. f_equal. unfold due. rewrite Es.
    destruct (undelegations s !! a) as [u|] eqn:Hu; [|done]. destruct (Z.leb_spec (CompletionTime u) (BlockTime b)).
    + rewrite decide_True; [done|]. apply elem_mature_keys. split; [by apply Hq|done].
    + rewrite decide_False; [done|]. intros [_ Hle]%elem_mature_keys. cbn in Hle. lia.
Qed.

(** ** Reachable states *)

(** Accepted messages, rejected ones (which are rolled back), the ends of
    blocks, and whatever other modules do to accounts outside the pools. *)
Inductive step s : stk -> Prop :=
  | step_message b msg u s' : msg_ok msg -> runs (NewHandler PubKey_Type PubKeyTypes b msg) s u s' -> step s s'
  | step_rejected b msg e s1 : NewHandler PubKey_Type PubKeyTypes b msg s = Ret (s1, inr e) -> step s s
  | step_end_block b ups s' : runs (EndBlocker b) s ups s' -> step s s'
  | step_others w : keeps_pools (world s) w -> step s (s <| world := w |>).

Lemma step_keeps s s' : step s s' -> stk_wf s -> acct_ok (view s) -> stk_wf s' /\ acct_ok (view s').
Proof.
  intros Hs Hwf Hok. destruct Hs as [b msg u s' Hm Hr| |b ups s' Hr|w Hw].
  - destruct (handler_step PubKey_Type PubKeyTypes b msg u s s' Hwf Hok Hm Hr) as [[Hb1 Hb2 _] Hok'].
    split; [done|]. by rewrite Hb2.
  - done.
  - destruct (EndBlocker_parts b ups s s' Hwf Hr) as (s1 & Hy & Hp).
    destruct (complete_all (mature_keys (BlockTime b) s1) s1 (y_wf _ _ _ Hy)) as (s2 & Hp2 & Hwf2 & Hok2 & _);
      [by rewrite (y_view _ _ _ Hy)|apply NoDup_mature_keys|by intros k [? _]%elem_mature_keys|].
    assert (s2 = s') as -> by (unfold runs in *; congruence). done.
  - pose proof (silent_hook (fun _ => Ret w) s (s <| world := w |>) Hwf) as Hy. unfold hook in Hy. cbn in Hy.
    assert (silent s (s <| world := w |>)) as Hyw.
    { destruct Hwf as [Hd Hv Hmn]. destruct (Hw DefaultBondDenom) as [Eb En]. split; [by split| |done..].
      unfold view. cbn. by rewrite Eb, En. }
    split; [apply Hyw|]. by rewrite (y_view _ _ _ Hyw).
Qed.

(** C19: in every state reachable from one in order the bonded pool
    holds exactly the validators' deposits and the delegators' tokens, the
    other pool exactly the tokens being undelegated, each undelegation is
    queued once under its time, every delegator has tokens, bindings go
    from ordinary delegators to proxies, and each proxy counts exactly the
    tokens bound to it. *)
Theorem accounts_stay_in_order s s' : rtc step s s' -> stk_wf s -> acct_ok (view s) -> acct_ok (view s').
Proof.
  intros Hs Hwf Hok. enough (stk_wf s' /\ acct_ok (view s')) by tauto.
  induction Hs as [|s1 s2 s3 H12 _ IH]; [done|]. apply IH; by apply (step_keeps s1 s2).
Qed.

(** ** A vote for a validator that left *)

Lemma UpdateShares_dismissed b p x e a v u s s' : delegators s !! p = Some e -> a ∈ ValidatorAddresses e ->
  validators s !! a = Some v -> MinSelfDelegation v = 0 -> ~ runs (UpdateShares b p x) s u s'.
Proof.
  intros He Ha Hv Hz Hr. unfold UpdateShares in Hr. apply runs_bind in Hr as (r & s1 & Hg & Hr).
  apply runs_gets in Hg as [-> ->]. unfold GetLastValsAddedSharesExisted, GetDelegator in Hr. rewrite He in Hr.
  assert (v ∈ omap (fun a => GetValidator a s) (ValidatorAddresses e)) as Hin by (apply list_elem_of_omap; by exists a).
  case_decide as Hnil; [rewrite Hnil in Hin; by apply elem_of_nil in Hin|].
  destruct (calculateWeight _ _) as [y|]; [|run_inv Hr]. apply runs_bind in Hr as (o & s1 & Hg & Hr). run_inv Hg.
  unfold GetDelegator in Hr. rewrite He in Hr. apply runs_bind in Hr as (u1 & s1 & Hl & Hr).
  destruct (runs_for_each_body _ _ v _ _ _ Hl Hin) as (s2 & s3 & Hx).
  unfold update_val_shares in Hx. rewrite Hz, Z.eqb_refl in Hx. run_inv Hx.
Qed.

Lemma UpdateProxy_dismissed b d p x e a v u s s' : stk_wf s -> ProxyAddress d = Some p -> delegators s !! p = Some e ->
  a ∈ ValidatorAddresses e -> validators s !! a = Some v -> MinSelfDelegation v = 0 -> ~ runs (UpdateProxy b d x) s u s'.
Proof.
  intros Hwf Hp He Ha Hv Hz Hr. unfold UpdateProxy in Hr. rewrite Hp in Hr. run_inv Hr. unfold GetDelegator in Hr. rewrite He in Hr.
  destruct (_ <? 0); [run_inv Hr|]. run_inv Hr. pose proof (wf_del s Hwf p e He) as Hpe. revert Hr.
  apply (UpdateShares_dismissed b _ _ (e <| TotalDelegatedTokens := TotalDelegatedTokens e + x |>) a v); [|done..].
  cbn. by rewrite lookup_insert_eq.
Qed.

(** C25: when a validator a proxy voted for gives up its deposit but
    stays in the store (others voted for it too), no delegator bound to
    the proxy can withdraw, unbind or deposit until the proxy votes anew:
    every attempt fails on the update of the proxy's votes. *)
Theorem dismissed_vote_locks_delegators b a d p e va v s : stk_wf s -> delegators s !! a = Some d ->
  ProxyAddress d = Some p -> p ≠ a -> delegators s !! p = Some e -> va ∈ ValidatorAddresses e ->
  validators s !! va = Some v -> MinSelfDelegation v = 0 ->
  (forall amount u s', ~ runs (NewHandler PubKey_Type PubKeyTypes b (WithdrawTokens a amount)) s u s') /\
  (forall u s', ~ runs (NewHandler PubKey_Type PubKeyTypes b (Unbind a)) s u s') /\
  (forall amount u s', ~ runs (NewHandler PubKey_Type PubKeyTypes b (Deposit a amount)) s u s').
Proof.
  intros Hwf Hd Hp Hpa He Hva Hv Hz. pose proof (wf_del s Hwf a d Hd) as Hda.
  assert (HasProxy d = true) as Hh by (apply HasProxy_true; by exists p).
  split_and!; cbn [NewHandler]; intros.
  - unfold handleMsgWithdraw, Withdraw. destruct amount as [den x]. intros Hr. case_bool_decide as Hden; cbn [negb] in Hr; [|run_inv Hr].
    cbn in Hden. subst den. apply runs_bind in Hr as (t & s1 & Hr & _). run_inv Hr. unfold GetDelegator in Hr. rewrite Hd in Hr. run_inv Hr.
    cbn [snd] in Hr. destruct (_ <? _) in Hr; [run_inv Hr|]. destruct (_ <? _) in Hr; [run_inv Hr|].
    destruct (_ && _) in Hr; [run_inv Hr|]. apply runs_bind in Hr as (u1 & s2 & Hb & Hr).
    apply runs_bind in Hr as (u2 & s3 & Hw & _). apply runs_when in Hw. rewrite Hh in Hw.
    pose proof (y_bondedToNot _ _ _ _ _ _ Hb (silent_refl s Hwf)) as Hy. apply runs_modify_res in Hb.
    destruct (SendCoinsFromModuleToModule _ _ _ _); [|done]. injection Hb as <-.
    revert Hw. by apply (UpdateProxy_dismissed b d p _ e va v); [apply Hy|..].
  - intros Hr. unfold handleMsgUnbindProxy, unbindProxy in Hr. run_inv Hr. unfold GetDelegator in Hr. rewrite Hd in Hr.
    run_inv Hr. rewrite Hp in Hr. cbn [mbind option_bind] in Hr. rewrite He in Hr.
    apply runs_bind in Hr as (u1 & s1 & Hw%runs_or_error & _). revert Hw. by apply (UpdateProxy_dismissed b d p _ e va v).
  - unfold handleMsgDeposit, Delegate. destruct amount as [den x]. intros Hr. case_bool_decide as Hden; cbn [negb] in Hr; [|run_inv Hr].
    cbn in Hden. subst den. run_inv Hr. cbn [snd] in Hr. destruct (_ <? _) in Hr; [run_inv Hr|]. apply runs_bind in Hr as (u1 & s1 & Hb & Hr).
    pose proof (y_DelegateCoins _ _ _ _ _ _ _ Hb (silent_refl s Hwf)) as Hy. unfold runs, DelegateCoins in Hb.
    destruct (DelegateCoinsFromAccountToModule _ _ _ _) as [w|]; [|done].
    assert (delegators s1 = delegators s /\ validators s1 = validators s) as [Ed Ev] by (by injection Hb as <- <-).
    apply runs_bind in Hr as (o & s2 & Hg & Hr). run_inv Hg. unfold GetDelegator in Hr. rewrite Ed, Hd in Hr.
    cbn [default from_option id] in Hr.
    apply runs_bind in Hr as (u2 & s2 & Hs & Hr). run_inv Hs.
    change (HasProxy (d <| Tokens := Tokens d + x |>)) with (HasProxy d) in Hr. rewrite Hh in Hr. revert Hr.
    apply (UpdateProxy_dismissed b (d <| Tokens := Tokens d + x |>) p _ e va v); [apply wf_SetDelegator, Hy|done| |done|cbn; by rewrite Ev|done].
    cbn. by rewrite Hda, lookup_insert_ne, Ed.
Qed.

End End_.
End StakingEnd.
