(* ===== verification/StakingExamples.v ===== *)
(** The staking module on concrete inputs: ledgers as finite maps, a
    history of messages, and every theorem about the module applied to it. *)
From S2P Require Import Prelude.
From S2P Require Import Interfaces.
From S2P Require Import Sums.
From S2P Require Import Effects.
From S2P Require Import StakingTypes.
From S2P Require Import StakingKeys.
From S2P Require Import StakingState.
From S2P Require Import StakingKeeper.
From S2P Require Import StakingVals.
From S2P Require Import StakingHandler.
From S2P Require Import StakingAcct.
From S2P Require Import StakingView.
From S2P Require Import StakingRefine.
From S2P Require Import StakingEnd.
Import StakingTypes StakingKeys StakingState StakingKeeper StakingVals StakingHandler StakingAcct StakingView.
Import StakingRefine StakingEnd.
Local Open Scope Z_scope.

(** Pools and accounts. *)
Record ledger := mkLedger { led_pools : gmap (string * Denom) Z; led_accounts : gmap (Address * Denom) Z }.

Module StakingExamples.

#[export] Instance fax_config : SdkConfig := "fax".

(** ** The supply keeper on ledgers *)

Definition bal {K} `{Countable K} (k : K) (m : gmap K Z) : Z := default 0 (m !! k).
Definition put {K} `{Countable K} (k : K) (x : Z) (m : gmap K Z) : gmap K Z := <[k := bal k m + x]> m.

Lemma bal_put {K} `{Countable K} (k j : K) x m : bal j (put k x m) = bal j m + if decide (j = k) then x else 0.
Proof.
  unfold bal, put. rewrite lookup_insert. repeat case_decide; subst; try done; unfold bal; simpl; lia.
Qed.

Definition one_coin (f : Denom -> Z -> option ledger) (coins : list SysCoin) : option ledger :=
  match coins with [(d, x)] => if x <=? 0 then None else f d x | _ => None end.

#[export] Instance ledger_supply : SupplyKeeper ledger := {
  DelegateCoinsFromAccountToModule w a pool := one_coin (fun d x =>
    if bal (a, d) (led_accounts w) <? x then None
    else Some (mkLedger (put (pool, d) x (led_pools w)) (put (a, d) (- x) (led_accounts w))));
  UndelegateCoinsFromModuleToAccount w pool a := one_coin (fun d x =>
    if bal (pool, d) (led_pools w) <? x then None
    else Some (mkLedger (put (pool, d) (- x) (led_pools w)) (put (a, d) x (led_accounts w))));
  SendCoinsFromModuleToModule w p q := one_coin (fun d x =>
    if bal (p, d) (led_pools w) <? x then None
    else Some (mkLedger (put (q, d) x (put (p, d) (- x) (led_pools w))) (led_accounts w)));
  pool_balance w pool d := bal (pool, d) (led_pools w);
  account_balance w a d := bal (a, d) (led_accounts w);
}.

Ltac solve_ledger :=
  intros; cbn in *; repeat case_match; try discriminate; simplify_eq/=; split; intros; rewrite !bal_put;
  repeat case_decide; simplify_eq/=; try lia; intuition congruence.

#[export] Instance ledger_supply_laws : SupplyKeeperLaws ledger.
Proof.
  split.
  - solve_ledger.
  - solve_ledger.
  - intros w p q d x w' Hw Hpq. cbn in Hw. repeat case_match; try discriminate. injection Hw as <-. split; [|done].
    intros r d'. cbn. rewrite !bal_put. repeat case_decide; simplify_eq/=; try lia; intuition congruence.
  - intros w a pool d x [Hx Hb]. cbn in *. unfold one_coin. rewrite (proj2 (Z.leb_gt x 0)), (proj2 (Z.ltb_ge _ x)) by lia.
    by eexists.
Qed.

(** No other module registered hooks. *)
#[export] Instance no_hooks : StakingHooks ledger := {
  hook_AfterValidatorCreated w _ := Ret w;
  hook_AfterValidatorRemoved w _ _ := Ret w;
  hook_AfterValidatorBonded w _ _ := Ret w;
  hook_AfterValidatorBeginUnbonding w _ _ := Ret w;
  hook_AfterValidatorDestroyed w _ _ := Ret w;
}.
#[export] Instance no_hooks_laws : StakingHooksLaws ledger.
Proof. split; by intros; simplify_eq/=. Qed.

(** ** The SDK *)

Definition dec_mul (x y : Dec) : Dec := Z.sgn (x * y) * round_half_even (Z.abs (x * y)) OneDec.

#[export] Instance demo_sdk : StakingSdk := {
  Dec_Mul := dec_mul;
  NewDecFromStr digits := Some digits;
  QuoInt := Z.quot;
  Dec_Int64 x := (Z.quot x OneDec + 2 ^ 63) mod 2 ^ 64 - 2 ^ 63;
  PowerReduction := 1;
  DefaultLevelUpBlockHeight := 0;
  DefaultLevelUpUnbondingTime := 14 * 24 * 3600 * 10 ^ 9;
  PubKey_Address := BytesToAddress;
  FormatTimeBytes := be_bytes 8;
  ParseTimeBytes l := if (length l =? 8)%nat then Some (be_value l) else None;
  lenTime := 8;
}.

#[export] Instance demo_sdk_laws : StakingSdkLaws.
Proof.
  split.
  - intros x. cbn. unfold dec_mul, NewDec, round_half_even.
    assert (Z.abs (x * (-1 * OneDec)) = Z.abs x * OneDec) as -> by (rewrite !Z.abs_mul; unfold OneDec; lia).
    assert (OneDec ≠ 0) by done. rewrite Z.mod_mul, Z.div_mul by done. cbn [Z.mul Z.ltb Z.compare].
    assert (Z.sgn (x * (-1 * OneDec)) = - Z.sgn x) as -> by (rewrite Z.sgn_mul; change (Z.sgn (-1 * OneDec)) with (-1); lia).
    change (2 * 0 <? OneDec) with true. cbv iota. pose proof (Z.sgn_abs x). lia.
  - intros t. apply length_be_bytes.
  - intros t Ht. cbn [ParseTimeBytes FormatTimeBytes demo_sdk]. rewrite length_be_bytes, Nat.eqb_refl. f_equal. rewrite be_value_be_bytes. apply Z.mod_small.
    unfold time_ok in Ht. change (256 ^ Z.of_nat 8) with (2 ^ 64). lia.
  - intros t u Ht Hu. cbn [FormatTimeBytes demo_sdk]. rewrite bytes_lt_be by by rewrite !length_be_bytes.
    unfold time_ok in *. rewrite !be_value_be_bytes. change (256 ^ Z.of_nat 8) with (2 ^ 64). by rewrite !Z.mod_small.
Qed.

(** ** A history *)

Definition key_type (k : bytes) : string := "ed25519".
Abbreviation handle := (NewHandler (W := ledger) key_type None).
Abbreviation step := (StakingEnd.step (W := ledger) key_type None).

Definition demo_params : StakingParams := mkStakingParams (14 * 24 * 3600 * 10 ^ 9) 21 252 30 (10 ^ 14) (NewDec 500).
Definition demo_ledger : ledger :=
  mkLedger ∅ {[ (1%N, "fax") := NewDec 5000; (2%N, "fax") := NewDec 5000; (3%N, "fax") := NewDec 100; (4%N, "fax") := NewDec 100 ]}.
Definition genesis : Stk ledger :=
  mkStk ledger ∅ ∅ ∅ ∅ 0 ∅ ∅ ∅ ∅ ∅ ∅ [] None None demo_params demo_ledger.

(** A block [n] weeks after the epoch of the vote weights. *)
Definition block (n : Z) : Block := mkBlock n ((blockTimestampEpoch + n * secondsPerWeek) * 10 ^ 9).

Definition demo_validator (a : Address) : stk_msg :=
  CreateValidator (mkCreateValidator (mkDescription "v" "" "" "") ("fax", NewDec 1000) a a (Address_Bytes a)).

(** Two validators; 3 is a proxy that votes for both, 4 binds to it. *)
Definition demo_msgs : list stk_msg :=
  [demo_validator 1%N; demo_validator 2%N; Deposit 3%N ("fax", NewDec 60); Reg 3%N true; AddShares 3%N [1%N; 2%N];
   Deposit 4%N ("fax", NewDec 50); Bind 4%N 3%N; WithdrawTokens 4%N ("fax", NewDec 20)].

Fixpoint run_msgs (b : Block) (l : list stk_msg) (s : Stk ledger) : option (Stk ledger) :=
  match l with
  | [] => Some s
  | m :: l' => match handle b m s with Ret (s', inl _) => run_msgs b l' s' | _ => None end
  end.

Definition after (b : Block) (l : list stk_msg) (s : Stk ledger) : Stk ledger := default s (run_msgs b l s).
Definition demo_state : Stk ledger := after (block 10) demo_msgs genesis.
(** Validator 1 gives up its deposit. *)
Definition left_state : Stk ledger := after (block 11) [DestroyValidator 1%N] demo_state.

Definition observe_demo (s : Stk ledger) : list Z :=
  [bal (BondedPoolName, "fax") (led_pools (world s)); bal (NotBondedPoolName, "fax") (led_pools (world s));
   bal (4%N, "fax") (led_accounts (world s))].

Example demo_runs : observe_demo demo_state = [NewDec 2090; NewDec 20; NewDec 50] /\
  observe_demo left_state = [NewDec 1090; NewDec 1020; NewDec 50].
Proof. split; vm_compute; reflexivity. Qed.

(** ** The theorems on this history *)

Lemma genesis_ok : stk_wf genesis /\ acct_ok (view genesis).
Proof.
  split; [by split|]. split; cbn; try done.
  - intros t a. split; [|by intros (u & Hu & _)]. intros Hin. by apply not_elem_of_empty in Hin.
  - intros p a. split; [|by intros (d & Hd & _)]. intros Hin. by apply not_elem_of_empty in Hin.
Qed.

Definition all_accepted (b : Block) (l : list stk_msg) (s : Stk ledger) : bool :=
  match run_msgs b l s with Some _ => true | None => false end.

Lemma run_msgs_steps b l : forall s s', Forall msg_ok l -> run_msgs b l s = Some s' -> rtc step s s'.
Proof.
  induction l as [|m l IH]; intros s s' Hl Hr; cbn [run_msgs] in Hr; [by injection Hr as ->|].
  apply Forall_cons in Hl as [Hm Hl]. destruct (handle b m s) as [[s1 [u|]]|] eqn:Hs; try done.
  eapply rtc_l; [|by apply IH]. by eapply (step_message key_type None s b m u).
Qed.

Lemma after_steps b l s : Forall msg_ok l -> all_accepted b l s = true -> rtc step s (after b l s).
Proof.
  unfold all_accepted, after. intros Hl Hr. destruct (run_msgs b l s) as [s'|] eqn:E; [|done]. by eapply run_msgs_steps.
Qed.

Lemma steps_ok s s' : rtc step s s' -> stk_wf s /\ acct_ok (view s) -> stk_wf s' /\ acct_ok (view s').
Proof. induction 1 as [|s1 s2 s3 Hs _ IH]; [done|]. intros [Hwf Hok]. by apply IH, (step_keeps key_type None s1). Qed.

Lemma after_run b m s : all_accepted b [m] s = true -> exists u, runs (handle b m) s u (after b [m] s).
Proof.
  unfold all_accepted, after, runs. cbn [run_msgs]. destruct (handle b m s) as [[s1 [u|]]|]; try done. by exists u.
Qed.

Lemma demo_msgs_ok : Forall msg_ok demo_msgs.
Proof. repeat (apply Forall_cons; split); try apply Forall_nil; done. Qed.
Lemma demo_accepted : all_accepted (block 10) demo_msgs genesis = true.
Proof. vm_compute. reflexivity. Qed.
Lemma demo_steps : rtc step genesis demo_state.
Proof. apply after_steps; [exact demo_msgs_ok|exact demo_accepted]. Qed.
Lemma demo_ok : stk_wf demo_state /\ acct_ok (view demo_state).
Proof. exact (steps_ok _ _ demo_steps genesis_ok). Qed.
Lemma left_accepted : all_accepted (block 11) [DestroyValidator 1%N] demo_state = true.
Proof. vm_compute. reflexivity. Qed.
Lemma left_ok : stk_wf left_state /\ acct_ok (view left_state).
Proof.
  apply (steps_ok demo_state); [|exact demo_ok]. apply after_steps; [|exact left_accepted].
  by apply Forall_cons.
Qed.

Lemma accounts_stay_in_order_witness : acct_ok (view demo_state).
Proof. exact (accounts_stay_in_order key_type None genesis demo_state demo_steps (proj1 genesis_ok) (proj2 genesis_ok)). Defined.

Lemma NewHandler_refines_witness :
  stk_wf left_state /\
  view left_state = a_step (block 11) demo_state (DestroyValidator 1%N) (view demo_state) /\
  stk_params left_state = stk_params demo_state.
Proof.
  destruct (after_run _ _ _ left_accepted) as [u Hr].
  exact (NewHandler_refines key_type None (block 11) (DestroyValidator 1%N) u demo_state left_state
    (proj1 demo_ok) (proj2 demo_ok) I Hr).
Defined.

(** The block, 14 days later, in which everything is due. *)
Definition paid_state : Stk ledger := match EndBlocker (block 14) left_state with Ret (s, _) => s | Panic _ => genesis end.
Definition ends_well (b : Block) (s : Stk ledger) : bool :=
  match EndBlocker b s with Ret (_, inl _) => true | _ => false end.
Lemma left_ends_well : ends_well (block 14) left_state = true.
Proof. vm_compute. reflexivity. Qed.
Lemma paid_run : exists ups, runs (EndBlocker (block 14)) left_state ups paid_state.
Proof.
  pose proof left_ends_well as Hw. unfold ends_well, paid_state, runs in *.
  destruct (EndBlocker (block 14) left_state) as [[s [ups|]]|]; try done. by exists ups.
Qed.

Example demo_paid : observe_demo paid_state = [NewDec 1090; 0; NewDec 70].
Proof. vm_compute. reflexivity. Qed.

Lemma EndBlocker_pays_witness :
  stk_wf paid_state /\ acct_ok (view paid_state) /\
  (forall a u, undelegations paid_state !! a = Some u <->
     undelegations left_state !! a = Some u /\ BlockTime (block 14) < CompletionTime u) /\
  dview <$> delegators paid_state = dview <$> delegators left_state /\ proxies paid_state = proxies left_state /\
  a_bonded (view paid_state) = a_bonded (view left_state) /\
  exists s1, silent left_state s1 /\ forall a, account_balance (world paid_state) a "fax" =
    account_balance (world s1) a "fax" +
    match undelegations left_state !! a with
    | Some u => if CompletionTime u <=? BlockTime (block 14) then Quantity u else 0
    | None => 0
    end.
Proof.
  destruct paid_run as [ups Hr].
  exact (EndBlocker_pays (block 14) ups left_state paid_state (proj1 left_ok) (proj2 left_ok) Hr).
Defined.

(** Delegator 4 is bound to proxy 3, which voted for validator 1. *)
Definition locked_check : bool :=
  match delegators left_state !! 4%N, delegators left_state !! 3%N, validators left_state !! 1%N with
  | Some d, Some e, Some v =>
      bool_decide (ProxyAddress d = Some 3%N) && bool_decide (1%N ∈ ValidatorAddresses e) && (MinSelfDelegation v =? 0)
  | _, _, _ => false
  end.
Lemma locked_facts : exists d e v, delegators left_state !! 4%N = Some d /\ delegators left_state !! 3%N = Some e /\
  validators left_state !! 1%N = Some v /\ ProxyAddress d = Some 3%N /\ 1%N ∈ ValidatorAddresses e /\ MinSelfDelegation v = 0.
Proof.
  assert (locked_check = true) as Hc by (vm_compute; reflexivity). unfold locked_check in Hc.
  destruct (delegators left_state !! 4%N) as [d|]; [|done]. destruct (delegators left_state !! 3%N) as [e|]; [|done].
  destruct (validators left_state !! 1%N) as [v|]; [|done]. apply andb_prop in Hc as [[Hp Hv]%andb_prop Hm].
  exists d, e, v. split_and!; try done; [by eapply bool_decide_eq_true_1|by eapply bool_decide_eq_true_1|by apply Z.eqb_eq].
Qed.

Lemma dismissed_vote_locks_delegators_witness :
  (forall amount u s', ~ runs (handle (block 12) (WithdrawTokens 4%N amount)) left_state u s') /\
  (forall u s', ~ runs (handle (block 12) (Unbind 4%N)) left_state u s') /\
  (forall amount u s', ~ runs (handle (block 12) (Deposit 4%N amount)) left_state u s').
Proof.
  destruct locked_facts as (d & e & v & Hd & He & Hv & Hp & Hva & Hm).
  assert (3%N ≠ 4%N) as Hne by (intros [=]).
  exact (dismissed_vote_locks_delegators key_type None (block 12) 4%N d 3%N e 1%N v left_state (proj1 left_ok)
    Hd Hp Hne He Hva Hv Hm).
Defined.

(** Before validator 1 leaves, delegator 4 can withdraw. *)
Example unlocked_before : all_accepted (block 11) [WithdrawTokens 4%N ("fax", NewDec 10)] demo_state = true.
Proof. vm_compute. reflexivity. Qed.

(** ** Keys *)

Definition val_at (a : Address) (x : Dec) : Validator :=
  (NewValidator a (Address_Bytes a) (mkDescription "v" "" "" "") 0) <| DelegatorShares := x |>.

Lemma power_index_order_witness :
  let v := val_at 7%N (NewDec 3) in let w := val_at 5%N (NewDec 3) in
  let p x := u64 (sharesToConsensusPower (DelegatorShares x)) in
  (bytes_lt (GetValidatorsByPowerIndexKey v) (GetValidatorsByPowerIndexKey w) = true <->
     p v < p w \/ (p v = p w /\ (OperatorAddress w < OperatorAddress v)%N)) /\
  (GetValidatorsByPowerIndexKey v = GetValidatorsByPowerIndexKey w <->
     p v = p w /\ OperatorAddress v = OperatorAddress w).
Proof. apply (power_index_order (val_at 7%N (NewDec 3)) (val_at 5%N (NewDec 3))); unfold address_ok; cbn; lia. Defined.

Lemma SplitCompleteTimeWithAddrKey_spec_witness :
  SplitCompleteTimeWithAddrKey (GetCompleteTimeWithAddrKey 1000 9%N) = Ret (1000, 9%N).
Proof. apply (SplitCompleteTimeWithAddrKey_spec 1000 9%N); [unfold time_ok; lia|unfold address_ok; lia]. Defined.

Lemma store_key_inj_witness : store_key (KShares 3%N 4%N) = store_key (KShares 3%N 4%N) /\ KShares 3%N 4%N = KShares 3%N 4%N.
Proof.
  split; [exact eq_refl|].
  apply (store_key_inj (KShares 3%N 4%N) (KShares 3%N 4%N)); [split; unfold address_ok; lia..|exact eq_refl].
Defined.

End StakingExamples.
