(* ===== verification/StakingSet.v ===== *)
(** What the tables of validators and votes agree on, and that the steps
    on a single validator keep it.

    Five tables speak about validators besides their records: the
    consensus addresses, the power index, the last powers, the queue of
    unbonding validators and the votes.  [set_ok] says how each of them
    follows from the records and the delegators' votes. *)
From S2P Require Import Prelude.
From S2P Require Import Interfaces.
From S2P Require Import Sums.
From S2P Require Import Effects.
From S2P Require Import StakingTypes.
From S2P Require Import StakingKeys.
From S2P Require Import StakingState.
From S2P Require Import StakingKeeper.
From S2P Require Import StakingVals.
Import StakingTypes StakingKeys StakingState StakingKeeper StakingVals.
Local Open Scope Z_scope.

(** The product rounds to the nearest decimal, and [Int64] yields one. *)
Class StakingPowerLaws `{StakingSdk} := {
  Dec_Int64_range x : - 2 ^ 63 <= Dec_Int64 x < 2 ^ 63;
  Dec_Mul_ge x w : 0 <= x -> OneDec <= w -> x <= Dec_Mul x w;
  NewDecFromStr_digits n x : NewDecFromStr n = Some x -> x = n;
}.

Module StakingSet.

(** ** Tables *)
Section Tables.
Context `{StakingSdk}.
Implicit Types (vals : gmap Address Validator) (v w : Validator) (a : Address) (sh : gmap (Address * Address) Dec).

Abbreviation key := GetValidatorsByPowerIndexKey.
Abbreviation cons_of v := (PubKey_Address (ConsPubKey v)).

Definition vals_ok vals : Prop := forall a v, vals !! a = Some v -> OperatorAddress v = a /\ address_ok a /\ val_Tokens v = 0.
Definition cons_ok vals (m : gmap Address Address) : Prop :=
  forall c a, m !! c = Some a <-> exists v, vals !! a = Some v /\ cons_of v = c.
(** The index lists the validators that are not jailed. *)
Definition index_ok vals (m : gmap bytes Address) : Prop :=
  forall k a, m !! k = Some a <-> exists v, vals !! a = Some v /\ Jailed v = false /\ key v = k.
(** Exactly the bonded validators have a last power. *)
Definition last_ok vals (m : gmap Address Z) : Prop :=
  forall a, is_Some (m !! a) <-> exists v, vals !! a = Some v /\ Status v = Bonded.
Definition slice (q : gmap Time (list Address)) (t : Time) : list Address := default [] (q !! t).
(** Exactly the unbonding validators wait, each once, under its own time. *)
Record queue_ok vals (q : gmap Time (list Address)) : Prop := {
  qo_slice t a : a ∈ slice q t <-> exists v, vals !! a = Some v /\ Status v = Unbonding /\ UnbondingCompletionTime v = t;
  qo_list t l : q !! t = Some l -> NoDup l /\ l ≠ [];
}.
(** What a validator has of its own, and by votes. *)
Definition own_shares v : Dec := if (MinSelfDelegation v =? 0) && Jailed v then 0 else OneDec.
Definition votes_on a sh : Dec := msum (fun k x => if decide (k.1 = a) then x else 0) sh.
Record shares_ok vals sh : Prop := {
  so_total a v : vals !! a = Some v -> DelegatorShares v = own_shares v + votes_on a sh;
  so_votes k x : sh !! k = Some x -> 0 < x /\ is_Some (vals !! k.1);
}.

(** *** Power index *)

Lemma key_address v w : address_ok (OperatorAddress v) -> address_ok (OperatorAddress w) -> key v = key w ->
  OperatorAddress v = OperatorAddress w.
Proof. intros Hv Hw Hk. by destruct (power_index_order v w Hv Hw) as [_ [[_ ?] _]]. Qed.

Lemma key_same v w : OperatorAddress v = OperatorAddress w -> DelegatorShares v = DelegatorShares w -> key v = key w.
Proof. intros Ha Hd. unfold GetValidatorsByPowerIndexKey, getValidatorPowerRank. by rewrite Ha, Hd. Qed.

Lemma index_other vals m a v b : vals_ok vals -> index_ok vals m -> OperatorAddress v = a -> address_ok a ->
  m !! key v = Some b -> b = a.
Proof.
  intros Hv Hi Ha Hok Hb. apply Hi in Hb as (w & Hw & _ & Hk). destruct (Hv b w Hw) as (Hwb & Hb & _).
  rewrite <- Ha, <- Hwb. apply key_address; [by rewrite Hwb|by rewrite Ha|done].
Qed.

(** The record of [a] changes from one with [v]'s key, if any, to [v']. *)
Definition reindexed v v' (m : gmap bytes Address) : gmap bytes Address :=
  if Jailed v' then delete (key v) m else <[key v' := OperatorAddress v']> (delete (key v) m).

Lemma index_delete vals m a v : vals_ok vals -> index_ok vals m -> OperatorAddress v = a -> address_ok a ->
  (forall w, vals !! a = Some w -> key w = key v) -> index_ok (delete a vals) (delete (key v) m).
Proof.
  intros Hv Hi Ha Hok Hsame k b. rewrite lookup_delete. case_decide as Hk.
  - subst k. split; [done|]. intros (w & Hw & Hj & Hk). apply lookup_delete_Some in Hw as [Hne Hw]. exfalso. apply Hne.
    symmetry. apply (index_other vals m a v); [done..|]. apply Hi. by exists w.
  - rewrite (Hi k b). split; intros (w & Hw & Hj & Hkw); exists w; (split; [|done]).
    + rewrite lookup_delete_ne; [done|]. intros <-. apply Hk. by rewrite <- (Hsame w).
    + by apply lookup_delete_Some in Hw as [_ Hw].
Qed.

Lemma index_insert vals m a v' : vals_ok vals -> index_ok vals m -> OperatorAddress v' = a -> address_ok a ->
  vals !! a = None -> index_ok (<[a := v']> vals) (if Jailed v' then m else <[key v' := a]> m).
Proof.
  intros Hv Hi Ha Hok Hn k b.
  assert (forall c, m !! key v' = Some c -> False) as Hfree.
  { intros c Hc. assert (c = a) as -> by by apply (index_other vals m a v'). apply Hi in Hc as (w & Hw & _). congruence. }
  assert ((if Jailed v' then m else <[key v' := a]> m) !! k = Some b <->
    (Jailed v' = false /\ k = key v' /\ b = a) \/ m !! k = Some b) as ->.
  { destruct (Jailed v'); [naive_solver|]. rewrite lookup_insert. case_decide; naive_solver. }
  rewrite (Hi k b). split.
  - intros [(Hj & -> & ->)|(w & Hw & ?)]; [exists v'; by rewrite lookup_insert_eq|]. exists w. rewrite lookup_insert_ne; [done|congruence].
  - intros (w & Hw & Hj & Hk). rewrite lookup_insert in Hw. case_decide as Hb; [left; naive_solver|right; by exists w].
Qed.

Lemma vals_ok_delete vals a : vals_ok vals -> vals_ok (delete a vals).
Proof. intros Hv b w Hw. apply lookup_delete_Some in Hw as [_ Hw]. by apply Hv. Qed.
Lemma vals_ok_insert vals a v : vals_ok vals -> OperatorAddress v = a -> address_ok a -> val_Tokens v = 0 ->
  vals_ok (<[a := v]> vals).
Proof. intros Hv Ha Hok Ht b w. rewrite lookup_insert. case_decide; [naive_solver|apply Hv]. Qed.

Lemma index_reindexed vals m a v v' : vals_ok vals -> index_ok vals m -> OperatorAddress v = a -> address_ok a ->
  (forall w, vals !! a = Some w -> key w = key v) -> OperatorAddress v' = a ->
  index_ok (<[a := v']> vals) (reindexed v v' m).
Proof.
  intros Hv Hi Ha Hok Hsame Ha'. rewrite <- insert_delete_eq. unfold reindexed. rewrite Ha'.
  apply (index_insert (delete a vals) (delete (key v) m)); [by apply vals_ok_delete|by apply index_delete|done|done|].
  apply lookup_delete_eq.
Qed.

(** Entries with a property after an insertion or a deletion. *)
Lemma insert_exists (P : Validator -> Prop) vals a v' b :
  (exists w, <[a := v']> vals !! b = Some w /\ P w) <-> if decide (a = b) then P v' else exists w, vals !! b = Some w /\ P w.
Proof. rewrite lookup_insert. case_decide; [|done]. split; [by intros (w & [= <-] & ?)|by exists v']. Qed.
Lemma delete_exists (P : Validator -> Prop) vals a b :
  (exists w, delete a vals !! b = Some w /\ P w) <-> a ≠ b /\ exists w, vals !! b = Some w /\ P w.
Proof. rewrite lookup_delete. case_decide; naive_solver. Qed.
Lemma lookup_exists (P : Validator -> Prop) vals a v : vals !! a = Some v -> (exists w, vals !! a = Some w /\ P w) <-> P v.
Proof. intros Ha. split; [by intros (w & Hw & ?); simplify_eq|by exists v]. Qed.

Lemma index_same vals m a v v' : index_ok vals m -> vals !! a = Some v -> key v' = key v -> Jailed v' = Jailed v ->
  index_ok (<[a := v']> vals) m.
Proof.
  intros Hi Hv Hk Hj k b. rewrite (Hi k b), insert_exists. case_decide as Hb; [subst b|done].
  rewrite (lookup_exists (fun w => Jailed w = false /\ key w = k) vals a v Hv). by rewrite Hk, Hj.
Qed.

(** *** The other tables *)

Lemma cons_same vals m a v v' : cons_ok vals m -> vals !! a = Some v -> ConsPubKey v' = ConsPubKey v -> cons_ok (<[a := v']> vals) m.
Proof.
  intros Hc Hv Hk c b. rewrite (Hc c b), insert_exists. case_decide as Hb; [subst b|done].
  by rewrite (lookup_exists (fun w => cons_of w = c) vals a v Hv), Hk.
Qed.
Lemma cons_new vals m a v : cons_ok vals m -> vals !! a = None -> m !! cons_of v = None -> cons_ok (<[a := v]> vals) (<[cons_of v := a]> m).
Proof.
  intros Hc Ha Hm c b. rewrite insert_exists, lookup_insert. case_decide as Hcv.
  - subst c. case_decide as Hb; [by subst b|]. split; [congruence|]. intros Hx. apply (Hc (cons_of v) b) in Hx. congruence.
  - rewrite (Hc c b). case_decide as Hb; [subst b|done]. split; [intros (w & Hw & _); congruence|done].
Qed.
Lemma cons_delete vals m a v : cons_ok vals m -> vals !! a = Some v -> cons_ok (delete a vals) (delete (cons_of v) m).
Proof.
  intros Hc Ha c b. rewrite delete_exists, lookup_delete, <- (Hc c b).
  assert (m !! cons_of v = Some a) as Hm by (apply Hc; by exists v). case_decide as Hcv; [subst c; naive_solver|].
  split; [|by intros []]. intros Hb. split; [intros <-|done]. apply Hc in Hb as (w & Hw & Hcw). congruence.
Qed.

Lemma last_insert vals m a v' : last_ok vals m -> (is_Some (m !! a) <-> Status v' = Bonded) -> last_ok (<[a := v']> vals) m.
Proof. intros Hl Hs b. rewrite insert_exists. case_decide as Hb; [by subst b|apply Hl]. Qed.
Lemma last_set vals m a v p : last_ok vals m -> vals !! a = Some v -> Status v = Bonded -> last_ok vals (<[a := p]> m).
Proof.
  intros Hl Hv Hs b. rewrite lookup_insert. case_decide as Hb; [subst b|apply Hl]. split; [by exists v|by eexists].
Qed.
Lemma last_bond vals m a v' p : last_ok vals m -> Status v' = Bonded -> last_ok (<[a := v']> vals) (<[a := p]> m).
Proof. intros Hl Hs b. rewrite lookup_insert, insert_exists. case_decide as Hb; [|apply Hl]. split; [done|by eexists]. Qed.
Lemma last_unbond vals m a v' : last_ok vals m -> Status v' ≠ Bonded -> last_ok (<[a := v']> vals) (delete a m).
Proof.
  intros Hl Hs b. rewrite lookup_delete, insert_exists. case_decide as Hb; [|apply Hl]. split; [by intros []|done].
Qed.
Lemma last_delete vals m a v : last_ok vals m -> vals !! a = Some v -> Status v ≠ Bonded -> last_ok (delete a vals) m.
Proof.
  intros Hl Hv Hs b. rewrite (Hl b), delete_exists. split; [|by intros []]. intros Hb. split; [intros <-|done].
  by apply (lookup_exists (fun w => Status w = Bonded) vals a v Hv) in Hb.
Qed.

(** *** The queue *)
Definition unbonding_at (t : Time) v : Prop := Status v = Unbonding /\ UnbondingCompletionTime v = t.

Lemma queue_same vals q a v v' : queue_ok vals q -> vals !! a = Some v ->
  (forall t, unbonding_at t v' <-> unbonding_at t v) -> queue_ok (<[a := v']> vals) q.
Proof.
  intros [Hq Hl] Hv Hs. split; [|done]. intros t b. rewrite (Hq t b), insert_exists. case_decide as Hb; [subst b|done].
  rewrite (lookup_exists (unbonding_at t) vals a v Hv). symmetry. apply Hs.
Qed.
Lemma queue_new vals q a v' : queue_ok vals q -> vals !! a = None -> Status v' ≠ Unbonding -> queue_ok (<[a := v']> vals) q.
Proof.
  intros [Hq Hl] Hv Hs. split; [|done]. intros t b. rewrite (Hq t b), insert_exists. case_decide as Hb; [subst b|done].
  split; [intros (w & Hw & _); congruence|by intros []].
Qed.
Lemma queue_delete vals q a v : queue_ok vals q -> vals !! a = Some v -> Status v ≠ Unbonding -> queue_ok (delete a vals) q.
Proof.
  intros [Hq Hl] Hv Hs. split; [|done]. intros t b. rewrite (Hq t b), delete_exists. split; [|by intros []].
  intros Hb. split; [intros <-|done]. by apply (lookup_exists (unbonding_at t) vals a v Hv) in Hb as [].
Qed.

(** The slice [t] becomes [l], and goes when [l] is empty. *)
Definition put_slice (t : Time) (l : list Address) (q : gmap Time (list Address)) : gmap Time (list Address) :=
  if decide (l = []) then delete t q else <[t := l]> q.
Lemma slice_put t l q t' : slice (put_slice t l q) t' = if decide (t' = t) then l else slice q t'.
Proof.
  unfold put_slice, slice. case_decide as Hl; [rewrite lookup_delete|rewrite lookup_insert]; repeat case_decide; naive_solver.
Qed.
Lemma put_slice_lists t l q : (forall t l, q !! t = Some l -> NoDup l /\ l ≠ []) -> NoDup l ->
  forall t' l', put_slice t l q !! t' = Some l' -> NoDup l' /\ l' ≠ [].
Proof.
  intros Hq Hl t' l'. unfold put_slice. case_decide; [rewrite lookup_delete|rewrite lookup_insert]; case_decide; [done| |naive_solver|];
    apply Hq.
Qed.
Lemma queue_nodup vals q t : queue_ok vals q -> NoDup (slice q t).
Proof.
  intros [_ Hl]. unfold slice. destruct (q !! t) as [l|] eqn:Ht; [by apply (Hl t l)|constructor].
Qed.

Lemma queue_leave vals q a v v' : queue_ok vals q -> vals !! a = Some v -> Status v' ≠ Unbonding ->
  (forall t, unbonding_at t v -> t = UnbondingCompletionTime v') ->
  let t := UnbondingCompletionTime v' in
  queue_ok (<[a := v']> vals) (put_slice t (filter (fun b => b ≠ a) (slice q t)) q).
Proof.
  intros Hq Hv Hs Ht t. split.
  - intros t' b. rewrite slice_put, insert_exists. case_decide as Htt; [subst t'; rewrite list_elem_of_filter|];
      rewrite (qo_slice _ _ Hq); (case_decide as Hb; [subst b|naive_solver]);
      [split; [naive_solver|by intros []]|].
    rewrite (lookup_exists (unbonding_at t') vals a v Hv). split; [intros Hu; by destruct (Htt (Ht _ Hu))|by intros []].
  - apply put_slice_lists; [apply Hq|]. by apply NoDup_filter, (queue_nodup vals).
Qed.
Lemma queue_enter vals q a v v' : queue_ok vals q -> vals !! a = Some v -> Status v ≠ Unbonding -> Status v' = Unbonding ->
  let t := UnbondingCompletionTime v' in queue_ok (<[a := v']> vals) (<[t := slice q t ++ [a]]> q).
Proof.
  intros Hq Hv Hs Hs' t.
  assert (a ∉ slice q t) as Hni.
  { rewrite (qo_slice _ _ Hq), (lookup_exists (unbonding_at t) vals a v Hv). by intros []. }
  split.
  - intros t' b. unfold slice at 1. rewrite lookup_insert, insert_exists. case_decide as Ht; cbn [default from_option id].
    + subst t'. rewrite elem_of_app, list_elem_of_singleton, (qo_slice _ _ Hq). case_decide as Hb; [subst b|naive_solver].
      split; [done|]. by right.
    + fold (slice q t'). rewrite (qo_slice _ _ Hq). case_decide as Hb; [subst b|done].
      rewrite (lookup_exists (unbonding_at t') vals a v Hv). split; [by intros []|]. intros [_ Hu]. by destruct Ht.
  - intros t' l. rewrite lookup_insert. case_decide as Ht; [|apply Hq]. intros [= <-]. split; [|by destruct (slice q t)].
    apply NoDup_app. split_and!; [by apply (queue_nodup vals)|intros x Hx ->%list_elem_of_singleton; done|apply NoDup_singleton].
Qed.

(** *** Votes *)

(** One entry changes. *)
Definition vote_set (k : Address * Address) (o : option Dec) sh sh' : Prop :=
  forall j, sh' !! j = if decide (j = k) then o else sh !! j.
Lemma vote_set_eq k o sh sh' : vote_set k o sh sh' -> sh' = partial_alter (fun _ => o) k sh.
Proof. intros Hs. apply map_eq. intros j. rewrite (Hs j), lookup_partial_alter. repeat case_decide; naive_solver. Qed.

Lemma votes_on_set k o sh sh' a : vote_set k o sh sh' ->
  votes_on a sh' = votes_on a sh + if decide (k.1 = a) then default 0 o - default 0 (sh !! k) else 0.
Proof.
  intros ->%vote_set_eq. unfold votes_on. rewrite msum_partial_alter. destruct o, (sh !! k); simpl; case_decide; lia.
Qed.
Lemma votes_on_none vals sh a : shares_ok vals sh -> vals !! a = None -> forall d, sh !! (a, d) = None.
Proof.
  intros Hs Ha d. destruct (sh !! (a, d)) as [x|] eqn:Hx; [|done]. apply (so_votes _ _ Hs) in Hx as [_ [v Hv]]. cbn in Hv. congruence.
Qed.
Lemma votes_on_empty sh a : (forall d, sh !! (a, d) = None) -> votes_on a sh = 0.
Proof.
  intros Ha. apply msum_zero. intros [b d] x Hx. cbn. case_decide; [|done]. subst b. by rewrite Ha in Hx.
Qed.
Lemma votes_on_nonneg vals sh a : shares_ok vals sh -> 0 <= votes_on a sh.
Proof. intros Hs. apply msum_nonneg. intros k x Hx. apply (so_votes _ _ Hs) in Hx as [? _]. case_decide; lia. Qed.
Lemma votes_on_zero vals sh a : shares_ok vals sh -> votes_on a sh = 0 -> forall d, sh !! (a, d) = None.
Proof.
  intros Hs Hz d. destruct (sh !! (a, d)) as [x|] eqn:Hx; [|done].
  pose proof (msum_le_entry (fun k x => if decide (k.1 = a) then x else 0) sh (a, d) x) as Hle. cbn in Hle.
  rewrite decide_True in Hle by done. destruct (so_votes _ _ Hs _ _ Hx) as [Hp _]. unfold votes_on in Hz.
  assert (x <= 0); [|lia]. rewrite <- Hz. apply Hle; [|done]. intros k y Hy. apply (so_votes _ _ Hs) in Hy as [? _]. case_decide; lia.
Qed.

(** A vote on [a] changes together with its record. *)
Lemma shares_vote vals sh sh' a d o v v' : shares_ok vals sh -> vals !! a = Some v -> vote_set (a, d) o sh sh' ->
  (forall x, o = Some x -> 0 < x) -> own_shares v' = own_shares v ->
  DelegatorShares v' = DelegatorShares v + (default 0 o - default 0 (sh !! (a, d))) -> shares_ok (<[a := v']> vals) sh'.
Proof.
  intros Hs Hv Hset Hpos Hown Heq. split.
  - intros b w. rewrite lookup_insert, (votes_on_set _ _ _ _ b Hset). cbn [fst]. case_decide as Hb.
    + intros [= <-]. subst b. pose proof (so_total _ _ Hs a v Hv). lia.
    + rewrite Z.add_0_r. apply (so_total _ _ Hs).
  - intros k x. rewrite (Hset k), lookup_insert. case_decide as Hk; [subst k; cbn [fst]; rewrite decide_True by done; by eauto|].
    intros [Hx Hi]%(so_votes _ _ Hs). split; [done|]. case_decide; [by eexists|done].
Qed.
(** The validator leaves with the last vote. *)
Lemma shares_leave vals sh sh' a : shares_ok vals sh -> (forall b, b ≠ a -> votes_on b sh' = votes_on b sh) ->
  (forall k x, sh' !! k = Some x -> sh !! k = Some x /\ k.1 ≠ a) -> shares_ok (delete a vals) sh'.
Proof.
  intros Hs Hb Hk. split.
  - intros b w Hw. apply lookup_delete_Some in Hw as [Hne Hw]. rewrite Hb by done. by apply (so_total _ _ Hs).
  - intros k x Hx. apply Hk in Hx as [Hx Hne]. apply (so_votes _ _ Hs) in Hx as [? ?]. by rewrite lookup_delete_ne.
Qed.
Lemma shares_same vals sh a v v' : shares_ok vals sh -> vals !! a = Some v ->
  DelegatorShares v' - own_shares v' = DelegatorShares v - own_shares v -> shares_ok (<[a := v']> vals) sh.
Proof.
  intros Hs Hv Heq. pose proof (so_total _ _ Hs a v Hv). split.
  - intros b w. rewrite lookup_insert. case_decide as Hb; [|apply (so_total _ _ Hs)]. intros [= <-]. subst b. lia.
  - intros k x [Hx Hi]%(so_votes _ _ Hs). split; [done|]. rewrite lookup_insert. case_decide; [by eexists|done].
Qed.
Lemma shares_new vals sh a v' : shares_ok vals sh -> vals !! a = None -> DelegatorShares v' = own_shares v' ->
  shares_ok (<[a := v']> vals) sh.
Proof.
  intros Hs Ha Heq. pose proof (votes_on_empty sh a (votes_on_none _ _ _ Hs Ha)). split.
  - intros b w. rewrite lookup_insert. case_decide as Hb; [|apply (so_total _ _ Hs)]. intros [= <-]. subst b. lia.
  - intros k x [Hx Hi]%(so_votes _ _ Hs). split; [done|]. rewrite lookup_insert. case_decide; [by eexists|done].
Qed.

(** *** Delegators and their votes *)
Implicit Types (dels : gmap Address Delegator) (e : Delegator).

(** The votes of [d] are on [l], each with [x]. *)
Definition row_is (d : Address) (l : list Address) (x : Dec) sh : Prop :=
  forall a y, sh !! (a, d) = Some y <-> a ∈ l /\ y = x.
(** The votes of everyone whom [P] selects are those of their records. *)
Record votes_ok (P : Address -> Prop) dels sh : Prop := {
  vo_row d e : P d -> dels !! d = Some e -> NoDup (ValidatorAddresses e) /\ row_is d (ValidatorAddresses e) (Shares e) sh;
  vo_some a d x : P d -> sh !! (a, d) = Some x -> is_Some (dels !! d);
}.
Abbreviation all_votes_ok := (votes_ok (fun _ => True)).
Abbreviation votes_ok_but d := (votes_ok (fun c => c ≠ d)).

Lemma votes_ok_sub (P Q : Address -> Prop) dels dels' sh sh' : votes_ok P dels sh -> (forall d, Q d -> P d) ->
  (forall a d, Q d -> sh' !! (a, d) = sh !! (a, d)) -> (forall d, Q d -> dels' !! d = dels !! d) -> votes_ok Q dels' sh'.
Proof.
  intros Hv HQ Hsh Hd. split.
  - intros d e Hq He. rewrite (Hd d Hq) in He. destruct (vo_row _ _ _ Hv d e (HQ d Hq) He) as [Hn Hr]. split; [done|].
    intros a y. rewrite (Hsh a d Hq). apply Hr.
  - intros a d x Hq. rewrite (Hsh a d Hq), (Hd d Hq). apply (vo_some _ _ _ Hv). by apply HQ.
Qed.
Lemma votes_ok_close d dels sh : votes_ok_but d dels sh ->
  match dels !! d with
  | Some e => NoDup (ValidatorAddresses e) /\ row_is d (ValidatorAddresses e) (Shares e) sh
  | None => forall a, sh !! (a, d) = None
  end -> all_votes_ok dels sh.
Proof.
  intros Hv Hd. split.
  - intros c e _ He. destruct (decide (c = d)) as [->|Hne]; [by rewrite He in Hd|by apply (vo_row _ _ _ Hv)].
  - intros a c x _ Hx. destruct (decide (c = d)) as [->|Hne]; [|by apply (vo_some _ _ _ Hv a c x)].
    destruct (dels !! d); [by eexists|]. by rewrite Hd in Hx.
Qed.
(** Records change, votes do not. *)
Lemma votes_ok_record d e' dels sh : all_votes_ok dels sh ->
  match dels !! d with
  | Some e => ValidatorAddresses e' = ValidatorAddresses e /\ Shares e' = Shares e
  | None => ValidatorAddresses e' = []
  end -> all_votes_ok (<[d := e']> dels) sh.
Proof.
  intros Hv Hd. apply (votes_ok_close d).
  - apply (votes_ok_sub _ _ _ _ _ _ Hv); [done|done|]. intros c Hc. by rewrite lookup_insert_ne.
  - rewrite lookup_insert_eq. destruct (dels !! d) as [e|] eqn:He.
    + destruct Hd as [-> ->]. by apply (vo_row _ _ _ Hv).
    + rewrite Hd. split; [constructor|]. intros a y. split; [|by intros [?%elem_of_nil _]].
      intros Hy. destruct (vo_some _ _ _ Hv a d y I Hy). congruence.
Qed.

End Tables.
(** ** The state *)
Section Set_.
Context {W : Type} `{SupplyKeeper W, StakingHooks W, StakingSdk, SdkConfig}.
Abbreviation stk := (Stk W).
Abbreviation E := (eff (Stk W) stk_error).
Abbreviation key := GetValidatorsByPowerIndexKey.
Implicit Types (s : stk) (v w : Validator) (a d : Address).

(** Everything but the delegators' side of the votes, and the total power. *)
Record vals_agree s : Prop := {
  va_vals : vals_ok (validators s);
  va_cons : cons_ok (validators s) (byConsAddr s);
  va_index : index_ok (validators s) (powerIndex s);
  va_last : last_ok (validators s) (lastPowers s);
  va_queue : queue_ok (validators s) (validatorQueue s);
  va_shares : shares_ok (validators s) (shares s);
  (** who is to be kicked out is still bonded *)
  va_abandoned a : a ∈ abandoned s -> exists v, validators s !! a = Some v /\ Status v = Bonded;
}.
Definition last_total s : Z := msum (fun _ p => p) (lastPowers s).
Record set_ok s : Prop := {
  set_vals : vals_agree s;
  set_votes : votes_ok (fun _ => True) (delegators s) (shares s);
  set_total : lastTotalPower s = last_total s;
  set_keyed a e : delegators s !! a = Some e -> DelegatorAddress e = a;
}.

(** The tables that [vals_agree] reads. *)
Record same_vals s s' : Prop := {
  sv_vals : validators s' = validators s;
  sv_cons : byConsAddr s' = byConsAddr s;
  sv_index : powerIndex s' = powerIndex s;
  sv_last : lastPowers s' = lastPowers s;
  sv_queue : validatorQueue s' = validatorQueue s;
  sv_shares : shares s' = shares s;
  sv_abandoned : abandoned s' = abandoned s;
}.
Lemma vals_agree_same s s' : vals_agree s -> same_vals s s' -> vals_agree s'.
Proof. intros [] [E1 E2 E3 E4 E5 E6 E7]. split; rewrite ?E1, ?E2, ?E3, ?E4, ?E5, ?E6, ?E7; done. Qed.

Lemma set_frame s s' : set_ok s -> same_vals s s' -> delegators s' = delegators s -> lastTotalPower s' = lastTotalPower s -> set_ok s'.
Proof.
  intros [Ha Hv Ht Hk] Hs Hd Hp. pose proof (vals_agree_same s s' Ha Hs). destruct Hs as [_ _ _ El _ Es _].
  split; [done|by rewrite Hd, Es|unfold last_total in *; by rewrite El, Hp|by rewrite Hd].
Qed.

(** *** A record changes *)

(** [v]'s record becomes [v'], with its key in the index. *)
Definition reindex v v' s : stk :=
  s <| validators := <[OperatorAddress v' := v']> (validators s) |> <| powerIndex := reindexed v v' (powerIndex s) |>.
Lemma reindex_eq v v' s : SetValidatorByPowerIndex v' (SetValidator v' (DeleteValidatorByPowerIndex v s)) = reindex v v' s.
Proof. unfold SetValidatorByPowerIndex, reindex, reindexed. by destruct (Jailed v'). Qed.

(** [v'] stands for the same validator as [v]. *)
Definition same_identity v v' : Prop :=
  OperatorAddress v' = OperatorAddress v /\ ConsPubKey v' = ConsPubKey v /\ val_Tokens v' = val_Tokens v.

Lemma agree_index s a v v' : vals_agree s -> validators s !! a = Some v -> same_identity v v' ->
  OperatorAddress v = a /\ address_ok a /\
  vals_ok (<[a := v']> (validators s)) /\ cons_ok (<[a := v']> (validators s)) (byConsAddr s) /\
  index_ok (<[a := v']> (validators s)) (reindexed v v' (powerIndex s)).
Proof.
  intros Hs Hv (Ha & Hk & Ht). destruct (va_vals _ Hs a v Hv) as (Hva & Hok & Hvt). split_and!; [done|done|..].
  - apply vals_ok_insert; [apply Hs|congruence|done|congruence].
  - by apply (cons_same _ _ _ v); [apply Hs|..].
  - apply (index_reindexed _ _ a v); [apply Hs|apply Hs|done|done| |congruence]. intros w Hw. congruence.
Qed.

Lemma abandoned_keep s a v' (l : list Address) : vals_agree s -> (a ∈ abandoned s -> Status v' = Bonded) -> (forall b, b ∈ l -> b ∈ abandoned s) ->
  forall b, b ∈ l -> exists v, <[a := v']> (validators s) !! b = Some v /\ Status v = Bonded.
Proof.
  intros Hs Ha Hl b Hb%Hl. apply insert_exists. case_decide; [subst b; by apply Ha|by apply (va_abandoned _ Hs)].
Qed.
Lemma abandoned_bonded s a v : vals_agree s -> validators s !! a = Some v -> a ∈ abandoned s -> Status v = Bonded.
Proof. intros Hs Hv Ha. destruct (va_abandoned _ Hs a Ha) as (w & Hw & ?). congruence. Qed.

(** The status stays. *)
Definition same_status v v' : Prop :=
  Status v' = Status v /\ UnbondingCompletionTime v' = UnbondingCompletionTime v.
Lemma agree_reindex s a v v' sh' : vals_agree s -> validators s !! a = Some v -> same_identity v v' -> same_status v v' ->
  shares_ok (<[a := v']> (validators s)) sh' -> vals_agree (reindex v v' (s <| shares := sh' |>)).
Proof.
  intros Hs Hv Hi [Hst Ht] Hsh. destruct (agree_index _ _ _ _ Hs Hv Hi) as (Ha & Hok & ? & ? & ?).
  destruct Hi as (Hia & _). assert (OperatorAddress v' = a) as Ha' by congruence.
  split; cbn; rewrite ?Ha'; [done|done|done|..].
  - apply last_insert; [apply Hs|]. rewrite Hst, (va_last _ Hs a). apply (lookup_exists (fun w => Status w = Bonded) _ _ _ Hv).
  - apply (queue_same _ _ _ v); [apply Hs|done|]. intros t. unfold unbonding_at. by rewrite Hst, Ht.
  - done.
  - apply (abandoned_keep s); [done| |done]. rewrite Hst. by apply abandoned_bonded.
Qed.

(** The votes of [d] on [a] become [o], and nothing else of the votes changes. *)
Record voted d (o : option Dec) a s s1 : Prop := {
  vd_vals b : b ≠ a -> validators s1 !! b = validators s !! b;
  vd_shares : vote_set (a, d) o (shares s) (shares s1);
  vd_delegators : delegators s1 = delegators s;
  vd_last : lastPowers s1 = lastPowers s;
  vd_total : lastTotalPower s1 = lastTotalPower s;
}.
Lemma agree_vote s a d v o x sh' : vals_agree s -> validators s !! a = Some v -> vote_set (a, d) o (shares s) sh' ->
  (forall y, o = Some y -> 0 < y) -> x = DelegatorShares v + (default 0 o - default 0 (shares s !! (a, d))) ->
  let s1 := reindex v (v <| DelegatorShares := x |>) (s <| shares := sh' |>) in vals_agree s1 /\ voted d o a s s1.
Proof.
  intros Hs Hv Hset Hpos -> s1. destruct (va_vals _ Hs a v Hv) as (Ha & _). split.
  - apply (agree_reindex s a); [done|done|by split|by split|]. by apply (shares_vote _ (shares s) _ _ d o v); [apply Hs|..].
  - split; try done. intros b Hb. subst s1. cbn. rewrite Ha. by rewrite lookup_insert_ne.
Qed.

(** *** A validator leaves *)

Definition dropped v s : stk :=
  s <| validators := delete (OperatorAddress v) (validators s) |> <| byConsAddr := delete (ConsAddress v) (byConsAddr s) |>
    <| powerIndex := delete (key v) (powerIndex s) |>.
Lemma agree_drop s a v sh' : vals_agree s -> validators s !! a = Some v -> Status v = Unbonded ->
  (forall b, b ≠ a -> votes_on b sh' = votes_on b (shares s)) ->
  (forall k x, sh' !! k = Some x -> shares s !! k = Some x /\ k.1 ≠ a) -> vals_agree (dropped v (s <| shares := sh' |>)).
Proof.
  intros Hs Hv Hst Hb Hk. destruct (va_vals _ Hs a v Hv) as (Ha & Hok & _). unfold dropped. rewrite Ha. split; cbn.
  - by apply vals_ok_delete, Hs.
  - apply cons_delete; [apply Hs|done].
  - apply (index_delete _ _ a v); [apply Hs|apply Hs|done|done|]. intros w Hw. congruence.
  - apply (last_delete _ _ _ v); [apply Hs|done|by rewrite Hst].
  - apply (queue_delete _ _ _ v); [apply Hs|done|by rewrite Hst].
  - by apply (shares_leave _ (shares s)); [apply Hs|..].
  - intros b Hab. destruct (va_abandoned _ Hs b Hab) as (w & Hw & Hbw). exists w. split; [|done].
    rewrite lookup_delete_ne; [done|]. intros <-. congruence.
Qed.

(** Panics that come from another module's hook. *)
Inductive hook_panic : gopanic -> Prop :=
  | created_panics (w : W) a p : hook_AfterValidatorCreated w a = Panic p -> hook_panic p
  | removed_panics (w : W) c a p : hook_AfterValidatorRemoved w c a = Panic p -> hook_panic p
  | bonded_panics (w : W) c a p : hook_AfterValidatorBonded w c a = Panic p -> hook_panic p
  | unbonding_panics (w : W) c a p : hook_AfterValidatorBeginUnbonding w c a = Panic p -> hook_panic p
  | destroyed_panics (w : W) c a p : hook_AfterValidatorDestroyed w c a = Panic p -> hook_panic p.

(** The state with another world. *)
Definition in_world (wd : W) s : stk := s <| world := wd |>.
Lemma ends_hook f s (Q : unit -> stk -> Prop) : (forall (w : W) p, f w = Panic p -> hook_panic p) ->
  (forall wd, Q tt (in_world wd s)) -> ends hook_panic (modify_res (hook f) : E unit) s Q.
Proof.
  intros Hp HQ. apply ends_modify_res. unfold hook. destruct (f (world s)) as [wd|p] eqn:Hf; [apply HQ|by apply (Hp (world s))].
Qed.

Lemma RemoveValidator_ends a v s (Q : unit -> stk -> Prop) : validators s !! a = Some v -> OperatorAddress v = a ->
  Status v = Unbonded -> val_Tokens v = 0 -> (forall wd, Q tt (in_world wd (dropped v s))) ->
  ends hook_panic (RemoveValidator a) s Q.
Proof.
  intros Hv Ha Hs Ht HQ. unfold RemoveValidator. apply ends_gets. unfold GetValidator. rewrite Hv.
  unfold IsUnbonded. rewrite bool_decide_eq_true_2 by done. rewrite Ht. cbn [negb Z.ltb Z.compare].
  do 3 apply ends_modify. apply ends_hook; [intros wd p; apply removed_panics|].
  intros wd. specialize (HQ wd). unfold dropped in HQ. by rewrite Ha in HQ.
Qed.
End Set_.
End StakingSet.
