(* ===== verification/StakingVotes.v ===== *)
(** Messages keep the validators' tables in agreement.

    A vote changes one validator and one entry of the votes; a loop over a
    delegator's validators changes the entries of that delegator.  From
    there each message of the module. *)
From S2P Require Import Prelude.
From S2P Require Import Interfaces.
From S2P Require Import Sums.
From S2P Require Import Effects.
From S2P Require Import StakingTypes.
From S2P Require Import StakingKeys.
From S2P Require Import StakingState.
From S2P Require Import StakingKeeper.
From S2P Require Import StakingVals.
From S2P Require Import StakingHandler.
From S2P Require Import StakingAcct.
From S2P Require Import StakingView.
From S2P Require Import StakingRefine.
From S2P Require Import StakingSet.
Import StakingTypes StakingKeys StakingState StakingKeeper StakingVals StakingHandler StakingAcct StakingView StakingRefine StakingSet.
Local Open Scope Z_scope.

Module StakingVotes.
Section Votes.
Context {W : Type} `{SupplyKeeper W, StakingHooks W, StakingSdk, !StakingPowerLaws, SdkConfig}.
Context (PubKey_Type : bytes -> string) (PubKeyTypes : option (list string)).
Abbreviation stk := (Stk W).
Abbreviation E := (eff (Stk W) stk_error).
Implicit Types (s : stk) (v w : Validator) (a d p : Address) (e : Delegator) (b : Block).

(** [v] is the record in the store. *)
Definition fresh v s : Prop := validators s !! OperatorAddress v = Some v.

Lemma reindex_shares v v' sh s : reindex v v' s <| shares := sh |> = reindex v v' (s <| shares := sh |>).
Proof. done. Qed.

(** ** One vote *)

Lemma addShares_votes d v x u s s1 : vals_agree s -> fresh v s -> shares s !! (OperatorAddress v, d) = None -> 0 < x ->
  runs (addShares d v x) s u s1 -> vals_agree s1 /\ voted d (Some x) (OperatorAddress v) s s1.
Proof.
  intros Hs Hv Hn Hx Hr. unfold addShares in Hr. run_inv Hr. rewrite reindex_eq.
  apply agree_vote; [done|done| |naive_solver|rewrite Hn; cbn; lia]. intros j. cbn. rewrite lookup_insert. repeat case_decide; naive_solver.
Qed.

Lemma update_val_votes d y x v u s s1 : vals_agree s -> fresh v s -> shares s !! (OperatorAddress v, d) = Some y -> 0 < x ->
  runs (update_val_shares d y x v) s u s1 -> vals_agree s1 /\ voted d (Some x) (OperatorAddress v) s s1.
Proof.
  intros Hs Hv Hn Hx Hr. unfold update_val_shares in Hr. destruct (MinSelfDelegation v =? 0); run_inv Hr.
  change (SetShares d (OperatorAddress v) x (DeleteValidatorByPowerIndex v s)) with
    (DeleteValidatorByPowerIndex v (SetShares d (OperatorAddress v) x s)). rewrite reindex_eq.
  apply agree_vote; [done|done| |naive_solver|rewrite Hn; cbn; lia]. intros j. cbn. rewrite lookup_insert. repeat case_decide; naive_solver.
Qed.

Lemma own_shares_nonneg v : 0 <= own_shares v.
Proof. unfold own_shares, OneDec. case_match; lia. Qed.

Lemma withdrawShares_votes d v x u s s1 : vals_agree s -> fresh v s -> shares s !! (OperatorAddress v, d) = Some x ->
  runs (withdrawShares d v x) s u s1 -> vals_agree s1 /\ voted d None (OperatorAddress v) s s1.
Proof.
  intros Hs Hv Hx Hr. set (a := OperatorAddress v) in *. set (sh := delete (a, d) (shares s)).
  assert (vote_set (a, d) None (shares s) sh) as Hset.
  { intros j. unfold sh. rewrite lookup_delete. repeat case_decide; naive_solver. }
  set (v' := v <| DelegatorShares := DelegatorShares v - x |>).
  destruct (agree_vote s a d v None (DelegatorShares v - x) sh Hs Hv Hset) as [Hs1 Hvd]; [done|rewrite Hx; cbn; lia|].
  unfold withdrawShares in Hr. apply runs_bind in Hr as (? & s2 & Hr1 & Hr). run_inv Hr1.
  apply runs_bind in Hr as (? & s2 & Hr1 & Hr). run_inv Hr1. fold a v' in Hr. destruct (_ && _) eqn:Hc in Hr.
  - apply andb_prop in Hc as [[Hst _]%andb_prop Hz%Z.eqb_eq]. apply bool_decide_eq_true_1 in Hst. cbn in Hst.
    destruct (va_vals _ Hs a v Hv) as (_ & _ & Ht).
    pose proof (va_shares _ Hs1) as Hsh. assert (votes_on a sh = 0) as Hv0.
    { pose proof (so_total _ _ Hsh a v' (lookup_insert_eq _ _ _)) as Htot. change (DelegatorShares v' = own_shares v' + votes_on a sh) in Htot. change (DelegatorShares v' = 0) in Hz.
      pose proof (votes_on_nonneg _ _ a Hsh) as Hnn. change (0 <= votes_on a sh) in Hnn. pose proof (own_shares_nonneg v'). lia. }
    revert Hr. apply (ends_runs hook_panic _ _ _ _ (fun _ s1 => vals_agree s1 /\ voted d None a s s1)).
    apply (RemoveValidator_ends a v); [done..|]. intros wd.
    assert (vals_agree (dropped v (s <| shares := sh |>))) as Hd.
    { apply (agree_drop s a); [done|done|done| |].
      - intros c Hc. rewrite (votes_on_set _ _ _ _ c Hset). cbn. case_decide; [congruence|lia].
      - intros [c c'] y Hy. pose proof (Hset (c, c')) as Hy'. rewrite Hy in Hy'. case_decide; [done|]. split; [done|]. cbn. intros ->.
        cbn in Hsh. by rewrite (votes_on_zero _ _ a Hsh Hv0) in Hy. }
    split.
    + apply (vals_agree_same _ _ Hd). split; try done. cbn. by rewrite delete_delete_eq.
    + split; try done. intros c Hc. cbn. fold a. by rewrite lookup_delete_ne.
  - run_inv Hr. rewrite reindex_eq. done.
Qed.

(** ** Loops over the validators of a delegator *)

(** The entries of [d] on [l] become [o], and nothing else of the votes changes. *)
Record revoted d (o : option Dec) (l : list Address) s s' : Prop := {
  rv_vals : vals_agree s';
  rv_shares k : shares s' !! k = if decide (k.2 = d /\ k.1 ∈ l) then o else shares s !! k;
  rv_delegators : delegators s' = delegators s;
  rv_last : lastPowers s' = lastPowers s;
  rv_total : lastTotalPower s' = lastTotalPower s;
}.

Lemma revoted_loop (f : Validator -> E unit) d o0 o (vs : list Validator) u :
  (forall v u s s1, vals_agree s -> fresh v s -> shares s !! (OperatorAddress v, d) = o0 ->
     runs (f v) s u s1 -> vals_agree s1 /\ voted d o (OperatorAddress v) s s1) ->
  forall s s', runs (for_each vs f) s u s' -> vals_agree s -> NoDup (OperatorAddress <$> vs) ->
  (forall v, v ∈ vs -> fresh v s /\ shares s !! (OperatorAddress v, d) = o0) -> revoted d o (OperatorAddress <$> vs) s s'.
Proof.
  intros Hf. induction vs as [|v vs IH]; intros s s' Hr Hs Hnd Hvs.
  - apply runs_ret in Hr as [_ ->]. split; [done|intros k; rewrite decide_False; [done|by intros [_ ?%elem_of_nil]]|done..].
  - cbn [for_each] in Hr. apply runs_bind in Hr as (u1 & s1 & Hv & Hr). apply NoDup_cons in Hnd as [Hni Hnd].
    destruct (Hvs v) as [Hfr Ho]; [left|]. destruct (Hf v u1 s s1 Hs Hfr Ho Hv) as [Hs1 Hvd].
    assert (forall w, w ∈ vs -> OperatorAddress w ≠ OperatorAddress v) as Hne.
    { intros w Hw Heq. apply Hni. apply list_elem_of_fmap. by exists w. }
    destruct (IH s1 s' Hr Hs1 Hnd) as [Hs' Hsh Hd Hl Ht].
    { intros w Hw. destruct (Hvs w) as [Hfw How]; [by right|]. split.
      - unfold fresh. by rewrite (vd_vals _ _ _ _ _ Hvd) by by apply Hne.
      - rewrite (vd_shares _ _ _ _ _ Hvd), decide_False; [done|]. intros [= Heq]. by apply (Hne w). }
    split; [done| |by rewrite Hd, (vd_delegators _ _ _ _ _ Hvd)|by rewrite Hl, (vd_last _ _ _ _ _ Hvd)|by rewrite Ht, (vd_total _ _ _ _ _ Hvd)].
    intros [c c']. rewrite (Hsh (c, c')), (vd_shares _ _ _ _ _ Hvd). cbn [fst snd fmap list_fmap].
    repeat case_decide; rewrite ?elem_of_cons in *; naive_solver.
Qed.

(** The validators read before a loop over them. *)
Lemma fresh_lookup a v s : vals_agree s -> validators s !! a = Some v -> fresh v s /\ OperatorAddress v = a.
Proof. intros Hs Ha. destruct (va_vals _ Hs a v Ha) as (Hva & _). unfold fresh. by rewrite Hva. Qed.

(** Whoever has votes in the records finds all its validators in the store. *)
Lemma LastVals_addresses (P : Address -> Prop) d e s : vals_agree s -> votes_ok P (delegators s) (shares s) -> P d ->
  delegators s !! d = Some e -> exists vs, GetLastValsAddedSharesExisted d s = (vs, Shares e) /\
    OperatorAddress <$> vs = ValidatorAddresses e /\
    forall v, v ∈ vs -> fresh v s /\ shares s !! (OperatorAddress v, d) = Some (Shares e).
Proof.
  intros Hs Hvo Hp He. destruct (vo_row _ _ _ Hvo d e Hp He) as [_ Hrow]. unfold GetLastValsAddedSharesExisted, GetDelegator. rewrite He.
  eexists. split; [done|].
  assert (forall l, (forall a, a ∈ l -> a ∈ ValidatorAddresses e) ->
    OperatorAddress <$> (omap (fun a => GetValidator a s) l : list Validator) = l) as Hl.
  { induction l as [|a l IH]; intros Hin; [done|]. cbn [omap list_omap].
    assert (shares s !! (a, d) = Some (Shares e)) as Hx by (apply Hrow; split; [apply Hin; left|done]).
    destruct (so_votes _ _ (va_shares _ Hs) _ _ Hx) as [_ [v Hv]]. cbn in Hv. unfold GetValidator at 1. rewrite Hv. cbn.
    destruct (fresh_lookup a v s Hs Hv) as [_ ->]. f_equal. apply IH. intros c Hc. apply Hin. by right. }
  split; [by apply Hl|]. intros v Hv. apply list_elem_of_omap in Hv as (a & Ha & Hg).
  destruct (fresh_lookup a v s Hs Hg) as [Hf ->]. split; [done|]. by apply Hrow.
Qed.

(** ** The weight of a vote is positive in late blocks *)

(** From a year after the epoch of the weights on; Unix seconds fit 63 bits. *)
Definition late b : Prop := 52 <= Z.quot (Unix b - blockTimestampEpoch) secondsPerWeek < 2 ^ 44.

Lemma round_half_even_ge x y c : 0 < c -> y * c <= x -> y <= round_half_even x c.
Proof.
  intros Hc Hx. assert (y <= x / c) by (apply Z.div_le_lower_bound; lia). unfold round_half_even. repeat case_match; lia.
Qed.
Lemma weeks_to_dec_ge n : 52 <= n < 2 ^ 44 -> OneDec <= weeks_to_dec n.
Proof.
  intros Hn. unfold weeks_to_dec. rewrite (proj2 (Z.eqb_neq n 0)) by lia. rewrite Z.abs_eq, Z.sgn_pos, Z.mul_1_l by lia.
  match goal with |- context [2 ^ ?k'] => set (k := k') in * end.
  assert (0 <= k) as Hk.
  { assert (Z.log2 n < 44) by (apply Z.log2_lt_pow2; lia). change (Z.log2 weeksPerYear) with 5 in k. subst k. case_match; lia. }
  pose proof (Z.pow_pos_nonneg 2 k ltac:(lia) Hk) as Hp.
  apply round_half_even_ge; [done|]. unfold OneDec.
  assert (2 ^ k <= round_half_even (n * 2 ^ k) weeksPerYear); [|nia].
  apply round_half_even_ge; [done|]. change weeksPerYear with 52. nia.
Qed.
Lemma weight_pos b tokens x : late b -> 0 < tokens -> calculateWeight (Unix b) tokens = Some x -> 0 < x.
Proof.
  intros Hl Ht Hx. unfold calculateWeight in Hx. destruct (NewDecFromStr _) as [w|] eqn:Hw; [|done]. injection Hx as <-.
  apply NewDecFromStr_digits in Hw as ->. pose proof (weeks_to_dec_ge _ Hl) as Hw.
  pose proof (Dec_Mul_ge tokens _ ltac:(lia) Hw). lia.
Qed.

(** ** The votes of one delegator *)

(** Only the record of [d] changes. *)
Definition others d s s' : Prop := forall c, c ≠ d -> delegators s' !! c = delegators s !! c.

Lemma set_SetDelegator e s : set_ok s ->
  match delegators s !! DelegatorAddress e with
  | Some e0 => ValidatorAddresses e = ValidatorAddresses e0 /\ Shares e = Shares e0
  | None => ValidatorAddresses e = []
  end -> set_ok (SetDelegator e s).
Proof.
  intros Hs He. split; [apply (vals_agree_same s); [apply Hs|by split]| |apply Hs|].
  - apply votes_ok_record; [apply Hs|done].
  - intros a e'. cbn. rewrite lookup_insert. case_decide; [naive_solver|apply Hs].
Qed.
Lemma others_SetDelegator e s : others (DelegatorAddress e) s (SetDelegator e s).
Proof. intros c Hc. cbn. by rewrite lookup_insert_ne. Qed.

(** A loop over the validators of [d], and then the record that says so. *)
Lemma revoted_close d o l e s s1 : set_ok s -> revoted d o l s s1 -> (forall a y, a ∉ l -> shares s !! (a, d) ≠ Some y) ->
  DelegatorAddress e = d -> ValidatorAddresses e = l -> NoDup l -> o = Some (Shares e) -> set_ok (SetDelegator e s1).
Proof.
  intros Hs Hr Hl Hd Hv Hnd ->. split.
  - apply (vals_agree_same s1); [apply Hr|by split].
  - apply (votes_ok_close d).
    + apply (votes_ok_sub (fun _ => True) _ (delegators s) _ (shares s)); [apply Hs|done|..].
      * intros a c Hc. cbn. rewrite (rv_shares _ _ _ _ _ Hr), decide_False; [done|]. by intros [].
      * intros c Hc. cbn. by rewrite Hd, lookup_insert_ne, (rv_delegators _ _ _ _ _ Hr).
    + cbn. rewrite Hd, lookup_insert_eq, Hv. split; [done|]. intros a y. rewrite (rv_shares _ _ _ _ _ Hr). cbn [fst snd].
      case_decide as Ha; [naive_solver|]. split; [|naive_solver]. intros Hy. exfalso. apply (Hl a y); [naive_solver|done].
  - cbn. rewrite (rv_total _ _ _ _ _ Hr). unfold last_total. cbn. rewrite (rv_last _ _ _ _ _ Hr). apply Hs.
  - intros a e'. cbn. rewrite lookup_insert. case_decide; [naive_solver|]. rewrite (rv_delegators _ _ _ _ _ Hr). apply Hs.
Qed.

Lemma row_elsewhere d e s : set_ok s -> delegators s !! d = Some e ->
  forall a y, a ∉ ValidatorAddresses e -> shares s !! (a, d) ≠ Some y.
Proof. intros Hs He a y Ha Hy. destruct (vo_row _ _ _ (set_votes _ Hs) d e I He) as [_ Hr]. by apply Ha, (Hr a y). Qed.

Lemma UpdateShares_set b d tokens u s s' : runs (UpdateShares b d tokens) s u s' -> late b -> 0 < tokens -> set_ok s ->
  set_ok s' /\ others d s s'.
Proof.
  intros Hr Hl Ht Hs. unfold UpdateShares in Hr. apply runs_bind in Hr as ([vs y] & s1 & Hg & Hr). apply runs_gets in Hg as [Hg ->].
  case_decide as Hn; [run_inv Hr; done|].
  destruct (delegators s !! d) as [e|] eqn:He; [|unfold GetLastValsAddedSharesExisted, GetDelegator in Hg; rewrite He in Hg; simplify_eq].
  destruct (LastVals_addresses _ d e s (set_vals _ Hs) (set_votes _ Hs) I He) as (vs' & Hg' & Ha & Hvs).
  rewrite Hg' in Hg. injection Hg as -> ->.
  destruct (calculateWeight _ _) as [x|] eqn:Hx; [|run_inv Hr]. pose proof (weight_pos _ _ _ Hl Ht Hx) as Hpos.
  apply runs_bind in Hr as (o & s1 & Hg & Hr). apply runs_gets in Hg as [-> ->]. unfold GetDelegator in Hr. rewrite He in Hr.
  apply runs_bind in Hr as (u1 & s1 & Hlp & Hr). run_inv Hr. destruct (vo_row _ _ _ (set_votes _ Hs) d e I He) as [Hnd _].
  assert (revoted d (Some x) (ValidatorAddresses e) s s1) as Hrv.
  { rewrite <- Ha. apply (revoted_loop _ d (Some (Shares e)) (Some x) vs' u1) in Hlp; [done| |apply Hs|by rewrite Ha|done].
    intros v u2 s2 s3 Hs2 Hf Ho Hu. by apply (update_val_votes d (Shares e) x v u2). }
  pose proof (set_keyed _ Hs d e He) as Hk. split.
  - apply (revoted_close d (Some x) (ValidatorAddresses e) _ s); try done. by apply row_elsewhere.
  - intros c Hc. cbn. by rewrite Hk, lookup_insert_ne, (rv_delegators _ _ _ _ _ Hrv).
Qed.

(** ** Records of delegators *)

(** What the votes depend on. *)
Definition voting e : list Address * Dec := (ValidatorAddresses e, Shares e).
Definition voting_at s d : option (list Address * Dec) := voting <$> delegators s !! d.
Definition same_votings s s' : Prop := forall c, voting_at s' c = voting_at s c.

Lemma others_voting d s s' c : others d s s' -> c ≠ d -> voting_at s' c = voting_at s c.
Proof. intros Ho Hc. unfold voting_at. by rewrite (Ho c Hc). Qed.
Lemma set_rewrite e s : set_ok s -> voting_at s (DelegatorAddress e) = Some (voting e) -> set_ok (SetDelegator e s).
Proof.
  intros Hs He. apply set_SetDelegator; [done|]. unfold voting_at in He.
  destruct (delegators s !! DelegatorAddress e) as [e0|]; [|done]. injection He. auto.
Qed.
Lemma voting_SetDelegator e s c : voting_at (SetDelegator e s) c = if decide (c = DelegatorAddress e) then Some (voting e) else voting_at s c.
Proof. unfold voting_at. cbn. destruct (decide (c = DelegatorAddress e)) as [->|Hc]; [by rewrite lookup_insert_eq|by rewrite lookup_insert_ne]. Qed.

(** Steps that neither validators nor votes show. *)
Record quiet s s' : Prop := {
  q_vals : same_vals s s';
  q_delegators : delegators s' = delegators s;
  q_total : lastTotalPower s' = lastTotalPower s;
}.
Lemma quiet_refl s : quiet s s.
Proof. by split; [split|..]. Qed.
Lemma unseen_trans s s1 s2 : quiet s s1 -> quiet s1 s2 -> quiet s s2.
Proof. intros [[] ? ?] [[] ? ?]. split; [split|..]; congruence. Qed.
Lemma set_quiet s s' : set_ok s -> quiet s s' -> set_ok s'.
Proof. intros Hs []. by apply (set_frame s). Qed.
Lemma quiet_DelegateCoins a l u s s' : runs (DelegateCoins a l) s u s' -> quiet s s'.
Proof. unfold runs, DelegateCoins. destruct (DelegateCoinsFromAccountToModule _ _ _ _); [|done]. intros [= <- _]. by split; [split|..]. Qed.
Lemma quiet_bondedToNot t u s s' : runs (bondedTokensToNotBonded t) s u s' -> quiet s s'.
Proof.
  intros Hr. apply runs_modify_res in Hr. destruct (SendCoinsFromModuleToModule _ _ _ _); [|done]. injection Hr as <-. by split; [split|..].
Qed.
Lemma quiet_enqueue a x t u s s' : runs (enqueue_undelegation a x t) s u s' -> quiet s s'.
Proof.
  intros Hr. unfold enqueue_undelegation in Hr. apply runs_bind in Hr as (o & s1 & Hg & Hr). apply runs_gets in Hg as [-> ->].
  apply runs_bind in Hr as (ud & s1 & Hu & Hr). run_inv Hr. destruct (GetUndelegating a s); run_inv Hu; by split; [split|..].
Qed.
Lemma quiet_hook f u s s' : runs (modify_res (hook f) : E unit) s u s' -> quiet s s'.
Proof. intros Hr. apply runs_modify_res in Hr. unfold hook in Hr. destruct (f (world s)); [|done]. injection Hr as <-. by split; [split|..]. Qed.
Lemma quiet_SetProxyBinding p a rm s : quiet s (SetProxyBinding p a rm s).
Proof. unfold SetProxyBinding. destruct rm; by split; [split|..]. Qed.

(** Everyone has tokens. *)
Definition funded s : Prop := forall a e, delegators s !! a = Some e -> 0 < Tokens e /\ 0 <= TotalDelegatedTokens e.
Lemma funded_SetDelegator e s : funded s -> 0 < Tokens e -> 0 <= TotalDelegatedTokens e -> funded (SetDelegator e s).
Proof. intros Hf Ht Hd a e'. cbn. rewrite lookup_insert. case_decide; [naive_solver|apply Hf]. Qed.
Lemma funded_quiet s s' : funded s -> quiet s s' -> funded s'.
Proof. intros Hf [_ Hd _] a e. rewrite Hd. apply Hf. Qed.

Lemma UpdateProxy_set b e x u s s' : runs (UpdateProxy b e x) s u s' -> late b -> set_ok s -> funded s ->
  set_ok s' /\ forall c, ProxyAddress e ≠ Some c -> delegators s' !! c = delegators s !! c.
Proof.
  intros Hr Hl Hs Hf. unfold UpdateProxy in Hr. destruct (ProxyAddress e) as [p|]; [|run_inv Hr; done].
  apply runs_bind in Hr as (o & s1 & Hg & Hr). apply runs_gets in Hg as [-> ->]. unfold GetDelegator in Hr.
  destruct (delegators s !! p) as [q|] eqn:Hq; [|run_inv Hr]. pose proof (set_keyed _ Hs p q Hq) as Hk. destruct (Hf p q Hq) as [Ht _].
  cbn zeta in Hr. destruct (Z.ltb_spec (TotalDelegatedTokens (q <| TotalDelegatedTokens := TotalDelegatedTokens q + x |>)) 0) as [?|Hge];
    [run_inv Hr|].
  apply runs_bind in Hr as (u1 & s1 & Hm & Hr). run_inv Hm.
  destruct (UpdateShares_set _ _ _ _ _ _ Hr Hl) as [Hs' Ho]; [cbn in *; lia| |].
  - apply set_rewrite; [done|]. unfold voting_at. cbn. by rewrite Hk, Hq.
  - split; [done|]. intros c Hc. cbn in Ho. rewrite Ho by congruence. cbn. by rewrite Hk, lookup_insert_ne by congruence.
Qed.

(** ** Messages about tokens *)

Lemma Delegate_set b a x u s s' : late b -> set_ok s -> funded s -> 0 < p_MinDelegation (stk_params s) ->
  runs (Delegate b a x) s u s' -> set_ok s'.
Proof.
  intros Hl Hs Hf Hmin Hr. unfold Delegate in Hr. apply runs_bind in Hr as (m & s1 & Hg & Hr). apply runs_gets in Hg as [-> ->].
  destruct (Z.ltb_spec x.2 (p_MinDelegation (stk_params s))) as [?|Hx]; [run_inv Hr|].
  apply runs_bind in Hr as (u1 & s1 & Hd & Hr). apply quiet_DelegateCoins in Hd as Hq.
  pose proof (set_quiet _ _ Hs Hq) as Hs1. pose proof (funded_quiet _ _ Hf Hq) as Hf1.
  apply runs_bind in Hr as (o & s2 & Hg & Hr). apply runs_gets in Hg as [-> ->]. unfold GetDelegator in Hr. cbn zeta in Hr.
  set (e := default (NewDelegator a) (delegators s1 !! a)) in *. set (e' := e <| Tokens := Tokens e + x.2 |>) in *.
  assert (0 < Tokens e' /\ 0 <= TotalDelegatedTokens e') as [Ht Htot].
  { subst e' e. cbn. destruct (delegators s1 !! a) as [e|] eqn:He; cbn; [destruct (Hf1 a e He)|]; lia. }
  assert (DelegatorAddress e' = a) as Hk.
  { subst e' e. cbn. destruct (delegators s1 !! a) as [e|] eqn:He; cbn; [by apply (set_keyed _ Hs1)|done]. }
  assert (set_ok (SetDelegator e' s1)) as Hs2.
  { apply set_SetDelegator; [done|]. rewrite Hk. subst e' e. by destruct (delegators s1 !! a) eqn:He. }
  apply runs_bind in Hr as (u2 & s2 & Hm & Hr). run_inv Hm. destruct (HasProxy e').
  - by destruct (UpdateProxy_set _ _ _ _ _ _ Hr Hl Hs2 (funded_SetDelegator _ _ Hf1 Ht Htot)).
  - destruct (UpdateShares_set _ _ _ _ _ _ Hr Hl) as [? _]; [|done|done]. unfold final_tokens. case_match; lia.
Qed.

Lemma withdraw_all_set a e u s s' : set_ok s -> delegators s !! a = Some e -> runs (withdraw_all a e) s u s' -> set_ok s'.
Proof.
  intros Hs He Hr. unfold withdraw_all in Hr. apply runs_bind in Hr as ([vs y] & s1 & Hg & Hr). apply runs_gets in Hg as [Hg ->].
  destruct (LastVals_addresses _ a e s (set_vals _ Hs) (set_votes _ Hs) I He) as (vs' & Hg' & Ha & Hvs).
  rewrite Hg' in Hg. injection Hg as -> ->. destruct (vo_row _ _ _ (set_votes _ Hs) a e I He) as [Hnd Hrow].
  apply runs_bind in Hr as (u1 & s1 & Hw & Hr).
  assert (revoted a None (ValidatorAddresses e) s s1) as Hrv.
  { rewrite <- Ha. apply (revoted_loop _ a (Some (Shares e)) None vs' u1) in Hw; [done| |apply Hs|by rewrite Ha|done].
    intros v u2 s2 s3 Hs2 Hf Ho Hx. by apply (withdrawShares_votes a v (Shares e) u2). }
  apply runs_bind in Hr as (u2 & s2 & Hp & Hr). run_inv Hr.
  assert (quiet s1 s2) as Hq.
  { destruct (ProxyAddress e); run_inv Hp; [apply quiet_SetProxyBinding|apply quiet_refl]. }
  destruct Hq as [Hsv Hd Ht]. split.
  - apply (vals_agree_same s2); [|by split]. by apply (vals_agree_same s1), Hsv; apply Hrv.
  - cbn. rewrite Hd, (sv_shares _ _ Hsv), (rv_delegators _ _ _ _ _ Hrv). apply (votes_ok_close a).
    + apply (votes_ok_sub (fun _ => True) _ (delegators s) _ (shares s)); [apply Hs|done|..].
      * intros b c Hc. rewrite (rv_shares _ _ _ _ _ Hrv), decide_False; [done|]. by intros [].
      * intros c Hc. by rewrite lookup_delete_ne.
    + rewrite lookup_delete_eq. intros b. rewrite (rv_shares _ _ _ _ _ Hrv). cbn [fst snd]. case_decide as Hb; [done|].
      apply eq_None_not_Some. intros [x Hx]. apply (row_elsewhere a e s Hs He b x); [naive_solver|done].
  - cbn. rewrite Ht. unfold last_total. cbn. rewrite (sv_last _ _ Hsv), (rv_last _ _ _ _ _ Hrv), (rv_total _ _ _ _ _ Hrv). apply Hs.
  - intros c f. cbn. rewrite Hd, (rv_delegators _ _ _ _ _ Hrv). intros Hc. apply lookup_delete_Some in Hc as [_ Hc]. by apply Hs.
Qed.

Lemma Withdraw_set b a x t s s' : late b -> set_ok s -> funded s -> 0 < p_MinDelegation (stk_params s) ->
  (forall e, delegators s !! a = Some e -> ProxyAddress e ≠ Some a) -> runs (Withdraw b a x) s t s' -> set_ok s'.
Proof.
  intros Hl Hs Hf Hmin Hself Hr. unfold Withdraw in Hr. apply runs_bind in Hr as (o & s1 & Hg & Hr). apply runs_gets in Hg as [-> ->].
  unfold GetDelegator in Hr. destruct (delegators s !! a) as [e|] eqn:He; [|run_inv Hr].
  apply runs_bind in Hr as (m & s1 & Hg & Hr). apply runs_gets in Hg as [-> ->]. destruct (_ <? _) in Hr; [run_inv Hr|].
  destruct (Z.ltb_spec (Tokens e) x.2) as [?|Hx]; [run_inv Hr|]. cbn zeta in Hr. destruct (_ && _) in Hr; [run_inv Hr|].
  apply runs_bind in Hr as (u1 & s1 & Hb & Hr). apply quiet_bondedToNot in Hb as Hq.
  pose proof (set_quiet _ _ Hs Hq) as Hs1. pose proof (funded_quiet _ _ Hf Hq) as Hf1.
  apply runs_bind in Hr as (u2 & s2 & Hw & Hr). apply runs_when in Hw.
  assert (set_ok s2 /\ delegators s2 !! a = Some e) as [Hs2 He2].
  { pose proof (Hself e eq_refl) as Hne. rewrite <- (q_delegators _ _ Hq) in He. destruct (HasProxy e); [|by subst s2].
    destruct (UpdateProxy_set _ _ _ _ _ _ Hw Hl Hs1 Hf1) as [Hs2 Ho]. by rewrite Ho. }
  apply runs_bind in Hr as (u3 & s3 & Hd & Hr). apply runs_bind in Hr as (ct & s4 & Hg & Hr). apply runs_gets in Hg as [-> ->].
  apply runs_bind in Hr as (u4 & s4 & Hn & Hr). run_inv Hr. apply quiet_enqueue in Hn. apply (set_quiet s3); [|done]. clear Hn.
  destruct (Z.eqb_spec (Tokens e - x.2) 0) as [?|Hne]; [by apply (withdraw_all_set a e u3 s2)|].
  apply runs_bind in Hd as (u5 & s5 & Hm & Hd). run_inv Hm. apply runs_when in Hd.
  pose proof (set_keyed _ Hs2 a e He2) as Hk. destruct (Hf a e He) as [_ Htot].
  assert (set_ok (SetDelegator (e <| Tokens := Tokens e - x.2 |>) s2)) as Hs3.
  { apply set_rewrite; [done|]. unfold voting_at. cbn. by rewrite Hk, He2. }
  destruct (negb _); [|by subst s3]. destruct (UpdateShares_set _ _ _ _ _ _ Hd Hl) as [? _]; [|done|done].
  unfold final_tokens. cbn. destruct (IsProxy e); lia.
Qed.

(** ** Proxies *)

Lemma unbindProxy_set b a u s s' : runs (unbindProxy b a) s u s' -> late b -> set_ok s -> funded s ->
  (forall e, delegators s !! a = Some e -> ProxyAddress e ≠ Some a) ->
  exists e, delegators s !! a = Some e /\ set_ok s' /\ delegators s' !! a = Some (UnbindProxy e) /\
    forall c, c ≠ a -> ProxyAddress e ≠ Some c -> delegators s' !! c = delegators s !! c.
Proof.
  intros Hr Hl Hs Hf Hself. unfold unbindProxy in Hr. apply runs_bind in Hr as (o & s1 & Hg & Hr). apply runs_gets in Hg as [-> ->].
  unfold GetDelegator in Hr at 1. destruct (delegators s !! a) as [e|] eqn:He; [|run_inv Hr]. specialize (Hself e eq_refl).
  apply runs_bind in Hr as (o & s1 & Hg & Hr). apply runs_gets in Hg as [-> ->].
  destruct (ProxyAddress e ≫= _) as [q|]; [|run_inv Hr]. apply runs_bind in Hr as (u1 & s1 & Hu%runs_or_error & Hr).
  destruct (UpdateProxy_set _ _ _ _ _ _ Hu Hl Hs Hf) as [Hs1 Ho]. cbn zeta in Hr.
  apply runs_bind in Hr as (u2 & s2 & Hm & Hr). run_inv Hm. run_inv Hr. pose proof (set_keyed _ Hs a e He) as Hk.
  assert (set_ok (SetDelegator (UnbindProxy e) s1)) as Hs2.
  { apply set_rewrite; [done|]. unfold voting_at. cbn. by rewrite Hk, Ho, He. }
  assert (forall t, delegators (SetProxyBinding t (DelegatorAddress (UnbindProxy e)) true (SetDelegator (UnbindProxy e) s1)) =
    <[a := UnbindProxy e]> (delegators s1)) as Hd by (intros; cbn; by rewrite Hk).
  exists e. split_and!; [done|by apply (set_quiet _ _ Hs2), quiet_SetProxyBinding|by rewrite Hd, lookup_insert_eq|].
  intros c Hc Hp. rewrite Hd, lookup_insert_ne by done. by apply Ho.
Qed.

Lemma bind_to_set b e q p u s s' : runs (bind_to b e q p) s u s' -> late b -> set_ok s -> funded s ->
  delegators s !! DelegatorAddress e = Some e -> delegators s !! DelegatorAddress q = Some q ->
  ProxyAddress e ≠ Some (DelegatorAddress e) -> ProxyAddress e ≠ Some (DelegatorAddress q) ->
  DelegatorAddress q ≠ DelegatorAddress e -> set_ok s'.
Proof.
  intros Hr Hl Hs Hf He Hq Hself Hold Hne. unfold bind_to in Hr. apply runs_bind in Hr as (u1 & s1 & Hu & Hr). apply runs_when in Hu.
  assert (set_ok s1 /\ voting_at s1 (DelegatorAddress e) = Some (voting e) /\ delegators s1 !! DelegatorAddress q = Some q) as (Hs1 & He1 & Hq1).
  { destruct (HasProxy e); [|subst s1; split_and!; [done|unfold voting_at; by rewrite He|done]].
    destruct (unbindProxy_set _ _ _ _ _ Hu Hl Hs Hf) as (e' & He' & Hs1 & Hd & Ho); [intros e' He'; naive_solver|].
    assert (e' = e) as -> by naive_solver. split_and!; [done|unfold voting_at; by rewrite Hd|by rewrite Ho]. }
  cbn zeta in Hr. destruct (Hf _ _ Hq) as [Htq Htotq]. destruct (Hf _ _ He) as [Hte _].
  set (e' := BindProxy e p) in *. set (q' := q <| TotalDelegatedTokens := TotalDelegatedTokens q + Tokens e' |>) in *.
  do 3 (apply runs_bind in Hr as (? & ? & Hm & Hr); run_inv Hm). apply runs_or_error in Hr.
  assert (set_ok (SetDelegator e' s1)) as Hs2 by (by apply set_rewrite).
  assert (set_ok (SetDelegator q' (SetDelegator e' s1))) as Hs3.
  { apply set_rewrite; [done|]. rewrite voting_SetDelegator, decide_False by done. unfold voting_at. cbn. by rewrite Hq1. }
  destruct (UpdateShares_set _ _ _ _ _ _ Hr Hl) as [? _]; [cbn; lia|by apply (set_quiet _ _ Hs3), quiet_SetProxyBinding|done].
Qed.

Lemma BindProxy_set b a p u s s' : runs (handleMsgBindProxy b a p) s u s' -> late b -> set_ok s -> funded s ->
  (forall e, delegators s !! a = Some e -> ProxyAddress e ≠ Some a) -> set_ok s'.
Proof.
  intros Hr Hl Hs Hf Hself. unfold handleMsgBindProxy in Hr. apply runs_bind in Hr as (o & s1 & Hg & Hr). apply runs_gets in Hg as [-> ->].
  unfold GetDelegator in Hr at 1. destruct (delegators s !! a) as [e|] eqn:He; [|run_inv Hr]. specialize (Hself e eq_refl).
  destruct (Tokens e =? 0); [run_inv Hr|]. destruct (negb _); [run_inv Hr|].
  apply runs_bind in Hr as (o & s1 & Hg & Hr). apply runs_gets in Hg as [-> ->]. unfold GetDelegator in Hr.
  destruct (delegators s !! p) as [q|] eqn:Hq; [|run_inv Hr]. destruct (Tokens q =? 0); [run_inv Hr|].
  destruct (IsProxy q) eqn:Hpq; cbn [negb] in Hr; [|run_inv Hr]. destruct (IsProxy e) eqn:Hpe; [run_inv Hr|].
  pose proof (set_keyed _ Hs a e He) as Hka. pose proof (set_keyed _ Hs p q Hq) as Hkp. destruct (Hf p q Hq) as [Ht Htot].
  case_bool_decide as Hold.
  - cbn zeta in Hr. apply runs_or_error in Hr. destruct (UpdateShares_set _ _ _ _ _ _ Hr Hl) as [? _]; [lia|done..].
  - apply (bind_to_set b e q p u s); rewrite ?Hka, ?Hkp in *; try done. intros ->. assert (e = q) by congruence. congruence.
Qed.

Lemma regProxy_set b p u s s' : runs (regProxy b p) s u s' -> late b -> set_ok s -> funded s -> set_ok s'.
Proof.
  intros Hr Hl Hs Hf. unfold regProxy in Hr. apply runs_bind in Hr as (o & s1 & Hg & Hr). apply runs_gets in Hg as [-> ->].
  unfold GetDelegator in Hr. destruct (delegators s !! p) as [e|] eqn:He; [|run_inv Hr].
  destruct (IsProxy e); [run_inv Hr|]. destruct (HasProxy e); [run_inv Hr|]. cbn zeta in Hr.
  apply runs_bind in Hr as (u1 & s1 & Hm & Hr). run_inv Hm. apply runs_or_error in Hr.
  pose proof (set_keyed _ Hs p e He) as Hk. destruct (Hf p e He) as [Ht _].
  destruct (UpdateShares_set _ _ _ _ _ _ Hr Hl) as [? _]; [done| |done]. apply set_rewrite; [done|].
  unfold voting_at. cbn. by rewrite Hk, He.
Qed.

(** The bindings of a proxy go; no vote changes. *)
Lemma clear_one_set p a u s s' : runs (clear_one p a) s u s' -> set_ok s -> set_ok s' /\ same_votings s s'.
Proof.
  intros Hr Hs. unfold clear_one in Hr. apply runs_bind in Hr as (o & s1 & Hg & Hr). apply runs_gets in Hg as [-> ->].
  apply runs_bind in Hr as (u1 & s1 & Hd & Hr). run_inv Hr. unfold GetDelegator in Hd.
  assert (set_ok s1 /\ same_votings s s1) as [Hs1 Hv].
  { destruct (delegators s !! a) as [e|] eqn:He; run_inv Hd; [|done]. pose proof (set_keyed _ Hs a e He) as Hk.
    assert (voting_at s (DelegatorAddress (UnbindProxy e)) = Some (voting (UnbindProxy e))) as Hva.
    { unfold voting_at. cbn. by rewrite Hk, He. }
    split; [by apply set_rewrite|]. intros c. rewrite voting_SetDelegator. case_decide; [by subst c|done]. }
  split; [by apply (set_quiet _ _ Hs1), quiet_SetProxyBinding|]. intros c. rewrite <- (Hv c). unfold voting_at.
  by rewrite (q_delegators _ _ (quiet_SetProxyBinding p a true s1)).
Qed.
Lemma ClearProxy_set p u s s' : runs (ClearProxy p) s u s' -> set_ok s -> set_ok s' /\ same_votings s s'.
Proof.
  intros Hr Hs. unfold ClearProxy in Hr. apply runs_bind in Hr as (l & s1 & Hg & Hr). apply runs_gets in Hg as [_ ->].
  apply (runs_for_each (fun s' => set_ok s' /\ same_votings s s') _ _ _ _ _ Hr); [done|].
  intros a s1 s2 _ [Hs1 Hv1] Hx. destruct (clear_one_set _ _ _ _ _ Hx Hs1) as [Hs2 Hv2]. split; [done|]. intros c. by rewrite Hv2.
Qed.

Lemma unregProxy_set b p u s s' : runs (unregProxy b p) s u s' -> late b -> set_ok s -> funded s -> set_ok s'.
Proof.
  intros Hr Hl Hs Hf. unfold unregProxy in Hr. apply runs_bind in Hr as (o & s1 & Hg & Hr). apply runs_gets in Hg as [-> ->].
  unfold GetDelegator in Hr. destruct (delegators s !! p) as [e|] eqn:He; [|run_inv Hr]. destruct (negb _); [run_inv Hr|]. cbn zeta in Hr.
  apply runs_bind in Hr as (u1 & s1 & Hc & Hr). destruct (ClearProxy_set _ _ _ _ Hc Hs) as [Hs1 Hv].
  apply runs_bind in Hr as (u2 & s2 & Hm & Hr). run_inv Hm. apply runs_or_error in Hr.
  pose proof (set_keyed _ Hs p e He) as Hk. destruct (Hf p e He) as [Ht _].
  destruct (UpdateShares_set _ _ _ _ _ _ Hr Hl) as [? _]; [done| |done]. apply set_rewrite; [done|].
  cbn. rewrite Hk, Hv. unfold voting_at. by rewrite He.
Qed.

(** ** Votes *)

Lemma ToAddShares_fresh l s vs : vals_agree s -> GetValidatorsToAddShares l s = inl vs ->
  OperatorAddress <$> vs = l /\ forall v, v ∈ vs -> fresh v s.
Proof.
  intros Hs. revert vs. induction l as [|a l IH]; intros vs Hg; cbn in Hg.
  - injection Hg as <-. split; [done|]. by intros v ?%elem_of_nil.
  - destruct (GetValidator a s) as [v|] eqn:Hv; [|done]. destruct (GetValidatorsToAddShares l s) as [ws|]; [|done]. injection Hg as <-.
    destruct (IH ws eq_refl) as [Ha Hf]. destruct (fresh_lookup a v s Hs Hv) as [Hfr Hva]. cbn. rewrite Ha, Hva. split; [done|].
    intros w [->|Hw]%elem_of_cons; [done|by apply Hf].
Qed.

Lemma AddShares_set b a l u s s' : runs (handleMsgAddShares b a l) s u s' -> late b -> set_ok s -> funded s -> NoDup l -> set_ok s'.
Proof.
  intros Hr Hl Hs Hf Hnd. unfold handleMsgAddShares in Hr. apply runs_bind in Hr as (m & s1 & Hg & Hr). apply runs_gets in Hg as [-> ->].
  case_decide; [run_inv Hr|]. destruct (_ <? _) in Hr; [run_inv Hr|].
  apply runs_bind in Hr as (o & s1 & Hg & Hr). apply runs_gets in Hg as [-> ->]. unfold GetDelegator in Hr.
  destruct (delegators s !! a) as [e|] eqn:He; [|run_inv Hr]. destruct (Tokens e =? 0); [run_inv Hr|]. destruct (HasProxy e); [run_inv Hr|].
  apply runs_bind in Hr as ([vs y] & s1 & Hg & Hr). apply runs_gets in Hg as [Hg ->].
  destruct (LastVals_addresses _ a e s (set_vals _ Hs) (set_votes _ Hs) I He) as (vs' & Hg' & Ha & Hvs).
  rewrite Hg' in Hg. injection Hg as -> ->. destruct (vo_row _ _ _ (set_votes _ Hs) a e I He) as [Hnde Hrow].
  apply runs_bind in Hr as (u1 & s1 & Hw & Hr).
  assert (revoted a None (ValidatorAddresses e) s s1) as Hr1.
  { rewrite <- Ha. apply (revoted_loop _ a (Some (Shares e)) None vs' u1) in Hw; [done| |apply Hs|by rewrite Ha|done].
    intros v u2 s2 s3 Hs2 Hfv Ho Hx. by apply (withdrawShares_votes a v (Shares e) u2). }
  assert (forall c, shares s1 !! (c, a) = None) as Hnone.
  { intros c. rewrite (rv_shares _ _ _ _ _ Hr1). cbn [fst snd]. case_decide as Hc; [done|].
    apply eq_None_not_Some. intros [x Hx]. apply (row_elsewhere a e s Hs He c x); [naive_solver|done]. }
  apply runs_bind in Hr as (r & s2 & Hg & Hr). apply runs_gets in Hg as [-> ->].
  destruct (GetValidatorsToAddShares l s1) as [ws|err] eqn:Hto; [|run_inv Hr]. destruct (validateSharesAdding ws); [run_inv Hr|].
  destruct (ToAddShares_fresh _ _ _ (rv_vals _ _ _ _ _ Hr1) Hto) as [Hwl Hwf]. cbn zeta in Hr.
  apply runs_bind in Hr as (x & s2 & Hadd & Hr). run_inv Hr. unfold AddSharesToValidators in Hadd.
  destruct (calculateWeight _ _) as [z|] eqn:Hz; [|run_inv Hadd]. destruct (Hf a e He) as [Ht Htot].
  assert (0 < z) as Hpos by (apply (weight_pos b _ z Hl) in Hz; [done|lia]). apply runs_bind in Hadd as (u2 & s3 & Hadd & Hret). apply runs_ret in Hret as [-> ->].
  assert (revoted a (Some z) l s1 s3) as Hr2.
  { rewrite <- Hwl. apply (revoted_loop _ a None (Some z) ws u2) in Hadd; [done| |apply Hr1|by rewrite Hwl|].
    - intros v u3 s4 s5 Hs4 Hfv Ho Hx. by apply (addShares_votes a v z u3).
    - intros v Hv. split; [by apply Hwf|apply Hnone]. }
  pose proof (set_keyed _ Hs a e He) as Hk. set (e' := e <| ValidatorAddresses := getValsAddrs ws |> <| Shares := z |>).
  assert (ValidatorAddresses e' = l) as Hl' by exact Hwl. split.
  - apply (vals_agree_same s3); [apply Hr2|by split].
  - apply (votes_ok_close a).
    + apply (votes_ok_sub (fun _ => True) _ (delegators s) _ (shares s)); [apply Hs|done|..].
      * intros c c' Hc. cbn. rewrite (rv_shares _ _ _ _ _ Hr2), decide_False by (by intros []).
        rewrite (rv_shares _ _ _ _ _ Hr1), decide_False; [done|by intros []].
      * intros c Hc. cbn. by rewrite Hk, lookup_insert_ne, (rv_delegators _ _ _ _ _ Hr2), (rv_delegators _ _ _ _ _ Hr1).
    + change (delegators (SetDelegator e' s3)) with (<[DelegatorAddress e := e']> (delegators s3)).
      change (shares (SetDelegator e' s3)) with (shares s3). rewrite Hk, lookup_insert_eq, Hl'. split; [done|].
      intros c y. rewrite (rv_shares _ _ _ _ _ Hr2). cbn [fst snd].
      case_decide as Hc; [naive_solver|]. rewrite Hnone. naive_solver.
  - change (lastTotalPower s3 = last_total s3). unfold last_total.
    rewrite (rv_total _ _ _ _ _ Hr2), (rv_last _ _ _ _ _ Hr2), (rv_total _ _ _ _ _ Hr1), (rv_last _ _ _ _ _ Hr1). apply Hs.
  - intros c f. cbn. rewrite (rv_delegators _ _ _ _ _ Hr2), (rv_delegators _ _ _ _ _ Hr1), lookup_insert. case_decide; [naive_solver|apply Hs].
Qed.

(** ** Messages about validators *)

Lemma EditValidator_set a desc u s s' : runs (handleMsgEditValidator a desc) s u s' -> set_ok s -> set_ok s'.
Proof.
  intros Hr Hs. unfold handleMsgEditValidator in Hr. apply runs_bind in Hr as (o & s1 & Hg & Hr). apply runs_gets in Hg as [-> ->].
  destruct (GetValidator a s) as [v|] eqn:Hv; [|run_inv Hr]. destruct (UpdateDescription _ _) as [desc' [err|]]; [run_inv Hr|]. run_inv Hr.
  destruct (va_vals _ (set_vals _ Hs) a v Hv) as (Ha & Hok & Ht). destruct (set_vals _ Hs) as [].
  split; [|apply Hs..]. split; cbn; rewrite ?Ha.
  - by apply vals_ok_insert.
  - by apply (cons_same _ _ _ v).
  - apply (index_same _ _ _ v); [done|done|by apply key_same|done].
  - apply last_insert; [done|]. cbn. rewrite (va_last0 a). by apply (lookup_exists (fun w => Status w = Bonded)).
  - by apply (queue_same _ _ _ v).
  - by apply (shares_same _ _ _ v).
  - apply (abandoned_keep s); [apply Hs| |done]. cbn. by apply (abandoned_bonded s), Hv; apply Hs.
Qed.

Lemma CreateValidator_set m u s s' : runs (handleMsgCreateValidator PubKey_Type PubKeyTypes m) s u s' -> set_ok s ->
  address_ok (cv_ValidatorAddress m) -> set_ok s'.
Proof.
  intros Hr Hs Hok. unfold handleMsgCreateValidator in Hr. set (a := cv_ValidatorAddress m) in *.
  apply runs_bind in Hr as (o & s1 & Hg & Hr). apply runs_gets in Hg as [-> ->]. case_bool_decide as Hv; [run_inv Hr|].
  apply eq_None_not_Some in Hv.
  apply runs_bind in Hr as (o & s1 & Hg & Hr). apply runs_gets in Hg as [-> ->]. case_bool_decide as Hc; [run_inv Hr|].
  destruct (negb _) in Hr; [run_inv Hr|]. destruct (_.2) in Hr; [run_inv Hr|]. destruct (if PubKeyTypes then _ else _); [run_inv Hr|].
  cbn zeta in Hr. destruct (SetInitialCommission _ _) as [v0 [err|]] eqn:Hv0; [run_inv Hr|].
  assert (OperatorAddress v0 = a /\ ConsPubKey v0 = cv_PubKey m /\ Jailed v0 = false /\ Status v0 = Unbonded /\
    val_Tokens v0 = 0 /\ DelegatorShares v0 = 0) as (Ha & Hk & Hj & Hst & Ht & Hd).
  { unfold SetInitialCommission in Hv0. destruct (Validate _); [done|]. by injection Hv0 as <-. }
  do 3 (apply runs_bind in Hr as (? & ? & Hm & Hr); run_inv Hm).
  apply runs_bind in Hr as (v1 & s3 & Hadd & Hr). apply quiet_hook in Hr. apply (set_quiet s3); [|done]. clear Hr.
  unfold AddSharesAsMinSelfDelegation in Hadd. apply runs_bind in Hadd as (u1 & s2 & Hm & Hadd). apply quiet_DelegateCoins in Hm as [Hsv Hde Htp].
  unfold addSharesAsDefaultMinSelfDelegation in Hadd. do 3 (apply runs_bind in Hadd as (? & ? & Hm & Hadd); run_inv Hm).
  apply runs_ret in Hadd as [-> ->]. rewrite reindex_eq. set (v1 := v0 <| DelegatorShares := _ |>).
  destruct (set_vals _ Hs) as []. unfold GetValidator in Hv.
  assert (byConsAddr s !! ConsAddress v0 = None) as Hcn.
  { apply eq_None_not_Some. intros [b Hb]. apply Hc. unfold GetValidatorByConsAddr. unfold ConsAddress in Hb. rewrite Hk in Hb. rewrite Hb. cbn.
    apply va_cons0 in Hb as (w & Hw & _). by exists w. }
  assert (index_ok (<[a := v1]> (validators s)) (reindexed v0 v1 (powerIndex s))) as Hi.
  { apply index_reindexed; [done|done|done|done| |done]. intros w Hw. congruence. }
  assert (powerIndex s !! GetValidatorsByPowerIndexKey v0 = None) as Hfree.
  { apply eq_None_not_Some. intros [b Hb]. assert (b = a) as -> by by apply (index_other (validators s) (powerIndex s) a v0).
    apply va_index0 in Hb as (w & Hw & _). congruence. }
  assert (vals_agree (s <| validators := <[a := v1]> (validators s) |> <| byConsAddr := <[ConsAddress v1 := a]> (byConsAddr s) |>
    <| powerIndex := <[GetValidatorsByPowerIndexKey v1 := a]> (powerIndex s) |>)) as Hag.
  { split; cbn -[v1].
    - by apply vals_ok_insert.
    - by apply cons_new.
    - unfold reindexed in Hi. change (Jailed v1) with (Jailed v0) in Hi. change (OperatorAddress v1) with (OperatorAddress v0) in Hi.
      by rewrite Hj, Ha, delete_id in Hi.
    - apply last_insert; [done|]. change (Status v1) with (Status v0). rewrite Hst, (va_last0 a).
      split; [intros (w & Hw & _); congruence|done].
    - apply queue_new; [done|done|]. change (Status v1) with (Status v0). by rewrite Hst.
    - apply shares_new; [done|done|]. unfold own_shares. change (Jailed v1) with (Jailed v0). rewrite Hj, andb_false_r.
      cbn. by rewrite Hd.
    - intros b Hb. apply insert_exists. case_decide as Hab; [|by apply va_abandoned0].
      subst b. destruct (va_abandoned0 a Hb) as (w & Hw & _). congruence. }
  destruct Hsv as [E1 E2 E3 E4 E5 E6 E7]. split.
  - apply (vals_agree_same _ _ Hag). split; [| | |exact E4|exact E5|exact E6|exact E7].
    + transitivity (<[OperatorAddress v0 := v1]> (validators s2)); [done|]. rewrite E1, <- Ha. apply insert_insert_eq.
    + transitivity (byConsAddr s2); [done|]. by rewrite E2, <- Ha.
    + transitivity (reindexed v0 v1 (powerIndex s2)); [done|]. rewrite E3. unfold reindexed. change (Jailed v1) with (Jailed v0).
      rewrite Hj, <- Ha. apply (f_equal (insert _ _)). by apply delete_insert_id.
  - apply (votes_ok_sub (fun _ => True) _ (delegators s) _ (shares s)); [apply Hs|done|..].
    + intros c c' _. change (shares s2 !! (c, c') = shares s !! (c, c')). by rewrite E6.
    + intros c _. change (delegators s2 !! c = delegators s !! c). by rewrite Hde.
  - change (lastTotalPower s2 = msum (fun _ (x : Z) => x) (lastPowers s2)). rewrite Htp, E4. apply Hs.
  - intros c e. change (delegators s2 !! c = Some e -> DelegatorAddress e = c). rewrite Hde. apply Hs.
Qed.

Lemma AppendAbandoned_runs v u s s' : runs (AppendAbandonedValidatorAddrs (ConsAddress v)) s u s' -> vals_agree s -> fresh v s ->
  s' = s <| abandoned := abandoned s ++ [OperatorAddress v] |>.
Proof.
  intros Hr Hs Hf. unfold AppendAbandonedValidatorAddrs in Hr. apply runs_bind in Hr as (w & s1 & Hg & Hr). run_inv Hr.
  unfold mustGetValidatorByConsAddr in Hg. apply runs_bind in Hg as (o & s2 & Hg1 & Hg). apply runs_gets in Hg1 as [-> ->].
  assert (GetValidatorByConsAddr (ConsAddress v) s = Some v) as Hv.
  { unfold GetValidatorByConsAddr. assert (byConsAddr s !! ConsAddress v = Some (OperatorAddress v)) as -> by (apply (va_cons _ Hs); by exists v).
    exact Hf. }
  rewrite Hv in Hg. by run_inv Hg.
Qed.

(** A validator that leaves the tables: dropped, with nothing of its own left. *)
Lemma set_dropped s a v : set_ok s -> validators s !! a = Some v -> Status v = Unbonded -> votes_on a (shares s) = 0 ->
  set_ok (dropped v s).
Proof.
  intros Hs Hv Hst Hz. split; [|apply Hs..].
  apply (vals_agree_same (dropped v (s <| shares := shares s |>))); [|by split].
  apply (agree_drop s a); [apply Hs|done|done|done|]. intros [c d] x Hx. split; [done|]. cbn. intros ->.
  by rewrite (votes_on_zero _ _ a (va_shares _ (set_vals _ Hs)) Hz) in Hx.
Qed.

Lemma DestroyValidator_set b a u s s' : runs (handleMsgDestroyValidator b a) s u s' -> set_ok s -> set_ok s'.
Proof.
  intros Hr Hs. unfold handleMsgDestroyValidator in Hr. apply runs_bind in Hr as (o & s1 & Hg & Hr). apply runs_gets in Hg as [-> ->].
  destruct (GetValidator a s) as [v|] eqn:Hv; [|run_inv Hr]. apply runs_bind in Hr as (t & s1 & Hd & Hr). run_inv Hr.
  destruct (fresh_lookup a v s (set_vals _ Hs) Hv) as [Hf Ha]. unfold WithdrawMinSelfDelegation in Hd.
  destruct (Z.eqb_spec (MinSelfDelegation v) 0) as [?|Hm]; [run_inv Hd|]. cbn zeta in Hd. destruct (_ <? 0) in Hd; [run_inv Hd|].
  apply runs_bind in Hd as (u1 & s2 & Hb%quiet_bondedToNot & Hd). apply runs_bind in Hd as (ct & s3 & Hg & Hd). apply runs_gets in Hg as [-> ->].
  apply runs_bind in Hd as (u2 & s3 & Hq%quiet_enqueue & Hd). set (v1 := v <| MinSelfDelegation := 0 |> <| Jailed := true |>) in *.
  apply runs_bind in Hd as (u3 & s4 & Hh%quiet_hook & Hd). pose proof (set_quiet _ _ (set_quiet _ _ (set_quiet _ _ Hs Hb) Hq) Hh) as Hs4.
  assert (validators s4 = validators s) as E4.
  { by rewrite (sv_vals _ _ (q_vals _ _ Hh)), (sv_vals _ _ (q_vals _ _ Hq)), (sv_vals _ _ (q_vals _ _ Hb)). }
  assert (fresh v s4) as Hf4 by (unfold fresh; by rewrite E4). clear Hb Hq Hh Hs Hf Hv E4.
  apply runs_bind in Hd as (u4 & s5 & Happ & Hd). apply runs_when in Happ.
  assert (set_ok s5 /\ validators s5 = validators s4) as [Hs5 E5].
  { destruct (IsBonded v1) eqn:Hbd; [|by subst s5]. change (ConsAddress v1) with (ConsAddress v) in Happ.
    apply AppendAbandoned_runs in Happ as ->; [|apply Hs4|done]. split; [|done]. destruct Hs4 as [[] ? ? ?]. split; [|done..].
    split; try done. intros c Hc. cbn in Hc. apply elem_of_app in Hc as [Hc| ->%list_elem_of_singleton]; [by apply va_abandoned0|].
    exists v. split; [done|]. by apply bool_decide_eq_true_1 in Hbd. }
  assert (fresh v s5) as Hf5 by (unfold fresh; by rewrite E5). clear Happ Hs4 Hf4 E5. set (rest := DelegatorShares v - _) in *.
  assert (own_shares v = OneDec) as Hown by (unfold own_shares; by rewrite (proj2 (Z.eqb_neq _ _) Hm)).
  pose proof (so_total _ _ (va_shares _ (set_vals _ Hs5)) _ _ Hf5) as Htot. rewrite Hown in Htot.
  destruct (_ && _) eqn:Hc in Hd.
  - apply andb_prop in Hc as [Hst%bool_decide_eq_true_1 Hz%Z.eqb_eq]. apply runs_bind in Hd as (u5 & s6 & Hrm & Hd). run_inv Hd.
    revert Hrm. apply (ends_runs hook_panic _ _ _ _ (fun _ s1 => set_ok s1)).
    apply (RemoveValidator_ends (OperatorAddress v) v); [exact Hf5|done|exact Hst|by apply (va_vals _ (set_vals _ Hs5) _ _ Hf5)|].
    intros wd. apply (set_frame (dropped v s5)); [|by split|done|done].
    apply (set_dropped s5 (OperatorAddress v)); [done|exact Hf5|exact Hst|]. unfold rest, getSharesFromDefaultMinSelfDelegation in Hz. lia.
  - apply runs_bind in Hd as (u5 & s6 & Hm1 & Hd). run_inv Hm1. apply runs_bind in Hd as (u6 & s6 & Hm1 & Hd). run_inv Hm1. run_inv Hd.
    set (v2 := v1 <| DelegatorShares := rest |>). pose proof (reindex_eq v v2 s5) as Hre.
    change (SetValidatorByPowerIndex v2 (SetValidator v2 (DeleteValidatorByPowerIndex v s5)))
      with (SetValidator v2 (DeleteValidatorByPowerIndex v s5)) in Hre.
    assert (DeleteValidatorByPowerIndex v1 s5 = DeleteValidatorByPowerIndex v s5) as ->.
    { unfold DeleteValidatorByPowerIndex. by rewrite (key_same v1 v). }
    rewrite Hre. split; [|apply Hs5..].
    apply (vals_agree_same (reindex v v2 (s5 <| shares := shares s5 |>))); [|by split].
    apply (agree_reindex s5 (OperatorAddress v)); [apply Hs5|exact Hf5|by split|by split|].
    apply (shares_same _ _ _ v); [apply Hs5|exact Hf5|]. rewrite Hown. change (own_shares v2) with 0. cbn. unfold rest, getSharesFromDefaultMinSelfDelegation. lia.
Qed.

(** ** All messages *)

(** What [ValidateBasic] and the encoding of addresses ensure. *)
Definition msg_fine (msg : stk_msg) : Prop :=
  match msg with
  | CreateValidator m => 0 <= (cv_MinSelfDelegation m).2 /\ address_ok (cv_ValidatorAddress m)
  | AddShares _ l => NoDup l
  | _ => True
  end.
Lemma msg_fine_ok msg : msg_fine msg -> msg_ok msg.
Proof. by destruct msg; intros Hm; try destruct Hm. Qed.

End Votes.
End StakingVotes.
