(* ===== verification/StakingElect.v ===== *)
(** The end of a block never gets stuck, and elects whom it should.

    Every step of the validator set's update finds the validators it asks
    for in the states it expects: only a hook of another module can panic.
    The election is computed in closed form, and the updates sent to the
    consensus engine turn the old set of powers into the new one. *)
From S2P Require Import Prelude.
From S2P Require Import Interfaces.
From S2P Require Import Sums.
From S2P Require Import Effects.
From S2P Require Import StakingTypes.
From S2P Require Import StakingKeys.
From S2P Require Import StakingState.
From S2P Require Import StakingKeeper.
From S2P Require Import StakingVals.
From S2P Require Import StakingSet.
From S2P Require Import StakingVotes.
From stdpp Require Import sorting.
Import StakingTypes StakingKeys StakingState StakingKeeper StakingVals StakingSet StakingVotes.
Local Open Scope Z_scope.

Module StakingElect.
Section Elect.
Context {W : Type} `{SupplyKeeper W, StakingHooks W, StakingSdk, !StakingPowerLaws, SdkConfig}.
Abbreviation stk := (Stk W).
Abbreviation E := (eff (Stk W) stk_error).
Abbreviation key := GetValidatorsByPowerIndexKey.
Abbreviation addr := OperatorAddress.
Abbreviation ends := (ends (hook_panic (W := W))).
Implicit Types (s : stk) (v w : Validator) (a c : Address) (b : Block).

(** ** Steps of one validator *)

(** While the set changes nobody is left to be kicked out. *)
Definition settled s : Prop := vals_agree (s <| abandoned := [] |>).

Lemma settled_agree s : vals_agree s -> settled s.
Proof. intros []. split; try done. by intros a ?%elem_of_nil. Qed.
Lemma settled_world wd s : settled s -> settled (in_world wd s).
Proof. intros Hs. apply (vals_agree_same _ _ Hs). by split. Qed.
Lemma settled_fresh a v s : settled s -> validators s !! a = Some v -> fresh v s /\ addr v = a /\ address_ok a /\ val_Tokens v = 0.
Proof.
  intros Hs Hv. destruct (va_vals _ Hs a v Hv) as (Ha & Hok & Ht). unfold fresh. by rewrite Ha.
Qed.

Lemma DeleteValidatorQueue_eq v s : DeleteValidatorQueue v s =
  let t := UnbondingCompletionTime v in
  s <| validatorQueue := put_slice t (filter (fun c => c ≠ addr v) (slice (validatorQueue s) t)) (validatorQueue s) |>.
Proof. unfold DeleteValidatorQueue, put_slice, GetValidatorQueueTimeSlice, slice. by case_decide. Qed.

(** [bondValidator], up to the hook, and with the new power. *)
Definition bonded_v v : Validator := UpdateStatus v Bonded.
Definition bonded_state v s : stk := DeleteValidatorQueue (bonded_v v) (reindex v (bonded_v v) s).
Lemma bondValidator_ends v s (Q : Validator -> stk -> Prop) :
  (forall wd, Q (bonded_v v) (in_world wd (bonded_state v s))) -> ends (bondValidator v) s Q.
Proof.
  intros HQ. unfold bondValidator. do 4 apply ends_modify. fold (bonded_v v). rewrite reindex_eq. fold (bonded_state v s).
  apply ends_bind, ends_hook; [intros wd p; apply bonded_panics|]. intros wd. apply ends_ret, HQ.
Qed.
Lemma settled_bond v p s : settled s -> fresh v s -> Status v ≠ Bonded -> settled (SetLastValidatorPower (addr v) p (bonded_state v s)).
Proof.
  intros Hs Hf Hst. destruct (agree_index _ (addr v) v (bonded_v v) Hs Hf) as (_ & Hok & Hvals & Hcons & Hidx); [by split|].
  unfold bonded_state. rewrite DeleteValidatorQueue_eq. destruct Hs as [_ _ _ Hl Hq Hsh _].
  split; cbn in *; [done|done|done| | | |by intros c ?%elem_of_nil].
  - by apply last_bond.
  - apply (queue_leave _ _ (addr v) v (bonded_v v)); [done|done|done|]. by intros t [].
  - by apply (shares_same _ _ _ v).
Qed.

(** [beginUnbondingValidator] in the same way. *)
Definition unbonding_v b (time : Z) v : Validator :=
  (UpdateStatus v Unbonding) <| UnbondingCompletionTime := BlockTime b + time |> <| UnbondingHeight := Height b |>.
Definition unbonding_time b s : Z := p_UnbondingTime (GetParams b s).
Definition unbonding_state b v s : stk :=
  let v' := unbonding_v b (unbonding_time b s) v in InsertValidatorQueue v' (reindex v v' s).
Lemma bondedToUnbonding_ends b v s (Q : Validator -> stk -> Prop) : Status v = Bonded ->
  (forall wd, Q (unbonding_v b (unbonding_time b s) v) (in_world wd (unbonding_state b v s))) -> ends (bondedToUnbonding b v) s Q.
Proof.
  intros Hst HQ. unfold bondedToUnbonding, beginUnbondingValidator, IsBonded. rewrite bool_decide_eq_true_2 by done. cbn [negb].
  apply ends_gets, ends_modify. do 3 apply ends_modify. fold (unbonding_time b s) (unbonding_v b (unbonding_time b s) v).
  rewrite reindex_eq. fold (unbonding_state b v s).
  apply ends_bind, ends_hook; [intros wd p; apply unbonding_panics|]. intros wd. apply ends_ret, HQ.
Qed.
Lemma settled_unbond b v s : settled s -> fresh v s -> Status v = Bonded ->
  settled (DeleteLastValidatorPower (addr v) (unbonding_state b v s)).
Proof.
  intros Hs Hf Hst. set (v' := unbonding_v b (unbonding_time b s) v).
  destruct (agree_index _ (addr v) v v' Hs Hf) as (_ & Hok & Hvals & Hcons & Hidx); [by split|].
  destruct Hs as [_ _ _ Hl Hq Hsh _]. split; cbn -[unbonding_time] in *; [done|done|done| | | |by intros c ?%elem_of_nil].
  - by apply last_unbond.
  - apply (queue_enter _ _ (addr v) v v'); [done|done|by rewrite Hst|done].
  - by apply (shares_same _ _ _ v).
Qed.

Lemma mustGet_ends a v s (Q : Validator -> stk -> Prop) : validators s !! a = Some v -> Q v s -> ends (mustGetValidator a) s Q.
Proof. intros Hv HQ. unfold mustGetValidator. apply ends_gets. unfold GetValidator. by rewrite Hv. Qed.

(** ** The consensus engine's view *)

(** The powers the engine knows, by consensus key. *)
Definition engine_is (m : gmap bytes Z) s : Prop := forall k p, m !! k = Some p <->
  exists a v, validators s !! a = Some v /\ ConsPubKey v = k /\ lastPowers s !! a = Some p.
(** A power of zero removes a validator. *)
Definition apply_update (m : gmap bytes Z) (u : ValidatorUpdate) : gmap bytes Z :=
  if up_Power u =? 0 then delete (up_PubKey u) m else <[up_PubKey u := up_Power u]> m.
Definition apply_updates (m : gmap bytes Z) (l : list ValidatorUpdate) : gmap bytes Z := fold_left apply_update l m.

Lemma pubkey_unique s a c v w : settled s -> validators s !! a = Some v -> validators s !! c = Some w -> ConsPubKey v = ConsPubKey w -> a = c.
Proof.
  intros Hs Ha Hc Hk. assert (byConsAddr s !! PubKey_Address (ConsPubKey v) = Some a) as H1' by (apply (va_cons _ Hs); by exists v).
  assert (byConsAddr s !! PubKey_Address (ConsPubKey v) = Some c) as H2' by (apply (va_cons _ Hs); exists w; by rewrite Hk). congruence.
Qed.

(** The power of one validator becomes [o]. *)
Lemma engine_step m s s1 v v' o : settled s -> fresh v s -> ConsPubKey v' = ConsPubKey v ->
  validators s1 = <[addr v := v']> (validators s) -> lastPowers s1 = partial_alter (fun _ => o) (addr v) (lastPowers s) ->
  (forall p, o = Some p -> p ≠ 0) -> engine_is m s ->
  engine_is (apply_update m (mkUpdate (ConsPubKey v) (default 0 o))) s1.
Proof.
  intros Hs Hf Hk Hv Hl Ho He k p. unfold apply_update. cbn [up_Power up_PubKey].
  assert ((if default 0 o =? 0 then delete (ConsPubKey v) m else <[ConsPubKey v := default 0 o]> m) = partial_alter (fun _ => o) (ConsPubKey v) m) as ->.
  { destruct o as [q|]; cbn [default from_option id]; [|done]. by rewrite (proj2 (Z.eqb_neq _ _) (Ho q eq_refl)). }
  rewrite lookup_partial_alter, Hl, Hv. case_decide as Hkk.
  - subst k. split.
    + intros ->. exists (addr v), v'. rewrite lookup_insert_eq, lookup_partial_alter, decide_True; done.
    + intros (a & w & Hw & Hwk & Hp). rewrite lookup_partial_alter in Hp.
      destruct (decide (addr v = a)) as [Ha|Ha]; [done|]. rewrite lookup_insert_ne in Hw by done.
      destruct Ha. by apply (pubkey_unique s _ _ v w).
  - rewrite (He k p). split; intros (a & w & Hw & Hwk & Hp); exists a; (destruct (decide (addr v = a)) as [<-|Hne];
      [|exists w; rewrite ?lookup_insert_ne, ?lookup_partial_alter_ne in * by done; done]).
    + assert (w = v) by (unfold fresh in Hf; congruence). congruence.
    + rewrite lookup_insert_eq in Hw. congruence.
Qed.

(** ** The election *)

Abbreviation pow := PotentialConsensusPowerByShares.

(** The tables the changes of the validator set leave alone. *)
Record apart s s1 : Prop := {
  ap_delegators : delegators s1 = delegators s;
  ap_shares : shares s1 = shares s;
  ap_params : stk_params s1 = stk_params s;
  ap_total : lastTotalPower s1 = lastTotalPower s;
  ap_abandoned : abandoned s1 = abandoned s;
}.
Lemma apart_refl s : apart s s.
Proof. by split. Qed.
Lemma apart_trans s s1 s2 : apart s s1 -> apart s1 s2 -> apart s s2.
Proof. intros [] []. split; congruence. Qed.

(** [v] has a seat with its power. *)
Record seated v s s1 : Prop := {
  se_settled : settled s1;
  se_apart : apart s s1;
  se_vals : validators s1 = <[addr v := bonded_v v]> (validators s);
  se_last : lastPowers s1 = <[addr v := pow v]> (lastPowers s);
}.

Lemma bonded_id v : Status v = Bonded -> bonded_v v = v.
Proof. intros Hs. destruct v. cbn in Hs. by subst. Qed.
Lemma bonded_power v : ConsensusPowerByShares (bonded_v v) = pow v.
Proof. done. Qed.

Definition seat_update (last : option Z) v : list ValidatorUpdate :=
  if decide (last = Some (pow v)) then [] else [mkUpdate (ConsPubKey v) (pow v)].

Lemma settled_power s a v p : settled s -> validators s !! a = Some v -> Status v = Bonded -> settled (SetLastValidatorPower a p s).
Proof.
  intros Hs Hv Hst. destruct Hs as [? ? ? Hl ? ? ?]. split; try done. cbn in *. by apply (last_set _ _ _ v).
Qed.

Lemma unbonded_no_power s v : settled s -> fresh v s -> Status v ≠ Bonded -> lastPowers s !! addr v = None.
Proof.
  intros Hs Hf Hst. apply eq_None_not_Some. intros Hl. apply (va_last _ Hs) in Hl as (w & Hw & Hb). cbn in Hw.
  unfold fresh in Hf. congruence.
Qed.

(** A candidate that was not bonded takes its seat. *)
Lemma bond_seated v s wd : settled s -> fresh v s -> Status v ≠ Bonded ->
  seated v s (SetLastValidatorPower (addr v) (pow v) (in_world wd (bonded_state v s))).
Proof.
  intros Hs Hf Hst. split.
  - change (settled (in_world wd (SetLastValidatorPower (addr v) (pow v) (bonded_state v s)))). by apply settled_world, settled_bond.
  - unfold bonded_state. rewrite DeleteValidatorQueue_eq. by split.
  - unfold bonded_state. by rewrite DeleteValidatorQueue_eq.
  - unfold bonded_state. by rewrite DeleteValidatorQueue_eq.
Qed.

Lemma elect_ends v u s (Q : set_update -> stk -> Prop) : settled s -> fresh v s -> su_last u !! addr v = lastPowers s !! addr v ->
  (forall s1, seated v s s1 -> Q (mkSetUpdate (delete (addr v) (su_last u)) (su_updates u ++ seat_update (lastPowers s !! addr v) v)
     (su_total u + pow v)) s1) ->
  ends (elect (addr v) v u) s Q.
Proof.
  intros Hs Hf Hu HQ. unfold elect. destruct (decide (Status v = Bonded)) as [Hst|Hst].
  - assert (promote v = mret v) as -> by (unfold promote; by rewrite Hst). apply ends_bind, ends_ret. rewrite Hu.
    assert (ConsensusPowerByShares v = pow v) as -> by (by rewrite <- (bonded_id v Hst) at 1).
    unfold seat_update in HQ. apply ends_bind. case_bool_decide as Hp; [rewrite decide_True in HQ by done|rewrite decide_False in HQ by done].
    + do 2 apply ends_ret. rewrite app_nil_r in HQ. apply HQ. split; [done|apply apart_refl|..].
      * by rewrite bonded_id, insert_id.
      * by rewrite insert_id.
    + apply ends_modify, ends_ret, ends_ret.
      assert (ABCIValidatorUpdateByShares v = mkUpdate (ConsPubKey v) (pow v)) as ->.
      { unfold ABCIValidatorUpdateByShares. by rewrite <- (bonded_id v Hst) at 2. }
      apply HQ. split; [by apply (settled_power s _ v)|by split| |done]. by rewrite bonded_id, insert_id.
  - pose proof (unbonded_no_power s v Hs Hf Hst) as Hn. rewrite Hn in Hu, HQ.
    assert (forall Q, ends (bondValidator v) s Q -> ends (promote v) s Q) as Hp.
    { intros Q' HQ'. unfold promote, unbondedToBonded, unbondingToBonded, IsUnbonded, IsUnbonding.
      destruct (Status v) eqn:Hsv; [..|done]; by rewrite bool_decide_eq_true_2. }
    apply ends_bind, Hp, bondValidator_ends. intros wd. rewrite bonded_power, Hu. rewrite bool_decide_eq_false_2 by done.
    apply ends_bind, ends_modify, ends_ret, ends_ret.
    change (ABCIValidatorUpdateByShares (bonded_v v)) with (mkUpdate (ConsPubKey v) (pow v)).
    unfold seat_update in HQ. rewrite decide_False in HQ by done. apply HQ. by apply bond_seated.
Qed.

Lemma engine_seated m s s1 v : settled s -> fresh v s -> pow v ≠ 0 -> seated v s s1 -> engine_is m s ->
  engine_is (apply_updates m (seat_update (lastPowers s !! addr v) v)) s1.
Proof.
  intros Hs Hf Hp [_ _ Hv Hl] He.
  pose proof (engine_step m s s1 v (bonded_v v) (Some (pow v)) Hs Hf eq_refl Hv Hl) as Hst. unfold seat_update.
  assert (forall p, Some (pow v) = Some p -> p ≠ 0) as Hnz by congruence. specialize (Hst Hnz He).
  case_decide as Hlast; [|exact Hst]. cbn. unfold apply_update in Hst. cbn in Hst. rewrite (proj2 (Z.eqb_neq _ _) Hp) in Hst.
  rewrite insert_id in Hst; [done|]. apply He. by exists (addr v), v.
Qed.

(** Who may be elected, and the candidates in the order of the index. *)
Definition eligible v : bool := negb (pow v =? 0) && negb (MinSelfDelegation v <? NewDec 1000).
Definition listed s (l : list (bytes * Address)) : list Validator := omap (fun '(_, a) => validators s !! a) l.
Definition candidates s : list Validator := listed s (ValidatorsPowerStoreIterator s).
(** The strongest eligible validators. *)
Definition elected s (n : nat) : list Validator := take n (filter (fun v => eligible v = true) (candidates s)).

(** The election under way: [done] have their seats. *)
Record electing s0 (done : list Validator) (u : set_update) s : Prop := {
  el_settled : settled s;
  el_apart : apart s0 s;
  el_vals a : validators s !! a = (if decide (a ∈ addr <$> done) then bonded_v <$> validators s0 !! a else validators s0 !! a);
  el_last a : lastPowers s !! a = (if decide (a ∈ addr <$> done) then pow <$> validators s0 !! a else lastPowers s0 !! a);
  el_left a : su_last u !! a = if decide (a ∈ addr <$> done) then None else lastPowers s0 !! a;
  el_updates : su_updates u = v ← done; seat_update (lastPowers s0 !! addr v) v;
  el_sum : last_total s = su_total u + msum (fun _ (x : Z) => x) (su_last u);
  el_engine m : engine_is m s0 -> engine_is (apply_updates m (su_updates u)) s;
}.

Lemma bind_snoc {A B} (l : list A) x (f : A -> list B) : (y ← l ++ [x]; f y) = (y ← l; f y) ++ f x.
Proof. rewrite bind_app. cbn. by rewrite app_nil_r. Qed.

Lemma electing_step s0 done u v s s1 : electing s0 done u s -> validators s0 !! addr v = Some v -> addr v ∉ addr <$> done ->
  pow v ≠ 0 -> seated v s s1 ->
  electing s0 (done ++ [v]) (mkSetUpdate (delete (addr v) (su_last u)) (su_updates u ++ seat_update (lastPowers s !! addr v) v)
    (su_total u + pow v)) s1.
Proof.
  intros He Hv Hn Hp Hse.
  assert (fresh v s) as Hf by (unfold fresh; by rewrite (el_vals _ _ _ _ He), decide_False).
  assert (lastPowers s !! addr v = lastPowers s0 !! addr v) as Hl by (by rewrite (el_last _ _ _ _ He), decide_False).
  assert (forall a, a ∈ addr <$> done ++ [v] <-> addr v = a \/ a ∈ addr <$> done) as Hin.
  { intros a. rewrite fmap_app, elem_of_app. cbn. rewrite list_elem_of_singleton. naive_solver. }
  split; cbn [su_last su_updates su_total].
  - apply Hse.
  - apply (apart_trans _ s); [apply He|apply Hse].
  - intros a. rewrite (se_vals _ _ _ Hse), lookup_insert, (el_vals _ _ _ _ He). specialize (Hin a).
    repeat case_decide; subst; try tauto; by rewrite Hv.
  - intros a. rewrite (se_last _ _ _ Hse), lookup_insert, (el_last _ _ _ _ He). specialize (Hin a).
    repeat case_decide; subst; try tauto; by rewrite Hv.
  - intros a. rewrite lookup_delete, (el_left _ _ _ _ He). specialize (Hin a). repeat case_decide; subst; tauto.
  - by rewrite bind_snoc, Hl, (el_updates _ _ _ _ He).
  - unfold last_total. rewrite (se_last _ _ _ Hse), msum_insert, msum_delete_default. fold (last_total s).
    rewrite (el_sum _ _ _ _ He), (el_left _ _ _ _ He), decide_False, Hl by done. lia.
  - intros m Hm. unfold apply_updates. rewrite fold_left_app. apply (engine_seated _ s); [apply He|done|done|done|].
    by apply (el_engine _ _ _ _ He).
Qed.

(** Once a candidate has no power, nobody after it has. *)
Definition zeros_last (l : list Validator) : Prop := StronglySorted (fun v w => pow v = 0 -> pow w = 0) l.

Lemma zeros_ineligible v l : zeros_last (v :: l) -> pow v = 0 -> filter (fun w => eligible w = true) (v :: l) = [].
Proof.
  intros Hz Hp. apply StronglySorted_inv in Hz as [_ Hz]. apply elem_of_nil_inv. intros w [He Hw]%list_elem_of_filter.
  unfold eligible in He. assert (pow w = 0) as Hpw; [|by rewrite Hpw in He]. apply elem_of_cons in Hw as [->|Hw]; [done|]. rewrite Forall_forall in Hz. by apply Hz.
Qed.

Lemma elect_loop_ends s0 l : forall room done u s (Q : set_update -> stk -> Prop), electing s0 done u s ->
  (forall k a, (k, a) ∈ l -> exists v, validators s0 !! a = Some v /\ addr v = a /\ Jailed v = false /\ a ∉ addr <$> done) ->
  NoDup l.*2 -> zeros_last (listed s0 l) ->
  (forall u' s', electing s0 (done ++ take room (filter (fun v => eligible v = true) (listed s0 l))) u' s' -> Q u' s') ->
  ends (elect_loop l room u) s Q.
Proof.
  induction l as [|[k a] l IH]; intros room done u s Q He Hl Hnd Hz HQ.
  - apply (ends_ret hook_panic u), HQ. change (listed s0 []) with (@nil Validator). cbn [filter list_filter]. by rewrite take_nil, app_nil_r.
  - cbn [elect_loop]. destruct room as [|room]; [apply ends_ret, HQ; by rewrite take_0, app_nil_r|].
    destruct (Hl k a) as (v & Hv & Ha & Hj & Hn); [left|].
    assert (listed s0 ((k, a) :: l) = v :: listed s0 l) as Hli by (unfold listed; cbn; by rewrite Hv). rewrite Hli in Hz, HQ.
    apply NoDup_cons in Hnd as [Hna Hnd]. fold (list_fmap _ _ (@snd bytes Address) l) in Hna.
    assert (validators s !! a = Some v) as Hvs by (by rewrite (el_vals _ _ _ _ He), decide_False).
    apply ends_bind, (mustGet_ends a v); [done|]. rewrite Hj.
    destruct (Z.eqb_spec (pow v) 0) as [Hp|Hp].
    { apply ends_ret, HQ. rewrite (zeros_ineligible v _ Hz Hp), take_nil, app_nil_r. done. }
    apply StronglySorted_inv in Hz as [Hz _]. destruct (MinSelfDelegation v <? NewDec 1000) eqn:Hm.
    + apply (IH _ done); [done| |done|done|].
      * intros k' c Hc. apply (Hl k' c). by right.
      * intros u' s' He'. apply HQ. rewrite filter_cons_False; [done|]. unfold eligible. rewrite Hm. by rewrite andb_false_r.
    + apply ends_bind. rewrite <- Ha in Hvs, Hv, Hn |- *. apply elect_ends; [apply He|exact Hvs| |].
      { by rewrite (el_left _ _ _ _ He), (el_last _ _ _ _ He), !decide_False. }
      intros s1 Hse. apply (IH _ (done ++ [v])); [by apply (electing_step s0 done u v s s1)| |done|done|].
      * intros k' c Hc. destruct (Hl k' c) as (w & Hw & Hwc & Hwj & Hwn); [by right|]. exists w. split_and!; try done.
        rewrite fmap_app, elem_of_app. intros [?|Hca]; [done|]. cbn in Hca. apply list_elem_of_singleton in Hca as ->.
        apply Hna. rewrite <- Ha. apply list_elem_of_fmap. by exists (k', addr v).
      * intros u' s' He'. apply HQ. rewrite filter_cons_True; [|unfold eligible; by rewrite (proj2 (Z.eqb_neq _ _) Hp), Hm].
        cbn [take]. by rewrite <- app_assoc in He'.
Qed.

(** *** The order of the index *)

#[local] Instance key_ge_total : Total key_ge.
Proof.
  intros x y. unfold key_ge. destruct (bytes_lt x.1 y.1) eqn:Hxy; [right|by left].
  destruct (bytes_lt y.1 x.1) eqn:Hyx; [|done]. pose proof (MapInstances.bytes_lt_trans _ _ _ Hxy Hyx) as Ht.
  by rewrite MapInstances.bytes_lt_irrefl in Ht.
Qed.
#[local] Instance key_ge_trans : Transitive key_ge.
Proof.
  intros x y z. unfold key_ge. intros Hxy Hyz. destruct (bytes_lt x.1 z.1) eqn:Hxz; [|done].
  destruct (bytes_lt y.1 x.1) eqn:Hyx.
  - pose proof (MapInstances.bytes_lt_trans _ _ _ Hyx Hxz). congruence.
  - pose proof (MapInstances.bytes_lt_trichotomy _ _ Hxy Hyx). congruence.
Qed.

Lemma elem_of_iterator s k a : (k, a) ∈ ValidatorsPowerStoreIterator s <-> powerIndex s !! k = Some a.
Proof. unfold ValidatorsPowerStoreIterator. by rewrite merge_sort_Permutation, elem_of_map_to_list. Qed.
Lemma iterator_validator s k a : settled s -> (k, a) ∈ ValidatorsPowerStoreIterator s ->
  exists v, validators s !! a = Some v /\ addr v = a /\ address_ok a /\ Jailed v = false /\ key v = k.
Proof.
  intros Hs Hk%elem_of_iterator. apply (va_index _ Hs) in Hk as (v & Hv & Hj & Hkv). cbn in Hv.
  destruct (va_vals _ Hs a v Hv) as (Ha & Hok & _). by exists v.
Qed.
Lemma NoDup_iterator s : settled s -> NoDup (ValidatorsPowerStoreIterator s).*2.
Proof.
  intros Hs. apply NoDup_fmap_2_strong.
  - intros [k a] [k' a'] Hk Hk' Heq. cbn in Heq. subst a'. destruct (iterator_validator _ _ _ Hs Hk) as (v & Hv & _ & _ & _ & <-).
    destruct (iterator_validator _ _ _ Hs Hk') as (w & Hw & _ & _ & _ & <-). by simplify_eq.
  - unfold ValidatorsPowerStoreIterator. rewrite merge_sort_Permutation. apply NoDup_map_to_list.
Qed.

Lemma u64_zero x : - 2 ^ 63 <= x < 2 ^ 63 -> u64 x = 0 -> x = 0.
Proof. intros Hx Hu. unfold u64 in Hu. change u64_modulus with (2 ^ 64) in Hu. apply Z.mod_divide in Hu as [q Hq]; [|done]. nia. Qed.
Lemma pow_range v : - 2 ^ 63 <= pow v < 2 ^ 63.
Proof. apply Dec_Int64_range. Qed.

Lemma candidates_zeros_last s : settled s -> zeros_last (candidates s).
Proof.
  intros Hs. unfold candidates, zeros_last, listed.
  assert (StronglySorted key_ge (ValidatorsPowerStoreIterator s)) as Hsort by apply (StronglySorted_merge_sort _).
  assert (forall k a, (k, a) ∈ ValidatorsPowerStoreIterator s -> exists v, validators s !! a = Some v /\ addr v = a /\ address_ok a /\ Jailed v = false /\ key v = k)
    as Hv by (intros k a; by apply iterator_validator).
  induction Hsort as [|[k a] l Hl IH Hall]; [constructor|]. destruct (Hv k a) as (v & Hva & Ha & Hok & _ & Hk); [left|].
  cbn. rewrite Hva. cbn. constructor; [apply IH; intros k' c Hc; apply Hv; by right|].
  rewrite Forall_forall. intros w ([k' c] & Hin & Hw)%list_elem_of_omap Hz. cbn in Hw.
  destruct (Hv k' c) as (w' & Hwc & Hc & Hokc & _ & Hk'); [by right|]. assert (w' = w) as -> by congruence.
  rewrite Forall_forall in Hall. specialize (Hall _ Hin). unfold key_ge in Hall. cbn [fst] in Hall. rewrite <- Hk, <- Hk' in Hall.
  destruct (decide (pow w = 0)) as [|Hne]; [done|]. exfalso.
  assert (bytes_lt (key v) (key w) = true); [|congruence].
  apply (power_index_order v w); [by rewrite Ha|by rewrite Hc|]. left. change (u64 (pow v) < u64 (pow w)). rewrite Hz.
  change (u64 0) with 0. pose proof (u64_range (pow w)). assert (u64 (pow w) ≠ 0); [|lia]. intros Hu. apply Hne.
  apply u64_zero; [apply pow_range|done].
Qed.

(** *** Whoever was not elected leaves *)

(** [v] has left its seat. *)
Record unseated b v s s1 : Prop := {
  un_settled : settled s1;
  un_apart : apart s s1;
  un_vals : validators s1 = <[addr v := unbonding_v b (unbonding_time b s) v]> (validators s);
  un_last : lastPowers s1 = delete (addr v) (lastPowers s);
}.
Lemma unseat b v s wd : settled s -> fresh v s -> Status v = Bonded ->
  unseated b v s (DeleteLastValidatorPower (addr v) (in_world wd (unbonding_state b v s))).
Proof.
  intros Hs Hf Hst. split; [|by split|done|done].
  change (settled (in_world wd (DeleteLastValidatorPower (addr v) (unbonding_state b v s)))). by apply settled_world, settled_unbond.
Qed.
Lemma engine_unseated b m s s1 v : settled s -> fresh v s -> unseated b v s s1 -> engine_is m s ->
  engine_is (apply_update m (mkUpdate (ConsPubKey v) 0)) s1.
Proof.
  intros Hs Hf Hu He. apply (engine_step m s s1 v (unbonding_v b (unbonding_time b s) v) None); try done; [apply Hu|]. apply (un_last _ _ _ _ Hu).
Qed.

Definition zero_update s a : list ValidatorUpdate :=
  match validators s !! a with Some v => [mkUpdate (ConsPubKey v) 0] | None => [] end.

(** The update of the set under way: [el] are elected, [gone] have left. *)
Record updating s0 b (el : list Validator) (tot : Z) (ups0 : list ValidatorUpdate) (gone : list Address) (left : gmap Address Z)
    (ups : list ValidatorUpdate) s : Prop := {
  up_settled : settled s;
  up_apart : apart s0 s;
  up_vals a : validators s !! a =
    if decide (a ∈ addr <$> el) then bonded_v <$> validators s0 !! a
    else if decide (a ∈ gone) then unbonding_v b (unbonding_time b s0) <$> validators s0 !! a else validators s0 !! a;
  up_last a : lastPowers s !! a =
    if decide (a ∈ addr <$> el) then pow <$> validators s0 !! a else if decide (a ∈ gone) then None else lastPowers s0 !! a;
  up_left a : left !! a = if decide (a ∈ addr <$> el) then None else if decide (a ∈ gone) then None else lastPowers s0 !! a;
  up_ups : ups = ups0 ++ (a ← gone; zero_update s0 a);
  up_sum : last_total s = tot + msum (fun _ (x : Z) => x) left;
  up_engine m : engine_is m s0 -> engine_is (apply_updates m ups) s;
}.

Lemma updating_step s0 b el tot ups0 gone left ups v0 v s s1 : updating s0 b el tot ups0 gone left ups s ->
  validators s0 !! addr v = Some v0 -> addr v ∉ addr <$> el -> addr v ∉ gone -> fresh v s -> unseated b v s s1 ->
  updating s0 b el tot ups0 (gone ++ [addr v]) (delete (addr v) left) (ups ++ [mkUpdate (ConsPubKey v) 0]) s1.
Proof.
  intros Hup Hv0 Hel Hg Hf Hun.
  assert (v0 = v) as ->.
  { pose proof (up_vals _ _ _ _ _ _ _ _ _ Hup (addr v)) as Hv. rewrite !decide_False in Hv by done. unfold fresh in Hf. congruence. }
  assert (forall a, a ∈ gone ++ [addr v] <-> addr v = a \/ a ∈ gone) as Hin.
  { intros a. rewrite elem_of_app, list_elem_of_singleton. naive_solver. }
  assert (unbonding_time b s = unbonding_time b s0) as Ht.
  { unfold unbonding_time, GetParams. by rewrite (ap_params _ _ (up_apart _ _ _ _ _ _ _ _ _ Hup)). }
  split.
  - apply Hun.
  - apply (apart_trans _ s); [apply Hup|apply Hun].
  - intros a. rewrite (un_vals _ _ _ _ Hun), lookup_insert, (up_vals _ _ _ _ _ _ _ _ _ Hup), Ht. specialize (Hin a).
    repeat case_decide; subst; try tauto. by rewrite Hv0.
  - intros a. rewrite (un_last _ _ _ _ Hun), lookup_delete, (up_last _ _ _ _ _ _ _ _ _ Hup). specialize (Hin a).
    repeat case_decide; subst; tauto.
  - intros a. rewrite lookup_delete, (up_left _ _ _ _ _ _ _ _ _ Hup). specialize (Hin a). repeat case_decide; subst; tauto.
  - rewrite bind_snoc. unfold zero_update at 2. by rewrite Hv0, app_assoc, <- (up_ups _ _ _ _ _ _ _ _ _ Hup).
  - unfold last_total. rewrite (un_last _ _ _ _ Hun), !msum_delete_default. fold (last_total s). rewrite (up_sum _ _ _ _ _ _ _ _ _ Hup).
    rewrite (up_left _ _ _ _ _ _ _ _ _ Hup), (up_last _ _ _ _ _ _ _ _ _ Hup), !decide_False by done. lia.
  - intros m Hm. unfold apply_updates. rewrite fold_left_app. apply (engine_unseated b _ s); [apply Hup|done|done|].
    by apply (up_engine _ _ _ _ _ _ _ _ _ Hup).
Qed.

Lemma discharge_loop_ends s0 b el tot ups0 l : settled s0 -> forall gone left ups s (Q : list ValidatorUpdate -> stk -> Prop),
  updating s0 b el tot ups0 gone left ups s -> NoDup l ->
  (forall a, a ∈ l -> a ∉ addr <$> el /\ a ∉ gone /\ is_Some (lastPowers s0 !! a)) ->
  (forall left' ups' s', updating s0 b el tot ups0 (gone ++ l) left' ups' s' -> Q ups' s') ->
  ends (discharge_loop b l ups) s Q.
Proof.
  intros Hs0. induction l as [|a l IH]; intros gone left ups s Q Hup Hnd Hl HQ.
  - apply (ends_ret hook_panic ups), (HQ left). by rewrite app_nil_r.
  - cbn [discharge_loop]. apply NoDup_cons in Hnd as [Hna Hnd]. destruct (Hl a) as (Hel & Hg & Hla); [left|].
    apply (va_last _ Hs0) in Hla as (v & Hv & Hst). cbn in Hv. destruct (va_vals _ Hs0 a v Hv) as (Ha & _).
    assert (fresh v s) as Hf by (unfold fresh; rewrite Ha, (up_vals _ _ _ _ _ _ _ _ _ Hup), !decide_False; done).
    apply ends_bind, (mustGet_ends a v); [by rewrite <- Ha|]. apply ends_bind, bondedToUnbonding_ends; [done|]. intros wd.
    assert (updating s0 b el tot ups0 (gone ++ [addr v]) (delete (addr v) left) (ups ++ [mkUpdate (ConsPubKey v) 0])
      (DeleteLastValidatorPower (addr v) (in_world wd (unbonding_state b v s)))) as Hup1.
    { assert (unseated b v s (DeleteLastValidatorPower (addr v) (in_world wd (unbonding_state b v s)))) as Hun by (by apply unseat; [apply Hup|..]).
      rewrite <- Ha in Hel, Hg, Hv. by apply (updating_step s0 b el tot ups0 gone left ups v v s). }
    apply ends_modify. refine (IH _ _ _ _ Q Hup1 Hnd _ _).
    + intros c Hc. destruct (Hl c) as (? & ? & ?); [by right|]. split_and!; [done| |done].
      rewrite elem_of_app, list_elem_of_singleton, Ha. intros [?|Hca]; [done|by subst c].
    + intros left' ups' s' Hup'. apply (HQ left'). by rewrite Ha, <- app_assoc in Hup'.
Qed.

(** ** The update at the end of an epoch *)

Definition seats b s : nat := Z.to_nat (p_MaxValidators (GetParams b s)).
(** Who loses its seat, by address. *)
Definition leavers s (el : list Validator) : list Address :=
  sortNoLongerBonded (filter (fun x => x.1 ∉ addr <$> el) (lastPowers s)).

(** What [ApplyAndReturnValidatorSetUpdates] does, in closed form. *)
Record set_elected b s (ups : list ValidatorUpdate) s' : Prop := {
  sl_agree : settled s';
  sl_delegators : delegators s' = delegators s;
  sl_shares : shares s' = shares s;
  sl_params : stk_params s' = stk_params s;
  sl_abandoned : abandoned s' = abandoned s;
  (** the elected are bonded, the last set that was not elected unbonds *)
  sl_vals a : validators s' !! a =
    let el := elected s (seats b s) in
    if decide (a ∈ addr <$> el) then bonded_v <$> validators s !! a
    else if decide (is_Some (lastPowers s !! a)) then unbonding_v b (unbonding_time b s) <$> validators s !! a else validators s !! a;
  (** the elected have their power, nobody else has one *)
  sl_last a : lastPowers s' !! a = if decide (a ∈ addr <$> elected s (seats b s)) then pow <$> validators s !! a else None;
  (** changed powers in the order of the election, then zeros by address *)
  sl_ups : ups = (v ← elected s (seats b s); seat_update (lastPowers s !! addr v) v) ++
    (a ← leavers s (elected s (seats b s)); zero_update s a);
  sl_engine m : engine_is m s -> engine_is (apply_updates m ups) s';
  sl_total : lastTotalPower s = last_total s -> lastTotalPower s' = last_total s';
}.

Lemma elem_of_leavers s el a : a ∈ leavers s el <-> a ∉ addr <$> el /\ is_Some (lastPowers s !! a).
Proof.
  unfold leavers, sortNoLongerBonded. rewrite merge_sort_Permutation, list_elem_of_fmap. split.
  - intros ([c p] & -> & Hp%elem_of_map_to_list). cbn. apply map_lookup_filter_Some in Hp as [Hp Hn]. split; [done|by exists p].
  - intros [Hn [p Hp]]. exists (a, p). split; [done|]. apply elem_of_map_to_list, map_lookup_filter_Some. done.
Qed.
Lemma NoDup_leavers s el : NoDup (leavers s el).
Proof. unfold leavers, sortNoLongerBonded. rewrite merge_sort_Permutation. apply NoDup_fst_map_to_list. Qed.

Lemma bind_nil {A B} (l : list A) (f : A -> list B) x : (y ← l; f y) = [] -> x ∈ l -> f x = [].
Proof.
  induction l as [|y l IH]; intros Hl Hx; [by apply elem_of_nil in Hx|]. cbn in Hl. apply app_eq_nil in Hl as [Hy Hl].
  apply elem_of_cons in Hx as [->|Hx]; [done|by apply IH].
Qed.

Lemma elem_of_elected s n v : settled s -> v ∈ elected s n ->
  validators s !! addr v = Some v /\ Jailed v = false /\ eligible v = true /\ (key v, addr v) ∈ ValidatorsPowerStoreIterator s.
Proof.
  intros Hs Hv. unfold elected in Hv. assert (v ∈ filter (fun v => eligible v = true) (candidates s)) as Hf.
  { apply list_elem_of_lookup in Hv as [i Hi]. apply lookup_take_Some in Hi as [Hi _]. by apply list_elem_of_lookup_2 in Hi. }
  apply list_elem_of_filter in Hf as [He ([k a] & Hin & Hl)%list_elem_of_omap]. cbn in Hl.
  destruct (iterator_validator s k a Hs Hin) as (w & Hw & Ha & _ & Hj & Hk). simplify_eq. done.
Qed.

Lemma electing_start s : settled s -> electing s [] (mkSetUpdate (lastPowers s) [] 0) s.
Proof. intros Hs. split; cbn; try done. Qed.

Lemma electing_leavers s el u s' : electing s el u s' -> sortNoLongerBonded (su_last u) = leavers s el.
Proof.
  intros He. unfold leavers. f_equal. apply map_eq. intros a. rewrite (el_left _ _ _ _ He). case_decide as Ha.
  - symmetry. apply map_lookup_filter_None_2. right. intros p _ Hn. by apply Hn.
  - destruct (lastPowers s !! a) as [p|] eqn:Hp; symmetry; [by apply map_lookup_filter_Some_2|]. apply map_lookup_filter_None_2. by left.
Qed.

Lemma electing_updating b s el u s' : electing s el u s' -> updating s b el (su_total u) (su_updates u) [] (su_last u) (su_updates u) s'.
Proof.
  intros He. split.
  - apply He.
  - apply He.
  - intros a. by rewrite (el_vals _ _ _ _ He), (decide_False (P := a ∈ [])) by apply not_elem_of_nil.
  - intros a. by rewrite (el_last _ _ _ _ He), (decide_False (P := a ∈ [])) by apply not_elem_of_nil.
  - intros a. by rewrite (el_left _ _ _ _ He), (decide_False (P := a ∈ [])) by apply not_elem_of_nil.
  - by rewrite app_nil_r.
  - apply He.
  - apply He.
Qed.

(** With nothing to report no power changed. *)
Lemma no_updates s el : settled s -> (forall v, v ∈ el -> validators s !! addr v = Some v) ->
  (v ← el; seat_update (lastPowers s !! addr v) v) ++ (a ← leavers s el; zero_update s a) = [] ->
  forall a, (if decide (a ∈ addr <$> el) then pow <$> validators s !! a else if decide (a ∈ leavers s el) then None else lastPowers s !! a)
    = lastPowers s !! a.
Proof.
  intros Hs Hel [Hseat Hzero]%app_eq_nil a. case_decide as Ha; [|case_decide as Hg; [|done]].
  - apply list_elem_of_fmap in Ha as (v & -> & Hv). pose proof (bind_nil _ _ v Hseat Hv) as Hsu. cbn beta in Hsu.
    unfold seat_update in Hsu. case_decide as Hl; [|done]. by rewrite Hl, (Hel v Hv).
  - pose proof (bind_nil _ _ a Hzero Hg) as Hz. cbn beta in Hz. unfold zero_update in Hz. apply elem_of_leavers in Hg as [_ Hl].
    apply (va_last _ Hs) in Hl as (v & Hv & _). cbn in Hv. by rewrite Hv in Hz.
Qed.

(** All who had a power are elected or gone. *)
Lemma left_empty b s el tot ups0 left ups s' : updating s b el tot ups0 (leavers s el) left ups s' -> left = ∅.
Proof.
  intros Hup. apply map_eq. intros a. rewrite (up_left _ _ _ _ _ _ _ _ _ Hup), lookup_empty. case_decide as Ha; [done|].
  case_decide as Hg; [done|]. apply eq_None_not_Some. intros Hl. apply Hg, elem_of_leavers. done.
Qed.

Lemma updating_elected b s u left ups s' x : settled s -> let el := elected s (seats b s) in
  su_updates u = (v ← el; seat_update (lastPowers s !! addr v) v) ->
  updating s b el (su_total u) (su_updates u) (leavers s el) left ups s' ->
  x = (if bool_decide (ups ≠ []) then su_total u else lastTotalPower s) -> set_elected b s ups (SetLastTotalPower x s').
Proof.
  intros Hs el Hu Hup ->. pose proof (up_apart _ _ _ _ _ _ _ _ _ Hup) as Hap.
  assert (forall a, lastPowers s' !! a = if decide (a ∈ addr <$> el) then pow <$> validators s !! a else None) as Hlast.
  { intros a. rewrite (up_last _ _ _ _ _ _ _ _ _ Hup). case_decide as Ha; [done|]. case_decide as Hg; [done|].
    apply eq_None_not_Some. intros Hl. apply Hg, elem_of_leavers. done. }
  split; try apply Hap.
  - apply (vals_agree_same _ _ (up_settled _ _ _ _ _ _ _ _ _ Hup)). by split.
  - intros a. change (validators (SetLastTotalPower _ s')) with (validators s'). rewrite (up_vals _ _ _ _ _ _ _ _ _ Hup). fold el.
    cbv zeta. case_decide as Ha; [done|]. apply decide_ext. rewrite elem_of_leavers. tauto.
  - exact Hlast.
  - rewrite (up_ups _ _ _ _ _ _ _ _ _ Hup). by rewrite Hu.
  - intros m Hm. exact (up_engine _ _ _ _ _ _ _ _ _ Hup m Hm).
  - intros Ht. change (last_total (SetLastTotalPower _ s')) with (last_total s').
    change (lastTotalPower (SetLastTotalPower ?x s')) with x.
    pose proof (up_sum _ _ _ _ _ _ _ _ _ Hup) as Hsum. rewrite (left_empty _ _ _ _ _ _ _ _ Hup), msum_empty in Hsum.
    case_bool_decide as Hn; [lia|]. rewrite Ht. assert (ups = []) as He by (destruct ups; [done|]; by destruct Hn).
    unfold last_total. f_equal. apply map_eq. intros a. rewrite (up_ups _ _ _ _ _ _ _ _ _ Hup), Hu in He.
    rewrite (up_last _ _ _ _ _ _ _ _ _ Hup). symmetry. apply no_updates; [done| |done].
    intros v Hv. by apply (elem_of_elected s (seats b s) v Hs).
Qed.

Lemma Apply_ends b s : settled s -> ends (ApplyAndReturnValidatorSetUpdates b) s (set_elected b s).
Proof.
  intros Hs. unfold ApplyAndReturnValidatorSetUpdates. do 3 apply ends_gets. apply ends_bind. fold (seats b s).
  apply (elect_loop_ends s _ _ [] _ s _ (electing_start s Hs)).
  - intros k a Hk. destruct (iterator_validator s k a Hs Hk) as (v & ? & ? & ? & ? & _). exists v. split_and!; try done.
    apply not_elem_of_nil.
  - by apply NoDup_iterator.
  - by apply candidates_zeros_last.
  - intros u s1 He. fold (candidates s) in He. fold (elected s (seats b s)) in He. rewrite app_nil_l in He.
    rewrite (electing_leavers _ _ _ _ He). apply ends_bind.
    refine (discharge_loop_ends s b _ _ (su_updates u) _ Hs [] (su_last u) _ s1 _ (electing_updating b _ _ _ _ He) (NoDup_leavers _ _) _ _).
    + intros a [Ha Hl]%elem_of_leavers. split_and!; [done|apply not_elem_of_nil|done].
    + intros left' ups s2 Hup. rewrite app_nil_l in Hup. pose proof (el_updates _ _ _ _ He) as Hu.
      pose proof (updating_elected b s u left' ups s2 _ Hs Hu Hup eq_refl) as Hx. case_bool_decide as Hn; cbn [when].
      * apply ends_modify, ends_ret, Hx.
      * apply ends_bind, ends_ret, ends_ret. rewrite <- (ap_total _ _ (up_apart _ _ _ _ _ _ _ _ _ Hup)) in Hx.
        by destruct s2.
Qed.

End Elect.
End StakingElect.
