(* ===== verification/StakingBlock.v ===== *)
(** The end of a block never gets stuck.

    Validators that gave up their seat within an epoch are replaced, those
    whose unbonding time is over become unbonded, and the payments are
    made: every step finds the tables as it expects them, and leaves them in
    agreement. *)
From S2P Require Import Prelude.
From S2P Require Import Interfaces.
From S2P Require Import Sums.
From S2P Require Import Effects.
From S2P Require Import StakingTypes.
From S2P Require Import StakingKeys.
From S2P Require Import StakingState.
From S2P Require Import StakingKeeper.
From S2P Require Import StakingVals.
From S2P Require Import StakingHandler.
From S2P Require Import StakingAcct.
From S2P Require Import StakingView.
From S2P Require Import StakingRefine.
From S2P Require Import StakingEnd.
From S2P Require Import StakingSet.
From S2P Require Import StakingVotes.
From S2P Require Import StakingElect.
From stdpp Require Import sorting.
Import StakingTypes StakingKeys StakingState StakingKeeper StakingVals StakingHandler StakingAcct StakingView StakingRefine StakingEnd.
Import StakingSet StakingVotes StakingElect.
Local Open Scope Z_scope.

Module StakingBlock.
Section Block_.
Context {W : Type} `{SupplyKeeperLaws W, !StakingHooks W, !StakingHooksLaws W, !StakingSdk, !StakingSdkLaws, !StakingPowerLaws, !SdkConfig}.
Abbreviation stk := (Stk W).
Abbreviation E := (eff (Stk W) stk_error).
Abbreviation key := GetValidatorsByPowerIndexKey.
Abbreviation addr := OperatorAddress.
Abbreviation pow := PotentialConsensusPowerByShares.
Abbreviation ends := (ends (hook_panic (W := W))).
Implicit Types (s : stk) (v w : Validator) (a c : Address) (b : Block).

(** ** Validators that leave within an epoch *)

(** The strongest eligible validators that have no seat. *)
Definition free_seat s v : bool := eligible v && bool_decide (lastPowers s !! addr v = None).
Definition substitutes_of s (l : list (bytes * Address)) (n : nat) : list Validator :=
  take n (filter (fun v => free_seat s v = true) (listed s l)).
Definition substitutes s (n : nat) : list Validator := substitutes_of s (ValidatorsPowerStoreIterator s) n.

(** The state of [electing] when no seat is taken over. *)
Lemma kick_step s0 done v ups n s s1 : electing s0 done (mkSetUpdate (lastPowers s0) ups n) s -> validators s0 !! addr v = Some v ->
  addr v ∉ addr <$> done -> pow v ≠ 0 -> lastPowers s0 !! addr v = None -> seated v s s1 ->
  electing s0 (done ++ [v]) (mkSetUpdate (lastPowers s0) (ups ++ [mkUpdate (ConsPubKey v) (pow v)]) (n + pow v)) s1.
Proof.
  intros He Hv Hn Hp Hl Hse. pose proof (electing_step s0 done _ v s s1 He Hv Hn Hp Hse) as He1. cbn in He1.
  rewrite delete_id in He1 by done. assert (lastPowers s !! addr v = None) as Hls by (by rewrite (el_last _ _ _ _ He), decide_False).
  rewrite Hls in He1. exact He1.
Qed.

Lemma kick_promote_ends s0 t0 l : forall room done ups n s (Q : list ValidatorUpdate * Z -> stk -> Prop),
  electing s0 done (mkSetUpdate (lastPowers s0) ups n) s ->
  (forall k a, (k, a) ∈ l -> exists v, validators s0 !! a = Some v /\ addr v = a /\ a ∉ addr <$> done) ->
  NoDup l.*2 ->
  (forall ups' n' s', electing s0 (done ++ substitutes_of s0 l room) (mkSetUpdate (lastPowers s0) ups' n') s' ->
    Q (ups', t0 + n') s') ->
  settled s0 ->
  ends (kick_promote_loop l room (lastPowers s0) ups (t0 + n)) s Q.
Proof.
  induction l as [|[k a] l IH]; intros room done ups n s Q He Hl Hnd HQ Hs0.
  - apply ends_ret, HQ. unfold substitutes_of. change (listed s0 []) with (@nil Validator). cbn [filter list_filter].
    by rewrite take_nil, app_nil_r.
  - cbn [kick_promote_loop]. destruct room as [|room]; [apply ends_ret, HQ; unfold substitutes_of; by rewrite take_0, app_nil_r|].
    destruct (Hl k a) as (v & Hv & Ha & Hn); [left|].
    assert (listed s0 ((k, a) :: l) = v :: listed s0 l) as Hli by (unfold listed; cbn; by rewrite Hv).
    apply NoDup_cons in Hnd as [Hna Hnd]. fold (list_fmap _ _ (@snd bytes Address) l) in Hna.
    assert (validators s !! a = Some v) as Hvs by (by rewrite (el_vals _ _ _ _ He), decide_False).
    assert (free_seat s0 v ≠ true -> ends (kick_promote_loop l (S room) (lastPowers s0) ups (t0 + n)) s Q) as Hskip.
    { intros Hf. apply (IH _ done); [done| |done| |done].
      - intros k' c Hc. apply (Hl k' c). by right.
      - intros ups' n' s' He'. apply HQ. unfold substitutes_of in *. rewrite Hli. by rewrite filter_cons_False. }
    unfold free_seat in Hskip. rewrite Ha in Hskip. destruct (lastPowers s0 !! a) as [p|] eqn:Hseat.
    { rewrite bool_decide_eq_true_2 by done. apply Hskip. by rewrite bool_decide_eq_false_2, andb_false_r. }
    rewrite bool_decide_eq_false_2 by (by intros []).
    apply ends_bind, (mustGet_ends a v); [done|].
    destruct (Z.eqb_spec (pow v) 0) as [Hp|Hp]; [apply Hskip; unfold eligible; by rewrite Hp|].
    destruct (MinSelfDelegation v <? NewDec 1000) eqn:Hm; [apply Hskip; unfold eligible; by rewrite Hm, andb_false_r|].
    assert (Status v ≠ Bonded) as Hst.
    { intros Hb. assert (is_Some (lastPowers s0 !! a)) as [? ?]; [|congruence]. apply (va_last _ Hs0). by exists v. }
    assert (forall Q, ends (bondValidator v) s Q -> ends match Status v with
       | Unbonded => unbondedToBonded v | Unbonding => unbondingToBonded v
       | Bonded => panic (PanicMsg "Panic. Candidate validator is not allowed to be in bonded status") end s Q) as Hpr.
    { intros Q' HQ'. unfold unbondedToBonded, unbondingToBonded, IsUnbonded, IsUnbonding.
      destruct (Status v) eqn:Hsv; [..|done]; by rewrite bool_decide_eq_true_2. }
    rewrite <- Ha in *. apply ends_bind, Hpr, bondValidator_ends. intros wd. apply ends_modify.
    change (ABCIValidatorUpdateByShares (bonded_v v)) with (mkUpdate (ConsPubKey v) (pow v)).
    rewrite bonded_power, <- Z.add_assoc.
    pose proof (kick_step s0 done v ups n s _ He Hv Hn Hp Hseat (bond_seated v s wd (el_settled _ _ _ _ He) Hvs Hst)) as He1.
    refine (IH _ _ _ _ _ Q He1 _ Hnd _ Hs0).
    + intros k' c Hc. destruct (Hl k' c) as (w & Hw & Hwc & Hwn); [by right|]. exists w. split_and!; try done.
      rewrite fmap_app, elem_of_app. intros [?|Hca]; [done|]. cbn in Hca. apply list_elem_of_singleton in Hca as ->.
      apply Hna, list_elem_of_fmap. by exists (k', addr v).
    + intros ups' n' s' He'. apply HQ. unfold substitutes_of in *. rewrite Hli, filter_cons_True.
      * cbn [take]. by rewrite <- app_assoc in He'.
      * unfold free_seat, eligible. rewrite (proj2 (Z.eqb_neq _ _) Hp), Hm. cbn. by apply bool_decide_eq_true_2.
Qed.

Lemma unseated_total b v s s1 p : unseated b v s s1 -> lastPowers s !! addr v = Some p -> last_total s1 = last_total s - p.
Proof. intros Hu Hp. unfold last_total. rewrite (un_last _ _ _ _ Hu), msum_delete_default, Hp. cbn. lia. Qed.

Lemma kick_discharge_ends s0 b el tot0 ups0 l : settled s0 -> forall gone left ups s (Q : list ValidatorUpdate * Z -> stk -> Prop),
  updating s0 b el tot0 ups0 gone left ups s -> NoDup gone ->
  (forall a, a ∈ l -> a ∉ addr <$> el /\ is_Some (lastPowers s0 !! a)) ->
  (forall gone' left' ups' s', updating s0 b el tot0 ups0 gone' left' ups' s' -> NoDup gone' ->
    (forall a, a ∈ gone' <-> a ∈ gone \/ a ∈ l) -> Q (ups', last_total s') s') ->
  ends (kick_discharge_loop b l (lastPowers s0) ups (last_total s)) s Q.
Proof.
  intros Hs0. induction l as [|a l IH]; intros gone left ups s Q Hup Hnd Hl HQ.
  - apply ends_ret, (HQ gone left); [done|done|]. intros a. rewrite elem_of_nil. tauto.
  - cbn [kick_discharge_loop]. destruct (Hl a) as (Hel & [p Hp]); [left|].
    assert (is_Some (lastPowers s0 !! a)) as (v0 & Hv0 & Hst0)%(va_last _ Hs0) by done. cbn in Hv0.
    destruct (va_vals _ Hs0 a v0 Hv0) as (Ha & _). pose proof (up_vals _ _ _ _ _ _ _ _ _ Hup a) as Hva.
    rewrite decide_False, Hv0 in Hva by done. cbn [fmap option_fmap option_map] in Hva.
    assert (forall c, c ∈ l -> c ∉ addr <$> el /\ is_Some (lastPowers s0 !! c)) as Hl' by (intros c Hc; apply Hl; by right).
    destruct (decide (a ∈ gone)) as [Hg|Hg].
    + apply ends_bind, (mustGet_ends a (unbonding_v b (unbonding_time b s0) v0)); [done|]. cbn [unbonding_v Status UpdateStatus].
      change (ends (kick_discharge_loop b l (lastPowers s0) ups (last_total s)) s Q).
      apply (IH gone left); [done|done|done|]. intros gone' left' ups' s' Hup' Hnd' Hin. apply (HQ gone' left'); [done|done|].
      intros c. rewrite Hin, elem_of_cons. naive_solver.
    + apply ends_bind, (mustGet_ends a v0); [done|]. rewrite Hst0. apply ends_bind, bondedToUnbonding_ends; [done|]. intros wd.
      apply ends_modify. rewrite Hp. rewrite <- Ha in Hel, Hp, Hg, Hva.
      pose proof (unseat b v0 s wd (up_settled _ _ _ _ _ _ _ _ _ Hup) Hva Hst0) as Hun. rewrite <- Ha in Hv0.
      pose proof (updating_step s0 b el tot0 ups0 gone left ups v0 v0 s _ Hup Hv0 Hel Hg Hva Hun) as Hup1.
      assert (lastPowers s !! addr v0 = Some p) as Hps.
      { by rewrite (up_last _ _ _ _ _ _ _ _ _ Hup), !decide_False. }
      rewrite <- (unseated_total b v0 s _ p Hun Hps).
      refine (IH _ _ _ _ Q Hup1 _ Hl' _).
      * apply NoDup_app. split_and!; [done|intros x Hx ->%list_elem_of_singleton; done|apply NoDup_singleton].
      * intros gone' left' ups' s' Hup' Hnd' Hin. apply (HQ gone' left'); [done|done|].
        intros c. rewrite Hin, elem_of_app, list_elem_of_singleton, elem_of_cons, Ha. tauto.
Qed.

(** What [KickOutAndReturnValidatorSetUpdates] does, in closed form. *)
Record set_kicked b s (ups : list ValidatorUpdate) s' : Prop := {
  sk_settled : settled s';
  sk_delegators : delegators s' = delegators s;
  sk_shares : shares s' = shares s;
  sk_params : stk_params s' = stk_params s;
  (** as many substitutes as seats were given up are bonded, those who gave one up unbond *)
  sk_vals a : validators s' !! a =
    if decide (a ∈ addr <$> substitutes s (length (abandoned s))) then bonded_v <$> validators s !! a
    else if decide (a ∈ abandoned s) then unbonding_v b (unbonding_time b s) <$> validators s !! a else validators s !! a;
  sk_last a : lastPowers s' !! a =
    if decide (a ∈ addr <$> substitutes s (length (abandoned s))) then pow <$> validators s !! a
    else if decide (a ∈ abandoned s) then None else lastPowers s !! a;
  sk_engine m : engine_is m s -> engine_is (apply_updates m ups) s';
  sk_total : lastTotalPower s' = last_total s';
}.

Lemma elem_of_substitutes s n v : settled s -> v ∈ substitutes s n -> validators s !! addr v = Some v /\ free_seat s v = true.
Proof.
  intros Hs Hv. unfold substitutes, substitutes_of in Hv.
  assert (v ∈ filter (fun v => free_seat s v = true) (listed s (ValidatorsPowerStoreIterator s))) as Hf.
  { apply list_elem_of_lookup in Hv as [i Hi]. apply lookup_take_Some in Hi as [Hi _]. by apply list_elem_of_lookup_2 in Hi. }
  apply list_elem_of_filter in Hf as [He ([k a] & Hin & Hl)%list_elem_of_omap]. cbn in Hl.
  destruct (iterator_validator s k a Hs Hin) as (w & Hw & Ha & _). simplify_eq. done.
Qed.
Lemma substitutes_seats s n a : settled s -> is_Some (lastPowers s !! a) -> a ∉ addr <$> substitutes s n.
Proof.
  intros Hs [p Hp] (v & -> & Hv)%list_elem_of_fmap. destruct (elem_of_substitutes s n v Hs Hv) as [_ Hf].
  unfold free_seat in Hf. apply andb_prop in Hf as [_ Hf%bool_decide_eq_true_1]. congruence.
Qed.

Lemma updating_kicked b s n ups0 gone left ups s' : let el := substitutes s (length (abandoned s)) in
  updating s b el n ups0 gone left ups s' -> (forall a, a ∈ gone <-> a ∈ abandoned s) ->
  set_kicked b s ups (SetLastTotalPower (last_total s') s').
Proof.
  intros el Hup Hin. pose proof (up_apart _ _ _ _ _ _ _ _ _ Hup) as Hap. split; try apply Hap.
  - apply (vals_agree_same _ _ (up_settled _ _ _ _ _ _ _ _ _ Hup)). by split.
  - intros a. change (validators (SetLastTotalPower _ s')) with (validators s'). rewrite (up_vals _ _ _ _ _ _ _ _ _ Hup).
    fold el. case_decide; [done|]. by apply decide_ext.
  - intros a. change (lastPowers (SetLastTotalPower _ s')) with (lastPowers s'). rewrite (up_last _ _ _ _ _ _ _ _ _ Hup).
    fold el. case_decide; [done|]. by apply decide_ext.
  - intros m Hm. exact (up_engine _ _ _ _ _ _ _ _ _ Hup m Hm).
  - done.
Qed.

Lemma KickOut_ends b s : vals_agree s -> lastTotalPower s = last_total s ->
  ends (KickOutAndReturnValidatorSetUpdates b) s (set_kicked b s).
Proof.
  intros Hv Ht. pose proof (settled_agree s Hv) as Hs. unfold KickOutAndReturnValidatorSetUpdates. do 4 apply ends_gets. apply ends_bind.
  rewrite <- (Z.add_0_r (lastTotalPower s)).
  refine (kick_promote_ends s _ _ _ [] [] 0 s _ (electing_start s Hs) _ (NoDup_iterator s Hs) _ Hs).
  - intros k a Hk. destruct (iterator_validator s k a Hs Hk) as (v & ? & ? & _). exists v. split_and!; try done. apply not_elem_of_nil.
  - intros ups n s1 He. rewrite app_nil_l in He. fold (substitutes s (length (abandoned s))) in He. cbn beta iota.
    assert (lastTotalPower s + n = last_total s1) as ->.
    { rewrite (el_sum _ _ _ _ He), Ht. cbn [su_total su_last]. unfold last_total. lia. }
    apply ends_bind. refine (kick_discharge_ends s b _ n ups (abandoned s) Hs [] _ ups s1 _ (electing_updating b _ _ _ _ He) (NoDup_nil_2) _ _).
    + intros a Ha. assert (is_Some (lastPowers s !! a)) as Hl by (by apply (va_last _ Hv), (va_abandoned _ Hv)).
      split; [by apply substitutes_seats|done].
    + intros gone left ups' s2 Hup _ Hin. apply ends_modify, ends_ret. apply (updating_kicked b s n ups gone left); [done|].
      intros a. rewrite Hin, elem_of_nil. tauto.
Qed.

(** ** Mature validators *)

(** The tables agree, with [l] left of the slice [t] of the queue. *)
Definition pending (t : Time) (l : list Address) s : stk := s <| validatorQueue := put_slice t l (validatorQueue s) |>.
(** What the maturing of validators leaves alone. *)
Record matured s s' : Prop := {
  mt_delegators : delegators s' = delegators s;
  mt_shares : shares s' = shares s;
  mt_total : lastTotalPower s' = lastTotalPower s;
  mt_last : lastPowers s' = lastPowers s;
  mt_abandoned : abandoned s' = abandoned s;
  (** the engine's validators stay, with their keys *)
  mt_engine m : engine_is m s -> engine_is m s';
}.
Lemma matured_refl s : matured s s.
Proof. by split. Qed.
Lemma matured_trans s s1 s2 : matured s s1 -> matured s1 s2 -> matured s s2.
Proof. intros [] []. split; try congruence. auto. Qed.
Lemma set_matured s s' : set_ok s -> matured s s' -> vals_agree s' -> set_ok s'.
Proof.
  intros [Ha Hv Ht Hk] [Ed Es Et El Eab _] Hs'. split; [done|by rewrite Ed, Es| |by rewrite Ed]. unfold last_total. by rewrite Et, El.
Qed.

Definition unbonded_v v : Validator := UpdateStatus v Unbonded.
Definition unbonded_state v s : stk := SetValidator (unbonded_v v) s.

Lemma put_slice_twice t l l' (q : gmap Time (list Address)) : put_slice t l (put_slice t l' q) = put_slice t l q.
Proof.
  unfold put_slice. repeat case_decide; apply map_eq; intros u; rewrite ?lookup_insert, ?lookup_delete, ?lookup_insert, ?lookup_delete;
    repeat case_decide; done.
Qed.

Lemma filter_not_in a (l : list Address) : a ∉ l -> filter (fun c => c ≠ a) l = l.
Proof.
  induction l as [|c l IH]; [done|]. rewrite not_elem_of_cons. intros [Hc Hl]. rewrite filter_cons_True by done. by rewrite IH.
Qed.

(** [v] becomes unbonded. *)
Lemma agree_unbonded t v l s : vals_agree (pending t (addr v :: l) s) -> fresh v s -> Status v = Unbonding ->
  UnbondingCompletionTime v = t -> vals_agree (pending t l (unbonded_state v s)).
Proof.
  intros Hs Hv Hst Ht. destruct (agree_index _ (addr v) v (unbonded_v v) Hs Hv) as (_ & Hok & Hvals & Hcons & _); [by split|].
  assert (slice (validatorQueue (pending t (addr v :: l) s)) t = addr v :: l) as Hsl.
  { unfold pending. cbn. by rewrite slice_put, decide_True. }
  pose proof (queue_nodup _ _ t (va_queue _ Hs)) as Hnd. rewrite Hsl in Hnd. apply NoDup_cons in Hnd as [Hni Hnd].
  split; cbn in *.
  - done.
  - done.
  - apply (index_same _ _ (addr v) v); [apply Hs|done|by apply key_same|done].
  - apply last_insert; [apply Hs|]. split; [|done]. intros Hl. apply (va_last _ Hs) in Hl as (w & Hw & Hb). unfold fresh in Hv. cbn in Hw. congruence.
  - pose proof (queue_leave _ _ (addr v) v (unbonded_v v) (va_queue _ Hs) Hv) as Hq. cbn zeta in Hq.
    change (UnbondingCompletionTime (unbonded_v v)) with (UnbondingCompletionTime v) in Hq. rewrite Ht in Hq. cbn in Hq. rewrite Hsl in Hq.
    rewrite filter_cons_False, filter_not_in in Hq by (done || intros Hx; by apply Hx).
    rewrite put_slice_twice in Hq. apply Hq; [done|]. intros t' [_ Hu]; congruence.
  - apply (shares_same _ _ _ v); [apply Hs|done|done].
  - intros c Hc. destruct (va_abandoned _ Hs c Hc) as (w & Hw & Hb). cbn in Hw. apply insert_exists. case_decide as Hca; [|by exists w].
    subst c. unfold fresh in Hv. congruence.
Qed.

Lemma engine_same s s' m : (forall a, is_Some (lastPowers s !! a) -> validators s' !! a = validators s !! a) ->
  lastPowers s' = lastPowers s -> engine_is m s -> engine_is m s'.
Proof.
  intros Hk Hl He k p. rewrite (He k p), Hl. split; intros (a & v & Hv & Hvk & Hp); exists a, v; (split; [|done]);
    [rewrite Hk|rewrite <- Hk]; by try eexists.
Qed.
Lemma unbonding_no_power s v : last_ok (validators s) (lastPowers s) -> fresh v s -> Status v = Unbonding ->
  forall c, is_Some (lastPowers s !! c) -> c ≠ addr v.
Proof. intros Hl Hv Hst c Hc ->. apply Hl in Hc as (w & Hw & Hb). unfold fresh in Hv. congruence. Qed.

Lemma matured_unbonded v s : last_ok (validators s) (lastPowers s) -> fresh v s -> Status v = Unbonding -> matured s (unbonded_state v s).
Proof.
  intros Hl Hv Hst. split; try done. intros m. apply engine_same; [|done]. intros c Hc. cbn. rewrite lookup_insert_ne; [done|].
  apply not_eq_sym. by apply (unbonding_no_power s).
Qed.
Lemma matured_dropped v s : last_ok (validators s) (lastPowers s) -> fresh v s -> Status v ≠ Bonded -> forall wd, matured s (in_world wd (dropped v s)).
Proof.
  intros Hl Hv Hst wd. split; try done. intros m. apply engine_same; [|done]. intros c Hc. cbn. rewrite lookup_delete_ne; [done|].
  intros <-. apply Hl in Hc as (w & Hw & Hb). unfold fresh in Hv. congruence.
Qed.

Lemma no_shares_no_votes s v : vals_agree s -> fresh v s -> DelegatorShares v = 0 -> votes_on (addr v) (shares s) = 0.
Proof.
  intros Hs Hv Hz. pose proof (so_total _ _ (va_shares _ Hs) _ _ Hv) as Ht. pose proof (own_shares_nonneg v).
  pose proof (votes_on_nonneg _ _ (addr v) (va_shares _ Hs)). lia.
Qed.

Lemma unbond_mature_ends t a l s (Q : unit -> stk -> Prop) : vals_agree (pending t (a :: l) s) ->
  (forall s', vals_agree (pending t l s') -> matured s s' ->
    (forall u, u ≠ t -> validatorQueue s' !! u = validatorQueue s !! u) -> Q tt s') ->
  ends (unbond_mature a) s Q.
Proof.
  intros Hs HQ. unfold unbond_mature. apply ends_gets.
  assert (a ∈ slice (validatorQueue (pending t (a :: l) s)) t) as (v & Hv & Hst & Ht)%(qo_slice _ _ (va_queue _ Hs)).
  { unfold pending. cbn. rewrite slice_put, decide_True by done. left. }
  cbn in Hv. unfold GetValidator. rewrite Hv. destruct (va_vals _ Hs a v Hv) as (Ha & _ & Htok). subst a.
  unfold unbondingToUnbonded, completeUnbondingValidator, IsUnbonding. rewrite !bool_decide_eq_true_2 by done. cbn [negb].
  apply ends_bind, ends_modify, ends_ret. change (SetValidator (UpdateStatus v Unbonded) s) with (unbonded_state v s).
  fold (unbonded_v v). change (addr (unbonded_v v)) with (addr v).
  pose proof (agree_unbonded t v l s Hs Hv Hst Ht) as Hs1. pose proof (matured_unbonded v s (va_last _ Hs) Hv Hst) as Hm1.
  assert (fresh (unbonded_v v) (unbonded_state v s)) as Hf1 by (unfold fresh; cbn; apply lookup_insert_eq).
  destruct (_ && _) eqn:Hc; cbn [when]; [|by apply ends_ret, HQ]. apply andb_prop in Hc as [Hz%Z.eqb_eq _].
  apply (RemoveValidator_ends _ (unbonded_v v)); [done|done|done|done|]. intros wd. apply HQ.
  - apply (vals_agree_same (dropped (unbonded_v v) (pending t l (unbonded_state v s) <| shares := shares s |>))); [|by split].
    apply (agree_drop (pending t l (unbonded_state v s)) (addr v) (unbonded_v v) (shares s)); [done|done|done|done|]. intros [c d] x Hx. split; [done|]. cbn. intros ->.
    pose proof (no_shares_no_votes _ (unbonded_v v) Hs1 Hf1 Hz) as Hvz. by rewrite (votes_on_zero _ _ _ (va_shares _ Hs1) Hvz) in Hx.
  - apply (matured_trans _ _ _ Hm1), matured_dropped; [apply (va_last _ Hs1)|done|done].
  - done.
Qed.

Lemma mature_slice_ends t l : forall s (Q : unit -> stk -> Prop), vals_agree (pending t l s) ->
  (forall s', vals_agree (DeleteValidatorQueueTimeSlice t s') -> matured s s' ->
    (forall u, u ≠ t -> validatorQueue s' !! u = validatorQueue s !! u) -> Q tt s') ->
  ends (for_each l unbond_mature) s Q.
Proof.
  induction l as [|a l IH]; intros s Q Hs HQ; [apply ends_ret, HQ; [exact Hs|apply matured_refl|done]|].
  cbn [for_each]. apply ends_bind, (unbond_mature_ends t a l); [done|]. intros s1 Hs1 Hm1 Hq1. apply IH; [done|].
  intros s2 Hs2 Hm2 Hq2. apply HQ; [done|by apply (matured_trans _ s1)|]. intros u Hu. by rewrite Hq2, Hq1.
Qed.

Lemma mature_slices_ends l : forall s (Q : unit -> stk -> Prop), vals_agree s -> NoDup l.*1 ->
  (forall t sl, (t, sl) ∈ l -> validatorQueue s !! t = Some sl) ->
  (forall s', vals_agree s' -> matured s s' -> Q tt s') ->
  ends (for_each l (fun '(t, timeslice) => _ ← for_each timeslice unbond_mature; modify (DeleteValidatorQueueTimeSlice t))) s Q.
Proof.
  induction l as [|[t sl] l IH]; intros s Q Hs Hnd Hl HQ; [apply ends_ret, HQ; [done|apply matured_refl]|].
  cbn [for_each]. apply ends_bind, ends_bind. apply NoDup_cons in Hnd as [Hni Hnd]. fold (list_fmap _ _ (@fst Time (list Address)) l) in Hni, Hnd.
  assert (validatorQueue s !! t = Some sl) as Ht by (apply Hl; left).
  assert (pending t sl s = s) as Hp.
  { unfold pending, put_slice. rewrite decide_False by (by apply (qo_list _ _ (va_queue _ Hs) t)). rewrite insert_id by done. by destruct s. }
  apply (mature_slice_ends t sl); [by rewrite Hp|]. intros s1 Hs1 Hm1 Hq1.
  change (ends (for_each l (fun '(t, timeslice) => _ ← for_each timeslice unbond_mature; modify (DeleteValidatorQueueTimeSlice t)))
    (DeleteValidatorQueueTimeSlice t s1) Q). apply IH; [done|done| |].
  - intros u sl' Hu. cbn. assert (t ≠ u) as Htu.
    { intros <-. apply Hni. apply list_elem_of_fmap. by exists (t, sl'). }
    rewrite lookup_delete_ne, Hq1 by done. apply Hl. by right.
  - intros s2 Hs2 Hm2. apply HQ; [done|]. apply (matured_trans _ (DeleteValidatorQueueTimeSlice t s1)); [|done].
    apply (matured_trans _ s1); [done|]. by split.
Qed.

Lemma UnbondAll_ends b s (Q : unit -> stk -> Prop) : vals_agree s -> (forall s', vals_agree s' -> matured s s' -> Q tt s') ->
  ends (UnbondAllMatureValidatorQueue b) s Q.
Proof.
  intros Hs HQ. unfold UnbondAllMatureValidatorQueue. apply ends_gets, mature_slices_ends; [done| | |done].
  - unfold mature_slices. cbn zeta. rewrite <- list_fmap_compose. rewrite (list_fmap_ext _ id), list_fmap_id by done.
    rewrite merge_sort_Permutation. apply NoDup_filter, NoDup_fst_map_to_list.
  - intros t sl Hin. apply list_elem_of_fmap in Hin as (u & [= -> ->] & Hu). rewrite merge_sort_Permutation in Hu.
    apply list_elem_of_filter in Hu as [_ ([u' l] & -> & Hl%elem_of_map_to_list)%list_elem_of_fmap]. cbn.
    unfold GetValidatorQueueTimeSlice. by rewrite Hl.
Qed.

(** ** The end of a block *)

(** The tables agree, and the engine that applies [ups] knows the new set. *)
Definition set_updated s (ups : list ValidatorUpdate) s' : Prop :=
  set_ok s' /\ forall m, engine_is m s -> engine_is (apply_updates m ups) s'.

Lemma validator_updates_ends b e s : set_ok s -> ends (validator_updates b e) s (set_updated s).
Proof.
  intros Hs. destruct e; cbn [validator_updates].
  - do 2 apply ends_gets. apply ends_bind.
    apply (ends_mono _ _ _ (fun _ s1 => exists x, s1 = s <| epoch := x |>)).
    { destruct (negb _); [by exists (Some (p_Epoch (stk_params s)))|]. apply ends_ret. exists (epoch s). by destruct s. }
    intros _ s1 [x ->]. apply ends_modify. set (s1 := SetTheEndOfLastEpoch b _).
    assert (set_ok s1) as Hs1 by (apply (set_frame s); [done|by split|done|done]). apply ends_bind.
    apply (ends_mono _ _ _ _ _ (Apply_ends b s1 (settled_agree _ (set_vals _ Hs1)))). intros ups s2 He.
    apply ends_modify, ends_ret. split; [|intros m Hm; exact (sl_engine _ _ _ _ He m Hm)].
    split; [exact (sl_agree _ _ _ _ He)| | |].
    + change (votes_ok (fun _ => True) (delegators s2) (shares s2)). rewrite (sl_delegators _ _ _ _ He), (sl_shares _ _ _ _ He). apply Hs1.
    + exact (sl_total _ _ _ _ He (set_total _ Hs1)).
    + intros a d. change (delegators s2 !! a = Some d -> DelegatorAddress d = a). rewrite (sl_delegators _ _ _ _ He). apply Hs1.
  - apply ends_gets. destruct (IsKickedOut s); [|by apply ends_ret].
    apply ends_bind, (ends_mono _ _ _ _ _ (KickOut_ends b s (set_vals _ Hs) (set_total _ Hs))). intros ups s2 He.
    apply ends_modify, ends_ret. split; [|intros m Hm; exact (sk_engine _ _ _ _ He m Hm)].
    split; [exact (sk_settled _ _ _ _ He)| | |].
    + change (votes_ok (fun _ => True) (delegators s2) (shares s2)). rewrite (sk_delegators _ _ _ _ He), (sk_shares _ _ _ _ He). apply Hs.
    + exact (sk_total _ _ _ _ He).
    + intros a d. change (delegators s2 !! a = Some d -> DelegatorAddress d = a). rewrite (sk_delegators _ _ _ _ He). apply Hs.
Qed.

Lemma quiet_UndelegateCoins a l u s s' : runs (UndelegateCoins a l) s u s' -> quiet s s'.
Proof. unfold runs, UndelegateCoins. destruct (UndelegateCoinsFromModuleToAccount _ _ _ _); [|done]. intros [= <- _]. by split; [split|..]. Qed.
Lemma fails_gets {A B} (f : stk -> A) (k : A -> E B) s e s' : fails (gets f ≫= k) s e s' <-> fails (k (f s)) s e s'.
Proof. done. Qed.
Lemma CompleteUndelegation_fails a e s s' : fails (CompleteUndelegation a) s e s' -> s' = s.
Proof.
  unfold CompleteUndelegation. rewrite fails_gets. destruct (GetUndelegating a s) as [u|]; [|unfold fails, throw; naive_solver].
  intros [Hu|(x & s1 & _ & Hk)]%fails_bind; [|done]. unfold fails, UndelegateCoins in Hu.
  destruct (UndelegateCoinsFromModuleToAccount _ _ _ _); [done|]. by injection Hu as <- _.
Qed.
Lemma quiet_CompleteUndelegation a x s s' : runs (CompleteUndelegation a) s x s' -> quiet s s'.
Proof.
  intros Hc. unfold CompleteUndelegation in Hc. apply runs_bind in Hc as (o & s2 & Hg & Hc). run_inv Hg.
  destruct (GetUndelegating _ _); [|run_inv Hc]. apply runs_bind in Hc as (u2 & s2 & Hu & Hc).
  apply runs_bind in Hc as (u3 & s3 & Hm & Hc). run_inv Hm. run_inv Hc.
  apply (unseen_trans _ s2); [by apply (quiet_UndelegateCoins _ _ _ _ _ Hu)|by split; [split|..]].
Qed.
Lemma quiet_complete_one k u s s' : runs (complete_one k) s u s' -> quiet s s'.
Proof.
  destruct k as [t a]. intros Hr. unfold complete_one in Hr. apply runs_bind in Hr as (u1 & s1 & Hm & Hr). apply runs_modify in Hm as ->.
  apply (unseen_trans _ (DeleteAddrByTimeKey t a s)); [by split; [split|..]|]. apply runs_catch_inv in Hr as [Hr|(e & s2 & Hf & Hr)].
  - apply runs_bind in Hr as (x & s2 & Hc & [_ ->]%runs_ret). by apply (quiet_CompleteUndelegation _ _ _ _ Hc).
  - apply runs_ret in Hr as [_ ->]. apply fails_bind in Hf as [Hf|(x & s3 & _ & Hk)]; [|done]. apply CompleteUndelegation_fails in Hf as ->. apply quiet_refl.
Qed.

Lemma engine_quiet m s s' : quiet s s' -> engine_is m s -> engine_is m s'.
Proof. intros [Hv _ _]. apply engine_same; [by rewrite (sv_vals _ _ Hv)|apply (sv_last _ _ Hv)]. Qed.

(** What the end of a block starts from. *)
Record block_ready s : Prop := {
  br_wf : stk_wf s;
  br_acct : acct_ok (view s);
  br_set : set_ok s;
  br_epoch : GetEpoch s ≠ 0;
}.

Lemma payments_end b s s1 ups : stk_wf s -> acct_ok (view s) -> silent s s1 -> set_updated s ups s1 ->
  ends (keys ← gets (mature_keys (BlockTime b)); _ ← for_each keys complete_one; mret ups) s1 (set_updated s).
Proof.
  intros Hwf Hok Hy [Hs He]. apply ends_gets.
  destruct (complete_all (mature_keys (BlockTime b) s1) s1 (y_wf _ _ _ Hy)) as (s2 & Hp & _);
    [by rewrite (y_view _ _ _ Hy)|apply NoDup_mature_keys|by intros k [? _]%elem_mature_keys|].
  apply (ends_step _ _ _ _ _ _ _ Hp), ends_ret.
  assert (quiet s1 s2) as Hq.
  { apply (runs_for_each (quiet s1) _ _ _ _ _ Hp (quiet_refl s1)). intros k s3 s4 _ Hq3 Hk. apply (unseen_trans _ _ _ Hq3).
    by apply (quiet_complete_one k tt). }
  split; [by apply (set_quiet s1)|]. intros m Hm. apply (engine_quiet _ s1); [done|by apply He].
Qed.

Lemma EndBlocker_ends b s : block_ready s -> ends (EndBlocker b) s (set_updated s).
Proof.
  intros [Hwf Hok Hs Hep]. unfold EndBlocker. apply ends_bind. unfold Effects.ends, IsEndOfEpoch.
  rewrite (proj2 (Z.eqb_neq _ _) Hep). set (e := _ =? 0). change (ends (ups ← validator_updates b e;
    _ ← UnbondAllMatureValidatorQueue b; keys ← gets (mature_keys (BlockTime b)); _ ← for_each keys complete_one; mret ups) s (set_updated s)).
  apply ends_bind. eapply ends_mono.
  { apply (ends_also hook_panic _ _ _ (fun _ s1 => silent s s1) (validator_updates_ends b e s Hs)).
    intros ups s1. by apply q_validator_updates. }
  cbn beta. intros ups s1 [[Hs1 He1] Hy1]. apply ends_bind. eapply ends_mono.
  { apply (ends_also hook_panic _ _ (fun _ s2 => vals_agree s2 /\ matured s1 s2) (fun _ s2 => silent s s2)).
    - by apply UnbondAll_ends; [apply Hs1|].
    - intros u s2 Hr. by eapply q_UnbondAll. }
  cbn beta. intros _ s2 [[Ha2 Hm2] Hy2]. apply payments_end; [done|done|done|]. split; [by apply (set_matured s1)|].
  intros m Hm. by apply (mt_engine _ _ Hm2), He1.
Qed.

End Block_.
End StakingBlock.
