(* ===== verification/StakingReach.v ===== *)
(** Every reachable state is in order.

    The messages, the ends of blocks, what other modules do to the accounts,
    jail and unjail, and the changes of parameters governance makes keep the
    accounts, the validators' tables and the parameters as the module needs
    them, and the consensus engine never loses track of the set. *)
From S2P Require Import Prelude.
From S2P Require Import Interfaces.
From S2P Require Import Sums.
From S2P Require Import Effects.
From S2P Require Import StakingTypes.
From S2P Require Import StakingKeys.
From S2P Require Import StakingState.
From S2P Require Import StakingKeeper.
From S2P Require Import StakingVals.
From S2P Require Import StakingHandler.
From S2P Require Import StakingAcct.
From S2P Require Import StakingView.
From S2P Require Import StakingRefine.
From S2P Require Import StakingEnd.
From S2P Require Import StakingSet.
From S2P Require Import StakingVotes.
From S2P Require Import StakingElect.
From S2P Require Import StakingBlock.
Import StakingTypes StakingKeys StakingState StakingKeeper StakingVals StakingHandler StakingAcct StakingView StakingRefine StakingEnd.
Import StakingSet StakingVotes StakingElect StakingBlock.
Local Open Scope Z_scope.

Module StakingReach.
Section Reach.
Context {W : Type} `{SupplyKeeperLaws W, !StakingHooks W, !StakingHooksLaws W, !StakingSdk, !StakingSdkLaws, !StakingPowerLaws, !SdkConfig}.
Context (PubKey_Type : bytes -> string) (PubKeyTypes : option (list string)).
Abbreviation stk := (Stk W).
Abbreviation E := (eff (Stk W) stk_error).
Implicit Types (s : stk) (v w : Validator) (a c : Address) (b : Block).

(** ** Parameters *)

(** What the validation of the parameters ensures. *)
Definition params_ok (p : StakingParams) : Prop := 0 < p_Epoch p /\ 0 < p_MinDelegation p.
(** They hold, and so does the length of the running epoch. *)
Definition steady s : Prop := params_ok (stk_params s) /\ GetEpoch s ≠ 0.

Lemma steady_hook f s s' : hook f s = Ret s' -> steady s -> steady s'.
Proof. unfold hook. destruct (f (world s)); [|done]. by intros [= <-]. Qed.
Lemma keeps_DelegateCoins a l : keeps steady (DelegateCoins a l : E unit).
Proof. intros s s' r. unfold DelegateCoins. destruct (DelegateCoinsFromAccountToModule _ _ _ _); by intros [= <- _]. Qed.
Lemma keeps_UndelegateCoins a l : keeps steady (UndelegateCoins a l : E unit).
Proof. intros s s' r. unfold UndelegateCoins. destruct (UndelegateCoinsFromModuleToAccount _ _ _ _); by intros [= <- _]. Qed.
Lemma keeps_bondedToNot t : keeps steady (bondedTokensToNotBonded t : E unit).
Proof. apply keeps_modify_res. intros s s'. destruct (SendCoinsFromModuleToModule _ _ _ _); [|done]. by intros [= <-]. Qed.
Lemma steady_eq s s' : stk_params s' = stk_params s -> epoch s' = epoch s -> steady s -> steady s'.
Proof. unfold steady, GetEpoch. by intros -> ->. Qed.
Lemma steady_SetValidatorByPowerIndex v s : steady s -> steady (SetValidatorByPowerIndex v s).
Proof. unfold SetValidatorByPowerIndex. by destruct (Jailed v). Qed.
Lemma steady_SetProxyBinding p a rm s : steady s -> steady (SetProxyBinding p a rm s).
Proof. by destruct rm. Qed.
Lemma steady_DeleteValidatorQueue v s : steady s -> steady (DeleteValidatorQueue v s).
Proof. unfold DeleteValidatorQueue. by case_decide. Qed.

Create HintDb steady_db discriminated.
Hint Resolve keeps_DelegateCoins keeps_UndelegateCoins keeps_bondedToNot : steady_db.
Hint Resolve steady_SetValidatorByPowerIndex steady_SetProxyBinding steady_DeleteValidatorQueue : steady_db.
(** A pure step that does not touch the parameters. *)
Ltac pure_step :=
  match goal with
  | |- forall s, steady s -> steady (_ s) =>
      let s := fresh "s" in let Hs := fresh "Hs" in intros s Hs; first [exact Hs | solve [auto with steady_db]]
  | |- forall s s', hook _ s = Ret s' -> steady s -> steady s' => apply steady_hook
  end.
Ltac steady := keeps_with ltac:(first [solve [auto with steady_db] | pure_step]).

Lemma keeps_RemoveValidator a : keeps steady (RemoveValidator a : E unit).
Proof. unfold RemoveValidator, AfterValidatorRemoved. steady. Qed.
Lemma keeps_mustGet a : keeps steady (mustGetValidator a : E Validator).
Proof. unfold mustGetValidator. steady. Qed.
Lemma keeps_mustGetByCons c : keeps steady (mustGetValidatorByConsAddr c : E Validator).
Proof. unfold mustGetValidatorByConsAddr. steady. Qed.
Hint Resolve keeps_RemoveValidator keeps_mustGet keeps_mustGetByCons : steady_db.

Lemma keeps_addShares a v x : keeps steady (addShares a v x : E unit).
Proof. unfold addShares. steady. Qed.
Lemma keeps_withdrawShares a v x : keeps steady (withdrawShares a v x : E unit).
Proof. unfold withdrawShares. steady. Qed.
Lemma keeps_update_val_shares a y x v : keeps steady (update_val_shares a y x v : E unit).
Proof. unfold update_val_shares. steady. Qed.
Hint Resolve keeps_addShares keeps_withdrawShares keeps_update_val_shares : steady_db.

Lemma keeps_UpdateShares b a x : keeps steady (UpdateShares b a x : E unit).
Proof. unfold UpdateShares. steady. Qed.
Lemma keeps_AddSharesToValidators b a l x : keeps steady (AddSharesToValidators b a l x : E Dec).
Proof. unfold AddSharesToValidators. steady. Qed.
Lemma keeps_WithdrawLastShares a l x : keeps steady (WithdrawLastShares a l x : E unit).
Proof. unfold WithdrawLastShares. steady. Qed.
Hint Resolve keeps_UpdateShares keeps_AddSharesToValidators keeps_WithdrawLastShares : steady_db.

Lemma keeps_UpdateProxy b e x : keeps steady (UpdateProxy b e x : E unit).
Proof. unfold UpdateProxy. steady. Qed.
Lemma keeps_clear_one p a : keeps steady (clear_one p a : E unit).
Proof. unfold clear_one. steady. Qed.
Lemma keeps_enqueue a x t : keeps steady (enqueue_undelegation a x t : E unit).
Proof. unfold enqueue_undelegation. steady. Qed.
Lemma keeps_withdraw_all a e : keeps steady (withdraw_all a e : E unit).
Proof. unfold withdraw_all. steady. Qed.
Lemma keeps_AppendAbandoned c : keeps steady (AppendAbandonedValidatorAddrs c : E unit).
Proof. unfold AppendAbandonedValidatorAddrs. steady. Qed.
Hint Resolve keeps_UpdateProxy keeps_clear_one keeps_enqueue keeps_withdraw_all keeps_AppendAbandoned : steady_db.

Lemma keeps_ClearProxy p : keeps steady (ClearProxy p : E unit).
Proof. unfold ClearProxy. steady. Qed.
Lemma keeps_Delegate b a x : keeps steady (Delegate b a x : E unit).
Proof. unfold Delegate. steady. Qed.
Lemma keeps_Withdraw b a x : keeps steady (Withdraw b a x : E Time).
Proof. unfold Withdraw. steady. Qed.
Lemma keeps_CompleteUndelegation a : keeps steady (CompleteUndelegation a : E Dec).
Proof. unfold CompleteUndelegation. steady. Qed.
Lemma keeps_AddSharesAsMinSelfDelegation a v t : keeps steady (AddSharesAsMinSelfDelegation a v t : E Validator).
Proof. unfold AddSharesAsMinSelfDelegation, addSharesAsDefaultMinSelfDelegation. steady. Qed.
Lemma keeps_WithdrawMinSelfDelegation b a v : keeps steady (WithdrawMinSelfDelegation b a v : E Time).
Proof. unfold WithdrawMinSelfDelegation, AfterValidatorDestroyed. steady. Qed.
Hint Resolve keeps_ClearProxy keeps_Delegate keeps_Withdraw keeps_CompleteUndelegation keeps_AddSharesAsMinSelfDelegation keeps_WithdrawMinSelfDelegation : steady_db.

Lemma keeps_unbindProxy b a : keeps steady (unbindProxy b a : E unit).
Proof. unfold unbindProxy, or_error. steady. Qed.
Hint Resolve keeps_unbindProxy : steady_db.

Lemma keeps_bind_to b e f p : keeps steady (bind_to b e f p : E unit).
Proof. unfold bind_to, or_error. steady. Qed.
Hint Resolve keeps_bind_to : steady_db.

Lemma keeps_NewHandler b msg : keeps steady (NewHandler PubKey_Type PubKeyTypes b msg : E unit).
Proof.
  destruct msg as [m| | | | | | |p reg|]; cbn [NewHandler].
  - unfold handleMsgCreateValidator, AfterValidatorCreated. steady.
  - unfold handleMsgEditValidator. steady.
  - unfold handleMsgDeposit. steady.
  - unfold handleMsgWithdraw. steady.
  - unfold handleMsgAddShares. steady.
  - unfold handleMsgBindProxy, or_error. steady.
  - unfold handleMsgUnbindProxy. steady.
  - unfold handleRegProxy, regProxy, unregProxy, or_error. steady.
  - unfold handleMsgDestroyValidator. steady.
Qed.

Lemma keeps_bondValidator v : keeps steady (bondValidator v : E Validator).
Proof. unfold bondValidator, AfterValidatorBonded. steady. Qed.
Lemma keeps_beginUnbonding b v : keeps steady (beginUnbondingValidator b v : E Validator).
Proof. unfold beginUnbondingValidator, AfterValidatorBeginUnbonding. steady. Qed.
Lemma keeps_completeUnbonding v : keeps steady (completeUnbondingValidator v : E Validator).
Proof. unfold completeUnbondingValidator. steady. Qed.
Hint Resolve keeps_bondValidator keeps_beginUnbonding keeps_completeUnbonding : steady_db.

Lemma keeps_promote v : keeps steady (promote v : E Validator).
Proof. unfold promote, unbondedToBonded, unbondingToBonded. steady. Qed.
Lemma keeps_bondedToUnbonding b v : keeps steady (bondedToUnbonding b v : E Validator).
Proof. unfold bondedToUnbonding. steady. Qed.
Hint Resolve keeps_promote keeps_bondedToUnbonding : steady_db.

Lemma keeps_elect a v r : keeps steady (elect a v r : E set_update).
Proof. unfold elect. steady. Qed.
Lemma keeps_unbond_mature a : keeps steady (unbond_mature a : E unit).
Proof. unfold unbond_mature, unbondingToUnbonded. steady. Qed.
Lemma keeps_complete_one k : keeps steady (complete_one k : E unit).
Proof. unfold complete_one. steady. Qed.
Hint Resolve keeps_elect keeps_unbond_mature keeps_complete_one : steady_db.

Lemma keeps_jail c : keeps steady (Jail c : E unit).
Proof. unfold Jail, jailValidator. steady. Qed.
Lemma keeps_unjail c : keeps steady (Unjail c : E unit).
Proof. unfold Unjail, unjailValidator. steady. Qed.

Lemma keeps_elect_loop l : forall room r, keeps steady (elect_loop l room r : E set_update).
Proof. induction l as [|[k a] l IH]; intros [|room] r; cbn [elect_loop]; steady. Qed.
Lemma keeps_discharge_loop b l : forall ups, keeps steady (discharge_loop b l ups : E (list ValidatorUpdate)).
Proof. induction l as [|a l IH]; intros ups; cbn [discharge_loop]; steady. Qed.
Lemma keeps_kick_promote l : forall n last ups t, keeps steady (kick_promote_loop l n last ups t : E (list ValidatorUpdate * Z)).
Proof. induction l as [|[k a] l IH]; intros [|n] last ups t; cbn [kick_promote_loop]; unfold unbondedToBonded, unbondingToBonded; steady; apply IH. Qed.
Lemma keeps_kick_discharge b l : forall last ups t, keeps steady (kick_discharge_loop b l last ups t : E (list ValidatorUpdate * Z)).
Proof. induction l as [|a l IH]; intros last ups t; cbn [kick_discharge_loop]; steady; apply IH. Qed.
Hint Resolve keeps_elect_loop keeps_discharge_loop keeps_kick_promote keeps_kick_discharge : steady_db.

Lemma keeps_validator_updates b e : keeps steady (validator_updates b e : E (list ValidatorUpdate)).
Proof.
  destruct e; cbn [validator_updates].
  - intros s s' r Hr Hs. set (rest := fun _ : unit => _ ← modify (SetTheEndOfLastEpoch b); updates ← ApplyAndReturnValidatorSetUpdates b;
      _ ← modify DeleteAbandonedValidatorAddrs; mret updates : E (list ValidatorUpdate)).
    assert (forall u, keeps steady (rest u)) as Hrest by (intros u; unfold rest, ApplyAndReturnValidatorSetUpdates; steady).
    assert (exists s1, steady s1 /\ rest tt s1 = Ret (s', r)) as (s1 & Hs1 & Hr1); [|exact (Hrest tt s1 s' r Hr1 Hs1)].
    destruct (GetEpoch s =? p_Epoch (stk_params s)) eqn:He.
    + exists s. split; [done|]. revert Hr. unfold gets, mbind, eff_bind, when. cbv beta iota. rewrite He. cbn [negb]. done.
    + exists (SetEpoch (p_Epoch (stk_params s)) s). split.
      * destruct Hs as [[Hp Hm] _]. split; [by split|]. unfold GetEpoch. cbn. lia.
      * revert Hr. unfold gets, mbind, eff_bind, when. cbv beta iota. rewrite He. cbn [negb]. done.
  - unfold KickOutAndReturnValidatorSetUpdates. steady.
Qed.

(** ** Messages leave the seats alone *)

Section Seats.
Context (K : gmap Address bytes) (L : gmap Address Z).
(** Every bonded validator has the key [K] says. *)
Definition keyed v : Prop := Status v = Bonded -> K !! OperatorAddress v = Some (ConsPubKey v).
(** The powers are [L]. *)
Definition seats_kept s : Prop :=
  lastPowers s = L /\ forall a v, validators s !! a = Some v -> OperatorAddress v = a /\ keyed v.

Lemma seats_SetValidator v s : keyed v -> seats_kept s -> seats_kept (SetValidator v s).
Proof. intros Hv [Hl Hs]. split; [done|]. intros a w. cbn. rewrite lookup_insert. case_decide; [naive_solver|apply Hs]. Qed.
Lemma seats_GetValidator a s : seats_kept s -> forall v, GetValidator a s = Some v -> keyed v.
Proof. intros [_ Hs] v Hv. by apply (Hs a v). Qed.
Lemma seats_LastVals a s : seats_kept s ->
  forall v, v ∈ (GetLastValsAddedSharesExisted a s).1 -> keyed v.
Proof.
  intros Hs v. unfold GetLastValsAddedSharesExisted. destruct (GetDelegator a s) as [e|]; [|by intros ?%elem_of_nil].
  intros (c & _ & Hv)%list_elem_of_omap. by apply (seats_GetValidator c s Hs).
Qed.
Lemma seats_ToAddShares l s : seats_kept s -> forall vs, GetValidatorsToAddShares l s = inl vs -> forall v, v ∈ vs -> keyed v.
Proof.
  intros Hs. induction l as [|a l IH]; intros vs; cbn; [intros [= <-] v ?%elem_of_nil; done|].
  destruct (GetValidator a s) as [w|] eqn:Hw; [|done]. destruct (GetValidatorsToAddShares l s) as [ws|]; [|done].
  intros [= <-] v [->|Hv]%elem_of_cons; [by apply (seats_GetValidator a s Hs)|by apply (IH ws)].
Qed.
Lemma seats_delete a s : seats_kept s -> seats_kept (s <| validators := delete a (validators s) |>).
Proof. intros [Hl Hs]. split; [done|]. intros c w Hw. cbn in Hw. apply lookup_delete_Some in Hw as [_ Hw]. by apply Hs. Qed.

Lemma seats_hook f s s' : hook f s = Ret s' -> seats_kept s -> seats_kept s'.
Proof. unfold hook. destruct (f (world s)); [|done]. by intros [= <-]. Qed.
Lemma seats_DelegateCoins a l : keeps seats_kept (DelegateCoins a l : E unit).
Proof. intros s s' r. unfold DelegateCoins. destruct (DelegateCoinsFromAccountToModule _ _ _ _); by intros [= <- _]. Qed.
Lemma seats_bondedToNot t : keeps seats_kept (bondedTokensToNotBonded t : E unit).
Proof. apply keeps_modify_res. intros s s'. destruct (SendCoinsFromModuleToModule _ _ _ _); [|done]. by intros [= <-]. Qed.
Lemma seats_SetValidatorByPowerIndex v s : seats_kept s -> seats_kept (SetValidatorByPowerIndex v s).
Proof. unfold SetValidatorByPowerIndex. by destruct (Jailed v). Qed.
Lemma seats_SetProxyBinding p a rm s : seats_kept s -> seats_kept (SetProxyBinding p a rm s).
Proof. by destruct rm. Qed.

Create HintDb seats_db discriminated.
Hint Resolve seats_DelegateCoins seats_bondedToNot seats_SetValidator seats_SetValidatorByPowerIndex seats_SetProxyBinding seats_delete : seats_db.
Ltac read_last := apply (keeps_read seats_kept (fun r => forall v, v ∈ r.1 -> keyed v)); [apply seats_LastVals|intros [? ?] ?; cbn beta iota in *; cbn [fst] in *].
Ltac seat_step :=
  match goal with
  | Hv : forall v, Some ?w = Some v -> keyed v |- _ => specialize (Hv w eq_refl)
  | |- forall s, seats_kept s -> seats_kept (_ s) =>
      let s := fresh "s" in let Hs := fresh "Hs" in intros s Hs; first [exact Hs | solve [auto with seats_db]]
  | |- forall s s', hook _ s = Ret s' -> seats_kept s -> seats_kept s' => apply seats_hook
  | |- keeps _ (for_each _ _) => apply keeps_for_each_in; intros ? ?
  | |- keeps _ (gets (GetLastValsAddedSharesExisted _) ≫= _) => read_last
  | |- keeps _ (gets (GetValidatorsToAddShares _) ≫= _) =>
      apply (keeps_read seats_kept (fun r => forall vs, r = inl vs -> forall v, v ∈ vs -> keyed v));
        [apply seats_ToAddShares|intros ? ?; cbn beta in *]
  | |- keeps _ (gets (GetValidator _) ≫= _) =>
      apply (keeps_read seats_kept (fun o => forall v, o = Some v -> keyed v)); [apply seats_GetValidator|intros ? ?; cbn beta in *]
  end.
Ltac seats := keeps_with ltac:(first [seat_step | solve [eauto with seats_db]]).

Lemma seats_RemoveValidator a : keeps seats_kept (RemoveValidator a : E unit).
Proof. unfold RemoveValidator, AfterValidatorRemoved. seats. Qed.
Hint Resolve seats_RemoveValidator : seats_db.
Lemma seats_addShares a v x : keyed v -> keeps seats_kept (addShares a v x : E unit).
Proof. intros Hv. unfold addShares. seats. Qed.
Lemma seats_withdrawShares a v x : keyed v -> keeps seats_kept (withdrawShares a v x : E unit).
Proof. intros Hv. unfold withdrawShares. seats. Qed.
Lemma seats_update_val_shares a y x v : keyed v -> keeps seats_kept (update_val_shares a y x v : E unit).
Proof. intros Hv. unfold update_val_shares. seats. Qed.
Hint Resolve seats_addShares seats_withdrawShares seats_update_val_shares : seats_db.


Lemma seats_UpdateShares b a x : keeps seats_kept (UpdateShares b a x : E unit).
Proof. unfold UpdateShares. seats. Qed.
Lemma seats_AddSharesToValidators b a l x : (forall v, v ∈ l -> keyed v) -> keeps seats_kept (AddSharesToValidators b a l x : E Dec).
Proof. intros Hl. unfold AddSharesToValidators. seats. Qed.
Lemma seats_WithdrawLastShares a l x : (forall v, v ∈ l -> keyed v) -> keeps seats_kept (WithdrawLastShares a l x : E unit).
Proof. intros Hl. unfold WithdrawLastShares. seats. Qed.
Hint Resolve seats_UpdateShares seats_AddSharesToValidators seats_WithdrawLastShares : seats_db.
Lemma seats_UpdateProxy b e x : keeps seats_kept (UpdateProxy b e x : E unit).
Proof. unfold UpdateProxy. seats. Qed.
Lemma seats_clear_one p a : keeps seats_kept (clear_one p a : E unit).
Proof. unfold clear_one. seats. Qed.
Lemma seats_enqueue a x t : keeps seats_kept (enqueue_undelegation a x t : E unit).
Proof. unfold enqueue_undelegation. seats. Qed.
Lemma seats_withdraw_all a e : keeps seats_kept (withdraw_all a e : E unit).
Proof. unfold withdraw_all. seats. Qed.
Lemma seats_AppendAbandoned c : keeps seats_kept (AppendAbandonedValidatorAddrs c : E unit).
Proof. unfold AppendAbandonedValidatorAddrs, mustGetValidatorByConsAddr. seats. Qed.
Hint Resolve seats_UpdateProxy seats_clear_one seats_enqueue seats_withdraw_all seats_AppendAbandoned : seats_db.
Lemma seats_ClearProxy p : keeps seats_kept (ClearProxy p : E unit).
Proof. unfold ClearProxy. seats. Qed.
Lemma seats_Delegate b a x : keeps seats_kept (Delegate b a x : E unit).
Proof. unfold Delegate. seats. Qed.
Lemma seats_Withdraw b a x : keeps seats_kept (Withdraw b a x : E Time).
Proof. unfold Withdraw. seats. Qed.
Lemma seats_AddSharesAsMin a v t : keyed v -> keeps seats_kept (AddSharesAsMinSelfDelegation a v t : E Validator).
Proof. intros Hv. unfold AddSharesAsMinSelfDelegation, addSharesAsDefaultMinSelfDelegation. seats. Qed.
Lemma seats_WithdrawMin b a v : keyed v -> keeps seats_kept (WithdrawMinSelfDelegation b a v : E Time).
Proof. intros Hv. unfold WithdrawMinSelfDelegation, AfterValidatorDestroyed. seats. Qed.
Lemma seats_unbindProxy b a : keeps seats_kept (unbindProxy b a : E unit).
Proof. unfold unbindProxy, or_error. seats. Qed.
Hint Resolve seats_ClearProxy seats_Delegate seats_Withdraw seats_AddSharesAsMin seats_WithdrawMin seats_unbindProxy : seats_db.
Lemma seats_bind_to b e f p : keeps seats_kept (bind_to b e f p : E unit).
Proof. unfold bind_to, or_error. seats. Qed.
Hint Resolve seats_bind_to : seats_db.

Lemma keyed_new v : Status v = Unbonded -> keyed v.
Proof. intros Hs Hb. congruence. Qed.
Lemma seats_AddShares b a l : keeps seats_kept (handleMsgAddShares b a l : E unit).
Proof.
  unfold handleMsgAddShares. seats.
Qed.
Lemma SetInitialCommission_keyed v (c : Commission) w o : Status v = Unbonded -> SetInitialCommission v c = (w, o) -> keyed w.
Proof. unfold SetInitialCommission. intros Hs. by destruct (Validate _); intros [= <- _]; apply keyed_new. Qed.
Lemma seats_CreateValidator m : keeps seats_kept (handleMsgCreateValidator PubKey_Type PubKeyTypes m : E unit).
Proof.
  unfold handleMsgCreateValidator, AfterValidatorCreated. cbv zeta.
  pose proof (SetInitialCommission_keyed (NewValidator (cv_ValidatorAddress m) (cv_PubKey m) (cv_Description m) (cv_MinSelfDelegation m).2)
    (NewCommission (NewDec 1) (NewDec 1) (NewDec 0))) as Hv.
  destruct (SetInitialCommission _ _) as [v o]. specialize (Hv v o eq_refl eq_refl). seats.
Qed.
Lemma seats_NewHandler b msg : keeps seats_kept (NewHandler PubKey_Type PubKeyTypes b msg : E unit).
Proof.
  destruct msg as [m| | | | | | |p reg|]; cbn [NewHandler].
  - apply seats_CreateValidator.
  - unfold handleMsgEditValidator. seats.
  - unfold handleMsgDeposit. seats.
  - unfold handleMsgWithdraw. seats.
  - apply seats_AddShares.
  - unfold handleMsgBindProxy, or_error. seats.
  - unfold handleMsgUnbindProxy. seats.
  - unfold handleRegProxy, regProxy, unregProxy, or_error. seats.
  - unfold handleMsgDestroyValidator. seats.
Qed.

End Seats.

Lemma engine_message b msg u s s' m : runs (NewHandler PubKey_Type PubKeyTypes b msg) s u s' -> vals_agree s -> vals_agree s' ->
  engine_is m s -> engine_is m s'.
Proof.
  intros Hr Hs Hs' He.
  assert (seats_kept (ConsPubKey <$> validators s) (lastPowers s) s) as Hk.
  { split; [done|]. intros a v Hv. destruct (va_vals _ Hs a v Hv) as (Ha & _). split; [done|]. intros _. by rewrite Ha, lookup_fmap, Hv. }
  apply (keeps_runs _ _ _ _ _ (seats_NewHandler _ _ b msg) Hr) in Hk as [Hl Hkeys].
  assert (forall a v', is_Some (lastPowers s !! a) -> validators s' !! a = Some v' -> exists v, validators s !! a = Some v /\ ConsPubKey v = ConsPubKey v') as Hback.
  { intros a v' Ha Hv'. rewrite <- Hl in Ha. apply (va_last _ Hs') in Ha as (w & Hw & Hb). assert (w = v') as -> by congruence.
    destruct (Hkeys a v' Hv') as [Haddr Hkv]. specialize (Hkv Hb). rewrite Haddr, lookup_fmap in Hkv.
    destruct (validators s !! a) as [v|]; [|done]. injection Hkv as Hkv. by exists v. }
  intros k p. rewrite (He k p), Hl. split; intros (a & v & Hv & Hvk & Hp).
  - assert (is_Some (lastPowers s' !! a)) as (v' & Hv' & _)%(va_last _ Hs') by (rewrite Hl, Hp; done).
    destruct (Hback a v') as (w & Hw & Hwk); [by exists p|done|]. exists a, v'. split_and!; congruence.
  - destruct (Hback a v) as (w & Hw & Hwk); [by exists p|done|]. exists a, w. split_and!; congruence.
Qed.

(** ** Messages *)

(** The module's state is in order. *)
Record in_order s : Prop := {
  io_wf : stk_wf s;
  io_acct : acct_ok (view s);
  io_set : set_ok s;
  io_steady : steady s;
}.
Lemma ready s : in_order s -> block_ready s.
Proof. intros [? ? ? [_ ?]]. by split. Qed.

Lemma acct_funded s : acct_ok (view s) -> funded s.
Proof.
  intros Hok a e He. assert (a_del (view s) !! a = Some (dview e)) as Hd by (unfold view; cbn; by rewrite lookup_fmap, He).
  split; [exact (ok_positive _ Hok a _ Hd)|]. pose proof (ok_total _ Hok a _ Hd) as Ht. cbn in Ht. rewrite Ht.
  apply msum_nonneg. intros c d Hc. pose proof (ok_positive _ Hok c d Hc). case_decide; lia.
Qed.

Lemma not_own_proxy s a e : acct_ok (view s) -> delegators s !! a = Some e -> ProxyAddress e ≠ Some a.
Proof.
  intros Hok He Hp. assert (a_del (view s) !! a = Some (dview e)) as Hd by (unfold view; cbn; by rewrite lookup_fmap, He).
  destruct (ok_bound _ Hok a _ a Hd Hp) as [Hn (f & Hf & Hy)]. congruence.
Qed.

Lemma handler_set b msg u s s' : late b -> msg_fine msg -> in_order s -> runs (NewHandler PubKey_Type PubKeyTypes b msg) s u s' -> set_ok s'.
Proof.
  intros Hb Hm [Hwf Hok Hs [[_ Hmin] _]] Hr. pose proof (acct_funded s Hok) as Hf. pose proof (fun a e => not_own_proxy s a e Hok) as Hown.
  destruct msg as [m|v desc|a amount|a amount|a l|a p|a|p reg|a]; cbn [NewHandler] in Hr.
  - destruct Hm as [Hpos Haddr]. eapply CreateValidator_set; eassumption.
  - eapply EditValidator_set; eassumption.
  - unfold handleMsgDeposit in Hr. destruct (negb _); [run_inv Hr|]. eapply Delegate_set; eassumption.
  - unfold handleMsgWithdraw in Hr. destruct (negb _); [run_inv Hr|]. apply runs_bind in Hr as (t & s1 & Hr & Hr1). run_inv Hr1.
    eapply Withdraw_set; eauto.
  - eapply AddShares_set; eassumption.
  - eapply BindProxy_set; eauto.
  - destruct (unbindProxy_set b a u s s' Hr Hb Hs Hf (Hown a)) as (e & _ & Hs' & _). exact Hs'.
  - unfold handleRegProxy in Hr. destruct reg; [eapply regProxy_set|eapply unregProxy_set]; eassumption.
  - eapply DestroyValidator_set; eassumption.
Qed.

(** ** Jail *)

(** The validator with the flag [j]. *)
Definition with_jailed (j : bool) v : Validator := v <| Jailed := j |>.
Lemma own_shares_deposit v v' : MinSelfDelegation v ≠ 0 -> MinSelfDelegation v' = MinSelfDelegation v -> own_shares v' = own_shares v.
Proof. intros Hm He. unfold own_shares. rewrite He. by rewrite (proj2 (Z.eqb_neq _ _) Hm). Qed.

Lemma reindex_jailed j v s : set_ok s -> fresh v s -> MinSelfDelegation v ≠ 0 ->
  set_ok (reindex v (with_jailed j v) s) /\ forall m, engine_is m s -> engine_is m (reindex v (with_jailed j v) s).
Proof.
  intros Hs Hv Hm. assert (vals_agree (reindex v (with_jailed j v) (s <| shares := shares s |>))) as Ha.
  { apply (agree_reindex s (OperatorAddress v)); [apply Hs|done|by split|by split|].
    apply (shares_same _ _ _ v); [apply Hs|done|]. rewrite (own_shares_deposit v (with_jailed j v)) by done. done. }
  split.
  - split; [|apply Hs..]. apply (vals_agree_same _ _ Ha). by split.
  - intros m He k p. rewrite (He k p). cbn. split; intros (a & w & Hw & Hk & Hp); exists a.
    + destruct (decide (OperatorAddress v = a)) as [<-|Hne]; [|exists w; by rewrite lookup_insert_ne].
      assert (w = v) as -> by (unfold fresh in Hv; congruence). exists (with_jailed j v). by rewrite lookup_insert_eq.
    + rewrite lookup_insert in Hw. case_decide as Ha1; [|by exists w]. injection Hw as <-. subst a. by exists v.
Qed.

Lemma Jail_reindex c v u s s' : vals_agree s -> GetValidatorByConsAddr c s = Some v -> runs (Jail c) s u s' ->
  fresh v s /\ s' = reindex v (with_jailed true v) s.
Proof.
  intros Hs Hg Hr. unfold Jail, mustGetValidatorByConsAddr in Hr. apply runs_bind in Hr as (w & s1 & Hr1 & Hr). run_inv Hr1.
  rewrite Hg in Hr1. run_inv Hr1. unfold GetValidatorByConsAddr in Hg. apply bind_Some in Hg as (a & _ & Hv).
  destruct (fresh_lookup a v s Hs Hv) as [Hf _]. split; [done|]. unfold jailValidator in Hr. destruct (Jailed v); [run_inv Hr|].
  fold (with_jailed true v) in Hr. run_inv Hr. unfold reindex, reindexed, DeleteValidatorByPowerIndex. cbn [with_jailed Jailed].
  rewrite (key_same (with_jailed true v) v) by done. done.
Qed.
Lemma Unjail_reindex c v u s s' : vals_agree s -> GetValidatorByConsAddr c s = Some v -> runs (Unjail c) s u s' ->
  fresh v s /\ s' = reindex v (with_jailed false v) s.
Proof.
  intros Hs Hg Hr. unfold Unjail, mustGetValidatorByConsAddr in Hr. apply runs_bind in Hr as (w & s1 & Hr1 & Hr). run_inv Hr1.
  rewrite Hg in Hr1. run_inv Hr1. unfold GetValidatorByConsAddr in Hg. apply bind_Some in Hg as (a & _ & Hv).
  destruct (fresh_lookup a v s Hs Hv) as [Hf _]. split; [done|]. unfold unjailValidator in Hr. destruct (Jailed v); cbn [negb] in Hr; [|run_inv Hr].
  fold (with_jailed false v) in Hr. run_inv Hr. unfold reindex, reindexed, SetValidatorByPowerIndex, SetNewValidatorByPowerIndex.
  cbn [with_jailed Jailed]. rewrite (key_same (with_jailed false v) v) by done.
  change (Jailed (with_jailed false v)) with false. by rewrite insert_delete_eq.
Qed.

Lemma reindex_silent v v' s : stk_wf s -> fresh v s -> OperatorAddress v' = OperatorAddress v -> MinSelfDelegation v' = MinSelfDelegation v ->
  silent s (reindex v v' s).
Proof.
  intros Hwf Hv Ha Hm. rewrite <- reindex_eq. assert (copy_of v s) as Hc by (by apply (copy_of_lookup (OperatorAddress v))).
  apply q_frame; [apply _|]. apply q_SetValidator; [|unfold copy_of in *; by rewrite Ha, Hm]. apply q_frame; [apply _|by apply silent_refl].
Qed.

Lemma jail_in_order j v s : in_order s -> fresh v s -> MinSelfDelegation v ≠ 0 -> in_order (reindex v (with_jailed j v) s).
Proof.
  intros [Hwf Hok Hs Hst] Hv Hm. pose proof (reindex_silent v (with_jailed j v) s Hwf Hv eq_refl eq_refl) as Hy.
  split; [apply Hy|by rewrite (y_view _ _ _ Hy)|by apply reindex_jailed|done].
Qed.

(** ** Histories *)

(** What happens to the module, and the updates the engine is told. *)
Inductive move s : list ValidatorUpdate -> stk -> Prop :=
  | move_message b msg u s' : late b -> msg_fine msg -> runs (NewHandler PubKey_Type PubKeyTypes b msg) s u s' -> move s [] s'
  (** a message that fails or panics is rolled back *)
  | move_rejected : move s [] s
  | move_end_block b ups s' : runs (EndBlocker b) s ups s' -> move s ups s'
  | move_others wd : keeps_pools (world s) wd -> move s [] (s <| world := wd |>)
  (** the slashing module jails and unjails validators with a deposit *)
  | move_jail c v u s' : GetValidatorByConsAddr c s = Some v -> MinSelfDelegation v ≠ 0 -> runs (Jail c) s u s' -> move s [] s'
  | move_unjail c v u s' : GetValidatorByConsAddr c s = Some v -> MinSelfDelegation v ≠ 0 -> runs (Unjail c) s u s' -> move s [] s'
  (** governance changes the parameters *)
  | move_params p : params_ok p -> move s [] (s <| stk_params := p |>).
Inductive moves s : list ValidatorUpdate -> stk -> Prop :=
  | moves_refl : moves s [] s
  | moves_step ups1 s1 ups2 s2 : moves s ups1 s1 -> move s1 ups2 s2 -> moves s (ups1 ++ ups2) s2.

Lemma EndBlocker_steady b : keeps steady (EndBlocker b : E (list ValidatorUpdate)).
Proof.
  change (keeps steady (e ← (fun s => match IsEndOfEpoch b s with Ret x => Ret (s, inl x) | Panic p => Panic p end);
    ups ← validator_updates b e; _ ← UnbondAllMatureValidatorQueue b; keys ← gets (mature_keys (BlockTime b));
    _ ← for_each keys complete_one; mret ups : E (list ValidatorUpdate))).
  apply keeps_bind; [intros s s' r; destruct (IsEndOfEpoch b s); by intros [= <- _]|]. intros e.
  apply keeps_bind; [apply keeps_validator_updates|]. intros ups. unfold UnbondAllMatureValidatorQueue. steady.
Qed.

Lemma EndBlocker_in_order b ups s s' : in_order s -> runs (EndBlocker b) s ups s' -> in_order s' /\ set_updated s ups s'.
Proof.
  intros Hs Hr. pose proof (ends_runs hook_panic _ _ _ _ _ (EndBlocker_ends b s (ready s Hs)) Hr) as [Hset He]. destruct Hs as [Hwf Hok _ Hst].
  destruct (step_keeps PubKey_Type PubKeyTypes s s' (step_end_block _ _ _ _ _ _ Hr) Hwf Hok) as [Hwf' Hok'].
  split; [|done]. split; [done|done|done|]. exact (keeps_runs _ _ _ _ _ (EndBlocker_steady b) Hr Hst).
Qed.

Lemma move_in_order s ups s' : move s ups s' -> in_order s -> in_order s' /\ set_updated s ups s'.
Proof.
  intros Hm Hs. destruct Hm as [b msg u s' Hb Hmsg Hr| |b ups s' Hr|w Hw|c v u s' Hg Hd Hr|c v u s' Hg Hd Hr|p Hp].
  - pose proof (handler_set b msg u s s' Hb Hmsg Hs Hr) as Hset'. pose proof Hs as [Hwf Hok Hset Hst].
    destruct (step_keeps PubKey_Type PubKeyTypes s s' (step_message _ _ _ _ _ _ _ (msg_fine_ok _ Hmsg) Hr) Hwf Hok) as [Hwf' Hok'].
    split; [split; [done|done|done|exact (keeps_runs _ _ _ _ _ (keeps_NewHandler b msg) Hr Hst)]|]. split; [done|].
    intros m. apply (engine_message b msg u); [done|apply Hset|apply Hset'].
  - split; [done|]. split; [apply Hs|done].
  - by apply (EndBlocker_in_order b).
  - destruct Hs as [Hwf Hok Hset Hst]. destruct (step_keeps PubKey_Type PubKeyTypes s _ (step_others _ _ s w Hw) Hwf Hok) as [Hwf' Hok'].
    assert (set_ok (s <| world := w |>)) as Hset' by (by apply (set_frame s); [|split|..]). split; [by split|]. by split.
  - destruct (Jail_reindex c v u s s' (set_vals _ (io_set _ Hs)) Hg Hr) as [Hf ->]. split; [by apply jail_in_order|].
    by apply reindex_jailed; [apply (io_set _ Hs)|..].
  - destruct (Unjail_reindex c v u s s' (set_vals _ (io_set _ Hs)) Hg Hr) as [Hf ->]. split; [by apply jail_in_order|].
    by apply reindex_jailed; [apply (io_set _ Hs)|..].
  - destruct Hs as [Hwf Hok Hset Hst]. assert (set_ok (s <| stk_params := p |>)) as Hset' by (by apply (set_frame s); [|split|..]).
    split; [|by split]. split; [destruct Hwf, Hp; by split|done|done|]. split; [done|]. apply Hst.
Qed.

Lemma moves_in_order s ups s' : moves s ups s' -> in_order s -> in_order s' /\ set_updated s ups s'.
Proof.
  intros Hm Hs. induction Hm as [|ups1 s1 ups2 s2 _ [Hs1 [Hset1 He1]] Hm].
  - split; [done|]. split; [apply Hs|done].
  - destruct (move_in_order s1 ups2 s2 Hm Hs1) as [Hs2 [Hset2 He2]]. split; [done|]. split; [done|].
    intros m Hm0. unfold apply_updates. rewrite fold_left_app. by apply He2, He1.
Qed.

(** ** The end of a block, in every reachable state *)

Definition reachable s : Prop := exists s0 ups, moves s0 ups s /\ in_order s0.
Lemma reachable_in_order s : reachable s -> in_order s.
Proof. intros (s0 & ups & Hm & Hs0). by destruct (moves_in_order s0 ups s Hm Hs0). Qed.

(** C20: in every reachable state the end of a block returns: it never
    returns an error, and none of its own panics can happen (a validator
    that is not found, a bad state transition, a jailed candidate, a
    division by a zero epoch); only a hook of another module can stop it.
    The state it returns is in order again. *)
Theorem EndBlocker_returns s b : reachable s ->
  match EndBlocker b s with
  | Ret (s', inl ups) => in_order s'
  | Ret (_, inr _) => False
  | Panic p => hook_panic (W := W) p
  end.
Proof.
  intros Hs%reachable_in_order. pose proof (EndBlocker_ends b s (ready s Hs)) as He. revert He. unfold Effects.ends.
  destruct (EndBlocker b s) as [[s' [ups|e]]|p] eqn:Hr; [intros _|done..]. exact (proj1 (EndBlocker_in_order b ups s s' Hs Hr)).
Qed.

(** C21: at the end of an epoch the strongest eligible validators in the
    order of the power index, as many as there are seats, are bonded with
    the power of their shares; whoever had a seat and is not among them
    begins to unbond; nobody else changes, and the engine is told exactly
    the powers that differ and then the zeros.  When seats are given up
    within an epoch as many of the strongest eligible validators without a
    seat take over, and the total power stays the sum of the powers. *)
Theorem validator_set_updates s b : reachable s ->
  match ApplyAndReturnValidatorSetUpdates b s with
  | Ret (s', inl ups) => set_elected b s ups s'
  | Ret (_, inr _) => False
  | Panic p => hook_panic (W := W) p
  end /\
  match KickOutAndReturnValidatorSetUpdates b s with
  | Ret (s', inl ups) => set_kicked b s ups s'
  | Ret (_, inr _) => False
  | Panic p => hook_panic (W := W) p
  end.
Proof.
  intros [_ _ Hs _]%reachable_in_order. split.
  - exact (Apply_ends b s (settled_agree s (set_vals s Hs))).
  - exact (KickOut_ends b s (set_vals s Hs) (set_total s Hs)).
Qed.

(** C22: the consensus engine never loses the set: if it knows the powers
    of the validators once, then after it applied the updates of the ends
    of blocks it knows exactly the powers stored, by the keys of the
    validators that hold them, whatever messages, jailings and changes of
    parameters came between. *)
Theorem engine_follows_updates s0 ups s m : moves s0 ups s -> in_order s0 -> engine_is m s0 -> engine_is (apply_updates m ups) s.
Proof. intros Hm Hs0. destruct (moves_in_order s0 ups s Hm Hs0) as [_ [_ He]]. apply He. Qed.

End Reach.
End StakingReach.
