(* ===== verification/StakingInvariants.v ===== *)
(** The lists the store is read as, and the invariants the module registers
    (staking/keeper: alias_functions.go, invariants.go, pool.go, the readers
    of keeper.go, validator.go, shares.go, delegator.go, delegation.go).

    An iterator calls a function on the entries in the order of their keys
    until it asks to stop.  The registered invariants hold in every reachable
    state. *)
From S2P Require Import Prelude.
From S2P Require Import Interfaces.
From S2P Require Import Sums.
From S2P Require Import Coins.
From S2P Require Import Effects.
From S2P Require Import StakingTypes.
From S2P Require Import StakingKeys.
From S2P Require Import StakingState.
From S2P Require Import StakingKeeper.
From S2P Require Import StakingVals.
From S2P Require Import StakingHandler.
From S2P Require Import StakingAcct.
From S2P Require Import StakingView.
From S2P Require Import StakingSet.
From S2P Require Import StakingVotes.
From S2P Require Import StakingElect.
From S2P Require Import StakingReach.
From stdpp Require Import sorting.
Import StakingTypes StakingKeys StakingState StakingKeeper StakingVals StakingHandler StakingAcct StakingView.
Import StakingSet StakingVotes StakingElect StakingReach.
Local Open Scope Z_scope.

Module StakingInvariants.

(** ** Iterators *)

(** The loop of an iterator: [fn] gets the index and the entry, and says
    whether to stop. *)
Fixpoint iterate {X A} (fn : Z -> X -> A -> A * bool) (l : list X) (i : Z) (acc : A) : A :=
  match l with
  | [] => acc
  | x :: rest => let '(acc, stop) := fn i x acc in if stop then acc else iterate fn rest (i + 1) acc
  end.
(** With a function that collects and never stops. *)
Definition collect {X A} (f : X -> A -> A) : Z -> X -> A -> A * bool := fun _ x acc => (f x acc, false).
Lemma iterate_collect {X A} (f : X -> A -> A) l : forall i acc, iterate (collect f) l i acc = fold_left (fun acc x => f x acc) l acc.
Proof. induction l as [|x l IH]; intros i acc; [done|]. cbn. apply IH. Qed.

Section Lists.
Context {W : Type} `{SupplyKeeper W, StakingHooks W, StakingSdk, SdkConfig}.
Abbreviation stk := (Stk W).
Implicit Types (s : stk) (v : Validator) (a : Address) (b : Block).

Definition GetAllValidators s : list Validator := (entries (validators s)).*2.
Definition IterateValidators {A} (fn : Z -> Validator -> A -> A * bool) (acc : A) s : A :=
  iterate fn (entries (validators s)).*2 0 acc.
Definition IterateDelegator {A} (fn : Z -> Delegator -> A -> A * bool) (acc : A) s : A :=
  iterate fn (entries (delegators s)).*2 0 acc.
Definition IterateUndelegationInfo {A} (fn : Z -> UndelegationInfo -> A -> A * bool) (acc : A) s : A :=
  iterate fn (entries (undelegations s)).*2 0 acc.
Definition IterateLastValidatorPowers {A} (handler : Address * Z -> A -> A * bool) (acc : A) s : A :=
  iterate (fun _ => handler) (entries (lastPowers s)) 0 acc.

(** Keys of votes: the validator, then the delegator. *)
Definition share_le (x y : Address * Address * Dec) : Prop :=
  (x.1.1 < y.1.1)%N \/ x.1.1 = y.1.1 /\ (x.1.2 <= y.1.2)%N.
#[global] Instance share_le_dec : RelDecision share_le.
Proof. intros x y. unfold share_le. apply _. Defined.
Definition share_entries s : list (Address * Address * Dec) := merge_sort share_le (map_to_list (shares s)).
Definition IterateShares {A} (fn : Z -> Address * Address * Dec -> A -> A * bool) (acc : A) s : A :=
  iterate fn (share_entries s) 0 acc.
Definition GetValidatorAllShares a s : list (Address * Dec) :=
  (fun x => (x.1.2, x.2)) <$> filter (fun x : Address * Address * Dec => x.1.1 = a) (share_entries s).

(** The last set's records; one that is missing is a panic. *)
Fixpoint iterate_last {A} (fn : Z -> Validator -> A -> A * bool) (l : list (Address * Z)) (i : Z) (acc : A) s : res A :=
  match l with
  | [] => Ret acc
  | (address, _) :: rest =>
      match GetValidator address s with
      | None => Panic (PanicMsg "validator record not found for address")
      | Some validator =>
          let '(acc, stop) := fn i validator acc in if stop then Ret acc else iterate_last fn rest (i + 1) acc s
      end
  end.
Definition IterateLastValidators {A} (fn : Z -> Validator -> A -> A * bool) (acc : A) s : res A :=
  iterate_last fn (entries (lastPowers s)) 0 acc s.

(** Bonded validators by power, as many as there are seats. *)
Fixpoint iterate_bonded {A} (fn : Z -> Validator -> A -> A * bool) (maxValidators : Z) (l : list (bytes * Address)) (i : Z)
    (acc : A) s : res A :=
  match l with
  | [] => Ret acc
  | (_, address) :: rest =>
      if i <? maxValidators then
        match GetValidator address s with
        | None => Panic (PanicMsg "validator record not found")
        | Some validator =>
            if IsBonded validator then
              let '(acc, stop) := fn i validator acc in
              if stop then Ret acc else iterate_bonded fn maxValidators rest (i + 1) acc s
            else iterate_bonded fn maxValidators rest i acc s
        end
      else Ret acc
  end.
Definition IterateBondedValidatorsByPower {A} b (fn : Z -> Validator -> A -> A * bool) (acc : A) s : res A :=
  iterate_bonded fn (p_MaxValidators (GetParams b s)) (ValidatorsPowerStoreIterator s) 0 acc s.

Definition IsValidator b a s : res bool :=
  curValidators ← IterateBondedValidatorsByPower b (fun _ v acc => (acc ++ [OperatorAddress v], false)) [] s;
  Ret (existsb (fun val => bool_decide (val = a)) curValidators).
Definition GetLastTotalPower s : Z := lastTotalPower s.
(** Operators with the keys of their nodes. *)
Definition GetOperAndValidatorAddr s : list (Address * Address) := map (fun v => (OperatorAddress v, ConsAddress v)) (GetAllValidators s).

(** ** Pools *)

(** The balances of the two module accounts. *)
Definition GetBondedPool s : Denom -> Dec := pool_balance (world s) BondedPoolName.
Definition GetNotBondedPool s : Denom -> Dec := pool_balance (world s) NotBondedPoolName.
Definition TotalBondedTokens s : Dec := GetBondedPool s BondDenom.

(** ** Registered invariants: is it broken?  The texts are left out. *)

Definition DelegatorAddSharesInvariant s : bool :=
  fold_left (fun broken validator =>
    let valTotalShares := DelegatorShares validator in
    let totalShares := if (MinSelfDelegation validator =? 0) && Jailed validator then 0 else getSharesFromDefaultMinSelfDelegation in
    let allShares := GetValidatorAllShares (OperatorAddress validator) s in
    let totalShares := fold_left (fun total x => total + x.2) allShares totalShares in
    if negb (valTotalShares =? totalShares) then true else broken) (GetAllValidators s) false.

Definition PositiveDelegatorInvariant s : bool :=
  let count := IterateDelegator (collect (fun delegator count =>
    let count := if Tokens delegator <? 0 then count + 1 else count in
    if Tokens delegator =? 0 then count + 1 else count)) 0 s in
  negb (count =? 0).

Fixpoint nonneg_loop (l : list (bytes * Address)) (broken : bool) s : res bool :=
  match l with
  | [] => Ret broken
  | (key, value) :: rest =>
      match GetValidator value s with
      | None => Panic (PanicMsg "validator record not found for address")
      | Some validator =>
          let powerKey := GetValidatorsByPowerIndexKey validator in
          let broken := if negb (bool_decide (key = powerKey)) then true else broken in
          let broken := if DelegatorShares validator <? 0 then true else broken in
          nonneg_loop rest broken s
      end
  end.
Definition NonNegativePowerInvariantCustom s : res bool := nonneg_loop (ValidatorsPowerStoreIterator s) false s.

Definition ModuleAccountInvariantsCustom s : bool :=
  let bonded := IterateValidators (collect (fun validator bonded => bonded + MinSelfDelegation validator)) 0 s in
  let bonded := IterateDelegator (collect (fun delegator bonded => bonded + Tokens delegator)) bonded s in
  let notBonded := IterateUndelegationInfo (collect (fun undelegationInfo notBonded => notBonded + Quantity undelegationInfo)) 0 s in
  let poolBonded := GetBondedPool s BondDenom in
  let poolNotBonded := GetNotBondedPool s BondDenom in
  negb (poolBonded =? bonded) || negb (poolNotBonded =? notBonded).

(** The routes of [RegisterInvariantsCustom]. *)
Definition RegisterInvariantsCustom : list (string * (stk -> res bool)) :=
  [("module-accounts", fun s => Ret (ModuleAccountInvariantsCustom s));
   ("nonnegative-power", NonNegativePowerInvariantCustom);
   ("positive-delegator", fun s => Ret (PositiveDelegatorInvariant s));
   ("delegator-add-shares", fun s => Ret (DelegatorAddSharesInvariant s))].

End Lists.

(** ** They hold *)
Section Hold.
Context {W : Type} `{SupplyKeeperLaws W, !StakingHooks W, !StakingHooksLaws W, !StakingSdk, !StakingSdkLaws, !StakingPowerLaws, !SdkConfig}.
Context (PubKey_Type : bytes -> string) (PubKeyTypes : option (list string)).
Abbreviation stk := (Stk W).
Implicit Types (s : stk) (v : Validator) (a : Address).

Lemma fold_sum {X} (f : X -> Z) l : forall acc : Z, fold_left (fun acc x => acc + f x) l acc = acc + lsum f l.
Proof. induction l as [|x l IH]; intros acc; [cbn; lia|]. cbn [fold_left]. rewrite IH, lsum_cons. lia. Qed.
Lemma lsum_filter {X} (P : X -> Prop) `{!forall x, Decision (P x)} (f : X -> Z) l :
  lsum f (filter P l) = lsum (fun x => if decide (P x) then f x else 0) l.
Proof.
  induction l as [|x l IH]; [done|]. cbn [lsum foldr]. fold (lsum (fun x => if decide (P x) then f x else 0) l). rewrite <- IH.
  case_decide; [by rewrite filter_cons_True|by rewrite filter_cons_False].
Qed.
Lemma lsum_fmap {X Y} (g : X -> Y) (f : Y -> Z) l : lsum f (g <$> l) = lsum (fun x => f (g x)) l.
Proof. induction l as [|x l IH]; [done|]. rewrite fmap_cons, !lsum_cons. by rewrite IH. Qed.
Lemma lsum_snd {X} (f : X -> Z) (m : gmap Address X) : lsum f (entries m).*2 = msum (fun _ x => f x) m.
Proof. by rewrite msum_entries, lsum_fmap. Qed.

(** The votes an iterator finds are those on the validator. *)
Lemma all_shares_sum a s acc : fold_left (fun total x => total + x.2) (GetValidatorAllShares a s) acc = acc + votes_on a (shares s).
Proof.
  rewrite (fold_sum (fun x : Address * Dec => x.2)). f_equal. unfold GetValidatorAllShares, votes_on, share_entries.
  rewrite msum_lsum, <- (lsum_perm _ _ _ (merge_sort_Permutation share_le (map_to_list (shares s)))).
  rewrite <- (lsum_filter (fun x : Address * Address * Dec => x.1.1 = a) (fun x => x.2)).
  by rewrite lsum_fmap.
Qed.

Lemma fold_broken {X} (f : X -> bool) l : (forall x, x ∈ l -> f x = false) ->
  fold_left (fun broken x => if f x then true else broken) l false = false.
Proof.
  induction l as [|x l IH]; intros Hl; [done|]. cbn. rewrite (Hl x) by left. apply IH. intros y Hy. apply Hl. by right.
Qed.

Lemma elem_of_all_validators v s : v ∈ GetAllValidators s -> exists a, validators s !! a = Some v.
Proof. intros ([a w] & -> & Hv)%list_elem_of_fmap. apply elem_of_entries in Hv. by exists a. Qed.

Lemma shares_invariant s : set_ok s -> DelegatorAddSharesInvariant s = false.
Proof.
  intros Hs. unfold DelegatorAddSharesInvariant.
  apply (fold_broken (fun v => negb (DelegatorShares v =? fold_left (fun total x => total + x.2) (GetValidatorAllShares (OperatorAddress v) s)
    (if (MinSelfDelegation v =? 0) && Jailed v then 0 else getSharesFromDefaultMinSelfDelegation)))).
  intros v (a & Hv)%elem_of_all_validators. rewrite all_shares_sum. destruct (va_vals _ (set_vals _ Hs) a v Hv) as (-> & _).
  apply negb_false_iff, Z.eqb_eq. exact (so_total _ _ (va_shares _ (set_vals _ Hs)) a v Hv).
Qed.

Lemma positive_invariant s : acct_ok (view s) -> PositiveDelegatorInvariant s = false.
Proof.
  intros Hok. unfold PositiveDelegatorInvariant, IterateDelegator. rewrite iterate_collect.
  assert (forall d, d ∈ (entries (delegators s)).*2 -> 0 < Tokens d) as Hd.
  { intros d ([a e] & -> & He)%list_elem_of_fmap. apply elem_of_entries in He. by apply (acct_funded s Hok a e). }
  enough (forall acc, fold_left (fun acc x => if Tokens x =? 0 then (if Tokens x <? 0 then acc + 1 else acc) + 1
    else if Tokens x <? 0 then acc + 1 else acc) (entries (delegators s)).*2 acc = acc) as -> by done.
  revert Hd. induction (entries (delegators s)).*2 as [|d l IH]; intros Hd acc; [done|]. cbn [fold_left].
  pose proof (Hd d (list_elem_of_here _ _)) as Hpos. rewrite (proj2 (Z.eqb_neq _ _)), (proj2 (Z.ltb_ge _ _)) by lia.
  apply IH. intros e He. apply Hd. by right.
Qed.

Lemma nonneg_invariant s : set_ok s -> NonNegativePowerInvariantCustom s = Ret false.
Proof.
  intros Hs. unfold NonNegativePowerInvariantCustom.
  assert (forall k a, (k, a) ∈ ValidatorsPowerStoreIterator s -> exists v, validators s !! a = Some v /\
    GetValidatorsByPowerIndexKey v = k /\ 0 <= DelegatorShares v) as Hl.
  { intros k a Hk%elem_of_iterator. apply (va_index _ (set_vals _ Hs)) in Hk as (v & Hv & _ & Hkv). exists v. split_and!; [done|done|].
    rewrite (so_total _ _ (va_shares _ (set_vals _ Hs)) a v Hv). pose proof (own_shares_nonneg v).
    pose proof (votes_on_nonneg _ _ a (va_shares _ (set_vals _ Hs))). lia. }
  revert Hl. induction (ValidatorsPowerStoreIterator s) as [|[k a] l IH]; intros Hl; [done|]. cbn [nonneg_loop].
  destruct (Hl k a) as (v & Hv & Hk & Hd); [left|]. unfold GetValidator. rewrite Hv, bool_decide_eq_true_2 by done. cbn [negb].
  rewrite (proj2 (Z.ltb_ge _ _)) by lia. apply IH. intros k' c Hc. apply Hl. by right.
Qed.

Lemma module_account_invariant s : acct_ok (view s) -> ModuleAccountInvariantsCustom s = false.
Proof.
  intros Hok. unfold ModuleAccountInvariantsCustom, IterateValidators, IterateDelegator, IterateUndelegationInfo. rewrite !iterate_collect.
  rewrite (fold_sum MinSelfDelegation), (fold_sum Tokens), (fold_sum Quantity), !lsum_snd, !Z.add_0_l. unfold GetBondedPool, GetNotBondedPool, BondDenom.
  pose proof (ok_bonded _ Hok) as Hb. pose proof (ok_notbonded _ Hok) as Hn. unfold view in Hb, Hn. cbn in Hb, Hn.
  rewrite msum_fmap in Hb. rewrite Hb, Hn. unfold msum. cbn. by rewrite !Z.eqb_refl.
Qed.

(** C23: every invariant the module registers with the crisis module holds
    in every state reachable from one in order: the pools hold the deposits
    and delegated tokens, no indexed validator has negative shares or a
    stale key, delegators have tokens, and each validator's shares are its
    own and the votes on it. *)
Theorem staking_invariants_hold s : reachable PubKey_Type PubKeyTypes s ->
  forall route invariant, (route, invariant) ∈ RegisterInvariantsCustom -> invariant s = Ret false.
Proof.
  intros Hr route invariant Hin. destruct (reachable_in_order _ _ s Hr) as [_ Hok Hs _]. unfold RegisterInvariantsCustom in Hin.
  repeat (apply elem_of_cons in Hin as [[= -> ->]|Hin]); [| | | |by apply elem_of_nil in Hin].
  - by rewrite module_account_invariant.
  - by apply nonneg_invariant.
  - by rewrite positive_invariant.
  - by rewrite shares_invariant.
Qed.

End Hold.
End StakingInvariants.
