(* ===== verification/StakingGenesis.v ===== *)
(** The genesis of the staking module (staking/genesis.go,
    staking/types: genesis.go, validator_standardized.go, keys.go,
    params.go): what is exported, what is checked, and what an import
    builds.  An exported state comes back, up to the order within a slice of
    the queue, except for the running epoch. *)
From S2P Require Import Prelude.
From S2P Require Import Interfaces.
From S2P Require Import Sums.
From S2P Require Import Coins.
From S2P Require Import Effects.
From S2P Require Import StakingTypes.
From S2P Require Import StakingKeys.
From S2P Require Import StakingState.
From S2P Require Import StakingKeeper.
From S2P Require Import StakingVals.
From S2P Require Import StakingHandler.
From S2P Require Import StakingAcct.
From S2P Require Import StakingView.
From S2P Require Import StakingSet.
From S2P Require Import StakingVotes.
From S2P Require Import StakingElect.
From S2P Require Import StakingReach.
From S2P Require Import StakingInvariants.
From stdpp Require Import sorting.
Import StakingTypes StakingKeys StakingState StakingKeeper StakingVals StakingHandler StakingAcct StakingView.
Import StakingSet StakingVotes StakingElect StakingReach StakingInvariants.
Local Open Scope Z_scope.

(** Text encodings of keys (bech32, and the registered key types of Amino);
    [None] is an error. *)
Class ConsKeyCodec := {
  Bech32PrefixConsPub : string;
  ConvertAndEncode : string -> bytes -> option string;
  GetFromBech32 : string -> string -> option bytes;
  PubKeyFromBytes : bytes -> option bytes;
}.
Class ConsKeyCodecLaws `{ConsKeyCodec} :=
  GetFromBech32_encode prefix bz str : ConvertAndEncode prefix bz = Some str -> GetFromBech32 str prefix = Some bz.

(** The coins of a module account ([None]: it is not set), and the
    arithmetic of coin lists. *)
Class ModuleCoins (W : Type) := {
  module_coins : W -> string -> option (list SysCoin);
  ToCoins : SysCoin -> list SysCoin;
  SysCoins_IsZero : list SysCoin -> bool;
  SysCoins_IsEqual : list SysCoin -> list SysCoin -> res bool;
  (** [sdk.ValidatorUpdateDelay] *)
  ValidatorUpdateDelay : Z;
}.
Class ModuleCoinsLaws (W : Type) `{SupplyKeeper W, ModuleCoins W} := {
  (** a list has each denomination of the balance once, without zeros *)
  module_coins_ok w name l : module_coins w name = Some l ->
    NoDup l /\ forall d x, (d, x) ∈ l <-> pool_balance w name d = x /\ x ≠ 0;
  SysCoins_IsZero_nil : SysCoins_IsZero [] = true;
  SysCoins_IsEqual_coin d x : x ≠ 0 -> SysCoins_IsEqual (ToCoins (d, x)) [(d, x)] = Ret true;
}.

(** ** Data *)
Record ValidatorExported := mkValidatorExported {
  ve_OperatorAddress : Address; ve_ConsPubKey : string; ve_Jailed : bool; ve_Status : BondStatus;
  ve_DelegatorShares : Dec; ve_Description : Description; ve_UnbondingHeight : Z;
  ve_UnbondingCompletionTime : Time; ve_MinSelfDelegation : Dec;
}.
Record SharesExported := mkSharesExported { se_DelAddress : Address; se_ValidatorAddress : Address; se_Shares : Dec }.
Record ProxyDelegatorKeyExported := mkProxyKey { pk_DelAddr : Address; pk_ProxyAddr : Address }.
Record GenesisState := mkGenesis {
  gs_Params : StakingParams;
  gs_LastTotalPower : Z;
  gs_LastValidatorPowers : list (Address * Z);
  gs_Validators : list ValidatorExported;
  gs_Delegators : list Delegator;
  gs_UnbondingDelegations : list UndelegationInfo;
  gs_AllShares : list SharesExported;
  gs_ProxyDelegatorKeys : list ProxyDelegatorKeyExported;
  gs_Exported : bool;
}.
(** [tmtypes.GenesisValidator] *)
Record GenesisValidator := mkGenesisValidator { gv_PubKey : bytes; gv_Power : Z; gv_Name : string }.
Inductive genesis_error :=
  | DuplicateValidator (moniker : string) | BondedAndJailed (moniker : string) | ZeroDelegatorShares | BadParams (what : string).
#[export] Instance genesis_error_dec : EqDecision genesis_error.
Proof. solve_decision. Defined.

Module StakingGenesis.
Section Genesis.
Context {W : Type} `{SupplyKeeper W, StakingHooks W, StakingSdk, SdkConfig, ConsKeyCodec, ModuleCoins W}.
Abbreviation stk := (Stk W).
Abbreviation E := (eff (Stk W) stk_error).
Implicit Types (s : stk) (v : Validator) (a : Address) (b : Block) (ve : ValidatorExported) (data : GenesisState).

(** ** Keys and validators *)
Definition Bech32ifyConsPub (pub : bytes) : option string := ConvertAndEncode Bech32PrefixConsPub pub.
Definition GetConsPubKeyBech32 (pubkey : string) : option bytes :=
  bz ← GetFromBech32 pubkey Bech32PrefixConsPub; PubKeyFromBytes bz.

(** [None] is the panic on a key that cannot be encoded. *)
Definition Export v : option ValidatorExported :=
  consPkStr ← Bech32ifyConsPub (ConsPubKey v);
  Some (mkValidatorExported (OperatorAddress v) consPkStr (Jailed v) (Status v) (DelegatorShares v) (val_Description v)
    (UnbondingHeight v) (UnbondingCompletionTime v) (MinSelfDelegation v)).
Definition Import ve : option Validator :=
  consPk ← GetConsPubKeyBech32 (ve_ConsPubKey ve);
  Some (mkValidator (ve_OperatorAddress ve) consPk (ve_Jailed ve) (ve_Status ve) 0 (ve_DelegatorShares ve) (ve_Description ve)
    (ve_UnbondingHeight ve) (ve_UnbondingCompletionTime ve) (NewCommission (NewDec 1) (NewDec 1) (NewDec 0)) (ve_MinSelfDelegation ve)).
Definition ve_IsBonded ve : bool := bool_decide (ve_Status ve = Bonded).

(** ** Checks *)
Definition Params_Validate (p : StakingParams) : option genesis_error :=
  if p_MaxValidators p =? 0 then Some (BadParams "MaxValidators")
  else if p_Epoch p =? 0 then Some (BadParams "Epoch")
  else if p_MaxValsToAddShares p =? 0 then Some (BadParams "MaxValsToAddShares")
  else None.

(** [addrMap] holds the keys seen. *)
Fixpoint validate_validators (addrMap : gset string) (valsExported : list ValidatorExported) : option genesis_error :=
  match valsExported with
  | [] => None
  | valExported :: rest =>
      let strKey := ve_ConsPubKey valExported in
      if bool_decide (strKey ∈ addrMap) then Some (DuplicateValidator (Moniker (ve_Description valExported)))
      else if ve_Jailed valExported && ve_IsBonded valExported
      then Some (BondedAndJailed (Moniker (ve_Description valExported)))
      else if ve_DelegatorShares valExported =? 0 then Some ZeroDelegatorShares
      else validate_validators ({[strKey]} ∪ addrMap) rest
  end.
Definition validateGenesisStateValidators (valsExported : list ValidatorExported) : option genesis_error :=
  validate_validators ∅ valsExported.
Definition ValidateGenesis data : option genesis_error :=
  match validateGenesisStateValidators (gs_Validators data) with
  | Some err => Some err
  | None => Params_Validate (gs_Params data)
  end.

(** ** Export *)

(** [IterateProxy] over the whole table. *)
Definition binding_le (x y : Address * Address) : Prop := (x.1 < y.1)%N \/ x.1 = y.1 /\ (x.2 <= y.2)%N.
#[global] Instance binding_le_dec : RelDecision binding_le.
Proof. intros x y. unfold binding_le. apply _. Defined.
Definition all_bindings s : list (Address * Address) := merge_sort binding_le (elements (proxies s)).

Definition ExportGenesis b s : res GenesisState :=
  let delegators := IterateDelegator (collect (fun delegator acc => acc ++ [delegator])) [] s in
  let undelegationInfos := IterateUndelegationInfo (collect (fun ubd acc => acc ++ [ubd])) [] s in
  let lastValidatorPowers := IterateLastValidatorPowers (fun x acc => (acc ++ [x], false)) [] s in
  let sharesExportedSlice :=
    IterateShares (collect (fun x acc => acc ++ [mkSharesExported x.1.2 x.1.1 x.2])) [] s in
  let proxyDelegatorKeys := map (fun x => mkProxyKey x.2 x.1) (all_bindings s) in
  match mapM Export (GetAllValidators s) with
  | None => Panic (PanicMsg "bech32 of consensus pubkey error")
  | Some validators =>
      Ret (mkGenesis (GetParams b s) (GetLastTotalPower s) lastValidatorPowers validators delegators undelegationInfos
        sharesExportedSlice proxyDelegatorKeys true)
  end.

(** ** Import *)

(** A loop that carries a value along. *)
Fixpoint for_acc {X A} (l : list X) (acc : A) (f : X -> A -> E A) : E A :=
  match l with
  | [] => mret acc
  | x :: rest => acc ← f x acc; for_acc rest acc f
  end.

Definition SetParams (p : StakingParams) s : stk := s <| stk_params := p |>.

Definition initValidator ve (exported : bool) (bondedTokens : Dec) : E Dec :=
  validator ← or_panic (PanicMsg "failed. consensus pubkey is parsed error") (Import ve);
  _ ← modify (SetValidator validator);
  _ ← modify (SetValidatorByConsAddr validator);
  _ ← modify (SetValidatorByPowerIndex validator);
  _ ← when (negb exported) (AfterValidatorCreated (OperatorAddress validator));
  _ ← when (IsUnbonding validator) (modify (InsertValidatorQueue validator));
  mret (bondedTokens + MinSelfDelegation validator).
Definition initDelegator (delegator : Delegator) (bondedTokens : Dec) : E Dec :=
  _ ← modify (SetDelegator delegator); mret (bondedTokens + Tokens delegator).
Definition initUnbondingDelegation (ubd : UndelegationInfo) (notBondedTokens : Dec) : E Dec :=
  _ ← modify (SetUndelegating ubd);
  _ ← modify (SetAddrByTimeKeyWithNilValue (CompletionTime ubd) (ud_DelegatorAddress ubd));
  mret (notBondedTokens + Quantity ubd).

Definition checkTokenSum (tokenSum : SysCoin) (poolCoins : list SysCoin) : E unit :=
  if negb (SysCoins_IsZero poolCoins) then
    if negb (length poolCoins =? 1)%nat then panic (PanicMsg "only okt in the pool")
    else match SysCoins_IsEqual (ToCoins tokenSum) poolCoins with
         | Ret true => mret tt
         | Ret false => panic (PanicMsg "coins in the pool don't match the token sum")
         | Panic p => panic p
         end
  else mret tt.
Definition checkPools (bondedDecCoin notBondedDecCoin : SysCoin) (isExported : bool) : E unit :=
  bondedPool ← gets (fun s => module_coins (world s) BondedPoolName);
  bondedPool ← or_panic (PanicMsg "module account has not been set") bondedPool;
  notBondedPool ← gets (fun s => module_coins (world s) NotBondedPoolName);
  notBondedPool ← or_panic (PanicMsg "module account has not been set") notBondedPool;
  when isExported (_ ← checkTokenSum bondedDecCoin bondedPool; checkTokenSum notBondedDecCoin notBondedPool).

Definition ConsensusPower v : Z := if IsBonded v then PotentialConsensusPowerByShares v else 0.
Definition ABCIValidatorUpdate v : ValidatorUpdate := mkUpdate (ConsPubKey v) (ConsensusPower v).
(** One power of an exported set: the last power, not that of the shares. *)
Definition init_last_power (lv : Address * Z) (res : list ValidatorUpdate) : E (list ValidatorUpdate) :=
  let '(address, power) := lv in
  _ ← modify (SetLastValidatorPower address power);
  validator ← gets (GetValidator address);
  validator ← or_panic (PanicMsg "validator not found") validator;
  let update := ABCIValidatorUpdate validator in
  let update := mkUpdate (up_PubKey update) power in
  mret (res ++ [update]).

Definition InitGenesis b data : E (list ValidatorUpdate) :=
  let b := mkBlock (1 - ValidatorUpdateDelay) (BlockTime b) in
  _ ← modify (SetParams (gs_Params data));
  _ ← modify (SetLastTotalPower (gs_LastTotalPower data));
  bondedTokens ← for_acc (gs_Validators data) 0 (fun ve => initValidator ve (gs_Exported data));
  bondedTokens ← for_acc (gs_Delegators data) bondedTokens initDelegator;
  notBondedTokens ← for_acc (gs_UnbondingDelegations data) 0 initUnbondingDelegation;
  _ ← for_each (gs_AllShares data) (fun x => modify (SetShares (se_DelAddress x) (se_ValidatorAddress x) (se_Shares x)));
  _ ← for_each (gs_ProxyDelegatorKeys data) (fun x => modify (SetProxyBinding (pk_ProxyAddr x) (pk_DelAddr x) false));
  _ ← checkPools (DefaultBondDenom, bondedTokens) (DefaultBondDenom, notBondedTokens) (gs_Exported data);
  if gs_Exported data then for_acc (gs_LastValidatorPowers data) [] init_last_power
  else ApplyAndReturnValidatorSetUpdates b.

(** The bonded validators for the genesis of the engine. *)
Definition GetLatestGenesisValidator s : res (list GenesisValidator) :=
  IterateLastValidators (fun _ v vals =>
    (vals ++ [mkGenesisValidator (ConsPubKey v) (ConsensusPower v) (Moniker (val_Description v))], false)) [] s.

(** A store before the genesis, with the parameters' subspace. *)
Definition empty_store (p : StakingParams) (w : W) : stk :=
  mkStk W ∅ ∅ ∅ ∅ 0 ∅ ∅ ∅ ∅ ∅ ∅ [] None None p w.

(** ** Loops of the import *)

Lemma for_acc_runs {X} (f : X -> Z -> E Z) (g : X -> Z) (h : X -> stk -> stk) l :
  (forall x acc s, x ∈ l -> runs (f x acc) s (acc + g x) (h x s)) ->
  forall acc s, runs (for_acc l acc f) s (acc + lsum g l) (fold_left (fun s x => h x s) l s).
Proof.
  induction l as [|x l IH]; intros Hf acc s.
  - apply runs_ret. by rewrite Z.add_0_r.
  - cbn [for_acc fold_left]. eapply runs_step; [apply Hf; left|]. rewrite lsum_cons, Z.add_assoc. apply IH.
    intros y acc' s' Hy. apply Hf. by right.
Qed.
Lemma runs_for_each_fold {X} (h : X -> stk -> stk) l s :
  runs (for_each l (fun x => modify (h x)) : E unit) s tt (fold_left (fun s x => h x s) l s).
Proof. apply runs_for_each_modify. revert s. induction l as [|x l IH]; intros s; [done|apply IH]. Qed.
Lemma fold_append {X} (l : list X) : forall acc, fold_left (fun acc x => acc ++ [x]) l acc = acc ++ l.
Proof. induction l as [|x l IH]; intros acc; [by rewrite app_nil_r|]. cbn [fold_left]. rewrite IH, <- app_assoc. done. Qed.
Lemma fold_append_map {X Y} (f : X -> Y) (l : list X) : forall acc, fold_left (fun acc x => acc ++ [f x]) l acc = acc ++ map f l.
Proof. induction l as [|x l IH]; intros acc; [by rewrite app_nil_r|]. cbn [fold_left map]. rewrite IH, <- app_assoc. done. Qed.

(** Inserting entries with different keys one by one. *)
Lemma fold_insert {K V X} `{Countable K} (k : X -> K) (f : X -> V) l : forall m : gmap K V, NoDup (k <$> l) ->
  fold_left (fun m x => <[k x := f x]> m) l m = list_to_map ((fun x => (k x, f x)) <$> l) ∪ m.
Proof.
  induction l as [|x l IH]; intros m Hnd; [change (m = ∅ ∪ m); by rewrite (left_id_L ∅ (∪))|]. apply NoDup_cons in Hnd as [Hx Hnd].
  cbn [fold_left]. rewrite IH by done. change (list_to_map ((fun x => (k x, f x)) <$> l) ∪ <[k x := f x]> m =
    <[k x := f x]> (list_to_map ((fun x => (k x, f x)) <$> l)) ∪ m).
  rewrite <- insert_union_r; [by rewrite insert_union_l|]. apply not_elem_of_list_to_map_1. rewrite <- list_fmap_compose. done.
Qed.
Lemma fold_entries {V} (m : gmap Address V) (k : V -> Address) : (forall a y, m !! a = Some y -> k y = a) ->
  fold_left (fun m y => <[k y := y]> m) (entries m).*2 ∅ = m.
Proof.
  intros Hk. assert (forall l, (forall a y, (a, y) ∈ l -> k y = a) -> (fun y => (k y, y)) <$> l.*2 = l) as Hl.
  { induction l as [|[a y] l IH]; intros Hl; [done|]. cbn. rewrite (Hl a y) by left. f_equal. apply IH. intros c z Hc. apply Hl. by right. }
  specialize (Hl (entries m)). rewrite fold_insert, (right_id_L ∅ (∪)), Hl, list_to_map_entries; [done| |].
  - intros a y Ha. by apply Hk, elem_of_entries.
  - assert (k <$> (entries m).*2 = (entries m).*1) as ->; [|apply NoDup_entries].
    rewrite <- Hl at 2 by (intros a y Ha; by apply Hk, elem_of_entries). by rewrite <- !list_fmap_compose.
Qed.
Lemma fold_pairs {K V} `{Countable K} (l : list (K * V)) (m : gmap K V) : l ≡ₚ map_to_list m ->
  fold_left (fun m x => <[x.1 := x.2]> m) l ∅ = m.
Proof.
  intros Hl. assert (NoDup l.*1) as Hnd by (rewrite Hl; apply NoDup_fst_map_to_list).
  rewrite fold_insert, (right_id_L ∅ (∪)) by done. assert ((fun x : K * V => (x.1, x.2)) <$> l = l) as ->.
  { clear. induction l as [|[y z] l IH]; [done|]. cbn. by rewrite IH. }
  rewrite <- (list_to_map_to_list m). by apply list_to_map_proper.
Qed.
Lemma fold_union {X} `{Countable X} (l : list X) (S : gset X) : l ≡ₚ elements S -> fold_left (fun S x => S ∪ {[x]}) l ∅ = S.
Proof.
  intros Hl. assert (forall l (S0 : gset X), fold_left (fun S x => S ∪ {[x]}) l S0 = S0 ∪ list_to_set l) as Hf.
  { clear. induction l as [|x l IH]; intros S0; cbn; [set_solver|]. rewrite IH. set_solver. }
  rewrite Hf, Hl. by rewrite list_to_set_elements_L, (left_id_L ∅ (∪)).
Qed.

(** ** Validators come back *)

(** The record an exported validator is imported as. *)
Definition imported v : Validator := v <| val_Tokens := 0 |> <| val_Commission := NewCommission (NewDec 1) (NewDec 1) (NewDec 0) |>.
Definition encodable v : Prop := is_Some (Bech32ifyConsPub (ConsPubKey v)) /\ PubKeyFromBytes (ConsPubKey v) = Some (ConsPubKey v).

Definition put_validator v s : stk :=
  let s := SetValidatorByPowerIndex v (SetValidatorByConsAddr v (SetValidator v s)) in
  if IsUnbonding v then InsertValidatorQueue v s else s.
Lemma initValidator_runs ve v acc s : Import ve = Some v ->
  runs (initValidator ve true acc) s (acc + MinSelfDelegation v) (put_validator v s).
Proof.
  intros Hi. unfold initValidator. rewrite Hi. cbn [or_panic]. apply (runs_step _ _ _ v s); [by apply runs_ret|].
  do 3 (eapply (runs_step _ _ _ tt); [by apply runs_modify|]). apply (runs_step _ _ _ tt (SetValidatorByPowerIndex v (SetValidatorByConsAddr v (SetValidator v s)))).
  - by apply runs_ret.
  - apply (runs_step _ _ _ tt (put_validator v s)); [|by apply runs_ret]. unfold put_validator. by destruct (IsUnbonding v).
Qed.

(** The tables hold the validators of [vs]. *)
Record tables (vs : list Validator) s : Prop := {
  tb_vals a v : validators s !! a = Some v <-> v ∈ vs /\ OperatorAddress v = a;
  tb_ok : vals_ok (validators s);
  tb_cons : cons_ok (validators s) (byConsAddr s);
  tb_index : index_ok (validators s) (powerIndex s);
  tb_queue : queue_ok (validators s) (validatorQueue s);
}.
Lemma tables_start p w : tables [] (empty_store p w).
Proof.
  assert (forall (P : Validator -> Prop) a, (exists v, (∅ : gmap Address Validator) !! a = Some v /\ P v) <-> False) as Hno.
  { intros P a. split; [|done]. intros (v & Hv & _). by rewrite lookup_empty in Hv. }
  split; cbn.
  - intros a v. rewrite lookup_empty, elem_of_nil. naive_solver.
  - intros a v. by rewrite lookup_empty.
  - intros c a. by rewrite Hno, lookup_empty.
  - intros k a. by rewrite Hno, lookup_empty.
  - split; [|intros t l; by rewrite lookup_empty]. intros t a. unfold slice. rewrite lookup_empty, Hno. apply elem_of_nil.
Qed.

Lemma queue_new_waiting vals q a v : queue_ok vals q -> vals !! a = None -> Status v = Unbonding ->
  let t := UnbondingCompletionTime v in queue_ok (<[a := v]> vals) (<[t := slice q t ++ [a]]> q).
Proof.
  intros Hq Ha Hst t. assert (a ∉ slice q t) as Hni by (rewrite (qo_slice _ _ Hq); intros (w & Hw & _); congruence). split.
  - intros t' c. unfold slice at 1. rewrite lookup_insert, insert_exists. case_decide as Ht; cbn [default from_option id].
    + subst t'. rewrite elem_of_app, list_elem_of_singleton, (qo_slice _ _ Hq). case_decide as Hc; [subst c; tauto|naive_solver].
    + fold (slice q t'). rewrite (qo_slice _ _ Hq). case_decide as Hc; [subst c|done].
      split; [intros (w & Hw & _); congruence|intros [_ Hu]; by destruct Ht].
  - intros t' l. rewrite lookup_insert. case_decide as Ht; [|apply Hq]. intros [= <-]. split; [|by destruct (slice q t)].
    apply NoDup_app. split_and!; [by apply (queue_nodup vals)|intros x Hx ->%list_elem_of_singleton; done|apply NoDup_singleton].
Qed.

Lemma tables_step vs v s : tables vs s -> OperatorAddress v ∉ OperatorAddress <$> vs -> ConsAddress v ∉ ConsAddress <$> vs ->
  address_ok (OperatorAddress v) -> val_Tokens v = 0 -> tables (vs ++ [v]) (put_validator v s).
Proof.
  intros [Hv Hok Hc Hi Hq] Ha Hca Haok Ht.
  assert (validators s !! OperatorAddress v = None) as Hn.
  { apply eq_None_not_Some. intros [w [Hw Hwa]%Hv]. apply Ha, list_elem_of_fmap. by exists w. }
  assert (byConsAddr s !! ConsAddress v = None) as Hcn.
  { apply eq_None_not_Some. intros [a (w & [Hw _]%Hv & Hwc)%Hc]. apply Hca, list_elem_of_fmap. by exists w. }
  assert (validators (put_validator v s) = <[OperatorAddress v := v]> (validators s) /\
    byConsAddr (put_validator v s) = <[ConsAddress v := OperatorAddress v]> (byConsAddr s) /\
    powerIndex (put_validator v s) = (if Jailed v then powerIndex s else <[GetValidatorsByPowerIndexKey v := OperatorAddress v]> (powerIndex s)) /\
    validatorQueue (put_validator v s) = (if IsUnbonding v then <[UnbondingCompletionTime v :=
      slice (validatorQueue s) (UnbondingCompletionTime v) ++ [OperatorAddress v]]> (validatorQueue s) else validatorQueue s)) as (E1 & E2 & E3 & E4).
  { unfold put_validator, SetValidatorByPowerIndex. by destruct (Jailed v), (IsUnbonding v). }
  split; rewrite ?E1, ?E2, ?E3, ?E4.
  - intros a w. rewrite lookup_insert, elem_of_app, list_elem_of_singleton. case_decide as Hav; [subst a|rewrite (Hv a w); naive_solver].
    split; [intros [= <-]; naive_solver|]. intros [[Hw| ->] Hwa]; [|done]. exfalso. apply Ha, list_elem_of_fmap. by exists w.
  - by apply vals_ok_insert.
  - by apply cons_new.
  - by apply index_insert.
  - unfold IsUnbonding. case_bool_decide; [by apply queue_new_waiting|by apply queue_new].
Qed.

(** What the import of validators leaves alone. *)
Definition rest s := (lastPowers s, lastTotalPower s, shares s, delegators s, undelegations s, undelegateQueue s, proxies s,
  (abandoned s, epoch s, endOfLastEpoch s, stk_params s, world s)).
Lemma rest_put v s : rest (put_validator v s) = rest s.
Proof. unfold put_validator, SetValidatorByPowerIndex. by destruct (Jailed v), (IsUnbonding v). Qed.

Lemma tables_all vs : forall done s, tables done s -> NoDup (OperatorAddress <$> done ++ vs) -> NoDup (ConsAddress <$> done ++ vs) ->
  (forall v, v ∈ vs -> address_ok (OperatorAddress v) /\ val_Tokens v = 0) ->
  tables (done ++ vs) (fold_left (fun s v => put_validator v s) vs s) /\ rest (fold_left (fun s v => put_validator v s) vs s) = rest s.
Proof.
  induction vs as [|v vs IH]; intros done s Ht Ha Hc Hv; [by rewrite app_nil_r|]. cbn [fold_left].
  assert (done ++ v :: vs = (done ++ [v]) ++ vs) as Happ by (by rewrite <- app_assoc).
  destruct (Hv v) as [Hok Htk]; [left|].
  assert (tables (done ++ [v]) (put_validator v s)) as Ht1.
  { apply tables_step; [done| | |done|done].
    - rewrite fmap_app in Ha. apply NoDup_app in Ha as (_ & Hd & _). intros Hin. apply (Hd _ Hin). left.
    - rewrite fmap_app in Hc. apply NoDup_app in Hc as (_ & Hd & _). intros Hin. apply (Hd _ Hin). left. }
  rewrite Happ in Ha, Hc |- *. destruct (IH _ _ Ht1 Ha Hc) as [Ht2 Hr2]; [intros w Hw; apply Hv; by right|].
  split; [done|]. by rewrite Hr2, rest_put.
Qed.

Lemma Import_Export v ve : Export v = Some ve -> PubKeyFromBytes (ConsPubKey v) = Some (ConsPubKey v) -> ConsKeyCodecLaws ->
  Import ve = Some (imported v).
Proof.
  intros He Hk Hlaws. unfold Export in He. apply bind_Some in He as (str & Hs & [= <-]). unfold Import, GetConsPubKeyBech32. cbn.
  unfold Bech32ifyConsPub in Hs. apply Hlaws in Hs. rewrite Hs. cbn. by rewrite Hk.
Qed.
Lemma export_all l : ConsKeyCodecLaws -> (forall v, v ∈ l -> encodable v) ->
  exists ves, mapM Export l = Some ves /\ Forall2 (fun ve v => Import ve = Some (imported v)) ves l.
Proof.
  intros Hlaws. induction l as [|v l IH]; intros Hl; [by exists []|]. destruct IH as (ves & Hm & Hf); [intros w Hw; apply Hl; by right|].
  destruct (Hl v) as [[str Hs] Hk]; [left|]. destruct (Export v) as [ve|] eqn:He; [|unfold Export in He; by rewrite Hs in He].
  exists (ve :: ves). split; [cbn; by rewrite He, Hm|]. constructor; [by apply Import_Export|done].
Qed.
Lemma init_validators_run ves vs : Forall2 (fun ve v => Import ve = Some v) ves vs -> forall acc s,
  runs (for_acc ves acc (fun ve => initValidator ve true)) s (acc + lsum MinSelfDelegation vs) (fold_left (fun s v => put_validator v s) vs s).
Proof.
  induction 1 as [|ve v ves vs Hi _ IH]; intros acc s; [apply runs_ret; by rewrite Z.add_0_r|]. cbn [for_acc fold_left].
  eapply runs_step; [by apply initValidator_runs|]. rewrite lsum_cons, Z.add_assoc. apply IH.
Qed.

(** *** Tables that speak about the same validators are equal *)
Lemma imported_exists (P : Validator -> Prop) s a : (forall v, P (imported v) <-> P v) ->
  (exists v, (imported <$> validators s) !! a = Some v /\ P v) <-> exists v, validators s !! a = Some v /\ P v.
Proof.
  intros HP. rewrite lookup_fmap. destruct (validators s !! a) as [w|]; cbn.
  - split; [intros (v & [= <-] & Hv); exists w; by rewrite <- HP|intros (v & [= <-] & Hv); exists (imported w); by rewrite HP].
  - split; intros (v & [=] & _).
Qed.
Lemma same_entries {K V} `{Countable K} (m1 m2 : gmap K V) : (forall k x, m1 !! k = Some x <-> m2 !! k = Some x) -> m1 = m2.
Proof. intros Hm. apply map_eq. intros k. apply option_eq. intros x. apply Hm. Qed.

Lemma tables_imported s s' : vals_agree s -> tables (imported <$> GetAllValidators s) s' ->
  validators s' = imported <$> validators s /\ byConsAddr s' = byConsAddr s /\ powerIndex s' = powerIndex s /\
  forall t, slice (validatorQueue s') t ≡ₚ slice (validatorQueue s) t.
Proof.
  intros Hs [Hv _ Hc Hi Hq].
  assert (validators s' = imported <$> validators s) as Hvals.
  { apply same_entries. intros a v. rewrite (Hv a v), lookup_fmap_Some. split.
    - intros [(w & -> & ([c w'] & -> & Hw)%list_elem_of_fmap)%list_elem_of_fmap Ha]. apply elem_of_entries in Hw.
      destruct (va_vals _ Hs c w' Hw) as (Hc' & _). cbn in Ha. exists w'. by rewrite <- Ha, Hc'.
    - intros (w & <- & Hw). destruct (va_vals _ Hs a w Hw) as (Ha & _). split; [|done]. apply list_elem_of_fmap. exists w.
      split; [done|]. apply list_elem_of_fmap. exists (a, w). split; [done|]. by apply elem_of_entries. }
  rewrite Hvals in Hc, Hi, Hq. split_and!; [done|..].
  - apply same_entries. intros c a. rewrite (Hc c a), (va_cons _ Hs c a). by apply imported_exists.
  - apply same_entries. intros k a. rewrite (Hi k a), (va_index _ Hs k a). by apply imported_exists.
  - intros t. apply NoDup_Permutation; [by apply (queue_nodup (imported <$> validators s))|by apply (queue_nodup (validators s)), Hs|].
    intros a. rewrite (qo_slice _ _ Hq), (qo_slice _ _ (va_queue _ Hs)). by apply imported_exists.
Qed.

Lemma NoDup_imported s : vals_agree s -> NoDup (OperatorAddress <$> (imported <$> GetAllValidators s)) /\
  NoDup (ConsAddress <$> (imported <$> GetAllValidators s)).
Proof.
  intros Hs. unfold GetAllValidators. rewrite <- !list_fmap_compose. split.
  - assert (forall l, (forall a v, (a, v) ∈ l -> OperatorAddress v = a) -> (fun x : Address * Validator => OperatorAddress (imported x.2)) <$> l = l.*1) as Hl.
    { induction l as [|[a v] l IH]; intros Hl; [done|]. cbn. f_equal; [apply (Hl a v); left|]. apply IH. intros c w Hw. apply Hl. by right. }
    rewrite (list_fmap_ext _ (fun x : Address * Validator => OperatorAddress (imported x.2))) by done. rewrite Hl; [apply NoDup_entries|].
    intros a v Hv%elem_of_entries. by apply (va_vals _ Hs).
  - apply NoDup_fmap_2_strong; [|apply (NoDup_fmap_1 fst), NoDup_entries]. intros [a v] [c w] Hv%elem_of_entries Hw%elem_of_entries Heq. cbn in Heq.
    assert (byConsAddr s !! PubKey_Address (ConsPubKey v) = Some a) as Ha by (apply (va_cons _ Hs); by exists v).
    assert (byConsAddr s !! PubKey_Address (ConsPubKey v) = Some c) as Hc by (apply (va_cons _ Hs); by exists w).
    assert (a = c) as -> by congruence. congruence.
Qed.

(** *** The other tables *)
Lemma fold_SetDelegator l s : fold_left (fun s x => SetDelegator x s) l s =
  s <| delegators := fold_left (fun m x => <[DelegatorAddress x := x]> m) l (delegators s) |>.
Proof. revert s; induction l as [|x l IH]; intros s; [by destruct s|]. cbn [fold_left]. by rewrite IH. Qed.
Definition put_undelegation (x : UndelegationInfo) s : stk :=
  SetAddrByTimeKeyWithNilValue (CompletionTime x) (ud_DelegatorAddress x) (SetUndelegating x s).
Lemma fold_undelegations l s : fold_left (fun s x => put_undelegation x s) l s =
  s <| undelegations := fold_left (fun m x => <[ud_DelegatorAddress x := x]> m) l (undelegations s) |>
    <| undelegateQueue := fold_left (fun q k => q ∪ {[k]}) ((fun x => (CompletionTime x, ud_DelegatorAddress x)) <$> l) (undelegateQueue s) |>.
Proof. revert s; induction l as [|x l IH]; intros s; [by destruct s|]. cbn [fold_left]. by rewrite IH. Qed.
Lemma fold_shares l s : fold_left (fun s x => SetShares (se_DelAddress x) (se_ValidatorAddress x) (se_Shares x) s)
    (map (fun x : Address * Address * Dec => mkSharesExported x.1.2 x.1.1 x.2) l) s =
  s <| shares := fold_left (fun m x => <[x.1 := x.2]> m) l (shares s) |>.
Proof. revert s; induction l as [|[[a d] x] l IH]; intros s; [by destruct s|]. cbn [fold_left map]. by rewrite IH. Qed.
Lemma fold_proxies l s : fold_left (fun s x => SetProxyBinding (pk_ProxyAddr x) (pk_DelAddr x) false s)
    (map (fun x : Address * Address => mkProxyKey x.2 x.1) l) s =
  s <| proxies := fold_left (fun S k => S ∪ {[k]}) l (proxies s) |>.
Proof. revert s; induction l as [|[p d] l IH]; intros s; [by destruct s|]. cbn [fold_left map]. by rewrite IH. Qed.

Lemma init_last_powers l : forall ups s (key_of : Address -> bytes),
  (forall a p, (a, p) ∈ l -> exists v, validators s !! a = Some v /\ ConsPubKey v = key_of a) ->
  runs (for_acc l ups init_last_power) s (ups ++ map (fun '(a, p) => mkUpdate (key_of a) p) l)
    (s <| lastPowers := fold_left (fun m x => <[x.1 := x.2]> m) l (lastPowers s) |>).
Proof.
  induction l as [|[a p] l IH]; intros ups s key_of Hl; [apply runs_ret; rewrite app_nil_r; split; [done|by destruct s]|].
  cbn [for_acc fold_left map]. destruct (Hl a p) as (v & Hv & Hk); [left|].
  apply (runs_step _ _ _ (ups ++ [mkUpdate (ConsPubKey v) p]) (SetLastValidatorPower a p s)).
  - unfold init_last_power. apply (runs_step _ _ _ tt (SetLastValidatorPower a p s)); [by apply runs_modify|].
    apply (runs_step _ _ _ (Some v) (SetLastValidatorPower a p s)); [by apply runs_gets; split; [rewrite <- Hv|]|].
    apply (runs_step _ _ _ v (SetLastValidatorPower a p s)); by apply runs_ret.
  - assert (ups ++ mkUpdate (key_of a) p :: map (fun '(a, p) => mkUpdate (key_of a) p) l =
      (ups ++ [mkUpdate (ConsPubKey v) p]) ++ map (fun '(a, p) => mkUpdate (key_of a) p) l) as -> by (by rewrite <- app_assoc, Hk).
    apply (IH _ (SetLastValidatorPower a p s) key_of). intros c q Hc. apply (Hl c q). by right.
Qed.

Lemma checkTokenSum_runs `{!ModuleCoinsLaws W} (w : W) name l x s : module_coins w name = Some l ->
  (forall d, d ≠ DefaultBondDenom -> pool_balance w name d = 0) -> pool_balance w name DefaultBondDenom = x ->
  runs (checkTokenSum (DefaultBondDenom, x) l) s tt s.
Proof.
  intros Hl Hd Hx. destruct (module_coins_ok w name l Hl) as [Hnd Hin]. unfold checkTokenSum.
  assert (forall c, c ∈ l <-> c = (DefaultBondDenom, x) /\ x ≠ 0) as Hc.
  { intros [d y]. rewrite Hin. split; [|intros [[= -> ->] ?]; done]. intros [Hy Hn]. destruct (decide (d = DefaultBondDenom)) as [->|Hne]; [naive_solver|].
    rewrite Hd in Hy by done. congruence. }
  destruct (decide (x = 0)) as [Hz|Hz].
  - assert (l = []) as -> by (apply elem_of_nil_inv; intros c [_ ?]%Hc; done). rewrite SysCoins_IsZero_nil. by apply runs_ret.
  - assert (l ≡ₚ [(DefaultBondDenom, x)]) as ->%Permutation_singleton_r.
    { apply NoDup_Permutation; [done|apply NoDup_singleton|]. intros c. rewrite Hc, list_elem_of_singleton. naive_solver. }
    destruct (SysCoins_IsZero _); [by apply runs_ret|]. cbn [negb length Nat.eqb]. rewrite SysCoins_IsEqual_coin by done. by apply runs_ret.
Qed.

End Genesis.

(** ** An export restores *)
Section Restore.
Context {W : Type} `{SupplyKeeperLaws W, !StakingHooks W, !StakingHooksLaws W, !StakingSdk, !StakingSdkLaws, !StakingPowerLaws, !SdkConfig}.
Context `{!ConsKeyCodec, !ConsKeyCodecLaws, !ModuleCoins W, !ModuleCoinsLaws W}.
Abbreviation stk := (Stk W).
Abbreviation E := (eff (Stk W) stk_error).
Implicit Types (s : stk) (v : Validator) (a : Address) (b : Block).

(** What [s'] has of [s], in the world [w]. *)
Record restored b (w : W) s s' : Prop := {
  (** the records come back, the commission with its only value *)
  re_vals : validators s' = imported <$> validators s;
  re_cons : byConsAddr s' = byConsAddr s;
  re_index : powerIndex s' = powerIndex s;
  re_last : lastPowers s' = lastPowers s;
  re_total : lastTotalPower s' = lastTotalPower s;
  re_queue t : slice (validatorQueue s') t ≡ₚ slice (validatorQueue s) t;
  re_shares : shares s' = shares s;
  re_delegators : delegators s' = delegators s;
  re_undelegations : undelegations s' = undelegations s;
  re_undelegateQueue : undelegateQueue s' = undelegateQueue s;
  re_proxies : proxies s' = proxies s;
  re_params : stk_params s' = GetParams b s;
  (** what is not exported *)
  re_lost : abandoned s' = [] /\ epoch s' = None /\ endOfLastEpoch s' = None;
  re_world : world s' = w;
}.
(** The engine gets the last powers. *)
Definition last_updates s : list ValidatorUpdate :=
  map (fun '(a, p) => mkUpdate (from_option ConsPubKey [] (validators s !! a)) p) (entries (lastPowers s)).
(** The pools of [w] are those of [s], and hold the bond denomination only. *)
Definition pools_match s (w : W) : Prop := keeps_pools (world s) w /\
  forall name, name = BondedPoolName \/ name = NotBondedPoolName ->
    is_Some (module_coins w name) /\ forall d, d ≠ DefaultBondDenom -> pool_balance w name d = 0.

Lemma imported_sum l : lsum MinSelfDelegation (imported <$> l) = lsum MinSelfDelegation l.
Proof. by rewrite lsum_fmap. Qed.

Lemma checkPools_runs s x y s1 : pools_match s (world s1) -> acct_ok (view s) ->
  x = msum (fun _ v => MinSelfDelegation v) (validators s) + msum (fun _ d => Tokens d) (delegators s) ->
  y = msum (fun _ u => Quantity u) (undelegations s) ->
  runs (checkPools (DefaultBondDenom, x) (DefaultBondDenom, y) true) s1 tt s1.
Proof.
  intros [Hk Hp] Hok Hx Hy. destruct (Hp BondedPoolName) as [[lb Hb] Hbd]; [by left|]. destruct (Hp NotBondedPoolName) as [[ln Hn] Hnd]; [by right|].
  destruct (Hk DefaultBondDenom) as [Eb En].
  pose proof (ok_bonded _ Hok) as Ob. pose proof (ok_notbonded _ Hok) as On. unfold view in Ob, On. cbn in Ob, On. rewrite msum_fmap in Ob.
  unfold checkPools.
  apply (runs_step _ _ _ (Some lb) s1); [by apply runs_gets|]. apply (runs_step _ _ _ lb s1); [by apply runs_ret|].
  apply (runs_step _ _ _ (Some ln) s1); [by apply runs_gets|]. apply (runs_step _ _ _ ln s1); [by apply runs_ret|]. cbn [when].
  apply (runs_step _ _ _ tt s1); [apply (checkTokenSum_runs (world s1) BondedPoolName)|apply (checkTokenSum_runs (world s1) NotBondedPoolName)]; try done.
  - rewrite Eb, Hx. exact Ob.
  - by rewrite En, Hy.
Qed.

Lemma ExportGenesis_data b s : (forall a v, validators s !! a = Some v -> encodable v) -> exists ves,
  Forall2 (fun ve v => Import ve = Some (imported v)) ves (GetAllValidators s) /\
  ExportGenesis b s = Ret (mkGenesis (GetParams b s) (lastTotalPower s) (entries (lastPowers s)) ves (entries (delegators s)).*2
    (entries (undelegations s)).*2 (map (fun x : Address * Address * Dec => mkSharesExported x.1.2 x.1.1 x.2) (share_entries s))
    (map (fun x : Address * Address => mkProxyKey x.2 x.1) (all_bindings s)) true).
Proof.
  intros He. destruct (export_all (GetAllValidators s) _) as (ves & Hm & Hf); [intros v (a & Hv)%elem_of_all_validators; by apply (He a)|].
  exists ves. split; [done|]. unfold ExportGenesis. rewrite Hm. unfold IterateDelegator, IterateUndelegationInfo, IterateLastValidatorPowers, IterateShares.
  change (fun _ : Z => (fun (x : Address * Z) acc => (acc ++ [x], false))) with (collect (fun (x : Address * Z) acc => acc ++ [x])).
  rewrite !iterate_collect, !fold_append. by rewrite (fold_append_map (fun x : Address * Address * Dec => mkSharesExported x.1.2 x.1.1 x.2)).
Qed.

(** The records of the other tables are put back one by one. *)
Definition put_tables s s2 : stk :=
  s2 <| delegators := delegators s |> <| undelegations := undelegations s |> <| undelegateQueue := undelegateQueue s |>
    <| shares := shares s |> <| proxies := proxies s |>.
Lemma undelegation_keys s : acct_ok (view s) ->
  fold_left (fun q k => q ∪ {[k]}) ((fun x => (CompletionTime x, ud_DelegatorAddress x)) <$> (entries (undelegations s)).*2) ∅ = undelegateQueue s.
Proof.
  intros Hok. apply fold_union. apply NoDup_Permutation.
  - rewrite <- list_fmap_compose. apply NoDup_fmap_2_strong; [|apply (NoDup_fmap_1 fst), NoDup_entries].
    intros [a u] [c x] Ha%elem_of_entries Hc%elem_of_entries [= _ Heq]. destruct (ok_ud _ Hok a u Ha) as [E1 _]. destruct (ok_ud _ Hok c x Hc) as [E2 _].
    assert (a = c) as -> by congruence. congruence.
  - apply NoDup_elements.
  - intros [t a]. rewrite elem_of_elements. change (undelegateQueue s) with (a_queue (view s)). rewrite (ok_queue _ Hok t a).
    rewrite list_elem_of_fmap. split.
    + intros (u & [= -> ->] & ([c x] & -> & Hu%elem_of_entries)%list_elem_of_fmap). destruct (ok_ud _ Hok c x Hu) as [E1 _]. exists x. cbn. by rewrite E1.
    + intros (u & Hu & <-). destruct (ok_ud _ Hok a u Hu) as [E1 _]. exists u. split; [by rewrite E1|]. apply list_elem_of_fmap. exists (a, u).
      split; [done|]. by apply elem_of_entries.
Qed.

(** The four loops that put them back. *)
Definition import_tables s s2 : stk :=
  fold_left (fun s x => SetProxyBinding (pk_ProxyAddr x) (pk_DelAddr x) false s) (map (fun x : Address * Address => mkProxyKey x.2 x.1) (all_bindings s))
  (fold_left (fun s x => SetShares (se_DelAddress x) (se_ValidatorAddress x) (se_Shares x) s)
    (map (fun x : Address * Address * Dec => mkSharesExported x.1.2 x.1.1 x.2) (share_entries s))
  (fold_left (fun s x => put_undelegation x s) (entries (undelegations s)).*2
  (fold_left (fun s x => SetDelegator x s) (entries (delegators s)).*2 s2))).
Lemma import_tables_eq s s2 : stk_wf s -> acct_ok (view s) ->
  delegators s2 = ∅ -> undelegations s2 = ∅ -> undelegateQueue s2 = ∅ -> shares s2 = ∅ -> proxies s2 = ∅ ->
  import_tables s s2 = put_tables s s2.
Proof.
  intros Hwf Hok Ed Eu Eq Es Ep. unfold import_tables. rewrite fold_SetDelegator, fold_undelegations, fold_shares, fold_proxies. cbn.
  rewrite Ed, Eu, Eq, Es, Ep, undelegation_keys by done. rewrite (fold_entries (delegators s) DelegatorAddress) by apply (wf_del s Hwf).
  rewrite (fold_entries (undelegations s) ud_DelegatorAddress) by (intros a u Hu; by apply (ok_ud _ Hok)).
  rewrite (fold_pairs (share_entries s) (shares s)) by apply merge_sort_Permutation.
  by rewrite (fold_union (all_bindings s) (proxies s)) by apply merge_sort_Permutation.
Qed.

Lemma last_powers_run s s3 : vals_agree s -> validators s3 = imported <$> validators s -> lastPowers s3 = ∅ ->
  runs (for_acc (entries (lastPowers s)) [] init_last_power) s3 (last_updates s) (s3 <| lastPowers := lastPowers s |>).
Proof.
  intros Hs Hv Hl. pose proof (init_last_powers (entries (lastPowers s)) [] s3 (fun a => from_option ConsPubKey [] (validators s !! a))) as Hr.
  rewrite Hl, (fold_pairs (entries (lastPowers s)) (lastPowers s) (entries_Permutation _)) in Hr. apply Hr.
  intros a p Hp%elem_of_entries. assert (is_Some (lastPowers s !! a)) as (v & Hva & _)%(va_last _ Hs) by (by exists p).
  exists (imported v). by rewrite Hv, lookup_fmap, Hva.
Qed.

Lemma InitGenesis_restores b b' s p w : stk_wf s -> acct_ok (view s) -> set_ok s ->
  (forall a v, validators s !! a = Some v -> encodable v) -> pools_match s w ->
  exists data s', ExportGenesis b s = Ret data /\ runs (InitGenesis b' data) (empty_store p w) (last_updates s) s' /\ restored b w s s'.
Proof.
  intros Hwf Hok Hs Henc Hp. destruct (ExportGenesis_data b s Henc) as (ves & Hves & Hdata).
  set (s1 := SetLastTotalPower (lastTotalPower s) (SetParams (GetParams b s) (empty_store p w))).
  set (vs := imported <$> GetAllValidators s). set (s2 := fold_left (fun s v => put_validator v s) vs s1).
  assert (tables [] s1) as Ht1 by (destruct (tables_start (p) (w)); by split).
  destruct (NoDup_imported s (set_vals _ Hs)) as [Hnd1 Hnd2].
  destruct (tables_all vs [] s1 Ht1 Hnd1 Hnd2) as [Ht2 Hr2].
  { intros v (u & -> & (a & Hu)%elem_of_all_validators)%list_elem_of_fmap. destruct (va_vals _ (set_vals _ Hs) a u Hu) as (Ha & Haok & _).
    split; [by rewrite <- Ha in Haok|done]. }
  rewrite app_nil_l in Ht2. fold s2 in Ht2, Hr2. destruct (tables_imported s s2 (set_vals _ Hs) Ht2) as (Ev & Ec & Ei & Eq).
  injection Hr2 as El Et Es Ed Eu Eud Epr Eab Eep Een Epa Ew. cbn in El, Et, Es, Ed, Eu, Eud, Epr, Eab, Eep, Een, Epa, Ew.
  pose proof (import_tables_eq s s2 Hwf Hok Ed Eu Eud Es Epr) as Himp.
  eexists _, (put_tables s s2 <| lastPowers := lastPowers s |>). split; [exact Hdata|]. split.
  - unfold InitGenesis. cbn [gs_Params gs_LastTotalPower gs_LastValidatorPowers gs_Validators gs_Delegators gs_UnbondingDelegations gs_AllShares gs_ProxyDelegatorKeys gs_Exported].
    do 2 (eapply (runs_step _ _ _ tt); [by apply runs_modify|]). fold s1.
    apply (runs_step _ _ _ (0 + lsum MinSelfDelegation vs) s2); [apply init_validators_run; by apply Forall2_fmap_r|].
    eapply runs_step; [by apply (for_acc_runs initDelegator Tokens SetDelegator)|].
    eapply runs_step; [by apply (for_acc_runs initUnbondingDelegation Quantity put_undelegation)|].
    eapply (runs_step _ _ _ tt); [apply runs_for_each_fold|].
    apply (runs_step _ _ _ tt (put_tables s s2)); [rewrite <- Himp; apply runs_for_each_fold|].
    apply (runs_step _ _ _ tt (put_tables s s2)).
    + apply (checkPools_runs s); [by rewrite <- Ew in Hp|done| |].
      * unfold vs. rewrite imported_sum, !Z.add_0_l. unfold GetAllValidators. by rewrite !lsum_snd.
      * by rewrite Z.add_0_l, lsum_snd.
    + apply (last_powers_run s); [apply Hs|done|done].
  - split; try done.
Qed.

(** *** Checks of an export *)

Lemma Import_key ve v : Import ve = Some v -> GetConsPubKeyBech32 (ve_ConsPubKey ve) = Some (ConsPubKey v).
Proof. unfold Import. intros (k & Hk & [= <-])%bind_Some. exact Hk. Qed.

Lemma validate_distinct ves vs : Forall2 (fun ve v => Import ve = Some v) ves vs -> NoDup (ConsPubKey <$> vs) -> forall seen,
  (forall ve, ve ∈ ves -> ve_ConsPubKey ve ∉ seen) ->
  validate_validators seen ves = None <-> forall ve, ve ∈ ves -> (ve_Jailed ve && ve_IsBonded ve = false) /\ ve_DelegatorShares ve ≠ 0.
Proof.
  induction 1 as [|ve v ves vs Hi Hf IH]; intros Hnd seen Hseen; [split; [by intros _ ve ?%elem_of_nil|done]|].
  cbn [validate_validators]. rewrite bool_decide_eq_false_2 by (apply Hseen; left).
  apply NoDup_cons in Hnd as [Hv Hnd].
  assert (forall ve', ve' ∈ ves -> ve_ConsPubKey ve' ∉ {[ve_ConsPubKey ve]} ∪ seen) as Hnew.
  { intros ve' Hin. rewrite elem_of_union, elem_of_singleton. intros [Heq|Hin']; [|by apply (Hseen ve'); [right|]].
    apply Hv. apply list_elem_of_lookup in Hin as [i Hin]. destruct (Forall2_lookup_l _ _ _ _ _ Hf Hin) as (w & Hw & Hiw).
    apply list_elem_of_fmap. exists w. split; [|by apply list_elem_of_lookup_2 in Hw]. apply Import_key in Hi, Hiw. rewrite Heq in Hiw. congruence. }
  specialize (IH Hnd _ Hnew). destruct (ve_Jailed ve && ve_IsBonded ve) eqn:Hj.
  - split; [done|]. intros Hall. destruct (Hall ve) as [Hc _]; [left|congruence].
  - destruct (Z.eqb_spec (ve_DelegatorShares ve) 0) as [Hz|Hz].
    + split; [done|]. intros Hall. by destruct (Hall ve) as [_ Hc]; [left|].
    + rewrite IH. split; [intros Hall ve' [->|Hin]%elem_of_cons; [done|by apply Hall]|intros Hall ve' Hin; apply Hall; by right].
Qed.

Lemma exported_fields ve v : Import ve = Some (imported v) -> ve_Jailed ve = Jailed v /\ ve_Status ve = Status v /\ ve_DelegatorShares ve = DelegatorShares v.
Proof.
  intros (k & _ & Hv)%bind_Some. split_and!.
  - exact (f_equal (from_option Jailed false) Hv).
  - exact (f_equal (from_option Status Unbonded) Hv).
  - exact (f_equal (from_option DelegatorShares 0) Hv).
Qed.

Lemma NoDup_keys s : vals_agree s -> NoDup (ConsPubKey <$> (imported <$> GetAllValidators s)).
Proof.
  intros Hs. destruct (NoDup_imported s Hs) as [_ Hnd]. revert Hnd. generalize (imported <$> GetAllValidators s) as l. clear.
  induction l as [|v l IH]; intros Hnd; [constructor|]. apply NoDup_cons in Hnd as [Hv Hnd]. constructor; [|by apply IH].
  intros (w & Hw & Hin)%list_elem_of_fmap. apply Hv, list_elem_of_fmap. exists w. split; [|done]. unfold ConsAddress. by rewrite Hw.
Qed.

Lemma ValidateGenesis_export b s data : set_ok s -> (forall a v, validators s !! a = Some v -> encodable v) -> ExportGenesis b s = Ret data ->
  ValidateGenesis data = None <->
    (forall a v, validators s !! a = Some v -> ~ (Jailed v = true /\ Status v = Bonded) /\ DelegatorShares v ≠ 0) /\
    Params_Validate (GetParams b s) = None.
Proof.
  intros Hs Henc Hdata. destruct (ExportGenesis_data b s Henc) as (ves & Hves & Hd). rewrite Hd in Hdata. injection Hdata as <-.
  unfold ValidateGenesis, validateGenesisStateValidators. cbn [gs_Validators gs_Params].
  pose proof (validate_distinct ves (imported <$> GetAllValidators s)) as Hval.
  specialize (Hval ltac:(by apply Forall2_fmap_r) (NoDup_keys s (set_vals _ Hs)) ∅ ltac:(intros ve _; apply not_elem_of_empty)).
  assert ((forall ve, ve ∈ ves -> (ve_Jailed ve && ve_IsBonded ve = false) /\ ve_DelegatorShares ve ≠ 0) <->
    forall a v, validators s !! a = Some v -> ~ (Jailed v = true /\ Status v = Bonded) /\ DelegatorShares v ≠ 0) as Hiff.
  { split.
    - intros Hall a v Hv. assert (v ∈ GetAllValidators s) as [i Hi]%list_elem_of_lookup.
      { apply list_elem_of_fmap. exists (a, v). split; [done|]. by apply elem_of_entries. }
      destruct (Forall2_lookup_r _ _ _ _ _ Hves Hi) as (ve & Hve & Him). destruct (exported_fields ve v Him) as (Ej & Est & Esh).
      destruct (Hall ve) as [Hj Hz]; [by apply list_elem_of_lookup_2 in Hve|]. rewrite Ej in Hj. unfold ve_IsBonded in Hj. rewrite Est in Hj.
      split; [|congruence]. intros [Hjv Hb]. by rewrite Hjv, bool_decide_eq_true_2 in Hj.
    - intros Hall ve [i Hve]%list_elem_of_lookup. destruct (Forall2_lookup_l _ _ _ _ _ Hves Hve) as (v & Hi & Him).
      destruct (exported_fields ve v Him) as (Ej & Est & Esh). apply list_elem_of_lookup_2, elem_of_all_validators in Hi as [a Hv].
      destruct (Hall a v Hv) as [Hj Hz]. split; [|congruence]. unfold ve_IsBonded. rewrite Ej, Est. destruct (Jailed v); [|done].
      cbn. apply bool_decide_eq_false_2. intros Hb. by apply Hj. }
  rewrite Hiff in Hval. destruct (validate_validators ∅ ves) as [err|].
  - split; [done|]. intros [Hall _]. by apply Hval in Hall.
  - split; [intros Hp; split; [by apply Hval|done]|by intros [_ Hp]].
Qed.

End Restore.

(** ** Properties *)
Section Properties.
Context {W : Type} `{SupplyKeeperLaws W, !StakingHooks W, !StakingHooksLaws W, !StakingSdk, !StakingSdkLaws, !StakingPowerLaws, !SdkConfig}.
Context `{!ConsKeyCodec, !ConsKeyCodecLaws, !ModuleCoins W, !ModuleCoinsLaws W}.
Context (PubKey_Type : bytes -> string) (PubKeyTypes : option (list string)).
Implicit Types (s : Stk W) (v : Validator) (a : Address) (b : Block).

(** C26: importing an exported state into an empty store restores it, where
    the pools hold the coins of the state: every table is the one
    exported, a slice of the queue of unbonding validators up to its order,
    and the engine is told the last powers.  The running epoch and its
    start are not exported: the default epoch runs until its end. *)
Theorem staking_genesis_restores s b b' p w : reachable PubKey_Type PubKeyTypes s ->
  (forall a v, validators s !! a = Some v -> encodable v) -> pools_match s w ->
  exists data s', ExportGenesis b s = Ret data /\ runs (InitGenesis b' data) (empty_store p w) (last_updates s) s' /\
    restored b w s s' /\ GetEpoch s' = DefaultEpoch.
Proof.
  intros [Hwf Hok Hs _]%reachable_in_order Henc Hp.
  destruct (InitGenesis_restores b b' s p w Hwf Hok Hs Henc Hp) as (data & s' & Hd & Hr & Hre). exists data, s'. split_and!; [done..|].
  unfold GetEpoch. destruct (re_lost _ _ _ _ Hre) as (_ & -> & _). done.
Qed.

(** C27: the export of a reachable state passes the check of a genesis only
    when no bonded validator is jailed and every validator has shares: the
    state after a validator was jailed, until the epoch ends, and after one
    nobody voted for gave up its deposit, until it is unbonded, cannot be
    started from. *)
Theorem exported_genesis_checks s b data : reachable PubKey_Type PubKeyTypes s ->
  (forall a v, validators s !! a = Some v -> encodable v) -> ExportGenesis b s = Ret data ->
  ValidateGenesis data = None <->
    (forall a v, validators s !! a = Some v -> ~ (Jailed v = true /\ Status v = Bonded) /\ DelegatorShares v ≠ 0) /\
    Params_Validate (GetParams b s) = None.
Proof. intros [_ _ Hs _]%reachable_in_order. by apply ValidateGenesis_export. Qed.

End Properties.
End StakingGenesis.
