(* ===== verification/StakingSetExamples.v ===== *)
(** The theorems about the validator set on a concrete history: messages,
    the end of an epoch, a validator that leaves and is replaced, a jailing
    and an export. *)
From S2P Require Import Prelude.
From S2P Require Import Interfaces.
From S2P Require Import Sums.
From S2P Require Import Effects.
From S2P Require Import StakingTypes.
From S2P Require Import StakingKeys.
From S2P Require Import StakingState.
From S2P Require Import StakingKeeper.
From S2P Require Import StakingVals.
From S2P Require Import StakingHandler.
From S2P Require Import StakingAcct.
From S2P Require Import StakingView.
From S2P Require Import StakingSet.
From S2P Require Import StakingVotes.
From S2P Require Import StakingElect.
From S2P Require Import StakingBlock.
From S2P Require Import StakingReach.
From S2P Require Import StakingInvariants.
From S2P Require Import StakingGenesis.
From S2P Require Import StakingExamples.
Import StakingTypes StakingKeys StakingState StakingKeeper StakingVals StakingHandler StakingAcct StakingView.
Import StakingSet StakingVotes StakingElect StakingBlock StakingReach StakingInvariants StakingGenesis StakingExamples.
Local Open Scope Z_scope.

Module StakingSetExamples.

#[export] Instance demo_power_laws : StakingPowerLaws.
Proof.
  split.
  - intros x. cbn [Dec_Int64 demo_sdk]. pose proof (Z.mod_pos_bound (Z.quot x OneDec + 2 ^ 63) (2 ^ 64) ltac:(done)). lia.
  - intros x w Hx Hw. cbn [Dec_Mul demo_sdk]. unfold dec_mul. assert (0 < OneDec) as H1 by done.
    assert (x * OneDec <= x * w) as Hle by nia. destruct (Z.eq_dec x 0) as [->|Hn]; [done|].
    rewrite (Z.sgn_pos (x * w)), Z.mul_1_l, Z.abs_eq by nia. by apply round_half_even_ge.
  - by intros n x [= ->].
Qed.

Abbreviation moves := (StakingReach.moves (W := ledger) key_type None).
Abbreviation reachable := (StakingReach.reachable (W := ledger) key_type None).

(** ** The history *)

Lemma no_tables : set_ok genesis.
Proof.
  assert (forall (P : Validator -> Prop) a, (exists v, (∅ : gmap Address Validator) !! a = Some v /\ P v) <-> False) as Hno.
  { intros P a. split; [|done]. intros (v & Hv & _). by rewrite lookup_empty in Hv. }
  split; [split|split| |]; cbn; try done.
  - intros c a. by rewrite Hno, lookup_empty.
  - intros k a. by rewrite Hno, lookup_empty.
  - intros a. rewrite Hno, lookup_empty. split; [by intros []|done].
  - split; [|done]. intros t a. unfold slice. rewrite lookup_empty, Hno. apply elem_of_nil.
  - by intros a ?%elem_of_nil.
Qed.
Lemma genesis_in_order : in_order genesis.
Proof. destruct genesis_ok as [Hwf Hok]. split; [done|done|exact no_tables|]. split; [split|]; done. Qed.

Lemma run_msgs_moves b l : late b -> forall s0 s s' ups, Forall msg_fine l -> moves s0 ups s -> run_msgs b l s = Some s' -> moves s0 ups s'.
Proof.
  intros Hb. induction l as [|m l IH]; intros s0 s s' ups Hl Hm Hr; cbn [run_msgs] in Hr; [by injection Hr as <-|].
  apply Forall_cons in Hl as [Hf Hl]. destruct (handle b m s) as [[s1 [u|]]|] eqn:Hs; try done.
  apply (IH s0 s1); [done| |done]. rewrite <- (app_nil_r ups). apply (moves_step _ _ s0 ups s [] s1); [done|].
  by apply (move_message _ _ s b m u).
Qed.
Lemma after_moves b l s0 s ups : late b -> Forall msg_fine l -> all_accepted b l s = true -> moves s0 ups s -> moves s0 ups (after b l s).
Proof.
  unfold all_accepted, after. intros Hb Hl Hr Hm. destruct (run_msgs b l s) as [s'|] eqn:E; [|done]. by apply (run_msgs_moves b l Hb s0 s).
Qed.
Definition end_of (b : Block) (s : Stk ledger) : Stk ledger := match EndBlocker b s with Ret (s', _) => s' | Panic _ => s end.
Definition told (b : Block) (s : Stk ledger) : list ValidatorUpdate := match EndBlocker b s with Ret (_, inl ups) => ups | _ => [] end.
Lemma end_moves b s0 s ups : ends_well b s = true -> moves s0 ups s -> moves s0 (ups ++ told b s) (end_of b s).
Proof.
  intros Hw Hm. apply (moves_step _ _ s0 ups s (told b s) (end_of b s)); [done|]. apply (move_end_block _ _ s b).
  unfold ends_well, end_of, told, runs in *. by destruct (EndBlocker b s) as [[s' [ups'|]]|].
Qed.

(** The messages of the example in a block that weighs votes, the end of the
    epoch, and validator 1 leaves. *)
Definition voted_state : Stk ledger := after (block 60) demo_msgs genesis.
Definition elected_state : Stk ledger := end_of (block 276) voted_state.
Definition leaving_state : Stk ledger := after (block 277) [DestroyValidator 1%N] elected_state.
Definition replaced_state : Stk ledger := end_of (block 277) leaving_state.

Lemma late_block n : 52 <= n < 2 ^ 40 -> late (block n).
Proof.
  intros Hn. unfold late, Unix, block. cbn [BlockTime]. rewrite Z.div_mul by done.
  assert (blockTimestampEpoch + n * secondsPerWeek - blockTimestampEpoch = n * secondsPerWeek) as -> by lia. rewrite Z.quot_mul by done. lia.
Qed.

Lemma demo_msgs_fine : Forall msg_fine demo_msgs.
Proof.
  unfold demo_msgs. repeat (apply Forall_cons; split); [..|by apply Forall_nil]; cbn [msg_fine demo_validator]; try done.
  apply (bool_decide_unpack _). vm_compute. done.
Qed.

Lemma voted_moves : moves genesis [] voted_state.
Proof. apply after_moves; [by apply late_block|exact demo_msgs_fine|by vm_compute|constructor]. Qed.
Definition first_updates : list ValidatorUpdate := told (block 276) voted_state.
Definition all_updates : list ValidatorUpdate := first_updates ++ told (block 277) leaving_state.
Lemma elected_moves : moves genesis first_updates elected_state.
Proof. apply (end_moves (block 276) genesis voted_state []); [by vm_compute|exact voted_moves]. Qed.
Lemma leaving_moves : moves genesis first_updates leaving_state.
Proof. apply after_moves; [by apply late_block|by apply Forall_cons|by vm_compute|exact elected_moves]. Qed.
Lemma replaced_moves : moves genesis all_updates replaced_state.
Proof. apply (end_moves (block 277) genesis leaving_state first_updates); [by vm_compute|exact leaving_moves]. Qed.

(** Both validators are elected with the weight of the proxy's votes; then
    the one that left is out. *)
Example the_set : map_to_list (lastPowers elected_state) = map_to_list (lastPowers leaving_state) /\
  size (lastPowers elected_state) = 2%nat /\ size (lastPowers replaced_state) = 1%nat /\
  length first_updates = 2%nat /\ map up_Power (told (block 277) leaving_state) = [0].
Proof. split_and!; vm_compute; reflexivity. Qed.

Lemma reached ups s : moves genesis ups s -> reachable s.
Proof. intros Hm. exists genesis, ups. split; [exact Hm|exact genesis_in_order]. Qed.

(** ** The theorems on this history *)

(** Without hooks nothing can panic. *)
Lemma no_hook_panics p : ~ hook_panic (W := ledger) p.
Proof. by intros []. Qed.

Lemma EndBlocker_returns_witness : exists s' ups, EndBlocker (block 277) leaving_state = Ret (s', inl ups) /\ in_order s'.
Proof.
  pose proof (EndBlocker_returns key_type None leaving_state (block 277) (reached _ _ leaving_moves)) as Hr.
  destruct (EndBlocker (block 277) leaving_state) as [[s' [ups|e]]|p]; [by exists s', ups|done|by destruct (no_hook_panics p)].
Defined.

Lemma validator_set_updates_witness :
  (exists s' ups, ApplyAndReturnValidatorSetUpdates (block 276) voted_state = Ret (s', inl ups) /\ set_elected (block 276) voted_state ups s') /\
  elected voted_state (seats (block 276) voted_state) ≠ [].
Proof.
  split; [|vm_compute; congruence].
  pose proof (validator_set_updates key_type None voted_state (block 276) (reached _ _ voted_moves)) as [Hr _].
  destruct (ApplyAndReturnValidatorSetUpdates (block 276) voted_state) as [[s' [ups|e]]|p]; [by exists s', ups|done|by destruct (no_hook_panics p)].
Defined.

Lemma engine_knows_nothing : engine_is ∅ genesis.
Proof. intros k p. rewrite lookup_empty. split; [done|]. by intros (a & v & Hv & _). Qed.
Lemma engine_follows_updates_witness : engine_is (apply_updates ∅ all_updates) replaced_state.
Proof. exact (engine_follows_updates key_type None genesis all_updates replaced_state ∅ replaced_moves genesis_in_order engine_knows_nothing). Defined.

Lemma staking_invariants_hold_witness : Forall (fun x : string * _ => x.2 replaced_state = Ret false) RegisterInvariantsCustom.
Proof.
  apply Forall_forall. intros [route invariant].
  exact (staking_invariants_hold key_type None replaced_state (reached _ _ replaced_moves) route invariant).
Defined.
(** The invariants can break: a stake that is nowhere. *)
Example broken_invariant : ModuleAccountInvariantsCustom (replaced_state <| delegators := ∅ |>) = true.
Proof. vm_compute. reflexivity. Qed.

(** *** Export and import *)

#[export] Instance demo_codec : ConsKeyCodec := {
  Bech32PrefixConsPub := "faxvalconspub";
  ConvertAndEncode _ bz := Some (String.string_of_list_byte bz);
  GetFromBech32 str _ := Some (String.list_byte_of_string str);
  PubKeyFromBytes bz := Some bz;
}.
#[export] Instance demo_codec_laws : ConsKeyCodecLaws.
Proof. intros prefix bz str [= <-]. cbn. by rewrite String.list_byte_of_string_of_list_byte. Qed.

(** The coins of a pool. *)
Definition pool_coins (w : ledger) (name : string) : list SysCoin :=
  omap (fun '((n, d), x) => if bool_decide (n = name /\ x ≠ 0) then Some (d, x) else None) (map_to_list (led_pools w)).
#[export] Instance demo_coins : ModuleCoins ledger := {
  module_coins w name := Some (pool_coins w name);
  ToCoins c := if c.2 =? 0 then [] else [c];
  SysCoins_IsZero := forallb (fun c => c.2 =? 0);
  SysCoins_IsEqual l l' := Ret (bool_decide (l = l'));
  ValidatorUpdateDelay := 1;
}.
Lemma elem_of_pool_coins w name d x : (d, x) ∈ pool_coins w name <-> led_pools w !! (name, d) = Some x /\ x ≠ 0.
Proof.
  unfold pool_coins. rewrite list_elem_of_omap. split.
  - intros ([[n d'] y] & Hin & He). case_bool_decide as Hc; [|done]. injection He as -> ->. destruct Hc as [-> Hn].
    split; [by apply elem_of_map_to_list|done].
  - intros [Hl Hn]. exists (name, d, x). split; [by apply elem_of_map_to_list|]. by rewrite bool_decide_eq_true_2.
Qed.
#[export] Instance demo_coins_laws : ModuleCoinsLaws ledger.
Proof.
  split.
  - intros w name l [= <-]. split.
    + unfold pool_coins. assert (NoDup (map_to_list (led_pools w))) as Hnd by apply NoDup_map_to_list.
      pose proof (NoDup_fst_map_to_list (led_pools w)) as Hf. revert Hf. generalize (map_to_list (led_pools w)) as m. clear.
      induction m as [|[[n d] x] m IH]; intros Hf; [constructor|]. apply NoDup_cons in Hf as [Hn Hf]. cbn.
      case_bool_decide as Hc; [|by apply IH]. constructor; [|by apply IH].
      intros ([[n' d'] x'] & Hin & He)%list_elem_of_omap. case_bool_decide as Hc'; [|done]. injection He as -> ->. destruct Hc as [-> _], Hc' as [-> _].
      apply Hn, list_elem_of_fmap. by exists (name, d, x).
    + intros d x. rewrite elem_of_pool_coins. cbn. unfold bal. destruct (led_pools w !! (name, d)) as [y|]; cbn; naive_solver.
  - done.
  - intros d x Hx. cbn. rewrite (proj2 (Z.eqb_neq _ _) Hx). by rewrite bool_decide_eq_true_2.
Qed.

Lemma all_encodable (s : Stk ledger) a v : validators s !! a = Some v -> encodable v.
Proof. intros _. split; [by eexists|done]. Qed.
(** Only the bond denomination was ever in the pools. *)
Definition only_fax (w : ledger) : bool := forallb (fun kx => bool_decide (kx.1.2 = DefaultBondDenom)) (map_to_list (led_pools w)).
Lemma only_fax_pools (s : Stk ledger) : only_fax (world s) = true -> pools_match s (world s).
Proof.
  intros Ho. split; [by intros d|]. intros name _. split; [by eexists|]. intros d Hd. cbn. unfold bal.
  destruct (led_pools (world s) !! (name, d)) as [x|] eqn:Hl; [|done]. exfalso. apply Hd. unfold only_fax in Ho. rewrite forallb_forall in Ho.
  specialize (Ho (name, d, x)). apply bool_decide_eq_true_1 in Ho; [done|]. by apply list_elem_of_In, elem_of_map_to_list.
Qed.
Lemma replaced_pools : pools_match replaced_state (world replaced_state).
Proof. apply only_fax_pools. vm_compute. reflexivity. Qed.

Lemma staking_genesis_restores_witness : exists data s', ExportGenesis (block 277) replaced_state = Ret data /\
  runs (InitGenesis (block 300) data) (empty_store demo_params (world replaced_state)) (last_updates replaced_state) s' /\
  restored (block 277) (world replaced_state) replaced_state s' /\ GetEpoch s' = DefaultEpoch.
Proof.
  exact (staking_genesis_restores key_type None replaced_state (block 277) (block 300) demo_params (world replaced_state)
    (reached _ _ replaced_moves) (all_encodable replaced_state) replaced_pools).
Defined.

(** Validator 2 is jailed while it has a seat: the export is refused. *)
Definition jailed (c : Address) (s : Stk ledger) : Stk ledger := match Jail c s with Ret (s', _) => s' | Panic _ => s end.
Definition can_jail (c : Address) (s : Stk ledger) : bool :=
  match GetValidatorByConsAddr c s, Jail c s with Some v, Ret (_, inl _) => negb (MinSelfDelegation v =? 0) | _, _ => false end.
Lemma jail_moves c s0 ups s : can_jail c s = true -> moves s0 ups s -> moves s0 ups (jailed c s).
Proof.
  intros Hc Hm. rewrite <- (app_nil_r ups). apply (moves_step _ _ s0 ups s [] (jailed c s) Hm). unfold can_jail, jailed in *.
  destruct (GetValidatorByConsAddr c s) as [v|] eqn:Hv; [|done]. destruct (Jail c s) as [[s' [u|]]|] eqn:Hj; [|done..].
  apply (move_jail _ _ s c v u); [done| |exact Hj]. intros Hz. by rewrite Hz in Hc.
Qed.
Definition validator_2 : Address := BytesToAddress (Address_Bytes 2%N).
Definition jailed_state : Stk ledger := jailed validator_2 elected_state.
Lemma jailed_moves : moves genesis first_updates jailed_state.
Proof. apply jail_moves; [vm_compute; reflexivity|exact elected_moves]. Qed.

Definition refused (b : Block) (e : genesis_error) (s : Stk ledger) : bool :=
  match ExportGenesis b s with Ret data => bool_decide (ValidateGenesis data = Some e) | Panic _ => false end.
Lemma refused_data b e s : refused b e s = true -> exists data, ExportGenesis b s = Ret data /\ ValidateGenesis data = Some e.
Proof.
  unfold refused. destruct (ExportGenesis b s) as [data|]; [|done]. intros Hd%bool_decide_eq_true_1. by exists data.
Qed.
Lemma exported_genesis_checks_witness : exists data, ExportGenesis (block 277) jailed_state = Ret data /\ ValidateGenesis data = Some (BondedAndJailed "v") /\
  ~ ((forall a v, validators jailed_state !! a = Some v -> ~ (Jailed v = true /\ Status v = Bonded) /\ DelegatorShares v ≠ 0) /\
     Params_Validate (GetParams (block 277) jailed_state) = None).
Proof.
  assert (refused (block 277) (BondedAndJailed "v") jailed_state = true) as Hx by (vm_compute; reflexivity).
  destruct (refused_data _ _ _ Hx) as (data & Hd & Hv). exists data. split; [exact Hd|]. split; [exact Hv|].
  pose proof (exported_genesis_checks key_type None jailed_state (block 277) data (reached _ _ jailed_moves) (all_encodable jailed_state) Hd) as Hiff.
  intros Hc. apply Hiff in Hc. rewrite Hv in Hc. discriminate Hc.
Defined.

End StakingSetExamples.
