(* ===== verification/Distribution.v ===== *)
(** The distribution module (distribution/keeper, handler.go, abci.go,
    genesis.go): fees collected in a block are shared among validators and
    the community in the next one.

    The module's store is a record; coins and the supply keeper are the
    Cosmos SDK's; validators are read through an interface that the
    staking module implements ([StakingReader]). *)
From S2P Require Import Prelude.
From S2P Require Import Interfaces.
From S2P Require Import Sums.
From S2P Require Import Coins.
From S2P Require Import StakingTypes.
From S2P Require Import Effects.
From S2P Require Import StakingKeys.
From S2P Require Import StakingState.
From stdpp Require Import sorting.
Local Open Scope Z_scope.

(** ** What the module calls *)

(** The staking keeper ([types.StakingKeeper]); nil is [None]. *)
Class StakingReader (SK : Type) := {
  Validator_of : SK -> Address -> option Validator;
  ValidatorByConsAddr : SK -> Address -> option Validator;
  IterateValidators : SK -> list Validator;
}.

(** The supply keeper ([types.SupplyKeeper]).  A module account is the
    account at the module's address; [None] is an error. *)
Class DistrSupply (W C : Type) := {
  GetModuleAddress : string -> Address;
  GetCoins : W -> Address -> C;
  SendModuleToModule : W -> string -> string -> C -> option W;
  SendModuleToAccount : W -> string -> Address -> C -> option W;
  SetModuleCoins : W -> string -> C -> W;
}.

Definition coins_at `{DistrSupply W C, SdkCoins C} (w : W) (a : Address) (d : Denom) : Dec := AmountOf (GetCoins w a) d.
(** [c] left [from] and arrived at [to]. *)
Definition moved `{DistrSupply W C, SdkCoins C} (w w' : W) (from to : Address) (c : C) : Prop :=
  forall a d, coins_at w' a d = coins_at w a d
    + (if decide (a = to) then AmountOf c d else 0) - (if decide (a = from) then AmountOf c d else 0).

Class DistrSupplyLaws (W C : Type) `{DistrSupply W C, SdkCoins C} := {
  SendModuleToModule_ok w p q c w' : SendModuleToModule w p q c = Some w' ->
    moved w w' (GetModuleAddress p) (GetModuleAddress q) c;
  SendModuleToModule_enough w p q c : (forall d, AmountOf c d <= coins_at w (GetModuleAddress p) d) ->
    is_Some (SendModuleToModule w p q c);
  SendModuleToAccount_ok w p a c w' : SendModuleToAccount w p a c = Some w' ->
    moved w w' (GetModuleAddress p) a c;
  SendModuleToAccount_enough w p a c : (forall d, AmountOf c d <= coins_at w (GetModuleAddress p) d) ->
    is_Some (SendModuleToAccount w p a c);
  SetModuleCoins_ok w p c a d : coins_at (SetModuleCoins w p c) a d =
    if decide (a = GetModuleAddress p) then AmountOf c d else coins_at w a d;
}.

(** ** State *)
Record DistrParams := mkDistrParams { CommunityTax : Dec; WithdrawAddrEnabled : bool }.

Record Distr {W C : Type} := mkDistr {
  feePool : option C;                              (* FeePool.CommunityPool *)
  previousProposer : option (option Address);      (* an empty address is [None] *)
  withdrawAddrs : gmap Address Address;
  commissions : gmap Address C;
  community : option Address;
  distr_params : DistrParams;
  dworld : W;
}.
Arguments Distr W C : clear implicits.
#[export] Instance Distr_eta W C : Eta (Distr W C) := fun r =>
  mkDistr W C (feePool r) (previousProposer r) (withdrawAddrs r) (commissions r) (community r) (distr_params r) (dworld r).

Record VoteInfo := mkVoteInfo { vote_Address : Address; vote_Power : Z }.
Record CommunityPoolSpendProposal {C : Type} := mkSpendProposal { Recipient : Address; Amount : C }.
Arguments CommunityPoolSpendProposal C : clear implicits.
Inductive DistrMsg :=
  | MsgSetWithdrawAddress (delegator withdraw : Address)
  | MsgWithdrawValidatorCommission (validator : Address).

Record DistrGenesis {C : Type} := mkDistrGenesis {
  gen_Params : DistrParams;
  gen_FeePool : C;
  gen_WithdrawInfos : list (Address * Address);
  gen_PreviousProposer : option Address;
  gen_Commissions : list (Address * C);
  gen_CommunityAddress : Address;
}.
Arguments DistrGenesis C : clear implicits.

Inductive distr_error :=
  | ErrWithdrawAddrInblacklist | ErrSetWithdrawAddrDisabled | ErrNoValidatorCommission
  | ErrSendCoinsFromModuleToAccountFailed | ErrBadDistribution | ErrRecipientBlacklisted | ErrTransfer
  | ErrNilDelegator | ErrNilWithdraw | ErrNilValidator
  | ErrCommunityTax (percent : Dec) | ErrInvalidProposalAmount | ErrEmptyProposalRecipient | ErrNegativeCommunityPool.

(** [int64] arithmetic. *)
Definition i64 (x : Z) : Z := (x + 2 ^ 63) mod 2 ^ 64 - 2 ^ 63.

Module Distribution.

Definition ModuleName : string := "distribution".
Definition valPortion : Dec := 20 * 10 ^ 16.
Definition votePortion : Dec := 80 * 10 ^ 16.

(** *** Basic checks ([types/params.go], [types/msg.go], [types/fee_pool.go]) *)
Definition DefaultParams : DistrParams := mkDistrParams (2 * 10 ^ 16) true.
Definition Params_ValidateBasic (p : DistrParams) : option distr_error :=
  if (CommunityTax p <? 0) || (dec_one <? CommunityTax p) then Some (ErrCommunityTax (CommunityTax p)) else None.
Definition validateCommunityTax (v : option Dec) : option distr_error :=
  match v with
  | None => Some (ErrCommunityTax 0)
  | Some v => if v <? 0 then Some (ErrCommunityTax v) else if dec_one <? v then Some (ErrCommunityTax v) else None
  end.
Definition MsgSetWithdrawAddress_ValidateBasic (delegator withdraw : option Address) : option distr_error :=
  if decide (delegator = None) then Some ErrNilDelegator
  else if decide (withdraw = None) then Some ErrNilWithdraw else None.
Definition MsgWithdrawValidatorCommission_ValidateBasic (validator : option Address) : option distr_error :=
  if decide (validator = None) then Some ErrNilValidator else None.

Section Keeper.
Context {W C SK : Type} `{SdkCoins C, DecCoins C, DecQuo, DistrSupply W C, StakingReader SK}.
(** The configuration of the keeper ([NewKeeper]). *)
Context (feeCollectorName : string) (blacklistedAddrs : Address -> bool).
Abbreviation distr := (Distr W C).
Abbreviation E := (eff (Distr W C) distr_error).
Implicit Types (s : distr) (c : C).

Definition FeePool_ValidateGenesis (pool : C) : option distr_error :=
  if IsAnyNegative pool then Some ErrNegativeCommunityPool else None.
Definition ValidateGenesis (data : DistrGenesis C) : option distr_error :=
  match Params_ValidateBasic (gen_Params data) with
  | Some err => Some err
  | None => FeePool_ValidateGenesis (gen_FeePool data)
  end.

(** *** The store ([store.go], [params.go]) *)
Definition GetDelegatorWithdrawAddr (delAddr : Address) s : Address := default delAddr (withdrawAddrs s !! delAddr).
Definition SetDelegatorWithdrawAddr (delAddr withdrawAddr : Address) s : distr :=
  s <| withdrawAddrs := <[delAddr := withdrawAddr]> (withdrawAddrs s) |>.
Definition IterateDelegatorWithdrawAddrs s : list (Address * Address) := entries (withdrawAddrs s).
Definition GetFeePool : E C :=
  o ← gets feePool; or_panic (PanicMsg "Stored fee pool should not have been nil") o.
Definition SetFeePool (pool : C) s : distr := s <| feePool := Some pool |>.
Definition GetPreviousProposerConsAddr : E (option Address) :=
  o ← gets previousProposer; or_panic (PanicMsg "Previous proposer not set") o.
Definition SetPreviousProposerConsAddr (consAddr : option Address) s : distr := s <| previousProposer := Some consAddr |>.
Definition SetCommunityAddress (commAddr : Address) s : distr := s <| community := Some commAddr |>.
Definition GetCommunityAddress : E Address :=
  o ← gets community; or_panic (PanicMsg "Previous proposer not set") o.
Definition GetValidatorAccumulatedCommission (val : Address) s : C := default coins_empty (commissions s !! val).
Definition SetValidatorAccumulatedCommission (val : Address) c s : distr :=
  s <| commissions := <[val := if IsZero c then coins_empty else c]> (commissions s) |>.
Definition deleteValidatorAccumulatedCommission (val : Address) s : distr :=
  s <| commissions := delete val (commissions s) |>.
Definition IterateValidatorAccumulatedCommissions s : list (Address * C) := entries (commissions s).
Definition SetParams (p : DistrParams) s : distr := s <| distr_params := p |>.
Definition GetCommunityTax s : Dec := CommunityTax (distr_params s).
Definition GetWithdrawAddrEnabled s : bool := WithdrawAddrEnabled (distr_params s).

(** *** Transfers *)
Definition send_to_module (sender recipient : string) (amt : C) : E unit := fun s =>
  match SendModuleToModule (dworld s) sender recipient amt with
  | Some w => Ret (s <| dworld := w |>, inl tt)
  | None => Ret (s, inr ErrTransfer)
  end.
Definition send_to_account (sender : string) (recipient : Address) (amt : C) : E unit := fun s =>
  match SendModuleToAccount (dworld s) sender recipient amt with
  | Some w => Ret (s <| dworld := w |>, inl tt)
  | None => Ret (s, inr ErrTransfer)
  end.
(** [if err != nil { panic(err) }] *)
Definition must (m : E unit) : E unit := catch m (fun _ => panic (PanicMsg "transfer failed")).

(** *** Keeper ([keeper.go], [proposal_handler.go]) *)
Definition SetWithdrawAddr (delegatorAddr withdrawAddr : Address) : E unit :=
  if blacklistedAddrs withdrawAddr then throw ErrWithdrawAddrInblacklist
  else
    enabled ← gets GetWithdrawAddrEnabled;
    if negb enabled then throw ErrSetWithdrawAddrDisabled
    else modify (SetDelegatorWithdrawAddr delegatorAddr withdrawAddr).

Definition WithdrawValidatorCommission (valAddr : Address) : E C :=
  accumCommission ← gets (GetValidatorAccumulatedCommission valAddr);
  if IsZero accumCommission then throw ErrNoValidatorCommission
  else
    let (commission, remainder) := TruncateDecimal accumCommission in
    _ ← modify (SetValidatorAccumulatedCommission valAddr remainder);
    _ ← when (negb (IsZero commission))
          (withdrawAddr ← gets (GetDelegatorWithdrawAddr valAddr);
           catch (send_to_account ModuleName withdrawAddr commission)
             (fun _ => throw ErrSendCoinsFromModuleToAccountFailed));
    mret commission.

Definition distributeFromFeePool (amount : C) (receiveAddr : Address) : E unit :=
  pool ← GetFeePool;
  match CoinsSub pool amount with
  | None => throw ErrBadDistribution
  | Some newPool =>
      _ ← send_to_account ModuleName receiveAddr amount;
      modify (SetFeePool newPool)
  end.

Definition HandleCommunityPoolSpendProposal (p : CommunityPoolSpendProposal C) : E unit :=
  if blacklistedAddrs (Recipient p) then throw ErrRecipientBlacklisted
  else distributeFromFeePool (Amount p) (Recipient p).

(** *** Allocation ([allocation.go]) *)
Definition AllocateTokensToValidator (val : Validator) (tokens : C) : E unit :=
  commission ← gets (GetValidatorAccumulatedCommission (OperatorAddress val));
  modify (SetValidatorAccumulatedCommission (OperatorAddress val) (CoinsAdd commission tokens)).

(** The loops that pay: [reward] is what the body computes for a validator. *)
Fixpoint pay_loop (reward : Validator -> E C) (validators : list Validator) (remaining : C) : E C :=
  match validators with
  | [] => mret remaining
  | val :: rest =>
      r ← reward val;
      _ ← AllocateTokensToValidator val r;
      remaining ← or_panic (PanicMsg "negative coin amount") (CoinsSub remaining r);
      pay_loop reward rest remaining
  end.

Definition unjailed (val : Validator) : option Validator := if Jailed val then None else Some val.

Definition allocateByEqual (sk : SK) (rewards : C) (previousVotes : list VoteInfo) : E C :=
  let validators := omap (fun vote => ValidatorByConsAddr sk (vote_Address vote) ≫= unjailed) previousVotes in
  powerFraction ← or_panic PanicDivide (QuoTruncate (NewDec 1) (NewDec (Z.of_nat (length validators))));
  let reward := MulDecTruncate rewards powerFraction in
  pay_loop (fun _ => mret reward) validators rewards.

Definition allocateByShares (sk : SK) (rewards : C) : E C :=
  let validators := omap unjailed (IterateValidators sk) in
  let totalVotes := foldl (fun total val => total + DelegatorShares val) 0 validators in
  pay_loop (fun val =>
    powerFraction ← or_panic PanicDivide (QuoTruncate (DelegatorShares val) totalVotes);
    mret (MulDecTruncate rewards powerFraction)) validators rewards.

(** The proposer is only looked up to log a warning. *)
Definition AllocateTokens (sk : SK) (totalPreviousPower : Z) (previousProposer : option Address)
    (previousVotes : list VoteInfo) : E unit :=
  feesCollected ← gets (fun s => GetCoins (dworld s) (GetModuleAddress feeCollectorName));
  if CoinsEmpty feesCollected then mret tt
  else
    _ ← must (send_to_module feeCollectorName ModuleName feesCollected);
    pool ← GetFeePool;
    if totalPreviousPower =? 0 then modify (SetFeePool (CoinsAdd pool feesCollected))
    else
      tax ← gets GetCommunityTax;
      let feesToVals := MulDecTruncate feesCollected (OneDec - tax) in
      let feeByEqual := MulDecTruncate feesToVals valPortion in
      let feeByVote := MulDecTruncate feesToVals votePortion in
      feesToCommunity ← or_panic (PanicMsg "negative coin amount") (CoinsSub feesCollected (CoinsAdd feeByEqual feeByVote));
      remainByEqual ← allocateByEqual sk feeByEqual previousVotes;
      remainByShare ← allocateByShares sk feeByVote;
      let feesToCommunity := CoinsAdd feesToCommunity (CoinsAdd remainByEqual remainByShare) in
      pool ← (if negb (IsZero feesToCommunity)
              then let pool := CoinsAdd pool feesToCommunity in _ ← modify (SetFeePool pool); mret pool
              else mret pool);
      communityAddress ← GetCommunityAddress;
      catch (distributeFromFeePool pool communityAddress) (fun _ => mret tt).

(** *** Hooks ([hooks.go], [validator.go]) *)
Definition initializeValidator (val : Validator) : E unit :=
  modify (SetValidatorAccumulatedCommission (OperatorAddress val) coins_empty).
Definition AfterValidatorCreated (sk : SK) (valAddr : Address) : E unit :=
  match Validator_of sk valAddr with
  | Some val => initializeValidator val
  | None => panic PanicNil
  end.
Definition AfterValidatorRemoved (valAddr : Address) : E unit :=
  commission ← gets (GetValidatorAccumulatedCommission valAddr);
  _ ← when (negb (IsZero commission))
        (let (coins, remainder) := TruncateDecimal commission in
         _ ← when (negb (IsZero remainder))
               (pool ← GetFeePool; modify (SetFeePool (CoinsAdd pool remainder)));
         when (negb (IsZero coins))
           (withdrawAddr ← gets (GetDelegatorWithdrawAddr valAddr);
            must (send_to_account ModuleName withdrawAddr coins)));
  modify (deleteValidatorAccumulatedCommission valAddr).

(** *** Handlers and the begin of a block ([handler.go], [abci.go]) *)
Definition handleMsgModifyWithdrawAddress (delegator withdraw : Address) : E unit := SetWithdrawAddr delegator withdraw.
Definition handleMsgWithdrawValidatorCommission (validator : Address) : E unit :=
  _ ← WithdrawValidatorCommission validator; mret tt.
Definition NewHandler (msg : DistrMsg) : E unit :=
  match msg with
  | MsgSetWithdrawAddress delegator withdraw => handleMsgModifyWithdrawAddress delegator withdraw
  | MsgWithdrawValidatorCommission validator => handleMsgWithdrawValidatorCommission validator
  end.

(** [start] is Tendermint's start height of the chain. *)
Definition BeginBlocker (sk : SK) (start height : Z) (votes : list VoteInfo) (proposer : option Address) : E unit :=
  let previousTotalPower := foldl (fun power vote => i64 (power + vote_Power vote)) 0 votes in
  _ ← when (start + 1 <? height)
        (previousProposer ← GetPreviousProposerConsAddr;
         AllocateTokens sk previousTotalPower previousProposer votes);
  modify (SetPreviousProposerConsAddr proposer).

(** *** Genesis ([genesis.go]) *)
Definition InitGenesis (data : DistrGenesis C) : E unit :=
  _ ← modify (SetCommunityAddress (gen_CommunityAddress data));
  _ ← modify (SetFeePool (gen_FeePool data));
  _ ← modify (SetParams (gen_Params data));
  _ ← modify (SetPreviousProposerConsAddr (gen_PreviousProposer data));
  _ ← for_each (gen_WithdrawInfos data) (fun dwi => modify (SetDelegatorWithdrawAddr dwi.1 dwi.2));
  _ ← for_each (gen_Commissions data) (fun acc => modify (SetValidatorAccumulatedCommission acc.1 acc.2));
  let moduleHoldings := foldl (fun holdings acc => CoinsAdd holdings acc.2) coins_empty (gen_Commissions data) in
  let moduleHoldings := CoinsAdd moduleHoldings (gen_FeePool data) in
  held ← gets (fun s => GetCoins (dworld s) (GetModuleAddress ModuleName));
  when (IsZero held) (modify (fun s => s <| dworld := SetModuleCoins (dworld s) ModuleName moduleHoldings |>)).

Definition ExportGenesis : E (DistrGenesis C) :=
  pool ← GetFeePool;
  params ← gets distr_params;
  communityAddress ← GetCommunityAddress;
  dwi ← gets IterateDelegatorWithdrawAddrs;
  pp ← GetPreviousProposerConsAddr;
  acc ← gets IterateValidatorAccumulatedCommissions;
  mret (mkDistrGenesis C params pool dwi pp acc communityAddress).

(** *** Registered invariants ([invariants.go]); true is broken *)
Definition NonNegativeCommissionsInvariant s : bool :=
  existsb (fun acc => IsAnyNegative acc.2) (IterateValidatorAccumulatedCommissions s).

Fixpoint can_withdraw_loop (vals : list Validator) s (count : nat) : res nat :=
  match vals with
  | [] => Ret count
  | val :: rest =>
      if IsZero (GetValidatorAccumulatedCommission (OperatorAddress val) s) then can_withdraw_loop rest s count
      else match WithdrawValidatorCommission (OperatorAddress val) s with
           | Ret (s', inl _) => can_withdraw_loop rest s' count
           | Ret (s', inr _) => can_withdraw_loop rest s' (S count)
           | Panic p => Panic p
           end
  end.
(** The changes are made on a cache that is dropped. *)
Definition CanWithdrawInvariant (sk : SK) s : res bool :=
  count ← can_withdraw_loop (IterateValidators sk) s 0; Ret (negb (count =? 0)%nat).

Definition ModuleAccountInvariant s : res bool :=
  let accumulatedCommission :=
    foldl (fun total acc => CoinsAdd total acc.2) coins_empty (IterateValidatorAccumulatedCommissions s) in
  match feePool s with
  | None => Panic (PanicMsg "Stored fee pool should not have been nil")
  | Some pool =>
      equal ← CoinsIsEqual (GetCoins (dworld s) (GetModuleAddress ModuleName)) (CoinsAdd pool accumulatedCommission);
      Ret (negb equal)
  end.

End Keeper.
End Distribution.

(** ** The staking module as a reader (staking/keeper/alias_functions.go) *)
Module StakingAlias.
Import StakingState.
Section Alias.
Context {W : Type} `{SupplyKeeper W, StakingHooks W, StakingSdk, SdkConfig}.

Definition Validator_ (s : Stk W) (a : Address) : option Validator := GetValidator a s.
Definition ValidatorByConsAddr_ (s : Stk W) (a : Address) : option Validator := GetValidatorByConsAddr a s.
(** The table read to its end: no caller stops early. *)
Definition IterateValidators_ (s : Stk W) : list Validator := (entries (validators s)).*2.

#[export] Instance Stk_reader : StakingReader (Stk W) := {
  Validator_of := Validator_;
  ValidatorByConsAddr := ValidatorByConsAddr_;
  IterateValidators := IterateValidators_;
}.

End Alias.
End StakingAlias.
