(* ===== verification/DistrAlloc.v ===== *)
(** Allocation of fees, in amounts: what [AllocateTokens] pays to whom,
    and that nothing is lost on the way. *)
From S2P Require Import Prelude.
From S2P Require Import Interfaces.
From S2P Require Import Sums.
From S2P Require Import Coins.
From S2P Require Import StakingTypes.
From S2P Require Import Effects.
From S2P Require Import Distribution.
Import Distribution.
Local Open Scope Z_scope.

Module DistrAlloc.
Section Alloc.
Context {W C SK : Type} `{SdkCoinsLaws C, !DecCoins C, !DecCoinsLaws C, !DecQuo, !DecQuoLaws,
  !DistrSupply W C, !DistrSupplyLaws W C, !StakingReader SK}.
Abbreviation distr := (Distr W C).
Abbreviation E := (eff (Distr W C) distr_error).
Implicit Types (s : distr) (c : C) (d : Denom) (a : Address).

(** ** Amounts of a state *)

Definition comm s a d : Dec := AmountOf (GetValidatorAccumulatedCommission a s) d.
Definition pool s d : Dec := from_option (fun c => AmountOf c d) 0 (feePool s).
Definition total s d : Dec := msum (fun _ c => AmountOf c d) (commissions s).
Definition held s a d : Dec := coins_at (dworld s) a d.
Definition distr_addr : Address := GetModuleAddress (W := W) (C := C) ModuleName.

(** [s'] is [s] with other commissions. *)
Definition same_but_comm s s' : Prop := s' = s <| commissions := commissions s' |>.

Lemma same_but_comm_refl s : same_but_comm s s.
Proof. by destruct s. Qed.
Lemma same_but_comm_trans s1 s2 s3 : same_but_comm s1 s2 -> same_but_comm s2 s3 -> same_but_comm s1 s3.
Proof. unfold same_but_comm. intros Ha Hb. rewrite Hb, Ha. done. Qed.

Lemma IsZero_amount c d : IsZero c = true -> AmountOf c d = 0.
Proof. intros Hz. by apply IsZero_spec. Qed.

Lemma AmountOf_normal c d : AmountOf (if IsZero c then coins_empty else c) d = AmountOf c d.
Proof. destruct (IsZero c) eqn:E; [|done]. by rewrite AmountOf_empty, IsZero_amount. Qed.

Lemma comm_entry s a d : comm s a d = from_option (fun c => AmountOf c d) 0 (commissions s !! a).
Proof.
  unfold comm, GetValidatorAccumulatedCommission. destruct (commissions s !! a); simpl; [done|]. apply AmountOf_empty.
Qed.
Lemma comm_nonneg s a d : 0 <= comm s a d.
Proof. apply AmountOf_nonneg. Qed.
Lemma comm_le_total s a d : comm s a d <= total s d.
Proof.
  rewrite comm_entry. unfold total. destruct (commissions s !! a) as [c|] eqn:E; simpl.
  - apply (msum_le_entry (fun _ c => AmountOf c d) _ a); [|done]. intros. apply AmountOf_nonneg.
  - apply msum_nonneg. intros. apply AmountOf_nonneg.
Qed.
Lemma total_nonneg s d : 0 <= total s d.
Proof. apply msum_nonneg. intros. apply AmountOf_nonneg. Qed.

(** *** Setting and removing a commission *)
Lemma comm_Set s a c b d : comm (SetValidatorAccumulatedCommission a c s) b d = if decide (a = b) then AmountOf c d else comm s b d.
Proof.
  rewrite !comm_entry. cbn. rewrite lookup_insert. case_decide; [|done]. simpl. apply AmountOf_normal.
Qed.
Lemma total_Set s a c d : total (SetValidatorAccumulatedCommission a c s) d = total s d - comm s a d + AmountOf c d.
Proof. unfold total. cbn. by rewrite msum_insert, AmountOf_normal, comm_entry. Qed.
Lemma total_delete s a d : total (deleteValidatorAccumulatedCommission a s) d = total s d - comm s a d.
Proof. unfold total. cbn. by rewrite msum_delete_default, comm_entry. Qed.

Lemma AmountOf_sub c1 c2 c d : CoinsSub c1 c2 = Some c -> AmountOf c d = AmountOf c1 d - AmountOf c2 d.
Proof. apply AmountOf_CoinsSub. Qed.

(** ** The payment loops *)

(** What the loop pays to [a]: its validators' rewards. *)
Definition paid_to (r : Validator -> C) (l : list Validator) a d : Dec :=
  lsum (fun v => if decide (OperatorAddress v = a) then AmountOf (r v) d else 0) l.
Definition paid (r : Validator -> C) (l : list Validator) d : Dec := lsum (fun v => AmountOf (r v) d) l.

(** The effect of paying [r] to the validators of [l]. *)
Record pays (r : Validator -> C) (l : list Validator) s s' : Prop := {
  pays_only : same_but_comm s s';
  pays_comm a d : comm s' a d = comm s a d + paid_to r l a d;
  pays_total d : total s' d = total s d + paid r l d;
  pays_keys a : is_Some (commissions s' !! a) <-> is_Some (commissions s !! a) \/ a ∈ OperatorAddress <$> l;
}.

Lemma pays_nil r s : pays r [] s s.
Proof.
  split; [apply same_but_comm_refl|..]; intros; unfold paid_to, paid; simpl; try lia.
  split; [by left|]. intros [?|Ha]; [done|]. by apply elem_of_nil in Ha.
Qed.

Lemma pays_cons r v l s s' :
  pays r l (SetValidatorAccumulatedCommission (OperatorAddress v)
    (CoinsAdd (GetValidatorAccumulatedCommission (OperatorAddress v) s) (r v)) s) s' ->
  pays r (v :: l) s s'.
Proof.
  intros [Ho Hc Ht Hk]. split.
  - eapply same_but_comm_trans; [|exact Ho]. by destruct s.
  - intros a d. rewrite Hc, comm_Set, AmountOf_CoinsAdd. unfold paid_to. rewrite lsum_cons. case_decide as Ha.
    + subst a. fold (comm s (OperatorAddress v) d). lia.
    + lia.
  - intros d. rewrite Ht, total_Set, AmountOf_CoinsAdd. fold (comm s (OperatorAddress v) d).
    unfold paid. rewrite lsum_cons. lia.
  - intros a. rewrite Hk. cbn. rewrite lookup_insert_is_Some', elem_of_cons. intuition.
Qed.

(** The loop does not fail while the rewards fit in what remains. *)
Lemma pay_loop_runs (reward : Validator -> E C) (r : Validator -> C) l : forall rem s,
  (forall v s, v ∈ l -> reward v s = Ret (s, inl (r v))) -> (forall d, paid r l d <= AmountOf rem d) ->
  exists rem' s', runs (pay_loop reward l rem) s rem' s' /\ pays r l s s' /\
    forall d, AmountOf rem' d = AmountOf rem d - paid r l d.
Proof.
  induction l as [|v l IH]; intros rem s Hr Hle.
  - exists rem, s. split; [done|]. split; [apply pays_nil|]. intros d. unfold paid. simpl. lia.
  - unfold paid in *.
    assert (forall d, 0 <= lsum (fun v => AmountOf (r v) d) l) as Hnn
      by (intros d; apply lsum_nonneg; intros; apply AmountOf_nonneg).
    assert (forall d, AmountOf (r v) d + lsum (fun v => AmountOf (r v) d) l <= AmountOf rem d) as Hle' by exact Hle.
    clear Hle.
    destruct (CoinsSub_Some rem (r v)) as [rem1 Hs]; [intros d; specialize (Hle' d); specialize (Hnn d); lia|].
    edestruct (IH rem1) as (rem' & s' & Hrun & Hp & Hrem).
    + intros w s1 Hw. apply Hr. by constructor.
    + intros d. rewrite (AmountOf_sub _ _ _ _ Hs). specialize (Hle' d). lia.
    + exists rem', s'. split; [|split; [by apply pays_cons|]].
      * cbn [pay_loop]. eapply runs_step; [apply Hr; constructor|]. eapply runs_step; [reflexivity|].
        rewrite Hs. eapply runs_step; [reflexivity|]. exact Hrun.
      * intros d. rewrite Hrem, (AmountOf_sub _ _ _ _ Hs), lsum_cons. lia.
Qed.

(** When it returns, what remains is what was not paid. *)
Lemma pay_loop_pays (reward : Validator -> E C) (r : Validator -> C) l : forall rem s rem' s',
  (forall v s c s', v ∈ l -> runs (reward v) s c s' -> c = r v /\ s' = s) ->
  runs (pay_loop reward l rem) s rem' s' ->
  pays r l s s' /\ forall d, AmountOf rem' d = AmountOf rem d - paid r l d.
Proof.
  induction l as [|v l IH]; intros rem s rem' s' Hr Hrun; cbn [pay_loop] in Hrun.
  - run_inv Hrun. split; [apply pays_nil|]. intros d. unfold paid. simpl. lia.
  - apply runs_bind in Hrun as (c & s1 & Hc & Hrun). apply Hr in Hc as [-> ->]; [|constructor].
    unfold AllocateTokensToValidator in Hrun. run_inv Hrun.
    match goal with Hs : CoinsSub rem _ = Some _ |- _ => rename Hs into Hsub end.
    apply IH in Hrun as [Hp Hrem]; [|intros ? ? ? ? ?; apply Hr; by constructor].
    split; [by apply pays_cons|]. intros d. rewrite Hrem, (AmountOf_sub _ _ _ _ Hsub). unfold paid. rewrite lsum_cons. lia.
Qed.

(** ** The two allocations *)

Definition voters (sk : SK) (votes : list VoteInfo) : list Validator :=
  omap (fun vote => ValidatorByConsAddr sk (vote_Address vote) ≫= unjailed) votes.
Definition candidates (sk : SK) : list Validator := omap unjailed (IterateValidators sk).
Definition total_shares (sk : SK) : Dec := lsum DelegatorShares (candidates sk).

(** The part of [rewards] each of [n] voters gets, and the part of a validator by its shares. *)
Definition equal_part (rewards : C) (n : nat) (v : Validator) : C := MulDecTruncate rewards (dec_one / Z.of_nat n).
Definition share_part (rewards : C) (votes : Dec) (v : Validator) : C :=
  from_option (MulDecTruncate rewards) coins_empty (QuoTruncate (DelegatorShares v) votes).

Lemma dec_one_pos : 0 < dec_one.
Proof. done. Qed.

Lemma QuoTruncate_one (n : nat) : n ≠ 0%nat -> QuoTruncate (NewDec 1) (NewDec (Z.of_nat n)) = Some (dec_one / Z.of_nat n).
Proof.
  intros Hn. rewrite QuoTruncate_pos; unfold NewDec, OneDec; [|lia..].
  change (10 ^ 18) with dec_one. f_equal. rewrite Z.mul_1_l.
  apply Z.div_mul_cancel_r; pose proof dec_one_pos; lia.
Qed.

Lemma foldl_shares l (acc : Z) : foldl (fun total val => total + DelegatorShares val) acc l = acc + lsum DelegatorShares l.
Proof.
  revert acc; induction l as [|v l IH]; intros acc; cbn [foldl]; [rewrite lsum_nil; lia|]. rewrite IH, lsum_cons. lia.
Qed.

Lemma allocateByEqual_pays sk rewards votes s rem s' :
  runs (allocateByEqual sk rewards votes) s rem s' ->
  let l := voters sk votes in
  pays (equal_part rewards (length l)) l s s' /\
  forall d, AmountOf rem d = AmountOf rewards d - paid (equal_part rewards (length l)) l d.
Proof.
  intros Hr l. unfold allocateByEqual in Hr. change (omap _ votes) with l in Hr.
  destruct (decide (length l = 0%nat)) as [Hn|Hn].
  - rewrite Hn in Hr. change (NewDec (Z.of_nat 0)) with 0 in Hr. rewrite QuoTruncate_zero in Hr.
    apply runs_bind in Hr as (? & ? & Hr & _). by apply runs_panic in Hr.
  - rewrite QuoTruncate_one in Hr by done. apply runs_bind in Hr as (f & s1 & Hf & Hr).
    apply runs_or_panic in Hf as [[= <-] ->].
    apply (pay_loop_pays _ (equal_part rewards (length l))) in Hr; [done|].
    intros v s0 c s2 _ Hc. by apply runs_ret in Hc.
Qed.

Lemma allocateByShares_pays sk rewards s rem s' :
  runs (allocateByShares sk rewards) s rem s' ->
  let r := share_part rewards (total_shares sk) in
  pays r (candidates sk) s s' /\ forall d, AmountOf rem d = AmountOf rewards d - paid r (candidates sk) d.
Proof.
  intros Hr r. unfold allocateByShares in Hr. rewrite foldl_shares in Hr.
  apply (pay_loop_pays _ r) in Hr; [done|].
  intros v s0 c s2 _ Hc. run_inv Hc. unfold r, share_part, total_shares, candidates.
  match goal with Hq : QuoTruncate _ _ = Some _ |- _ => rewrite Z.add_0_l in Hq; rewrite Hq end. done.
Qed.

(** What the two loops pay fits in what they may spend. *)
Lemma equal_part_fits rewards (l : list Validator) d : l ≠ [] -> paid (equal_part rewards (length l)) l d <= AmountOf rewards d.
Proof.
  intros Hl. unfold paid, equal_part. rewrite lsum_const.
  assert (0 < Z.of_nat (length l)) as Hn by (destruct l; [done|]; simpl; lia).
  pose proof (AmountOf_nonneg rewards d) as Hnn. pose proof dec_one_pos as H10.
  rewrite AmountOf_MulDecTruncate by (apply Z.div_pos; lia).
  set (n := Z.of_nat (length l)) in *. set (x := AmountOf rewards d) in *.
  pose proof (Z.mul_div_le dec_one n Hn) as Hf.
  pose proof (Z.mul_div_le (x * (dec_one / n)) dec_one H10) as Hg. nia.
Qed.

Lemma share_part_amount rewards sk v d : 0 <= DelegatorShares v -> 0 < total_shares sk ->
  AmountOf (share_part rewards (total_shares sk) v) d
  = AmountOf rewards d * (DelegatorShares v * dec_one / total_shares sk) / dec_one.
Proof.
  intros Hv Ht. unfold share_part. rewrite QuoTruncate_pos by done. simpl.
  apply AmountOf_MulDecTruncate. apply Z.div_pos; [|done]. pose proof dec_one_pos. nia.
Qed.

Lemma share_part_fits rewards sk d : (forall v, v ∈ candidates sk -> 0 <= DelegatorShares v) -> 0 < total_shares sk ->
  paid (share_part rewards (total_shares sk)) (candidates sk) d <= AmountOf rewards d.
Proof.
  intros Hv Ht. unfold paid. pose proof dec_one_pos as H10. pose proof (AmountOf_nonneg rewards d) as Hnn.
  rewrite (lsum_ext _ (fun v => AmountOf rewards d * (DelegatorShares v * dec_one / total_shares sk) / dec_one))
    by (intros v Hin; apply share_part_amount; [by apply Hv|done]).
  etransitivity; [apply (lsum_floor _ dec_one); done|]. rewrite lsum_mul.
  apply Z.div_le_upper_bound; [done|].
  assert (lsum (fun v => DelegatorShares v * dec_one / total_shares sk) (candidates sk) <= dec_one) as Hs; [|nia].
  etransitivity; [apply (lsum_floor _ (total_shares sk)); done|].
  rewrite (lsum_ext _ (fun v => dec_one * DelegatorShares v)) by (intros; lia). rewrite lsum_mul.
  fold (total_shares sk). rewrite Z.div_mul by lia. done.
Qed.

End Alloc.
End DistrAlloc.
