(* ===== verification/DistrBooks.v ===== *)
(** The books of the distribution module.

    The coins of its account are the community pool plus what validators
    may withdraw: [ok] is the invariant that says so, and every message,
    proposal, hook and begin of a block keeps it.  [ok_but x] is the same
    with [x] in transit, as inside [AllocateTokens]. *)
From S2P Require Import Prelude.
From S2P Require Import Interfaces.
From S2P Require Import Sums.
From S2P Require Import Coins.
From S2P Require Import StakingTypes.
From S2P Require Import Effects.
From S2P Require Import Distribution.
From S2P Require Import DistrAlloc.
Import Distribution DistrAlloc.
Local Open Scope Z_scope.

Module DistrBooks.
Section Books.
Context {W C SK : Type} `{SdkCoinsLaws C, !DecCoins C, !DecCoinsLaws C, !DecQuo, !DecQuoLaws,
  !DistrSupply W C, !DistrSupplyLaws W C, !StakingReader SK}.
Context (feeCollectorName : string) (blacklistedAddrs : Address -> bool).
Abbreviation distr := (Distr W C).
Abbreviation E := (eff (Distr W C) distr_error).
Abbreviation addr := (distr_addr (W := W) (C := C)).
Abbreviation collector := (GetModuleAddress (W := W) (C := C) feeCollectorName).
Implicit Types (s : distr) (c : C) (d : Denom) (a : Address).

(** ** The invariant *)

(** What the staking module promises about its validators. *)
Record reader_ok (sk : SK) : Prop := {
  reader_operator a v : Validator_of sk a = Some v -> OperatorAddress v = a /\ a ≠ addr;
  reader_cons a v : ValidatorByConsAddr sk a = Some v -> Validator_of sk (OperatorAddress v) = Some v;
  reader_iter v : v ∈ IterateValidators sk -> Validator_of sk (OperatorAddress v) = Some v;
}.

Record ok_but (sk : SK) s (x : Denom -> Z) : Prop := {
  ok_pool : is_Some (feePool s);
  ok_books d : held s addr d = pool s d + total s d + x d;
  ok_withdraw a b : withdrawAddrs s !! a = Some b -> b ≠ addr;
  ok_community : exists a, community s = Some a /\ a ≠ addr;
  ok_vals a : is_Some (commissions s !! a) -> is_Some (Validator_of sk a);
  ok_normal a c : commissions s !! a = Some c -> IsZero c = true -> c = coins_empty;
  ok_tax : 0 <= CommunityTax (distr_params s) <= dec_one;
}.
Definition ok (sk : SK) s : Prop := ok_but sk s (fun _ => 0).

Lemma ok_but_ext sk s x y : ok_but sk s x -> (forall d, x d = y d) -> ok_but sk s y.
Proof. intros [] Hxy. split; try done. intros d. by rewrite <- Hxy. Qed.

Lemma ok_withdraw_addr sk s x a : reader_ok sk -> ok_but sk s x -> is_Some (commissions s !! a) ->
  GetDelegatorWithdrawAddr a s ≠ addr.
Proof.
  intros Hsk Hok Ha. unfold GetDelegatorWithdrawAddr. destruct (withdrawAddrs s !! a) as [b|] eqn:Hb; simpl.
  - by apply (ok_withdraw _ _ _ Hok a).
  - destruct (ok_vals _ _ _ Hok a Ha) as [v Hv]. by apply (reader_operator _ Hsk a v).
Qed.

Lemma comm_pos_key s a d : comm s a d ≠ 0 -> is_Some (commissions s !! a).
Proof. rewrite comm_entry. destruct (commissions s !! a); [by eexists|done]. Qed.
Lemma nonzero_key s a : IsZero (GetValidatorAccumulatedCommission a s) = false -> is_Some (commissions s !! a).
Proof.
  unfold GetValidatorAccumulatedCommission. destruct (commissions s !! a); [by eexists|]. simpl.
  intros Hz. assert (IsZero coins_empty = true) as Hz'; [|congruence]. apply IsZero_spec. apply AmountOf_empty.
Qed.

(** ** Changes of one table *)

Lemma pool_Set s c d : pool (SetFeePool c s) d = AmountOf c d.
Proof. done. Qed.

Lemma ok_SetFeePool sk s x p c : ok_but sk s x -> feePool s = Some p ->
  ok_but sk (SetFeePool (CoinsAdd p c) s) (fun d => x d - AmountOf c d).
Proof.
  intros [] Hp. split; try done. intros d. change (held s addr d = AmountOf (CoinsAdd p c) d + total s d + (x d - AmountOf c d)).
  rewrite AmountOf_CoinsAdd, ok_books0. unfold pool. rewrite Hp. simpl. lia.
Qed.

Lemma ok_pays sk s s' x r l : pays r l s s' -> ok_but sk s x ->
  (forall v, v ∈ l -> is_Some (Validator_of sk (OperatorAddress v))) ->
  (forall a c, commissions s' !! a = Some c -> IsZero c = true -> c = coins_empty) ->
  ok_but sk s' (fun d => x d - paid r l d).
Proof.
  intros [Ho _ Ht Hk] [] Hl Hn. unfold same_but_comm in Ho. split.
  - by rewrite Ho.
  - intros d. assert (held s' addr d = held s addr d) as -> by (by rewrite Ho).
    assert (pool s' d = pool s d) as -> by (by rewrite Ho). rewrite Ht, ok_books0. lia.
  - by rewrite Ho.
  - by rewrite Ho.
  - intros a [Ha|Ha]%Hk; [by apply ok_vals0|]. apply list_elem_of_fmap in Ha as (v & -> & Hv). by apply Hl.
  - done.
  - by rewrite Ho.
Qed.

Definition normal s : Prop := forall a c, commissions s !! a = Some c -> IsZero c = true -> c = coins_empty.
Lemma normal_Set s a c : normal s -> normal (SetValidatorAccumulatedCommission a c s).
Proof.
  intros Hn b c'. cbn. rewrite lookup_insert. case_decide; [|apply Hn]. intros [= <-] Hz.
  destruct (IsZero c) eqn:E; [done|congruence].
Qed.
Lemma normal_pay_loop (reward : Validator -> E C) l : forall rem s rem' s',
  (forall v s c s', runs (reward v) s c s' -> s' = s) -> runs (pay_loop reward l rem) s rem' s' -> normal s -> normal s'.
Proof.
  induction l as [|v l IH]; intros rem s rem' s' Hr Hrun Hn; cbn [pay_loop] in Hrun; [by run_inv Hrun|].
  apply runs_bind in Hrun as (c & s1 & Hc & Hrun). apply Hr in Hc as ->.
  unfold AllocateTokensToValidator in Hrun. run_inv Hrun. eapply IH; [exact Hr|exact Hrun|]. by apply normal_Set.
Qed.

(** ** Transfers *)

Lemma send_to_account_runs s m a c u s' : runs (send_to_account m a c) s u s' ->
  exists w, s' = s <| dworld := w |> /\ moved (dworld s) w (GetModuleAddress (W := W) (C := C) m) a c.
Proof.
  unfold runs, send_to_account. destruct (SendModuleToAccount (dworld s) m a c) as [w|] eqn:E; [|done].
  intros [= <- _]. exists w. split; [done|]. by apply SendModuleToAccount_ok.
Qed.
Lemma send_to_module_runs s m q c u s' : runs (send_to_module m q c) s u s' ->
  exists w, s' = s <| dworld := w |> /\ moved (dworld s) w (GetModuleAddress (W := W) (C := C) m) (GetModuleAddress (W := W) (C := C) q) c.
Proof.
  unfold runs, send_to_module. destruct (SendModuleToModule (dworld s) m q c) as [w|] eqn:E; [|done].
  intros [= <- _]. exists w. split; [done|]. by apply SendModuleToModule_ok.
Qed.
Lemma must_runs (m : E unit) s u s' : runs (must m) s u s' -> runs m s u s'.
Proof. intros [Hr|(e & s1 & _ & Hr)]%runs_catch_inv; [done|]. by apply runs_panic in Hr. Qed.

(** A payment out of the module's account leaves [c] fewer coins in it. *)
Lemma ok_pay_out sk s x w a c : ok_but sk s x -> moved (dworld s) w addr a c -> a ≠ addr ->
  ok_but sk (s <| dworld := w |>) (fun d => x d - AmountOf c d).
Proof.
  intros [] Hm Ha. split; try done. intros d.
  change (coins_at w addr d = pool s d + total s d + (x d - AmountOf c d)).
  rewrite (Hm addr d), decide_False, decide_True by congruence. specialize (ok_books0 d). unfold held in ok_books0. lia.
Qed.

Lemma ok_receive sk s x w from c : ok_but sk s x -> moved (dworld s) w from addr c -> from ≠ addr ->
  ok_but sk (s <| dworld := w |>) (fun d => x d + AmountOf c d).
Proof.
  intros [] Hm Ha. split; try done. intros d.
  change (coins_at w addr d = pool s d + total s d + (x d + AmountOf c d)).
  rewrite (Hm addr d), decide_True, decide_False by congruence. specialize (ok_books0 d). unfold held in ok_books0. lia.
Qed.

(** ** Paying from the community pool *)

Lemma ok_distributeFromFeePool sk s x c a s' : runs (distributeFromFeePool c a) s tt s' -> a ≠ addr -> ok_but sk s x ->
  ok_but sk s' x.
Proof.
  intros Hr Ha Hok. unfold distributeFromFeePool, GetFeePool in Hr. run_inv Hr.
  match goal with Hp : feePool _ = Some ?p |- _ => rename Hp into Hpool; rename p into pl end.
  destruct (CoinsSub pl c) as [np|] eqn:Hs; run_inv Hr.
  match goal with Hp : runs (send_to_account _ _ _) _ _ _ |- _ => apply send_to_account_runs in Hp as (w & -> & Hm) end.
  pose proof (ok_pay_out sk s x w a c Hok Hm Ha) as [].
  split; try done. intros d. change (coins_at w addr d = AmountOf np d + total s d + x d).
  specialize (ok_books0 d). unfold held, pool in ok_books0. cbn in ok_books0. rewrite Hpool in ok_books0. simpl in ok_books0.
  rewrite (AmountOf_CoinsSub _ _ _ _ Hs). unfold total in *. cbn in *. lia.
Qed.

(** A refused payment changes nothing. *)
Lemma distributeFromFeePool_fails s c a e s' : fails (distributeFromFeePool c a) s e s' -> s' = s.
Proof.
  unfold fails, distributeFromFeePool, GetFeePool, mbind, eff_bind, gets. destruct (feePool s) as [pl|]; [|done].
  cbn. destruct (CoinsSub pl c) as [np|]; [|by intros [= <- _]]. unfold send_to_account.
  destruct (SendModuleToAccount (dworld s) ModuleName a c); [done|]. by intros [= <- _].
Qed.

(** ** Withdrawing *)

Lemma ok_SetCommission sk s x a c : ok_but sk s x -> is_Some (commissions s !! a) ->
  ok_but sk (SetValidatorAccumulatedCommission a c s) (fun d => x d + comm s a d - AmountOf c d).
Proof.
  intros Hok Ha. pose proof (normal_Set s a c (ok_normal _ _ _ Hok)) as Hn. destruct Hok. split; try done.
  - intros d. change (held s addr d = pool s d + total (SetValidatorAccumulatedCommission a c s) d + (x d + comm s a d - AmountOf c d)).
    rewrite total_Set, ok_books0. lia.
  - intros b. cbn. rewrite lookup_insert_is_Some'. intros [<-|Hb]; by apply ok_vals0.
Qed.

Lemma truncate_sum c d : AmountOf (TruncateDecimal c).1 d + AmountOf (TruncateDecimal c).2 d = AmountOf c d.
Proof.
  destruct (AmountOf_TruncateDecimal c d) as [-> ->].
  pose proof (Z.div_mod (AmountOf c d) dec_one ltac:(done)). lia.
Qed.

Lemma ok_Withdraw sk s a c s' : reader_ok sk -> runs (WithdrawValidatorCommission a) s c s' -> ok sk s -> ok sk s'.
Proof.
  intros Hsk Hr Hok. unfold WithdrawValidatorCommission in Hr. run_inv Hr.
  destruct (IsZero (GetValidatorAccumulatedCommission a s)) eqn:Hz; run_inv Hr.
  pose proof (nonzero_key s a Hz) as Ha.
  pose proof (ok_SetCommission sk s _ a (TruncateDecimal (GetValidatorAccumulatedCommission a s)).2 Hok Ha) as Hok1.
  assert (forall d, comm s a d = AmountOf (GetValidatorAccumulatedCommission a s) d) as Hcomm by done.
  pose proof (truncate_sum (GetValidatorAccumulatedCommission a s)) as Hsum.
  destruct (TruncateDecimal (GetValidatorAccumulatedCommission a s)) as [whole rest]. run_inv Hr. cbn [fst snd] in *.
  match goal with Hw : (if negb (IsZero whole) then _ else _) |- _ => rename Hw into Hpay end.
  destruct (IsZero whole) eqn:Hzw; cbn [negb] in Hpay.
  - subst. eapply ok_but_ext; [exact Hok1|]. intros d. cbn beta. rewrite Hcomm, <- Hsum, (IsZero_amount whole) by done. lia.
  - run_inv Hpay. apply runs_catch_inv in Hpay as [Hpay|(e & s1 & _ & Hpay)]; [|by apply runs_throw in Hpay].
    apply send_to_account_runs in Hpay as (w & -> & Hm).
    eapply ok_but_ext; [eapply ok_pay_out; [exact Hok1|exact Hm|]|].
    + apply (ok_withdraw_addr sk _ _ a Hsk Hok1). cbn. rewrite lookup_insert_eq. by eexists.
    + intros d. cbn beta. rewrite Hcomm, <- Hsum. lia.
Qed.

(** ** Hooks *)

(** The staking module announces a validator it did not have before. *)
Lemma ok_created sk sk' a s s' : reader_ok sk' -> runs (AfterValidatorCreated sk' a) s tt s' ->
  Validator_of sk a = None -> (forall b, b ≠ a -> is_Some (Validator_of sk b) -> is_Some (Validator_of sk' b)) ->
  ok sk s -> ok sk' s'.
Proof.
  intros Hsk Hr Hnew Hold Hok. unfold AfterValidatorCreated in Hr. destruct (Validator_of sk' a) as [v|] eqn:Hv; run_inv Hr.
  destruct (reader_operator _ Hsk a v Hv) as [Ha _]. unfold initializeValidator in Hr. run_inv Hr.
  assert (commissions s !! a = None) as Hnone.
  { destruct (commissions s !! a) eqn:E; [|done]. destruct (ok_vals _ _ _ Hok a) as [v' Hv']; [by eexists|]. congruence. }
  pose proof (normal_Set s (OperatorAddress v) coins_empty (ok_normal _ _ _ Hok)) as Hn.
  destruct Hok. split; try done.
  - intros d. change (held s addr d = pool s d + total (SetValidatorAccumulatedCommission (OperatorAddress v) coins_empty s) d + 0).
    rewrite total_Set, AmountOf_empty, comm_entry, Ha, Hnone, ok_books0. simpl. lia.
  - intros b. cbn. rewrite lookup_insert_is_Some. intros [Hb|[Hb Hs]].
    + rewrite <- Hb, Ha, Hv. by eexists.
    + apply Hold; [congruence|]. by apply ok_vals0.
Qed.

Lemma ok_delete sk sk' s x a : ok_but sk s x -> (forall b, b ≠ a -> is_Some (Validator_of sk b) -> is_Some (Validator_of sk' b)) ->
  ok_but sk' (deleteValidatorAccumulatedCommission a s) (fun d => x d + comm s a d).
Proof.
  intros [] Hold. split; try done.
  - intros d. change (held s addr d = pool s d + total (deleteValidatorAccumulatedCommission a s) d + (x d + comm s a d)).
    rewrite total_delete, ok_books0. lia.
  - intros b. cbn. intros [c (Hne & Hb)%lookup_delete_Some]. apply Hold; [done|]. apply ok_vals0. by eexists.
  - intros b c. cbn. intros (Hne & Hb)%lookup_delete_Some. by apply (ok_normal0 b).
Qed.

(** What is left of the commission of a removed validator goes to the community. *)
Lemma ok_removed sk sk' a s s' : reader_ok sk -> runs (AfterValidatorRemoved a) s tt s' ->
  (forall b, b ≠ a -> is_Some (Validator_of sk b) -> is_Some (Validator_of sk' b)) -> ok sk s -> ok sk' s'.
Proof.
  intros Hsk Hr Hold Hok. unfold AfterValidatorRemoved in Hr. apply runs_bind in Hr as (c & s0 & Hc & Hr).
  apply runs_gets in Hc as [-> ->]. apply runs_bind in Hr as ([] & s1 & Hp & Hr). run_inv Hr.
  assert (forall d, comm s a d = AmountOf (GetValidatorAccumulatedCommission a s) d) as Hcomm by done.
  assert (ok_but sk s1 (fun d => - comm s a d) /\ commissions s1 = commissions s) as [Hok1 Hsame].
  2:{ eapply ok_but_ext; [by eapply ok_delete|]. intros d. cbn beta. rewrite !comm_entry, Hsame. lia. }
  destruct (IsZero (GetValidatorAccumulatedCommission a s)) eqn:Hz; cbn [negb when] in Hp.
  { run_inv Hp. split; [|done]. eapply ok_but_ext; [exact Hok|]. intros d. by rewrite Hcomm, IsZero_amount. }
  pose proof (truncate_sum (GetValidatorAccumulatedCommission a s)) as Hsum.
  destruct (TruncateDecimal (GetValidatorAccumulatedCommission a s)) as [whole rest]. cbn [fst snd] in Hsum.
  apply runs_bind in Hp as ([] & s2 & Hrest & Hwhole).
  assert (ok_but sk s2 (fun d => - AmountOf rest d) /\ commissions s2 = commissions s /\ withdrawAddrs s2 = withdrawAddrs s) as (Hok2 & Hs2 & Hw2).
  { destruct (IsZero rest) eqn:Hzr; cbn [negb when] in Hrest; unfold GetFeePool in Hrest; run_inv Hrest.
    - split; [|done]. eapply ok_but_ext; [exact Hok|]. intros d. by rewrite IsZero_amount.
    - split; [|done]. eapply ok_but_ext; [by eapply ok_SetFeePool|]. intros d. cbn beta. lia. }
  destruct (IsZero whole) eqn:Hzw; cbn [negb when] in Hwhole; run_inv Hwhole.
  { split; [|done]. eapply ok_but_ext; [exact Hok2|]. intros d. rewrite Hcomm, <- Hsum, (IsZero_amount whole) by done. lia. }
  apply must_runs, send_to_account_runs in Hwhole as (w & -> & Hm). split; [|done].
  eapply ok_but_ext; [eapply ok_pay_out; [exact Hok2|exact Hm|]|].
  - apply (ok_withdraw_addr sk _ _ a Hsk Hok2). rewrite Hs2. by apply nonzero_key.
  - intros d. cbn beta. rewrite Hcomm, <- Hsum. lia.
Qed.

(** ** Allocation *)

Lemma voters_known sk votes v : reader_ok sk -> v ∈ voters sk votes -> is_Some (Validator_of sk (OperatorAddress v)).
Proof.
  intros Hsk (vote & _ & Hv)%list_elem_of_omap. apply bind_Some in Hv as (v' & Hv' & Hj).
  unfold unjailed in Hj. destruct (Jailed v'); simplify_eq. rewrite (reader_cons _ Hsk _ _ Hv'). by eexists.
Qed.
Lemma candidates_known sk v : reader_ok sk -> v ∈ candidates sk -> is_Some (Validator_of sk (OperatorAddress v)).
Proof.
  intros Hsk (v' & Hv' & Hj)%list_elem_of_omap. unfold unjailed in Hj. destruct (Jailed v'); simplify_eq.
  rewrite (reader_iter _ Hsk _ Hv'). by eexists.
Qed.

Lemma ok_allocateByEqual sk s x rewards votes rem s' : reader_ok sk -> runs (allocateByEqual sk rewards votes) s rem s' ->
  ok_but sk s x -> ok_but sk s' (fun d => x d - (AmountOf rewards d - AmountOf rem d)).
Proof.
  intros Hsk Hr Hok. pose proof (allocateByEqual_pays _ _ _ _ _ _ Hr) as [Hp Hrem].
  eapply ok_but_ext; [eapply ok_pays; [exact Hp|exact Hok|..]|].
  - intros v. by apply voters_known.
  - unfold allocateByEqual in Hr. apply runs_bind in Hr as (f & s1 & Hf & Hr). apply runs_or_panic in Hf as [_ ->].
    apply normal_pay_loop in Hr; [exact Hr| |exact (ok_normal _ _ _ Hok)]. intros v s0 c s1 Hc. by apply runs_ret in Hc as [_ ->].
  - intros d. cbn beta. rewrite Hrem. lia.
Qed.

Lemma ok_allocateByShares sk s x rewards rem s' : reader_ok sk -> runs (allocateByShares sk rewards) s rem s' ->
  ok_but sk s x -> ok_but sk s' (fun d => x d - (AmountOf rewards d - AmountOf rem d)).
Proof.
  intros Hsk Hr Hok. pose proof (allocateByShares_pays _ _ _ _ _ Hr) as [Hp Hrem].
  eapply ok_but_ext; [eapply ok_pays; [exact Hp|exact Hok|..]|].
  - intros v. by apply candidates_known.
  - unfold allocateByShares in Hr. apply normal_pay_loop in Hr; [exact Hr| |exact (ok_normal _ _ _ Hok)].
    intros v s0 c s1 Hc. by run_inv Hc.
  - intros d. cbn beta. rewrite Hrem. lia.
Qed.

(** The collector of fees is another account. *)
Context (collector_other : collector ≠ addr).

Lemma ok_AllocateTokens sk power pp votes s s' : reader_ok sk ->
  runs (AllocateTokens feeCollectorName sk power pp votes) s tt s' -> ok sk s -> ok sk s'.
Proof.
  intros Hsk Hr Hok. unfold AllocateTokens in Hr. apply runs_bind in Hr as (fees & s0 & Hf & Hr).
  apply runs_gets in Hf as [-> ->]. set (fees := GetCoins (dworld s) collector) in *.
  destruct (CoinsEmpty fees); [by run_inv Hr|]. apply runs_bind in Hr as ([] & s1 & Hm & Hr).
  apply must_runs, send_to_module_runs in Hm as (w & -> & Hm).
  pose proof (ok_receive sk s _ w _ fees Hok Hm collector_other) as Hok1.
  apply runs_bind in Hr as (pl & s1 & Hp & Hr). unfold GetFeePool in Hp. run_inv Hp.
  destruct (power =? 0).
  { run_inv Hr. eapply ok_but_ext; [by eapply ok_SetFeePool|]. intros d. cbn beta. lia. }
  apply runs_bind in Hr as (tax & s1 & Htax & Hr). apply runs_gets in Htax as [_ ->]. cbv zeta in Hr.
  set (toVals := MulDecTruncate fees _) in Hr. set (byEqual := MulDecTruncate toVals valPortion) in Hr.
  set (byVote := MulDecTruncate toVals votePortion) in Hr.
  apply runs_bind in Hr as (toComm & s1 & Hc & Hr). apply runs_or_panic in Hc as [Hc ->].
  apply runs_bind in Hr as (remE & s2 & He & Hr). pose proof (ok_allocateByEqual _ _ _ _ _ _ _ Hsk He Hok1) as Hok2.
  apply runs_bind in Hr as (remS & s3 & Hs & Hr). pose proof (ok_allocateByShares _ _ _ _ _ _ Hsk Hs Hok2) as Hok3.
  set (toComm' := CoinsAdd toComm (CoinsAdd remE remS)) in Hr.
  assert (forall d, AmountOf toComm' d = AmountOf fees d - (AmountOf byEqual d - AmountOf remE d) - (AmountOf byVote d - AmountOf remS d)) as Hto.
  { intros d. unfold toComm'. rewrite !AmountOf_CoinsAdd, (AmountOf_CoinsSub _ _ _ _ Hc), AmountOf_CoinsAdd. lia. }
  assert (feePool s3 = Some pl) as Hpl.
  { pose proof (pays_only _ _ _ _ (proj1 (allocateByEqual_pays _ _ _ _ _ _ He))) as HE.
    pose proof (pays_only _ _ _ _ (proj1 (allocateByShares_pays _ _ _ _ _ Hs))) as HS.
    unfold same_but_comm in HE, HS. rewrite HS, HE. done. }
  clearbody toVals byEqual byVote toComm'. clear He Hs Hc Hok1 Hok2.
  apply runs_bind in Hr as (pl' & s4 & Hset & Hr).
  assert (ok sk s4) as Hok4.
  { destruct (IsZero toComm') eqn:Hz; cbn [negb] in Hset; run_inv Hset.
    - eapply ok_but_ext; [exact Hok3|]. intros d. specialize (Hto d). rewrite (IsZero_amount _ _ Hz) in Hto. cbn beta. lia.
    - eapply ok_but_ext; [by eapply ok_SetFeePool|]. intros d. specialize (Hto d). cbn beta. lia. }
  clear Hok3 Hset Hto. apply runs_bind in Hr as (ca & s5 & Hca & Hr). unfold GetCommunityAddress in Hca. run_inv Hca.
  match goal with Hq : community _ = Some _ |- _ => rename Hq into Hca end.
  destruct (ok_community _ _ _ Hok4) as (a & Ha & Hne). rewrite Ha in Hca. simplify_eq.
  apply runs_catch_inv in Hr as [Hr|(e & s5 & Hfail & Hr)].
  - by eapply ok_distributeFromFeePool.
  - apply distributeFromFeePool_fails in Hfail as ->. by run_inv Hr.
Qed.

Lemma ok_BeginBlocker sk start height votes proposer s s' : reader_ok sk ->
  runs (BeginBlocker feeCollectorName sk start height votes proposer) s tt s' -> ok sk s -> ok sk s'.
Proof.
  intros Hsk Hr Hok. unfold BeginBlocker in Hr. cbv zeta in Hr. apply runs_bind in Hr as ([] & s1 & Ha & Hr).
  run_inv Hr. assert (ok sk s1) as []; [|by split].
  destruct (start + 1 <? height); cbn [when] in Ha; [|by run_inv Ha].
  apply runs_bind in Ha as (pp & s2 & Hp & Ha). unfold GetPreviousProposerConsAddr in Hp. run_inv Hp.
  by eapply ok_AllocateTokens.
Qed.

(** ** Messages and proposals

    The application blacklists the module accounts. *)
Context (addr_blacklisted : blacklistedAddrs addr = true).

Lemma ok_SetWithdrawAddr sk s a b s' : runs (SetWithdrawAddr blacklistedAddrs a b) s tt s' -> ok sk s -> ok sk s'.
Proof.
  intros Hr []. unfold SetWithdrawAddr in Hr. destruct (blacklistedAddrs b) eqn:Hb; run_inv Hr.
  destruct (negb (GetWithdrawAddrEnabled s)); run_inv Hr. split; try done.
  intros a' b'. cbn. rewrite lookup_insert. case_decide; [|by apply ok_withdraw0]. intros [= <-] ->. congruence.
Qed.

Lemma ok_NewHandler sk s msg s' : reader_ok sk -> runs (NewHandler blacklistedAddrs msg) s tt s' -> ok sk s -> ok sk s'.
Proof.
  intros Hsk Hr Hok. destruct msg as [a b|a]; cbn [NewHandler] in Hr.
  - by apply (ok_SetWithdrawAddr sk s a b).
  - unfold handleMsgWithdrawValidatorCommission in Hr. run_inv Hr. by eapply ok_Withdraw.
Qed.

Lemma ok_spend sk s p s' : runs (HandleCommunityPoolSpendProposal blacklistedAddrs p) s tt s' -> ok sk s -> ok sk s'.
Proof.
  intros Hr Hok. unfold HandleCommunityPoolSpendProposal in Hr. destruct (blacklistedAddrs (Recipient p)) eqn:Hb; run_inv Hr.
  eapply ok_distributeFromFeePool; [exact Hr| |exact Hok]. intros Ha. congruence.
Qed.

End Books.
End DistrBooks.
