(* ===== verification/DistrSpec.v ===== *)
(** What the distribution module promises: who gets which part of the
    fees, withdrawals that always succeed, books that balance in every
    reachable state, and a genesis file that loses nothing. *)
From S2P Require Import Prelude.
From S2P Require Import Interfaces.
From S2P Require Import Sums.
From S2P Require Import Coins.
From S2P Require Import StakingTypes.
From S2P Require Import Effects.
From S2P Require Import Distribution.
From S2P Require Import DistrAlloc.
From S2P Require Import DistrBooks.
Import Distribution DistrAlloc DistrBooks.
Local Open Scope Z_scope.

Module DistrSpec.
Section Spec.
Context {W C SK : Type} `{SdkCoinsLaws C, !DecCoins C, !DecCoinsLaws C, !DecQuo, !DecQuoLaws,
  !DistrSupply W C, !DistrSupplyLaws W C, !StakingReader SK}.
Context (feeCollectorName : string) (blacklistedAddrs : Address -> bool).
Abbreviation distr := (Distr W C).
Abbreviation E := (eff (Distr W C) distr_error).
Abbreviation addr := (distr_addr (W := W) (C := C)).
Abbreviation collector := (GetModuleAddress (W := W) (C := C) feeCollectorName).
Implicit Types (s : distr) (c : C) (d : Denom) (a : Address) (sk : SK).

(** Computations that panic on the way. *)
Lemma panic_after {A B} (m : E A) (k : A -> E B) s (x : A) s1 p : runs m s x s1 -> k x s1 = Panic p -> (m ≫= k) s = Panic p.
Proof. unfold runs, mbind, eff_bind. by intros ->. Qed.
Lemma panic_first {A B} (m : E A) (k : A -> E B) s p : m s = Panic p -> (m ≫= k) s = Panic p.
Proof. unfold mbind, eff_bind. by intros ->. Qed.

(** ** Withdrawals *)

Lemma send_enough s m a c : (forall d, AmountOf c d <= held s (GetModuleAddress (W := W) (C := C) m) d) ->
  exists w, send_to_account m a c s = Ret (s <| dworld := w |>, inl tt) /\
    moved (dworld s) w (GetModuleAddress (W := W) (C := C) m) a c.
Proof.
  intros He. destruct (SendModuleToAccount_enough (dworld s) m a c He) as [w Hw]. exists w.
  unfold send_to_account. rewrite Hw. split; [done|]. by apply SendModuleToAccount_ok.
Qed.

(** A withdrawal pays the whole coins and keeps the decimals. *)
Record withdrawn a (whole : C) s s' : Prop := {
  wd_whole d : AmountOf whole d = comm s a d / dec_one * dec_one;
  wd_rest d : comm s' a d = comm s a d mod dec_one;
  wd_others b d : b ≠ a -> comm s' b d = comm s b d;
  wd_pool d : pool s' d = pool s d;
  wd_paid d : held s' (GetDelegatorWithdrawAddr a s) d = held s (GetDelegatorWithdrawAddr a s) d + AmountOf whole d;
}.

Lemma whole_covered sk s x a d : ok_but sk s x -> 0 <= x d -> comm s a d / dec_one * dec_one <= held s addr d.
Proof.
  intros Hok Hx. rewrite (ok_books _ _ _ Hok).
  pose proof (comm_le_total s a d). pose proof (comm_nonneg s a d).
  pose proof (Z.mul_div_le (comm s a d) dec_one ltac:(done)).
  assert (0 <= pool s d) by (unfold pool; destruct (feePool s); simpl; [apply AmountOf_nonneg|done]). lia.
Qed.

Lemma Withdraw_succeeds sk s a : reader_ok sk -> ok sk s -> IsZero (GetValidatorAccumulatedCommission a s) = false ->
  exists whole s', runs (WithdrawValidatorCommission a) s whole s' /\ withdrawn a whole s s'.
Proof.
  intros Hsk Hok Hz. pose proof (AmountOf_TruncateDecimal (GetValidatorAccumulatedCommission a s)) as Htr.
  pose proof (ok_withdraw_addr sk s _ a Hsk Hok (nonzero_key _ _ Hz)) as Hwa.
  unfold WithdrawValidatorCommission. destruct (TruncateDecimal (GetValidatorAccumulatedCommission a s)) as [whole rest] eqn:Et.
  cbn [fst snd] in Htr. exists whole.
  set (s1 := SetValidatorAccumulatedCommission a rest s).
  assert (forall d, AmountOf whole d = comm s a d / dec_one * dec_one) as Hwhole by (intros d; apply (Htr d)).
  destruct (IsZero whole) eqn:Hzw.
  - exists s1. split.
    + eapply runs_step; [reflexivity|]. rewrite Hz, Et. eapply runs_step; [reflexivity|]. rewrite Hzw. reflexivity.
    + split; [exact Hwhole|..]; [|intros b d Hb|done|].
      * intros d. unfold s1. rewrite comm_Set, decide_True by done. apply (Htr d).
      * unfold s1. rewrite comm_Set, decide_False by done. done.
      * intros d. rewrite (IsZero_amount _ _ Hzw), Z.add_0_r. done.
  - destruct (send_enough s1 ModuleName (GetDelegatorWithdrawAddr a s) whole) as (w & Hw & Hm).
    { intros d. rewrite Hwhole. by apply (whole_covered sk s _ a d Hok). }
    exists (s1 <| dworld := w |>). split.
    + eapply runs_step; [reflexivity|]. rewrite Hz, Et. eapply runs_step; [reflexivity|]. rewrite Hzw. cbn [negb when].
      eapply runs_step; [|reflexivity]. eapply runs_step; [reflexivity|]. apply runs_catch_ok. exact Hw.
    + split; [exact Hwhole|..]; [|intros b d Hb|done|].
      * intros d. change (comm (SetValidatorAccumulatedCommission a rest s) a d = comm s a d mod dec_one).
        rewrite comm_Set, decide_True by done. apply (Htr d).
      * change (comm (SetValidatorAccumulatedCommission a rest s) b d = comm s b d). by rewrite comm_Set, decide_False.
      * intros d. unfold held. cbn. rewrite (Hm _ d), decide_True, decide_False by done. cbn. lia.
Qed.

Lemma can_withdraw_all sk : reader_ok sk -> forall l s count, ok sk s -> can_withdraw_loop l s count = Ret count.
Proof.
  intros Hsk l. induction l as [|v l IH]; intros s count Hok; [done|]. cbn [can_withdraw_loop].
  destruct (IsZero _) eqn:Hz; [by apply IH|].
  destruct (Withdraw_succeeds sk s _ Hsk Hok Hz) as (whole & s' & Hr & _). unfold runs in Hr. rewrite Hr.
  apply IH. by eapply ok_Withdraw.
Qed.

(** ** Genesis *)

Lemma foldl_insert {A} (l : list (Address * A)) : forall m : gmap Address A,
  NoDup l.*1 -> foldl (fun m kv => <[kv.1 := kv.2]> m) m l = list_to_map l ∪ m.
Proof.
  induction l as [|[k v] l IH]; intros m Hnd; cbn in *; [by rewrite (left_id_L ∅ (∪))|].
  apply NoDup_cons in Hnd as [Hk Hnd]. rewrite IH by done. rewrite <- insert_union_l.
  symmetry. apply insert_union_r. by apply not_elem_of_list_to_map_1.
Qed.

Lemma SetDelegatorWithdrawAddrs (l : list (Address * Address)) : forall s,
  foldl (fun s dwi => SetDelegatorWithdrawAddr dwi.1 dwi.2 s) s l
  = s <| withdrawAddrs := foldl (fun m kv => <[kv.1 := kv.2]> m) (withdrawAddrs s) l |>.
Proof. induction l as [|[a b] l IH]; intros s; [by destruct s|]. cbn [foldl]. rewrite IH. done. Qed.

Definition normalized (acc : Address * C) : Address * C := (acc.1, if IsZero acc.2 then coins_empty else acc.2).
Lemma SetCommissions (l : list (Address * C)) : forall s,
  foldl (fun s acc => SetValidatorAccumulatedCommission acc.1 acc.2 s) s l
  = s <| commissions := foldl (fun m kv => <[kv.1 := kv.2]> m) (commissions s) (normalized <$> l) |>.
Proof. induction l as [|[a b] l IH]; intros s; [by destruct s|]. cbn [foldl fmap list_fmap]. rewrite IH. done. Qed.

Lemma normalized_keys (l : list (Address * C)) : (normalized <$> l).*1 = l.*1.
Proof. rewrite <- list_fmap_compose. by apply list_fmap_ext. Qed.

Lemma foldl_CoinsAdd {A} (f : A -> C) l d : forall acc,
  AmountOf (foldl (fun t x => CoinsAdd t (f x)) acc l) d = AmountOf acc d + lsum (fun x => AmountOf (f x) d) l.
Proof.
  induction l as [|x l IH]; intros acc; cbn [foldl]; [rewrite lsum_nil; lia|].
  rewrite IH, AmountOf_CoinsAdd, lsum_cons. lia.
Qed.

Lemma total_list_to_map (l : list (Address * C)) d : NoDup l.*1 ->
  msum (fun _ c => AmountOf c d) (list_to_map (normalized <$> l) : gmap Address C) = lsum (fun acc => AmountOf acc.2 d) l.
Proof.
  induction l as [|[a c] l IH]; intros Hnd; [done|]. cbn in Hnd. apply NoDup_cons in Hnd as [Ha Hnd].
  cbn [fmap list_fmap list_to_map foldr]. rewrite lsum_cons. cbn [normalized fst snd].
  rewrite msum_insert_new.
  - fold (list_to_map (M := gmap Address C) (normalized <$> l)). rewrite IH by done. cbn [snd]. by rewrite AmountOf_normal.
  - apply not_elem_of_list_to_map_1. by rewrite normalized_keys.
Qed.

(** A module whose store is empty. *)
Definition fresh s : Prop := withdrawAddrs s = ∅ /\ commissions s = ∅.
Record genesis_ok (sk : SK) (data : DistrGenesis C) : Prop := {
  gen_params : ValidateGenesis data = None;
  gen_commissions : NoDup (gen_Commissions data).*1;
  gen_known a : a ∈ (gen_Commissions data).*1 -> is_Some (Validator_of sk a);
  gen_withdraw a b : (a, b) ∈ gen_WithdrawInfos data -> b ≠ addr;
  gen_community : gen_CommunityAddress data ≠ addr;
}.

(** The state [InitGenesis] ends in. *)
Definition initialized (data : DistrGenesis C) (w : W) : distr :=
  mkDistr W C (Some (gen_FeePool data)) (Some (gen_PreviousProposer data))
    (foldl (fun m kv => <[kv.1 := kv.2]> m) ∅ (gen_WithdrawInfos data))
    (foldl (fun m kv => <[kv.1 := kv.2]> m) ∅ (normalized <$> gen_Commissions data))
    (Some (gen_CommunityAddress data)) (gen_Params data) w.

Lemma InitGenesis_runs data s : fresh s -> exists w, runs (InitGenesis data) s tt (initialized data w) /\
  forall a d, coins_at w a d =
    if decide (a = addr) then
      if IsZero (GetCoins (dworld s) addr) then AmountOf (gen_FeePool data) d + lsum (fun acc => AmountOf acc.2 d) (gen_Commissions data)
      else held s a d
    else held s a d.
Proof.
  intros [Hw Hc]. unfold InitGenesis.
  set (holdings := CoinsAdd (foldl (fun holdings acc => CoinsAdd holdings acc.2) coins_empty (gen_Commissions data)) (gen_FeePool data)).
  exists (if IsZero (GetCoins (dworld s) addr) then SetModuleCoins (dworld s) ModuleName holdings else dworld s). split.
  - do 4 (eapply runs_step; [reflexivity|]).
    eapply (runs_step _ _ _ tt); [by apply runs_for_each_modify|]. eapply (runs_step _ _ _ tt); [by apply runs_for_each_modify|].
    rewrite SetDelegatorWithdrawAddrs, SetCommissions. cbv zeta. fold holdings.
    eapply runs_step; [reflexivity|]. cbn. rewrite Hw, Hc. fold addr.
    destruct (IsZero (GetCoins (dworld s) addr)); done.
  - intros a d. destruct (IsZero (GetCoins (dworld s) addr)) eqn:Hz; [|by case_decide].
    rewrite SetModuleCoins_ok. fold addr. case_decide; [|done].
    unfold holdings. rewrite AmountOf_CoinsAdd, (foldl_CoinsAdd snd), AmountOf_empty. lia.
Qed.

Lemma foldl_insert_elem {A} (l : list (Address * A)) : forall (m : gmap Address A) a x,
  foldl (fun m kv => <[kv.1 := kv.2]> m) m l !! a = Some x -> (a, x) ∈ l \/ m !! a = Some x.
Proof.
  induction l as [|[k v] l IH]; intros m a x Hl; cbn in Hl; [by right|].
  apply IH in Hl as [Hl|Hl]; [left; by constructor|]. rewrite lookup_insert in Hl. case_decide; [|by right].
  simplify_eq. left. constructor.
Qed.

(** Genesis starts with balanced books if the account was empty. *)
Lemma ok_InitGenesis sk data s s' : genesis_ok sk data -> fresh s -> IsZero (GetCoins (dworld s) addr) = true ->
  runs (InitGenesis data) s tt s' -> ok sk s'.
Proof.
  intros [Hp Hnd Hkn Hwd Hca] Hf Hz Hr. destruct (InitGenesis_runs data s Hf) as (w & Hr' & Hw).
  unfold runs in Hr, Hr'. rewrite Hr in Hr'. simplify_eq. rewrite Hz in Hw. split; cbn.
  - by eexists.
  - intros d. unfold held, pool, total. cbn. rewrite (Hw addr d), decide_True by done.
    rewrite foldl_insert by (by rewrite normalized_keys).
    rewrite (right_id_L ∅ (∪)), total_list_to_map by done. lia.
  - intros a b Hb. apply foldl_insert_elem in Hb as [Hb|Hb]; [by apply (Hwd a)|done].
  - by eexists.
  - intros a [c Hc]. apply foldl_insert_elem in Hc as [Hc|Hc]; [|done]. apply Hkn. rewrite <- normalized_keys.
    apply list_elem_of_fmap. by exists (a, c).
  - intros a c Hc Hzc. apply foldl_insert_elem in Hc as [Hc|Hc]; [|done].
    apply list_elem_of_fmap in Hc as ([a' c'] & Heq & _). unfold normalized in Heq. cbn in Heq. simplify_eq.
    destruct (IsZero c') eqn:E; [done|congruence].
  - unfold ValidateGenesis, Params_ValidateBasic in Hp. destruct ((_ <? 0) || _) eqn:E; [done|].
    apply orb_false_iff in E as [E1%Z.ltb_ge E2%Z.ltb_ge]. done.
Qed.

(** ** The fees of a block, split

    Every division rounds down, in the last decimal. *)
Definition fees s d : Dec := held s collector d.
Definition to_validators s d : Dec := fees s d * (dec_one - GetCommunityTax s) / dec_one.
Definition by_equal s d : Dec := to_validators s d * valPortion / dec_one.
Definition by_vote s d : Dec := to_validators s d * votePortion / dec_one.
Definition voter_share s (n : nat) d : Dec := by_equal s d * (dec_one / Z.of_nat n) / dec_one.
Definition vote_share s (votes : Dec) (v : Validator) d : Dec := by_vote s d * (DelegatorShares v * dec_one / votes) / dec_one.

(** Who is paid: [a] as an unjailed voter (once per vote), and by its shares. *)
Definition income s (sk : SK) (votes : list VoteInfo) a d : Dec :=
  lsum (fun v => if decide (OperatorAddress v = a) then voter_share s (length (voters sk votes)) d else 0) (voters sk votes)
  + lsum (fun v => if decide (OperatorAddress v = a) then vote_share s (total_shares sk) v d else 0) (candidates sk).
(** What all validators are paid. *)
Definition outlay s (sk : SK) (votes : list VoteInfo) d : Dec :=
  Z.of_nat (length (voters sk votes)) * voter_share s (length (voters sk votes)) d
  + lsum (fun v => vote_share s (total_shares sk) v d) (candidates sk).

(** A block in which fees can be allocated. *)
Record allocatable (sk : SK) s (power : Z) (votes : list VoteInfo) : Prop := {
  al_reader : reader_ok sk;
  al_ok : ok sk s;
  al_fees : exists d, fees s d ≠ 0;
  al_power : power ≠ 0;
  al_voters : voters sk votes ≠ [];
  al_shares v : v ∈ candidates sk -> 0 <= DelegatorShares v;
  al_total : 0 < total_shares sk;
}.

(** What [AllocateTokens] leaves. *)
Record allocated (sk : SK) (votes : list VoteInfo) s s' : Prop := {
  ad_commission a d : comm s' a d = comm s a d + income s sk votes a d;
  ad_pool d : pool s' d = 0;
  ad_collector d : community s ≠ Some collector -> held s' collector d = 0;
  ad_community ca d : community s = Some ca -> ca ≠ collector ->
    held s' ca d = held s ca d + pool s d + (fees s d - outlay s sk votes d);
}.

Context (collector_other : collector ≠ addr).

Lemma paid_to_ext (r1 : Validator -> C) (f : Validator -> Z) l a d : (forall v, v ∈ l -> AmountOf (r1 v) d = f v) ->
  paid_to r1 l a d = lsum (fun v => if decide (OperatorAddress v = a) then f v else 0) l.
Proof. intros Hf. apply lsum_ext. intros v Hv. by rewrite Hf. Qed.

Section Allocate.
Context (sk : SK) (s : distr) (power : Z) (votes : list VoteInfo) (Hok : ok sk s).
Let feesC : C := GetCoins (dworld s) collector.
Let toVals : C := MulDecTruncate feesC (OneDec - GetCommunityTax s).
Let byEqual : C := MulDecTruncate toVals valPortion.
Let byVote : C := MulDecTruncate toVals votePortion.

Lemma feesC_nonneg d : 0 <= fees s d.
Proof. apply AmountOf_nonneg. Qed.
Lemma tax_range : 0 <= GetCommunityTax s <= dec_one.
Proof. apply (ok_tax _ _ _ Hok). Qed.
Lemma byEqual_amount d : AmountOf byEqual d = by_equal s d.
Proof.
  pose proof tax_range. change OneDec with dec_one in *. unfold byEqual, toVals, by_equal, to_validators.
  rewrite !AmountOf_MulDecTruncate; [done| |done]. change OneDec with dec_one. lia.
Qed.
Lemma byVote_amount d : AmountOf byVote d = by_vote s d.
Proof.
  pose proof tax_range. unfold byVote, toVals, by_vote, to_validators.
  rewrite !AmountOf_MulDecTruncate; [done| |done]. change OneDec with dec_one. lia.
Qed.
Lemma to_validators_range d : 0 <= to_validators s d <= fees s d.
Proof.
  pose proof tax_range. pose proof (feesC_nonneg d). unfold to_validators. pose proof dec_one_pos. split.
  - apply Z.div_pos; nia.
  - apply Z.div_le_upper_bound; nia.
Qed.
Lemma parts_fit d : 0 <= by_equal s d /\ 0 <= by_vote s d /\ by_equal s d + by_vote s d <= to_validators s d.
Proof.
  pose proof (to_validators_range d) as [Hn _]. pose proof dec_one_pos. unfold by_equal, by_vote.
  assert (0 <= valPortion /\ 0 <= votePortion /\ valPortion + votePortion = dec_one) as (Hv & Hw & Hsum) by done.
  split; [apply Z.div_pos; nia|]. split; [apply Z.div_pos; nia|].
  pose proof (Z.mul_div_le (to_validators s d * valPortion) dec_one ltac:(done)).
  pose proof (Z.mul_div_le (to_validators s d * votePortion) dec_one ltac:(done)). nia.
Qed.

(** The first transfer, and the books while the fees are on their way. *)
Lemma fees_sent : exists w, must (send_to_module feeCollectorName ModuleName feesC) s = Ret (s <| dworld := w |>, inl tt) /\
  moved (dworld s) w collector addr feesC /\ ok_but sk (s <| dworld := w |>) (fun d => 0 + fees s d).
Proof.
  destruct (SendModuleToModule_enough (dworld s) feeCollectorName ModuleName feesC) as [w Hw]; [done|].
  pose proof (SendModuleToModule_ok _ _ _ _ _ Hw) as Hm. exists w. split; [|split; [exact Hm|]].
  - unfold must, catch, send_to_module. by rewrite Hw.
  - by apply (ok_receive sk s _ w collector feesC Hok).
Qed.

Lemma fees_nonempty : (exists d, fees s d ≠ 0) -> CoinsEmpty feesC = false.
Proof.
  intros [d Hd]. apply not_true_is_false. intros He. apply Hd. by apply (proj1 (CoinsEmpty_spec feesC) He d).
Qed.

Lemma community_part : exists c, CoinsSub feesC (CoinsAdd byEqual byVote) = Some c.
Proof.
  apply CoinsSub_Some. intros d. rewrite AmountOf_CoinsAdd, byEqual_amount, byVote_amount.
  pose proof (parts_fit d). pose proof (to_validators_range d). change (AmountOf feesC d) with (fees s d). lia.
Qed.

(** The state in which the fees have arrived, and the start of the run. *)
Lemma AllocateTokens_start pp (w : W) pl : (exists d, fees s d ≠ 0) -> feePool s = Some pl ->
  must (send_to_module feeCollectorName ModuleName feesC) s = Ret (s <| dworld := w |>, inl tt) ->
  AllocateTokens feeCollectorName sk power pp votes s
  = (if power =? 0 then modify (SetFeePool (CoinsAdd pl feesC))
     else
       feesToCommunity ← or_panic (PanicMsg "negative coin amount") (CoinsSub feesC (CoinsAdd byEqual byVote));
       remainByEqual ← allocateByEqual sk byEqual votes;
       remainByShare ← allocateByShares sk byVote;
       let feesToCommunity := CoinsAdd feesToCommunity (CoinsAdd remainByEqual remainByShare) in
       pool ← (if negb (IsZero feesToCommunity)
               then let pool := CoinsAdd pl feesToCommunity in _ ← modify (SetFeePool pool); mret pool
               else mret pl);
       communityAddress ← GetCommunityAddress;
       catch (distributeFromFeePool pool communityAddress) (fun _ => mret tt)) (s <| dworld := w |>).
Proof.
  intros Hf Hpl Hsend. unfold AllocateTokens. unfold mbind at 1, eff_bind at 1. cbn [gets]. fold feesC.
  unfold gets at 1. cbv beta iota. fold feesC. rewrite (fees_nonempty Hf).
  unfold mbind at 1, eff_bind at 1. rewrite Hsend. cbv beta iota.
  unfold GetFeePool. unfold mbind at 1, eff_bind at 1, mbind at 1, eff_bind at 1, gets at 1. cbv beta iota.
  change (feePool (s <| dworld := w |>)) with (feePool s). rewrite Hpl. cbv beta iota.
  by destruct (power =? 0).
Qed.

Lemma AllocateTokens_nothing pp : (forall d, fees s d = 0) -> runs (AllocateTokens feeCollectorName sk power pp votes) s tt s.
Proof.
  intros Hf. unfold AllocateTokens. eapply runs_step; [reflexivity|]. fold feesC.
  by rewrite (proj2 (CoinsEmpty_spec feesC) Hf).
Qed.

(** Without a previous power all fees go to the pool. *)
Lemma AllocateTokens_to_pool pp : (exists d, fees s d ≠ 0) -> power = 0 -> exists s',
  runs (AllocateTokens feeCollectorName sk power pp votes) s tt s' /\
  (forall d, pool s' d = pool s d + fees s d) /\ (forall a d, comm s' a d = comm s a d) /\ (forall d, held s' collector d = 0).
Proof.
  intros Hf Hp. destruct fees_sent as (w & Hsend & Hm & _). destruct (ok_pool _ _ _ Hok) as [pl Hpl].
  exists (SetFeePool (CoinsAdd pl feesC) (s <| dworld := w |>)).
  unfold runs. rewrite (AllocateTokens_start pp w pl Hf Hpl Hsend), Hp. split; [done|]. split; [|split; [done|]].
  - intros d. unfold pool. rewrite Hpl. cbn. by rewrite AmountOf_CoinsAdd.
  - intros d. change (coins_at w collector d = 0). rewrite (Hm collector d), decide_False, decide_True by done.
    change (AmountOf feesC d) with (coins_at (dworld s) collector d). lia.
Qed.

(** With no unjailed voter the equal part is divided by zero. *)
Lemma AllocateTokens_halts pp : (exists d, fees s d ≠ 0) -> power ≠ 0 -> voters sk votes = [] ->
  AllocateTokens feeCollectorName sk power pp votes s = Panic PanicDivide.
Proof.
  intros Hf Hp Hv. destruct fees_sent as (w & Hsend & _ & _). destruct (ok_pool _ _ _ Hok) as [pl Hpl].
  destruct community_part as [toComm Htc].
  rewrite (AllocateTokens_start pp w pl Hf Hpl Hsend), (proj2 (Z.eqb_neq power 0) Hp), Htc.
  apply (panic_after _ _ _ toComm (s <| dworld := w |>)); [reflexivity|].
  apply panic_first. unfold allocateByEqual. change (omap _ votes) with (voters sk votes). rewrite Hv.
  change (NewDec (Z.of_nat (length []))) with 0. by rewrite QuoTruncate_zero.
Qed.

Lemma equal_runs s1 : voters sk votes ≠ [] -> exists rem s2, runs (allocateByEqual sk byEqual votes) s1 rem s2.
Proof.
  intros Hv. set (n := length (voters sk votes)).
  assert (0 < Z.of_nat n) by (unfold n; destruct (voters sk votes); [done|simpl; lia]).
  destruct (pay_loop_runs (fun _ => mret (MulDecTruncate byEqual (dec_one / Z.of_nat n))) (equal_part byEqual n)
    (voters sk votes) byEqual s1) as (rem & s2 & Hr & _).
  - done.
  - intros d. by apply equal_part_fits.
  - exists rem, s2. unfold allocateByEqual. change (omap _ votes) with (voters sk votes). fold n.
    rewrite QuoTruncate_one by lia. exact Hr.
Qed.

(** When the candidates have no shares, the part by shares is. *)
Lemma AllocateTokens_no_shares pp : (exists d, fees s d ≠ 0) -> power ≠ 0 -> voters sk votes ≠ [] ->
  candidates sk ≠ [] -> total_shares sk = 0 ->
  AllocateTokens feeCollectorName sk power pp votes s = Panic PanicDivide.
Proof.
  intros Hf Hp Hv Hc Ht. destruct fees_sent as (w & Hsend & _ & _). destruct (ok_pool _ _ _ Hok) as [pl Hpl].
  destruct community_part as [toComm Htc]. destruct (equal_runs (s <| dworld := w |>) Hv) as (rem & s2 & He).
  rewrite (AllocateTokens_start pp w pl Hf Hpl Hsend), (proj2 (Z.eqb_neq power 0) Hp), Htc.
  apply (panic_after _ _ _ toComm (s <| dworld := w |>)); [reflexivity|].
  apply (panic_after _ _ _ rem s2); [exact He|]. apply panic_first.
  unfold allocateByShares. change (omap unjailed (IterateValidators sk)) with (candidates sk).
  rewrite foldl_shares, Z.add_0_l. change (lsum DelegatorShares (candidates sk)) with (total_shares sk). rewrite Ht.
  destruct (candidates sk) as [|v l]; [done|]. cbn [pay_loop]. apply panic_first. apply panic_first. by rewrite QuoTruncate_zero.
Qed.

Context (Hal : allocatable sk s power votes).

Let n := length (voters sk votes).
Lemma n_pos : 0 < Z.of_nat n.
Proof. pose proof (al_voters _ _ _ _ Hal) as Hv. unfold n. destruct (voters sk votes); [done|]. simpl. lia. Qed.

Lemma equal_amount v d : AmountOf (equal_part byEqual n v) d = voter_share s n d.
Proof.
  unfold equal_part, voter_share. rewrite AmountOf_MulDecTruncate, byEqual_amount; [done|].
  apply Z.div_pos; [done|]. apply n_pos.
Qed.
Lemma share_amount v d : v ∈ candidates sk -> AmountOf (share_part byVote (total_shares sk) v) d = vote_share s (total_shares sk) v d.
Proof.
  intros Hv. rewrite share_part_amount by (try apply (al_total _ _ _ _ Hal); by apply (al_shares _ _ _ _ Hal)).
  by rewrite byVote_amount.
Qed.

Lemma allocateByShares_runs s1 : exists rem s2, runs (allocateByShares sk byVote) s1 rem s2.
Proof.
  destruct (pay_loop_runs (fun val => powerFraction ← or_panic PanicDivide (QuoTruncate (DelegatorShares val) (total_shares sk));
      mret (MulDecTruncate byVote powerFraction)) (share_part byVote (total_shares sk))
    (candidates sk) byVote s1) as (rem & s2 & Hr & _).
  - intros v s0 Hv. unfold share_part. rewrite QuoTruncate_pos by (try apply (al_total _ _ _ _ Hal); by apply (al_shares _ _ _ _ Hal)).
    done.
  - intros d. apply share_part_fits; [apply (al_shares _ _ _ _ Hal)|apply (al_total _ _ _ _ Hal)].
  - exists rem, s2. unfold allocateByShares. rewrite foldl_shares, Z.add_0_l. exact Hr.
Qed.

(** The loops, with what they pay. *)
Lemma shares_paid s1 rem s2 : runs (allocateByEqual sk byEqual votes) s1 rem s2 -> forall rem' s3,
  runs (allocateByShares sk byVote) s2 rem' s3 ->
  (forall a d, comm s3 a d = comm s1 a d + income s sk votes a d) /\
  (forall d, by_equal s d - AmountOf rem d + (by_vote s d - AmountOf rem' d) = outlay s sk votes d) /\
  same_but_comm s1 s3.
Proof.
  intros He rem' s3 Hs.
  destruct (allocateByEqual_pays _ _ _ _ _ _ He) as [[Ho1 Hc1 _ _] Hr1].
  destruct (allocateByShares_pays _ _ _ _ _ Hs) as [[Ho2 Hc2 _ _] Hr2]. fold n in Hc1, Hr1.
  split; [|split].
  - intros a d. rewrite Hc2, Hc1. unfold income. fold n.
    rewrite (paid_to_ext _ (fun v => voter_share s n d)) by (intros; apply equal_amount).
    rewrite (paid_to_ext _ (fun v => vote_share s (total_shares sk) v d)) by (intros; by apply share_amount). lia.
  - intros d. rewrite Hr1, Hr2, byEqual_amount, byVote_amount. unfold outlay, paid. fold n.
    rewrite (lsum_ext (fun v => AmountOf (equal_part byEqual n v) d) (fun _ => voter_share s n d)) by (intros; apply equal_amount).
    rewrite (lsum_ext (fun v => AmountOf (share_part _ _ v) d) (fun v => vote_share s (total_shares sk) v d))
      by (intros; by apply share_amount).
    rewrite lsum_const. lia.
  - by eapply same_but_comm_trans.
Qed.

(** The community pool is handed to the community address. *)
Lemma pool_handed s1 pl ca : ok sk s1 -> feePool s1 = Some pl -> exists w np,
  runs (catch (distributeFromFeePool pl ca) (fun _ => mret tt)) s1 tt (s1 <| dworld := w |> <| feePool := Some np |>) /\
  moved (dworld s1) w addr ca pl /\ forall d, AmountOf np d = 0.
Proof.
  intros Hok1 Hpl. destruct (CoinsSub_Some pl pl) as [np Hnp]; [done|].
  destruct (send_enough s1 ModuleName ca pl) as (w & Hw & Hm).
  { intros d. fold addr. rewrite (ok_books _ _ _ Hok1). pose proof (total_nonneg s1 d). unfold pool. rewrite Hpl. simpl. lia. }
  exists w, np. split; [|split; [exact Hm|]].
  - apply runs_catch_ok. unfold distributeFromFeePool, GetFeePool.
    eapply runs_step; [eapply runs_step; [reflexivity|]; rewrite Hpl; reflexivity|]. rewrite Hnp.
    eapply runs_step; [exact Hw|]. reflexivity.
  - intros d. rewrite (AmountOf_CoinsSub _ _ _ _ Hnp). lia.
Qed.

Lemma AllocateTokens_runs pp : exists s', runs (AllocateTokens feeCollectorName sk power pp votes) s tt s' /\ allocated sk votes s s'.
Proof.
  destruct fees_sent as (w & Hsend & Hm & Hok1).
  destruct (ok_pool _ _ _ Hok) as [pl Hpl]. destruct (ok_community _ _ _ Hok) as (ca & Hca & Hne).
  set (s1 := s <| dworld := w |>) in *.
  destruct community_part as [toComm Htc].
  destruct (equal_runs s1 (al_voters _ _ _ _ Hal)) as (remE & s2 & He). destruct (allocateByShares_runs s2) as (remS & s3 & Hs).
  destruct (shares_paid _ _ _ He _ _ Hs) as (Hcomm & Hout & Hsame).
  pose proof (ok_allocateByEqual _ _ _ _ _ _ _ (al_reader _ _ _ _ Hal) He Hok1) as Hok2.
  pose proof (ok_allocateByShares _ _ _ _ _ _ (al_reader _ _ _ _ Hal) Hs Hok2) as Hok3.
  set (toComm' := CoinsAdd toComm (CoinsAdd remE remS)).
  assert (forall d, AmountOf toComm' d = fees s d - outlay s sk votes d) as Hto.
  { intros d. unfold toComm'. rewrite !AmountOf_CoinsAdd, (AmountOf_CoinsSub _ _ _ _ Htc), AmountOf_CoinsAdd, byEqual_amount, byVote_amount.
    rewrite <- Hout. change (AmountOf feesC d) with (fees s d). lia. }
  assert (feePool s3 = Some pl) as Hpl3 by (unfold same_but_comm in Hsame; rewrite Hsame; exact Hpl).
  set (pl' := if negb (IsZero toComm') then CoinsAdd pl toComm' else pl).
  set (s4 := if negb (IsZero toComm') then SetFeePool pl' s3 else s3).
  assert (feePool s4 = Some pl' /\ comm s4 = comm s3 /\ dworld s4 = w /\ community s4 = Some ca) as (Hpl4 & Hc4 & Hw4 & Hca4).
  { unfold s4, pl', same_but_comm in *. destruct (negb (IsZero toComm')); rewrite Hsame; done. }
  assert (forall d, AmountOf pl' d = pool s d + (fees s d - outlay s sk votes d)) as Hpl'.
  { intros d. unfold pl', pool. rewrite Hpl. cbn [from_option]. destruct (IsZero toComm') eqn:Hz; cbn [negb].
    - rewrite <- Hto, (IsZero_amount _ _ Hz). lia.
    - by rewrite AmountOf_CoinsAdd, Hto. }
  assert (ok sk s4) as Hok4.
  { unfold s4, pl'. destruct (IsZero toComm') eqn:Hz; cbn [negb].
    - eapply ok_but_ext; [exact Hok3|]. intros d. cbn beta. rewrite byEqual_amount, byVote_amount.
      pose proof (Hto d) as Ht. rewrite (IsZero_amount _ _ Hz) in Ht. pose proof (Hout d). lia.
    - eapply ok_but_ext; [apply ok_SetFeePool; [exact Hok3|exact Hpl3]|]. intros d. cbn beta. rewrite byEqual_amount, byVote_amount, Hto.
      pose proof (Hout d). lia. }
  destruct (pool_handed s4 pl' ca Hok4 Hpl4) as (w' & np & Hdist & Hm' & Hnp).
  exists (s4 <| dworld := w' |> <| feePool := Some np |>). split.
  - unfold AllocateTokens. eapply runs_step; [reflexivity|]. fold feesC. rewrite (fees_nonempty (al_fees _ _ _ _ Hal)).
    eapply runs_step; [exact Hsend|]. eapply (runs_step _ _ _ pl s1).
    { unfold GetFeePool. eapply runs_step; [reflexivity|]. change (feePool s1) with (feePool s). rewrite Hpl. reflexivity. }
    rewrite (proj2 (Z.eqb_neq power 0) (al_power _ _ _ _ Hal)).
    eapply runs_step; [reflexivity|]. cbv zeta. change (GetCommunityTax s1) with (GetCommunityTax s). fold toVals byEqual byVote. rewrite Htc.
    eapply runs_step; [reflexivity|]. eapply runs_step; [exact He|]. eapply runs_step; [exact Hs|]. fold toComm'.
    eapply (runs_step _ _ _ pl' s4).
    { unfold pl', s4. destruct (negb (IsZero toComm')); [eapply runs_step; reflexivity|reflexivity]. }
    eapply (runs_step _ _ _ ca s4); [|exact Hdist].
    unfold GetCommunityAddress. eapply runs_step; [reflexivity|]. rewrite Hca4. reflexivity.
  - rewrite Hw4 in Hm'. split.
    + intros a d. change (comm s4 a d = comm s a d + income s sk votes a d). by rewrite Hc4, Hcomm.
    + intros d. apply Hnp.
    + intros d Hcc. change (coins_at w' collector d = 0). rewrite (Hm' collector d).
      rewrite decide_False by congruence. rewrite decide_False by done. rewrite (Hm collector d).
      rewrite decide_False, decide_True by done. change (AmountOf feesC d) with (coins_at (dworld s) collector d). lia.
    + intros ca' d Hca' Hcol. assert (ca' = ca) as -> by congruence. change (coins_at w' ca d = held s ca d + pool s d + (fees s d - outlay s sk votes d)).
      rewrite (Hm' ca d), decide_True, decide_False by done. rewrite (Hm ca d), !decide_False by done. rewrite Hpl'. unfold held. lia.
Qed.

(** *** How much rounding may cost *)

Lemma outlay_upper d : outlay s sk votes d <= to_validators s d.
Proof.
  pose proof (parts_fit d) as (_ & _ & Hfit). unfold outlay. fold n.
  pose proof (equal_part_fits byEqual (voters sk votes) d (al_voters _ _ _ _ Hal)) as He.
  unfold paid in He. fold n in He. rewrite byEqual_amount in He.
  rewrite (lsum_ext _ (fun _ => voter_share s n d)), lsum_const in He by (intros; apply equal_amount). fold n in He.
  pose proof (share_part_fits byVote sk d (al_shares _ _ _ _ Hal) (al_total _ _ _ _ Hal)) as Hs.
  unfold paid in Hs. rewrite byVote_amount in Hs.
  rewrite (lsum_ext _ (fun v => vote_share s (total_shares sk) v d)) in Hs by (intros; by apply share_amount). lia.
Qed.

Lemma voter_lower d : dec_one * (Z.of_nat n * voter_share s n d) >= by_equal s d * dec_one - Z.of_nat n * (by_equal s d + dec_one).
Proof.
  pose proof n_pos as Hn. pose proof (parts_fit d) as (He & _ & _). unfold voter_share.
  pose proof (floor_range (by_equal s d * (dec_one / Z.of_nat n)) dec_one ltac:(done)) as [H1' _].
  pose proof (floor_range dec_one (Z.of_nat n) Hn) as [H2' _].
  set (x := by_equal s d * (dec_one / Z.of_nat n) / dec_one) in *. set (q := dec_one / Z.of_nat n) in *.
  set (e := by_equal s d) in *. set (k := Z.of_nat n) in *. clearbody x q e k.
  assert (e * (k * q) >= e * (dec_one - (k - 1))) as H3' by nia.
  assert (k * (dec_one * x) >= k * (e * q - (dec_one - 1))) as H4' by nia. lia.
Qed.

Lemma votes_lower d : dec_one * lsum (fun v => vote_share s (total_shares sk) v d) (candidates sk)
  >= by_vote s d * dec_one - Z.of_nat (length (candidates sk)) * (by_vote s d + dec_one) - dec_one.
Proof.
  pose proof (al_total _ _ _ _ Hal) as Ht. pose proof (parts_fit d) as (_ & Hv & _).
  set (fr := fun v : Validator => DelegatorShares v * dec_one / total_shares sk).
  assert (lsum fr (candidates sk) >= dec_one - Z.of_nat (length (candidates sk))) as Hfr.
  { pose proof (lsum_floor (fun v => DelegatorShares v * dec_one) (total_shares sk) (candidates sk) Ht) as [Hl _].
    rewrite (lsum_ext _ (fun v => dec_one * DelegatorShares v)) in Hl by (intros; lia). rewrite lsum_mul in Hl.
    fold (total_shares sk) in Hl. rewrite Z.div_mul in Hl by lia. unfold fr. lia. }
  pose proof (lsum_floor (fun v => by_vote s d * fr v) dec_one (candidates sk) ltac:(done)) as [Hl _].
  rewrite lsum_mul in Hl. pose proof (floor_range (by_vote s d * lsum fr (candidates sk)) dec_one ltac:(done)) as [Hf _].
  change (lsum (fun v => vote_share s (total_shares sk) v d) (candidates sk)) with (lsum (fun v => by_vote s d * fr v / dec_one) (candidates sk)).
  set (y := lsum (fun v => by_vote s d * fr v / dec_one) (candidates sk)) in *. set (S := lsum fr (candidates sk)) in *.
  set (m := Z.of_nat (length (candidates sk))) in *. set (b := by_vote s d) in *.
  assert (b * S >= b * (dec_one - m)) as Hb by nia.
  assert (dec_one * y >= dec_one * (b * S / dec_one - m)) by (pose proof dec_one_pos; nia). lia.
Qed.

Lemma outlay_lower d : dec_one * outlay s sk votes d
  >= fees s d * (dec_one - GetCommunityTax s) - 3 * dec_one
     - (Z.of_nat (length (voters sk votes)) + Z.of_nat (length (candidates sk))) * (fees s d + dec_one).
Proof.
  pose proof (voter_lower d) as Hv. pose proof (votes_lower d) as Hs. pose proof (parts_fit d) as (He & Hb & Hfit).
  pose proof (to_validators_range d) as [_ Htv]. unfold outlay. fold n.
  pose proof (floor_range (fees s d * (dec_one - GetCommunityTax s)) dec_one ltac:(done)) as [H1' _].
  change (fees s d * (dec_one - GetCommunityTax s) / dec_one) with (to_validators s d) in H1'.
  pose proof (floor_range (to_validators s d * valPortion) dec_one ltac:(done)) as [H2' _].
  change (to_validators s d * valPortion / dec_one) with (by_equal s d) in H2'.
  pose proof (floor_range (to_validators s d * votePortion) dec_one ltac:(done)) as [H3' _].
  change (to_validators s d * votePortion / dec_one) with (by_vote s d) in H3'.
  assert (by_equal s d + by_vote s d >= to_validators s d - 1) as Hparts.
  { assert (valPortion + votePortion = dec_one) as Hsum by done. pose proof dec_one_pos. nia. }
  assert (Z.of_nat n * by_equal s d <= Z.of_nat n * fees s d) by nia.
  assert (Z.of_nat (length (candidates sk)) * by_vote s d <= Z.of_nat (length (candidates sk)) * fees s d) by nia.
  pose proof dec_one_pos. nia.
Qed.

End Allocate.
End Spec.
End DistrSpec.
