(* ===== verification/DistrMain.v ===== *)
(** The distribution module in use: every history of messages, blocks,
    proposals and validator changes, and what holds after it. *)
From S2P Require Import Prelude.
From S2P Require Import Interfaces.
From S2P Require Import Sums.
From S2P Require Import Coins.
From S2P Require Import StakingTypes.
From S2P Require Import Effects.
From S2P Require Import StakingState.
From S2P Require Import Distribution.
From S2P Require Import DistrAlloc.
From S2P Require Import DistrBooks.
From S2P Require Import DistrSpec.
Import Distribution DistrAlloc DistrBooks DistrSpec StakingAlias.
Local Open Scope Z_scope.

Module DistrMain.
Section Main.
Context {W C SK : Type} `{SdkCoinsLaws C, !DecCoins C, !DecCoinsLaws C, !DecQuo, !DecQuoLaws,
  !DistrSupply W C, !DistrSupplyLaws W C, !StakingReader SK}.
Context (feeCollectorName : string) (blacklistedAddrs : Address -> bool).
Abbreviation distr := (Distr W C).
Abbreviation E := (eff (Distr W C) distr_error).
Abbreviation addr := (distr_addr (W := W) (C := C)).
Abbreviation collector := (GetModuleAddress (W := W) (C := C) feeCollectorName).
Implicit Types (s : distr) (c : C) (d : Denom) (a : Address) (sk : SK).

(** ** Histories

    One step of the chain as this module sees it.  Validators appear and
    disappear with the hooks the staking module calls; between them the
    staking module keeps the validators it has.  Other modules move coins,
    but not those of this module's account. *)
Inductive step : SK * distr -> SK * distr -> Prop :=
  | step_message sk s msg s' :
      runs (NewHandler blacklistedAddrs msg) s tt s' -> step (sk, s) (sk, s')
  | step_begin_block sk s start height votes proposer s' :
      runs (BeginBlocker feeCollectorName sk start height votes proposer) s tt s' -> step (sk, s) (sk, s')
  | step_proposal sk s p s' :
      runs (HandleCommunityPoolSpendProposal blacklistedAddrs p) s tt s' -> step (sk, s) (sk, s')
  | step_created sk s a sk' s' : reader_ok (W := W) (C := C) sk' -> Validator_of sk a = None ->
      (forall b, b ≠ a -> is_Some (Validator_of sk b) -> is_Some (Validator_of sk' b)) ->
      runs (AfterValidatorCreated sk' a) s tt s' -> step (sk, s) (sk', s')
  | step_removed sk s a sk' s' : reader_ok (W := W) (C := C) sk' ->
      (forall b, b ≠ a -> is_Some (Validator_of sk b) -> is_Some (Validator_of sk' b)) ->
      runs (AfterValidatorRemoved a) s tt s' -> step (sk, s) (sk', s')
  | step_staking sk s sk' : reader_ok (W := W) (C := C) sk' ->
      (forall b, is_Some (Validator_of sk b) -> is_Some (Validator_of sk' b)) -> step (sk, s) (sk', s)
  | step_bank sk s w : (forall d, coins_at w addr d = held s addr d) -> step (sk, s) (sk, s <| dworld := w |>)
  | step_params sk s p : Params_ValidateBasic p = None -> step (sk, s) (sk, SetParams p s).

(** Genesis with an empty account. *)
Inductive initial : SK * distr -> Prop :=
  | initial_genesis sk data s s' : reader_ok (W := W) (C := C) sk -> genesis_ok sk data -> fresh s ->
      IsZero (GetCoins (dworld s) addr) = true -> runs (InitGenesis data) s tt s' -> initial (sk, s').
Definition reachable (x : SK * distr) : Prop := exists x0, initial x0 /\ rtc step x0 x.

Definition good (x : SK * distr) : Prop := reader_ok (W := W) (C := C) x.1 /\ ok x.1 x.2.

Lemma Params_valid p : Params_ValidateBasic p = None -> 0 <= CommunityTax p <= dec_one.
Proof.
  unfold Params_ValidateBasic. destruct (_ || _) eqn:Hb; [done|]. intros _.
  apply orb_false_iff in Hb as [Hl%Z.ltb_ge Hu%Z.ltb_ge]. done.
Qed.

Section Reach.
Context (collector_other : collector ≠ addr) (addr_blacklisted : blacklistedAddrs addr = true).

Lemma step_good x y : step x y -> good x -> good y.
Proof.
  destruct 1; intros [Hsk Hok]; cbn [fst snd] in *; (split; [done|]); cbn [fst snd].
  - by eapply ok_NewHandler.
  - by eapply ok_BeginBlocker.
  - by eapply ok_spend.
  - by eapply (ok_created sk sk').
  - by eapply (ok_removed sk sk').
  - destruct Hok. split; try done. eauto.
  - destruct Hok. split; try done. intros d. change (coins_at w addr d = pool s d + total s d + 0). by match goal with Hw : forall d, coins_at w _ _ = _ |- _ => rewrite Hw end.
  - destruct Hok. split; try done. by apply Params_valid.
Qed.

Lemma reachable_good x : reachable x -> good x.
Proof.
  intros (x0 & Hi & Hs). assert (good x0) as H0'; [destruct Hi; split; [done|by eapply ok_InitGenesis]|].
  clear Hi. induction Hs as [x|x y z Hxy Hyz IH]; [done|]. by eapply IH, step_good.
Qed.

(** ** The registered invariants *)

Lemma ModuleAccount_holds sk s : ok sk s -> ModuleAccountInvariant s = Ret false.
Proof.
  intros Hok. unfold ModuleAccountInvariant, IterateValidatorAccumulatedCommissions.
  destruct (feePool s) as [pl|] eqn:Hpl; [|by destruct (ok_pool _ _ _ Hok); congruence].
  fold addr. rewrite CoinsIsEqual_spec; [done|]. intros d.
  change (AmountOf (GetCoins (dworld s) addr) d) with (held s addr d).
  rewrite (ok_books _ _ _ Hok), AmountOf_CoinsAdd, (foldl_CoinsAdd snd), AmountOf_empty.
  unfold pool, total. rewrite Hpl, msum_entries. simpl. lia.
Qed.

Lemma NonNegative_holds s : NonNegativeCommissionsInvariant s = false.
Proof.
  unfold NonNegativeCommissionsInvariant. apply not_true_is_false. intros (acc & _ & Hneg)%existsb_exists.
  apply IsAnyNegative_spec in Hneg as [d Hd]. pose proof (AmountOf_nonneg acc.2 d). lia.
Qed.

(** C28: in every reachable state the three invariants the module registers
    hold: no commission is negative, every validator can withdraw what it
    has accumulated (all of them, one after the other), and the module's
    account holds exactly the community pool and all commissions. *)
Theorem registered_invariants_hold sk s : reachable (sk, s) ->
  NonNegativeCommissionsInvariant s = false /\ CanWithdrawInvariant sk s = Ret false /\ ModuleAccountInvariant s = Ret false.
Proof.
  intros [Hsk Hok]%reachable_good. cbn [fst snd] in *. split; [apply NonNegative_holds|]. split.
  - unfold CanWithdrawInvariant. by rewrite (can_withdraw_all sk Hsk).
  - by eapply ModuleAccount_holds.
Qed.

(** A withdrawal message either finds no commission and is refused, or
    pays the whole coins of it to the withdraw address and leaves the
    decimals, the pool and all other commissions as they are; it cannot
    fail in another way. *)
Theorem withdraw_message sk s a : reachable (sk, s) ->
  if IsZero (GetValidatorAccumulatedCommission a s)
  then NewHandler blacklistedAddrs (MsgWithdrawValidatorCommission a) s = Ret (s, inr ErrNoValidatorCommission)
  else exists whole s', runs (NewHandler blacklistedAddrs (MsgWithdrawValidatorCommission a)) s tt s' /\ withdrawn a whole s s'.
Proof.
  intros [Hsk Hok]%reachable_good. cbn [fst snd] in *. destruct (IsZero _) eqn:Hz.
  - unfold NewHandler, handleMsgWithdrawValidatorCommission, WithdrawValidatorCommission, mbind, eff_bind, gets. by rewrite Hz.
  - destruct (Withdraw_succeeds sk s a Hsk Hok Hz) as (whole & s' & Hr & Hw). exists whole, s'. split; [|done].
    cbn [NewHandler]. unfold handleMsgWithdrawValidatorCommission. by eapply runs_step.
Qed.

End Reach.

(** ** Blocks *)

Section Blocks.
Context (collector_other : collector ≠ addr).

(** The power behind the last commit, as the code adds it up. *)
Definition previousTotalPower (votes : list VoteInfo) : Z := foldl (fun power vote => i64 (power + vote_Power vote)) 0 votes.

(** A block that allocates runs [AllocateTokens] first. *)
Lemma BeginBlocker_due sk s start height votes pp proposer : start + 1 < height -> previousProposer s = Some pp ->
  BeginBlocker feeCollectorName sk start height votes proposer s
  = (_ ← AllocateTokens feeCollectorName sk (previousTotalPower votes) pp votes; modify (SetPreviousProposerConsAddr proposer)) s.
Proof.
  intros Hh Hpp. unfold BeginBlocker. cbv zeta. rewrite (proj2 (Z.ltb_lt _ _) Hh). cbn [when].
  unfold mbind, eff_bind, GetPreviousProposerConsAddr, gets. unfold mbind, eff_bind. by rewrite Hpp.
Qed.
Lemma BeginBlocker_allocates sk s start height votes pp proposer s' : start + 1 < height -> previousProposer s = Some pp ->
  runs (AllocateTokens feeCollectorName sk (previousTotalPower votes) pp votes) s tt s' ->
  runs (BeginBlocker feeCollectorName sk start height votes proposer) s tt (SetPreviousProposerConsAddr proposer s').
Proof.
  intros Hh Hpp Ha. unfold runs. rewrite (BeginBlocker_due _ _ _ _ _ _ _ Hh Hpp).
  eapply (runs_step _ _ _ tt s'); [exact Ha|reflexivity].
Qed.
Lemma BeginBlocker_panics sk s start height votes pp proposer : start + 1 < height -> previousProposer s = Some pp ->
  AllocateTokens feeCollectorName sk (previousTotalPower votes) pp votes s = Panic PanicDivide ->
  BeginBlocker feeCollectorName sk start height votes proposer s = Panic PanicDivide.
Proof. intros Hh Hpp Ha. rewrite (BeginBlocker_due _ _ _ _ _ _ _ Hh Hpp). by apply panic_first. Qed.

(** C29: the begin of a block, case by case.  Up to the block after the
    start, or when no fees were collected, only the proposer is recorded.
    Otherwise, when the last commit had no power, all fees go to the
    community pool.  When it had, but no validator that voted is known and
    unjailed, the code divides by zero and the block panics; so it does when
    there are unjailed validators and none of them has shares.  When some
    voter is unjailed and there are shares, it splits the fees: of what the
    community tax leaves, a fifth goes in equal parts to the unjailed
    validators that voted, four fifths to all unjailed validators by their
    shares ([income]; the comment of the code says a quarter and three
    quarters), and everything else, with the whole community pool, to the
    community address. *)
Theorem BeginBlocker_outcomes sk s start height votes pp proposer :
  reader_ok (W := W) (C := C) sk -> ok sk s -> previousProposer s = Some pp ->
  (forall v, v ∈ candidates sk -> 0 <= DelegatorShares v) ->
  let begin_block := BeginBlocker feeCollectorName sk start height votes proposer in
  (height <= start + 1 \/ (forall d, fees feeCollectorName s d = 0) ->
     runs begin_block s tt (SetPreviousProposerConsAddr proposer s)) /\
  (start + 1 < height -> (exists d, fees feeCollectorName s d ≠ 0) ->
    (previousTotalPower votes = 0 -> exists s', runs begin_block s tt s' /\ previousProposer s' = Some proposer /\
       (forall d, pool s' d = pool s d + fees feeCollectorName s d) /\ (forall a d, comm s' a d = comm s a d) /\
       (forall d, held s' collector d = 0)) /\
    (previousTotalPower votes ≠ 0 ->
       (voters sk votes = [] -> begin_block s = Panic PanicDivide) /\
       (candidates sk ≠ [] -> total_shares sk = 0 -> begin_block s = Panic PanicDivide) /\
       (voters sk votes ≠ [] -> 0 < total_shares sk -> exists s', runs begin_block s tt s' /\ previousProposer s' = Some proposer /\
          allocated feeCollectorName sk votes s s'))).
Proof.
  intros Hsk Hok Hpp Hshares begin_block. split; [|intros Hh Hf; split; [|intros Hpow; split; [|split]]].
  - intros Hno. destruct (Z.ltb_spec (start + 1) height) as [Hh|Hh].
    + destruct Hno as [?|Hf]; [lia|]. eapply BeginBlocker_allocates; [done..|]. by apply AllocateTokens_nothing.
    + unfold begin_block, BeginBlocker, runs. cbv zeta. by rewrite (proj2 (Z.ltb_ge _ _) Hh).
  - intros Hpow. destruct (AllocateTokens_to_pool feeCollectorName collector_other sk s _ votes Hok pp Hf Hpow) as (s' & Hr & Hp & Hc & Hcol).
    exists (SetPreviousProposerConsAddr proposer s'). split; [by eapply BeginBlocker_allocates|done].
  - intros Hv. eapply BeginBlocker_panics; [done..|]. by apply AllocateTokens_halts.
  - intros Hc Ht. eapply BeginBlocker_panics; [done..|]. destruct (decide (voters sk votes = [])).
    + by apply AllocateTokens_halts.
    + by apply AllocateTokens_no_shares.
  - intros Hv Ht. assert (allocatable feeCollectorName sk s (previousTotalPower votes) votes) as Hal by (by split).
    destruct (AllocateTokens_runs feeCollectorName collector_other sk s _ votes Hok Hal pp) as (s' & Hr & [Hc Hp Hcol Hcom]).
    exists (SetPreviousProposerConsAddr proposer s'). split; [by eapply BeginBlocker_allocates|]. split; [done|]. split; assumption.
Qed.

(** C30: the community never gets less than its tax, and rounding costs the
    validators at most three units of the last decimal and one part in
    10^18 of the fees plus one unit for each validator paid. *)
Theorem community_income_bounds sk s start height votes pp proposer ca s' d : start + 1 < height -> previousProposer s = Some pp ->
  allocatable feeCollectorName sk s (previousTotalPower votes) votes -> community s = Some ca -> ca ≠ collector ->
  runs (BeginBlocker feeCollectorName sk start height votes proposer) s tt s' ->
  let received := held s' ca d - held s ca d - pool s d in
  let paid_validators := Z.of_nat (length (voters sk votes)) + Z.of_nat (length (candidates sk)) in
  fees feeCollectorName s d * GetCommunityTax s <= dec_one * received
  <= fees feeCollectorName s d * GetCommunityTax s + 3 * dec_one + paid_validators * (fees feeCollectorName s d + dec_one).
Proof.
  intros Hh Hpp Hal Hca Hne Hr. cbv zeta. pose proof (al_ok _ _ _ _ _ Hal) as Hok.
  destruct (AllocateTokens_runs feeCollectorName collector_other sk s _ votes Hok Hal pp) as (s1 & Hr1 & Had).
  assert (s' = SetPreviousProposerConsAddr proposer s1) as ->.
  { pose proof (BeginBlocker_allocates sk s start height votes pp proposer s1 Hh Hpp Hr1) as Hr2. unfold runs in Hr, Hr2. congruence. }
  change (held (SetPreviousProposerConsAddr proposer s1) ca d) with (held s1 ca d).
  rewrite (ad_community _ _ _ _ _ Had ca d Hca Hne).
  pose proof (outlay_upper feeCollectorName collector_other sk s _ votes Hok Hal d) as Hu.
  pose proof (outlay_lower feeCollectorName collector_other sk s _ votes Hok Hal d) as Hl.
  pose proof (floor_range (fees feeCollectorName s d * (dec_one - GetCommunityTax s)) dec_one ltac:(done)) as [_ Ht].
  change (fees feeCollectorName s d * (dec_one - GetCommunityTax s) / dec_one) with (to_validators feeCollectorName s d) in Ht.
  pose proof dec_one_pos. split; nia.
Qed.

End Blocks.

(** ** Genesis *)

(** C31: exporting a state in order and starting a new store from the file
    gives back every table and leaves every balance as it was. *)
Theorem genesis_roundtrip sk s s0 pp : ok sk s -> previousProposer s = Some pp -> fresh s0 -> dworld s0 = dworld s ->
  exists data s', runs ExportGenesis s data s /\ runs (InitGenesis data) s0 tt s' /\
    s' = s <| dworld := dworld s' |> /\ forall a d, held s' a d = held s a d.
Proof.
  intros Hok Hpp Hf Hw. destruct (ok_pool _ _ _ Hok) as [pl Hpl]. destruct (ok_community _ _ _ Hok) as (ca & Hca & _).
  set (data := mkDistrGenesis C (distr_params s) pl (entries (withdrawAddrs s)) pp (entries (commissions s)) ca).
  destruct (InitGenesis_runs data s0 Hf) as (w & Hr & Hb). exists data, (initialized data w). split; [|split; [exact Hr|split]].
  - unfold ExportGenesis, GetFeePool, GetCommunityAddress, GetPreviousProposerConsAddr.
    unfold runs, mbind, eff_bind, gets, or_panic, mret, eff_ret. rewrite Hpl, Hca, Hpp. done.
  - unfold initialized. cbn. rewrite !foldl_insert; [|rewrite ?normalized_keys; apply NoDup_entries..].
    rewrite !(right_id_L ∅ (∪)), list_to_map_entries.
    assert (normalized <$> entries (commissions s) = entries (commissions s)) as ->.
    { rewrite <- (list_fmap_id (entries _)) at 2. apply list_fmap_ext. intros i [a c] Hi%list_elem_of_lookup_2.
      apply elem_of_entries in Hi. unfold normalized. cbn. destruct (IsZero c) eqn:Hz; [|done].
      by rewrite (ok_normal _ _ _ Hok a c Hi Hz). }
    rewrite list_to_map_entries. rewrite <- Hpl, <- Hpp, <- Hca. by destruct s.
  - intros a d. change (coins_at w a d = coins_at (dworld s) a d). rewrite Hb, Hw. unfold held. rewrite Hw.
    case_decide as Ha; [|done]. subst a. destruct (IsZero (GetCoins (dworld s) addr)) eqn:Hz; [|done].
    pose proof (ok_books _ _ _ Hok d) as Hbooks. unfold held in Hbooks. rewrite Hbooks. unfold pool, total. rewrite Hpl, msum_entries.
    change (gen_Commissions data) with (entries (commissions s)). change (gen_FeePool data) with pl.
    cbn [from_option]. lia.
Qed.

(** ** The staking module keeps its promise *)

Lemma Stk_reader_ok {W'} (s : Stk W') :
  (forall a v, validators s !! a = Some v -> OperatorAddress v = a /\ a ≠ addr) -> reader_ok (W := W) (C := C) s.
Proof.
  intros Hv. split; cbn.
  - intros a v. apply Hv.
  - unfold StakingAlias.ValidatorByConsAddr_, StakingState.GetValidatorByConsAddr. intros c v (a & _ & Ha)%bind_Some.
    destruct (Hv a v Ha) as [Hop _]. unfold StakingAlias.Validator_. by rewrite Hop.
  - unfold StakingAlias.IterateValidators_. intros v ([a v'] & Heq & Hin)%list_elem_of_fmap. cbn in Heq. subst v'.
    apply elem_of_entries in Hin. destruct (Hv a v Hin) as [Hop _]. unfold StakingAlias.Validator_, StakingState.GetValidator. by rewrite Hop.
Qed.

End Main.
End DistrMain.
