(* ===== verification/DistrExamples.v ===== *)
(** The distribution module on concrete inputs: a bank as a finite map, the
    validators of the staking module's example history, a genesis, a block
    with fees and a withdrawal, and the module's theorems applied to them. *)
From S2P Require Import Prelude.
From S2P Require Import Interfaces.
From S2P Require Import Sums.
From S2P Require Import Coins.
From S2P Require Import StakingTypes.
From S2P Require Import Effects.
From S2P Require Import StakingState.
From S2P Require Import StakingView.
From S2P Require Import StakingExamples.
From S2P Require Import Distribution.
From S2P Require Import DistrAlloc.
From S2P Require Import DistrBooks.
From S2P Require Import DistrSpec.
From S2P Require Import DistrMain.
Import MapInstances MapCoins.
Import Distribution DistrAlloc DistrBooks DistrSpec DistrMain StakingAlias.
Local Open Scope Z_scope.

Module DistrExamples.

(** ** The bank *)
Abbreviation bank := (gmap Address coins).

Definition account (w : bank) (a : Address) : coins := default ∅ (w !! a).
Definition module_account (name : string) : Address :=
  if decide (name = "distribution") then 1000%N else if decide (name = "fee_collector") then 1001%N else 1002%N.
Definition transfer (w : bank) (from to : Address) (c : coins) : option bank :=
  match CoinsSub (account w from) c with
  | Some rest => let w := <[from := rest]> w in Some (<[to := CoinsAdd (account w to) c]> w)
  | None => None
  end.

#[export] Instance bank_supply : DistrSupply bank coins := {
  GetModuleAddress := module_account;
  GetCoins := account;
  SendModuleToModule w p q c := transfer w (module_account p) (module_account q) c;
  SendModuleToAccount w p a c := transfer w (module_account p) a c;
  SetModuleCoins w p c := <[module_account p := c]> w;
}.

Lemma account_insert w a c b : account (<[a := c]> w) b = if decide (b = a) then c else account w b.
Proof. unfold account. destruct (decide (b = a)) as [->|Hne]; [by rewrite lookup_insert_eq|by rewrite lookup_insert_ne]. Qed.

Lemma transfer_moved w w' from to c : transfer w from to c = Some w' -> moved w w' from to c.
Proof.
  unfold transfer. destruct (CoinsSub (account w from) c) as [rest|] eqn:Hs; [|done]. intros Hw a d.
  assert (w' = <[to := CoinsAdd (account (<[from := rest]> w) to) c]> (<[from := rest]> w)) as -> by congruence.
  unfold coins_at. change (@GetCoins bank coins bank_supply) with account. rewrite !account_insert.
  destruct (decide (a = to)) as [->|Hto]; [rewrite AmountOf_CoinsAdd|]; repeat case_decide; subst; try done;
    rewrite ?(AmountOf_CoinsSub _ _ _ _ Hs); try lia.
Qed.
Lemma transfer_enough w from to c : (forall d, AmountOf c d <= AmountOf (account w from) d) -> is_Some (transfer w from to c).
Proof. intros He. unfold transfer. destruct (CoinsSub_Some (account w from) c He) as [rest ->]. by eexists. Qed.

#[export] Instance bank_supply_laws : DistrSupplyLaws bank coins.
Proof.
  split.
  - intros w p q c w'. apply transfer_moved.
  - intros w p q c. apply transfer_enough.
  - intros w p a c w'. apply transfer_moved.
  - intros w p a c. apply transfer_enough.
  - intros w p c a d. unfold coins_at. change (@GetCoins bank coins bank_supply) with account.
    change (SetModuleCoins w p c) with (<[module_account p := c]> w). rewrite account_insert.
    change (GetModuleAddress p) with (module_account p). destruct (decide (a = module_account p)); done.
Qed.

(** ** A history *)

Definition collector_name : string := "fee_collector".
Definition blacklist (a : Address) : bool := bool_decide (a ∈ [1000%N; 1001%N; 1002%N]).
Abbreviation distr := (Distr bank coins).
Abbreviation E := (eff distr distr_error).
Abbreviation SK := (Stk ledger).

Definition fax (n : Z) : coins := coins_put ∅ "fax" n.
Definition empty_store (w : bank) : distr := mkDistr bank coins None None ∅ ∅ None (mkDistrParams 0 false) w.
Definition demo_genesis : DistrGenesis coins :=
  mkDistrGenesis coins DefaultParams ∅ [(1%N, 21%N)] None [] 50%N.

(** The state a computation ends in, if it succeeds. *)
Definition after {A} (m : E A) (s : distr) : distr := match m s with Ret (s', inl _) => s' | _ => s end.
Definition succeeds {A} (m : E A) (s : distr) : bool := match m s with Ret (_, inl _) => true | _ => false end.
Lemma after_runs (m : E unit) s : succeeds m s = true -> runs m s tt (after m s).
Proof. unfold succeeds, after, runs. destruct (m s) as [[s' [[]|]]|]; done. Qed.

Definition started : distr := after (InitGenesis demo_genesis) (empty_store ∅).
(** The staking module announces its validators 1 and 2. *)
Definition sk0 : SK := StakingExamples.genesis.
Definition sk1 : SK := StakingExamples.demo_state.
Definition with_validator (a : Address) (s : SK) : SK :=
  s <| validators := match validators sk1 !! a with Some v => <[a := v]> (validators s) | None => validators s end |>.
Definition sk_one : SK := with_validator 1%N sk0.
Definition created1 : distr := after (AfterValidatorCreated sk_one 1%N) started.
Definition created2 : distr := after (AfterValidatorCreated sk1 2%N) created1.
(** 1000 fax of fees arrive at the collector. *)
Definition with_fees : distr := created2 <| dworld := <[1001%N := fax (NewDec 1000 + 7)]> (dworld created2) |>.
Definition cons_addr (a : Address) : Address := from_option (StakingState.ConsAddress (H1 := StakingExamples.demo_sdk)) 0%N (validators sk1 !! a).
Definition votes : list VoteInfo := [mkVoteInfo (cons_addr 1%N) 10; mkVoteInfo (cons_addr 2%N) 5].
Definition begin (s : distr) : E unit := BeginBlocker collector_name sk1 0 5 votes (Some 1%N).
Definition allocated_state : distr := after (begin with_fees) with_fees.
Definition withdrawn_state : distr :=
  after (NewHandler blacklist (MsgWithdrawValidatorCommission 1%N)) allocated_state.

Definition observe (s : distr) : list Z :=
  [comm s 1%N "fax"; comm s 2%N "fax"; pool s "fax"; held s 50%N "fax"; held s 1001%N "fax"; held s 1000%N "fax"; held s 21%N "fax"].

(** Both voters get a tenth of the fees less tax, then halves of the rest;
    the community gets its tax and what rounding left. *)
Example demo_numbers :
  observe allocated_state = [490000000000000000002; 490000000000000000002; 0; 20000000000000000003; 0; 980000000000000000004; 0] /\
  observe withdrawn_state = [2; 490000000000000000002; 0; 20000000000000000003; 0; 490000000000000000004; 490000000000000000000].
Proof. split; vm_compute; reflexivity. Qed.

(** ** The hypotheses of the theorems *)

Definition keyed (s : SK) : bool :=
  forallb (fun kv => bool_decide (OperatorAddress kv.2 = kv.1 /\ kv.1 ≠ 1000%N)) (map_to_list (validators s)).
Lemma keyed_reader s : keyed s = true -> reader_ok (W := bank) (C := coins) s.
Proof.
  unfold keyed. rewrite forallb_forall. intros Hk. apply Stk_reader_ok. intros a v Hv.
  apply (fun Hin => bool_decide_eq_true_1 _ (Hk (a, v) Hin)). by apply list_elem_of_In, elem_of_map_to_list.
Qed.
Definition contains (s s' : SK) : bool :=
  forallb (fun kv => bool_decide (is_Some (validators s' !! kv.1))) (map_to_list (validators s)).
Lemma contains_spec (s s' : SK) : contains s s' = true -> forall a : Address, is_Some (Validator_of s a) -> is_Some (Validator_of s' a).
Proof.
  unfold contains. rewrite forallb_forall. intros Hk a [v Hv].
  apply (fun Hin => bool_decide_eq_true_1 _ (Hk (a, v) Hin)). by apply list_elem_of_In, elem_of_map_to_list.
Qed.

Lemma sk0_reader : reader_ok (W := bank) (C := coins) sk0.
Proof. apply keyed_reader. vm_compute. reflexivity. Qed.
Lemma sk_one_reader : reader_ok (W := bank) (C := coins) sk_one.
Proof. apply keyed_reader. vm_compute. reflexivity. Qed.
Lemma sk1_reader : reader_ok (W := bank) (C := coins) sk1.
Proof. apply keyed_reader. vm_compute. reflexivity. Qed.

Lemma collector_differs : GetModuleAddress (W := bank) (C := coins) collector_name ≠ distr_addr (W := bank) (C := coins).
Proof. by intros [=]. Qed.
Lemma module_blacklisted : blacklist (distr_addr (W := bank) (C := coins)) = true.
Proof. reflexivity. Qed.

Lemma demo_genesis_ok : genesis_ok (W := bank) sk0 demo_genesis.
Proof.
  split.
  - vm_compute. reflexivity.
  - constructor.
  - intros a Ha. by apply elem_of_nil in Ha.
  - intros a b [= -> ->]%list_elem_of_singleton. by intros [=].
  - by intros [=].
Qed.

Abbreviation step := (step (SK := SK) collector_name blacklist).
Abbreviation reachable := (reachable (SK := SK) collector_name blacklist).

Lemma started_initial : initial (sk0, started).
Proof.
  apply (initial_genesis sk0 demo_genesis (empty_store ∅)); [exact sk0_reader|exact demo_genesis_ok|by split|reflexivity|].
  apply after_runs. vm_compute. reflexivity.
Qed.
Lemma created_first : step (sk0, started) (sk_one, created1).
Proof.
  apply (step_created _ _ sk0 started 1%N); [exact sk_one_reader|reflexivity|intros b _; apply contains_spec; vm_compute; reflexivity|].
  apply after_runs. vm_compute. reflexivity.
Qed.
Lemma created_second : step (sk_one, created1) (sk1, created2).
Proof.
  apply (step_created _ _ sk_one created1 2%N); [exact sk1_reader|vm_compute; reflexivity|intros b _; apply contains_spec; vm_compute; reflexivity|].
  apply after_runs. vm_compute. reflexivity.
Qed.
Lemma fees_arrive : step (sk1, created2) (sk1, with_fees).
Proof.
  apply step_bank. intros d. unfold held, coins_at. change (@GetCoins bank coins bank_supply) with account.
  by rewrite account_insert.
Qed.
Lemma begin_runs : runs (begin with_fees) with_fees tt allocated_state.
Proof. apply after_runs. vm_compute. reflexivity. Qed.
Lemma fees_reachable : reachable (sk1, with_fees).
Proof.
  exists (sk0, started). split; [exact started_initial|].
  eapply rtc_l; [exact created_first|]. eapply rtc_l; [exact created_second|]. eapply rtc_l; [exact fees_arrive|]. apply rtc_refl.
Qed.
Lemma allocated_reachable : reachable (sk1, allocated_state).
Proof.
  destruct fees_reachable as (x0 & Hi & Hs). exists x0. split; [exact Hi|]. eapply rtc_r; [exact Hs|].
  eapply step_begin_block. exact begin_runs.
Qed.
Lemma with_fees_ok : ok sk1 with_fees.
Proof. exact (proj2 (reachable_good _ _ collector_differs module_blacklisted _ fees_reachable)). Qed.

Definition shares_fine (sk : SK) : bool :=
  forallb (fun v => 0 <=? DelegatorShares v) (candidates sk) && (0 <? total_shares sk).
Lemma shares_fine_sk1 : shares_fine sk1 = true.
Proof. vm_compute. reflexivity. Qed.
Lemma demo_allocatable : allocatable collector_name sk1 with_fees (previousTotalPower votes) votes.
Proof.
  pose proof shares_fine_sk1 as [Hs Ht]%andb_true_iff. rewrite forallb_forall in Hs. split.
  - exact sk1_reader.
  - exact with_fees_ok.
  - exists "fax". vm_compute. discriminate.
  - vm_compute. discriminate.
  - intros Hv. apply (f_equal length) in Hv. vm_compute in Hv. discriminate.
  - intros v Hv. exact (proj1 (Z.leb_le _ _) (Hs v (proj1 (list_elem_of_In _ _) Hv))).
  - exact (proj1 (Z.ltb_lt _ _) Ht).
Qed.

(** ** The theorems *)

Lemma registered_invariants_hold_witness :
  NonNegativeCommissionsInvariant allocated_state = false /\ CanWithdrawInvariant sk1 allocated_state = Ret false /\
  ModuleAccountInvariant allocated_state = Ret false.
Proof. exact (registered_invariants_hold _ _ collector_differs module_blacklisted sk1 allocated_state allocated_reachable). Defined.

Lemma withdraw_message_witness :
  if IsZero (GetValidatorAccumulatedCommission 1%N allocated_state)
  then NewHandler blacklist (MsgWithdrawValidatorCommission 1%N) allocated_state = Ret (allocated_state, inr ErrNoValidatorCommission)
  else exists whole s', runs (NewHandler blacklist (MsgWithdrawValidatorCommission 1%N)) allocated_state tt s' /\
    withdrawn 1%N whole allocated_state s'.
Proof. exact (withdraw_message _ _ collector_differs module_blacklisted sk1 allocated_state 1%N allocated_reachable). Defined.

Lemma proposer_before : previousProposer with_fees = Some None.
Proof. vm_compute. reflexivity. Qed.

(** With the validators of [sk1] and the votes of the example, the fees
    are split; with the vote of a stranger alone, the block panics. *)
Definition stranger : list VoteInfo := [mkVoteInfo 77%N 10].
Lemma stranger_power : previousTotalPower stranger ≠ 0.
Proof. vm_compute. discriminate. Qed.
Lemma stranger_unknown : voters sk1 stranger = [].
Proof. vm_compute. reflexivity. Qed.

Lemma BeginBlocker_outcomes_witness :
  (exists s', runs (begin with_fees) with_fees tt s' /\ previousProposer s' = Some (Some 1%N) /\
     allocated collector_name sk1 votes with_fees s') /\
  BeginBlocker collector_name sk1 0 5 stranger (Some 1%N) with_fees = Panic PanicDivide.
Proof.
  destruct demo_allocatable as [Hsk Hok Hf Hpow Hv Hs Ht]. split.
  - apply (BeginBlocker_outcomes collector_name collector_differs sk1 with_fees 0 5 votes None (Some 1%N));
      [exact Hsk|exact Hok|exact proposer_before|exact Hs|exact eq_refl|exact Hf|exact Hpow|exact Hv|exact Ht].
  - exact (proj1 (proj2 (proj2 (BeginBlocker_outcomes collector_name collector_differs sk1 with_fees 0 5 stranger None (Some 1%N)
      Hsk Hok proposer_before Hs) eq_refl Hf) stranger_power) stranger_unknown).
Defined.

Lemma community_is_50 : community with_fees = Some 50%N.
Proof. vm_compute. reflexivity. Qed.
Lemma community_not_collector : 50%N ≠ GetModuleAddress (W := bank) (C := coins) collector_name.
Proof. by intros [=]. Qed.

Lemma community_income_bounds_witness :
  let received := held allocated_state 50%N "fax" - held with_fees 50%N "fax" - pool with_fees "fax" in
  let paid_validators := Z.of_nat (length (voters sk1 votes)) + Z.of_nat (length (candidates sk1)) in
  fees collector_name with_fees "fax" * GetCommunityTax with_fees <= dec_one * received
  <= fees collector_name with_fees "fax" * GetCommunityTax with_fees + 3 * dec_one
     + paid_validators * (fees collector_name with_fees "fax" + dec_one).
Proof.
  exact (community_income_bounds _ collector_differs sk1 with_fees 0 5 votes None (Some 1%N) 50%N allocated_state "fax" eq_refl
    proposer_before demo_allocatable community_is_50 community_not_collector begin_runs).
Defined.

Lemma allocated_ok : ok sk1 allocated_state.
Proof. exact (proj2 (reachable_good _ _ collector_differs module_blacklisted _ allocated_reachable)). Qed.
Lemma proposer_after : previousProposer allocated_state = Some (Some 1%N).
Proof. vm_compute. reflexivity. Qed.
Lemma empty_fresh (w : bank) : fresh (empty_store w) /\ dworld (empty_store w) = w.
Proof. done. Qed.
Lemma genesis_roundtrip_witness : exists data s', runs ExportGenesis allocated_state data allocated_state /\
  runs (InitGenesis data) (empty_store (dworld allocated_state)) tt s' /\
  s' = allocated_state <| dworld := dworld s' |> /\ forall a d, held s' a d = held allocated_state a d.
Proof.
  exact (genesis_roundtrip sk1 allocated_state (empty_store (dworld allocated_state)) (Some 1%N) allocated_ok proposer_after
    (proj1 (empty_fresh _)) (proj2 (empty_fresh _))).
Defined.

End DistrExamples.
