(* ===== verification/EvmAdminExamples.v ===== *)
(** Proposals, invariants and genesis of the EVM module over finite maps. *)
From stdpp Require Import sorting.
From S2P Require Import Prelude.
From S2P Require Import Interfaces.
From S2P Require Import GoStrings.
From S2P Require Import Coins.
From S2P Require Import StateObject.
From S2P Require Import StateDB.
From S2P Require Import StateObjectSpec.
From S2P Require Import StateDBSnapshot.
From S2P Require Import StateDBExamples.
From S2P Require Import EthMsg.
From S2P Require Import Ante.
From S2P Require Import EthExamples.
From S2P Require Import Transition.
From S2P Require Import EvmKeeper.
From S2P Require Import TransitionSpec.
From S2P Require Import EvmMain.
From S2P Require Import EvmExamples.
From S2P Require Import EvmLists.
From S2P Require Import EvmGenesis.
From S2P Require Import EvmGenesisSpec.
From Stdlib Require Import DecimalString DecimalN.
Import StateDB StateObjectSpec StateDBSnapshot StateDBExamples EthExamples Transition EvmKeeper EvmMain EvmExamples MapInstances.
Import EvmLists EvmGenesis EvmGenesisSpec.

Module EvmAdminExamples.

(** ** Instances *)
Definition at_address (kv : Address * Account coins) : Account coins :=
  match kv.2 with AEth acc => AEth (acc <| acc_Address := kv.1 |>) | AOther b => AOther b end.
#[export] Instance map_AccountIteration : AccountIteration akeeper coins := fun ak => at_address <$> entries (ak_accounts ak).
#[export] Instance map_AccountIterationLaws : AccountIterationLaws akeeper coins.
Proof.
  intros ak acc. unfold IterateAccounts, map_AccountIteration. rewrite list_elem_of_fmap.
  change (GetAccount ak (acc_Address acc)) with (ak_get ak (acc_Address acc)). unfold ak_get. split.
  - intros ([a [acc'|b]] & [= ->] & Hin%elem_of_entries). cbn. by rewrite Hin.
  - intros Hg. destruct (ak_accounts ak !! acc_Address acc) as [[acc'|b]|] eqn:Hl; [|done..].
    exists (acc_Address acc, AEth acc'). split; [|by apply elem_of_entries]. unfold at_address. cbn. by injection Hg as ->.
Qed.
#[export] Instance toy_GenesisText : GenesisText := {|
  Address_String a := NilEmpty.string_of_uint (N.to_uint a);
  HexToAddress s := match NilEmpty.uint_of_string s with Some d => N.of_uint d | None => 0%N end;
  FromHex s := replicate (String.length s / 2 - 1) Byte.x00;
  ValidEip e := (0 <? e)%Z;
  MarshalZeroConfig := [Byte.x00];
|}.
#[export] Instance toy_GovLimits : GovLimits := {| MaxTitleLength := 140; MaxDescriptionLength := 5000 |}.
#[export] Instance toy_Bech32 : Bech32 := hex_string.

(** ** Proposals *)
Definition outsider : bytes := Address_Bytes 187%N.
Definition block_it : GovContent := ManageContractBlockedListProposal (mkListProposal "Block" "A thief" [outsider; Address_Bytes 188%N] true).
Definition pardon : GovContent := ManageContractBlockedListProposal (mkListProposal "Pardon" "Sorry" [Address_Bytes 188%N] false).
Definition allow : GovContent := ManageContractDeploymentWhitelistProposal (mkListProposal "Allow" "A builder" [Address_Bytes sender] true).
Definition after_one (sto : Stores store akeeper) (c : GovContent) : Stores store akeeper :=
  match NewManageContractDeploymentWhitelistProposalHandler (C := coins) sto c with inl sto' => sto' | inr _ => sto end.
Definition governed : Stores store akeeper := after_one (after_one (after_one stores0 block_it) pardon) allow.

Example proposals_valid :
  (BlockedListProposal_ValidateBasic (mkListProposal "Block" "A thief" [outsider; outsider] true),
   BlockedListProposal_ValidateBasic (mkListProposal "Block" "A thief" [outsider; Address_Bytes 188%N] true))
  = (Some ErrDuplicatedAddr, None).
Proof. vm_compute. reflexivity. Qed.
Example governed_lists :
  (GetContractBlockedList (open governed : db), GetContractDeploymentWhitelist (open governed : db)) = ([outsider], [Address_Bytes sender]).
Proof. vm_compute. reflexivity. Qed.

Lemma governed_passed : passed (C := coins) [block_it; pardon; allow] stores0 governed.
Proof.
  apply (passed_one _ _ _ (after_one stores0 block_it)); [reflexivity|].
  apply (passed_one _ _ _ (after_one (after_one stores0 block_it) pardon)); [reflexivity|].
  apply (passed_one _ _ _ governed); [reflexivity|constructor].
Qed.

Lemma lists_follow_proposals_witness :
  lists_of (C := coins) governed = foldl (fun l c => apply_content c l) (lists_of (C := coins) stores0) [block_it; pardon; allow] /\
  StronglySorted (fun x y => bytes_lt x y = true) (GetContractDeploymentWhitelist (open (C := coins) governed)) /\
  StronglySorted (fun x y => bytes_lt x y = true) (GetContractBlockedList (open (C := coins) governed)) /\
  same_but_lists stores0 governed /\
  (forall (tc : TxCtx meter) st txHash k k' x m, run_transition (C := coins) no_blacklist tc st txHash governed k = (k', Ret (inr x, m)) ->
     st_Recipient st = None -> EnableContractDeploymentWhitelist (sto_ps governed) = true ->
     Address_Bytes (st_Sender st) ∈ sp_deployers (lists_of (C := coins) governed)) /\
  (forall a, EnableContractBlockedList (sto_ps governed) = true -> Address_Bytes a ∈ sp_blocked (lists_of (C := coins) governed) ->
     GetCode (open (C := coins) governed) a = Panic (PanicAddr a)).
Proof. exact (lists_follow_proposals no_blacklist [block_it; pardon; allow] stores0 governed governed_passed). Defined.

(** ** Invariants and genesis *)
Lemma keeper_invariants_vacuous_witness :
  BalanceInvariant (C := coins) stores0 = Ret false /\ NonceInvariant (C := coins) stores0 = Ret false.
Proof. exact (keeper_invariants_vacuous (C := coins) stores0 payers_ok). Defined.

Lemma stores0_config : GetChainConfig (sto_kv stores0) = Ret (Some DefaultChainConfig).
Proof. vm_compute. reflexivity. Qed.
Lemma genesis_export_limits_witness :
  if existsb (blocked stores0) (eth_accounts (IterateAccounts (sto_ak stores0)))
  then exists a, ExportGenesis (C := coins) stores0 = Panic (PanicAddr a)
  else exists gs, ExportGenesis (C := coins) stores0 = Ret gs /\
    gs_Accounts gs = exported (sto_kv stores0) <$> eth_accounts (IterateAccounts (sto_ak stores0)) /\
    gs_ContractDeploymentWhitelist gs = GetContractDeploymentWhitelist (open stores0 : db) /\
    gs_ContractBlockedList gs = GetContractBlockedList (open stores0 : db) /\
    gs_ChainConfig gs = Some DefaultChainConfig /\ gs_Params gs = sto_ps stores0 /\
    forall acc, AEth acc ∈ IterateAccounts (sto_ak stores0) -> has_no_code acc -> exists e, GenesisState_Validate gs = Some e.
Proof.
  pose proof (genesis_export_limits (C := coins) stores0 (Some DefaultChainConfig) payers_ok stores0_config) as H. exact H.
Defined.
(** The only account has no code, so the export is rejected. *)
Example payer_rejected : (gs ← ExportGenesis (C := coins) stores0; Ret (GenesisState_Validate gs))
  = Ret (Some (EInvalidAccount (Address_String sender) EEmptyCode)).
Proof. vm_compute. reflexivity. Qed.

(** A contract with code and one slot, on the blocked list or not. *)
Definition contract_hash : bytes := keccak256 [Byte.x60; Byte.x01].
Definition contract_account : EthAccount coins := mkEthAccount _ 187%N ∅ None 1 1 (Some contract_hash).
Definition with_contract : Stores store akeeper :=
  mkStores _ _ (SetStateDirectly (kv_set (sto_kv stores0) (KeyPrefixCode ++ contract_hash) [Byte.x60; Byte.x01]) 187%N 5%N 7%N)
    (mkAkeeper {[ 187%N := AEth contract_account ]} 2) open_params.
Example contract_roundtrip :
  (gs ← ExportGenesis (C := coins) with_contract;
   sto ← InitGenesis no_blacklist gs (mkStores _ _ ∅ (sto_ak with_contract) DefaultParams);
   gs' ← ExportGenesis (C := coins) sto;
   Ret (bool_decide (gs_Accounts gs = []), GenesisState_Validate gs, bool_decide (kv_get (sto_kv sto) (KeyPrefixCode ++ contract_hash) = Some [Byte.x60; Byte.x01]),
        length (gs_Accounts gs')))
  = Ret (false, None, true, 1).
Proof. vm_compute. reflexivity. Qed.
Example blocked_contract_stops_export : ExportGenesis (C := coins) (after_one with_contract block_it) = Panic (PanicAddr 187%N).
Proof. vm_compute. reflexivity. Qed.

End EvmAdminExamples.
