(* ===== verification/Token.v ===== *)
(** The token module (token/keeper.go, handler.go, genesis.go, types):
    issuing, minting, burning, sending and handing over tokens.

    The module's store is a record of tables; coins, the bank and the supply
    keeper are the Cosmos SDK's ([TokenBank]). *)
From S2P Require Import Prelude.
From S2P Require Import Interfaces.
From S2P Require Import Coins.
From S2P Require Import Effects.
From S2P Require Import GoStrings.
From stdpp Require Import sorting.
Local Open Scope Z_scope.

(** [sdk.AccAddress]; an empty one is [None]. *)
Abbreviation AccAddress := (option Address).

(** [sdk.SysCoin] *)
Record SysCoin := mkSysCoin { coin_Denom : Denom; coin_Amount : Dec }.

(** ** Third-party code *)

(** [sdk.SysCoins] as lists, parsing and validity. *)
Class SysCoins (C : Type) := {
  coin_list : C -> list (Denom * Dec);
  ToCoins : SysCoin -> C;
  coins_IsValid : C -> bool;
  coins_IsAllPositive : C -> bool;
  coin_IsValid : SysCoin -> bool;
  ValidateDenom : string -> bool;
  NewDecFromStr : string -> option Dec;
  (** [None] is a panic *)
  MustParseCoins : string -> string -> option C;
  Dec_String : Dec -> string;
}.
Class SysCoinsLaws (C : Type) `{SdkCoins C, SysCoins C} := {
  coin_list_sorted c : StronglySorted (fun a b => String.ltb a b = true) (coin_list c).*1;
  coin_list_amount c d x : (d, x) ∈ coin_list c <-> AmountOf c d = x /\ x ≠ 0;
  AmountOf_ToCoins d x d' : 0 <= x -> AmountOf (ToCoins (mkSysCoin d x)) d' = if decide (d = d') then x else 0;
  MustParseCoins_amount d str c x d' : MustParseCoins d str = Some c -> NewDecFromStr str = Some x ->
    AmountOf c d' = if decide (d = d') then x else 0;
  NewDecFromStr_String x : NewDecFromStr (Dec_String x) = Some x;
  coin_IsValid_nonneg k : coin_IsValid k = true -> 0 <= coin_Amount k;
}.

(** The bank and supply keepers, and what is read of accounts; [None] is an
    error.  A module account is the account at the module's address. *)
Class TokenBank (W C : Type) := {
  module_address : string -> Address;
  bank_GetCoins : W -> Address -> C;
  GetSupplyByDenom : W -> Denom -> Dec;
  MintCoins : W -> string -> C -> option W;
  BurnCoins : W -> string -> C -> option W;
  SendCoinsFromModuleToAccount : W -> string -> AccAddress -> C -> option W;
  SendCoinsFromAccountToModule : W -> AccAddress -> string -> C -> option W;
  SendCoins : W -> AccAddress -> AccAddress -> C -> option W;
  GetSendEnabled : W -> bool;
  BlacklistedAddr : AccAddress -> bool;
  (** the code hash of an [*EthAccount]; [None] for no account or another kind *)
  EthCodeHash : W -> AccAddress -> option (option bytes);
}.

(** [tmhash.Sum] of the transaction's bytes. *)
Class TmHash := tmhash_Sum : bytes -> bytes.

(** ** Data *)
Record Token := mkToken {
  tk_Description : string; tk_Symbol : string; tk_OriginalSymbol : string; tk_WholeName : string;
  tk_OriginalTotalSupply : Dec; tk_Type : Z; tk_Owner : AccAddress; tk_Mintable : bool;
}.
#[export] Instance Token_eta : Eta Token := fun r =>
  mkToken (tk_Description r) (tk_Symbol r) (tk_OriginalSymbol r) (tk_WholeName r) (tk_OriginalTotalSupply r) (tk_Type r)
    (tk_Owner r) (tk_Mintable r).
(** The zero value a lookup of an unknown symbol returns. *)
Definition no_token : Token := mkToken "" "" "" "" 0 0 None false.

(** Times are in nanoseconds. *)
Record ConfirmOwnership := mkConfirm { co_Symbol : string; co_Address : AccAddress; co_Expire : Z }.
Record TokenParams := mkTokenParams {
  FeeIssue : SysCoin; FeeMint : SysCoin; FeeBurn : SysCoin; FeeModify : SysCoin; FeeChown : SysCoin; OwnershipConfirmWindow : Z;
}.
Record TokStore {W C : Type} := mkTok {
  tokens : gmap string Token;
  tokenNumber : option Z;                          (* uint64 *)
  userTokens : gset (AccAddress * string);
  lockedCoins : gmap Address C;
  lockedFees : gmap Address C;
  confirms : gmap string ConfirmOwnership;
  tok_params : TokenParams;
  tworld : W;
}.
Arguments TokStore W C : clear implicits.
#[export] Instance TokStore_eta W C : Eta (TokStore W C) := fun r =>
  mkTok W C (tokens r) (tokenNumber r) (userTokens r) (lockedCoins r) (lockedFees r) (confirms r) (tok_params r) (tworld r).

Record TransferUnit {C : Type} := mkTransfer { tu_To : AccAddress; tu_Coins : C }.
Arguments TransferUnit C : clear implicits.
Record MsgTokenIssue := mkMsgIssue {
  iss_Description : string; iss_Symbol : string; iss_OriginalSymbol : string; iss_WholeName : string; iss_TotalSupply : string;
  iss_Owner : AccAddress; iss_Mintable : bool;
}.
Record MsgTokenModify := mkMsgModify {
  mod_Owner : AccAddress; mod_Symbol : string; mod_Description : string; mod_WholeName : string;
  mod_IsDescriptionModified : bool; mod_IsWholeNameModified : bool;
}.
Inductive TokenMsg (C : Type) :=
  | TmIssue (msg : MsgTokenIssue)
  | TmBurn (amount : SysCoin) (owner : AccAddress)
  | TmMint (amount : SysCoin) (owner : AccAddress)
  | TmMultiSend (from : AccAddress) (transfers : list (TransferUnit C))
  | TmSend (from to : AccAddress) (amount : C)
  | TmTransferOwnership (from to : AccAddress) (symbol : string)
  | TmConfirmOwnership (symbol : string) (address : AccAddress)
  | TmModify (msg : MsgTokenModify)
  | TmOther.
Arguments TmIssue {C} msg.
Arguments TmBurn {C} amount owner.
Arguments TmMint {C} amount owner.
Arguments TmMultiSend {C} from transfers.
Arguments TmSend {C} from to amount.
Arguments TmTransferOwnership {C} from to symbol.
Arguments TmConfirmOwnership {C} symbol address.
Arguments TmModify {C} msg.
Arguments TmOther {C}.

Record CoinInfo := mkCoinInfo { ci_Symbol : string; ci_Available : string; ci_Locked : string }.
Record Currency := mkCurrency { cu_Description : string; cu_Symbol : string; cu_TotalSupply : Dec }.
(** A token with its supply, as the queries answer ([TokenResp]). *)
Record TokenResp := mkTokenResp { tr_token : Token; tr_TotalSupply : Dec }.
Record TokenGenesis {C : Type} := mkTokenGenesis {
  tg_Params : TokenParams; tg_Tokens : list Token; tg_LockedAssets : list (Address * C); tg_LockedFees : list (Address * C);
}.
Arguments TokenGenesis C : clear implicits.

(** Errors without the texts made of coins. *)
Inductive tok_error :=
  | ErrBlockedContractRecipient (to : AccAddress) | ErrBlockedRecipient (to : AccAddress) | ErrSendDisabled
  | ErrSendCoinsFromAccountToModuleFailed | ErrUnrecognizedLockCoinsType (t : Z) | ErrFailedToUnlockAddress (a : Address)
  | ErrInvalidCoins | ErrGetConfirmOwnership | ErrUpdateLockedCoins | ErrUserInputSymbolIsEmpty
  | ErrNotAllowedOriginalSymbol (symbol : string) | ErrWholeNameIsNotValid | ErrDescLenBiggerThanLimit
  | ErrTotalSupplyOutOfRange | ErrAmountBiggerThanTotalSupplyUpperbound | ErrAmountIsNotValid | ErrMsgSymbolIsEmpty
  | ErrMintCoinsFailed | ErrSendCoinsFromModuleToAccountFailed | ErrSendCoinsFromAccountToAccountFailed (e : tok_error)
  | ErrBurnCoinsFailed | ErrConfirmOwnershipNotExistOrBlockTimeAfter | ErrWholeNameAndDescriptionIsNotModified
  | ErrTokenIsNotMintable | ErrMsgTransfersAmountBiggerThanSendLimit | ErrInputOwnerIsNotEqualTokenOwner (a : AccAddress)
  | ErrInputFromAddressIsNotEqualTokenInfoOwner (a : AccAddress) | ErrConfirmOwnershipAddressNotEqualsMsgAddress (a : AccAddress)
  | ErrAddressIsRequired | ErrGetDecimalFromDecimalStringFailed
  | ErrTotalsupplyExceedsTheUpperLimit (supply : Dec) | ErrInsufficientCoins | ErrBankSend | ErrUnknownRequest | ErrNewDecFromStr | ErrCreateAddrFromBech32Failed (s : string).

(** The entries of a table in the order of their symbols. *)
Definition sym_le {A} (x y : string * A) : Prop := strings.String.le x.1 y.1.
#[export] Instance sym_le_dec {A} : RelDecision (@sym_le A).
Proof. intros x y. unfold sym_le. apply _. Defined.
Definition sym_entries {A} (m : gmap string A) : list (string * A) := merge_sort sym_le (map_to_list m).

Module Token.

Definition ModuleName : string := "token".
Definition DescLenLimit : nat := 256.
Definition MultiSendLimit : nat := 1000.
Definition TotalSupplyUpperbound : Z := 90000000000.
(** [sdk.NewDec(types.TotalSupplyUpperbound)] *)
Definition supply_bound : Dec := TotalSupplyUpperbound * dec_one.
Definition LockCoinsTypeQuantity : Z := 1.
Definition LockCoinsTypeFee : Z := 2.
(** [common.BlackHoleAddress] *)
Definition BlackHoleAddress : AccAddress := Some 0%N.

(** *** util.go: the regular expressions *)
Definition NotAllowedOriginSymbol (name : string) : bool := String.prefix "ammswap" name.
(** [^[a-z][a-z0-9]{0,5}$] *)
Definition regOriginalSymbol (name : string) : bool :=
  match name with
  | EmptyString => false
  | String c rest => is_lower_letter c && string_forallb (fun c => is_lower_letter c || is_decimal_digit c) rest && (String.length rest <=? 5)%nat
  end.
Definition ValidOriginalSymbol (name : string) : bool := negb (NotAllowedOriginSymbol name) && regOriginalSymbol name.
(** [^[a-zA-Z0-9[:space:]]{1,30}$] *)
Definition wholeNameValid (name : string) : bool :=
  string_forallb (fun c => is_lower_letter c || is_upper_letter c || is_decimal_digit c || is_space c) name
  && (1 <=? String.length name)%nat && (String.length name <=? 30)%nat.

Section Token.
Context {W C : Type} `{SdkCoins C, DecCoins C, SysCoins C, TokenBank W C, Keccak, TmHash}.
(** The name of the fee collector ([NewKeeper]). *)
Context (feeCollectorName : string).
(** [sdk.AccAddressFromBech32] *)
(** [common.NativeToken], which is [sdk.DefaultBondDenom] *)
Context (NativeToken : Denom).
Context (AccAddressFromBech32 : string -> option Address).
Abbreviation tok := (TokStore W C).
Abbreviation E := (eff (TokStore W C) tok_error).
Implicit Types (s : tok) (c : C).

(** *** msgs.go: basic checks *)
Definition empty (a : AccAddress) : bool := bool_decide (a = None).
Definition MsgTokenIssue_ValidateBasic (msg : MsgTokenIssue) : option tok_error :=
  if empty (iss_Owner msg) then Some ErrAddressIsRequired
  else if (String.length (iss_OriginalSymbol msg) =? 0)%nat then Some ErrUserInputSymbolIsEmpty
  else if negb (ValidOriginalSymbol (iss_OriginalSymbol msg)) then Some (ErrNotAllowedOriginalSymbol (iss_OriginalSymbol msg))
  else if negb (wholeNameValid (iss_WholeName msg)) then Some ErrWholeNameIsNotValid
  else if (DescLenLimit <? String.length (iss_Description msg))%nat then Some ErrDescLenBiggerThanLimit
  else match NewDecFromStr (iss_TotalSupply msg) with
       | None => Some ErrNewDecFromStr
       | Some totalSupply =>
           if (supply_bound <? totalSupply) || (totalSupply <=? 0) then Some ErrTotalSupplyOutOfRange else None
       end.
Definition MsgTokenBurn_ValidateBasic (amount : SysCoin) (owner : AccAddress) : option tok_error :=
  if empty owner then Some ErrAddressIsRequired
  else if negb (coin_IsValid amount) then Some ErrInsufficientCoins else None.
Definition MsgTokenMint_ValidateBasic (amount : SysCoin) (owner : AccAddress) : option tok_error :=
  if empty owner then Some ErrAddressIsRequired
  else if supply_bound <? coin_Amount amount then Some ErrAmountBiggerThanTotalSupplyUpperbound
  else if negb (coin_IsValid amount) then Some ErrAmountIsNotValid else None.
Fixpoint check_transfers (transfers : list (TransferUnit C)) : option tok_error :=
  match transfers with
  | [] => None
  | t :: rest =>
      if negb (coins_IsAllPositive (tu_Coins t)) || negb (coins_IsValid (tu_Coins t)) then Some ErrInvalidCoins
      else if empty (tu_To t) then Some ErrAddressIsRequired
      else check_transfers rest
  end.
Definition MsgMultiSend_ValidateBasic (from : AccAddress) (transfers : list (TransferUnit C)) : option tok_error :=
  if empty from then Some ErrAddressIsRequired
  else if (MultiSendLimit <? length transfers)%nat then Some ErrMsgTransfersAmountBiggerThanSendLimit
  else check_transfers transfers.
Definition MsgSend_ValidateBasic (from to : AccAddress) (amount : C) : option tok_error :=
  if empty from then Some ErrAddressIsRequired
  else if empty to then Some ErrAddressIsRequired
  else if negb (coins_IsValid amount) then Some ErrInvalidCoins
  else if negb (coins_IsAllPositive amount) then Some ErrInsufficientCoins else None.
Definition MsgTransferOwnership_ValidateBasic (from to : AccAddress) (symbol : string) : option tok_error :=
  if empty from then Some ErrAddressIsRequired
  else if empty to then Some ErrAddressIsRequired
  else if (String.length symbol =? 0)%nat then Some ErrMsgSymbolIsEmpty
  else if negb (ValidateDenom symbol) then Some ErrConfirmOwnershipNotExistOrBlockTimeAfter else None.
Definition MsgConfirmOwnership_ValidateBasic (symbol : string) (address : AccAddress) : option tok_error :=
  if empty address then Some ErrAddressIsRequired
  else if (String.length symbol =? 0)%nat then Some ErrMsgSymbolIsEmpty
  else if negb (ValidateDenom symbol) then Some (ErrNotAllowedOriginalSymbol symbol) else None.
Definition MsgTokenModify_ValidateBasic (msg : MsgTokenModify) : option tok_error :=
  if empty (mod_Owner msg) then Some ErrAddressIsRequired
  else if (String.length (mod_Symbol msg) =? 0)%nat then Some ErrMsgSymbolIsEmpty
  else if negb (ValidateDenom (mod_Symbol msg)) then Some (ErrNotAllowedOriginalSymbol (mod_Symbol msg))
  else if mod_IsWholeNameModified msg && negb (wholeNameValid (mod_WholeName msg)) then Some ErrWholeNameIsNotValid
  else if mod_IsDescriptionModified msg && (DescLenLimit <? String.length (mod_Description msg))%nat then Some ErrDescLenBiggerThanLimit
  else None.
Definition ValidateBasic (msg : TokenMsg C) : option tok_error :=
  match msg with
  | TmIssue msg => MsgTokenIssue_ValidateBasic msg
  | TmBurn amount owner => MsgTokenBurn_ValidateBasic amount owner
  | TmMint amount owner => MsgTokenMint_ValidateBasic amount owner
  | TmMultiSend from transfers => MsgMultiSend_ValidateBasic from transfers
  | TmSend from to amount => MsgSend_ValidateBasic from to amount
  | TmTransferOwnership from to symbol => MsgTransferOwnership_ValidateBasic from to symbol
  | TmConfirmOwnership symbol address => MsgConfirmOwnership_ValidateBasic symbol address
  | TmModify msg => MsgTokenModify_ValidateBasic msg
  | TmOther => None
  end.

(** *** keeper.go: the tables *)
Definition GetTokenInfo (symbol : string) s : Token := default no_token (tokens s !! symbol).
Definition GetTokenTotalSupply (symbol : string) s : Dec := GetSupplyByDenom (tworld s) symbol.
Definition TokenExist (symbol : string) s : bool := bool_decide (is_Some (tokens s !! symbol)).
Definition GetTokensInfo s : list Token := (sym_entries (tokens s)).*2.
Definition user_symbols (owner : AccAddress) s : gmap string unit :=
  set_to_map (fun os => (os.2, tt)) (filter (fun os => os.1 = owner) (userTokens s)).
(** The owner is not empty where the program asks: for the empty one the
    code's scan of the prefix would run over the entries of all owners. *)
Definition GetUserTokensInfo (owner : AccAddress) s : list Token :=
  (fun sym => GetTokenInfo sym.1 s) <$> sym_entries (user_symbols owner s).
Definition GetCurrenciesInfo s : list Currency :=
  (fun t => mkCurrency (tk_Description t.2) (tk_Symbol t.2) (GetSupplyByDenom (tworld s) (tk_Symbol t.2))) <$> sym_entries (tokens s).
Definition DeleteUserToken (owner : AccAddress) (symbol : string) s : tok :=
  s <| userTokens := userTokens s ∖ {[(owner, symbol)]} |>.
Definition getTokenNum s : Z := default 0 (tokenNumber s).
Definition NewToken (token : Token) s : tok :=
  let s := s <| tokens := <[tk_Symbol token := token]> (tokens s) |> in
  let s := s <| userTokens := {[(tk_Owner token, tk_Symbol token)]} ∪ userTokens s |> in
  s <| tokenNumber := Some (u64 (getTokenNum s + 1)) |>.
Definition UpdateToken (token : Token) s : tok := s <| tokens := <[tk_Symbol token := token]> (tokens s) |>.
Definition GetConfirmOwnership (symbol : string) s : option ConfirmOwnership := confirms s !! symbol.
Definition SetConfirmOwnership (co : ConfirmOwnership) s : tok := s <| confirms := <[co_Symbol co := co]> (confirms s) |>.
Definition DeleteConfirmOwnership (symbol : string) s : tok := s <| confirms := delete symbol (confirms s) |>.
Definition GetParams s : TokenParams := tok_params s.
Definition SetParams (p : TokenParams) s : tok := s <| tok_params := p |>.

(** *** keeper.go: sending and locking *)

(** A call of the bank or supply keeper, and the error for its failure. *)
Definition bank (f : W -> option W) (err : tok_error) : E unit := fun s =>
  match f (tworld s) with
  | Some w => Ret (s <| tworld := w |>, inl tt)
  | None => Ret (s, inr err)
  end.

Definition IsContractAddress (addr : AccAddress) s : bool :=
  match EthCodeHash (tworld s) addr with
  | Some codeHash => negb (bool_decide (default [] codeHash = keccak256 []))
  | None => false
  end.
Definition SendCoinsFromAccountToAccount (from to : AccAddress) (amt : C) : E unit :=
  if BlacklistedAddr to then throw (ErrBlockedRecipient to)
  else
    contract ← gets (IsContractAddress to);
    if contract : bool then throw (ErrBlockedContractRecipient to)
    else bank (fun w => SendCoins w from to amt) ErrBankSend.

(** The table of a kind of lock, and writing an entry of it. *)
Definition lock_table (t : Z) s : option (gmap Address C) :=
  if t =? LockCoinsTypeQuantity then Some (lockedCoins s)
  else if t =? LockCoinsTypeFee then Some (lockedFees s) else None.
Definition put_lock (t : Z) (addr : Address) (newCoins : C) s : tok :=
  let put m := if CoinsEmpty newCoins then delete addr m else <[addr := newCoins]> m in
  if t =? LockCoinsTypeQuantity then s <| lockedCoins := put (lockedCoins s) |> else s <| lockedFees := put (lockedFees s) |>.
Definition updateLockedCoins (addr : Address) (cs : C) (doAdd : bool) (lockCoinsType : Z) : E unit :=
  table ← gets (lock_table lockCoinsType);
  match table with
  | None => throw (ErrUnrecognizedLockCoinsType lockCoinsType)
  | Some m =>
      match m !! addr with
      | None =>
          if doAdd then modify (put_lock lockCoinsType addr cs) else throw (ErrFailedToUnlockAddress addr)
      | Some oldCoins =>
          if doAdd then modify (put_lock lockCoinsType addr (CoinsAdd oldCoins cs))
          else match CoinsSub oldCoins cs with
               | Some newCoins => modify (put_lock lockCoinsType addr newCoins)
               | None => throw (ErrFailedToUnlockAddress addr)
               end
      end
  end.
Definition LockCoins (addr : Address) (cs : C) (lockCoinsType : Z) : E unit :=
  _ ← bank (fun w => SendCoinsFromAccountToModule w (Some addr) ModuleName cs) ErrSendCoinsFromAccountToModuleFailed;
  updateLockedCoins addr cs true lockCoinsType.
Definition UnlockCoins (addr : Address) (cs : C) (lockCoinsType : Z) : E unit :=
  _ ← updateLockedCoins addr cs false lockCoinsType;
  bank (fun w => SendCoinsFromModuleToAccount w ModuleName (Some addr) cs) ErrSendCoinsFromModuleToAccountFailed.
Definition BalanceAccount (addr : Address) (outputCoins inputCoins : C) : E unit :=
  _ ← when (negb (IsZero outputCoins))
        (catch (updateLockedCoins addr outputCoins false LockCoinsTypeQuantity) (fun _ => throw ErrUpdateLockedCoins));
  when (negb (IsZero inputCoins))
    (bank (fun w => SendCoinsFromModuleToAccount w ModuleName (Some addr) inputCoins) ErrSendCoinsFromModuleToAccountFailed).
Definition GetLockedCoins (addr : Address) s : C := default coins_empty (lockedCoins s !! addr).
Definition GetAllLockedCoins s : list (Address * C) := entries (lockedCoins s).
Definition IterateLockedFees s : list (Address * C) := entries (lockedFees s).
(** [GetCoins] *)
Definition Keeper_GetCoins (addr : Address) s : C := bank_GetCoins (tworld s) addr.

(** [addTokenSuffix]: the loop runs down from [n - 1]. *)
Fixpoint suffix_loop (originalSymbol hash : string) (n : nat) s : option string :=
  match n with
  | O => None
  | S i =>
      let name := (originalSymbol ++ "-" ++ ToLower (String.substring (3 * i) 3 hash))%string in
      if negb (ValidateDenom name) then None
      else if TokenExist name s then suffix_loop originalSymbol hash i s else Some name
  end.
Definition addTokenSuffix (txBytes : bytes) (originalSymbol : string) s : option string :=
  let hash := hex_string (tmhash_Sum txBytes) in
  suffix_loop originalSymbol hash (String.length hash / 3)%nat s.

(** *** handler.go *)

(** The fee of a message. *)
Definition deduct_fee (payer : AccAddress) (fee : TokenParams -> SysCoin) : E unit :=
  params ← gets GetParams;
  bank (fun w => SendCoinsFromAccountToModule w payer feeCollectorName (ToCoins (fee params))) ErrSendCoinsFromAccountToModuleFailed.

Definition handleMsgTokenIssue (txBytes : bytes) (msg : MsgTokenIssue) : E unit :=
  match NewDecFromStr (iss_TotalSupply msg) with
  | None => throw ErrGetDecimalFromDecimalStringFailed
  | Some totalSupply =>
      if supply_bound <? totalSupply then throw ErrAmountBiggerThanTotalSupplyUpperbound
      else
        newName ← gets (addTokenSuffix txBytes (iss_OriginalSymbol msg));
        match newName with
        | None => throw ErrInvalidCoins
        | Some newName =>
            let token := mkToken (iss_Description msg) newName (iss_OriginalSymbol msg) (iss_WholeName msg) totalSupply 0
                           (iss_Owner msg) (iss_Mintable msg) in
            cs ← or_panic (PanicMsg "MustParseCoins") (MustParseCoins newName (iss_TotalSupply msg));
            _ ← bank (fun w => MintCoins w ModuleName cs) ErrMintCoinsFailed;
            _ ← bank (fun w => SendCoinsFromModuleToAccount w ModuleName (tk_Owner token) cs) ErrSendCoinsFromModuleToAccountFailed;
            _ ← modify (NewToken token);
            deduct_fee (tk_Owner token) FeeIssue
        end
  end.

Definition handleMsgTokenBurn (amount : SysCoin) (owner : AccAddress) : E unit :=
  token ← gets (GetTokenInfo (coin_Denom amount));
  if negb (bool_decide (tk_Owner token = owner)) then throw (ErrInputOwnerIsNotEqualTokenOwner owner)
  else
    let subCoins := ToCoins amount in
    _ ← bank (fun w => SendCoinsFromAccountToModule w owner ModuleName subCoins) ErrSendCoinsFromAccountToModuleFailed;
    _ ← bank (fun w => BurnCoins w ModuleName subCoins) ErrBurnCoinsFailed;
    deduct_fee owner FeeBurn.

Definition handleMsgTokenMint (amount : SysCoin) (owner : AccAddress) : E unit :=
  token ← gets (GetTokenInfo (coin_Denom amount));
  if negb (bool_decide (tk_Owner token = owner)) then throw (ErrInputOwnerIsNotEqualTokenOwner owner)
  else if negb (tk_Mintable token) then throw ErrTokenIsNotMintable
  else
    totalSupply ← gets (fun s => GetSupplyByDenom (tworld s) (coin_Denom amount));
    let totalSupplyAfterMint := totalSupply + coin_Amount amount in
    if supply_bound <? totalSupplyAfterMint then throw (ErrTotalsupplyExceedsTheUpperLimit totalSupplyAfterMint)
    else
      let mintCoins := ToCoins amount in
      _ ← bank (fun w => MintCoins w ModuleName mintCoins) ErrMintCoinsFailed;
      _ ← bank (fun w => SendCoinsFromModuleToAccount w ModuleName owner mintCoins) ErrSendCoinsFromModuleToAccountFailed;
      deduct_fee owner FeeMint.

(** A failed transfer is wrapped in the error of the message. *)
Definition send_or_fail (from to : AccAddress) (amt : C) : E unit :=
  catch (SendCoinsFromAccountToAccount from to amt) (fun e => throw (ErrSendCoinsFromAccountToAccountFailed e)).
Definition handleMsgMultiSend (from : AccAddress) (transfers : list (TransferUnit C)) : E unit :=
  enabled ← gets (fun s => GetSendEnabled (tworld s));
  if negb enabled then throw ErrSendDisabled
  else for_each transfers (fun t => send_or_fail from (tu_To t) (tu_Coins t)).
Definition handleMsgSend (from to : AccAddress) (amount : C) : E unit :=
  enabled ← gets (fun s => GetSendEnabled (tworld s));
  if negb enabled then throw ErrSendDisabled else send_or_fail from to amount.

Definition handleMsgTransferOwnership (blockTime : Z) (from to : AccAddress) (symbol : string) : E unit :=
  tokenInfo ← gets (GetTokenInfo symbol);
  if negb (bool_decide (tk_Owner tokenInfo = from)) then throw (ErrInputFromAddressIsNotEqualTokenInfoOwner from)
  else
    confirmOwnership ← gets (GetConfirmOwnership symbol);
    if match confirmOwnership with Some co => negb (co_Expire co <? blockTime) | None => false end
    then throw ErrConfirmOwnershipNotExistOrBlockTimeAfter
    else
      _ ← (if bool_decide (to = BlackHoleAddress) then
             _ ← modify (DeleteUserToken (tk_Owner tokenInfo) (tk_Symbol tokenInfo));
             modify (NewToken (tokenInfo <| tk_Owner := to |>))
           else
             params ← gets GetParams;
             modify (SetConfirmOwnership (mkConfirm symbol to (blockTime + OwnershipConfirmWindow params))));
      deduct_fee from FeeChown.

Definition handleMsgConfirmOwnership (blockTime : Z) (symbol : string) (address : AccAddress) : E unit :=
  confirmOwnership ← gets (GetConfirmOwnership symbol);
  match confirmOwnership with
  | None => throw ErrGetConfirmOwnership
  | Some co =>
      if co_Expire co <? blockTime then
        _ ← modify (DeleteConfirmOwnership (co_Symbol co)); throw ErrConfirmOwnershipNotExistOrBlockTimeAfter
      else if negb (bool_decide (co_Address co = address)) then throw (ErrConfirmOwnershipAddressNotEqualsMsgAddress address)
      else
        tokenInfo ← gets (GetTokenInfo symbol);
        _ ← modify (DeleteUserToken (tk_Owner tokenInfo) (tk_Symbol tokenInfo));
        _ ← modify (NewToken (tokenInfo <| tk_Owner := address |>));
        modify (DeleteConfirmOwnership (co_Symbol co))
  end.

Definition handleMsgTokenModify (msg : MsgTokenModify) : E unit :=
  token ← gets (GetTokenInfo (mod_Symbol msg));
  if negb (bool_decide (tk_Owner token = mod_Owner msg)) then throw (ErrInputOwnerIsNotEqualTokenOwner (mod_Owner msg))
  else if negb (mod_IsWholeNameModified msg) && negb (mod_IsDescriptionModified msg)
  then throw ErrWholeNameAndDescriptionIsNotModified
  else
    let token := if mod_IsWholeNameModified msg then token <| tk_WholeName := mod_WholeName msg |> else token in
    let token := if mod_IsDescriptionModified msg then token <| tk_Description := mod_Description msg |> else token in
    _ ← modify (UpdateToken token);
    deduct_fee (mod_Owner msg) FeeModify.

Definition NewTokenHandler (blockTime : Z) (txBytes : bytes) (msg : TokenMsg C) : E unit :=
  match msg with
  | TmIssue msg => handleMsgTokenIssue txBytes msg
  | TmBurn amount owner => handleMsgTokenBurn amount owner
  | TmMint amount owner => handleMsgTokenMint amount owner
  | TmMultiSend from transfers => handleMsgMultiSend from transfers
  | TmSend from to amount => handleMsgSend from to amount
  | TmTransferOwnership from to symbol => handleMsgTransferOwnership blockTime from to symbol
  | TmConfirmOwnership symbol address => handleMsgConfirmOwnership blockTime symbol address
  | TmModify msg => handleMsgTokenModify msg
  | TmOther => throw ErrUnknownRequest
  end.

(** *** genesis.go, params.go *)
(** 24 hours *)
Definition DefaultOwnershipConfirmWindow : Z := 24 * 3600 * 10 ^ 9.
Definition native_fee (n : Z) : SysCoin := mkSysCoin NativeToken (n * dec_one).
Definition DefaultParams : TokenParams :=
  mkTokenParams (native_fee 2500) (native_fee 10) (native_fee 10) (native_fee 0) (native_fee 10) DefaultOwnershipConfirmWindow.
(** The owner is [DefaultTokenOwner]. *)
Definition defaultGenesisStateOKT (addr : Address) : Token :=
  mkToken "Token" NativeToken NativeToken "FAX" (2009010301 * dec_one) 0 (Some addr) true.
Definition defaultGenesisState (addr : Address) : TokenGenesis C :=
  mkTokenGenesis C DefaultParams [defaultGenesisStateOKT addr] [] [].
Fixpoint validateGenesis_tokens (l : list Token) : option tok_error :=
  match l with
  | [] => None
  | token :: l' =>
      match MsgTokenIssue_ValidateBasic
              (mkMsgIssue (tk_Description token) (tk_Symbol token) (tk_OriginalSymbol token) (tk_WholeName token)
                 (Dec_String (tk_OriginalTotalSupply token)) (tk_Owner token) (tk_Mintable token)) with
      | Some err => Some err
      | None => validateGenesis_tokens l'
      end
  end.
Definition validateGenesis (data : TokenGenesis C) : option tok_error := validateGenesis_tokens (tg_Tokens data).

(** An error of [updateLockedCoins] is a panic here. *)
Definition or_die (m : E unit) : E unit := catch m (fun _ => panic (PanicMsg "updateLockedCoins")).
Definition initGenesis (data : TokenGenesis C) : E unit :=
  _ ← modify (SetParams (tg_Params data));
  _ ← for_each (tg_Tokens data) (fun token => modify (NewToken token));
  _ ← for_each (tg_LockedAssets data) (fun lock => or_die (updateLockedCoins lock.1 lock.2 true LockCoinsTypeQuantity));
  for_each (tg_LockedFees data) (fun lock => or_die (updateLockedCoins lock.1 lock.2 true LockCoinsTypeFee)).
Definition ExportGenesis s : TokenGenesis C :=
  mkTokenGenesis C (GetParams s) (GetTokensInfo s) (GetAllLockedCoins s) (IterateLockedFees s).

(** *** Coins of an account ([types/util.go], [querier.go]) *)
Definition merge_available (m : gmap string CoinInfo) (coin : Denom * Dec) : gmap string CoinInfo :=
  match m !! coin.1 with
  | Some _ => m
  | None => <[coin.1 := mkCoinInfo coin.1 (Dec_String coin.2) "0"]> m
  end.
Definition merge_locked (m : gmap string CoinInfo) (coin : Denom * Dec) : gmap string CoinInfo :=
  match m !! coin.1 with
  | Some ci => <[coin.1 := mkCoinInfo (ci_Symbol ci) (ci_Available ci) (Dec_String coin.2)]> m
  | None => <[coin.1 := mkCoinInfo coin.1 "0" (Dec_String coin.2)]> m
  end.
Definition MergeCoinInfo (availableCoins locked : C) : list CoinInfo :=
  (sym_entries (foldl merge_locked (foldl merge_available ∅ (coin_list availableCoins)) (coin_list locked))).*2.
Definition GetCoinsInfo (addr : Address) s : list CoinInfo := MergeCoinInfo (Keeper_GetCoins addr s) (GetLockedCoins addr s).

(** The answer of [queryAccount], before its encoding. *)
Definition queryAccount (addr : Address) (symbol show : string) s : list CoinInfo :=
  let coinsInfo := GetCoinsInfo addr s in
  if String.eqb symbol "" then
    if String.eqb show "all" then
      foldl (fun chosen token =>
               if existsb (fun ci => String.eqb (ci_Symbol ci) (tk_Symbol token)) coinsInfo then chosen
               else chosen ++ [mkCoinInfo (tk_Symbol token) "0" "0"]) coinsInfo (GetTokensInfo s)
    else coinsInfo
  else filter (fun ci => ci_Symbol ci = symbol) coinsInfo.
Definition queryAccountV2 (addr : Address) (currency hide_zero : string) s : list CoinInfo :=
  queryAccount addr currency (if String.eqb hide_zero "no" then "all" else "") s.

(** *** The other queries, before the encoding ([querier.go], [querier_v2.go]) *)
Definition GenTokenResp (token : Token) (supply : Dec) : TokenResp := mkTokenResp token supply.
Definition queryInfo (name : string) s : TokenResp + tok_error :=
  let token := GetTokenInfo name s in
  if String.eqb (tk_Symbol token) "" then inr ErrInvalidCoins
  else inl (GenTokenResp token (GetTokenTotalSupply name s)).
Definition token_responses (l : list Token) s : list TokenResp :=
  (fun token => GenTokenResp token (GetTokenTotalSupply (tk_Symbol token) s)) <$> l.
Definition queryTokens (path : list string) s : list TokenResp + tok_error :=
  match path with
  | owner :: _ =>
      if String.eqb owner "" then inl (token_responses (GetTokensInfo s) s)
      else match AccAddressFromBech32 owner with
           | None => inr (ErrCreateAddrFromBech32Failed owner)
           | Some ownerAddr => inl (token_responses (GetUserTokensInfo (Some ownerAddr) s) s)
           end
  | [] => inl (token_responses (GetTokensInfo s) s)
  end.
Definition queryTokensV2 s : list TokenResp := token_responses (GetTokensInfo s) s.
Definition getNumKeys s : Z * Z :=
  (Z.of_nat (size (tokens s) + (if tokenNumber s then 1 else 0) + size (userTokens s) + size (confirms s)),
   Z.of_nat (size (lockedCoins s) + size (lockedFees s))).

End Token.
End Token.
