(* ===== verification/TokenSpec.v ===== *)
(** What the messages of the token module mean: flows of coins on an
    abstract ledger, the well-formedness of the tables, and who may change
    the owner of a token. *)
From S2P Require Import Prelude.
From S2P Require Import Interfaces.
From S2P Require Import Coins.
From S2P Require Import Effects.
From S2P Require Import Token.
From stdpp Require Import sorting.
Import Token.
Local Open Scope Z_scope.

Definition balance `{SdkCoins C, TokenBank W C} (w : W) (a : Address) (d : Denom) : Dec := AmountOf (bank_GetCoins w a) d.

(** A flow of coins; [None] stands outside the ledger: coins from there are
    minted, coins to there burned. *)
Record flow := mkFlow { fl_from : option Address; fl_to : option Address; fl_amount : Denom -> Dec }.
Definition flow_in (a : option Address) (d : Denom) (f : flow) : Dec := if decide (fl_to f = a) then fl_amount f d else 0.
Definition flow_out (a : option Address) (d : Denom) (f : flow) : Dec := if decide (fl_from f = a) then fl_amount f d else 0.
Definition net (fs : list flow) (a : option Address) (d : Denom) : Dec := lsum (fun f => flow_in a d f - flow_out a d f) fs.

(** The ledger moves by the flows: balances by what comes in and goes out,
    the supply by what is minted and burned. *)
Record flowed `{SdkCoins C, TokenBank W C} (fs : list flow) (w w' : W) : Prop := {
  fd_balance a d : balance w' a d = balance w a d + net fs (Some a) d;
  fd_supply d : GetSupplyByDenom w' d = GetSupplyByDenom w d - net fs None d;
}.

(** Documented behaviour of the bank and supply keepers. *)
Class TokenBankLaws (W C : Type) `{SdkCoins C, TokenBank W C} := {
  MintCoins_ok w m c w' : MintCoins w m c = Some w' -> flowed [mkFlow None (Some (module_address m)) (AmountOf c)] w w';
  BurnCoins_ok w m c w' : BurnCoins w m c = Some w' -> flowed [mkFlow (Some (module_address m)) None (AmountOf c)] w w';
  SendModuleToAccount_ok w m a c w' : SendCoinsFromModuleToAccount w m (Some a) c = Some w' ->
    flowed [mkFlow (Some (module_address m)) (Some a) (AmountOf c)] w w';
  SendAccountToModule_ok w a m c w' : SendCoinsFromAccountToModule w (Some a) m c = Some w' ->
    flowed [mkFlow (Some a) (Some (module_address m)) (AmountOf c)] w w';
  SendCoins_ok w a b c w' : SendCoins w (Some a) (Some b) c = Some w' -> flowed [mkFlow (Some a) (Some b) (AmountOf c)] w w';
}.

Module TokenSpec.
Section Spec.
Context {W C : Type} `{SdkCoins C, DecCoins C, SysCoins C, TokenBank W C, Keccak, TmHash}.
Context (feeCollectorName : string).
Context `{!SysCoinsLaws C, !TokenBankLaws W C}.
Abbreviation tok := (TokStore W C).
Implicit Types (s : tok) (w : W) (fs : list flow).

(** ** Flows *)

Lemma net_nil a d : net [] a d = 0.
Proof. done. Qed.
Lemma net_app fs1 fs2 a d : net (fs1 ++ fs2) a d = net fs1 a d + net fs2 a d.
Proof. apply lsum_app. Qed.
Lemma net_cons f fs a d : net (f :: fs) a d = flow_in a d f - flow_out a d f + net fs a d.
Proof. done. Qed.

Lemma flowed_refl w : flowed [] w w.
Proof. split; intros; rewrite net_nil; lia. Qed.
Lemma flowed_trans fs1 fs2 w1 w2 w3 : flowed fs1 w1 w2 -> flowed fs2 w2 w3 -> flowed (fs1 ++ fs2) w1 w3.
Proof.
  intros [B1 S1] [B2 S2]. split.
  - intros a d. rewrite B2, B1, net_app. lia.
  - intros d. rewrite S2, S1, net_app. lia.
Qed.
(** Only the net flows matter. *)
Lemma flowed_net fs1 fs2 w w' : (forall a d, net fs1 a d = net fs2 a d) -> flowed fs1 w w' -> flowed fs2 w w'.
Proof. intros Hn [B S]. split; intros; rewrite <- Hn; auto. Qed.

(** Through an account in the middle. *)
Lemma net_through x y z am a d : net [mkFlow x y am; mkFlow y z am] a d = net [mkFlow x z am] a d.
Proof. rewrite !net_cons, !net_nil. unfold flow_in, flow_out. cbn. repeat case_decide; lia. Qed.

(** Seen from outside: what is minted and what is burned. *)
Lemma net_mint a am fs d : net (mkFlow None (Some a) am :: fs) None d = net fs None d - am d.
Proof. rewrite net_cons. unfold flow_in, flow_out. cbn. repeat case_decide; try done; lia. Qed.
Lemma net_burn a am fs d : net (mkFlow (Some a) None am :: fs) None d = net fs None d + am d.
Proof. rewrite net_cons. unfold flow_in, flow_out. cbn. repeat case_decide; try done; lia. Qed.
Lemma net_inner fs d : Forall (fun f => is_Some (fl_from f) /\ is_Some (fl_to f)) fs -> net fs None d = 0.
Proof.
  induction 1 as [|f fs [[a Ha] [b Hb]] _ IH]; [done|]. rewrite net_cons, IH. unfold flow_in, flow_out. by rewrite Ha, Hb.
Qed.

Definition fee_flow (payer : Address) (k : SysCoin) : flow :=
  mkFlow (Some payer) (Some (module_address feeCollectorName)) (AmountOf (ToCoins k)).

(** A confirmation is awaited and still in time. *)
Definition confirmable (blockTime : Z) (sym : string) s : bool :=
  match confirms s !! sym with Some co => blockTime <=? co_Expire co | None => false end.

(** *** The specification of the messages

    [performs blockTime txBytes s msg fs s']: from the tables of [s] a
    validated [msg] may lead to those of [s'], with the coins flowing by
    [fs]. *)
Inductive performs (blockTime : Z) (txBytes : bytes) (s : tok) : TokenMsg C -> list flow -> tok -> Prop :=
  | performs_issue m a x sym :
      iss_Owner m = Some a -> NewDecFromStr (iss_TotalSupply m) = Some x -> 0 < x <= supply_bound ->
      addTokenSuffix txBytes (iss_OriginalSymbol m) s = Some sym ->
      performs blockTime txBytes s (TmIssue m)
        [mkFlow None (Some a) (fun d => if decide (sym = d) then x else 0); fee_flow a (FeeIssue (tok_params s))]
        (NewToken (mkToken (iss_Description m) sym (iss_OriginalSymbol m) (iss_WholeName m) x 0 (Some a) (iss_Mintable m)) s)
  | performs_burn k a t :
      tokens s !! coin_Denom k = Some t -> tk_Owner t = Some a -> 0 <= coin_Amount k ->
      performs blockTime txBytes s (TmBurn k (Some a))
        [mkFlow (Some a) None (AmountOf (ToCoins k)); fee_flow a (FeeBurn (tok_params s))] s
  | performs_mint k a t :
      tokens s !! coin_Denom k = Some t -> tk_Owner t = Some a -> tk_Mintable t = true -> 0 <= coin_Amount k ->
      GetSupplyByDenom (tworld s) (coin_Denom k) + coin_Amount k <= supply_bound ->
      performs blockTime txBytes s (TmMint k (Some a))
        [mkFlow None (Some a) (AmountOf (ToCoins k)); fee_flow a (FeeMint (tok_params s))] s
  | performs_multi_send a transfers :
      GetSendEnabled (tworld s) = true ->
      Forall (fun t => is_Some (tu_To t) /\ BlacklistedAddr (tu_To t) = false) transfers ->
      performs blockTime txBytes s (TmMultiSend (Some a) transfers)
        ((fun t => mkFlow (Some a) (tu_To t) (AmountOf (tu_Coins t))) <$> transfers) s
  | performs_send a b c :
      GetSendEnabled (tworld s) = true -> BlacklistedAddr (Some b) = false -> IsContractAddress (Some b) s = false ->
      performs blockTime txBytes s (TmSend (Some a) (Some b) c) [mkFlow (Some a) (Some b) (AmountOf c)] s
  | performs_abandon a sym t :
      tokens s !! sym = Some t -> tk_Owner t = Some a -> confirmable blockTime sym s = false ->
      performs blockTime txBytes s (TmTransferOwnership (Some a) BlackHoleAddress sym) [fee_flow a (FeeChown (tok_params s))]
        (NewToken ((t : Token) <| tk_Owner := BlackHoleAddress |>) (DeleteUserToken (Some a) (tk_Symbol t) s))
  | performs_offer a b sym t :
      tokens s !! sym = Some t -> tk_Owner t = Some a -> confirmable blockTime sym s = false -> Some b ≠ BlackHoleAddress ->
      performs blockTime txBytes s (TmTransferOwnership (Some a) (Some b) sym) [fee_flow a (FeeChown (tok_params s))]
        (SetConfirmOwnership (mkConfirm sym (Some b) (blockTime + OwnershipConfirmWindow (tok_params s))) s)
  | performs_confirm b sym co :
      confirms s !! sym = Some co -> co_Address co = Some b -> blockTime <= co_Expire co ->
      performs blockTime txBytes s (TmConfirmOwnership sym (Some b)) []
        (DeleteConfirmOwnership (co_Symbol co)
          (NewToken ((GetTokenInfo sym s) <| tk_Owner := Some b |>)
            (DeleteUserToken (tk_Owner (GetTokenInfo sym s)) (tk_Symbol (GetTokenInfo sym s)) s)))
  | performs_modify m a t t' :
      tokens s !! mod_Symbol m = Some t -> tk_Owner t = Some a -> mod_Owner m = Some a ->
      mod_IsWholeNameModified m || mod_IsDescriptionModified m = true ->
      t' = mkToken (if mod_IsDescriptionModified m then mod_Description m else tk_Description t) (tk_Symbol t)
             (tk_OriginalSymbol t) (if mod_IsWholeNameModified m then mod_WholeName m else tk_WholeName t)
             (tk_OriginalTotalSupply t) (tk_Type t) (tk_Owner t) (tk_Mintable t) ->
      performs blockTime txBytes s (TmModify m) [fee_flow a (FeeModify (tok_params s))] (UpdateToken t' s).

(** *** Steps of the handlers *)

Lemma runs_bank f err s u s' : runs (bank (C := C) f err) s u s' <->
  exists w, f (tworld s) = Some w /\ s' = s <| tworld := w |>.
Proof. unfold runs, bank. destruct u, (f (tworld s)); naive_solver. Qed.

(** The tables of [s'] are those of [s]. *)
Definition tables s := (tokens s, tokenNumber s, userTokens s, lockedCoins s, lockedFees s, confirms s, tok_params s).
Lemma tables_world s w : tables (s <| tworld := w |>) = tables s.
Proof. done. Qed.

Lemma tables_NewToken token s s' : tables s = tables s' -> tables (NewToken token s) = tables (NewToken token s').
Proof. destruct s, s'. unfold tables. intros [=]. by subst. Qed.
Lemma tables_params s s' : tables s = tables s' -> tok_params s = tok_params s'.
Proof. unfold tables. congruence. Qed.

Lemma runs_deduct_fee a fee s u s' : runs (deduct_fee feeCollectorName (Some a) fee) s u s' ->
  tables s' = tables s /\ flowed [fee_flow a (fee (tok_params s))] (tworld s) (tworld s').
Proof.
  intros Hr. unfold deduct_fee in Hr. run_inv Hr. apply runs_bank in Hr as (w & Hw & ->).
  split; [done|]. by apply SendAccountToModule_ok in Hw.
Qed.

Lemma runs_mint_to a c s s1 s2 err1 err2 :
  runs (bank (fun w => MintCoins w ModuleName c) err1) s tt s1 ->
  runs (bank (fun w => SendCoinsFromModuleToAccount w ModuleName (Some a) c) err2) s1 tt s2 ->
  tables s2 = tables s /\ flowed [mkFlow None (Some a) (AmountOf c)] (tworld s) (tworld s2).
Proof.
  intros (w1 & Hw1 & ->)%runs_bank (w2 & Hw2 & ->)%runs_bank. split; [done|].
  apply MintCoins_ok in Hw1. apply SendModuleToAccount_ok in Hw2. cbn in Hw2 |- *.
  eapply flowed_net; [|by eapply flowed_trans]. intros b d. apply net_through.
Qed.

Lemma runs_burn_from a c s s1 s2 err1 err2 :
  runs (bank (fun w => SendCoinsFromAccountToModule w (Some a) ModuleName c) err1) s tt s1 ->
  runs (bank (fun w => BurnCoins w ModuleName c) err2) s1 tt s2 ->
  tables s2 = tables s /\ flowed [mkFlow (Some a) None (AmountOf c)] (tworld s) (tworld s2).
Proof.
  intros (w1 & Hw1 & ->)%runs_bank (w2 & Hw2 & ->)%runs_bank. split; [done|].
  apply SendAccountToModule_ok in Hw1. apply BurnCoins_ok in Hw2. cbn in Hw2 |- *.
  eapply flowed_net; [|by eapply flowed_trans]. intros b d. apply net_through.
Qed.

Lemma runs_send_or_fail a b c s u s' : runs (send_or_fail (Some a) (Some b) c) s u s' ->
  tables s' = tables s /\ flowed [mkFlow (Some a) (Some b) (AmountOf c)] (tworld s) (tworld s') /\
  BlacklistedAddr (Some b) = false /\ IsContractAddress (Some b) s = false.
Proof.
  intros Hr. unfold send_or_fail in Hr. apply runs_catch_inv in Hr as [Hr|(e & s1 & _ & Hr)]; [|by apply runs_throw in Hr].
  unfold SendCoinsFromAccountToAccount in Hr. destruct (BlacklistedAddr (Some b)); [by apply runs_throw in Hr|].
  run_inv Hr. destruct (IsContractAddress (Some b) s); [by apply runs_throw in Hr|].
  apply runs_bank in Hr as (w & Hw & ->). split_and!; [done| |done|done]. by apply SendCoins_ok in Hw.
Qed.

(** *** The handlers do what the messages say *)

(** An owner that is an address is the owner of a token there is. *)
Lemma GetTokenInfo_owner sym s a : tk_Owner (GetTokenInfo sym s) = Some a ->
  exists t, tokens s !! sym = Some t /\ GetTokenInfo sym s = t.
Proof. unfold GetTokenInfo. destruct (tokens s !! sym) as [t|]; [by eauto|done]. Qed.

Lemma nonempty a : empty a = false -> exists x, a = Some x.
Proof. unfold empty. intros Hb%bool_decide_eq_false. destruct a; [by eauto|done]. Qed.

Ltac units := repeat match goal with u : unit |- _ => destruct u end.
Ltac forward H := cbn [negb andb] in H; run_inv H; units.
(** Reads the guards of [performs] off a validated message. *)
Ltac validated Hv :=
  repeat match type of Hv with
  | (if empty ?a then _ else _) = None =>
      let He := fresh "He" in destruct (empty a) eqn:He; [discriminate|]; apply nonempty in He as [? ->]
  | (if ?b then _ else _) = None => let Hb := fresh "Hb" in destruct b eqn:Hb; [discriminate|]
  end.

Section Refines.
Context (blockTime : Z) (txBytes : bytes).

(** The message ran as the specification says. *)
Definition performed s (msg : TokenMsg C) (s' : tok) : Prop :=
  exists fs s1, performs blockTime txBytes s msg fs s1 /\ tables s' = tables s1 /\ flowed fs (tworld s) (tworld s').

Lemma performed_intro fs s1 s s' msg : performs blockTime txBytes s msg fs s1 -> tables s' = tables s1 ->
  flowed fs (tworld s) (tworld s') -> performed s msg s'.
Proof. by exists fs, s1. Qed.

Lemma runs_issue m s u s' : MsgTokenIssue_ValidateBasic m = None ->
  runs (handleMsgTokenIssue feeCollectorName txBytes m) s u s' -> performed s (TmIssue m) s'.
Proof.
  intros Hv Hr. unfold MsgTokenIssue_ValidateBasic in Hv.
  destruct (empty (iss_Owner m)) eqn:He; [discriminate|]. apply nonempty in He as [a Ha]. validated Hv.
  destruct (NewDecFromStr (iss_TotalSupply m)) as [x|] eqn:Hx; [|discriminate]. validated Hv.
  unfold handleMsgTokenIssue in Hr. rewrite Hx in Hr. apply orb_false_iff in Hb3 as [Hub Hlb]. rewrite Hub in Hr.
  run_inv Hr. destruct (addTokenSuffix txBytes (iss_OriginalSymbol m) s) as [sym|] eqn:Hs; [|by run_inv Hr].
  run_inv Hr. cbn [tk_Owner] in *. rewrite Ha in *.
  units. destruct (runs_mint_to _ _ _ _ _ _ _ Hr0 Hr2) as [Ht Hf]. apply runs_deduct_fee in Hr as [Ht' Hf'].
  eapply performed_intro; [eapply (performs_issue _ _ _ _ _ x); eauto; lia|by rewrite Ht'; apply tables_NewToken|].
  rewrite (tables_params _ _ (tables_NewToken _ _ _ Ht)) in Hf'.
  eapply flowed_net; [|exact (flowed_trans _ _ _ _ _ Hf Hf')].
  intros b d. cbn [app]. rewrite !net_cons. unfold flow_in, flow_out. cbn [fl_from fl_to fl_amount].
  by rewrite (MustParseCoins_amount _ _ _ _ _ Hr1 Hx).
Qed.

Lemma runs_burn k owner s u s' : MsgTokenBurn_ValidateBasic k owner = None ->
  runs (handleMsgTokenBurn feeCollectorName k owner) s u s' -> performed s (TmBurn k owner) s'.
Proof.
  intros Hv Hr. unfold MsgTokenBurn_ValidateBasic in Hv. validated Hv. unfold handleMsgTokenBurn in Hr. forward Hr.
  case_bool_decide as Ho; [|by forward Hr].
  apply GetTokenInfo_owner in Ho as Ho'. destruct Ho' as (t & Ht0 & Hi). rewrite Hi in Ho. forward Hr.
  destruct (runs_burn_from _ _ _ _ _ _ _ Hr0 Hr1) as [Ht Hf]. apply runs_deduct_fee in Hr as [Ht' Hf'].
  rewrite (tables_params _ _ Ht) in Hf'. eapply performed_intro; [eapply performs_burn; eauto|congruence|by apply (flowed_trans [_] [_] _ _ _ Hf)].
  apply coin_IsValid_nonneg. by destruct (coin_IsValid k).
Qed.

Lemma runs_mint k owner s u s' : MsgTokenMint_ValidateBasic k owner = None ->
  runs (handleMsgTokenMint feeCollectorName k owner) s u s' -> performed s (TmMint k owner) s'.
Proof.
  intros Hv Hr. unfold MsgTokenMint_ValidateBasic in Hv. validated Hv. unfold handleMsgTokenMint in Hr. forward Hr.
  case_bool_decide as Ho; [|by forward Hr]. apply GetTokenInfo_owner in Ho as Ho'. destruct Ho' as (t & Ht0 & Hi).
  rewrite Hi in *. destruct (tk_Mintable t) eqn:Hm; [|by forward Hr]. forward Hr.
  forward Hr. destruct (supply_bound <? _) eqn:Hs in Hr; [by forward Hr|]. forward Hr.
  destruct (runs_mint_to _ _ _ _ _ _ _ Hr0 Hr1) as [Ht Hf]. apply runs_deduct_fee in Hr as [Ht' Hf'].
  rewrite (tables_params _ _ Ht) in Hf'.
  eapply performed_intro; [eapply performs_mint; eauto; [|lia]|congruence|by apply (flowed_trans [_] [_] _ _ _ Hf)].
  apply coin_IsValid_nonneg. by destruct (coin_IsValid k).
Qed.

Lemma runs_send from to c s u s' : MsgSend_ValidateBasic from to c = None ->
  runs (handleMsgSend from to c) s u s' -> performed s (TmSend from to c) s'.
Proof.
  intros Hv Hr. unfold MsgSend_ValidateBasic in Hv. validated Hv. unfold handleMsgSend in Hr. forward Hr.
  destruct (GetSendEnabled (tworld s)) eqn:He; [|by forward Hr]. apply runs_send_or_fail in Hr as (Ht & Hf & Hbl & Hc).
  by eapply performed_intro; [apply performs_send|..].
Qed.

Lemma runs_sends a transfers s u s' : check_transfers transfers = None ->
  runs (for_each transfers (fun t => send_or_fail (Some a) (tu_To t) (tu_Coins t))) s u s' ->
  Forall (fun t => is_Some (tu_To t) /\ BlacklistedAddr (tu_To t) = false) transfers /\ tables s' = tables s /\
  flowed ((fun t => mkFlow (Some a) (tu_To t) (AmountOf (tu_Coins t))) <$> transfers) (tworld s) (tworld s').
Proof.
  revert s. induction transfers as [|t l IH]; intros s Hv Hr; cbn in Hv, Hr.
  - apply runs_ret in Hr as [_ ->]. split_and!; [done|done|]. apply flowed_refl.
  - validated Hv. destruct (empty (tu_To t)) eqn:He; [done|]. apply nonempty in He as [b Hb']. rewrite Hb' in Hr.
    forward Hr. apply runs_send_or_fail in Hr0 as (Ht & Hf & Hbl & _). destruct (IH _ Hv Hr) as (Hl & Ht' & Hf').
    split_and!; [|congruence|].
    + constructor; [|done]. rewrite Hb'. by eauto.
    + cbn. rewrite Hb'. by apply (flowed_trans [_] _ _ _ _ Hf).
Qed.

Lemma runs_multi_send from transfers s u s' : MsgMultiSend_ValidateBasic from transfers = None ->
  runs (handleMsgMultiSend from transfers) s u s' -> performed s (TmMultiSend from transfers) s'.
Proof.
  intros Hv Hr. unfold MsgMultiSend_ValidateBasic in Hv. validated Hv. unfold handleMsgMultiSend in Hr. forward Hr.
  destruct (GetSendEnabled (tworld s)) eqn:Hen; [|by forward Hr]. apply runs_sends in Hr as (Hl & Ht & Hf); [|done].
  by eapply performed_intro; [apply performs_multi_send|..].
Qed.

Lemma confirmable_pending sym s :
  match GetConfirmOwnership sym s with Some co => negb (co_Expire co <? blockTime) | None => false end = confirmable blockTime sym s.
Proof. unfold confirmable, GetConfirmOwnership. destruct (confirms s !! sym) as [co|]; [|done]. lia. Qed.

Lemma runs_transfer from to sym s u s' : MsgTransferOwnership_ValidateBasic from to sym = None ->
  runs (handleMsgTransferOwnership feeCollectorName blockTime from to sym) s u s' -> performed s (TmTransferOwnership from to sym) s'.
Proof.
  intros Hv Hr. unfold MsgTransferOwnership_ValidateBasic in Hv. validated Hv. unfold handleMsgTransferOwnership in Hr. forward Hr.
  case_bool_decide as Ho; [|by forward Hr]. apply GetTokenInfo_owner in Ho as Ho'. destruct Ho' as (t & Ht0 & Hi).
  forward Hr. rewrite confirmable_pending in Hr. destruct (confirmable blockTime sym s) eqn:Hc; [by forward Hr|].
  rewrite Hi in *. case_bool_decide as Hbh; forward Hr; apply runs_deduct_fee in Hr as [Ht Hf].
  - rewrite Hbh, Ho in *. by eapply performed_intro; [eapply performs_abandon|..].
  - by eapply performed_intro; [eapply performs_offer|..].
Qed.

Lemma runs_confirm sym b s u s' : MsgConfirmOwnership_ValidateBasic sym b = None ->
  runs (handleMsgConfirmOwnership (C := C) blockTime sym b) s u s' -> performed s (TmConfirmOwnership sym b) s'.
Proof.
  intros Hv Hr. unfold MsgConfirmOwnership_ValidateBasic in Hv. validated Hv. unfold handleMsgConfirmOwnership in Hr. forward Hr.
  unfold GetConfirmOwnership in Hr. destruct (confirms s !! sym) as [co|] eqn:Hco; [|by forward Hr].
  destruct (co_Expire co <? blockTime) eqn:Hx; [by forward Hr|]. case_bool_decide as Ha; [|by forward Hr]. forward Hr.
  eapply performed_intro; [eapply performs_confirm; eauto; lia|done|apply flowed_refl].
Qed.

Lemma runs_modify_msg m s u s' : MsgTokenModify_ValidateBasic m = None ->
  runs (handleMsgTokenModify feeCollectorName m) s u s' -> performed s (TmModify m) s'.
Proof.
  intros Hv Hr. unfold MsgTokenModify_ValidateBasic in Hv.
  destruct (empty (mod_Owner m)) eqn:He; [discriminate|]. apply nonempty in He as [a Ha].
  unfold handleMsgTokenModify in Hr. forward Hr. rewrite Ha in *.
  case_bool_decide as Ho; [|by forward Hr]. apply GetTokenInfo_owner in Ho as Ho'. destruct Ho' as (t & Ht0 & Hi). rewrite Hi in *.
  destruct (mod_IsWholeNameModified m) eqn:Hw, (mod_IsDescriptionModified m) eqn:Hd; cbn [negb andb] in Hr;
    [..|by run_inv Hr]; forward Hr; apply runs_deduct_fee in Hr as [Ht Hf];
    (eapply performed_intro; [eapply performs_modify; eauto; by rewrite ?Hw, ?Hd|rewrite Ht|exact Hf]; by rewrite ?Hw, ?Hd).
Qed.

Lemma message_performed msg s u s' : ValidateBasic msg = None ->
  runs (NewTokenHandler feeCollectorName blockTime txBytes msg) s u s' -> performed s msg s'.
Proof.
  destruct msg; cbn; intros Hv Hr;
    eauto using runs_issue, runs_burn, runs_mint, runs_multi_send, runs_send, runs_transfer, runs_confirm, runs_modify_msg.
  by forward Hr.
Qed.
End Refines.

End Spec.
End TokenSpec.
