(* ===== verification/TokenTables.v ===== *)
(** The tables of the token module: listing them in the order of the
    symbols, and their well-formedness through every message. *)
From S2P Require Import Prelude.
From S2P Require Import Interfaces.
From S2P Require Import Coins.
From S2P Require Import Effects.
From S2P Require Import Token.
From S2P Require Import TokenSpec.
From stdpp Require Import sorting.
Import Token TokenSpec.
Local Open Scope Z_scope.

(** ** Listing a table *)
Section Entries.
Context {A : Type}.
Implicit Types (m : gmap string A) (l : list (string * A)).

#[export] Instance sym_le_trans : Transitive (@sym_le A).
Proof. intros x y z. unfold sym_le. apply transitivity. Qed.
#[export] Instance sym_le_total : Total (@sym_le A).
Proof. intros x y. unfold sym_le. apply total, _. Qed.

Lemma sym_entries_Permutation m : sym_entries m ≡ₚ map_to_list m.
Proof. apply merge_sort_Permutation. Qed.
Lemma elem_of_sym_entries m k x : (k, x) ∈ sym_entries m <-> m !! k = Some x.
Proof. by rewrite sym_entries_Permutation, elem_of_map_to_list. Qed.
Lemma NoDup_sym_entries m : NoDup (sym_entries m).*1.
Proof. rewrite sym_entries_Permutation. apply NoDup_fst_map_to_list. Qed.
Lemma sym_entries_sorted m : StronglySorted sym_le (sym_entries m).
Proof. apply (StronglySorted_merge_sort _). Qed.

(** A sorted list with the entries of the table is its listing. *)
Lemma sym_entries_unique m l : StronglySorted sym_le l -> NoDup l.*1 ->
  (forall k x, (k, x) ∈ l <-> m !! k = Some x) -> l = sym_entries m.
Proof.
  intros Hs Hn Hl. apply (StronglySorted_unique_strong sym_le); [|done|apply sym_entries_sorted|].
  - intros [k1 x1] [k2 x2] H1%Hl H2%elem_of_sym_entries Hle1 Hle2. unfold sym_le in *. cbn in *.
    assert (k1 = k2) as -> by by apply (anti_symm strings.String.le). congruence.
  - apply NoDup_Permutation.
    + by apply (NoDup_fmap_1 fst).
    + apply (NoDup_fmap_1 fst), NoDup_sym_entries.
    + intros [k x]. by rewrite Hl, elem_of_sym_entries.
Qed.

Lemma StronglySorted_filter {B} (R : relation B) (P : B -> Prop) `{!forall x, Decision (P x)} (l : list B) :
  StronglySorted R l -> StronglySorted R (filter P l).
Proof.
  induction 1 as [|x l _ IH Hx]; [constructor|]. rewrite filter_cons. case_decide; [|done].
  constructor; [done|]. rewrite Forall_forall in *. intros y [_ Hy]%list_elem_of_filter. by apply Hx.
Qed.
Lemma StronglySorted_keys {B} l (l' : list (string * B)) : l.*1 = l'.*1 -> StronglySorted sym_le l -> StronglySorted sym_le l'.
Proof.
  intros He Hs. revert l' He. induction Hs as [|x l _ IH Hx]; intros [|y l'] He; try done; [constructor|].
  injection He as Hk Hl. change (l.*1 = l'.*1) in Hl. constructor; [by apply IH|].
  apply Forall_forall. intros z Hz. unfold sym_le. rewrite <- Hk.
  assert (z.1 ∈ l.*1) as [u [Hu Hul]]%list_elem_of_fmap by (rewrite Hl; by apply list_elem_of_fmap_2). rewrite Hu. by apply (proj1 (Forall_forall _ _) Hx).
Qed.

(** Selecting from a table selects from its listing. *)
Lemma filter_sym_entries (P : A -> Prop) `{!forall x, Decision (P x)} m :
  filter P (sym_entries m).*2 = (sym_entries (filter (fun kx => P kx.2) m)).*2.
Proof.
  rewrite <- (sym_entries_unique (filter (fun kx => P kx.2) m) (filter (fun kx => P kx.2) (sym_entries m))).
  - induction (sym_entries m) as [|[k x] l IH]; [done|]. rewrite fmap_cons, !filter_cons. cbn [snd]. case_decide; rewrite ?fmap_cons; by rewrite IH.
  - apply StronglySorted_filter, sym_entries_sorted.
  - apply (sublist_NoDup _ _ (NoDup_sym_entries m)). apply fmap_sublist, sublist_filter.
  - intros k x. rewrite list_elem_of_filter, elem_of_sym_entries, map_lookup_filter_Some. cbn. tauto.
Qed.

End Entries.

Module TokenTables.
Section Tables.
Context {W C : Type} `{SdkCoins C, DecCoins C, SysCoins C, TokenBank W C, Keccak, TmHash}.
Abbreviation tok := (TokStore W C).
Implicit Types (s : tok) (t : Token) (sym : string).

(** ** Well-formed tables

    A token is stored at its symbol, the index of owners has exactly the
    owner of each token, a pending confirmation is of a token there is, and
    no lock is empty. *)
Record tokens_ok s : Prop := {
  ok_symbol sym t : tokens s !! sym = Some t -> tk_Symbol t = sym;
  ok_owned a sym : (a, sym) ∈ userTokens s <-> exists t, tokens s !! sym = Some t /\ tk_Owner t = a;
  ok_pending sym co : confirms s !! sym = Some co -> co_Symbol co = sym /\ is_Some (tokens s !! sym);
  ok_locked addr c : lockedCoins s !! addr = Some c -> CoinsEmpty c = false;
  ok_locked_fees addr c : lockedFees s !! addr = Some c -> CoinsEmpty c = false;
}.

Lemma tokens_ok_tables s s' : tables s = tables s' -> tokens_ok s -> tokens_ok s'.
Proof. destruct s, s'. unfold tables. cbn. intros [=] []. subst. by split. Qed.

(** The tables with another token, owner index and number of tokens. *)
Lemma tokens_ok_change s sym t s' :
  tokens_ok s -> tk_Symbol t = sym -> tokens s' = <[sym := t]> (tokens s) ->
  (forall a sym', (a, sym') ∈ userTokens s' <-> if decide (sym' = sym) then a = tk_Owner t else (a, sym') ∈ userTokens s) ->
  (forall sym' co, confirms s' !! sym' = Some co -> confirms s !! sym' = Some co) ->
  lockedCoins s' = lockedCoins s -> lockedFees s' = lockedFees s -> tokens_ok s'.
Proof.
  intros Hok <- Ht Hu Hc Hl Hf. split.
  - intros sym' t'. rewrite Ht, lookup_insert. case_decide; [by intros [= <-]|]. by apply (ok_symbol s Hok).
  - intros a sym'. rewrite Hu, Ht, lookup_insert. repeat case_decide; subst; try done; [naive_solver|].
    by apply (ok_owned s Hok).
  - intros sym' co [? ?]%Hc%(ok_pending s Hok). split; [done|]. rewrite Ht. rewrite lookup_insert. by case_decide.
  - rewrite Hl. by apply (ok_locked s Hok).
  - rewrite Hf. by apply (ok_locked_fees s Hok).
Qed.

(** A new symbol. *)
Lemma NewToken_fresh t s : tokens_ok s -> tokens s !! tk_Symbol t = None -> tokens_ok (NewToken t s).
Proof.
  intros Hok Hn. eapply (tokens_ok_change s _ t); [done|done|done| |done..].
  intros a sym. cbn. rewrite elem_of_union, elem_of_singleton. case_decide as Hd.
  - subst. split; [|intros ->; by left]. intros [[=]|(t' & Ht & _)%(ok_owned s Hok)]; [done|congruence].
  - split; [intros [[=]|Ha]; [done|done]|by right].
Qed.

(** Another owner for a token. *)
Lemma hand_over_ok t sym a s : tokens_ok s -> tokens s !! sym = Some t ->
  tokens_ok (NewToken (t <| tk_Owner := a |>) (DeleteUserToken (tk_Owner t) (tk_Symbol t) s)).
Proof.
  intros Hok Ht. pose proof (ok_symbol s Hok _ _ Ht) as Hs.
  eapply (tokens_ok_change s sym (t <| tk_Owner := a |>)); [done|done|by cbn; rewrite Hs| |done..].
  intros b sym'. cbn. rewrite elem_of_union, elem_of_difference, !elem_of_singleton, Hs. case_decide as Hd.
  - subst sym'. split; [|intros ->; by left].
    intros [[=]|[(t' & Ht' & <-)%(ok_owned s Hok) Hn]]; [done|]. exfalso. apply Hn. congruence.
  - split; [intros [[=]|[? _]]; done|]. intros Hb. right. split; [done|congruence].
Qed.

(** Another description. *)
Lemma UpdateToken_ok t t' sym s : tokens_ok s -> tokens s !! sym = Some t ->
  tk_Symbol t' = tk_Symbol t -> tk_Owner t' = tk_Owner t -> tokens_ok (UpdateToken t' s).
Proof.
  intros Hok Ht Hs Ho. pose proof (ok_symbol s Hok _ _ Ht) as Hsym.
  eapply (tokens_ok_change s sym t'); [done|congruence|by cbn; rewrite Hs, Hsym| |done..].
  intros a sym'. case_decide as Hd; [|done]. subst sym'. cbn. rewrite (ok_owned s Hok), Ho, Ht. naive_solver.
Qed.

Lemma SetConfirm_ok sym b e s : tokens_ok s -> is_Some (tokens s !! sym) ->
  tokens_ok (SetConfirmOwnership (mkConfirm sym b e) s).
Proof.
  intros Hok Ht. destruct Hok. split; cbn; try done. intros sym' co. rewrite lookup_insert. case_decide; [|by eauto].
  intros [= <-]. subst. done.
Qed.
Lemma DeleteConfirm_ok sym s : tokens_ok s -> tokens_ok (DeleteConfirmOwnership sym s).
Proof. intros Hok. destruct Hok. split; cbn; try done. intros sym' co [_ ?]%lookup_delete_Some. by eauto. Qed.

Lemma suffix_loop_fresh orig hash n s name : suffix_loop orig hash n s = Some name -> TokenExist name s = false.
Proof.
  induction n as [|i IH]; cbn [suffix_loop]; [done|]. cbv zeta. destruct (negb _); [done|].
  destruct (TokenExist (String.append _ _) s) eqn:He; [by apply IH|]. by intros [= <-].
Qed.
Lemma addTokenSuffix_fresh txBytes orig s name : addTokenSuffix txBytes orig s = Some name -> tokens s !! name = None.
Proof.
  intros He%suffix_loop_fresh. unfold TokenExist in He. apply bool_decide_eq_false in He. by apply eq_None_not_Some.
Qed.

(** *** Listing the tokens of an owner *)
Lemma lookup_user_symbols a s sym : user_symbols a s !! sym = Some tt <-> (a, sym) ∈ userTokens s.
Proof.
  unfold user_symbols. rewrite lookup_set_to_map.
  - split; [intros ([b sym'] & [Hb Hu]%elem_of_filter & [=])|intros Hu].
    + cbn in Hb. by subst.
    + exists (a, sym). by rewrite elem_of_filter.
  - intros [b k] [b' k'] [Hb _]%elem_of_filter [Hb' _]%elem_of_filter. cbn in *. congruence.
Qed.

Lemma user_tokens_listed a s : tokens_ok s ->
  GetUserTokensInfo a s = filter (fun t => tk_Owner t = a) (GetTokensInfo s).
Proof.
  intros Hok. unfold GetTokensInfo. rewrite filter_sym_entries.
  rewrite <- (sym_entries_unique (filter (fun kt => tk_Owner kt.2 = a) (tokens s))
                ((fun e => (e.1, GetTokenInfo e.1 s)) <$> sym_entries (user_symbols a s))).
  - unfold GetUserTokensInfo. by rewrite <- list_fmap_compose.
  - eapply StronglySorted_keys; [|apply sym_entries_sorted]. by rewrite <- list_fmap_compose.
  - rewrite <- list_fmap_compose. apply NoDup_sym_entries.
  - intros k t. rewrite list_elem_of_fmap, map_lookup_filter_Some. cbn. split.
    + intros ([k' []] & [= -> ->] & Hu%elem_of_sym_entries%lookup_user_symbols).
      apply (ok_owned s Hok) in Hu as (t & Ht & Ho). unfold GetTokenInfo. by rewrite Ht.
    + intros [Ht Ho]. exists (k, tt). cbn. unfold GetTokenInfo. rewrite Ht, elem_of_sym_entries, lookup_user_symbols, (ok_owned s Hok).
      split; [done|]. by exists t.
Qed.

End Tables.
End TokenTables.
