(* ===== verification/TokenView.v ===== *)
(** What the token module shows: its genesis export and the coins of an
    account. *)
From S2P Require Import Prelude.
From S2P Require Import Interfaces.
From S2P Require Import Coins.
From S2P Require Import Effects.
From S2P Require Import Token.
From S2P Require Import TokenSpec.
From S2P Require Import TokenTables.
From stdpp Require Import sorting.
Import Token TokenSpec TokenTables.
Local Open Scope Z_scope.

Module TokenView.
Section View.
Context {W C : Type} `{SdkCoins C, DecCoins C, SysCoins C, TokenBank W C, Keccak, TmHash}.
Abbreviation tok := (TokStore W C).
Implicit Types (s : tok) (t : Token) (sym : string).

(** ** Genesis *)
Lemma for_each_modify {A} (f : A -> tok -> tok) (l : list A) s :
  for_each l (fun x => modify (E := tok_error) (f x)) s = Ret (foldl (fun s x => f x s) s l, inl tt).
Proof. by apply runs_for_each_modify. Qed.

(** The tables after a list of tokens. *)
Definition add_tokens (l : list Token) s : tok := foldl (fun s t => NewToken t s) s l.

Lemma add_tokens_snoc l t s : add_tokens (l ++ [t]) s = NewToken t (add_tokens l s).
Proof. unfold add_tokens. by rewrite foldl_app. Qed.
Lemma add_tokens_tokens l s sym t : NoDup (tk_Symbol <$> l) -> tokens s = ∅ ->
  tokens (add_tokens l s) !! sym = Some t <-> t ∈ l /\ tk_Symbol t = sym.
Proof.
  intros Hn He. revert sym t. induction l as [|x l IH] using rev_ind; intros sym t.
  - cbn. rewrite He, lookup_empty. split; [done|]. intros [[]%elem_of_nil _].
  - rewrite add_tokens_snoc. cbn. rewrite fmap_app in Hn. apply NoDup_app in Hn as (Hn & Hx & _).
    rewrite lookup_insert, elem_of_app, list_elem_of_singleton. case_decide as Hd.
    + split; [intros [= ->]; by split; [right|]|]. intros [[Hl| ->] Ht]; [|done].
      exfalso. apply (Hx (tk_Symbol x)); [|by left]. rewrite Hd, <- Ht. by apply list_elem_of_fmap_2.
    + rewrite IH by done. naive_solver.
Qed.
Lemma add_tokens_users l s a sym : userTokens s = ∅ ->
  (a, sym) ∈ userTokens (add_tokens l s) <-> exists t, t ∈ l /\ tk_Symbol t = sym /\ tk_Owner t = a.
Proof.
  intros He. induction l as [|x l IH] using rev_ind.
  - cbn. rewrite He. split; [intros []%elem_of_empty|]. intros (t & []%elem_of_nil & _).
  - rewrite add_tokens_snoc. cbn. rewrite elem_of_union, elem_of_singleton, IH. split.
    + intros [[= -> ->]|(t & Ht & Hr)]; [exists x|exists t]; rewrite elem_of_app, list_elem_of_singleton; auto.
    + intros (t & [Ht| ->%list_elem_of_singleton]%elem_of_app & <- & <-); [right; by exists t|by left].
Qed.
Lemma add_tokens_number l s : tokenNumber s = None ->
  tokenNumber (add_tokens l s) = if decide (l = []) then None else Some (u64 (Z.of_nat (length l))).
Proof.
  intros He. induction l as [|x l IH] using rev_ind; [done|]. rewrite add_tokens_snoc. cbn. unfold getTokenNum. cbn.
  rewrite IH, length_app. rewrite (decide_False (P := l ++ [x] = [])) by (intros Hl; by apply app_nil in Hl as [_ ?]).
  f_equal. cbn. case_decide as Hl; cbn; [by subst|]. unfold u64. rewrite Zplus_mod_idemp_l. f_equal. lia.
Qed.
Lemma add_tokens_other l s :
  lockedCoins (add_tokens l s) = lockedCoins s /\ lockedFees (add_tokens l s) = lockedFees s /\
  confirms (add_tokens l s) = confirms s /\ tok_params (add_tokens l s) = tok_params s /\ tworld (add_tokens l s) = tworld s.
Proof. unfold add_tokens. revert s. induction l as [|x l IH]; intros s; [done|]. exact (IH (NewToken x s)). Qed.

(** Locks into an empty table. *)
Lemma updateLockedCoins_first (t : Z) a c m s : t = LockCoinsTypeQuantity \/ t = LockCoinsTypeFee -> lock_table t s = Some m ->
  m !! a = None -> or_die (updateLockedCoins a c true t) s = Ret (put_lock t a c s, inl tt).
Proof.
  intros Ht Hm Ha. unfold or_die, catch, updateLockedCoins, gets, modify. unfold mbind, eff_bind. rewrite Hm, Ha. done.
Qed.
Definition with_locks (t : Z) (m : gmap Address C) s : tok :=
  if t =? LockCoinsTypeQuantity then s <| lockedCoins := m |> else s <| lockedFees := m |>.
Lemma with_locks_same (t : Z) m s : t = LockCoinsTypeQuantity \/ t = LockCoinsTypeFee -> lock_table t s = Some m -> with_locks t m s = s.
Proof. destruct s. intros [-> | ->] [= <-]; done. Qed.
Lemma put_locks (t : Z) a c m s : t = LockCoinsTypeQuantity \/ t = LockCoinsTypeFee -> lock_table t s = Some m -> CoinsEmpty c = false ->
  lock_table t (put_lock t a c s) = Some (<[a := c]> m) /\ forall m', with_locks t m' (put_lock t a c s) = with_locks t m' s.
Proof. unfold put_lock. intros [-> | ->] Hm ->; cbn in *; simplify_eq; done. Qed.

Lemma locks_restored (t : Z) (l : list (Address * C)) m s : t = LockCoinsTypeQuantity \/ t = LockCoinsTypeFee -> NoDup l.*1 ->
  Forall (fun lock => CoinsEmpty lock.2 = false) l -> lock_table t s = Some m -> (forall a, a ∈ l.*1 -> m !! a = None) ->
  for_each l (fun lock => or_die (updateLockedCoins lock.1 lock.2 true t)) s = Ret (with_locks t (list_to_map l ∪ m) s, inl tt).
Proof.
  intros Ht. revert m s. induction l as [|[a c] l IH]; intros m s Hn Hl Hm Hd.
  - cbn. by rewrite (left_id_L ∅ (∪)), with_locks_same.
  - apply NoDup_cons in Hn as [Ha Hn]. apply Forall_cons in Hl as [Hc Hl]. cbn [for_each fst snd]. unfold mbind, eff_bind.
    rewrite (updateLockedCoins_first t a c m) by (done || (apply Hd; by left)).
    destruct (put_locks t a c m s Ht Hm Hc) as [Hm' Hw]. rewrite (IH (<[a := c]> m)); [|done|done|done|].
    + rewrite Hw. cbn. rewrite <- insert_union_r by by apply not_elem_of_list_to_map_1. by rewrite insert_union_l.
    + intros b Hb. rewrite lookup_insert_ne by (intros ->; done). apply Hd. by right.
Qed.

(** *** The genesis of a store restores it

    Only pending hand-overs are lost, and the number of tokens counts no
    change of an owner any more. *)
Definition blank (p : TokenParams) (w : W) : tok := mkTok W C ∅ None ∅ ∅ ∅ ∅ p w.
Definition restored s (w : W) : tok :=
  mkTok W C (tokens s) (if decide (tokens s = ∅) then None else Some (u64 (Z.of_nat (size (tokens s))))) (userTokens s)
    (lockedCoins s) (lockedFees s) ∅ (tok_params s) w.

Lemma exported_tokens s : tokens_ok s -> tk_Symbol <$> GetTokensInfo s = (sym_entries (tokens s)).*1.
Proof.
  intros Hok. unfold GetTokensInfo. rewrite <- list_fmap_compose. apply list_fmap_ext. intros i [k t] Hi. cbn.
  apply (ok_symbol s Hok). apply elem_of_sym_entries. by eapply list_elem_of_lookup_2.
Qed.
Lemma elem_of_exported s t : tokens_ok s -> t ∈ GetTokensInfo s <-> tokens s !! tk_Symbol t = Some t.
Proof.
  intros Hok. unfold GetTokensInfo. rewrite list_elem_of_fmap. split.
  - intros ([k t'] & -> & Ht%elem_of_sym_entries). cbn. by rewrite (ok_symbol s Hok _ _ Ht).
  - intros Ht. exists (tk_Symbol t, t). by rewrite elem_of_sym_entries.
Qed.
Lemma length_exported s : length (GetTokensInfo s) = size (tokens s).
Proof. unfold GetTokensInfo. rewrite length_fmap, sym_entries_Permutation. apply length_map_to_list. Qed.
Lemma entries_locks (m : gmap Address C) : (forall a c, m !! a = Some c -> CoinsEmpty c = false) ->
  Forall (fun lock => CoinsEmpty lock.2 = false) (entries m).
Proof. intros Hm. apply Forall_forall. intros [a c] Hc%elem_of_entries. by eapply Hm. Qed.

Lemma tokens_restored s p w : tokens_ok s ->
  add_tokens (GetTokensInfo s) (blank p w) =
  (restored s w) <| lockedCoins := ∅ |> <| lockedFees := ∅ |> <| tok_params := p |>.
Proof.
  intros Hok. set (l := GetTokensInfo s).
  assert (Hn : NoDup (tk_Symbol <$> l)) by (unfold l; rewrite exported_tokens by done; apply NoDup_sym_entries).
  destruct (add_tokens_other l (blank p w)) as (Hl & Hf & Hc & Hp & Hw).
  assert (Ht : tokens (add_tokens l (blank p w)) = tokens s).
  { apply map_eq. intros sym. apply option_eq. intros t. rewrite add_tokens_tokens by done. unfold l. rewrite elem_of_exported by done.
    split; [by intros [? <-]|]. intros Ht. by rewrite (ok_symbol s Hok _ _ Ht). }
  assert (Hu : userTokens (add_tokens l (blank p w)) = userTokens s).
  { apply set_eq. intros [a sym]. rewrite add_tokens_users, (ok_owned s Hok) by done. split.
    - intros (t & Hin & <- & <-). exists t. by apply elem_of_exported in Hin.
    - intros (t & Hin & <-). exists t. unfold l. rewrite elem_of_exported by done. by rewrite (ok_symbol s Hok _ _ Hin). }
  assert (Hnum : tokenNumber (add_tokens l (blank p w)) = tokenNumber (restored s w)).
  { rewrite add_tokens_number by done. cbn. unfold l. rewrite <- length_exported.
    destruct (decide (GetTokensInfo s = [])) as [Hd|Hd], (decide (tokens s = ∅)) as [He|He]; try done; exfalso.
    - apply He, map_size_empty_inv. by rewrite <- length_exported, Hd.
    - apply Hd, nil_length_inv. rewrite length_exported. by apply map_size_empty_iff. }
  destruct (add_tokens l (blank p w)). cbn in *. by subst.
Qed.

Lemma initGenesis_export s p w : tokens_ok s -> initGenesis (ExportGenesis s) (blank p w) = Ret (restored s w, inl tt).
Proof.
  intros Hok. unfold initGenesis, mbind, eff_bind, modify at 1. cbn [tg_Params tg_Tokens tg_LockedAssets tg_LockedFees ExportGenesis].
  rewrite for_each_modify. fold (add_tokens (GetTokensInfo s) (SetParams (GetParams s) (blank p w))).
  change (SetParams (GetParams s) (blank p w)) with (blank (tok_params s) w). rewrite tokens_restored by done.
  rewrite (locks_restored _ _ ∅); [|by left|apply NoDup_entries|apply entries_locks, (ok_locked s Hok)|done|done].
  rewrite (locks_restored _ _ ∅); [|by right|apply NoDup_entries|apply entries_locks, (ok_locked_fees s Hok)|done|done].
  unfold GetAllLockedCoins, IterateLockedFees. rewrite !list_to_map_entries, !(right_id_L ∅ (∪)). done.
Qed.

(** *** Tokens pass the check of a genesis *)
Definition token_valid t : Prop := MsgTokenIssue_ValidateBasic
  (mkMsgIssue (tk_Description t) (tk_Symbol t) (tk_OriginalSymbol t) (tk_WholeName t) (Dec_String (tk_OriginalTotalSupply t))
     (tk_Owner t) (tk_Mintable t)) = None.
Definition tokens_valid s : Prop := forall sym t, tokens s !! sym = Some t -> token_valid t.

Lemma validateGenesis_export s : tokens_valid s -> validateGenesis (ExportGenesis s) = None.
Proof.
  intros Hv. unfold validateGenesis. cbn. unfold GetTokensInfo.
  assert (Hl : forall k t, (k, t) ∈ sym_entries (tokens s) -> token_valid t) by (intros k t Ht%elem_of_sym_entries; by eapply Hv).
  revert Hl. induction (sym_entries (tokens s)) as [|[k t] l IH]; intros Hl; [done|]. cbn [fmap list_fmap snd validateGenesis_tokens].
  rewrite (Hl k t) by by left. apply IH. intros k' t' Ht. apply (Hl k'). by right.
Qed.

(** ** The coins of an account *)
Definition shown (x : Dec) : string := if decide (x = 0) then "0" else Dec_String x.
Definition denoms_of (c : C) : gset string := list_to_set (coin_list c).*1.
(** One line per denomination of either set, in their order. *)
Definition report_line (available locked : C) (d : Denom) : CoinInfo :=
  mkCoinInfo d (shown (AmountOf available d)) (shown (AmountOf locked d)).
Definition report (available locked : C) : list CoinInfo :=
  report_line available locked <$> merge_sort strings.String.le (elements (denoms_of available ∪ denoms_of locked)).

Context `{!SysCoinsLaws C}.

Lemma ltb_irrefl (s : string) : String.ltb s s = false.
Proof. unfold String.ltb. pose proof (String.compare_antisym s s) as Hc. by destruct (String.compare s s). Qed.
Lemma NoDup_coin_list (c : C) : NoDup (coin_list c).*1.
Proof.
  pose proof (coin_list_sorted c) as Hs. induction Hs as [|d l _ IH Hd]; constructor; [|done].
  intros Hin. rewrite Forall_forall in Hd. specialize (Hd _ Hin). cbv beta in Hd. by rewrite ltb_irrefl in Hd.
Qed.
Lemma coin_list_lookup (c : C) d :
  (list_to_map (coin_list c) : gmap string Dec) !! d = if decide (AmountOf c d = 0) then None else Some (AmountOf c d).
Proof.
  case_decide as Hz.
  - apply not_elem_of_list_to_map_1. intros ([d' x] & -> & [Hx Hn]%coin_list_amount)%list_elem_of_fmap. cbn in *. congruence.
  - apply elem_of_list_to_map_1; [apply NoDup_coin_list|]. by apply coin_list_amount.
Qed.

Lemma merge_available_lookup l m d : NoDup l.*1 -> (forall k, k ∈ l.*1 -> m !! k = None) ->
  foldl merge_available m l !! d =
  match (list_to_map l : gmap string Dec) !! d with Some x => Some (mkCoinInfo d (Dec_String x) "0") | None => m !! d end.
Proof.
  revert m. induction l as [|[k x] l IH]; intros m Hn Hm; [done|]. apply NoDup_cons in Hn as [Hk Hn]. cbn [foldl list_to_map foldr].
  unfold merge_available at 2. cbn [fst snd]. rewrite (Hm k) by by left. rewrite IH; [|done|].
  - cbn. rewrite !lookup_insert. case_decide as Hd; [|done]. subst. by rewrite not_elem_of_list_to_map_1.
  - intros k' Hk'. rewrite lookup_insert_ne by (intros ->; done). apply Hm. by right.
Qed.
Lemma merge_locked_lookup l m d : NoDup l.*1 ->
  foldl merge_locked m l !! d =
  match (list_to_map l : gmap string Dec) !! d with
  | Some x => Some match m !! d with
                   | Some ci => mkCoinInfo (ci_Symbol ci) (ci_Available ci) (Dec_String x)
                   | None => mkCoinInfo d "0" (Dec_String x)
                   end
  | None => m !! d
  end.
Proof.
  revert m. induction l as [|[k x] l IH]; intros m Hn; [done|]. apply NoDup_cons in Hn as [Hk Hn].
  cbn [foldl list_to_map foldr]. rewrite IH by done. cbn [fst snd]. rewrite lookup_insert.
  assert (Hl : merge_locked m (k, x) !! d = if decide (k = d) then
    Some (match m !! k with Some ci => mkCoinInfo (ci_Symbol ci) (ci_Available ci) (Dec_String x)
          | None => mkCoinInfo k "0" (Dec_String x) end) else m !! d).
  { unfold merge_locked. cbn. destruct (m !! k); rewrite lookup_insert; by repeat case_decide. }
  rewrite Hl. case_decide as Hd; [|done]. subst. by rewrite not_elem_of_list_to_map_1.
Qed.

Lemma merged_lookup (available locked : C) d :
  foldl merge_locked (foldl merge_available ∅ (coin_list available)) (coin_list locked) !! d =
  if decide (AmountOf available d = 0 /\ AmountOf locked d = 0) then None else Some (report_line available locked d).
Proof.
  rewrite merge_locked_lookup by apply NoDup_coin_list.
  rewrite merge_available_lookup by (apply NoDup_coin_list || done). rewrite !coin_list_lookup, lookup_empty.
  unfold report_line, shown. repeat case_decide; naive_solver.
Qed.

Lemma elem_of_denoms (c : C) d : d ∈ denoms_of c <-> AmountOf c d ≠ 0.
Proof.
  unfold denoms_of. rewrite elem_of_list_to_set, list_elem_of_fmap. split.
  - intros ([d' x] & -> & [<- Hn]%coin_list_amount). done.
  - intros Hn. exists (d, AmountOf c d). by rewrite coin_list_amount.
Qed.
Lemma MergeCoinInfo_lines (available locked : C) : MergeCoinInfo available locked = report available locked.
Proof.
  unfold MergeCoinInfo, report. set (ds := merge_sort _ _).
  rewrite <- (sym_entries_unique _ ((fun d => (d, report_line available locked d)) <$> ds)).
  - by rewrite <- list_fmap_compose.
  - assert (Hs : StronglySorted strings.String.le ds) by apply (StronglySorted_merge_sort _). revert Hs. generalize ds as l. clear.
    induction 1 as [|d l _ IH Hd]; constructor; [done|]. apply Forall_fmap. eapply Forall_impl; [exact Hd|]. done.
  - rewrite <- list_fmap_compose. change (NoDup (id <$> ds)). rewrite list_fmap_id. unfold ds. rewrite merge_sort_Permutation. apply NoDup_elements.
  - intros d ci. rewrite merged_lookup, list_elem_of_fmap. unfold ds. setoid_rewrite merge_sort_Permutation.
    setoid_rewrite elem_of_elements. setoid_rewrite elem_of_union. setoid_rewrite elem_of_denoms.
    case_decide; naive_solver lia.
Qed.

End View.
End TokenView.
