(* ===== verification/TokenMain.v ===== *)
(** The properties of the token module. *)
From S2P Require Import Prelude.
From S2P Require Import Interfaces.
From S2P Require Import Coins.
From S2P Require Import Effects.
From S2P Require Import Token.
From S2P Require Import TokenSpec.
From S2P Require Import TokenTables.
From S2P Require Import TokenView.
From stdpp Require Import sorting.
Import Token TokenSpec TokenTables TokenView.
Local Open Scope Z_scope.

Module TokenMain.
Section Main.
Context {W C : Type} `{SdkCoins C, DecCoins C, SysCoins C, TokenBank W C, Keccak, TmHash}.
Context (feeCollectorName : string).
Context `{!SysCoinsLaws C, !TokenBankLaws W C}.
Abbreviation tok := (TokStore W C).
Implicit Types (s : tok) (t : Token) (sym : string) (msg : TokenMsg C).

(** *** One message *)

Lemma performs_ok bt tx s msg fs s' : performs feeCollectorName bt tx s msg fs s' -> tokens_ok s -> tokens_ok s'.
Proof.
  intros Hp Hok. destruct Hp; try done.
  - apply NewToken_fresh; [done|]. by eapply addTokenSuffix_fresh.
  - match goal with Ho : tk_Owner _ = Some a |- _ => rewrite <- Ho end. by eapply hand_over_ok.
  - by apply SetConfirm_ok.
  - match goal with Hc : confirms s !! sym = _ |- _ => destruct (ok_pending s Hok _ _ Hc) as [_ [t Ht]] end.
    apply DeleteConfirm_ok. unfold GetTokenInfo. rewrite Ht. by eapply hand_over_ok.
  - subst t'. by eapply UpdateToken_ok.
Qed.

(** The supply of every token is within its bound, and there is none of
    what is not a token. *)
Definition supply_ok s : Prop := forall d,
  GetSupplyByDenom (tworld s) d <= supply_bound /\ (tokens s !! d = None -> GetSupplyByDenom (tworld s) d = 0).

(** Mints and burns of what a message may mint or burn. *)
Lemma AmountOf_coin k d : 0 <= coin_Amount k -> AmountOf (ToCoins k) d = if decide (coin_Denom k = d) then coin_Amount k else 0.
Proof. destruct k as [d' x]. apply AmountOf_ToCoins. Qed.

Lemma tokens_kept bt tx s msg fs s' sym t : performs feeCollectorName bt tx s msg fs s' -> tokens_ok s ->
  tokens s !! sym = Some t -> is_Some (tokens s' !! sym).
Proof. intros Hp Hok Ht. destruct Hp; cbn; rewrite ?lookup_insert; repeat case_decide; by eauto. Qed.

(** Flows between accounts. *)
Ltac inner :=
  first [solve [repeat first [apply Forall_nil_2 | apply Forall_cons_2; [by split; eexists|]]]
        |apply Forall_fmap; eapply Forall_impl; [eassumption|]; intros ? [[? ?] _]; cbn; eauto].

Lemma performs_supply bt tx s msg fs s' w' : performs feeCollectorName bt tx s msg fs s' -> tokens_ok s -> supply_ok s ->
  flowed fs (tworld s) w' -> supply_ok (s' <| tworld := w' |>).
Proof.
  intros Hp Hok Hs Hf d. destruct (Hs d) as [Hb Hz]. cbn. rewrite (fd_supply _ _ _ Hf d). clear Hf w'.
  assert (Hk : tokens s' !! d = None -> tokens s !! d = None).
  { intros Hn. apply eq_None_not_Some. intros [t Ht]. destruct (tokens_kept _ _ _ _ _ _ _ _ Hp Hok Ht). congruence. }
  destruct Hp; rewrite ?net_mint, ?net_burn, net_inner by inner; rewrite ?AmountOf_coin by done;
    split; try (intros Hn; specialize (Hk Hn); specialize (Hz Hk)); repeat case_decide; subst; try lia; try congruence.
  - assert (tokens s !! d = None) as Hd by by eapply addTokenSuffix_fresh. specialize (Hz Hd). lia.
  - cbn in Hn. rewrite lookup_insert_eq in Hn. done.
Qed.

(** *** Histories

    Messages that went through, with the time of their block, and what
    other modules do to accounts between them. *)
Inductive history (s0 : tok) : list (Z * TokenMsg C) -> tok -> Prop :=
  | history_start : history s0 [] s0
  | history_message log s bt tx msg s' :
      history s0 log s -> Forall (fun e => e.1 <= bt) log -> ValidateBasic msg = None ->
      runs (NewTokenHandler feeCollectorName bt tx msg) s tt s' -> history s0 (log ++ [(bt, msg)]) s'
  | history_other log s w :
      history s0 log s -> (supply_ok s -> supply_ok (s <| tworld := w |>)) -> history s0 log (s <| tworld := w |>).

Lemma performed_ok bt tx s msg s' : performed feeCollectorName bt tx s msg s' -> tokens_ok s -> tokens_ok s'.
Proof. intros (fs & s1 & Hp & Ht & _) Hok. apply (tokens_ok_tables s1); [done|]. by eapply performs_ok. Qed.
Lemma performed_supply bt tx s msg s' : performed feeCollectorName bt tx s msg s' -> tokens_ok s -> supply_ok s -> supply_ok s'.
Proof.
  intros (fs & s1 & Hp & Ht & Hf) Hok Hs. pose proof (performs_supply _ _ _ _ _ _ _ Hp Hok Hs Hf) as Hs'.
  intros d. specialize (Hs' d). unfold tables in Ht. cbn in Hs'. replace (tokens s') with (tokens s1) by congruence. done.
Qed.

Lemma history_ok s0 log s : history s0 log s -> tokens_ok s0 -> tokens_ok s.
Proof.
  intros Hh Hok. induction Hh as [|log s bt tx msg s' _ IH _ Hv Hr|log s w _ IH _]; [done| |].
  - eapply performed_ok; [|exact IH]. by eapply message_performed.
  - by apply (tokens_ok_tables s).
Qed.
Lemma history_supply s0 log s : history s0 log s -> tokens_ok s0 -> supply_ok s0 -> supply_ok s.
Proof.
  intros Hh Hok Hs. induction Hh as [|log s bt tx msg s' Hh IH _ Hv Hr|log s w _ IH Hw]; [done| |by auto].
  eapply performed_supply; [by eapply message_performed|by eapply history_ok|done].
Qed.


(** *** Owners *)

(** What no message changes of a token. *)
Definition same_terms t t' : Prop :=
  tk_Symbol t' = tk_Symbol t /\ tk_OriginalSymbol t' = tk_OriginalSymbol t /\
  tk_OriginalTotalSupply t' = tk_OriginalTotalSupply t /\ tk_Type t' = tk_Type t /\ tk_Mintable t' = tk_Mintable t.
Lemma same_terms_refl t : same_terms t t.
Proof. done. Qed.

Lemma owner_change bt tx s msg fs s' sym t : performs feeCollectorName bt tx s msg fs s' -> tokens_ok s ->
  tokens s !! sym = Some t -> exists t', tokens s' !! sym = Some t' /\ same_terms t t' /\
    (tk_Owner t' = tk_Owner t
     \/ msg = TmTransferOwnership (tk_Owner t) BlackHoleAddress sym /\ tk_Owner t' = BlackHoleAddress /\ confirmable bt sym s = false
     \/ exists co, msg = TmConfirmOwnership sym (tk_Owner t') /\ confirms s !! sym = Some co /\ co_Address co = tk_Owner t' /\
          bt <= co_Expire co /\ confirms s' !! sym = None).
Proof.
  intros Hp Hok Ht.
  destruct Hp as [m a x nsym Ha Hx Hb Hf| | | | |a sym' t0 Ht0 Ho Hc| |b sym' co Hc Ha Hle|m a t0 t' Ht0 Ho Hm Hmod ->];
    try (exists t; by eauto using same_terms_refl).
  - exists t. cbn. rewrite lookup_insert_ne by (intros <-; apply addTokenSuffix_fresh in Hf; congruence).
    by eauto using same_terms_refl.
  - pose proof (ok_symbol s Hok _ _ Ht0) as Hs. cbn. rewrite Hs. destruct (decide (sym' = sym)) as [->|Hd].
    + rewrite lookup_insert_eq. simplify_eq. eexists. split; [done|]. split; [done|]. right; left. by rewrite Ho.
    + rewrite lookup_insert_ne by done. exists t. by eauto using same_terms_refl.
  - destruct (ok_pending s Hok _ _ Hc) as [Hs [t0 Ht0]]. pose proof (ok_symbol s Hok _ _ Ht0) as Hs0.
    cbn. unfold GetTokenInfo. rewrite Ht0. cbn. rewrite Hs0. destruct (decide (sym' = sym)) as [->|Hd].
    + rewrite lookup_insert_eq. simplify_eq. eexists. split; [done|]. split; [done|]. right; right. exists co.
      cbn. rewrite lookup_delete_eq. done.
    + rewrite lookup_insert_ne by done. exists t. by eauto using same_terms_refl.
  - cbn. pose proof (ok_symbol s Hok _ _ Ht0) as Hs. rewrite Hs. destruct (decide (mod_Symbol m = sym)) as [<-|Hd].
    + rewrite lookup_insert_eq. simplify_eq. eexists. split; [done|]. split; [done|]. by left.
    + rewrite lookup_insert_ne by done. exists t. by eauto using same_terms_refl.
Qed.

Lemma offer_change bt tx s msg fs s' sym co : performs feeCollectorName bt tx s msg fs s' ->
  confirms s' !! sym = Some co -> confirms s !! sym = Some co \/
    exists t, msg = TmTransferOwnership (tk_Owner t) (co_Address co) sym /\ tokens s !! sym = Some t /\ tokens s' = tokens s /\
      co_Expire co = bt + OwnershipConfirmWindow (tok_params s).
Proof.
  intros Hp Hco. destruct Hp; cbn in Hco; eauto.
  - rewrite lookup_insert in Hco. case_decide; [|by left]. simplify_eq. right. eexists. cbn. split_and!; try done. congruence.
  - left. by apply lookup_delete_Some in Hco as [_ ?].
Qed.

Lemma performs_params bt tx s msg fs s' : performs feeCollectorName bt tx s msg fs s' -> tok_params s' = tok_params s.
Proof. by destruct 1. Qed.

(** A pending offer was made by the one who owns the token while it stands. *)
Definition offered (log : list (Z * TokenMsg C)) (window : Z) s : Prop := forall sym co, confirms s !! sym = Some co ->
  exists T a t, (T, TmTransferOwnership a (co_Address co) sym) ∈ log /\ co_Expire co = T + window /\ tokens s !! sym = Some t /\
    (Forall (fun e => e.1 <= co_Expire co) log -> tk_Owner t = a).

Lemma offered_performs log bt tx s msg fs s' : performs feeCollectorName bt tx s msg fs s' -> tokens_ok s ->
  offered log (OwnershipConfirmWindow (tok_params s)) s ->
  offered (log ++ [(bt, msg)]) (OwnershipConfirmWindow (tok_params s)) s'.
Proof.
  intros Hp Hok Hoff sym co Hco.
  destruct (offer_change _ _ _ _ _ _ _ _ Hp Hco) as [Hold|(t & -> & Ht & Hsame & He)].
  - destruct (Hoff _ _ Hold) as (T & a & t & Hin & He & Ht & Hown).
    destruct (owner_change _ _ _ _ _ _ _ _ Hp Hok Ht) as (t' & Ht' & _ & Hcase).
    exists T, a, t'. split_and!; [by apply elem_of_app; left|done|done|].
    intros Hall. apply Forall_app in Hall as [Hl Hb]. apply Forall_inv in Hb. cbn in Hb.
    destruct Hcase as [Heq|[(_ & _ & Hn)|(co' & _ & _ & _ & _ & Hn)]]; [by rewrite Heq; auto| |congruence].
    unfold confirmable in Hn. rewrite Hold in Hn. lia.
  - exists bt, (tk_Owner t), t. split_and!; [apply elem_of_app; right; by left|done|by rewrite Hsame|done].
Qed.

Lemma history_params s0 log s : history s0 log s -> tok_params s = tok_params s0.
Proof.
  induction 1 as [|log s bt tx msg s' Hh IH _ Hv Hr|]; [done| |done].
  destruct (message_performed _ _ _ _ _ _ _ Hv Hr) as (fs & s1 & Hp & Ht & _).
  rewrite (tables_params _ _ Ht), (performs_params _ _ _ _ _ _ Hp). done.
Qed.
Lemma history_offered s0 log s : history s0 log s -> tokens_ok s0 -> confirms s0 = ∅ ->
  offered log (OwnershipConfirmWindow (tok_params s0)) s.
Proof.
  intros Hh Hok He. induction Hh as [|log s bt tx msg s' Hh IH _ Hv Hr|log s w Hh IH _].
  - intros sym co Hco. by rewrite He in Hco.
  - destruct (message_performed _ _ _ _ _ _ _ Hv Hr) as (fs & s1 & Hp & Ht & _).
    rewrite <- (history_params _ _ _ Hh) in *. pose proof (offered_performs _ _ _ _ _ _ _ Hp (history_ok _ _ _ Hh Hok) IH) as Hoff.
    intros sym co. specialize (Hoff sym co). unfold tables in Ht.
    replace (tokens s') with (tokens s1) by congruence. by replace (confirms s') with (confirms s1) by congruence.
  - exact IH.
Qed.

(** *** Tokens stay valid *)
Lemma token_valid_spec t : token_valid t <->
  empty (tk_Owner t) = false /\ (String.length (tk_OriginalSymbol t) =? 0)%nat = false /\
  ValidOriginalSymbol (tk_OriginalSymbol t) = true /\ wholeNameValid (tk_WholeName t) = true /\
  (DescLenLimit <? String.length (tk_Description t))%nat = false /\
  (supply_bound <? tk_OriginalTotalSupply t) || (tk_OriginalTotalSupply t <=? 0) = false.
Proof.
  unfold token_valid, MsgTokenIssue_ValidateBasic. cbn [iss_Owner iss_OriginalSymbol iss_WholeName iss_Description iss_TotalSupply].
  rewrite NewDecFromStr_String.
  destruct (empty _); [naive_solver|]. destruct (_ =? 0)%nat; [naive_solver|]. destruct (ValidOriginalSymbol _); [|naive_solver].
  destruct (wholeNameValid _); [|naive_solver]. destruct (_ <? _)%nat; [naive_solver|]. destruct (_ || _); naive_solver.
Qed.
Lemma valid_owner t a : token_valid t -> token_valid (t <| tk_Owner := Some a |>).
Proof. rewrite !token_valid_spec. by intros (_ & Hrest). Qed.
Lemma valid_issue m a sym x : MsgTokenIssue_ValidateBasic m = None -> NewDecFromStr (iss_TotalSupply m) = Some x ->
  token_valid (mkToken (iss_Description m) sym (iss_OriginalSymbol m) (iss_WholeName m) x 0 (Some a) (iss_Mintable m)).
Proof.
  unfold token_valid, MsgTokenIssue_ValidateBasic. cbn. rewrite NewDecFromStr_String. intros Hv Hx. rewrite Hx in Hv.
  by destruct (empty (iss_Owner m)).
Qed.
Lemma modify_names m : MsgTokenModify_ValidateBasic m = None ->
  (mod_IsWholeNameModified m = true -> wholeNameValid (mod_WholeName m) = true) /\
  (mod_IsDescriptionModified m = true -> (DescLenLimit <? String.length (mod_Description m))%nat = false).
Proof.
  unfold MsgTokenModify_ValidateBasic.
  destruct (empty _); [done|]. destruct (_ =? 0)%nat; [done|]. destruct (negb (ValidateDenom _)); [done|].
  destruct (mod_IsWholeNameModified m), (wholeNameValid _), (mod_IsDescriptionModified m), (_ <? _)%nat; naive_solver.
Qed.
Lemma valid_modify m t : MsgTokenModify_ValidateBasic m = None -> token_valid t ->
  token_valid (mkToken (if mod_IsDescriptionModified m then mod_Description m else tk_Description t) (tk_Symbol t)
    (tk_OriginalSymbol t) (if mod_IsWholeNameModified m then mod_WholeName m else tk_WholeName t)
    (tk_OriginalTotalSupply t) (tk_Type t) (tk_Owner t) (tk_Mintable t)).
Proof.
  intros [Hw Hd]%modify_names. rewrite !token_valid_spec. cbn [tk_Owner tk_OriginalSymbol tk_WholeName tk_Description tk_OriginalTotalSupply].
  intros (? & ? & ? & ? & ? & ?). destruct (mod_IsWholeNameModified m), (mod_IsDescriptionModified m); auto 10.
Qed.

Lemma performs_valid bt tx s msg fs s' : performs feeCollectorName bt tx s msg fs s' -> ValidateBasic msg = None ->
  tokens_ok s -> tokens_valid s -> tokens_valid s'.
Proof.
  intros Hp Hv Hok Hval sym t.
  destruct Hp as [m a x nsym Ha Hx Hb Hf| | | | |a sym' t0 Ht0 Ho Hc| |b sym' co Hc Ha Hle|m a t0 t' Ht0 Ho Hm Hmod ->];
    cbn; try apply Hval; rewrite lookup_insert; (case_decide; [intros [= <-]|apply Hval]).
  - by apply valid_issue.
  - by eapply valid_owner, Hval.
  - apply valid_owner. destruct (ok_pending s Hok _ _ Hc) as [_ [t0 Ht0]]. unfold GetTokenInfo. rewrite Ht0. by eapply Hval.
  - apply valid_modify; [done|by eapply Hval].
Qed.

Lemma history_valid s0 log s : history s0 log s -> tokens_ok s0 -> tokens_valid s0 -> tokens_valid s.
Proof.
  intros Hh Hok Hval. induction Hh as [|log s bt tx msg s' Hh IH _ Hv Hr|log s w Hh IH _]; [done| |done].
  destruct (message_performed _ _ _ _ _ _ _ Hv Hr) as (fs & s1 & Hp & Ht & _).
  pose proof (performs_valid _ _ _ _ _ _ Hp Hv (history_ok _ _ _ Hh Hok) IH) as Hs1.
  intros sym. specialize (Hs1 sym). unfold tables in Ht. by replace (tokens s') with (tokens s1) by congruence.
Qed.

(** ** Properties *)

(** C32: every message that passes its basic check and goes through does
    what the specification [performs] says: the guards of the message hold,
    the tables change as specified, and every balance and the supply of
    every coin change by exactly the specified flows, fees included. *)
Theorem messages_follow_flows bt tx s msg u s' :
  ValidateBasic msg = None -> runs (NewTokenHandler feeCollectorName bt tx msg) s u s' ->
  exists fs s1, performs feeCollectorName bt tx s msg fs s1 /\ tables s' = tables s1 /\ flowed fs (tworld s) (tworld s').
Proof. intros Hv Hr. exact (message_performed _ _ _ _ _ _ _ Hv Hr). Qed.

(** C34: through any history of messages the tables stay well-formed (a
    token is stored at its symbol, the index of owners has exactly the owner
    of each token, pending hand-overs are of tokens there are, no lock is
    empty), no coin has a supply beyond the bound and what is not a token
    has none, and the tokens listed for an owner are those of the list of
    all tokens which the owner has. *)
Theorem tokens_stay_in_order s0 log s :
  history s0 log s -> tokens_ok s0 -> supply_ok s0 ->
  tokens_ok s /\ supply_ok s /\
  forall a, GetUserTokensInfo a s = filter (fun t => tk_Owner t = a) (GetTokensInfo s).
Proof.
  intros Hh Hok Hs. split_and!; [by eapply history_ok|by eapply history_supply|].
  intros a. apply user_tokens_listed. by eapply history_ok.
Qed.

(** C33: a message keeps every token with its terms, and changes its owner
    only to the black hole, at the owner's word, or to one who confirms a
    hand-over that the present owner has offered to exactly this one, at
    most the confirmation window ago. *)
Theorem ownership_needs_consent s0 log s bt tx msg s' sym t :
  tokens_ok s0 -> confirms s0 = ∅ -> history s0 log s -> Forall (fun e => e.1 <= bt) log ->
  ValidateBasic msg = None -> runs (NewTokenHandler feeCollectorName bt tx msg) s tt s' -> tokens s !! sym = Some t ->
  exists t', tokens s' !! sym = Some t' /\ same_terms t t' /\
    (tk_Owner t' = tk_Owner t
     \/ msg = TmTransferOwnership (tk_Owner t) BlackHoleAddress sym /\ tk_Owner t' = BlackHoleAddress
     \/ exists T, msg = TmConfirmOwnership sym (tk_Owner t') /\
          (T, TmTransferOwnership (tk_Owner t) (tk_Owner t') sym) ∈ log /\
          bt <= T + OwnershipConfirmWindow (tok_params s0)).
Proof.
  intros Hok He Hh Hl Hv Hr Ht. destruct (message_performed _ _ _ _ _ _ _ Hv Hr) as (fs & s1 & Hp & Htab & _).
  destruct (owner_change _ _ _ _ _ _ _ _ Hp (history_ok _ _ _ Hh Hok) Ht) as (t' & Ht' & Hsame & Hcase).
  exists t'. unfold tables in Htab. replace (tokens s') with (tokens s1) by congruence. split_and!; [done|done|].
  destruct Hcase as [Heq|[(-> & Hb & _)|(co & -> & Hco & Ha & Hle & _)]]; [by left|right; by left|].
  right; right. destruct (history_offered _ _ _ Hh Hok He _ _ Hco) as (T & a & t0 & Hin & Hexp & Ht0 & Hown).
  exists T. assert (t0 = t) as -> by congruence. rewrite Hown, <- Ha.
  - split_and!; [by rewrite Ha|done|lia].
  - eapply Forall_impl; [exact Hl|]. intros e. cbn. lia.
Qed.

(** C35: after any history from valid tokens, the exported genesis passes
    its check and, loaded into an empty store, restores every token, the
    index of owners, all locks and the parameters; pending hand-overs are
    lost, and the number of tokens becomes their actual number. *)
Theorem token_genesis_restores s0 log s p w :
  history s0 log s -> tokens_ok s0 -> tokens_valid s0 ->
  validateGenesis (ExportGenesis s) = None /\ initGenesis (ExportGenesis s) (blank p w) = Ret (restored s w, inl tt).
Proof.
  intros Hh Hok Hval. split; [by eapply validateGenesis_export, history_valid|]. by eapply initGenesis_export, history_ok.
Qed.

(** The merged coins of an account are one line for each denomination
    it has available or locked, in the order of the denominations, with the
    amounts of both sets and ["0"] for what it does not have. *)
Theorem MergeCoinInfo_report (available locked : C) : MergeCoinInfo available locked = report available locked.
Proof. apply MergeCoinInfo_lines. Qed.

End Main.
End TokenMain.
