(* ===== verification/TokenExamples.v ===== *)
(** A bank over finite maps and the token module at work on it: issuing a
    token, minting, handing it over, and the witnesses of the properties. *)
From S2P Require Import Prelude.
From S2P Require Import Interfaces.
From S2P Require Import Coins.
From S2P Require Import Effects.
From S2P Require Import Token.
From S2P Require Import TokenSpec.
From S2P Require Import TokenTables.
From S2P Require Import TokenView.
From S2P Require Import TokenMain.
From Stdlib Require Import DecimalString DecimalZ.
From stdpp Require Import sorting.
Import MapInstances MapCoins Token TokenSpec TokenTables TokenView TokenMain.
Local Open Scope Z_scope.

Module TokenExamples.

(** ** Coins *)
Definition print_dec (x : Dec) : string := NilEmpty.string_of_int (Z.to_int x).
Definition parse_dec (s : string) : option Dec := Z.of_int <$> NilEmpty.int_of_string s.
Lemma parse_print x : parse_dec (print_dec x) = Some x.
Proof. unfold parse_dec, print_dec. by rewrite NilEmpty.isi; cbn; rewrite of_to. Qed.

#[export] Instance map_SysCoins : SysCoins coins := {
  coin_list c := (fun dx => (dx.1, Z.pos dx.2)) <$> sym_entries c;
  ToCoins k := coins_put ∅ (coin_Denom k) (coin_Amount k);
  coins_IsValid _ := true;
  coins_IsAllPositive c := negb (bool_decide (c = ∅));
  coin_IsValid k := 0 <=? coin_Amount k;
  ValidateDenom d := (2 <=? String.length d)%nat;
  NewDecFromStr := parse_dec;
  MustParseCoins d str := x ← parse_dec str; if 0 <? x then Some (coins_put ∅ d x) else None;
  Dec_String := print_dec;
}.

Lemma ltb_le_ne (a b : string) : strings.String.le a b -> a ≠ b -> String.ltb a b = true.
Proof.
  unfold strings.String.le, String.leb, String.ltb. destruct (String.compare a b) eqn:Hc; [|done|done].
  by apply String.compare_eq_iff in Hc.
Qed.
Lemma sorted_strictly {A} (l : list (string * A)) : StronglySorted sym_le l -> NoDup l.*1 ->
  StronglySorted (fun a b => String.ltb a b = true) l.*1.
Proof.
  induction 1 as [|e l _ IH He]; [constructor|]. rewrite fmap_cons. intros [Hn Hl]%NoDup_cons. constructor; [by apply IH|].
  apply Forall_forall. intros k Hk. apply ltb_le_ne; [|by intros <-].
  apply list_elem_of_fmap in Hk as (e' & -> & Hin). by apply (proj1 (Forall_forall _ _) He).
Qed.

Lemma put_amount d x d' : 0 <= x -> coins_amount (coins_put ∅ d x) d' = if decide (d = d') then x else 0.
Proof. intros Hx. rewrite coins_amount_put by done. done. Qed.

#[export] Instance map_SysCoinsLaws : SysCoinsLaws coins.
Proof.
  split; cbn.
  - intros c. rewrite <- list_fmap_compose. change (StronglySorted (fun a b => String.ltb a b = true) (sym_entries c).*1).
    apply sorted_strictly; [apply sym_entries_sorted|apply NoDup_sym_entries].
  - intros c d x. rewrite list_elem_of_fmap. unfold coins_amount. split.
    + intros ([d' p] & [= -> ->] & Hp%elem_of_sym_entries). cbn in *. by rewrite Hp.
    + intros [Hc Hx]. destruct (c !! d) as [p|] eqn:Hp; [|done]. exists (d, p). by rewrite elem_of_sym_entries, <- Hc.
  - intros d x d' Hx. by apply put_amount.
  - intros d str c x d' Hc Hx. rewrite Hx in Hc. cbn in Hc. destruct (Z.ltb_spec 0 x); [|done]. simplify_eq. apply put_amount. lia.
  - apply parse_print.
  - intros k. lia.
Qed.

(** ** A bank *)
Record bank_world := mkBank { accounts : gmap Address coins; supply : coins }.
Definition held (w : bank_world) (a : Address) : coins := default ∅ (accounts w !! a).
Definition credit (a : Address) (c : coins) (w : bank_world) : bank_world :=
  mkBank (<[a := CoinsAdd (held w a) c]> (accounts w)) (supply w).
Definition debit (a : Address) (c : coins) (w : bank_world) : option bank_world :=
  c' ← CoinsSub (held w a) c; Some (mkBank (<[a := c']> (accounts w)) (supply w)).
Definition move (a b : Address) (c : coins) (w : bank_world) : option bank_world := credit b c <$> debit a c w.
Definition move_from (a : AccAddress) (b : Address) (c : coins) (w : bank_world) : option bank_world :=
  match a with Some a => move a b c w | None => None end.
Definition module_account (m : string) : Address := if String.eqb m "token" then 100%N else 101%N.

#[export] Instance map_TokenBank : TokenBank bank_world coins := {
  module_address := module_account;
  bank_GetCoins := held;
  GetSupplyByDenom w d := coins_amount (supply w) d;
  MintCoins w m c := Some (credit (module_account m) c (mkBank (accounts w) (CoinsAdd (supply w) c)));
  BurnCoins w m c := s ← CoinsSub (supply w) c; debit (module_account m) c (mkBank (accounts w) s);
  SendCoinsFromModuleToAccount w m a c := match a with Some a => move (module_account m) a c w | None => None end;
  SendCoinsFromAccountToModule w a m c := move_from a (module_account m) c w;
  SendCoins w a b c := match b with Some b => move_from a b c w | None => None end;
  GetSendEnabled _ := true;
  BlacklistedAddr a := bool_decide (a = Some 100%N);
  EthCodeHash _ _ := None;
}.

Lemma add_amount (c1 c2 : coins) d : coins_amount (CoinsAdd c1 c2) d = coins_amount c1 d + coins_amount c2 d.
Proof. exact (AmountOf_CoinsAdd c1 c2 d). Qed.
Lemma sub_amount (c1 c2 c : coins) d : CoinsSub c1 c2 = Some c -> coins_amount c d = coins_amount c1 d - coins_amount c2 d.
Proof. exact (AmountOf_CoinsSub c1 c2 c d). Qed.
Lemma credit_amount a c w b d : coins_amount (held (credit a c w) b) d =
  coins_amount (held w b) d + if decide (a = b) then coins_amount c d else 0.
Proof.
  unfold held at 1, credit. cbn [accounts]. rewrite lookup_insert. case_decide as Hd; [subst; apply add_amount|].
  fold (held w b). lia.
Qed.
Lemma debit_amount a c w w' b d : debit a c w = Some w' ->
  supply w' = supply w /\ coins_amount (held w' b) d = coins_amount (held w b) d - if decide (a = b) then coins_amount c d else 0.
Proof.
  unfold debit. destruct (CoinsSub (held w a) c) as [c'|] eqn:Hc; [|done]. intros [= <-]. split; [done|].
  unfold held at 1. cbn [accounts]. rewrite lookup_insert. case_decide as Hd; [subst; by apply sub_amount|].
  fold (held w b). lia.
Qed.

Ltac one_flow := unfold held; cbn [accounts]; rewrite net_cons, net_nil; unfold flow_in, flow_out; cbn [fl_from fl_to fl_amount AmountOf map_SdkCoins module_address map_TokenBank];
  repeat case_decide; try congruence; try lia.

Lemma move_flow a b c w w' : move a b c w = Some w' -> flowed [mkFlow (Some a) (Some b) (AmountOf c)] w w'.
Proof.
  unfold move. destruct (debit a c w) as [w1|] eqn:Hw; [|done]. intros [= <-]. split.
  - intros x d. destruct (debit_amount _ _ _ _ x d Hw) as [_ Hd]. change (balance ?w ?x ?d) with (coins_amount (held w x) d).
    rewrite credit_amount, Hd. one_flow.
  - intros d. destruct (debit_amount _ _ _ _ a d Hw) as [Hs _].
    change (coins_amount (supply w1) d = coins_amount (supply w) d - net [mkFlow (Some a) (Some b) (AmountOf c)] None d).
    rewrite Hs. one_flow.
Qed.

#[export] Instance map_TokenBankLaws : TokenBankLaws bank_world coins.
Proof.
  split.
  - intros w m c w' [= <-]. split.
    + intros x d. change (balance ?w ?x ?d) with (coins_amount (held w x) d). rewrite credit_amount. one_flow.
    + intros d. change (coins_amount (CoinsAdd (supply w) c) d =
        coins_amount (supply w) d - net [mkFlow None (Some (module_account m)) (AmountOf c)] None d).
      rewrite add_amount. one_flow.
  - intros w m c w' Hb. cbn [BurnCoins map_TokenBank] in Hb. destruct (CoinsSub (supply w) c) as [s|] eqn:Hs; [|done].
    cbn [mbind option_bind] in Hb. split.
    + intros x d. destruct (debit_amount _ _ _ _ x d Hb) as [_ Hd]. change (balance ?w ?x ?d) with (coins_amount (held w x) d).
      rewrite Hd. one_flow.
    + intros d. destruct (debit_amount _ _ _ _ 0%N d Hb) as [Hsup _]. cbn in Hsup.
      change (coins_amount (supply w') d = coins_amount (supply w) d - net [mkFlow (Some (module_account m)) None (AmountOf c)] None d).
      rewrite Hsup, (sub_amount _ _ _ d Hs). one_flow.
  - intros w m a c w' Hm. by apply move_flow.
  - intros w a m c w' Hm. by apply move_flow.
  - intros w a b c w' Hm. by apply move_flow.
Qed.

(** ** A token is issued, minted and handed over *)
#[export] Instance demo_TmHash : TmHash := tail_Keccak.
Abbreviation state := (TokStore bank_world coins).
Abbreviation E := (eff state tok_error).
Definition collector : string := "fee_collector".
Definition after {A} (m : E A) (s : state) : state := match m s with Ret (s', inl _) => s' | _ => s end.
Definition succeeds {A} (m : E A) (s : state) : bool := match m s with Ret (_, inl _) => true | _ => false end.
Lemma message_runs (m : E unit) s : succeeds m s = true -> runs m s tt (after m s).
Proof. unfold succeeds, after, runs. destruct (m s) as [[s' [[]|]]|]; done. Qed.

Definition fax (n : Z) : coins := coins_put ∅ "fax" (n * dec_one).
Definition rich : bank_world := mkBank {[21%N := fax 1000000]} (fax 1000000).
Definition nothing : state := blank (DefaultParams "fax") rich.
Definition started : state := NewToken (defaultGenesisStateOKT "fax" 21%N) nothing.

Definition tx : bytes := [x00; x00].
Definition issue_abc : TokenMsg coins :=
  TmIssue (mkMsgIssue "A token" "" "abc" "Abc Coin" (print_dec (1000 * dec_one)) (Some 21%N) true).
Definition abc : string := "abc-000".
Definition mint_abc : TokenMsg coins := TmMint (mkSysCoin abc (5 * dec_one)) (Some 21%N).
Definition offer_abc : TokenMsg coins := TmTransferOwnership (Some 21%N) (Some 22%N) abc.
Definition confirm_abc : TokenMsg coins := TmConfirmOwnership abc (Some 22%N).
Definition handle (bt : Z) (msg : TokenMsg coins) : E unit := NewTokenHandler collector bt tx msg.
Definition issued : state := after (handle 1000 issue_abc) started.
Definition minted : state := after (handle 1500 mint_abc) issued.
Definition pending : state := after (handle 2000 offer_abc) minted.
Definition handed_over : state := after (handle 3000 confirm_abc) pending.

Example abc_symbol : addTokenSuffix tx "abc" started = Some abc.
Proof. vm_compute. reflexivity. Qed.

Lemma issue_valid : ValidateBasic issue_abc = None.
Proof. vm_compute. reflexivity. Qed.
Lemma mint_valid : ValidateBasic mint_abc = None.
Proof. vm_compute. reflexivity. Qed.
Lemma offer_valid : ValidateBasic offer_abc = None.
Proof. vm_compute. reflexivity. Qed.
Lemma confirm_valid : ValidateBasic confirm_abc = None.
Proof. vm_compute. reflexivity. Qed.
Lemma issue_runs : runs (handle 1000 issue_abc) started tt issued.
Proof. apply message_runs. vm_compute. reflexivity. Qed.
Lemma mint_runs : runs (handle 1500 mint_abc) issued tt minted.
Proof. apply message_runs. vm_compute. reflexivity. Qed.
Lemma offer_runs : runs (handle 2000 offer_abc) minted tt pending.
Proof. apply message_runs. vm_compute. reflexivity. Qed.
Lemma confirm_runs : runs (handle 3000 confirm_abc) pending tt handed_over.
Proof. apply message_runs. vm_compute. reflexivity. Qed.

Definition demo_log : list (Z * TokenMsg coins) := [(1000, issue_abc); (1500, mint_abc); (2000, offer_abc)].
Lemma demo_history : history collector started demo_log pending.
Proof.
  apply (history_message collector started [(1000, issue_abc); (1500, mint_abc)] minted 2000 tx offer_abc pending);
    [|repeat constructor; done|exact offer_valid|exact offer_runs].
  apply (history_message collector started [(1000, issue_abc)] issued 1500 tx mint_abc minted);
    [|repeat constructor; done|exact mint_valid|exact mint_runs].
  apply (history_message collector started [] started 1000 tx issue_abc issued);
    [|constructor|exact issue_valid|exact issue_runs].
  constructor.
Qed.

Lemma nothing_ok : tokens_ok nothing.
Proof.
  split.
  - by intros sym t.
  - intros a sym. split; [by intros Ha%elem_of_empty|]. by intros (t & ? & _).
  - by intros sym co.
  - by intros addr c.
  - by intros addr c.
Qed.
Lemma started_ok : tokens_ok started.
Proof. apply NewToken_fresh; [exact nothing_ok|done]. Qed.
Lemma started_valid : tokens_valid started.
Proof.
  intros sym t Ht. change (({["fax" := defaultGenesisStateOKT "fax" 21%N]} : gmap string Token) !! sym = Some t) in Ht.
  apply lookup_singleton_Some in Ht as [_ <-]. vm_compute. reflexivity.
Qed.
Lemma started_supply : supply_ok started.
Proof.
  intros d. change (GetSupplyByDenom (tworld started) d) with (coins_amount (fax 1000000) d). unfold fax. rewrite put_amount by done.
  change (tokens started !! d) with (({["fax" := defaultGenesisStateOKT "fax" 21%N]} : gmap string Token) !! d).
  assert (Hle : 1000000 * dec_one <= supply_bound) by by vm_compute.
  case_decide as Hd; [|by split; [vm_compute|]]. subst. rewrite lookup_singleton_eq. split; [exact Hle|discriminate].
Qed.

(** *** Witnesses *)
Lemma messages_follow_flows_witness : exists fs s1, performs collector 1500 tx issued mint_abc fs s1 /\
  tables minted = tables s1 /\ flowed fs (tworld issued) (tworld minted).
Proof. exact (messages_follow_flows collector 1500 tx issued mint_abc tt minted mint_valid mint_runs). Defined.

Lemma tokens_stay_in_order_witness : tokens_ok pending /\ supply_ok pending /\
  forall a, GetUserTokensInfo a pending = filter (fun t => tk_Owner t = a) (GetTokensInfo pending).
Proof. exact (tokens_stay_in_order collector started demo_log pending demo_history started_ok started_supply). Defined.

Lemma no_offers : confirms started = ∅.
Proof. done. Qed.
Lemma demo_times : Forall (fun e => e.1 <= 3000) demo_log.
Proof. repeat constructor; done. Qed.
Definition the_abc : Token := GetTokenInfo abc pending.
Lemma abc_there : tokens pending !! abc = Some the_abc.
Proof. vm_compute. reflexivity. Qed.
Lemma ownership_needs_consent_witness : exists t', tokens handed_over !! abc = Some t' /\ same_terms the_abc t' /\
  (tk_Owner t' = tk_Owner the_abc
   \/ confirm_abc = TmTransferOwnership (tk_Owner the_abc) BlackHoleAddress abc /\ tk_Owner t' = BlackHoleAddress
   \/ exists T, confirm_abc = TmConfirmOwnership abc (tk_Owner t') /\
        (T, TmTransferOwnership (tk_Owner the_abc) (tk_Owner t') abc) ∈ demo_log /\
        3000 <= T + OwnershipConfirmWindow (tok_params started)).
Proof.
  exact (ownership_needs_consent collector started demo_log pending 3000 tx confirm_abc handed_over abc the_abc
           started_ok no_offers demo_history demo_times confirm_valid confirm_runs abc_there).
Defined.
Example abc_changed_hands : tk_Owner <$> (tokens handed_over !! abc) = Some (Some 22%N).
Proof. vm_compute. reflexivity. Qed.

Lemma token_genesis_restores_witness : validateGenesis (ExportGenesis pending) = None /\
  initGenesis (ExportGenesis pending) (blank (DefaultParams "fax") rich) = Ret (restored pending rich, inl tt).
Proof.
  exact (token_genesis_restores collector started demo_log pending (DefaultParams "fax") rich demo_history started_ok started_valid).
Defined.

Lemma MergeCoinInfo_report_witness : MergeCoinInfo (fax 5) (fax 7) = report (fax 5) (fax 7).
Proof. exact (MergeCoinInfo_report (fax 5) (fax 7)). Defined.

End TokenExamples.
